(* ===== verification/_CoqProject ===== *)
-Q . S2P
Prelude.v
Decimal.v
Calendar.v
RiskContracts.v
Float64.v
CircuitBreaker.v
Bytes.v
Wire.v
Sha256.v
Ed25519.v
SignerEnforcer.v
SignerProcess.v
Intents.v
SurvivableStop.v
DecimalOrder.v
FloatRepr.v
Sizing.v
LiquiditySanity.v
PyText.v
PyParse.v
UriShape.v
Clamp.v
Prompt.v
Reasoner.v
SafetyGate.v
Haircut.v
ExitEngine.v
MicroPreset.v
Positions.v
StateStore.v
Fsm.v
SellSim.v
LpUnlock.v
DeployerGates.v
AntiFomo.v
SnipeLoop.v
Decoders.v
MultiWallet.v
Tips.v
SplitExit.v
InsiderDump.v
SlowLoop.v
CostModel.v
RestingOrders.v
Enforcer.v
RuleEngine.v
FastLoop.v
FastExits.v
Reconcile.v
Orchestrator.v
ControlPlane.v
DeadMan.v
DmsService.v
VenueStop.v
