(* ===== verification/Prelude.v ===== *)
(** * AATS: a verification library

    ** The program

    [src/aats] is a Solana token sniper written in Python.  Its money path runs
    on three loops over one shared store:

    - the entry loop ([controller/snipe_loop.py]) turns a launch event into at
      most one entry: denylist, safety gate, de-risk gates, cost gate, sizing,
      lock, write-ahead record, submission;
    - the position loop ([controller/fast_loop.py]) ticks every open position:
      reconcile, enforcer, exit flags, exit engine, breaker;
    - the slow loop ([controller/slow_loop.py]) asks the regime model, the
      survivor model and an LLM, and may only write pre-set de-risk flags.

    Around them sit a daily-loss circuit breaker, a dead-man's switch in its
    own process, a stop resting at the venue, a signer process that re-derives
    every limit from the transaction bytes, and the operator's HTTP surface.
    The design rule of the source is asymmetric trust: models, LLMs, sentiment,
    chat and timers may take risk away and never add any.  Most theorems here
    are instances of that rule, or say that a demand to take risk away is
    served.

    ** How the model is built

    The embedding is shallow and executable.  A Python call is a [result]
    (value or exception) or, when it changes an object, an [M S A], state
    passing that keeps the mutations made before a raise ([Prelude]).
    [Decimal] is the standard library's reference algorithm at 28 digits,
    floats are [SpecFloat] binary64, integers are unbounded as in Python,
    bytes and text are lists of bytes.  Pydantic validators run in their order;
    a money field still unchecked for [float] is a [pynum].  Dicts are [gmap]s,
    or association lists where the order of insertion is observed.  Every
    method that holds a lock is one atomic step, so interleavings are lists of
    steps.

    Code outside the repository is a parameter: RPC nodes, the venue, the LLM
    backends, [solders]' signing, Redis, clocks.  A venue may answer by
    everything it was sent before; a clock is the sequence of its readings.
    Laws assumed of such code are class fields or named hypotheses, and a
    witness instantiates them.

    ** The files

    Language: [Decimal], [DecimalOrder] ([decimal]); [Float64], [FloatRepr],
    [PyText], [PyParse] ([float], [repr], [str], [int], [json.dumps]); [Calendar] ([datetime]);
    [Bytes], [Sha256], [Ed25519] ([int.from_bytes], [hashlib],
    [execution/ed25519_field.py]).

    Contracts: [RiskContracts] ([contracts/risk.py]), [Intents]
    ([contracts/intents.py]), [Positions] ([contracts/positions.py],
    [contracts/venue.py]).

    Signing: [Wire] ([execution/solana_wire.py]), [SignerEnforcer]
    ([signer_enforcer.py]), [SignerProcess] ([signer_process.py]).

    Stream: [UriShape], [Decoders] ([ingestion/decoders.py],
    [ingestion/registry.py]).

    Entry: [SafetyGate] ([risk/pretrade_gate.py], [blacklist.py]),
    [LiquiditySanity], [Haircut] (the interface of the de-risk gates) with its
    clients [LpUnlock], [DeployerGates], [AntiFomo]; [SellSim]
    ([execution/sell_sim.py], [risk/sellability_reprobe.py]); [Sizing],
    [CostModel]; [SnipeLoop]; [MultiWallet] ([execution/multi_wallet.py]);
    [Tips] ([mev/tip_stream.py], [mev/tip_controller.py],
    [mev/bundle_submitter.py]).

    Exit: [ExitEngine], [SurvivableStop], [Enforcer]
    ([risk/secondary_enforcer.py], [controller/enforcer_wiring.py]),
    [RuleEngine] ([risk/rule_engine.py]), [SplitExit] ([mev/split_exit.py]),
    [RestingOrders], [VenueStop] ([risk/venue_native_stop.py],
    [survivable_stop_coordinator.py]), [DeadMan] ([risk/deadman.py],
    [dms_service.py]), [DmsService] ([risk/presigned_flatten.py],
    [dms_main.py]), [CircuitBreaker], [InsiderDump]
    ([ingestion/insider_dump.py]).

    Reasoning: [Clamp] ([reasoning/schema.py], [clamp.py], [matrix.py]),
    [Prompt], [Reasoner] ([reasoner.py], [router.py]).

    Control: [StateStore], [Fsm], [FastLoop] and [FastExits], [SlowLoop],
    [Reconcile], [Orchestrator] ([loops.py], [enrichment_wiring.py]),
    [ControlPlane] ([control_plane/server.py], [control_api.py]);
    [MicroPreset] ([risk/presets.py]).

    A definition keeps the name of the function, method or class it models; a
    class is a [Module] with a record [t], or a record of that name.

    ** What the theorems show

    - No entry without every guard, no exposure above the caps unless a mint
      with a stored position is bought again, no second lock holder, exits for
      every demand: [SnipeLoop], [StateStore], [FastLoop], [FastExits],
      [Orchestrator].
    - A restart settles every stored record and arms what landed meanwhile;
      the off-box keeper and the process hold one stop line per mint; gates
      only take size away: [Reconcile], [VenueStop], [Haircut].
    - What the operator can and cannot do: a kill is final, LIVE needs two
      independent gates, limits only tighten in one request: [ControlPlane].
    - A latched breaker, a silent loop and a breached stop each force the
      book flat, once: [CircuitBreaker], [DeadMan], [DmsService], [VenueStop].
    - Signatures satisfy C0-C5 and stay below the rolling caps over every run;
      parsing inverts building: [SignerEnforcer], [SignerProcess], [Wire].
    - An event of the stream carries the slot and block time of its
      transaction, whatever the machine's clock reads, and names the
      instruction it came from: [Decoders], [InsiderDump].
    - Refinements of abstract specifications: the breaker against the daily
      sum, the signer's caches against a cache-free evaluation, the clamp and
      matrix against the join of all demands, the short-circuit gates against
      their full scans.
    - Termination: the LLM router's retries, the exit engine's timeout, every
      loop of the wire parser (structural or by the length of its input).

    ** Fuel

    Recursions that Python bounds by data are structural.  Where a fuel
    appears it is computed from the input: [ndigits] uses the bit length,
    [pretty] digits the same, the calendar the year range, base58 the length
    of the text; a lemma beside each shows the result does not depend on more.
    Reconciliation, retries and schedules recurse on the lists the code
    iterates over.

    ** Not modelled

    Log and telemetry calls (nothing reads them back); GET endpoints and
    HTTP/WebSocket/Redis/SQL transport; model training
    and inference, feature computation and sentiment scoring (their outputs
    are universally quantified inputs of the loops); backtests; the chat bot,
    which posts to the modelled endpoints; the dashboard, the Go service and
    the Rust crates, which are separate programs. *)

From stdpp Require Export base tactics gmap strings list numbers option pretty.
From Stdlib Require Export ZArith Lia.

#[global] Open Scope Z_scope.

(** ** Python exceptions and results

    A Python call either returns or raises.  [exn] lists the exception classes
    the modelled code raises; the string is the machine-readable head of the
    message. *)

Inductive exn : Type :=
| ValueError (m : string)
| TypeError (m : string)
| PermissionError (m : string)
| AssertionError (m : string)
| IndexError (m : string)
| KeyError (m : string)
| OverflowError (m : string)
| InvalidOperation (m : string)
| ZeroDivisionError (m : string)
| RuntimeError (m : string)
| CustomError (cls : string) (m : string).

#[export] Instance exn_eq_dec : EqDecision exn.
Proof. solve_decision. Defined.

Inductive result (A : Type) : Type :=
| Ok (a : A)
| Raise (e : exn).
Arguments Ok {A} a.
Arguments Raise {A} e.

#[export] Instance result_eq_dec {A} `{EqDecision A} : EqDecision (result A).
Proof. solve_decision. Defined.

#[export] Instance result_ret : MRet result := λ A a, Ok a.
#[export] Instance result_bind : MBind result := λ A B f m,
  match m with Ok a => f a | Raise e => Raise e end.

Definition is_ok {A} (r : result A) : bool :=
  match r with Ok _ => true | Raise _ => false end.

(** ** Stateful Python code

    [M S A]: code that mutates a state of type [S] and returns an [A] or
    raises.  As in Python, a mutation made before a raise stays. *)

Definition M (S A : Type) : Type := S → result A * S.

#[export] Instance M_ret {S} : MRet (M S) := λ A a s, (Ok a, s).
#[export] Instance M_bind {S} : MBind (M S) := λ A B f m s,
  match m s with
  | (Ok a, s') => f a s'
  | (Raise e, s') => (Raise e, s')
  end.

Section monad_ops.
Context {S : Type}.
Definition get : M S S := λ s, (Ok s, s).
Definition gets {A} (f : S → A) : M S A := λ s, (Ok (f s), s).
Definition modify (f : S → S) : M S unit := λ s, (Ok tt, f s).
Definition raise {A} (e : exn) : M S A := λ s, (Raise e, s).
Definition lift {A} (r : result A) : M S A := λ s, (r, s).
End monad_ops.

(** [assert c else e] of the result layer: raise [e] unless [c]. *)
Definition guard_ok (c : bool) (e : exn) : result unit :=
  if c then Ok tt else Raise e.

(** ** Python numbers where the code tests [isinstance(x, float)]

    Only the [repr] of a float is ever used on those paths. *)
Inductive pynum : Type :=
| PyInt (z : Z)
| PyFloat (repr : string).

(** An argument the code wants to be an [int] and no [bool]. *)
Inductive int_arg : Type := IInt (z : Z) | IFloat (repr : string) | IBool (b : bool).

(** The boundary checks [_check_int] and [_check_str], the same in several
    modules of the source. *)
Definition _check_int (name : string) (v : int_arg) (min_value : option Z) : result Z :=
  match v with
  | IInt z =>
      match min_value with
      | Some m => if z <? m then Raise (ValueError (name +:+ " must be >= " +:+ pretty m)) else Ok z
      | None => Ok z
      end
  | _ => Raise (TypeError (name +:+ " must be int"))
  end.
Definition _check_str (name value : string) : result string :=
  if bool_decide (value = "") then Raise (ValueError (name +:+ " must be a non-empty str")) else Ok value.

(** [type(exc).__name__] *)
Definition exn_name (e : exn) : string :=
  match e with
  | ValueError _ => "ValueError" | TypeError _ => "TypeError" | PermissionError _ => "PermissionError"
  | AssertionError _ => "AssertionError" | IndexError _ => "IndexError" | KeyError _ => "KeyError"
  | OverflowError _ => "OverflowError" | InvalidOperation _ => "InvalidOperation"
  | ZeroDivisionError _ => "ZeroDivisionError" | RuntimeError _ => "RuntimeError" | CustomError cls _ => cls
  end.

(** ** Tactics *)

(** Split on the innermost scrutinee of a [match] or [if] of goal or context. *)
Ltac break_match :=
  match goal with
  | |- context [match ?x with _ => _ end] =>
      lazymatch x with context [match _ with _ => _ end] => fail | _ => idtac end;
      destruct x eqn:?
  | H : context [match ?x with _ => _ end] |- _ =>
      lazymatch x with context [match _ with _ => _ end] => fail | _ => idtac end;
      destruct x eqn:?
  end.

(** Turn the boolean tests of the code into propositions. *)
Ltac bools :=
  repeat match goal with
  | H : (_ && _)%bool = true |- _ => apply andb_true_iff in H as [? ?]
  | H : (_ || _)%bool = false |- _ => apply orb_false_iff in H as [? ?]
  | H : negb _ = true |- _ => apply negb_true_iff in H
  | H : negb _ = false |- _ => apply negb_false_iff in H
  | H : (_ <=? _)%Z = true |- _ => apply Z.leb_le in H
  | H : (_ <=? _)%Z = false |- _ => apply Z.leb_gt in H
  | H : (_ <? _)%Z = true |- _ => apply Z.ltb_lt in H
  | H : (_ <? _)%Z = false |- _ => apply Z.ltb_ge in H
  | H : (_ =? _)%Z = true |- _ => apply Z.eqb_eq in H
  | H : (_ =? _)%Z = false |- _ => apply Z.eqb_neq in H
  | H : (_ >? _)%Z = _ |- _ => rewrite Z.gtb_ltb in H
  | H : (_ >=? _)%Z = _ |- _ => rewrite Z.geb_leb in H
  | H : bool_decide _ = true |- _ => apply bool_decide_eq_true in H
  | H : bool_decide _ = false |- _ => apply bool_decide_eq_false in H
  end.

(** Unfold the monadic plumbing and compute. *)
Ltac mstep :=
  repeat (unfold mbind, mret, M_bind, M_ret, result_bind, result_ret, lift, modify,
    gets, get, raise in *; cbn in *).

(** ** Invariants of stateful code

    [keeps I m Q]: from a state where [I] holds, [m] leaves a state where [I]
    holds, whether it returns or raises, and what it returns satisfies [Q]. *)

Definition keeps {S A} (I : S → Prop) (m : M S A) (Q : A → Prop) : Prop :=
  ∀ s, I s → I (snd (m s)) ∧ ∀ a, fst (m s) = Ok a → Q a.

Section keeps.
Context {S : Type} (I : S → Prop).

Lemma keeps_bind {A B} (m : M S A) (f : A → M S B) P Q :
  keeps I m P → (∀ a, P a → keeps I (f a) Q) → keeps I (m ≫= f) Q.
Proof.
  intros Hm Hf s Hs. destruct (Hm s Hs) as [H1 H2]. unfold mbind, M_bind.
  destruct (m s) as [[a|e] s']; cbn in *; [by apply (Hf a); [apply H2|]|by split].
Qed.

Lemma keeps_ret {A} (a : A) (Q : A → Prop) : Q a → keeps I (mret a) Q.
Proof. intros HQ s Hs. split; [done|]. by intros ? [= <-]. Qed.

Lemma keeps_get : keeps I get I.
Proof. intros s Hs. split; [done|]. by intros ? [= <-]. Qed.

Lemma keeps_gets {A} (f : S → A) (Q : A → Prop) : (∀ s, I s → Q (f s)) → keeps I (gets f) Q.
Proof. intros H s Hs. split; [done|]. intros ? [= <-]. by apply H. Qed.

Lemma keeps_modify (f : S → S) : (∀ s, I s → I (f s)) → keeps I (modify f) (λ _, True).
Proof. intros H s Hs. split; [by apply H|done]. Qed.

Lemma keeps_raise {A} e (Q : A → Prop) : keeps I (raise e) Q.
Proof. intros s Hs. by split. Qed.

Lemma keeps_lift {A} (r : result A) (Q : A → Prop) : (∀ a, r = Ok a → Q a) → keeps I (lift r) Q.
Proof. intros H s Hs. split; [done|]. intros a Ha. by apply H. Qed.

Lemma keeps_weaken {A} (m : M S A) (P Q : A → Prop) : keeps I m P → (∀ a, P a → Q a) → keeps I m Q.
Proof. intros Hm H s Hs. destruct (Hm s Hs). split; [done|]. auto. Qed.
End keeps.

(** ** Integers *)

Create HintDb aats.

Lemma Z_quot_mono a b c : 0 < c → a ≤ b → Z.quot a c ≤ Z.quot b c.
Proof. intros. by apply Z.quot_le_mono. Qed.

Lemma Z_pow10_pos n : 0 < 10 ^ n ∨ 10 ^ n = 0.
Proof. destruct (Z.le_gt_cases 0 n); [left; by apply Z.pow_pos_nonneg | right; by apply Z.pow_neg_r]. Qed.

Lemma Z_pow10_pos' n : 0 ≤ n → 0 < 10 ^ n.
Proof. intros. by apply Z.pow_pos_nonneg. Qed.
#[export] Hint Resolve Z_pow10_pos' : aats.

(** Sum of a list of integers. *)
Definition zsum (l : list Z) : Z := foldr Z.add 0 l.

Lemma zsum_app l1 l2 : zsum (l1 ++ l2) = zsum l1 + zsum l2.
Proof. induction l1; simpl in *; lia. Qed.

Lemma zsum_nonneg l : Forall (λ x, 0 ≤ x) l → 0 ≤ zsum l.
Proof. induction 1; simpl; lia. Qed.

(** [lia] with the defining equations of [/] and [mod]. *)
Ltac zdiv := Z.div_mod_to_equations; lia.
