(* ===== verification/Decimal.v ===== *)
(** * Python's [decimal.Decimal]

    Finite decimals [coef * 10^exp] with the default context: 28 significant
    digits, ROUND_HALF_EVEN.  The operations follow the reference algorithm of
    the standard library ([_pydecimal]): compute exactly, then round once with
    [fix28].  NaN and infinities do not occur (the configuration models reject
    them) and exponents stay far from the context's Emin/Emax. *)

From S2P Require Import Prelude.

Record dec : Type := mkdec { coef : Z; expo : Z }.

#[export] Instance dec_eq_dec : EqDecision dec.
Proof. solve_decision. Defined.

Definition prec : Z := 28.

(** Number of decimal digits of [|z|] (1 for 0, like [len(str(z))]). *)
Fixpoint ndigits_fuel (fuel : nat) (z : Z) : Z :=
  match fuel with
  | O => 1
  | S f => if z <? 10 then 1 else 1 + ndigits_fuel f (z / 10)
  end.
Definition ndigits (z : Z) : Z :=
  ndigits_fuel (Z.to_nat (Z.log2 (Z.abs z)) + 1) (Z.abs z).

(** Round [n / 10^k] to an integer, ties to even ([n >= 0], [k > 0]). *)
Definition round_half_even (n p : Z) : Z :=
  let q := n / p in
  let r := n mod p in
  if 2 * r <? p then q
  else if p <? 2 * r then q + 1
  else if Z.even q then q else q + 1.

(** [Decimal._fix]: round to [prec] significant digits. *)
Definition fix28 (d : dec) : dec :=
  let n := ndigits (coef d) in
  if n <=? prec then d
  else
    let k := n - prec in
    let q := round_half_even (Z.abs (coef d)) (10 ^ k) in
    let s := Z.sgn (coef d) in
    if 10 ^ prec <=? q
    then mkdec (s * (q / 10)) (expo d + k + 1)
    else mkdec (s * q) (expo d + k).

Definition dec_of_Z (z : Z) : dec := mkdec z 0.

(** Coefficient of [d] at the (smaller or equal) exponent [e]. *)
Definition rescale (d : dec) (e : Z) : Z := coef d * 10 ^ (expo d - e).

Definition dcompare (a b : dec) : comparison :=
  let e := Z.min (expo a) (expo b) in
  Z.compare (rescale a e) (rescale b e).
Definition dleb (a b : dec) : bool :=
  match dcompare a b with Gt => false | _ => true end.
Definition dltb (a b : dec) : bool :=
  match dcompare a b with Lt => true | _ => false end.

Definition dadd (a b : dec) : dec :=
  let e := Z.min (expo a) (expo b) in
  fix28 (mkdec (rescale a e + rescale b e) e).
Definition dopp (a : dec) : dec := fix28 (mkdec (- coef a) (expo a)).
Definition dsub (a b : dec) : dec :=
  let e := Z.min (expo a) (expo b) in
  fix28 (mkdec (rescale a e - rescale b e) e).
Definition dmul (a b : dec) : dec :=
  fix28 (mkdec (coef a * coef b) (expo a + expo b)).

(** The exact-quotient loop of [__truediv__]: strip zeros up to the ideal
    exponent. *)
Fixpoint strip_zeros (fuel : nat) (c e ideal : Z) : dec :=
  match fuel with
  | O => mkdec c e
  | S f => if (e <? ideal) && (c mod 10 =? 0)
           then strip_zeros f (c / 10) (e + 1) ideal else mkdec c e
  end.

Definition ddiv (a b : dec) : result dec :=
  if coef b =? 0 then Raise (ZeroDivisionError "DivisionByZero")
  else if coef a =? 0 then Ok (mkdec 0 (expo a - expo b))
  else
    let shift := ndigits (coef b) - ndigits (coef a) + prec + 1 in
    let e := expo a - expo b - shift in
    let op1 := Z.abs (coef a) in
    let op2 := Z.abs (coef b) in
    let num := if 0 <=? shift then op1 * 10 ^ shift else op1 in
    let den := if 0 <=? shift then op2 else op2 * 10 ^ (- shift) in
    let q := num / den in
    let s := Z.sgn (coef a) * Z.sgn (coef b) in
    if num mod den =? 0
    then let d := strip_zeros (Z.to_nat shift) q e (expo a - expo b) in
         Ok (fix28 (mkdec (s * coef d) (expo d)))
    else let q' := if q mod 5 =? 0 then q + 1 else q in
         Ok (fix28 (mkdec (s * q') e)).

(** [int(d)]: truncate toward zero. *)
Definition dec_int (d : dec) : Z :=
  if 0 <=? expo d then coef d * 10 ^ expo d
  else Z.quot (coef d) (10 ^ (- expo d)).

(** [d.quantize(Decimal((0,(1,),e)), rounding=ROUND_DOWN)]. *)
Definition quantize_down (d : dec) (e : Z) : result dec :=
  let c := if e <=? expo d then coef d * 10 ^ (expo d - e)
           else Z.quot (coef d) (10 ^ (e - expo d)) in
  if ndigits c <=? prec then Ok (mkdec c e)
  else Raise (InvalidOperation "quantize result has too many digits").

(** [d.to_integral_value(rounding=ROUND_FLOOR)] as an integer. *)
Definition dec_floor (d : dec) : Z :=
  if 0 <=? expo d then coef d * 10 ^ expo d else coef d / 10 ^ (- expo d).

(** [d.normalize()]: strip trailing zeros. *)
Definition normalize (d : dec) : dec :=
  let f := fix28 d in
  if coef f =? 0 then mkdec 0 0
  else strip_zeros (Z.to_nat (ndigits (coef f))) (coef f) (expo f)
         (expo f + ndigits (coef f)).

(** [str(d)] (to-scientific-string). *)
Definition zeros (n : Z) : string := String.concat "" (replicate (Z.to_nat n) "0").
Definition str_take (n : Z) (s : string) : string := String.substring 0 (Z.to_nat n) s.
Definition str_drop (n : Z) (s : string) : string :=
  String.substring (Z.to_nat n) (String.length s - Z.to_nat n) s.

Definition dec_str (d : dec) : string :=
  let digits : string := pretty (Z.abs (coef d)) in
  let n := ndigits (coef d) in
  let leftdigits := expo d + n in
  let sign : string := if coef d <? 0 then "-" else "" in
  let dotplace := if (expo d <=? 0) && (-6 <? leftdigits) then leftdigits else 1 in
  let intpart : string :=
    if dotplace <=? 0 then "0"
    else if n <=? dotplace then digits +:+ zeros (dotplace - n)
    else str_take dotplace digits in
  let fracpart : string :=
    if dotplace <=? 0 then "." +:+ zeros (- dotplace) +:+ digits
    else if n <=? dotplace then ""
    else "." +:+ str_drop dotplace digits in
  let exppart : string :=
    if leftdigits =? dotplace then ""
    else let x := leftdigits - dotplace in
         "E" +:+ (if x <? 0 then "-" else "+") +:+ pretty (Z.abs x) in
  sign +:+ intpart +:+ fracpart +:+ exppart.

(** ** Digit counts *)

Lemma ndigits_fuel_spec fuel z :
  0 ≤ z < 2 ^ Z.of_nat fuel →
  1 ≤ ndigits_fuel fuel z ∧ z < 10 ^ ndigits_fuel fuel z ∧
  (10 ≤ z → 10 ^ (ndigits_fuel fuel z - 1) ≤ z).
Proof.
  revert z. induction fuel as [|f IH]; intros z Hz.
  { simpl in *. lia. }
  cbn [ndigits_fuel]. destruct (Z.ltb_spec z 10); [lia|].
  rewrite Nat2Z.inj_succ, Z.pow_succ_r in Hz by lia.
  assert (0 ≤ z / 10 < 2 ^ Z.of_nat f) as Hq.
  { split; [apply Z.div_pos; lia | apply Z.div_lt_upper_bound; lia]. }
  destruct (IH _ Hq) as (H1 & H2 & H3).
  pose proof (Z.div_mod z 10) as Hdm. pose proof (Z.mod_pos_bound z 10).
  set (n := ndigits_fuel f (z / 10)) in *.
  split; [lia|]. rewrite (Z.add_comm 1 n), Z.add_simpl_r, Z.pow_add_r by lia.
  split; [lia|]. intros _.
  destruct (Z.le_gt_cases 10 (z / 10)) as [Hge|Hlt].
  - specialize (H3 Hge). replace n with ((n - 1) + 1) by lia.
    rewrite Z.pow_add_r by lia. lia.
  - assert (n = 1) as ->; [|lia]. unfold n. destruct f; [done|]. cbn.
    by rewrite (proj2 (Z.ltb_lt (z / 10) 10)).
Qed.

Lemma ndigits_spec z :
  1 ≤ ndigits z ∧ Z.abs z < 10 ^ ndigits z ∧
  (10 ≤ Z.abs z → 10 ^ (ndigits z - 1) ≤ Z.abs z).
Proof.
  apply ndigits_fuel_spec. split; [lia|].
  destruct (Z.eq_dec z 0) as [->|Hz]; [by vm_compute|].
  rewrite Nat2Z.inj_add, Z2Nat.id by apply Z.log2_nonneg.
  change (Z.of_nat 1) with 1. apply Z.log2_spec; lia.
Qed.

Lemma ndigits_le z n : 1 ≤ n → Z.abs z < 10 ^ n → ndigits z ≤ n.
Proof.
  intros Hn Hz. destruct (ndigits_spec z) as (H1 & _ & H3).
  destruct (Z.le_gt_cases (ndigits z) n) as [|Hgt]; [done|exfalso].
  destruct (Z.le_gt_cases 10 (Z.abs z)) as [Hbig|Hsmall].
  - specialize (H3 Hbig).
    pose proof (Z.pow_le_mono_r 10 n (ndigits z - 1)). lia.
  - assert (ndigits z = 1); [|lia]. unfold ndigits.
    destruct (Z.to_nat (Z.log2 (Z.abs z)) + 1)%nat eqn:E; [lia|]. cbn.
    by rewrite (proj2 (Z.ltb_lt (Z.abs z) 10)).
Qed.

(** Below [10^28] nothing is rounded. *)
Lemma fix28_exact d : Z.abs (coef d) < 10 ^ 28 → fix28 d = d.
Proof.
  intros H. unfold fix28, prec.
  by rewrite (proj2 (Z.leb_le _ _) (ndigits_le _ 28 ltac:(lia) H)).
Qed.

Lemma dmul_exact a b :
  Z.abs (coef a * coef b) < 10 ^ 28 →
  dmul a b = mkdec (coef a * coef b) (expo a + expo b).
Proof. intros. by apply fix28_exact. Qed.

(** ** Division by a power of ten is exact *)

Lemma strip_zeros_spec fuel c e ideal :
  ∃ k, 0 ≤ k ≤ Z.of_nat fuel ∧
    c = coef (strip_zeros fuel c e ideal) * 10 ^ k ∧
    expo (strip_zeros fuel c e ideal) = e + k.
Proof.
  revert c e. induction fuel as [|f IH]; intros c e; cbn [strip_zeros].
  { exists 0. cbn. lia. }
  destruct ((e <? ideal) && (c mod 10 =? 0)) eqn:E.
  - bools. destruct (IH (c / 10) (e + 1)) as (k & Hk & Hc & He).
    exists (k + 1). rewrite Z.pow_add_r, He by lia.
    split; [lia|]. split; [|lia].
    pose proof (Z.div_mod c 10). rewrite Z.mul_assoc, <- Hc. lia.
  - exists 0. cbn. lia.
Qed.

(** All the zeros that may be stripped are. *)
Lemma strip_zeros_small fuel c j e ideal :
  0 ≤ j ≤ Z.of_nat fuel → e + j ≤ ideal →
  Z.abs (coef (strip_zeros fuel (c * 10 ^ j) e ideal)) ≤ Z.abs c.
Proof.
  revert j e. induction fuel as [|f IH]; intros j e Hj He; cbn [strip_zeros].
  { assert (j = 0) as -> by lia. cbn. by rewrite Z.mul_1_r. }
  destruct (Z.eq_dec j 0) as [->|Hj0].
  { rewrite Z.mul_1_r.
    destruct (strip_zeros_spec (S f) c e ideal) as (k & Hk & Hc & _).
    cbn [strip_zeros] in Hc. pose proof (Z_pow10_pos' k ltac:(lia)).
    match type of Hc with _ = coef ?x * _ => generalize dependent (coef x) end.
    intros q ->. rewrite Z.abs_mul, (Z.abs_eq (10 ^ k)) by lia. nia. }
  replace (c * 10 ^ j) with (c * 10 ^ (j - 1) * 10)
    by (rewrite <- Z.mul_assoc; f_equal;
        replace j with (Z.succ (j - 1)) at 2 by lia; rewrite Z.pow_succ_r; lia).
  rewrite Z.mod_mul by lia. rewrite (proj2 (Z.ltb_lt e ideal)) by lia. cbn.
  rewrite Z.div_mul by lia. apply IH; lia.
Qed.

Lemma dec_int_shift c e k : 0 ≤ k → dec_int (mkdec (c * 10 ^ k) (e - k)) = dec_int (mkdec c e).
Proof.
  intros Hk. unfold dec_int; cbn. pose proof (Z_pow10_pos' k Hk).
  destruct (Z.leb_spec 0 (e - k)), (Z.leb_spec 0 e); try lia.
  - rewrite <- Z.mul_assoc, <- Z.pow_add_r by lia. do 2 f_equal. lia.
  - replace k with (e + (k - e)) at 1 by lia.
    rewrite Z.pow_add_r, Z.mul_assoc by lia. replace (- (e - k)) with (k - e) by lia.
    apply Z.quot_mul. pose proof (Z_pow10_pos' (k - e)). lia.
  - replace (- (e - k)) with (- e + k) by lia. rewrite Z.pow_add_r by lia.
    apply Z.quot_mul_cancel_r; [|lia]. pose proof (Z_pow10_pos' (- e)). lia.
Qed.

Lemma ndigits_pow10 m : 0 ≤ m → ndigits (10 ^ m) = m + 1.
Proof.
  intros Hm. pose proof (Z_pow10_pos' m Hm). apply Z.le_antisymm.
  - apply ndigits_le; [lia|]. rewrite Z.abs_eq by lia. apply Z.pow_lt_mono_r; lia.
  - destruct (ndigits_spec (10 ^ m)) as (H1 & H2 & _). rewrite Z.abs_eq in H2 by lia.
    apply Z.pow_lt_mono_r_iff in H2; lia.
Qed.

Lemma ddiv_pow10 c e m :
  Z.abs c < 10 ^ 28 → 0 ≤ m →
  ∃ d, ddiv (mkdec c e) (dec_of_Z (10 ^ m)) = Ok d ∧
       dec_int d = dec_int (mkdec c (e - m)) ∧
       ∃ k, 0 ≤ k ∧ c * 10 ^ k = coef d * 10 ^ (expo d - (e - m) + k) ∧
            0 ≤ expo d - (e - m) + k ∧ Z.abs (coef d) ≤ Z.abs c.
Proof.
  intros Hc Hm. pose proof (Z_pow10_pos' m Hm) as Hpm. unfold ddiv; cbn [coef expo dec_of_Z].
  rewrite (proj2 (Z.eqb_neq (10 ^ m) 0)) by lia.
  destruct (Z.eqb_spec c 0) as [->|Hc0].
  { eexists. split; [done|]. split.
    - unfold dec_int; cbn. repeat case_match; rewrite ?Z.quot_0_l; try done;
        apply Z.pow_nonzero; bools; lia.
    - exists 0. cbn. lia. }
  rewrite (ndigits_pow10 m Hm). unfold prec.
  pose proof (ndigits_le c 28 ltac:(lia) Hc) as Hnd.
  pose proof (ndigits_spec c) as (Hnd1 & _).
  remember (m + 1 - ndigits c + 28 + 1) as sh eqn:Hsh.
  rewrite (proj2 (Z.leb_le 0 sh)) by lia.
  rewrite (Z.abs_eq (10 ^ m)), (Z.sgn_pos (10 ^ m)), Z.mul_1_r by lia.
  replace (Z.abs c * 10 ^ sh) with (Z.abs c * 10 ^ (sh - m) * 10 ^ m)
    by (rewrite <- Z.mul_assoc, <- Z.pow_add_r by lia; do 2 f_equal; lia).
  rewrite Z.mod_mul, Z.div_mul by lia. rewrite Z.eqb_refl.
  pose proof (strip_zeros_small (Z.to_nat sh) (Z.abs c) (sh - m) (e - 0 - sh) (e - 0)
    ltac:(lia) ltac:(lia)) as Hsmall.
  destruct (strip_zeros_spec (Z.to_nat sh) (Z.abs c * 10 ^ (sh - m)) (e - 0 - sh) (e - 0))
    as (k & Hk & Hck & Hek).
  set (d := strip_zeros _ _ _ _) in *.
  assert (Z.abs (Z.sgn c * coef d) ≤ Z.abs c).
  { rewrite Z.abs_mul. assert (Z.abs (Z.sgn c) = 1) as -> by lia. lia. }
  rewrite fix28_exact by (cbn [coef]; lia). eexists. split; [done|].
  assert (Z.sgn c * coef d * 10 ^ k = c * 10 ^ (sh - m)) as Hval.
  { rewrite <- Z.mul_assoc, <- Hck, Z.mul_assoc. f_equal. lia. }
  split.
  - rewrite <- (dec_int_shift _ (expo d) k), Hval, Hek by lia.
    rewrite <- (dec_int_shift c (e - m) (sh - m)) by lia. do 2 f_equal. lia.
  - exists (sh - m). cbn [coef expo]. rewrite Hek. split; [lia|]. split; [|lia].
    rewrite <- Hval. do 2 f_equal. lia.
Qed.

Lemma ddiv_ok a b : coef b ≠ 0 → ∃ d, ddiv a b = Ok d.
Proof.
  intros H. unfold ddiv. rewrite (proj2 (Z.eqb_neq _ _) H).
  repeat case_match; eauto.
Qed.

(** ** Order

    [dle a b]: [a <= b] as rationals, read at any common exponent. *)

Definition dle (a b : dec) : Prop :=
  ∀ m, m ≤ expo a → m ≤ expo b → rescale a m ≤ rescale b m.

Lemma rescale_lower d m n : n ≤ m → m ≤ expo d → rescale d n = rescale d m * 10 ^ (m - n).
Proof.
  intros. unfold rescale. rewrite <- Z.mul_assoc, <- Z.pow_add_r by lia. do 2 f_equal. lia.
Qed.

Lemma dle_at a b m :
  m ≤ expo a → m ≤ expo b → rescale a m ≤ rescale b m → dle a b.
Proof.
  intros Ha Hb H k Hka Hkb. destruct (Z.le_ge_cases k m).
  - rewrite (rescale_lower a m), (rescale_lower b m) by done.
    apply Z.mul_le_mono_nonneg_r; [|done]. pose proof (Z_pow10_pos' (m - k)). lia.
  - rewrite (rescale_lower a k m), (rescale_lower b k m) in H by done.
    pose proof (Z_pow10_pos' (k - m)). apply Z.mul_le_mono_pos_r in H; lia.
Qed.

Lemma dle_trans a b c : dle a b → dle b c → dle a c.
Proof.
  intros Hab Hbc. set (m := Z.min (expo a) (Z.min (expo b) (expo c))).
  apply (dle_at _ _ m); [lia..|]. transitivity (rescale b m); [apply Hab|apply Hbc]; lia.
Qed.

Lemma dleb_dle a b : dleb a b = true ↔ dle a b.
Proof.
  unfold dleb, dcompare. split.
  - intros H. apply (dle_at _ _ (Z.min (expo a) (expo b))); [lia..|].
    destruct (Z.compare_spec (rescale a (Z.min (expo a) (expo b)))
      (rescale b (Z.min (expo a) (expo b)))); [lia..|done].
  - intros H. specialize (H (Z.min (expo a) (expo b)) ltac:(lia) ltac:(lia)).
    by case_match.
Qed.

Lemma dltb_rescale a b :
  dltb a b = true →
  rescale a (Z.min (expo a) (expo b)) < rescale b (Z.min (expo a) (expo b)).
Proof. unfold dltb, dcompare. by case_match. Qed.

(** [int] is monotone. *)
Lemma dec_int_mono a b : dle a b → dec_int a ≤ dec_int b.
Proof.
  intros H. set (m := Z.min (expo a) (expo b)).
  specialize (H m ltac:(lia) ltac:(lia)). unfold rescale in H.
  destruct a as [ca ea], b as [cb eb]; cbn [coef expo] in *.
  rewrite <- (dec_int_shift ca ea (ea - m)), <- (dec_int_shift cb eb (eb - m)) by lia.
  replace (ea - (ea - m)) with m by lia. replace (eb - (eb - m)) with m by lia.
  unfold dec_int; cbn. destruct (Z.leb_spec 0 m).
  - pose proof (Z_pow10_pos' m). by apply Z.mul_le_mono_nonneg_r; [lia|].
  - by apply Z_quot_mono; [apply Z_pow10_pos'; lia|].
Qed.

Lemma dec_int_nonneg d : 0 ≤ coef d → 0 ≤ dec_int d.
Proof.
  intros H. unfold dec_int. destruct (Z.leb_spec 0 (expo d)).
  - pose proof (Z_pow10_pos' (expo d)). nia.
  - apply Z.quot_pos; [done|]. apply Z_pow10_pos'. lia.
Qed.

(** A ratio strictly between 0 and 1 scales a non-negative decimal down. *)
Lemma ratio_bounds r :
  dltb (dec_of_Z 0) r && dltb r (dec_of_Z 1) = true →
  0 < coef r ∧ expo r < 0 ∧ coef r < 10 ^ (- expo r).
Proof.
  intros [H0 H1]%andb_true_iff. apply dltb_rescale in H0, H1.
  unfold rescale in *. cbn [coef expo dec_of_Z] in *.
  assert (0 < coef r) as Hc.
  { pose proof (Z_pow10_pos' (expo r - Z.min 0 (expo r)) ltac:(lia)). nia. }
  destruct (Z.le_gt_cases 0 (expo r)) as [He|He].
  - exfalso. rewrite Z.min_r in H1 by lia. rewrite Z.sub_0_r in H1.
    pose proof (Z_pow10_pos' (expo r) He). change (10 ^ (0 - 0)) with 1 in H1. nia.
  - rewrite Z.min_l, Z.sub_diag in H1 by lia.
    replace (0 - expo r) with (- expo r) in H1 by lia. lia.
Qed.
