(* ===== verification/Calendar.v ===== *)
(** * UTC calendar: [datetime.fromtimestamp(ms / 1000, tz=UTC)]

    The proleptic Gregorian conversion of the standard library
    ([datetime._ord2ymd]) and the two renderings the breaker uses,
    [strftime("%Y-%m-%d")] and [isoformat()].  Below year 10000 the binary64
    quotient [ms / 1000] is within 16 microseconds of the exact value, so the
    second, minute, hour and day it falls in are those of the integer [ms];
    the microsecond digits of [isoformat] are exact below second [2^33]. *)

From S2P Require Import Prelude.

#[local] Ltac Zify.zify_post_hook ::= Z.to_euclidean_division_equations.

Definition MS_PER_DAY : Z := 86400000.
(** First millisecond that [fromtimestamp] rejects (year 10000). *)
Definition MAX_MS : Z := 253402300800000.
(** Ordinal of 1970-01-01. *)
Definition EPOCH_ORD : Z := 719163.

Definition days_before_month_tab : list Z :=
  [0; 0; 31; 59; 90; 120; 151; 181; 212; 243; 273; 304; 334].

Definition days_before_month (leap : bool) (m : Z) : Z :=
  default 0 (days_before_month_tab !! Z.to_nat m) + (if leap && (2 <? m) then 1 else 0).

Definition is_leap (y : Z) : bool :=
  (y mod 4 =? 0) && (negb (y mod 100 =? 0) || (y mod 400 =? 0)).

Definition days_before_year (y : Z) : Z :=
  (y - 1) * 365 + (y - 1) / 4 - (y - 1) / 100 + (y - 1) / 400.

Definition ymd2ord (ymd : Z * Z * Z) : Z :=
  let '(y, m, d) := ymd in
  days_before_year y + days_before_month (is_leap y) m + d.

(** Month and day of the [n]-th day (from 0) of a year. *)
Definition month_day (leap : bool) (n : Z) : Z * Z :=
  let month := Z.shiftr (n + 50) 5 in
  if n <? days_before_month leap month
  then (month - 1, n - days_before_month leap (month - 1) + 1)
  else (month, n - days_before_month leap month + 1).

Definition ord2ymd (ord : Z) : Z * Z * Z :=
  let n := ord - 1 in
  let n400 := n / 146097 in let n := n mod 146097 in
  let n100 := n / 36524 in let n := n mod 36524 in
  let n4 := n / 1461 in let n := n mod 1461 in
  let n1 := n / 365 in let n := n mod 365 in
  let year := n400 * 400 + 1 + n100 * 100 + n4 * 4 + n1 in
  if (n1 =? 4) || (n100 =? 4) then (year - 1, 12, 31)
  else
    let leap := (n1 =? 3) && (negb (n4 =? 24) || (n100 =? 3)) in
    let '(m, d) := month_day leap n in (year, m, d).

Definition digit (k : Z) : Ascii.ascii := Ascii.ascii_of_nat (Z.to_nat (48 + k mod 10)).
Definition pad2 (z : Z) : string :=
  String (digit (z / 10)) (String (digit z) "").
Definition pad4 (z : Z) : string :=
  String (digit (z / 1000)) (String (digit (z / 100)) (pad2 z)).
Definition pad6 (z : Z) : string :=
  String (digit (z / 100000)) (String (digit (z / 10000)) (pad4 z)).

Definition fmt_date (ymd : Z * Z * Z) : string :=
  let '(y, m, d) := ymd in pad4 y +:+ "-" +:+ pad2 m +:+ "-" +:+ pad2 d.

Definition fmt_iso (ms : Z) : string :=
  let s := ms mod MS_PER_DAY / 1000 in
  let us := ms mod 1000 * 1000 in
  fmt_date (ord2ymd (EPOCH_ORD + ms / MS_PER_DAY)) +:+ "T" +:+
  pad2 (s / 3600) +:+ ":" +:+ pad2 (s / 60 mod 60) +:+ ":" +:+ pad2 (s mod 60) +:+
  (if us =? 0 then "" else "." +:+ pad6 us) +:+ "+00:00".

(** [fromtimestamp] raises past year 9999; event times are never negative. *)
Definition in_range (ms : Z) : bool := (0 <=? ms) && (ms <? MAX_MS).

(** ** [ord2ymd] is injective *)

Lemma month_day_check :
  forallb (fun leap : bool => forallb (fun k : nat =>
    let n := Z.of_nat k in
    let '(m, d) := month_day leap n in
    (days_before_month leap m + d =? n + 1) && (1 <=? m) && (m <=? 12)
    && (1 <=? d) && (d <=? 31)) (seq 0 (if leap then 366%nat else 365%nat)))
    [true; false] = true.
Proof. vm_compute. reflexivity. Qed.

Lemma days_before_month_nonneg leap m : 0 ≤ days_before_month leap m.
Proof.
  unfold days_before_month.
  assert (Forall (λ x, 0 ≤ x) days_before_month_tab) as H by (unfold days_before_month_tab; repeat constructor; lia).
  destruct (days_before_month_tab !! Z.to_nat m) as [x|] eqn:E; cbn.
  - pose proof (Forall_lookup_1 _ _ _ _ H E) as Hx. cbn in Hx. destruct (leap && _); lia.
  - destruct (leap && _); lia.
Qed.

Lemma month_day_spec (leap : bool) n m d :
  0 ≤ n < (if leap then 366 else 365) → month_day leap n = (m, d) →
  days_before_month leap m + d = n + 1 ∧ 1 ≤ m ≤ 12 ∧ 1 ≤ d ≤ 31.
Proof.
  intros Hn E. pose proof month_day_check as H.
  rewrite forallb_forall in H. specialize (H leap ltac:(destruct leap; simpl; auto)).
  rewrite forallb_forall in H. specialize (H (Z.to_nat n)).
  cbv beta zeta in H. rewrite Z2Nat.id in H by lia. rewrite E in H.
  ospecialize (H _); [apply in_seq; destruct leap; lia|]. bools. lia.
Qed.

Lemma ord2ymd_spec n :
  1 ≤ n →
  ymd2ord (ord2ymd n) = n ∧
  let '(y, m, d) := ord2ymd n in
  1 ≤ y ∧ days_before_year y < n
  ∧ 1 ≤ m ≤ 12 ∧ 1 ≤ d ≤ 31.
Proof.
  intros Hn. unfold ord2ymd.
  pose proof (Z.div_mod (n - 1) 146097 ltac:(lia)) as E4.
  pose proof (Z.mod_pos_bound (n - 1) 146097 ltac:(lia)).
  pose proof (Z.div_pos (n - 1) 146097 ltac:(lia) ltac:(lia)).
  set (a := (n - 1) / 146097) in *. set (r1 := (n - 1) mod 146097) in *.
  pose proof (Z.div_mod r1 36524 ltac:(lia)) as E3.
  pose proof (Z.mod_pos_bound r1 36524 ltac:(lia)).
  pose proof (Z.div_pos r1 36524 ltac:(lia) ltac:(lia)).
  set (b := r1 / 36524) in *. set (r2 := r1 mod 36524) in *.
  pose proof (Z.div_mod r2 1461 ltac:(lia)) as E2.
  pose proof (Z.mod_pos_bound r2 1461 ltac:(lia)).
  pose proof (Z.div_pos r2 1461 ltac:(lia) ltac:(lia)).
  set (c := r2 / 1461) in *. set (r3 := r2 mod 1461) in *.
  pose proof (Z.div_mod r3 365 ltac:(lia)) as E1.
  pose proof (Z.mod_pos_bound r3 365 ltac:(lia)).
  pose proof (Z.div_pos r3 365 ltac:(lia) ltac:(lia)).
  set (d := r3 / 365) in *. set (r4 := r3 mod 365) in *.
  clearbody a b c d r1 r2 r3 r4.
  assert (b ≤ 4 ∧ c ≤ 24 ∧ d ≤ 4) as (Hb & Hc & Hd) by lia.
  destruct ((d =? 4) || (b =? 4)) eqn:Hcase.
  - assert (is_leap (a * 400 + 1 + b * 100 + c * 4 + d - 1) = true) as Hleap.
    { apply orb_true_iff in Hcase as [|]; bools; unfold is_leap.
      + replace (_ - 1) with ((a * 100 + b * 25 + c + 1) * 4) by lia.
        rewrite Z.mod_mul by lia. cbn [Z.eqb andb].
        apply orb_true_iff. left. apply negb_true_iff, Z.eqb_neq. intros Hm.
        apply Z.div_exact in Hm; [|lia]. lia.
      + replace (_ - 1) with ((a + 1) * 400) by lia.
        rewrite (Z.mod_mul (a + 1) 400) by lia.
        replace ((a + 1) * 400) with ((a + 1) * 100 * 4) by lia.
        rewrite Z.mod_mul by lia. cbn. by rewrite orb_true_r. }
    unfold ymd2ord. rewrite Hleap. change (days_before_month true 12) with 335.
    unfold days_before_year. apply orb_true_iff in Hcase as [|]; bools; subst; lia.
  - apply orb_false_iff in Hcase as [? ?]; bools.
    set (leap := (d =? 3) && (negb (c =? 24) || (b =? 3))).
    destruct (month_day leap r4) as [m k] eqn:Emd.
    assert (is_leap (a * 400 + 1 + b * 100 + c * 4 + d) = leap) as Hleap.
    { unfold is_leap, leap. clear - Hc H0 H2 H4 H6 Hb Hd H7 H8.
      replace (_ mod 4) with ((1 + d) mod 4)
        by (symmetry; rewrite <- (Z.mod_add (1 + d) (a * 100 + b * 25 + c) 4) by lia; f_equal; lia).
      destruct (Z.eqb_spec d 3) as [->|]; cbn [andb].
      2: { rewrite (Z.mod_small (1 + d)) by lia.
           by rewrite (proj2 (Z.eqb_neq (1 + d) 0)) by lia. }
      change ((1 + 3) mod 4 =? 0) with true. cbn [andb].
      replace (a * 400 + 1 + b * 100 + c * 4 + 3) with (4 * c + 4 + (a * 4 + b) * 100) by lia.
      rewrite Z.mod_add by lia.
      replace (4 * c + 4 + (a * 4 + b) * 100) with (4 * c + 4 + b * 100 + a * 400) by lia.
      rewrite Z.mod_add by lia.
      destruct (Z.eqb_spec c 24) as [->|]; cbn [negb orb].
      - replace ((4 * 24 + 4) mod 100 =? 0) with true by done. cbn [negb orb].
        destruct (Z.eqb_spec b 3) as [->|]; [done|]. apply Z.eqb_neq.
        rewrite Z.mod_small; lia.
      - rewrite (Z.mod_small (4 * c + 4) 100) by lia.
        by rewrite (proj2 (Z.eqb_neq (4 * c + 4) 0)) by lia. }
    destruct (month_day_spec leap r4 m k) as (Hmd & Hm & Hk); [|done|].
    { subst leap. destruct (d =? 3), (c =? 24), (b =? 3); cbn; lia. }
    unfold ymd2ord, days_before_year. rewrite Hleap.
    pose proof (days_before_month_nonneg leap m). lia.
Qed.

Lemma digit_inj a b : digit a = digit b → a mod 10 = b mod 10.
Proof.
  unfold digit. intros E. apply (f_equal Ascii.nat_of_ascii) in E.
  pose proof (Z.mod_pos_bound a 10 ltac:(lia)). pose proof (Z.mod_pos_bound b 10 ltac:(lia)).
  rewrite !Ascii.nat_ascii_embedding in E by lia. lia.
Qed.

Lemma fmt_date_inj y m d y' m' d' :
  0 ≤ y < 10000 → 0 ≤ y' < 10000 → 0 ≤ m < 100 → 0 ≤ m' < 100 →
  0 ≤ d < 100 → 0 ≤ d' < 100 →
  fmt_date (y, m, d) = fmt_date (y', m', d') → (y, m, d) = (y', m', d').
Proof.
  intros Hy Hy' Hm Hm' Hd Hd' E. unfold fmt_date, pad4, pad2 in E. cbn in E.
  injection E as E1 E2 E3 E4 E5 E6 E7 E8.
  apply digit_inj in E1, E2, E3, E4, E5, E6, E7, E8.
  f_equal; [f_equal|]; lia.
Qed.

Lemma fmt_day_inj n n' :
  0 ≤ n < 2932897 → 0 ≤ n' < 2932897 →
  fmt_date (ord2ymd (EPOCH_ORD + n)) = fmt_date (ord2ymd (EPOCH_ORD + n')) → n = n'.
Proof.
  unfold EPOCH_ORD. intros Hn Hn' E.
  destruct (ord2ymd_spec (719163 + n) ltac:(lia)) as (R & B).
  destruct (ord2ymd_spec (719163 + n') ltac:(lia)) as (R' & B').
  destruct (ord2ymd (719163 + n)) as [[y m] d], (ord2ymd (719163 + n')) as [[y' m'] d'].
  assert (y < 10000 ∧ y' < 10000) as [? ?] by (unfold days_before_year in *; lia).
  apply fmt_date_inj in E; [|lia..]. rewrite E, R' in R. lia.
Qed.
