(* ===== verification/RiskContracts.v ===== *)
(** * Risk contracts: [aats/contracts/risk.py]

    The frozen pydantic models [RiskConfig] and [BreakerState] with their
    validators.  A model constructor is a function to [result]: the "before"
    validator sees the raw money fields (where a float can still appear), the
    "after" validators see the typed record. *)

From Stdlib Require Export SpecFloat.
From S2P Require Import Prelude Decimal.

(** Python [float]: IEEE-754 binary64 (Rocq's reference semantics). *)
Abbreviation float := spec_float.
Definition fcompare : float → float → option comparison := SFcompare.
Definition fltb : float → float → bool := SFltb.
Definition fleb : float → float → bool := SFleb.

(** The shared loop of the "before" validators: the first float field raises. *)
Fixpoint reject_floats (model : string) (fields : list (string * pynum)) : result unit :=
  match fields with
  | [] => Ok tt
  | (f, PyFloat _) :: _ => Raise (ValueError (model +:+ " field '" +:+ f +:+ "' must be int"))
  | (_, PyInt _) :: fs => reject_floats model fs
  end.

(** Pydantic hands an [int] through; only reached after [reject_floats]. *)
Definition pynum_int (n : pynum) : Z := match n with PyInt z => z | PyFloat _ => 0 end.

Module RiskConfig.
Record t : Type := mk {
  per_trade_cap_lamports : Z;
  max_aggregate_lamports : Z;
  daily_risk_tranche_lamports : Z;
  daily_loss_limit_pct : dec;
  daily_loss_floor_lamports : Z;
  max_slippage_bps : Z;
  snipe_threshold : float;
  veto_threshold : float;
  jito_tip_cap_frac : dec;
  kelly_fraction_cap : dec;
  n_wallets_max : Z;
  blast_radius_cap_lamports : Z;
  t_dms_seconds : Z;
  pre_calibration_haircut_bps : Z
}.

(** The field defaults. *)
Definition defaults : t := {|
  per_trade_cap_lamports := 100000000;
  max_aggregate_lamports := 500000000;
  daily_risk_tranche_lamports := 500000000;
  daily_loss_limit_pct := mkdec 30 (-1);
  daily_loss_floor_lamports := 300000000;
  max_slippage_bps := 300;
  snipe_threshold := S754_finite false 5854679515581645 (-53);
  veto_threshold := S754_finite false 5404319552844595 (-54);
  jito_tip_cap_frac := mkdec 30 (-2);
  kelly_fraction_cap := mkdec 25 (-2);
  n_wallets_max := 1;
  blast_radius_cap_lamports := 100000000;
  t_dms_seconds := 60;
  pre_calibration_haircut_bps := 150
|}.

Definition _reject_float_money (data : list (string * pynum)) : result unit :=
  reject_floats "RiskConfig" data.

Definition _floor_invariants (c : t) : result t :=
  if 100000000 <? per_trade_cap_lamports c
  then Raise (ValueError "per_trade_cap_lamports")
  else if 500000000 <? max_aggregate_lamports c
  then Raise (ValueError "max_aggregate_lamports")
  else if dltb (mkdec 30 (-1)) (daily_loss_limit_pct c)
  then Raise (ValueError "daily_loss_limit_pct")
  else if dltb (mkdec 25 (-2)) (kelly_fraction_cap c)
  then Raise (ValueError "kelly_fraction_cap")
  else if dltb (mkdec 30 (-2)) (jito_tip_cap_frac c)
  then Raise (ValueError "jito_tip_cap_frac")
  else if pre_calibration_haircut_bps c <? 150
  then Raise (ValueError "pre_calibration_haircut_bps")
  else Ok c.
End RiskConfig.

Inductive breaker_status : Type := ARMED | TRIPPED.

#[export] Instance breaker_status_eq_dec : EqDecision breaker_status.
Proof. solve_decision. Defined.

Module BreakerState.
Record t : Type := mk {
  state : breaker_status;
  tripped_at_utc : option string;
  daily_net_pnl_lamports : Z;
  daily_net_pnl_day_utc : option string;
  threshold_breached : option string
}.

#[export] Instance t_eq_dec : EqDecision t.
Proof. solve_decision. Defined.

Definition _reject_float_pnl (v : pynum) : result unit :=
  reject_floats "BreakerState" [("daily_net_pnl_lamports", v)].

Definition _tripped_invariant (s : t) : result t :=
  match state s, tripped_at_utc s, threshold_breached s with
  | TRIPPED, None, _ => Raise (ValueError "tripped_at_utc must be set when TRIPPED")
  | TRIPPED, _, None => Raise (ValueError "threshold_breached must be set when TRIPPED")
  | _, _, _ => Ok s
  end.

Definition _day_key_invariant (s : t) : result t :=
  if negb (daily_net_pnl_lamports s =? 0) && bool_decide (daily_net_pnl_day_utc s = None)
  then Raise (ValueError "daily_net_pnl_day_utc must be set")
  else Ok s.

(** [BreakerState(...)]: the two "after" validators in order. *)
Definition new (s : t) : result t :=
  s ← _tripped_invariant s; _day_key_invariant s.

(** [model_copy(update=...)] of the two day fields: pydantic does not
    re-run the validators on a copy. *)
Definition copy_day (s : t) (net : Z) (day : option string) : t :=
  mk (state s) (tripped_at_utc s) net day (threshold_breached s).
End BreakerState.
