(* ===== verification/Float64.v ===== *)
(** * Python's [float]

    Binary64 with the reference semantics of [SpecFloat] (53-bit mantissa,
    round to nearest even): the operations the code applies to clock readings
    and statistics, the conversion from [int], and the few order facts the
    components use. *)

From S2P Require Import Prelude Decimal RiskContracts.

Definition fadd : float → float → float := SFadd 53 1024.
Definition fsub : float → float → float := SFsub 53 1024.
Definition fmul : float → float → float := SFmul 53 1024.

Definition fzero : float := S754_zero false.

(** [float(z)]: correctly rounded, [OverflowError] beyond the largest float. *)
Definition float_of_Z (z : Z) : float := binary_normalize 53 1024 z 0 false.
Definition float_int (z : Z) : result float :=
  match float_of_Z z with
  | S754_infinity _ => Raise (OverflowError "int too large to convert to float")
  | f => Ok f
  end.

(** [x / y] on floats: a zero divisor raises. *)
Definition fdiv (x y : float) : result float :=
  match y with
  | S754_zero _ => Raise (ZeroDivisionError "float division by zero")
  | _ => Ok (SFdiv 53 1024 x y)
  end.

(** The float a decimal literal [m * 10^-k] denotes ([m > 0]). *)
Definition float_lit (m : positive) (k : Z) : float :=
  SFdiv 53 1024 (S754_finite false m 0) (S754_finite false (Z.to_pos (10 ^ k)) 0).

(** [max(x, y)] keeps the first argument unless the second is greater. *)
Definition fmax (x y : float) : float := if fltb x y then y else x.

Definition is_nan (x : float) : bool := match x with S754_nan => true | _ => false end.
Definition is_finite (x : float) : bool :=
  match x with S754_zero _ | S754_finite _ _ _ => true | _ => false end.

(** [f'{x:.3f}'] *)
Definition fmt_f3 (x : float) : string :=
  let sign (s : bool) : string := if s then "-" else "" in
  match x with
  | S754_nan => "nan"
  | S754_infinity s => sign s +:+ "inf"
  | S754_zero s => sign s +:+ "0.000"
  | S754_finite s m e =>
      let n := if 0 <=? e then Zpos m * 1000 * 2 ^ e else round_half_even (Zpos m * 1000) (2 ^ (- e)) in
      let frac : string := pretty (n mod 1000) in
      sign s +:+ pretty (n / 1000) +:+ "." +:+ zeros (3 - Z.of_nat (String.length frac)) +:+ frac
  end.

#[global] Arguments fleb : simpl never.
#[global] Arguments fltb : simpl never.
#[global] Arguments fadd : simpl never.
#[global] Arguments fsub : simpl never.
#[global] Arguments fmul : simpl never.
#[global] Arguments fdiv : simpl never.
#[global] Arguments fmax : simpl never.
#[global] Arguments float_of_Z : simpl never.
#[global] Arguments float_int : simpl never.
#[global] Arguments float_lit : simpl never.

(** ** The order

    [SFcompare] is the lexicographic order of (sign class, exponent, mantissa). *)

Definition fkey (x : float) : Z * Z * Z :=
  match x with
  | S754_nan => (3, 0, 0)
  | S754_infinity s => ((if s then -2 else 2), 0, 0)
  | S754_zero _ => (0, 0, 0)
  | S754_finite true m e => (-1, - e, - Zpos m)
  | S754_finite false m e => (1, e, Zpos m)
  end.

Definition key_compare (a b : Z * Z * Z) : comparison :=
  let '(a1, a2, a3) := a in let '(b1, b2, b3) := b in
  match a1 ?= b1 with
  | Eq => match a2 ?= b2 with Eq => a3 ?= b3 | c => c end
  | c => c
  end.

Lemma fcompare_key x y :
  is_nan x = false → is_nan y = false → fcompare x y = Some (key_compare (fkey x) (fkey y)).
Proof.
  assert (∀ a b, (- a ?= - b) = CompOpp (a ?= b)) as Hopp.
  { intros a b. rewrite Z.compare_opp. apply Z.compare_antisym. }
  destruct x as [s|s| |s m e], y as [s'|s'| |s' m' e']; cbn; try done; intros _ _;
    try (destruct s); try (destruct s'); cbn; try done; f_equal.
  rewrite !Hopp. by destruct (e ?= e').
Qed.

Lemma key_compare_lt a b : key_compare a b = Lt ↔
  (a.1.1 < b.1.1 ∨ a.1.1 = b.1.1 ∧ (a.1.2 < b.1.2 ∨ a.1.2 = b.1.2 ∧ a.2 < b.2)).
Proof.
  destruct a as [[a1 a2] a3], b as [[b1 b2] b3]; cbn.
  destruct (Z.compare_spec a1 b1), (Z.compare_spec a2 b2), (Z.compare_spec a3 b3); subst;
    split; intros; try done; try lia; intuition lia.
Qed.

Lemma key_compare_gt a b : key_compare a b = Gt ↔ key_compare b a = Lt.
Proof.
  rewrite key_compare_lt. destruct a as [[a1 a2] a3], b as [[b1 b2] b3]; cbn.
  destruct (Z.compare_spec a1 b1), (Z.compare_spec a2 b2), (Z.compare_spec a3 b3); subst;
    split; intros; try done; try lia; intuition lia.
Qed.

Lemma fltb_key x y : is_nan x = false → is_nan y = false →
  fltb x y = true ↔ key_compare (fkey x) (fkey y) = Lt.
Proof.
  intros Hx Hy. unfold fltb, SFltb. change SFcompare with fcompare. rewrite fcompare_key by done.
  destruct (key_compare _ _); by split.
Qed.

Lemma fleb_key x y : is_nan x = false → is_nan y = false →
  fleb x y = true ↔ key_compare (fkey y) (fkey x) ≠ Lt.
Proof.
  intros Hx Hy. unfold fleb, SFleb. change SFcompare with fcompare. rewrite fcompare_key by done.
  rewrite <- key_compare_gt. destruct (key_compare (fkey x) (fkey y)); by split.
Qed.

Lemma fleb_trans x y z : fleb x y = true → fleb y z = true → fleb x z = true.
Proof.
  destruct (is_nan x) eqn:Hx; [by destruct x|]. destruct (is_nan y) eqn:Hy; [by destruct x, y|].
  destruct (is_nan z) eqn:Hz; [by destruct y, z|].
  rewrite !fleb_key, !key_compare_lt by done. lia.
Qed.

Lemma fltb_fleb x y : fltb x y = true → fleb x y = true.
Proof.
  unfold fltb, fleb, SFltb, SFleb. by destruct (SFcompare x y) as [[]|].
Qed.

Lemma fltb_negb_fleb x y : is_nan x = false → is_nan y = false → fltb x y = negb (fleb y x).
Proof.
  intros Hx Hy. apply eq_true_iff_eq. rewrite negb_true_iff, <- not_true_iff_false, fltb_key, fleb_key by done.
  destruct (key_compare (fkey x) (fkey y)); intuition congruence.
Qed.

(** The larger of two ages is within a bound iff both are. *)
Lemma fleb_fmax x y t : is_nan y = false → fleb (fmax x y) t = fleb x t && fleb y t.
Proof.
  intros Hy. unfold fmax. destruct (fltb x y) eqn:E.
  - destruct (fleb y t) eqn:Et; [|by rewrite andb_false_r].
    rewrite (fleb_trans x y t); [done|by apply fltb_fleb|done].
  - destruct (fleb x t) eqn:Ext; [|done]. cbn.
    destruct (is_nan x) eqn:Hx; [by destruct x|].
    rewrite fltb_negb_fleb in E by done. apply negb_false_iff in E. symmetry. by apply (fleb_trans y x t).
Qed.

(** ** Finite operands *)

Lemma fsub_diag x : is_finite x = true → fsub x x = fzero.
Proof. destruct x as [[]| | |s m e]; try done. intros _. unfold fsub; cbn. by rewrite Z.sub_diag. Qed.

Lemma shr_1_nonneg r : 0 ≤ shr_m r → 0 ≤ shr_m (shr_1 r).
Proof. destruct r as [[|[m|m|]|m] r s]; cbn; lia. Qed.

Lemma iter_pos_inv {A} (P : A → Prop) (f : A → A) n x :
  (∀ a, P a → P (f a)) → P x → P (iter_pos f n x).
Proof. intros Hf. revert x. induction n; intros x Hx; cbn; auto. Qed.

Lemma shr_fexp_nonneg m e l : 0 ≤ m → 0 ≤ shr_m (fst (shr_fexp 53 1024 m e l)).
Proof.
  intros Hm. unfold shr_fexp, shr.
  assert (0 ≤ shr_m (shr_record_of_loc m l)) by (by destruct l as [|[]]).
  destruct (_ - _); cbn; try done. apply iter_pos_inv; [apply shr_1_nonneg|done].
Qed.

Lemma binary_round_aux_nan s m e l : 0 ≤ m → is_nan (binary_round_aux 53 1024 s m e l) = false.
Proof.
  intros Hm. unfold binary_round_aux.
  pose proof (shr_fexp_nonneg m e l Hm) as H1. destruct (shr_fexp 53 1024 m e l) as [r1 e1]; cbn in *.
  assert (0 ≤ round_nearest_even (shr_m r1) (loc_of_shr_record r1)) as H2.
  { unfold round_nearest_even. repeat case_match; lia. }
  pose proof (shr_fexp_nonneg _ e1 loc_Exact H2) as H3.
  destruct (shr_fexp 53 1024 _ e1 loc_Exact) as [r2 e2]; cbn in *.
  destruct (shr_m r2); [done| |lia]. by case_match.
Qed.

Lemma binary_normalize_nan m e z : is_nan (binary_normalize 53 1024 m e z) = false.
Proof.
  unfold binary_normalize, binary_round. destruct m; [done| |]; destruct (shl_align _ _ _);
    by apply binary_round_aux_nan.
Qed.

Lemma fsub_nan x y : is_finite x = true → is_finite y = true → is_nan (fsub x y) = false.
Proof.
  destruct x as [[]| | |s m e], y as [[]| | |s' m' e']; try done. intros _ _. apply binary_normalize_nan.
Qed.
