(* ===== verification/CircuitBreaker.v ===== *)
(** * The daily-loss circuit breaker: [aats/risk/circuit_breaker.py] *)

From S2P Require Import Prelude Decimal Calendar RiskContracts.

Definition LAMPORTS_PER_SOL : Z := 1000000000.
Definition DEFAULT_SOFT_RATIO : dec := mkdec 6667 (-4).

(** ** PnL events *)

Module PnLEvent.
Record t : Type := mk {
  mint : string;
  block_time_ms : Z;
  delta_lamports : Z;
  kind : string;
  recorded_at_ms : option Z
}.

(** The constructor with [__post_init__]. *)
Definition __post_init__ (mint : string) (block_time_ms delta_lamports : pynum)
    (kind : string) (recorded_at_ms : option Z) : result t :=
  match delta_lamports, block_time_ms with
  | PyFloat _, _ => Raise (TypeError "delta_lamports must be int lamports")
  | _, PyFloat _ => Raise (TypeError "block_time_ms must be int")
  | PyInt delta, PyInt bt =>
      if bt <? 0 then Raise (ValueError "block_time_ms must be non-negative")
      else Ok (mk mint bt delta kind recorded_at_ms)
  end.
End PnLEvent.

(** ** The asymmetric-trust capabilities *)

Record LLMDeRiskSignal : Type := { reason : string }.

(** [OperatorResetToken]: built only with the private mint key. *)
Record OperatorResetToken : Type := mk_token { operator_id : string }.

Definition OperatorResetToken_init (op : string) (is_mint_key : bool)
    : result OperatorResetToken :=
  if negb is_mint_key
  then Raise (PermissionError "OperatorResetToken may only be minted via mint_operator_reset_token()")
  else Ok (mk_token op).

Definition mint_operator_reset_token (op : string) : result OperatorResetToken :=
  if bool_decide (op = "") then Raise (ValueError "operator_id must be a non-empty string")
  else OperatorResetToken_init op true.

(** What a dynamically typed caller may pass to [reset]. *)
Inductive reset_arg : Type :=
| Token (t : OperatorResetToken)
| OtherObject.

(** ** State *)

Inductive posture : Type := NORMAL | REDUCED.

#[export] Instance posture_eq_dec : EqDecision posture.
Proof. solve_decision. Defined.

(** The telemetry sink; [g_soft] is [None] when the sink has no
    [set_soft_reduced]. *)
Record gauges : Type := mk_gauges {
  g_tripped : bool; g_pnl : Z; g_limit : Z; g_soft : option bool }.

Record _TripDecision : Type := mk_decision {
  tripped : bool;
  breached : option string;
  soft_breached : bool;
  soft_threshold_breached : option string
}.

Record Breaker : Type := mk_breaker {
  _config : RiskConfig.t;
  _soft_ratio : dec;
  _day_pnl : gmap string Z;
  _soft_reduced_days : gset string;
  _current_day : option string;
  _state : BreakerState.t;
  _store : option BreakerState.t;          (* the durable BreakerStore *)
  _telemetry : option gauges;
  _flattened : list string                 (* reasons handed to the FlattenHandler *)
}.

Definition set_state (s : BreakerState.t) (b : Breaker) : Breaker :=
  mk_breaker (_config b) (_soft_ratio b) (_day_pnl b) (_soft_reduced_days b)
    (_current_day b) s (_store b) (_telemetry b) (_flattened b).
Definition set_current_day (d : option string) (b : Breaker) : Breaker :=
  mk_breaker (_config b) (_soft_ratio b) (_day_pnl b) (_soft_reduced_days b)
    d (_state b) (_store b) (_telemetry b) (_flattened b).
Definition set_day_pnl (m : gmap string Z) (b : Breaker) : Breaker :=
  mk_breaker (_config b) (_soft_ratio b) m (_soft_reduced_days b)
    (_current_day b) (_state b) (_store b) (_telemetry b) (_flattened b).
Definition set_soft_days (s : gset string) (b : Breaker) : Breaker :=
  mk_breaker (_config b) (_soft_ratio b) (_day_pnl b) s
    (_current_day b) (_state b) (_store b) (_telemetry b) (_flattened b).
Definition set_telemetry (g : option gauges) (b : Breaker) : Breaker :=
  mk_breaker (_config b) (_soft_ratio b) (_day_pnl b) (_soft_reduced_days b)
    (_current_day b) (_state b) (_store b) g (_flattened b).
(** [store.save(self._state)] *)
Definition save (b : Breaker) : Breaker :=
  mk_breaker (_config b) (_soft_ratio b) (_day_pnl b) (_soft_reduced_days b)
    (_current_day b) (_state b) (Some (_state b)) (_telemetry b) (_flattened b).
Definition log_flatten (r : string) (b : Breaker) : Breaker :=
  mk_breaker (_config b) (_soft_ratio b) (_day_pnl b) (_soft_reduced_days b)
    (_current_day b) (_state b) (_store b) (_telemetry b) (_flattened b ++ [r]).

(** ** Event-time keys *)

Definition _utc_day_key (block_time_ms : Z) : result string :=
  if in_range block_time_ms
  then Ok (fmt_date (ord2ymd (EPOCH_ORD + block_time_ms / MS_PER_DAY)))
  else Raise (ValueError "year is out of range").

Definition _utc_iso (block_time_ms : Z) : result string :=
  if in_range block_time_ms then Ok (fmt_iso block_time_ms)
  else Raise (ValueError "year is out of range").

(** ** The pure decision *)

Definition _soft_limit_pct (cfg : RiskConfig.t) (ratio : dec) : result dec :=
  let exact := dmul (RiskConfig.daily_loss_limit_pct cfg) ratio in
  soft ← quantize_down exact (-1);
  Ok (if dltb (dec_of_Z 0) soft then soft else exact).

Definition _fmt_pct (cfg : RiskConfig.t) : string :=
  "-" +:+ dec_str (RiskConfig.daily_loss_limit_pct cfg) +:+ "% tranche".

Definition _fmt_soft (cfg : RiskConfig.t) (ratio : dec) : result string :=
  p ← _soft_limit_pct cfg ratio;
  Ok ("-" +:+ dec_str p +:+ "% tranche (soft)").

Definition _fmt_floor (cfg : RiskConfig.t) : result string :=
  sol ← ddiv (dec_of_Z (RiskConfig.daily_loss_floor_lamports cfg)) (dec_of_Z LAMPORTS_PER_SOL);
  Ok ("-" +:+ dec_str (normalize sol) +:+ " SOL").

(** [-int((Decimal(tranche) * pct) / Decimal(100))] *)
Definition tranche_limit (cfg : RiskConfig.t) (pct : dec) : result Z :=
  q ← ddiv (dmul (dec_of_Z (RiskConfig.daily_risk_tranche_lamports cfg)) pct) (dec_of_Z 100);
  Ok (- dec_int q).

Definition _evaluate (cfg : RiskConfig.t) (ratio : dec) (net_lamports : Z)
    : result _TripDecision :=
  pct_limit_lamports ← tranche_limit cfg (RiskConfig.daily_loss_limit_pct cfg);
  let floor_limit_lamports := - RiskConfig.daily_loss_floor_lamports cfg in
  soft_pct ← _soft_limit_pct cfg ratio;
  soft_limit_lamports ← tranche_limit cfg soft_pct;
  let crossed_soft := net_lamports <=? soft_limit_lamports in
  soft_desc ← (if crossed_soft then s ← _fmt_soft cfg ratio; Ok (Some s) else Ok None);
  let crossed_pct := net_lamports <=? pct_limit_lamports in
  let crossed_floor := net_lamports <=? floor_limit_lamports in
  if crossed_pct || crossed_floor then
    why ← (if crossed_floor && (negb crossed_pct || (pct_limit_lamports <=? floor_limit_lamports))
           then _fmt_floor cfg else Ok (_fmt_pct cfg));
    if negb crossed_soft
    then Raise (AssertionError "a hard breaker trip must also cross the soft tier")
    else Ok (mk_decision true (Some why) true soft_desc)
  else Ok (mk_decision false None crossed_soft soft_desc).

(** ** Reads *)

Definition is_tripped (b : Breaker) : bool := bool_decide (BreakerState.state (_state b) = TRIPPED).

Definition _posture (b : Breaker) : posture :=
  if is_tripped b then REDUCED
  else match _current_day b with
       | Some d => if bool_decide (d ∈ _soft_reduced_days b) then REDUCED else NORMAL
       | None => NORMAL
       end.

Definition risk_posture : Breaker → posture := _posture.

Definition entries_allowed (b : Breaker) : bool :=
  bool_decide (BreakerState.state (_state b) = ARMED) && bool_decide (_posture b = NORMAL).

Definition is_soft_reduced (b : Breaker) : bool :=
  bool_decide (_posture b = REDUCED) && bool_decide (BreakerState.state (_state b) = ARMED).

(** ** Telemetry *)

Definition _emit_soft_reduce (b : Breaker) : Breaker :=
  match _telemetry b with
  | None => b
  | Some g => set_telemetry
      (Some (mk_gauges (g_tripped g) (g_pnl g) (g_limit g) ((λ _, true) <$> g_soft g))) b
  end.

Definition _emit_telemetry (b : Breaker) : Breaker :=
  match _telemetry b with
  | None => b
  | Some g => set_telemetry
      (Some (mk_gauges (is_tripped b)
        (BreakerState.daily_net_pnl_lamports (_state b))
        (- RiskConfig.daily_loss_floor_lamports (_config b))
        ((λ _, bool_decide (_posture b = REDUCED)) <$> g_soft g))) b
  end.

(** ** Construction: first boot and restart *)

Definition armed_state : BreakerState.t := BreakerState.mk ARMED None 0 None None.

Definition init (config : RiskConfig.t) (store : option BreakerState.t)
    (telemetry : option gauges) (soft_ratio : option dec) (flattened : list string)
    : result Breaker :=
  let ratio := default DEFAULT_SOFT_RATIO soft_ratio in
  if negb (dltb (dec_of_Z 0) ratio && dltb ratio (dec_of_Z 1))
  then Raise (ValueError "soft_ratio must be in (0, 1)")
  else match store with
  | None =>
      s ← BreakerState.new armed_state;
      Ok (_emit_telemetry
        (save (mk_breaker config ratio ∅ ∅ None s None telemetry flattened)))
  | Some s =>
      let persisted_day := BreakerState.daily_net_pnl_day_utc s in
      let persisted_net := BreakerState.daily_net_pnl_lamports s in
      day_pnl ← (if negb (persisted_net =? 0)
                 then match persisted_day with
                      | None => Raise (ValueError "Corrupt BreakerState")
                      | Some d => Ok (<[d := persisted_net]> ∅)
                      end
                 else Ok ∅);
      soft ← (match persisted_day with
              | None => Ok ∅
              | Some d =>
                  if bool_decide (BreakerState.state s = TRIPPED) then Ok {[d]}
                  else dec ← _evaluate config ratio persisted_net;
                       Ok (if soft_breached dec then {[d]} else ∅)
              end);
      Ok (_emit_telemetry
        (mk_breaker config ratio day_pnl soft persisted_day s (Some s) telemetry flattened))
  end.

(** A process restart: a fresh instance against the same durable store. *)
Definition restart (b : Breaker) : result Breaker :=
  init (_config b) (_store b) (_telemetry b) (Some (_soft_ratio b)) (_flattened b).

Section Operations.
(** [FlattenHandler.emergency_flatten_all]: the execution side may fail. *)
Context (emergency_flatten_all : string → result unit).

Definition _trip (net_lamports : Z) (threshold_breached : option string)
    (block_time_ms : Z) (day_utc : option string) : M Breaker unit :=
  tripped_at ← lift (_utc_iso block_time_ms);
  (match day_utc with
   | Some d => modify (λ b, set_soft_days ({[d]} ∪ _soft_reduced_days b) b)
   | None => mret tt
   end);;
  s ← lift (BreakerState.new (BreakerState.mk TRIPPED (Some tripped_at) net_lamports
             (if negb (net_lamports =? 0) then day_utc else None)
             (Some (match threshold_breached with
                    | Some t => if bool_decide (t = "") then "limit breached" else t
                    | None => "limit breached" end))));
  modify (set_state s);;
  modify save;;
  let r := "circuit_breaker_tripped:" +:+ default "None" threshold_breached in
  modify (log_flatten r);;
  lift (emergency_flatten_all r).

Definition record_pnl (event : PnLEvent.t) : M Breaker BreakerState.t :=
  day ← lift (_utc_day_key (PnLEvent.block_time_ms event));
  modify (set_current_day (Some day));;
  modify (λ b, set_day_pnl
    (<[day := default 0 (_day_pnl b !! day) + PnLEvent.delta_lamports event]> (_day_pnl b)) b);;
  b ← get;
  let net := default 0 (_day_pnl b !! day) in
  decision ← lift (_evaluate (_config b) (_soft_ratio b) net);
  (if soft_breached decision
   then modify (λ b, set_soft_days ({[day]} ∪ _soft_reduced_days b) b) else mret tt);;
  b ← get;
  (if tripped decision && bool_decide (BreakerState.state (_state b) = ARMED)
   then _trip net (breached decision) (PnLEvent.block_time_ms event) (Some day)
   else
     let was_reduced_before := _posture b in
     modify (λ b, set_state (BreakerState.copy_day (_state b) net
       (if negb (net =? 0) then Some day else None)) b);;
     modify save;;
     modify (λ b, if bool_decide (_posture b = REDUCED) && negb (bool_decide (was_reduced_before = REDUCED))
                  then _emit_soft_reduce b else b));;
  modify _emit_telemetry;;
  gets _state.

Definition trip_from_llm (signal : LLMDeRiskSignal) (block_time_ms : Z)
    : M Breaker BreakerState.t :=
  b ← get;
  (if bool_decide (BreakerState.state (_state b) = ARMED) then
     let net := BreakerState.daily_net_pnl_lamports (_state b) in
     day_utc ← (if negb (net =? 0)
                then mret (BreakerState.daily_net_pnl_day_utc (_state b))
                else d ← lift (_utc_day_key block_time_ms); mret (Some d));
     modify (set_current_day day_utc);;
     _trip net (Some ("llm_narrative_failure:" +:+ str_take 80 (reason signal)))
       block_time_ms day_utc;;
     modify _emit_telemetry
   else mret tt);;
  gets _state.

Definition reset (token : reset_arg) : M Breaker BreakerState.t :=
  match token with
  | OtherObject => raise (PermissionError "reset() requires a genuine OperatorResetToken")
  | Token _ =>
      b ← get;
      if negb (is_tripped b)
      then raise (CustomError "BreakerNotTripped" "breaker_not_tripped")
      else
        modify (set_day_pnl ∅);;
        modify (set_soft_days ∅);;
        modify (set_current_day None);;
        s ← lift (BreakerState.new armed_state);
        modify (set_state s);;
        modify save;;
        modify _emit_telemetry;;
        gets _state
  end.
End Operations.

(** ** The three tiers *)

(** The limits [_evaluate] compares the day's net with: the percentage tier,
    the absolute floor, the soft tier (all as signed lamports). *)
Definition tiers (cfg : RiskConfig.t) (ratio : dec) : result (Z * Z * Z) :=
  p ← tranche_limit cfg (RiskConfig.daily_loss_limit_pct cfg);
  sp ← _soft_limit_pct cfg ratio;
  s ← tranche_limit cfg sp;
  Ok (p, - RiskConfig.daily_loss_floor_lamports cfg, s).

(** The soft tier sits at or above both hard limits: what the assertion in
    [_evaluate] relies on. *)
Record ordered (cfg : RiskConfig.t) (ratio : dec) (hard soft : Z) : Prop := {
  ordered_tiers : ∃ p f, tiers cfg ratio = Ok (p, f, soft) ∧ hard = Z.max p f;
  ordered_le : hard ≤ soft;
  ordered_ratio : dltb (dec_of_Z 0) ratio && dltb ratio (dec_of_Z 1) = true
}.

#[local] Arguments tranche_limit : simpl never.
#[local] Arguments _soft_limit_pct : simpl never.
#[local] Arguments _evaluate : simpl never.
#[local] Arguments _fmt_floor : simpl never.
#[local] Arguments _utc_day_key : simpl never.
#[local] Arguments _utc_iso : simpl never.
#[local] Arguments ddiv : simpl never.

Lemma evaluate_cases cfg ratio p f s net :
  tiers cfg ratio = Ok (p, f, s) →
  if net <=? Z.max p f
  then if net <=? s
       then ∃ w d, _evaluate cfg ratio net = Ok (mk_decision true (Some w) true d)
       else _evaluate cfg ratio net
            = Raise (AssertionError "a hard breaker trip must also cross the soft tier")
  else ∃ d, _evaluate cfg ratio net = Ok (mk_decision false None (net <=? s) d).
Proof.
  intros Ht. unfold tiers, _evaluate, _fmt_soft in *. mstep.
  destruct (tranche_limit cfg (RiskConfig.daily_loss_limit_pct cfg)) as [p'|]; [|done].
  destruct (_soft_limit_pct cfg ratio) as [sp|]; [|done].
  mstep. destruct (tranche_limit cfg sp) as [s'|]; [|done].
  mstep. injection Ht as -> <- ->.
  destruct (ddiv_ok (dec_of_Z (RiskConfig.daily_loss_floor_lamports cfg))
    (dec_of_Z LAMPORTS_PER_SOL)) as [sol Hsol]; [done|].
  assert (∀ c : bool, ∃ w, (if c then _fmt_floor cfg else Ok (_fmt_pct cfg)) = Ok w) as Hw.
  { intros []; [|eauto]. unfold _fmt_floor. rewrite Hsol. mstep. eauto. }
  edestruct Hw as [w Hw']. 
  replace (net <=? Z.max p (- RiskConfig.daily_loss_floor_lamports cfg))
    with ((net <=? p) || (net <=? - RiskConfig.daily_loss_floor_lamports cfg)) by lia.
  destruct ((net <=? p) || _) eqn:Eh.
  - destruct (net <=? s); cbn; rewrite Hw'; mstep; eauto.
  - destruct (net <=? s); cbn; eauto.
Qed.

(** ** One step of [record_pnl] *)

(** Latch a status: a hard breach latches TRIPPED, nothing un-latches. *)
Definition latch (hit : bool) (st : breaker_status) : breaker_status :=
  if hit then TRIPPED else st.

Lemma emit_telemetry_frame b : ∃ g, _emit_telemetry b = set_telemetry g b.
Proof. unfold _emit_telemetry. destruct b as [???????[]?]; cbn; eexists; reflexivity. Qed.

Lemma emit_soft_reduce_frame b : ∃ g, _emit_soft_reduce b = set_telemetry g b.
Proof. unfold _emit_soft_reduce. destruct b as [???????[]?]; cbn; eexists; reflexivity. Qed.

#[local] Arguments _trip : simpl never.
#[local] Arguments _emit_telemetry : simpl never.
#[local] Arguments _emit_soft_reduce : simpl never.
#[local] Arguments _posture : simpl never.

Section Steps.
Context (flatten : string → result unit).

(** [_trip] latches and persists before it flattens. *)
Lemma trip_spec net why bt d b :
  in_range bt = true →
  ∃ r s, (_trip flatten net why bt (Some d) b) =
    (flatten r, log_flatten r (save (set_state s (set_soft_days ({[d]} ∪ _soft_reduced_days b) b))))
  ∧ BreakerState.state s = TRIPPED ∧ BreakerState.daily_net_pnl_lamports s = net
  ∧ BreakerState.daily_net_pnl_day_utc s = (if net =? 0 then None else Some d).
Proof.
  intros Hr. unfold _trip, _utc_iso. rewrite Hr. mstep.
  unfold BreakerState.new, BreakerState._day_key_invariant. mstep.
  destruct (net =? 0) eqn:En; cbn; do 2 eexists; (split; [reflexivity|]); cbn; auto.
Qed.

(** Everything [record_pnl] does to the breaker, when the event time is
    representable and the day's net is not at a hard limit that the soft tier
    excludes; it holds whether or not the flatten handler raises. *)
Lemma record_pnl_step_at b ev day p f soft :
  tiers (_config b) (_soft_ratio b) = Ok (p, f, soft) →
  _utc_day_key (PnLEvent.block_time_ms ev) = Ok day →
  let hard := Z.max p f in
  let net := default 0 (_day_pnl b !! day) + PnLEvent.delta_lamports ev in
  (net ≤ hard → net ≤ soft) →
  let b' := (record_pnl flatten ev b).2 in
  let st := BreakerState.state (_state b) in
  _config b' = _config b ∧ _soft_ratio b' = _soft_ratio b ∧
  _day_pnl b' = <[day := net]> (_day_pnl b) ∧
  _current_day b' = Some day ∧
  _soft_reduced_days b' =
    (if net <=? soft then {[day]} ∪ _soft_reduced_days b else _soft_reduced_days b) ∧
  BreakerState.state (_state b') = latch (net <=? hard) st ∧
  BreakerState.daily_net_pnl_lamports (_state b') = net ∧
  BreakerState.daily_net_pnl_day_utc (_state b') = (if net =? 0 then None else Some day) ∧
  _store b' = Some (_state b') ∧
  length (_flattened b') =
    (length (_flattened b) + if (net <=? hard)%Z && bool_decide (st = ARMED) then 1 else 0)%nat.
Proof.
  intros Ht Hday hard net Hle b' st. subst hard.
  assert (in_range (PnLEvent.block_time_ms ev) = true) as Hr.
  { unfold _utc_day_key in Hday. by destruct (in_range _). }
  pose proof (evaluate_cases _ _ _ _ _ net Ht) as He.
  assert (Hiso : _utc_iso (PnLEvent.block_time_ms ev) = Ok (fmt_iso (PnLEvent.block_time_ms ev)))
    by (unfold _utc_iso; by rewrite Hr).
  subst b'. unfold record_pnl. rewrite Hday. mstep.
  rewrite lookup_insert_eq. change (default 0 (Some ?x)) with x. cbn [from_option].
  change (id (default 0 (_day_pnl b !! day) + PnLEvent.delta_lamports ev)) with net. fold net.
  clearbody net. unfold latch.
  destruct (Z.leb_spec net (Z.max p f)) as [Hh|Hh].
  - rewrite (proj2 (Z.leb_le net soft)) in He |- * by auto.
    destruct He as (w & d & ->). mstep.
    destruct (BreakerState.state (_state b)) eqn:Est; subst st; cbn.
    + rewrite bool_decide_eq_true_2 by done. cbn.
      edestruct (trip_spec net (Some w)) as (r & s & -> & Hs & Hn & Hd); [exact Hr|].
      destruct (flatten r); cbn;
        try match goal with |- context [_emit_telemetry ?x] =>
          destruct (emit_telemetry_frame x) as [g ->] end;
        cbn; rewrite length_app; cbn; repeat split; auto; by rewrite (assoc_L union), union_idemp_L.
    + rewrite bool_decide_eq_false_2 by done. cbn.
      match goal with |- context [_emit_telemetry ?x] =>
          destruct (emit_telemetry_frame x) as [g ->] end.
      case_match; try destruct (emit_soft_reduce_frame (save (set_state
        (BreakerState.copy_day (_state b) net (if negb (net =? 0) then Some day else None))
        (set_soft_days ({[day]} ∪ _soft_reduced_days b)
           (set_day_pnl (<[day:=net]> (_day_pnl b)) (set_current_day (Some day) b)))))) as [g' ->];
        cbn; rewrite Nat.add_0_r; repeat split; auto; by destruct (net =? 0).
  - destruct He as (d & ->). mstep.
    destruct (net <=? soft); mstep;
    match goal with |- context [_emit_telemetry ?x] =>
          destruct (emit_telemetry_frame x) as [g ->] end;
    case_match; try match goal with |- context [_emit_soft_reduce ?x] =>
          destruct (emit_soft_reduce_frame x) as [g' ->] end;
        cbn; rewrite Nat.add_0_r; repeat split; auto; by destruct (net =? 0).
Qed.

Lemma record_pnl_step b ev day hard soft :
  ordered (_config b) (_soft_ratio b) hard soft →
  _utc_day_key (PnLEvent.block_time_ms ev) = Ok day →
  let net := default 0 (_day_pnl b !! day) + PnLEvent.delta_lamports ev in
  let b' := (record_pnl flatten ev b).2 in
  let st := BreakerState.state (_state b) in
  _config b' = _config b ∧ _soft_ratio b' = _soft_ratio b ∧
  _day_pnl b' = <[day := net]> (_day_pnl b) ∧
  _current_day b' = Some day ∧
  _soft_reduced_days b' =
    (if net <=? soft then {[day]} ∪ _soft_reduced_days b else _soft_reduced_days b) ∧
  BreakerState.state (_state b') = latch (net <=? hard) st ∧
  BreakerState.daily_net_pnl_lamports (_state b') = net ∧
  BreakerState.daily_net_pnl_day_utc (_state b') = (if net =? 0 then None else Some day) ∧
  _store b' = Some (_state b') ∧
  length (_flattened b') =
    (length (_flattened b) + if (net <=? hard)%Z && bool_decide (st = ARMED) then 1 else 0)%nat.
Proof.
  intros [(p & f & Ht & ->) Hle _] Hday. apply (record_pnl_step_at b ev day p f soft Ht Hday). lia.
Qed.

(** A net at a hard limit but above the soft tier: the assertion of
    [_evaluate] raises after the accumulator was updated. *)
Lemma record_pnl_gap b ev day p f s :
  tiers (_config b) (_soft_ratio b) = Ok (p, f, s) →
  _utc_day_key (PnLEvent.block_time_ms ev) = Ok day →
  let net := default 0 (_day_pnl b !! day) + PnLEvent.delta_lamports ev in
  s < net ≤ Z.max p f →
  ∃ m, record_pnl flatten ev b =
    (Raise (AssertionError m), set_day_pnl (<[day := net]> (_day_pnl b)) (set_current_day (Some day) b)).
Proof.
  intros Ht Hday net Hn. unfold record_pnl. rewrite Hday. mstep.
  rewrite lookup_insert_eq. cbn [from_option].
  change (id (default 0 (_day_pnl b !! day) + PnLEvent.delta_lamports ev)) with net.
  pose proof (evaluate_cases _ _ _ _ _ net Ht) as He.
  rewrite (proj2 (Z.leb_le _ _)), (proj2 (Z.leb_gt _ _)) in He by lia.
  rewrite He. mstep. eauto.
Qed.

(** What every [record_pnl] of a persisted breaker does, whatever the order of
    the tiers: the trip limit is the lower of the hard and the soft one. *)
Lemma record_pnl_any b ev day p f s :
  tiers (_config b) (_soft_ratio b) = Ok (p, f, s) →
  _utc_day_key (PnLEvent.block_time_ms ev) = Ok day →
  _store b = Some (_state b) →
  let net := default 0 (_day_pnl b !! day) + PnLEvent.delta_lamports ev in
  let hit := net <=? Z.min (Z.max p f) s in
  let b' := (record_pnl flatten ev b).2 in
  let st := BreakerState.state (_state b) in
  _config b' = _config b ∧ _soft_ratio b' = _soft_ratio b ∧
  _day_pnl b' = <[day := net]> (_day_pnl b) ∧
  BreakerState.state (_state b') = latch hit st ∧
  _store b' = Some (_state b') ∧
  length (_flattened b') = (length (_flattened b) + if hit && bool_decide (st = ARMED) then 1 else 0)%nat.
Proof.
  intros Ht Hday Hs net hit b' st. subst b'.
  destruct (decide (s < net ≤ Z.max p f)) as [Hg|Hg].
  - destruct (record_pnl_gap b ev day p f s Ht Hday Hg) as [m ->].
    assert (hit = false) as -> by (unfold hit; lia). cbn. split_and!; try done; lia.
  - destruct (record_pnl_step_at b ev day p f s Ht Hday) as (? & ? & ? & _ & _ & Hst & _ & _ & ? & Hf);
      [fold net; lia|].
    fold net in Hst, Hf. assert (hit = (net <=? Z.max p f)) as -> by (unfold hit; lia). by split_and!.
Qed.

(** Without a new trip, [record_pnl] returns and flattens nothing. *)
Lemma record_pnl_quiet b ev day hard soft :
  ordered (_config b) (_soft_ratio b) hard soft →
  _utc_day_key (PnLEvent.block_time_ms ev) = Ok day →
  hard < default 0 (_day_pnl b !! day) + PnLEvent.delta_lamports ev ∨ BreakerState.state (_state b) = TRIPPED →
  ∃ st b', record_pnl flatten ev b = (Ok st, b') ∧ _flattened b' = _flattened b.
Proof.
  intros [(p & f & Ht & ->) Hle _] Hday Hno.
  pose proof (evaluate_cases _ _ _ _ _ (default 0 (_day_pnl b !! day) + PnLEvent.delta_lamports ev) Ht) as He.
  unfold record_pnl. rewrite Hday. mstep. rewrite lookup_insert_eq. change (default 0 (Some ?x)) with x. cbn [from_option].
  change (id (default 0 (_day_pnl b !! day) + PnLEvent.delta_lamports ev))
    with (default 0 (_day_pnl b !! day) + PnLEvent.delta_lamports ev).
  generalize dependent (default 0 (_day_pnl b !! day) + PnLEvent.delta_lamports ev). intros net Hno He.
  assert (∃ d, _evaluate (_config b) (_soft_ratio b) net = Ok d ∧
    (tripped d = true → BreakerState.state (_state b) = TRIPPED)) as (d & -> & Hd).
  { destruct (Z.leb_spec net (Z.max p f)) as [Hh|Hh].
    - destruct Hno as [Hno|Hno]; [lia|]. rewrite (proj2 (Z.leb_le net soft)) in He by lia.
      destruct He as (w & d & ->). eauto.
    - destruct He as (d & ->). by eexists. }
  mstep. destruct (soft_breached d); mstep; (destruct (tripped d) eqn:Etr; mstep; [rewrite bool_decide_eq_false_2 by (by rewrite Hd)|];
    cbn; match goal with |- context [_emit_telemetry ?x] => destruct (emit_telemetry_frame x) as [g ->] end;
    do 2 eexists; (split; [reflexivity|]); cbn; repeat case_match; cbn;
    try match goal with |- context [_emit_soft_reduce ?x] => destruct (emit_soft_reduce_frame x) as [g' ->] end; done).
Qed.

(** [record_pnl] returns when the flatten handler does. *)
Lemma record_pnl_returns b ev day hard soft :
  (∀ r, flatten r = Ok tt) → ordered (_config b) (_soft_ratio b) hard soft →
  _utc_day_key (PnLEvent.block_time_ms ev) = Ok day →
  ∃ st b', record_pnl flatten ev b = (Ok st, b') ∧ _config b' = _config b ∧ _soft_ratio b' = _soft_ratio b.
Proof.
  intros Hf Ho Hday. destruct (record_pnl_step b ev day hard soft Ho Hday) as (Hcfg & Hrat & _).
  assert (∃ st, fst (record_pnl flatten ev b) = Ok st) as [st Hst].
  2:{ destruct (record_pnl flatten ev b) as [r b']; cbn in *. subst. eauto. }
  destruct (base.decide (hard < default 0 (_day_pnl b !! day) + PnLEvent.delta_lamports ev ∨
    BreakerState.state (_state b) = TRIPPED)) as [Hq|Hq].
  { destruct (record_pnl_quiet b ev day hard soft Ho Hday Hq) as (st & b' & -> & _). eauto. }
  assert (BreakerState.state (_state b) = ARMED) as Ha by (destruct (BreakerState.state (_state b)); tauto).
  destruct Ho as [(p & f & Ht & ->) Hle _].
  assert (in_range (PnLEvent.block_time_ms ev) = true) as Hr by (unfold _utc_day_key in Hday; by destruct (in_range _)).
  pose proof (evaluate_cases _ _ _ _ _ (default 0 (_day_pnl b !! day) + PnLEvent.delta_lamports ev) Ht) as He.
  rewrite (proj2 (Z.leb_le _ (Z.max p f))), (proj2 (Z.leb_le _ soft)) in He by lia. destruct He as (w & d & He).
  unfold record_pnl. rewrite Hday. mstep. rewrite lookup_insert_eq. change (default 0 (Some ?x)) with x. cbn [from_option].
  change (id (default 0 (_day_pnl b !! day) + PnLEvent.delta_lamports ev))
    with (default 0 (_day_pnl b !! day) + PnLEvent.delta_lamports ev).
  rewrite He. mstep. rewrite bool_decide_eq_true_2 by done. cbn.
  edestruct (trip_spec (default 0 (_day_pnl b !! day) + PnLEvent.delta_lamports ev) (Some w)) as (r & s & -> & _); [exact Hr|].
  rewrite Hf. cbn. eauto.
Qed.
End Steps.

(** ** Specification: the day's losses over a history of events *)

Definition day_key_of (e : PnLEvent.t) : string :=
  fmt_date (ord2ymd (EPOCH_ORD + PnLEvent.block_time_ms e / MS_PER_DAY)).

(** Net PnL of UTC day [d] over a history. *)
Definition day_net (evs : list PnLEvent.t) (d : string) : Z :=
  zsum (PnLEvent.delta_lamports <$> filter (λ e, day_key_of e = d) evs).

(** At some point of the history an event of day [d] left that day's net at or
    below [lim]. *)
Definition breaches (lim : Z) (evs : list PnLEvent.t) (d : string) : Prop :=
  ∃ pre e post, evs = pre ++ e :: post ∧ day_key_of e = d ∧ day_net (pre ++ [e]) d ≤ lim.

(** Feed a history to the breaker; an exception does not stop the caller. *)
Definition feed (flatten : string → result unit) (evs : list PnLEvent.t) (b : Breaker) : Breaker :=
  foldl (λ b e, (record_pnl flatten e b).2) b evs.

Lemma utc_day_key_of e :
  in_range (PnLEvent.block_time_ms e) = true →
  _utc_day_key (PnLEvent.block_time_ms e) = Ok (day_key_of e).
Proof. intros H. unfold _utc_day_key. by rewrite H. Qed.

Lemma day_net_snoc evs e d :
  day_net (evs ++ [e]) d =
    day_net evs d + (if bool_decide (day_key_of e = d) then PnLEvent.delta_lamports e else 0).
Proof.
  unfold day_net. rewrite filter_app, fmap_app, zsum_app. f_equal.
  rewrite filter_cons. case_bool_decide; case_decide; try done; cbn; lia.
Qed.

Lemma breaches_snoc lim evs e d :
  breaches lim (evs ++ [e]) d ↔
  breaches lim evs d ∨ (day_key_of e = d ∧ day_net (evs ++ [e]) d ≤ lim).
Proof.
  split.
  - intros (pre & x & post & E & Hd & Hn).
    destruct post as [|y post _] using rev_ind.
    + apply app_inj_tail in E as [-> ->]. auto.
    + left. rewrite app_comm_cons, (assoc_L (++)) in E. apply app_inj_tail in E as [-> ->].
      by exists pre, x, post.
  - intros [(pre & x & post & -> & Hd & Hn)|[Hd Hn]].
    + exists pre, x, (post ++ [e]). by rewrite <- (assoc_L (++)).
    + by exists evs, e, [].
Qed.

(** The state of a breaker that has seen the history [evs] since first boot. *)
Record tracks (hard soft : Z) (evs : list PnLEvent.t) (b : Breaker) : Prop := {
  tr_ordered : ordered (_config b) (_soft_ratio b) hard soft;
  tr_net : ∀ d, default 0 (_day_pnl b !! d) = day_net evs d;
  tr_trip : is_tripped b = true ↔ ∃ d, breaches hard evs d;
  tr_soft : ∀ d, d ∈ _soft_reduced_days b ↔ breaches soft evs d;
  tr_day : _current_day b = day_key_of <$> last evs;
  tr_store : _store b = Some (_state b);
  tr_pnl : BreakerState.daily_net_pnl_lamports (_state b) =
           from_option (day_net evs) 0 (_current_day b);
  tr_pnl_day : BreakerState.daily_net_pnl_day_utc (_state b) =
    (if BreakerState.daily_net_pnl_lamports (_state b) =? 0 then None else _current_day b);
  tr_flatten : length (_flattened b) = (if is_tripped b then 1 else 0)%nat
}.

Lemma not_breaches_nil lim d : ¬ breaches lim [] d.
Proof. intros (pre & ? & ? & E & _). by destruct pre. Qed.

Lemma tracks_init cfg tel ratio b hard soft :
  init cfg None tel ratio [] = Ok b →
  ordered cfg (default DEFAULT_SOFT_RATIO ratio) hard soft →
  tracks hard soft [] b.
Proof.
  unfold init. case_match; [done|]. mstep. intros [= <-] Ho.
  match goal with |- context [_emit_telemetry ?x] => destruct (emit_telemetry_frame x) as [g ->] end.
  split; cbn; try done.
  - split; [done|]. intros [d []%not_breaches_nil].
  - intros d. split; [set_solver|]. intros []%not_breaches_nil.
Qed.

Lemma is_tripped_latch b b' hit :
  BreakerState.state (_state b') = latch hit (BreakerState.state (_state b)) →
  is_tripped b' = hit || is_tripped b.
Proof. unfold is_tripped, latch. intros ->. by destruct hit. Qed.

Lemma tracks_step flatten hard soft evs e b :
  tracks hard soft evs b → in_range (PnLEvent.block_time_ms e) = true →
  tracks hard soft (evs ++ [e]) (record_pnl flatten e b).2.
Proof.
  intros Ht Hr. destruct Ht as [Ho Hnet Htrip Hsoft _ _ _ _ Hfl].
  destruct (record_pnl_step flatten b e (day_key_of e) hard soft Ho (utc_day_key_of e Hr))
    as (Ec & Er & Em & Ed & Es & Est & En & Edn & Esave & Ef).
  rewrite Hnet in *.
  assert (day_net (evs ++ [e]) (day_key_of e) =
          day_net evs (day_key_of e) + PnLEvent.delta_lamports e) as Hn.
  { rewrite day_net_snoc. by rewrite bool_decide_eq_true_2. }
  rewrite <- Hn in *. apply is_tripped_latch in Est as Etr.
  split; [by rewrite Ec, Er|..]; rewrite ?Ed, ?Es, ?En, ?Edn, ?last_snoc; cbn; try done.
  - intros d. rewrite Em. destruct (decide (d = day_key_of e)) as [->|Hne].
    + by rewrite lookup_insert_eq.
    + rewrite lookup_insert_ne, Hnet, day_net_snoc, bool_decide_eq_false_2 by done. lia.
  - rewrite Etr, orb_true_iff, Htrip, Z.leb_le. setoid_rewrite breaches_snoc.
    split; [intros [H|[d H]]; eauto|]. intros [d [H|[<- H]]]; eauto.
  - intros d. rewrite breaches_snoc, <- Hsoft. destruct (Z.leb_spec (day_net (evs ++ [e]) (day_key_of e)) soft).
    + rewrite elem_of_union, elem_of_singleton. split; [|intros [|[<- ?]]; auto].
      intros [->|]; auto.
    + split; [auto|]. intros [|[<- ?]]; [done|lia].
  - rewrite Ef, Hfl, Etr. unfold is_tripped.
    destruct (BreakerState.state (_state b)), (_ <=? hard); done.
Qed.

Lemma tracks_feed flatten hard soft evs b :
  tracks hard soft [] b → Forall (λ e, in_range (PnLEvent.block_time_ms e) = true) evs →
  tracks hard soft evs (feed flatten evs b).
Proof.
  intros H0. unfold feed. induction evs as [|e evs IH] using rev_ind; intros Hr; [done|].
  apply Forall_app in Hr as [Hr He]. rewrite foldl_app. cbn.
  apply tracks_step; [auto|]. by inv He.
Qed.

(** The same for a configuration whose tiers need not be ordered. *)
Record follows (p f s : Z) (evs : list PnLEvent.t) (b : Breaker) : Prop := {
  fo_tiers : tiers (_config b) (_soft_ratio b) = Ok (p, f, s);
  fo_net : ∀ d, default 0 (_day_pnl b !! d) = day_net evs d;
  fo_trip : is_tripped b = true ↔ ∃ d, breaches (Z.min (Z.max p f) s) evs d;
  fo_store : _store b = Some (_state b);
  fo_flatten : length (_flattened b) = (if is_tripped b then 1 else 0)%nat
}.

Lemma follows_init cfg tel ratio b p f s :
  init cfg None tel ratio [] = Ok b →
  tiers cfg (default DEFAULT_SOFT_RATIO ratio) = Ok (p, f, s) →
  follows p f s [] b.
Proof.
  unfold init. case_match; [done|]. mstep. intros [= <-] Ht.
  match goal with |- context [_emit_telemetry ?x] => destruct (emit_telemetry_frame x) as [g ->] end.
  split; cbn; try done. split; [done|]. intros [d []%not_breaches_nil].
Qed.

Lemma day_net_here evs e :
  day_net (evs ++ [e]) (day_key_of e) = day_net evs (day_key_of e) + PnLEvent.delta_lamports e.
Proof. by rewrite day_net_snoc, bool_decide_eq_true_2. Qed.

Lemma follows_step flatten p f s evs e b :
  follows p f s evs b → in_range (PnLEvent.block_time_ms e) = true →
  follows p f s (evs ++ [e]) (record_pnl flatten e b).2.
Proof.
  intros [Ht Hnet Htrip Hs Hfl] Hr.
  destruct (record_pnl_any flatten b e (day_key_of e) p f s Ht (utc_day_key_of e Hr) Hs)
    as (Ec & Er & Em & Est & Esave & Ef).
  rewrite Hnet, <- day_net_here in *. apply is_tripped_latch in Est as Etr.
  split; [by rewrite Ec, Er| | |done|].
  - intros d. rewrite Em. destruct (decide (d = day_key_of e)) as [->|Hne].
    + by rewrite lookup_insert_eq.
    + rewrite lookup_insert_ne, Hnet, day_net_snoc, bool_decide_eq_false_2 by done. lia.
  - rewrite Etr, orb_true_iff, Htrip, Z.leb_le. setoid_rewrite breaches_snoc.
    split; [intros [H|[d H]]; eauto|]. intros [d [H|[<- H]]]; eauto.
  - rewrite Ef, Hfl, Etr. unfold is_tripped.
    destruct (BreakerState.state (_state b)), (_ <=? Z.min _ s); done.
Qed.

Lemma follows_feed flatten p f s evs b :
  follows p f s [] b → Forall (λ e, in_range (PnLEvent.block_time_ms e) = true) evs →
  follows p f s evs (feed flatten evs b).
Proof.
  intros H0. unfold feed. induction evs as [|e evs IH] using rev_ind; intros Hr; [done|].
  apply Forall_app in Hr as [Hr He]. rewrite foldl_app. cbn.
  apply follows_step; [auto|]. by inv He.
Qed.

(** ** The latch *)

(** Every transition of a deployed breaker except an operator's reset with a
    genuine token: PnL events, LLM de-risk signals, process restarts, and
    reset calls with a forged token. *)
Inductive automated_step (flatten : string → result unit) : Breaker → Breaker → Prop :=
| as_pnl e b : automated_step flatten b (record_pnl flatten e b).2
| as_llm sig bt b : automated_step flatten b (trip_from_llm flatten sig bt b).2
| as_restart b b' : restart b = Ok b' → automated_step flatten b b'
| as_forged b : automated_step flatten b (reset OtherObject b).2.

(** TRIPPED in memory and on durable storage. *)
Definition latched (b : Breaker) : Prop :=
  BreakerState.state (_state b) = TRIPPED ∧
  ∃ s, _store b = Some s ∧ BreakerState.state s = TRIPPED.

Lemma latched_tripped b : latched b → is_tripped b = true.
Proof. intros [H _]. unfold is_tripped. by apply bool_decide_eq_true_2. Qed.

(** On a latched breaker [record_pnl] can only refresh the recorded net. *)
Lemma record_pnl_latched flatten e b :
  latched b → latched (record_pnl flatten e b).2 ∧
  _flattened (record_pnl flatten e b).2 = _flattened b.
Proof.
  intros [Hst Hsv]. unfold record_pnl.
  destruct (_utc_day_key _) as [d|]; mstep; [|done].
  rewrite lookup_insert_eq. cbn [from_option].
  destruct (_evaluate _ _ _) as [dec|]; mstep; [|done].
  destruct (soft_breached dec); mstep;
  (rewrite (bool_decide_eq_false_2 (BreakerState.state (_state b) = ARMED)) by congruence);
  rewrite andb_false_r; mstep;
  match goal with |- context [_emit_telemetry ?x] => destruct (emit_telemetry_frame x) as [g ->] end;
  case_match; try match goal with |- context [_emit_soft_reduce ?x] =>
    destruct (emit_soft_reduce_frame x) as [g' ->] end;
  cbn; (split; [|done]); (split; [done|]); eexists; done.
Qed.

Lemma restart_state b b' :
  restart b = Ok b' →
  _flattened b' = _flattened b ∧
  (∀ s, _store b = Some s → _state b' = s ∧ _store b' = Some s).
Proof.
  unfold restart, init. case_match; [done|].
  destruct (_store b) as [s|]; mstep.
  2: { intros [= <-]. match goal with |- context [_emit_telemetry ?x] =>
    destruct (emit_telemetry_frame x) as [g ->] end. done. }
  intros E. repeat (case_match; [|done]). injection E as <-.
  match goal with |- context [_emit_telemetry ?x] => destruct (emit_telemetry_frame x) as [g ->] end.
  cbn. split; [done|]. by intros ? [= ->].
Qed.

Lemma automated_step_latched flatten b b' :
  automated_step flatten b b' → latched b → latched b' ∧ _flattened b' = _flattened b.
Proof.
  intros [e|sig bt|x x' Hr|x] Hl; [by apply record_pnl_latched|..].
  - destruct Hl as [Hst Hsv]. unfold trip_from_llm. mstep.
    rewrite (bool_decide_eq_false_2 (BreakerState.state (_state b0) = ARMED)) by congruence. by mstep.
  - apply restart_state in Hr as [Hf Hs]. destruct Hl as [Hst (s & Hsv & Hs')].
    destruct (Hs _ Hsv) as [E1 E2].
    split; [split; [by rewrite E1|eauto]|done].
  - done.
Qed.

Lemma rtc_latched flatten b b' :
  rtc (automated_step flatten) b b' → latched b → latched b' ∧ _flattened b' = _flattened b.
Proof.
  induction 1 as [|x y z Hxy _ IH]; intros Hl; [done|].
  apply automated_step_latched in Hxy as [Hy Ef]; [|done].
  destruct (IH Hy) as [? ->]. done.
Qed.

(** ** Restart *)

(** What a restart of a tracked breaker reconstructs. *)
Lemma restart_tracks hard soft evs b :
  tracks hard soft evs b →
  ∃ b', restart b = Ok b' ∧ _state b' = _state b ∧
    (∀ d, default 0 (_day_pnl b' !! d) =
          if bool_decide (_current_day b = Some d) then day_net evs d else 0) ∧
    (∀ d, d ∈ _soft_reduced_days b' ↔
       BreakerState.daily_net_pnl_day_utc (_state b) = Some d ∧
       (is_tripped b = true ∨ BreakerState.daily_net_pnl_lamports (_state b) ≤ soft)) ∧
    _current_day b' = BreakerState.daily_net_pnl_day_utc (_state b).
Proof.
  intros [[(p & f & Ht & Hh) Hle Hra] _ _ _ _ Hsv Hpnl Hday _].
  unfold restart, init. cbn. rewrite Hra, Hsv. cbn [negb].
  set (net := BreakerState.daily_net_pnl_lamports (_state b)) in *.
  set (pd := BreakerState.daily_net_pnl_day_utc (_state b)) in *.
  pose proof (evaluate_cases _ _ _ _ _ net Ht) as He. rewrite <- Hh in He.
  assert (∃ dd, _evaluate (_config b) (_soft_ratio b) net = Ok dd ∧ soft_breached dd = (net <=? soft))
    as (dd & Hev & Hsb).
  { destruct (Z.leb_spec net hard), (Z.leb_spec net soft); try lia.
    - destruct He as (? & ? & ->). eexists. split; [done|]. done.
    - destruct He as (? & ->). eexists. split; [done|]. cbn. lia.
    - destruct He as (? & ->). eexists. split; [done|]. cbn. lia. }
  destruct (Z.eqb_spec net 0) as [Hn|Hn]; clearbody pd; subst pd; mstep.
  - match goal with |- context [_emit_telemetry ?x] => destruct (emit_telemetry_frame x) as [g ->] end.
    eexists. split; [done|]. cbn. split_and!; [done| |by intros d; split; [intros []%not_elem_of_empty|intros [? _]]|done].
    intros d. case_bool_decide as Hd; [|done]. rewrite Hd in Hpnl. cbn in Hpnl. rewrite lookup_empty. cbn. lia.
  - destruct (_current_day b) as [cd|] eqn:Ecd; cbn in *; [|done].
    assert (∀ d, default 0 (<[cd := net]> (∅ : gmap string Z) !! d) =
      if bool_decide (Some cd = Some d) then day_net evs d else 0) as Hm.
    { intros d. destruct (decide (cd = d)) as [->|Hne].
      - by rewrite lookup_insert_eq, bool_decide_eq_true_2.
      - rewrite lookup_insert_ne by done. rewrite bool_decide_eq_false_2 by congruence. done. }
    unfold is_tripped. case_bool_decide as Hst.
    + match goal with |- context [_emit_telemetry ?x] => destruct (emit_telemetry_frame x) as [g ->] end.
      eexists. split; [done|]. cbn. split_and!; [done|exact Hm| |done].
      intros d. rewrite elem_of_singleton. split; [by intros ->; auto|]. by intros [[= ->] _].
    + rewrite Hev. mstep. rewrite Hsb.
      match goal with |- context [_emit_telemetry ?x] => destruct (emit_telemetry_frame x) as [g ->] end.
      eexists. split; [done|]. cbn. split_and!; [done|exact Hm| |done].
      intros d. destruct (Z.leb_spec net soft).
      * rewrite elem_of_singleton. split; [by intros ->; auto|]. by intros [[= ->] _].
      * split; [set_solver|]. intros [_ [|]]; [done|lia].
Qed.

(** ** Which configurations keep the tiers ordered *)

Lemma tranche_limit_exact cfg c e :
  Z.abs (RiskConfig.daily_risk_tranche_lamports cfg * c) < 10 ^ 28 →
  tranche_limit cfg (mkdec c e) =
    Ok (- dec_int (mkdec (RiskConfig.daily_risk_tranche_lamports cfg * c) (e - 2))).
Proof.
  intros H. unfold tranche_limit. rewrite dmul_exact by done.
  change (expo (dec_of_Z _) + expo (mkdec c e)) with e.
  destruct (ddiv_pow10 (RiskConfig.daily_risk_tranche_lamports cfg * c) e 2 H)
    as (d & Ed & Hd & _); [done|].
  change (10 ^ 2) with 100 in Ed. cbn [coef dec_of_Z] in Ed |- *. rewrite Ed. cbn. by rewrite Hd.
Qed.

(** The soft percentage: computed without rounding error, at most the hard
    percentage, and with a coefficient no larger than the exact product's. *)
Lemma soft_limit_pct_spec cfg ratio :
  let pct := RiskConfig.daily_loss_limit_pct cfg in
  0 ≤ coef pct → expo pct ≤ 0 →
  dltb (dec_of_Z 0) ratio && dltb ratio (dec_of_Z 1) = true →
  coef pct * coef ratio < 10 ^ 28 →
  ∃ sp, _soft_limit_pct cfg ratio = Ok sp ∧ dle sp pct ∧
        0 ≤ coef sp ≤ coef pct * coef ratio.
Proof.
  intros pct Hc He Hr Hb. apply ratio_bounds in Hr as (Hr0 & Hre & Hr1).
  unfold _soft_limit_pct. fold pct. rewrite dmul_exact by nia.
  unfold quantize_down; cbn [coef expo].
  set (cr := coef pct * coef ratio) in *. assert (0 ≤ cr) by (unfold cr; nia).
  set (ee := expo pct + expo ratio) in *.
  assert (dle (mkdec cr ee) pct) as Hexact.
  { apply (dle_at _ _ ee); unfold rescale; cbn [expo coef]; [lia..|].
    rewrite Z.sub_diag. replace (expo pct - ee) with (- expo ratio) by lia. unfold cr. nia. }
  set (q := if -1 <=? ee then cr * 10 ^ (ee - -1) else cr ÷ 10 ^ (-1 - ee)).
  assert (q * 10 ^ (-1 - ee) ≤ cr ∧ 0 ≤ q ≤ cr) as [Hq1 Hq2].
  { unfold q. destruct (Z.leb_spec (-1) ee).
    - assert (ee = -1) as -> by lia. cbn. lia.
    - pose proof (Z_pow10_pos' (-1 - ee) ltac:(lia)).
      rewrite Z.quot_div_nonneg by lia.
      pose proof (Z.mul_div_le cr (10 ^ (-1 - ee))).
      pose proof (Z.div_pos cr (10 ^ (-1 - ee))). split; [lia|]. split; [lia|].
      apply Z.div_le_upper_bound; nia. }
  rewrite (proj2 (Z.leb_le (ndigits q) prec)) by (apply ndigits_le; unfold prec; lia).
  cbn. destruct (dltb _ _); eexists; (split; [done|]); cbn [coef]; [|split; [done|lia]].
  split; [|lia]. apply (dle_trans _ (mkdec cr ee)); [|done].
  apply (dle_at _ _ ee); unfold rescale; cbn [expo coef]; [lia..|]. rewrite Z.sub_diag. lia.
Qed.

Lemma tiers_of_config cfg ratio :
  let pct := RiskConfig.daily_loss_limit_pct cfg in
  let tranche := RiskConfig.daily_risk_tranche_lamports cfg in
  0 ≤ tranche → 0 ≤ coef pct → expo pct ≤ 0 →
  dltb (dec_of_Z 0) ratio && dltb ratio (dec_of_Z 1) = true →
  Z.max 1 tranche * (coef pct * coef ratio) < 10 ^ 28 →
  ∃ p s, tiers cfg ratio = Ok (p, - RiskConfig.daily_loss_floor_lamports cfg, s) ∧ p ≤ s ≤ 0.
Proof.
  intros pct tranche Ht Hc He Hr Hb.
  destruct (soft_limit_pct_spec cfg ratio Hc He Hr) as ([cs es] & Hsp & Hle & Hcs); [fold pct; nia|].
  fold pct in Hle, Hcs. cbn [coef] in Hcs. apply ratio_bounds in Hr as (Hr0 & _ & _).
  unfold tiers. fold pct. fold tranche in Hb |- *. destruct pct as [c e] eqn:Epct. cbn [coef expo] in *.
  rewrite tranche_limit_exact by (fold tranche; nia). rewrite Hsp. mstep.
  rewrite tranche_limit_exact by (fold tranche; nia). mstep. fold tranche.
  do 2 eexists. split; [done|]. split.
  - apply Z.opp_le_mono. rewrite !Z.opp_involutive. apply dec_int_mono.
    set (m := Z.min es e). apply (dle_at _ _ (m - 2)); cbn [expo]; [lia..|].
    specialize (Hle m ltac:(cbn; lia) ltac:(cbn; lia)). unfold rescale in *; cbn [coef expo] in *.
    replace (es - 2 - (m - 2)) with (es - m) by lia. replace (e - 2 - (m - 2)) with (e - m) by lia.
    rewrite <- !Z.mul_assoc. by apply Z.mul_le_mono_nonneg_l.
  - pose proof (dec_int_nonneg (mkdec (tranche * cs) (es - 2))) as H. cbn [coef] in H. nia.
Qed.

(** ** Properties *)

(** C8: the breaker implements its day-loss specification, whatever the
    configuration.  From first boot, after any history of events with
    representable times (in any order, whether or not the flatten handler
    raises), the breaker is TRIPPED exactly when some event left its own UTC
    day's net at or below the tighter hard limit AND the soft tier; with the
    hard limits at or below the soft tier, as the shipped defaults have them,
    that is the tighter hard limit alone.  The durable store holds the in-memory
    state, and the flatten handler was called exactly once if it tripped and
    never otherwise.  When a configured floor is tighter than the soft tier, an
    event that leaves the net between the two makes [record_pnl] raise and
    neither trips, persists nor flattens. *)
Theorem breaker_trips_iff_day_loss flatten cfg tel ratio b0 pct floor soft evs :
  init cfg None tel ratio [] = Ok b0 →
  tiers cfg (default DEFAULT_SOFT_RATIO ratio) = Ok (pct, floor, soft) →
  Forall (λ e, in_range (PnLEvent.block_time_ms e) = true) evs →
  let b := feed flatten evs b0 in
  let hard := Z.max pct floor in
  (is_tripped b = true ↔ ∃ d, breaches (Z.min hard soft) evs d) ∧
  (hard ≤ soft → (is_tripped b = true ↔ ∃ d, breaches hard evs d)) ∧
  _store b = Some (_state b) ∧
  length (_flattened b) = (if is_tripped b then 1 else 0)%nat ∧
  (∀ e, in_range (PnLEvent.block_time_ms e) = true →
     soft < day_net (evs ++ [e]) (day_key_of e) ≤ hard →
     ∃ m b', record_pnl flatten e b = (Raise (AssertionError m), b') ∧
       _state b' = _state b ∧ _store b' = _store b ∧ _flattened b' = _flattened b).
Proof.
  intros Hi Ht Hr b hard.
  destruct (follows_feed flatten _ _ _ evs _ (follows_init _ _ _ _ _ _ _ Hi Ht) Hr)
    as [Ht' Hnet Htrip Hs Hfl].
  fold b hard in Ht', Hnet, Htrip, Hs, Hfl |- *. split_and!; [done| |done..|].
  - intros Hle. by rewrite Z.min_l in Htrip by done.
  - intros e He Hn. rewrite day_net_here, <- Hnet in Hn.
    destruct (record_pnl_gap flatten b e _ _ _ _ Ht' (utc_day_key_of e He) Hn) as [m ->]. eauto 10.
Qed.

(** New entries are allowed exactly when no event of the history crossed a
    hard limit and no event of the latest event's UTC day crossed the soft
    tier; a same-day recovery never lifts the pause. *)
Theorem entries_allowed_iff_no_breach flatten cfg tel ratio b0 hard soft evs e :
  init cfg None tel ratio [] = Ok b0 →
  ordered cfg (default DEFAULT_SOFT_RATIO ratio) hard soft →
  Forall (λ e, in_range (PnLEvent.block_time_ms e) = true) (evs ++ [e]) →
  entries_allowed (feed flatten (evs ++ [e]) b0) = true ↔
  (∀ d, ¬ breaches hard (evs ++ [e]) d) ∧ ¬ breaches soft (evs ++ [e]) (day_key_of e).
Proof.
  intros Hi Ho Hr.
  destruct (tracks_feed flatten _ _ _ _ (tracks_init _ _ _ _ _ _ Hi Ho) Hr)
    as [_ _ Htrip Hsoft Hday _ _ _ _].
  rewrite last_snoc in Hday. cbn in Hday. set (b := feed _ _ _) in *.
  unfold entries_allowed, _posture. rewrite Hday.
  rewrite <- Hsoft.
  destruct (BreakerState.state (_state b)) eqn:Est.
  - assert (is_tripped b = false) as Hf by (unfold is_tripped; by rewrite Est).
    rewrite Hf, bool_decide_eq_true_2 by done. cbn.
    destruct (decide (day_key_of e ∈ _soft_reduced_days b)) as [Hin|Hin].
    + rewrite (bool_decide_eq_true_2 (_ ∈ _)) by done. split; [by intros ?%bool_decide_eq_true|tauto].
    + rewrite (bool_decide_eq_false_2 (_ ∈ _)), bool_decide_eq_true_2 by done.
      split; [|done]. intros _. split; [|done]. intros d Hb.
      assert (is_tripped b = true) by (apply Htrip; eauto). congruence.
  - rewrite bool_decide_eq_false_2 by done. cbn. split; [done|]. intros [H _].
    destruct (proj1 Htrip) as [d Hd]; [unfold is_tripped; by rewrite Est|]. by destruct (H d).
Qed.

(** C9: the TRIPPED latch survives everything but an operator.  Once latched,
    no sequence of PnL events, LLM signals, restarts or forged resets clears
    the latch or its durable copy, re-allows entries, or flattens again. *)
Theorem latch_survives_automation flatten b b' :
  latched b → rtc (automated_step flatten) b b' →
  latched b' ∧ entries_allowed b' = false ∧ _flattened b' = _flattened b.
Proof.
  intros Hl Hs. destruct (rtc_latched flatten b b' Hs Hl) as [Hl' Hf].
  split; [done|]. split; [|done]. destruct Hl' as [Hst _]. unfold entries_allowed.
  rewrite bool_decide_eq_false_2; [done|]. congruence.
Qed.

(** Restart is point-in-time correct.  A restarted breaker always comes up
    with the same latch state; the latest day's accumulator continues from its
    persisted net, every other day starts from zero. *)
Theorem restart_point_in_time flatten cfg tel ratio b0 hard soft evs :
  init cfg None tel ratio [] = Ok b0 →
  ordered cfg (default DEFAULT_SOFT_RATIO ratio) hard soft →
  Forall (λ e, in_range (PnLEvent.block_time_ms e) = true) evs →
  let b := feed flatten evs b0 in
  ∃ b', restart b = Ok b' ∧ _state b' = _state b ∧
    ∀ d, default 0 (_day_pnl b' !! d) =
         if bool_decide (day_key_of <$> last evs = Some d) then day_net evs d else 0.
Proof.
  intros Hi Ho Hr b.
  pose proof (tracks_feed flatten _ _ evs _ (tracks_init _ _ _ _ _ _ Hi Ho) Hr) as Ht.
  destruct (restart_tracks _ _ _ _ Ht) as (b' & Hb' & Hs & Hd & _).
  rewrite (tr_day _ _ _ _ Ht) in Hd. eauto.
Qed.

(** [reset] on every branch: a forged token and an untripped breaker raise
    and change nothing; a genuine token on a tripped breaker re-arms, clears the
    accumulators and the soft band, and persists the re-armed state. *)
Theorem reset_branches arg b :
  match arg with
  | OtherObject => ∃ m, reset arg b = (Raise (PermissionError m), b)
  | Token _ =>
      if is_tripped b then
        ∃ b', reset arg b = (Ok armed_state, b') ∧ _state b' = armed_state ∧
              _store b' = Some armed_state ∧ _day_pnl b' = ∅ ∧ entries_allowed b' = true ∧
              _flattened b' = _flattened b
      else ∃ m, reset arg b = (Raise (CustomError "BreakerNotTripped" m), b)
  end.
Proof.
  destruct arg as [t|]; [|by eexists]. unfold reset. mstep.
  destruct (is_tripped b); mstep; [|by eexists].
  match goal with |- context [_emit_telemetry ?x] => destruct (emit_telemetry_frame x) as [g ->] end.
  eexists. split; [done|]. by cbn.
Qed.

(** The tranche key changes exactly at UTC midnight: two representable
    event times share a day key iff they lie in the same 86,400,000 ms day. *)
Theorem day_key_iff_same_utc_day t1 t2 d1 d2 :
  _utc_day_key t1 = Ok d1 → _utc_day_key t2 = Ok d2 →
  (d1 = d2 ↔ t1 / MS_PER_DAY = t2 / MS_PER_DAY).
Proof.
  unfold _utc_day_key, in_range, MAX_MS.
  case_match eqn:E1; [|done]. case_match eqn:E2; [|done]. intros [= <-] [= <-].
  bools. split; [|by intros ->]. apply fmt_day_inj; unfold MS_PER_DAY;
    (split; [apply Z.div_pos|apply Z.div_lt_upper_bound]; lia).
Qed.

(** For every configuration with a non-negative tranche and percentage the
    limits are computed without rounding and the percentage tier is never
    tighter than the soft tier; so [_evaluate] is total when the absolute floor
    is at least the soft tier, and raises at the floor when it is not. *)
Theorem evaluate_total_iff_floor cfg ratio :
  let pct := RiskConfig.daily_loss_limit_pct cfg in
  let tranche := RiskConfig.daily_risk_tranche_lamports cfg in
  let floor := RiskConfig.daily_loss_floor_lamports cfg in
  0 ≤ tranche → 0 ≤ coef pct → expo pct ≤ 0 →
  dltb (dec_of_Z 0) ratio && dltb ratio (dec_of_Z 1) = true →
  Z.max 1 tranche * (coef pct * coef ratio) < 10 ^ 28 →
  ∃ p s, tiers cfg ratio = Ok (p, - floor, s) ∧ p ≤ s ≤ 0 ∧
    ((∀ net, is_ok (_evaluate cfg ratio net) = true) ↔ - floor ≤ s).
Proof.
  intros pct tranche floor Ht Hc He Hr Hb.
  destruct (tiers_of_config cfg ratio Ht Hc He Hr Hb) as (p & s & Htiers & Hps).
  exists p, s. split; [done|]. split; [done|]. split.
  - intros Hall. specialize (Hall (- floor)).
    pose proof (evaluate_cases _ _ _ _ _ (- floor) Htiers) as Hev.
    rewrite (proj2 (Z.leb_le _ _)) in Hev by (fold floor; lia).
    destruct (Z.leb_spec (- floor) s); [done|]. rewrite Hev in Hall. done.
  - intros Hf net. pose proof (evaluate_cases _ _ _ _ _ net Htiers) as Hev. fold floor in Hev.
    destruct (Z.leb_spec net (Z.max p (- floor))), (Z.leb_spec net s); try lia.
    + by destruct Hev as (? & ? & ->).
    + by destruct Hev as (? & ->).
    + by destruct Hev as (? & ->).
Qed.

(** A floor tighter than the soft tier disables the breaker in the gap.
    Whatever the configuration, a net between the soft tier (exclusive) and the
    floor (inclusive) makes [record_pnl] raise before it trips: nothing is
    persisted, nothing is flattened, and the breaker stays as it was. *)
Theorem floor_above_soft_never_trips flatten b ev day p f s :
  tiers (_config b) (_soft_ratio b) = Ok (p, f, s) →
  _utc_day_key (PnLEvent.block_time_ms ev) = Ok day →
  let net := default 0 (_day_pnl b !! day) + PnLEvent.delta_lamports ev in
  s < net ≤ f →
  ∃ m b', record_pnl flatten ev b = (Raise (AssertionError m), b') ∧
    _state b' = _state b ∧ _store b' = _store b ∧ _flattened b' = _flattened b ∧
    _soft_reduced_days b' = _soft_reduced_days b.
Proof.
  intros Ht Hday net Hn. unfold record_pnl. rewrite Hday. mstep.
  rewrite lookup_insert_eq. cbn [from_option].
  change (id (default 0 (_day_pnl b !! day) + PnLEvent.delta_lamports ev)) with net.
  pose proof (evaluate_cases _ _ _ _ _ net Ht) as He.
  rewrite (proj2 (Z.leb_le _ _)), (proj2 (Z.leb_gt _ _)) in He by lia.
  rewrite He. mstep. do 2 eexists. split; [done|]. done.
Qed.

(** *** Witnesses *)

Definition no_flatten (_ : string) : result unit := Ok tt.
Definition boot (cfg : RiskConfig.t) : Breaker :=
  mk_breaker cfg DEFAULT_SOFT_RATIO ∅ ∅ None armed_state (Some armed_state) None [].
Definition pnl (bt delta : Z) : PnLEvent.t := PnLEvent.mk "MINT" bt delta "realized" None.
(** 2026-01-02T00:00:00Z *)
Definition jan2 : Z := 1767312000000.

(** A configuration the contract validators accept: the floor tightened to
    0.005 SOL. *)
Definition tight_floor : RiskConfig.t :=
  RiskConfig.mk 100000000 500000000 500000000 (mkdec 30 (-1)) 5000000 300
    (RiskConfig.snipe_threshold RiskConfig.defaults) (RiskConfig.veto_threshold RiskConfig.defaults)
    (mkdec 30 (-2)) (mkdec 25 (-2)) 1 100000000 60 150.

Lemma default_ordered : ordered RiskConfig.defaults DEFAULT_SOFT_RATIO (-15000000) (-10000000).
Proof. split; [exists (-15000000), (-300000000); by vm_compute|lia|by vm_compute]. Qed.

Lemma default_boot : init RiskConfig.defaults None None None [] = Ok (boot RiskConfig.defaults).
Proof. by vm_compute. Qed.

(** On the default tranche a loss of 0.016 SOL trips; with the floor tightened
    to 0.005 SOL a loss of 0.006 SOL raises instead, and one of 0.012 SOL trips. *)
Lemma breaker_trips_witness :
  is_tripped (feed no_flatten [pnl jan2 (-9000000); pnl (jan2 + 5) (-7000000)]
    (boot RiskConfig.defaults)) = true ∧
  let b := feed no_flatten [pnl (jan2 - 1) (-8000000)] (boot tight_floor) in
  ¬ is_tripped b = true ∧
  (∃ m b', record_pnl no_flatten (pnl jan2 (-6000000)) b = (Raise (AssertionError m), b')).
Proof.
  split.
  - apply (breaker_trips_iff_day_loss no_flatten RiskConfig.defaults None None _
             (-15000000) (-300000000) (-10000000)).
    + exact default_boot.
    + by vm_compute.
    + repeat constructor.
    + discriminate.
    + exists "2026-01-02", [pnl jan2 (-9000000)], (pnl (jan2 + 5) (-7000000)), [].
      split; [done|]. split; [by vm_compute|]. vm_compute. discriminate.
  - destruct (breaker_trips_iff_day_loss no_flatten tight_floor None None (boot tight_floor)
      (-15000000) (-5000000) (-10000000) [pnl (jan2 - 1) (-8000000)]) as (Htrip & _ & _ & _ & Hgap).
    + by vm_compute.
    + by vm_compute.
    + repeat constructor.
    + split.
      * rewrite Htrip. intros (d & pre & e & post & E & <- & Hn).
        destruct pre as [|x [|y pre]]; [|discriminate E..].
        injection E as <- <-. revert Hn. vm_compute. auto.
      * destruct (Hgap (pnl jan2 (-6000000))) as (m & b' & H & _); [done|vm_compute; split; [reflexivity|discriminate]|].
        eauto.
Defined.

(** The soft tier pauses entries after -0.012 SOL even when the day recovers. *)
Lemma entries_paused_witness :
  ¬ entries_allowed (feed no_flatten ([pnl jan2 (-12000000)] ++ [pnl (jan2 + 5) 12000000])
    (boot RiskConfig.defaults)) = true.
Proof.
  intros H. apply (entries_allowed_iff_no_breach no_flatten RiskConfig.defaults None None _
    (-15000000) (-10000000)) in H as [_ H].
  - apply H. exists [], (pnl jan2 (-12000000)), [pnl (jan2 + 5) 12000000].
    split; [done|]. split; [by vm_compute|]. vm_compute. discriminate.
  - exact default_boot.
  - exact default_ordered.
  - repeat constructor.
Defined.

Definition tripped_boot : Breaker := feed no_flatten [pnl jan2 (-16000000)] (boot RiskConfig.defaults).

Lemma latch_witness :
  latched (record_pnl no_flatten (pnl (jan2 + MS_PER_DAY) 900000000) tripped_boot).2.
Proof.
  apply (latch_survives_automation no_flatten tripped_boot).
  - split; [by vm_compute|]. eexists. split; by vm_compute.
  - apply rtc_once. constructor.
Defined.

Lemma restart_witness :
  ∃ b', restart tripped_boot = Ok b' ∧ _state b' = _state tripped_boot.
Proof.
  destruct (restart_point_in_time no_flatten RiskConfig.defaults None None _ (-15000000) (-10000000)
    [pnl jan2 (-16000000)] default_boot default_ordered) as (b' & H & Hs & _).
  - repeat constructor.
  - exists b'. split; assumption.
Defined.

Lemma day_key_witness :
  _utc_day_key (jan2 - 1) = Ok "2026-01-01" ∧ "2026-01-01" ≠ "2026-01-02" ∧
  ¬ ((jan2 - 1) / MS_PER_DAY = jan2 / MS_PER_DAY).
Proof.
  split; [by vm_compute|]. split; [done|].
  intros H. apply (day_key_iff_same_utc_day (jan2 - 1) jan2 "2026-01-01" "2026-01-02") in H;
    [done|by vm_compute|by vm_compute].
Defined.

Lemma evaluate_total_witness :
  ∃ p s, tiers RiskConfig.defaults DEFAULT_SOFT_RATIO = Ok (p, - 300000000, s) ∧ p ≤ s ≤ 0.
Proof.
  destruct (evaluate_total_iff_floor RiskConfig.defaults DEFAULT_SOFT_RATIO)
    as (p & s & H & Hps & _); [by vm_compute..|].
  exists p, s. split; assumption.
Defined.

Lemma tight_floor_witness :
  RiskConfig._floor_invariants tight_floor = Ok tight_floor ∧
  ∃ m b', record_pnl no_flatten (pnl jan2 (-6000000)) (boot tight_floor) =
            (Raise (AssertionError m), b') ∧ _state b' = armed_state.
Proof.
  split; [by vm_compute|].
  destruct (floor_above_soft_never_trips no_flatten (boot tight_floor) (pnl jan2 (-6000000))
    "2026-01-02" (-15000000) (-5000000) (-10000000)) as (m & b' & H & Hs & _).
  - by vm_compute.
  - by vm_compute.
  - vm_compute. split; [reflexivity|discriminate].
  - exists m, b'. split; assumption.
Defined.

(** A restart lifts the soft pause after a partial same-day recovery: the
    breaker is paused before the restart and allows entries after it. *)
Theorem restart_lifts_soft_pause :
  let b := feed no_flatten [pnl jan2 (-12000000); pnl (jan2 + 5) 3000000] (boot RiskConfig.defaults) in
  entries_allowed b = false ∧ entries_allowed <$> match restart b with Ok b' => Some b' | _ => None end = Some true.
Proof. by vm_compute. Qed.

(** A late event of an earlier day lifts the pause of the current day: the
    posture follows the day of the last processed event. *)
Theorem late_event_lifts_soft_pause :
  let b := feed no_flatten [pnl jan2 (-12000000)] (boot RiskConfig.defaults) in
  entries_allowed b = false ∧
  entries_allowed (record_pnl no_flatten (pnl (jan2 - 1) 0) b).2 = true.
Proof. by vm_compute. Qed.
