(* ===== verification/Bytes.v ===== *)
(** * Bytes and positional numerals

    Python [bytes] as lists of integers in [0, 256), [int.from_bytes] and
    [int.to_bytes], slices, and the uniqueness of canonical digit lists on which
    the base58 and byte-order round trips rest. *)

From S2P Require Import Prelude.

Abbreviation bytes := (list Z).
Definition byte_ok (b : Z) : Prop := 0 ≤ b < 256.

(** [len(x)] *)
Definition zlen {A} (l : list A) : Z := Z.of_nat (length l).

(** [buf[a:b]] for [0 <= a <= b] *)
Definition slice {A} (l : list A) (a b : Z) : list A :=
  take (Z.to_nat (b - a)) (drop (Z.to_nat a) l).

(** [buf[i]] for [i >= 0] *)
Definition index {A} (l : list A) (i : Z) : result A :=
  match l !! Z.to_nat i with Some b => Ok b | None => Raise (IndexError "index out of range") end.

(** Value of a little-endian digit list in base [B]. *)
Fixpoint of_digits (B : Z) (l : list Z) : Z :=
  match l with [] => 0 | d :: l => d + B * of_digits B l end.

(** The [while n > 0: n, rem = divmod(n, B)] loop; little-endian digits. *)
Fixpoint to_digits (B : Z) (fuel : nat) (n : Z) : list Z :=
  match fuel with
  | O => []
  | S f => if 0 <? n then n mod B :: to_digits B f (n / B) else []
  end.

Definition int_from_bytes_little (l : bytes) : Z := of_digits 256 l.
Definition int_from_bytes_big (l : bytes) : Z := of_digits 256 (reverse l).

(** [n.bit_length()] for [n >= 0] *)
Definition bit_length (n : Z) : Z := if 0 <? n then Z.log2 n + 1 else 0.

(** [n.to_bytes(len, "little")] for [0 <= n < 256^len] *)
Fixpoint int_to_bytes_little (len : nat) (n : Z) : bytes :=
  match len with
  | O => []
  | S k => n mod 256 :: int_to_bytes_little k (n / 256)
  end.
Definition int_to_bytes_big (len : nat) (n : Z) : bytes := reverse (int_to_bytes_little len n).

(** [x.lstrip(c)] length difference: how many leading elements equal [c]. *)
Fixpoint lead {A} `{EqDecision A} (c : A) (l : list A) : nat :=
  match l with
  | x :: l' => if decide (x = c) then S (lead c l') else O
  | [] => O
  end.

(** ** Slices *)

Lemma slice_app {A} (pre mid post : list A) a b :
  a = zlen pre → b = a + zlen mid → slice (pre ++ mid ++ post) a b = mid.
Proof.
  unfold slice, zlen. intros -> ->. rewrite Nat2Z.id, drop_app_length.
  replace (Z.to_nat _) with (length mid) by lia. apply take_app_length.
Qed.

Lemma index_app {A} (pre : list A) x post a :
  a = zlen pre → index (pre ++ x :: post) a = Ok x.
Proof. unfold index, zlen. intros ->. by rewrite Nat2Z.id, list_lookup_middle. Qed.

Lemma index_ok {A} (l : list A) i : 0 ≤ i < zlen l → ∃ x, index l i = Ok x ∧ x ∈ l.
Proof.
  unfold index, zlen. intros H.
  destruct (lookup_lt_is_Some_2 l (Z.to_nat i)) as [x Hx]; [lia|].
  rewrite Hx. exists x. split; [done|]. by eapply list_elem_of_lookup_2.
Qed.

Lemma zlen_app {A} (l1 l2 : list A) : zlen (l1 ++ l2) = zlen l1 + zlen l2.
Proof. unfold zlen. rewrite length_app. lia. Qed.
Lemma zlen_cons {A} (x : A) l : zlen (x :: l) = 1 + zlen l.
Proof. unfold zlen. cbn. lia. Qed.
Lemma zlen_nonneg {A} (l : list A) : 0 ≤ zlen l.
Proof. unfold zlen. lia. Qed.
Lemma zlen_replicate {A} n (x : A) : zlen (replicate n x) = Z.of_nat n.
Proof. unfold zlen. by rewrite length_replicate. Qed.
Lemma zlen_to_nat {A} (l : list A) : Z.to_nat (zlen l) = length l.
Proof. unfold zlen. lia. Qed.
Lemma zlen_nil {A} : zlen (A:=A) [] = 0.
Proof. done. Qed.
#[export] Hint Resolve zlen_nonneg : aats.
Create Rewrite HintDb zlen.
#[export] Hint Rewrite @zlen_app @zlen_cons @zlen_nil @zlen_replicate : zlen.

(** Arithmetic on list lengths. *)
Ltac zlen_lia := autorewrite with zlen in *; lia.

Lemma slice_bytes_ok (l : bytes) a b : Forall byte_ok l → Forall byte_ok (slice l a b).
Proof. intros. unfold slice. by apply Forall_take, Forall_drop. Qed.

Lemma slice_length {A} (l : list A) a b :
  0 ≤ a ≤ b → b ≤ zlen l → zlen (slice l a b) = b - a.
Proof. unfold slice, zlen. intros. rewrite length_take, length_drop. lia. Qed.

(** ** Canonical digit lists *)

Definition canonical (B : Z) (l : list Z) : Prop :=
  Forall (λ d, 0 ≤ d < B) l ∧ last l ≠ Some 0.

Lemma canonical_cons B d l : canonical B (d :: l) → canonical B l ∧ 0 ≤ d < B ∧ (l = [] → d ≠ 0).
Proof.
  intros [Hf Hl]. inv Hf. split; [|split; [done|]].
  - split; [done|]. by destruct l.
  - intros ->. cbn in Hl. congruence.
Qed.

Lemma of_digits_nonneg B l : 0 < B → Forall (λ d, 0 ≤ d < B) l → 0 ≤ of_digits B l.
Proof. intros HB. induction 1; cbn; nia. Qed.

Lemma of_digits_pos B l : 0 < B → canonical B l → l ≠ [] → 0 < of_digits B l.
Proof.
  intros HB. induction l as [|d l IH]; [done|]. intros Hc _.
  apply canonical_cons in Hc as (Hc & Hd & Hz). cbn.
  destruct l as [|d' l']; [cbn; specialize (Hz eq_refl); lia|].
  specialize (IH Hc ltac:(done)). nia.
Qed.

Lemma of_digits_inj B l1 l2 :
  0 < B → canonical B l1 → canonical B l2 → of_digits B l1 = of_digits B l2 → l1 = l2.
Proof.
  intros HB. revert l2. induction l1 as [|d l1 IH]; intros [|d' l2] H1 H2 E; [done|..].
  - pose proof (of_digits_pos B _ HB H2 ltac:(done)). cbn [of_digits] in *. lia.
  - pose proof (of_digits_pos B _ HB H1 ltac:(done)). cbn [of_digits] in *. lia.
  - apply canonical_cons in H1 as (H1 & Hd & _), H2 as (H2 & Hd' & _). cbn [of_digits] in E.
    assert (d = d') as ->.
    { apply (f_equal (λ x, x mod B)) in E.
      rewrite !(Z.mul_comm B), !Z.mod_add, !Z.mod_small in E by lia. done. }
    f_equal. apply IH; try done. nia.
Qed.

Lemma to_digits_value B fuel n :
  2 ≤ B → 0 ≤ n < 2 ^ Z.of_nat fuel → of_digits B (to_digits B fuel n) = n.
Proof.
  intros HB. revert n. induction fuel as [|f IH]; intros n Hn; cbn [to_digits of_digits].
  { simpl in Hn. cbn. lia. }
  rewrite Nat2Z.inj_succ, Z.pow_succ_r in Hn by lia.
  destruct (Z.ltb_spec 0 n); cbn [of_digits]; [|lia].
  rewrite IH; [pose proof (Z.div_mod n B); lia|].
  split; [apply Z.div_pos; lia|]. apply Z.div_lt_upper_bound; [lia|]. nia.
Qed.

Lemma to_digits_canonical B fuel n :
  2 ≤ B → 0 ≤ n < 2 ^ Z.of_nat fuel → canonical B (to_digits B fuel n).
Proof.
  intros HB. revert n. induction fuel as [|f IH]; intros n Hn; cbn [to_digits]; [done|].
  rewrite Nat2Z.inj_succ, Z.pow_succ_r in Hn by lia.
  destruct (Z.ltb_spec 0 n); [|done].
  assert (0 ≤ n / B < 2 ^ Z.of_nat f) as Hq.
  { split; [apply Z.div_pos; lia|]. apply Z.div_lt_upper_bound; [lia|]. nia. }
  destruct (IH _ Hq) as [Hf Hl]. pose proof (Z.mod_pos_bound n B).
  split; [constructor; [lia|done]|].
  pose proof (to_digits_value B f (n / B) HB Hq) as Hv. pose proof (Z.div_mod n B).
  destruct (to_digits B f (n / B)) as [|x l]; [cbn in *; intros [= ?]; lia|done].
Qed.

Lemma fuel_enough n : 0 ≤ n → 0 ≤ n < 2 ^ Z.of_nat (Z.to_nat (bit_length n)).
Proof.
  intros Hn. unfold bit_length. destruct (Z.ltb_spec 0 n); [|cbn; lia].
  pose proof (Z.log2_nonneg n). rewrite Z2Nat.id by lia. pose proof (Z.log2_spec n). lia.
Qed.

Lemma to_bytes_little_ok k n : Forall (λ d, 0 ≤ d < 256) (int_to_bytes_little k n).
Proof. revert n. induction k; intros n; cbn; constructor; [apply Z.mod_pos_bound; lia|auto]. Qed.

Lemma to_bytes_little_value k n :
  0 ≤ n < 256 ^ Z.of_nat k → of_digits 256 (int_to_bytes_little k n) = n.
Proof.
  revert n. induction k as [|k IH]; intros n Hn; cbn [int_to_bytes_little of_digits].
  { cbn in Hn. lia. }
  rewrite Nat2Z.inj_succ, Z.pow_succ_r in Hn by lia.
  rewrite IH; [pose proof (Z.div_mod n 256); lia|].
  split; [apply Z.div_pos; lia|]. apply Z.div_lt_upper_bound; lia.
Qed.

Lemma to_bytes_little_length k n : length (int_to_bytes_little k n) = k.
Proof. revert n. induction k; intros; cbn; auto. Qed.

(** [int.from_bytes] inverts [int.to_bytes] and conversely. *)
Lemma to_from_bytes_little l :
  Forall byte_ok l → int_to_bytes_little (length l) (int_from_bytes_little l) = l.
Proof.
  unfold int_from_bytes_little, byte_ok. induction 1 as [|b l Hb Hl IH]; [done|].
  cbn [length int_to_bytes_little of_digits]. rewrite (Z.mul_comm 256), Z.mod_add, Z.div_add by lia.
  rewrite (Z.mod_small b), (Z.div_small b), Z.add_0_l, IH by lia. done.
Qed.

Lemma last_digits_zero k n :
  0 ≤ n < 256 ^ Z.of_nat (S k) → 256 ^ Z.of_nat k ≤ n →
  last (int_to_bytes_little (S k) n) ≠ Some 0.
Proof.
  revert n. induction k as [|k IH]; intros n Hn Hge.
  { cbn in *. rewrite Z.mod_small by lia. intros [= ?]. lia. }
  change (int_to_bytes_little (S (S k)) n) with (n mod 256 :: int_to_bytes_little (S k) (n / 256)).
  rewrite Nat2Z.inj_succ, Z.pow_succ_r in Hn by lia.
  rewrite (Nat2Z.inj_succ k), Z.pow_succ_r in Hge by lia.
  specialize (IH (n / 256)).
  assert (0 ≤ n / 256 < 256 ^ Z.of_nat (S k)).
  { split; [apply Z.div_pos; lia|apply Z.div_lt_upper_bound; lia]. }
  assert (256 ^ Z.of_nat k ≤ n / 256) by (apply Z.div_le_lower_bound; lia).
  specialize (IH ltac:(done) ltac:(done)). cbn [int_to_bytes_little] in *. done.
Qed.

(** The minimal-length encoding the code asks for is canonical. *)
Lemma to_bytes_min_canonical n :
  0 < n → canonical 256 (int_to_bytes_little (Z.to_nat ((bit_length n + 7) / 8)) n) ∧
          of_digits 256 (int_to_bytes_little (Z.to_nat ((bit_length n + 7) / 8)) n) = n.
Proof.
  intros Hn. unfold bit_length. rewrite (proj2 (Z.ltb_lt 0 n) Hn).
  pose proof (Z.log2_nonneg n). pose proof (Z.log2_spec n Hn) as [Hlo Hhi].
  set (L := Z.log2 n) in *.
  assert (exists k : nat, (L + 1 + 7) / 8 = Z.of_nat (S k) ∧ 8 * Z.of_nat k ≤ L < 8 * Z.of_nat (S k))
    as (k & Hk & HL).
  { exists (Z.to_nat (L / 8)). pose proof (Z.div_mod L 8). pose proof (Z.mod_pos_bound L 8).
    pose proof (Z.div_pos L 8). replace (L + 1 + 7) with (L + 1 * 8) by lia.
    rewrite Z.div_add by lia. lia. }
  rewrite Hk, Nat2Z.id.
  assert (256 ^ Z.of_nat k ≤ n < 256 ^ Z.of_nat (S k)).
  { change 256 with (2 ^ 8). rewrite <- !Z.pow_mul_r by lia. split.
    - transitivity (2 ^ L); [apply Z.pow_le_mono_r; lia|done].
    - eapply Z.lt_le_trans; [exact Hhi|]. apply Z.pow_le_mono_r; lia. }
  split; [|apply to_bytes_little_value; lia].
  split; [apply to_bytes_little_ok|]. apply last_digits_zero; lia.
Qed.

(** ** Leading padding *)

Lemma lead_split {A} `{EqDecision A} (c : A) l :
  ∃ l', l = replicate (lead c l) c ++ l' ∧ head l' ≠ Some c.
Proof.
  induction l as [|x l (l' & IH & Hh)]; [by exists []|]. cbn. destruct (decide (x = c)) as [->|Hne].
  - exists l'. cbn. by rewrite <- IH.
  - exists (x :: l). split; [done|]. cbn. congruence.
Qed.

Lemma lead_app {A} `{EqDecision A} (c : A) k l :
  head l ≠ Some c → lead c (replicate k c ++ l) = k.
Proof.
  intros Hh. induction k as [|k IH]; cbn.
  - destruct l as [|x l]; [done|]. cbn in *. by rewrite decide_False by congruence.
  - by rewrite decide_True, IH.
Qed.

Lemma of_digits_app_zeros B l k : of_digits B (l ++ replicate k 0) = of_digits B l.
Proof.
  induction l as [|d l IH]; cbn; [|by rewrite IH].
  induction k as [|k IHk]; cbn; lia.
Qed.

Lemma last_reverse_head {A} (l : list A) : last (reverse l) = head l.
Proof. by rewrite last_reverse. Qed.

Lemma head_reverse_last {A} (l : list A) : head (reverse l) = last l.
Proof. by rewrite head_reverse. Qed.

Lemma of_digits_app_congr B l l1 l2 :
  of_digits B l1 = of_digits B l2 → of_digits B (l ++ l1) = of_digits B (l ++ l2).
Proof. intros E. induction l as [|x l IH]; cbn; congruence. Qed.
