(* ===== verification/Wire.v ===== *)
(** * The Solana wire codec: [aats/execution/solana_wire.py]

    Base58, compact-u16, the transaction parser the signer's enforcement runs on
    and the builder.  Buffers are lists of bytes, positions are integers, and
    every read is the code's bounds test followed by an indexing that would
    raise [IndexError] out of range. *)

From Stdlib Require Import String Ascii.
From S2P Require Import Prelude Bytes.

(** ** Base58 *)

Definition _B58_ALPHABET : list ascii :=
  list_ascii_of_string "123456789ABCDEFGHJKLMNPQRSTUVWXYZabcdefghijkmnopqrstuvwxyz".

(** [_B58_INDEX.get(ch)] *)
Definition _B58_INDEX (ch : ascii) : option Z :=
  (λ p, Z.of_nat p.1) <$> list_find (λ c, c = ch) _B58_ALPHABET.

Definition b58char (i : Z) : ascii := nth (Z.to_nat i) _B58_ALPHABET "0"%char.

Definition b58encode (data : bytes) : string :=
  let n := int_from_bytes_big data in
  let out := reverse (b58char <$> to_digits 58 (Z.to_nat (bit_length n)) n) in
  let n_pad := lead 0 data in
  string_of_list_ascii (replicate n_pad "1"%char ++ out).

Fixpoint b58_loop (n : Z) (s : list ascii) : result Z :=
  match s with
  | [] => Ok n
  | ch :: s' =>
      match _B58_INDEX ch with
      | None => Raise (ValueError "invalid base58 character")
      | Some idx => b58_loop (n * 58 + idx) s'
      end
  end.

Definition b58decode (s : string) : result bytes :=
  let cs := list_ascii_of_string s in
  n ← b58_loop 0 cs;
  let body := if 0 <? n then int_to_bytes_big (Z.to_nat ((bit_length n + 7) / 8)) n else [] in
  let n_pad := lead "1"%char cs in
  Ok (replicate n_pad 0 ++ body).

(** ** Compact-u16 *)

Fixpoint read_compact_loop (k : nat) (buf : bytes) (value shift pos : Z) : result (Z * Z) :=
  match k with
  | O => Raise (ValueError "compact-u16 overflow (more than 3 continuation bytes)")
  | S k' =>
      if zlen buf <=? pos then Raise (ValueError "truncated compact-u16")
      else
        b ← index buf pos;
        let value := Z.lor value (Z.shiftl (Z.land b 127) shift) in
        if Z.land b 128 =? 0 then Ok (value, pos + 1)
        else read_compact_loop k' buf value (shift + 7) (pos + 1)
  end.

Definition read_compact_u16 (buf : bytes) (offset : Z) : result (Z * Z) :=
  read_compact_loop 3 buf 0 0 offset.

Fixpoint write_compact_loop (fuel : nat) (v : Z) : bytes :=
  match fuel with
  | O => []
  | S f =>
      let b := Z.land v 127 in
      let v' := Z.shiftr v 7 in
      if negb (v' =? 0) then Z.lor b 128 :: write_compact_loop f v' else [b]
  end.

Definition write_compact_u16 (value : Z) : result bytes :=
  if value <? 0 then Raise (ValueError "compact-u16 cannot encode a negative value")
  else Ok (write_compact_loop (S (Z.to_nat (bit_length value))) value).

(** ** Parsed transactions *)

Record ParsedInstruction : Type := mk_pix {
  program_id : string;
  program_id_index : Z;
  account_indices : list Z;
  data : bytes
}.

Record ParsedTx : Type := mk_ptx {
  account_keys : list string;
  num_required_signatures : Z;
  payer : string;
  recent_blockhash : string;
  instructions : list ParsedInstruction;
  is_versioned : bool;
  has_address_table_lookups : bool
}.

#[export] Instance ParsedInstruction_eq_dec : EqDecision ParsedInstruction.
Proof. solve_decision. Defined.
#[export] Instance ParsedTx_eq_dec : EqDecision ParsedTx.
Proof. solve_decision. Defined.

Definition _AltRegionIndex : exn := CustomError "_AltRegionIndex" "".

Definition _resolve_static (keys : list string) (idx : Z) : result string :=
  if idx <? 0 then Raise (ValueError "negative account index")
  else if zlen keys <=? idx then Raise _AltRegionIndex
  else index keys idx.

(** The account-key loop. *)
Fixpoint parse_keys (n : nat) (tx : bytes) (pos : Z) : result (list string * Z) :=
  match n with
  | O => Ok ([], pos)
  | S n' =>
      if zlen tx <? pos + 32 then Raise (ValueError "truncated transaction: account key")
      else
        let k := b58encode (slice tx pos (pos + 32)) in
        '(ks, pos') ← parse_keys n' tx (pos + 32);
        Ok (k :: ks, pos')
  end.

(** One instruction: the instruction, whether it touches the ALT region, and the
    next position. *)
Definition parse_instruction (keys : list string) (tx : bytes) (pos : Z)
    : result (ParsedInstruction * bool * Z) :=
  if zlen tx <=? pos then Raise (ValueError "truncated transaction: instruction program_id_index")
  else
    pidx ← index tx pos;
    let pos := pos + 1 in
    '(pid, hit) ← (match _resolve_static keys pidx with
                   | Ok p => Ok (p, false)
                   | Raise e => if decide (e = _AltRegionIndex) then Ok ("", true) else Raise e
                   end);
    '(n_acc, pos) ← read_compact_u16 tx pos;
    if zlen tx <? pos + n_acc then Raise (ValueError "truncated transaction: instruction accounts")
    else
      let accs := slice tx pos (pos + n_acc) in
      let pos := pos + n_acc in
      let hit := hit || existsb (λ i, zlen keys <=? i) accs in
      '(n_data, pos) ← read_compact_u16 tx pos;
      if zlen tx <? pos + n_data then Raise (ValueError "truncated transaction: instruction data")
      else Ok (mk_pix pid pidx accs (slice tx pos (pos + n_data)), hit, pos + n_data).

Fixpoint parse_instructions (n : nat) (keys : list string) (tx : bytes) (pos : Z)
    : result (list ParsedInstruction * bool * Z) :=
  match n with
  | O => Ok ([], false, pos)
  | S n' =>
      '(ix, hit, pos) ← parse_instruction keys tx pos;
      '(ixs, hits, pos) ← parse_instructions n' keys tx pos;
      Ok (ix :: ixs, hit || hits, pos)
  end.

(** The address-table-lookup loop; only the bounds matter. *)
Fixpoint parse_alts (n : nat) (tx : bytes) (pos : Z) : result Z :=
  match n with
  | O => Ok pos
  | S n' =>
      if zlen tx <? pos + 32 then Raise (ValueError "truncated transaction: ALT lookup account")
      else
        '(n_w, pos) ← read_compact_u16 tx (pos + 32);
        if zlen tx <? pos + n_w then Raise (ValueError "truncated transaction: ALT writable indexes")
        else
          '(n_r, pos) ← read_compact_u16 tx (pos + n_w);
          if zlen tx <? pos + n_r then Raise (ValueError "truncated transaction: ALT readonly indexes")
          else parse_alts n' tx (pos + n_r)
  end.

(** The optional version byte: the version flag and the header position. *)
Definition parse_version (tx : bytes) (pos : Z) : result (bool * Z) :=
  b ← index tx pos;
  if negb (Z.land b 128 =? 0) then
    if negb (Z.land b 127 =? 0) then Raise (ValueError "unsupported transaction message version")
    else Ok (true, pos + 1)
  else Ok (false, pos).

Definition parse_transaction (tx_bytes : bytes) : result ParsedTx :=
  '(n_sigs, pos) ← read_compact_u16 tx_bytes 0;
  let pos := pos + n_sigs * 64 in
  if zlen tx_bytes <? pos then Raise (ValueError "truncated transaction: signatures section")
  else if zlen tx_bytes <=? pos
  then Raise (ValueError "truncated transaction: no message bytes after signatures")
  else
    '(versioned, pos) ← parse_version tx_bytes pos;
    if zlen tx_bytes <? pos + 3 then Raise (ValueError "truncated transaction: no message header")
    else
      nreq ← index tx_bytes pos;
      '(n_keys, pos) ← read_compact_u16 tx_bytes (pos + 3);
      '(keys, pos) ← parse_keys (Z.to_nat n_keys) tx_bytes pos;
      match keys with
      | [] => Raise (ValueError "transaction has no account keys (no payer)")
      | payer :: _ =>
          if zlen tx_bytes <? pos + 32 then Raise (ValueError "truncated transaction: recent blockhash")
          else
            let blockhash := b58encode (slice tx_bytes pos (pos + 32)) in
            '(n_ix, pos) ← read_compact_u16 tx_bytes (pos + 32);
            '(ixs, alt_region_hit, pos) ← parse_instructions (Z.to_nat n_ix) keys tx_bytes pos;
            has_alt ← (if versioned && (pos <? zlen tx_bytes) then
                         '(n_alt, pos) ← read_compact_u16 tx_bytes pos;
                         _ ← parse_alts (Z.to_nat n_alt) tx_bytes pos;
                         Ok (alt_region_hit || (0 <? n_alt))
                       else Ok alt_region_hit);
            Ok (mk_ptx keys nreq payer blockhash ixs versioned has_alt)
      end.

(** ** The builder *)

Record RawInstruction : Type := mk_raw {
  raw_program_id : string;
  raw_accounts : list Z;
  raw_data : bytes;
  program_id_index_override : option Z
}.

(** [bytearray.append(b)] and [bytes(list)]: each element in [0, 256). *)
Definition one_byte (b : Z) : result bytes :=
  if (0 <=? b) && (b <=? 255) then Ok [b] else Raise (ValueError "byte must be in range(0, 256)").
Definition to_bytes (l : list Z) : result bytes :=
  if forallb (λ b, (0 <=? b) && (b <=? 255)) l then Ok l
  else Raise (ValueError "bytes must be in range(0, 256)").

Definition build_key (err : string) (key : string) : result bytes :=
  raw ← b58decode key;
  if negb (zlen raw =? 32) then Raise (ValueError err) else Ok raw.

Fixpoint build_keys (keys : list string) : result bytes :=
  match keys with
  | [] => Ok []
  | k :: ks =>
      raw ← build_key "account key does not decode to 32 bytes" k;
      rest ← build_keys ks;
      Ok (raw ++ rest)
  end.

Definition build_instruction (keys : list string) (ix : RawInstruction) : result bytes :=
  prog_index ← (match program_id_index_override ix with
                | Some i => Ok i
                | None => match list_find (λ k, k = raw_program_id ix) keys with
                          | Some (i, _) => Ok (Z.of_nat i)
                          | None => Raise (ValueError "instruction program_id not in account_keys")
                          end
                end);
  if negb ((0 <=? prog_index) && (prog_index <=? 255))
  then Raise (ValueError "program_id_index must fit in a single byte")
  else
    na ← write_compact_u16 (zlen (raw_accounts ix));
    accs ← to_bytes (raw_accounts ix);
    nd ← write_compact_u16 (zlen (raw_data ix));
    Ok ([prog_index] ++ na ++ accs ++ nd ++ raw_data ix).

Fixpoint build_instructions (keys : list string) (ixs : list RawInstruction) : result bytes :=
  match ixs with
  | [] => Ok []
  | ix :: ixs' =>
      b ← build_instruction keys ix;
      rest ← build_instructions keys ixs';
      Ok (b ++ rest)
  end.

(** One dummy lookup entry. *)
Definition dummy_alt : bytes := replicate 32 0 ++ [0] ++ [0].

Definition build_versioned_tx (keys : list string) (nreq : Z) (blockhash : string)
    (ixs : list RawInstruction) (num_readonly_signed num_readonly_unsigned : Z)
    (versioned : bool) (n_address_table_lookups : Z) : result bytes :=
  sigs ← write_compact_u16 nreq;
  let placeholders := replicate (64 * Z.to_nat nreq) 0 in
  let ver := if versioned then [128] else [] in
  h1 ← one_byte nreq;
  h2 ← one_byte num_readonly_signed;
  h3 ← one_byte num_readonly_unsigned;
  nk ← write_compact_u16 (zlen keys);
  kb ← build_keys keys;
  bh ← build_key "recent_blockhash does not decode to 32 bytes" blockhash;
  ni ← write_compact_u16 (zlen ixs);
  ib ← build_instructions keys ixs;
  alts ← (if versioned then
            na ← write_compact_u16 n_address_table_lookups;
            Ok (na ++ mjoin (replicate (Z.to_nat n_address_table_lookups) dummy_alt))
          else Ok []);
  Ok (sigs ++ placeholders ++ ver ++ h1 ++ h2 ++ h3 ++ nk ++ kb ++ bh ++ ni ++ ib ++ alts).

(** ** Base58 round trips *)

Lemma alphabet_nodup : NoDup _B58_ALPHABET.
Proof. by apply (bool_decide_unpack _); vm_compute. Qed.

Lemma alphabet_length : length _B58_ALPHABET = 58%nat.
Proof. done. Qed.

Lemma B58_INDEX_Some ch i :
  _B58_INDEX ch = Some i ↔ 0 ≤ i < 58 ∧ b58char i = ch.
Proof.
  unfold _B58_INDEX, b58char. split.
  - rewrite fmap_Some. intros ([k c] & Hf & ->).
    apply list_find_Some in Hf as (Hk & -> & _). cbn [fst].
    pose proof (lookup_lt_Some _ _ _ Hk). rewrite alphabet_length in *. rewrite Nat2Z.id.
    split; [lia|]. by rewrite (nth_lookup_Some _ _ _ _ Hk).
  - intros [Hi <-].
    assert (is_Some (_B58_ALPHABET !! Z.to_nat i)) as [c Hc]
      by (apply lookup_lt_is_Some_2; rewrite alphabet_length; lia).
    rewrite (nth_lookup_Some _ _ _ _ Hc).
    assert (list_find (λ x, x = c) _B58_ALPHABET = Some (Z.to_nat i, c)) as ->.
    { apply list_find_Some. split; [done|]. split; [done|]. intros j y Hj Hlt ->.
      pose proof (NoDup_lookup _ _ _ _ alphabet_nodup Hc Hj). lia. }
    cbn [fmap option_fmap option_map fst]. f_equal. lia.
Qed.

#[local] Opaque b58char _B58_INDEX.

Lemma B58_INDEX_char i : 0 ≤ i < 58 → _B58_INDEX (b58char i) = Some i.
Proof. intros. by apply B58_INDEX_Some. Qed.

Lemma b58char_inj i j : 0 ≤ i < 58 → 0 ≤ j < 58 → b58char i = b58char j → i = j.
Proof.
  intros Hi Hj E. pose proof (B58_INDEX_char i Hi) as H. rewrite E, (B58_INDEX_char j Hj) in H. congruence.
Qed.

Lemma b58char_0 : b58char 0 = "1"%char.
Proof. by vm_compute. Qed.

(** Decoding a string of base58 digits accumulates their value. *)
Lemma b58_loop_digits ds n :
  Forall (λ d, 0 ≤ d < 58) ds →
  b58_loop n (b58char <$> ds) = Ok (of_digits 58 (reverse ds ++ [n])).
Proof.
  intros Hd. revert n. induction Hd as [|d ds Hd _ IH]; intros n; cbn [fmap list_fmap b58_loop].
  { cbn. f_equal. lia. }
  rewrite B58_INDEX_char, IH by done. rewrite reverse_cons, <- (assoc_L (++)). f_equal.
  apply of_digits_app_congr. cbn. lia.
Qed.

(** A successful scan names the digits it read. *)
Lemma b58_loop_inv cs n m :
  b58_loop n cs = Ok m → ∃ ds, Forall (λ d, 0 ≤ d < 58) ds ∧ cs = b58char <$> ds.
Proof.
  revert n. induction cs as [|c cs IH]; intros n H; cbn in H; [by exists []|].
  destruct (_B58_INDEX c) as [i|] eqn:Ei; [|done].
  destruct (IH _ H) as (ds & Hds & ->). apply B58_INDEX_Some in Ei as [Hi <-].
  exists (i :: ds). split; [by constructor|done].
Qed.

Lemma canonical_reverse_head B l :
  Forall (λ d, 0 ≤ d < B) l → head l ≠ Some 0 → canonical B (reverse l).
Proof. intros H Hh. split; [by apply Forall_reverse|]. by rewrite last_reverse. Qed.

Lemma of_digits_pad B k l : of_digits B (reverse (replicate k 0 ++ l)) = of_digits B (reverse l).
Proof. by rewrite reverse_app, reverse_replicate, of_digits_app_zeros. Qed.

(** The minimal big-endian body of a canonical value. *)
Lemma body_of_canonical l :
  canonical 256 (reverse l) →
  (if 0 <? of_digits 256 (reverse l)
   then int_to_bytes_big (Z.to_nat ((bit_length (of_digits 256 (reverse l)) + 7) / 8))
          (of_digits 256 (reverse l)) else []) = l.
Proof.
  intros Hc. destruct (Z.ltb_spec 0 (of_digits 256 (reverse l))) as [Hn|Hn].
  - destruct (to_bytes_min_canonical _ Hn) as [Hc' Hv]. unfold int_to_bytes_big.
    rewrite (of_digits_inj 256 _ _ ltac:(lia) Hc' Hc Hv). apply reverse_involutive.
  - destruct (decide (reverse l = [])) as [E|Hne].
    + apply (f_equal reverse) in E. by rewrite reverse_involutive in E.
    + pose proof (of_digits_pos 256 _ ltac:(lia) Hc Hne). lia.
Qed.

Lemma digits58_of_canonical l :
  canonical 58 (reverse l) →
  reverse (to_digits 58 (Z.to_nat (bit_length (of_digits 58 (reverse l)))) (of_digits 58 (reverse l))) = l.
Proof.
  intros Hc. assert (0 ≤ of_digits 58 (reverse l)) as Hn by (apply of_digits_nonneg; [lia|apply Hc]).
  pose proof (fuel_enough _ Hn) as Hf.
  rewrite (of_digits_inj 58 _ (reverse l) ltac:(lia) (to_digits_canonical 58 _ _ ltac:(lia) Hf) Hc).
  - apply reverse_involutive.
  - by rewrite to_digits_value.
Qed.

Lemma lead_fmap_b58 k ds :
  Forall (λ d, 0 ≤ d < 58) ds → head ds ≠ Some 0 →
  lead "1"%char (replicate k "1"%char ++ (b58char <$> ds)) = k.
Proof.
  intros Hd Hh. apply lead_app. destruct ds as [|d ds]; [done|]. inv Hd. cbn in *.
  intros [= E]. apply Hh. f_equal. by apply b58char_inj; [lia|lia|].
Qed.

Lemma b58_decode_encode_ok data : Forall byte_ok data → b58decode (b58encode data) = Ok data.
Proof.
  intros Hb. destruct (lead_split 0 data) as (body & Ed & Hh).
  set (k := lead 0 data) in *. unfold b58encode, b58decode.
  rewrite list_ascii_of_string_of_list_ascii.
  set (n := int_from_bytes_big data).
  assert (Hbody : Forall byte_ok body) by (rewrite Ed in Hb; by apply Forall_app in Hb as [_ ?]).
  assert (Hn : n = of_digits 256 (reverse body)).
  { unfold n, int_from_bytes_big. rewrite Ed. apply of_digits_pad. }
  pose proof (canonical_reverse_head 256 body Hbody Hh) as Hc.
  assert (0 ≤ n) as Hn0 by (rewrite Hn; apply of_digits_nonneg; [lia|apply Hc]).
  pose proof (fuel_enough n Hn0) as Hf.
  set (ds := to_digits 58 (Z.to_nat (bit_length n)) n).
  destruct (to_digits_canonical 58 _ _ ltac:(lia) Hf) as [Hds Hlast]. fold ds in Hds, Hlast.
  fold k. change (reverse (b58char <$> ds)) with (reverse (b58char <$> ds)).
  rewrite <- fmap_reverse, <- b58char_0, <- (fmap_replicate b58char k 0), <- fmap_app.
  rewrite b58_loop_digits.
  2: { apply Forall_app. split; [|by apply Forall_reverse]. apply Forall_replicate. lia. }
  cbn [mbind result_bind].
  assert (of_digits 58 (reverse (replicate k 0 ++ reverse ds) ++ [0]) = n) as ->.
  { change [0] with (replicate 1 0). rewrite of_digits_app_zeros, of_digits_pad, reverse_involutive.
    by apply to_digits_value. }
  rewrite fmap_app, fmap_replicate, b58char_0, lead_fmap_b58.
  - by rewrite Hn, body_of_canonical, <- Ed.
  - by apply Forall_reverse.
  - by rewrite head_reverse.
Qed.

Lemma b58_encode_decode_ok s d : b58decode s = Ok d → b58encode d = s ∧ Forall byte_ok d.
Proof.
  unfold b58decode. intros H.
  destruct (b58_loop 0 (list_ascii_of_string s)) as [n|] eqn:El; [|done].
  destruct (b58_loop_inv _ _ _ El) as (ds & Hds & Ecs). rewrite Ecs in *.
  rewrite (b58_loop_digits ds 0 Hds) in El. injection El as El.
  change [0] with (replicate 1 0) in El. rewrite of_digits_app_zeros in El.
  destruct (lead_split 0 ds) as (ds' & Eds & Hh). set (k := lead 0 ds) in *.
  rewrite Eds, of_digits_pad in El.
  assert (Hds' : Forall (λ d, 0 ≤ d < 58) ds') by (rewrite Eds in Hds; by apply Forall_app in Hds as [_ ?]).
  pose proof (canonical_reverse_head 58 ds' Hds' Hh) as Hc.
  cbn [mbind result_bind] in H. injection H as <-.
  rewrite Eds, fmap_app, fmap_replicate, b58char_0, lead_fmap_b58 by done.
  set (body := if 0 <? n then _ else _).
  assert (canonical 256 (reverse body) ∧ of_digits 256 (reverse body) = n) as [Hcb Hvb].
  { unfold body, int_to_bytes_big. destruct (Z.ltb_spec 0 n).
    - rewrite reverse_involutive. by apply to_bytes_min_canonical.
    - pose proof (of_digits_nonneg 58 _ ltac:(lia) (proj1 Hc)). split; [done|]. cbn. lia. }
  assert (Forall byte_ok body) as Hbody.
  { rewrite <- (reverse_involutive body). apply Forall_reverse, Hcb. }
  split; [|apply Forall_app; split; [apply Forall_replicate; unfold byte_ok; lia|done]].
  unfold b58encode, int_from_bytes_big. rewrite of_digits_pad, Hvb.
  rewrite lead_app.
  2: { destruct Hcb as [_ Hl]. by rewrite last_reverse in Hl. }
  rewrite <- fmap_reverse, <- El, digits58_of_canonical by done.
  rewrite <- (string_of_list_ascii_of_string s), Ecs, Eds, fmap_app, fmap_replicate, b58char_0. done.
Qed.

(** ** Compact-u16 round trip *)

Lemma split7 v : 0 ≤ v → Z.lor (Z.land v 127) (Z.shiftl (Z.shiftr v 7) 7) = v.
Proof.
  intros Hv. change 127 with (Z.ones 7). apply Z.bits_inj'. intros i Hi.
  rewrite Z.lor_spec, Z.land_spec, Z.shiftl_spec by lia.
  destruct (Z.ltb_spec i 7).
  - rewrite Z.ones_spec_low, andb_true_r, (Z.testbit_neg_r _ (i - 7)) by lia. apply orb_false_r.
  - rewrite Z.ones_spec_high, andb_false_r, Z.shiftr_spec by lia. cbn. f_equal. lia.
Qed.

Lemma land127_range v : 0 ≤ Z.land v 127 < 128.
Proof. change 127 with (Z.ones 7). rewrite Z.land_ones by lia. apply Z.mod_pos_bound. lia. Qed.

Lemma land127_facts b : 0 ≤ b < 128 → Z.land b 128 = 0 ∧ Z.land b 127 = b ∧
  Z.land (Z.lor b 128) 128 = 128 ∧ Z.land (Z.lor b 128) 127 = b.
Proof.
  intros Hb. assert (Z.land b 127 = b) as E.
  { change 127 with (Z.ones 7). rewrite Z.land_ones by lia. apply Z.mod_small. lia. }
  assert (Z.land b 128 = 0) as E'.
  { rewrite <- E, <- Z.land_assoc. by rewrite Z.land_0_r. }
  rewrite !Z.land_lor_distr_l, E, E'. change (Z.land 128 128) with 128. change (Z.land 128 127) with 0.
  by rewrite Z.lor_0_l, Z.lor_0_r.
Qed.

Lemma shiftr7_bound v n : 0 ≤ v < 2 ^ (7 * Z.succ n) → 0 ≤ n → 0 ≤ Z.shiftr v 7 < 2 ^ (7 * n).
Proof.
  intros Hv Hn. rewrite Z.shiftr_div_pow2 by lia. split; [apply Z.div_pos; lia|].
  apply Z.div_lt_upper_bound; [lia|]. rewrite <- Z.pow_add_r by lia.
  replace (7 + 7 * n) with (7 * Z.succ n) by lia. lia.
Qed.

Lemma write_compact_loop_pos f v : (0 < f)%nat → 1 ≤ zlen (write_compact_loop f v).
Proof.
  destruct f; [lia|]. intros _. cbn. destruct (negb _); rewrite zlen_cons; pose proof (zlen_nonneg (A:=Z)); auto with aats.
  - specialize (H (write_compact_loop f (Z.shiftr v 7))). lia.
  - specialize (H []). lia.
Qed.

(** With [k] bytes left and a value below [2^(7k)], the reader undoes the writer
    wherever its output sits in the buffer. *)
Lemma read_write_compact_loop k f pre post value shift v :
  0 ≤ v < 2 ^ (7 * Z.of_nat k) → 0 ≤ v < 2 ^ (7 * Z.of_nat f) → (0 < k)%nat → (0 < f)%nat → 0 ≤ shift →
  read_compact_loop k (pre ++ write_compact_loop f v ++ post) value shift (zlen pre) =
    Ok (Z.lor value (Z.shiftl v shift), zlen pre + zlen (write_compact_loop f v)).
Proof.
  revert f pre value shift v. induction k as [|k IH]; intros f pre value shift v Hk Hf Hk0 Hf0 Hs; [lia|].
  destruct f as [|f]; [lia|]. rewrite Nat2Z.inj_succ in Hk, Hf.
  cbn [read_compact_loop]. set (out := write_compact_loop (S f) v).
  rewrite (proj2 (Z.leb_gt (zlen (pre ++ out ++ post)) (zlen pre))).
  2: { rewrite !zlen_app. pose proof (write_compact_loop_pos (S f) v ltac:(lia)).
       pose proof (zlen_nonneg post). unfold out. lia. }
  unfold out. cbn [write_compact_loop].
  destruct (land127_facts (Z.land v 127) (land127_range v)) as (F1 & F2 & F3 & F4).
  destruct (Z.eqb_spec (Z.shiftr v 7) 0) as [Hz|Hnz]; cbn [negb].
  - cbn [app]. rewrite index_app by done. mstep. rewrite F1, F2. cbn.
    rewrite <- (split7 v) at 2 by lia. rewrite Hz, Z.shiftl_0_l, Z.lor_0_r. done.
  - rewrite <- app_comm_cons. rewrite index_app by done. cbn [mbind result_bind].
    rewrite F3, F4. cbn [Z.eqb].
    assert (k ≠ O) as Hk'.
    { intros ->. apply Hnz. rewrite Z.shiftr_div_pow2 by lia. apply Z.div_small. cbn in Hk. cbn. lia. }
    assert (f ≠ O) as Hf'.
    { intros ->. apply Hnz. rewrite Z.shiftr_div_pow2 by lia. apply Z.div_small. cbn in Hf. cbn. lia. }
    specialize (IH f (pre ++ [Z.lor (Z.land v 127) 128]) (Z.lor value (Z.shiftl (Z.land v 127) shift))
      (shift + 7) (Z.shiftr v 7)).
    rewrite <- (assoc_L (++)) in IH. cbn [app] in IH. rewrite zlen_app in IH. change (zlen [_]) with 1 in IH.
    rewrite IH; [|apply shiftr7_bound; lia..|lia|lia|lia].
    f_equal. f_equal; [|rewrite zlen_cons; lia].
    rewrite <- Z.lor_assoc. f_equal. rewrite <- (split7 v) at 3 by lia.
    rewrite Z.shiftl_lor, Z.shiftl_shiftl by lia. do 2 f_equal. lia.
Qed.

Lemma write_compact_fuel v : 0 ≤ v → 0 ≤ v < 2 ^ (7 * Z.of_nat (S (Z.to_nat (bit_length v)))).
Proof.
  intros Hv. split; [done|]. pose proof (fuel_enough v Hv).
  eapply Z.lt_le_trans; [apply H|]. apply Z.pow_le_mono_r; lia.
Qed.

Lemma write_compact_ok v : 0 ≤ v →
  write_compact_u16 v = Ok (write_compact_loop (S (Z.to_nat (bit_length v))) v).
Proof. intros. unfold write_compact_u16. by rewrite (proj2 (Z.ltb_ge v 0)). Qed.

Lemma write_compact_inv v b : write_compact_u16 v = Ok b → 0 ≤ v ∧ 1 ≤ zlen b.
Proof.
  unfold write_compact_u16. destruct (Z.ltb_spec v 0); [done|]. intros [= <-].
  split; [done|]. apply (write_compact_loop_pos (S (Z.to_nat (bit_length v)))). lia.
Qed.

Lemma read_write_compact pre post v b :
  write_compact_u16 v = Ok b → v < 2 ^ 21 →
  read_compact_u16 (pre ++ b ++ post) (zlen pre) = Ok (v, zlen pre + zlen b).
Proof.
  intros Hw Hv. destruct (write_compact_inv _ _ Hw) as [Hv0 _].
  rewrite write_compact_ok in Hw by done.
  assert (b = write_compact_loop (S (Z.to_nat (bit_length v))) v) as -> by congruence.
  unfold read_compact_u16. rewrite read_write_compact_loop; try lia.
  - by rewrite Z.lor_0_l, Z.shiftl_0_r.
  - by apply write_compact_fuel.
Qed.

(** ** The parser's only exception is [ValueError] *)

Definition value_error {A} (r : result A) : Prop :=
  match r with Ok _ => True | Raise (ValueError _) => True | Raise _ => False end.

Lemma value_error_bind {A B} (r : result A) (f : A → result B) :
  value_error r → (∀ a, r = Ok a → value_error (f a)) → value_error (r ≫= f).
Proof. destruct r as [a|[]]; cbn; auto. Qed.

(** A successful read stays within the buffer. *)
Lemma read_compact_loop_safe k buf value shift pos :
  0 ≤ pos → 0 ≤ value → 0 ≤ shift → Forall byte_ok buf →
  value_error (read_compact_loop k buf value shift pos) ∧
  ∀ v p, read_compact_loop k buf value shift pos = Ok (v, p) → 0 ≤ v ∧ pos < p ≤ zlen buf.
Proof.
  revert value shift pos. induction k as [|k IH]; intros value shift pos Hp Hv Hs Hb; cbn [read_compact_loop].
  { split; [done|]. done. }
  destruct (Z.leb_spec (zlen buf) pos); [split; done|].
  destruct (index_ok buf pos ltac:(lia)) as (b & -> & Hin). cbn.
  assert (0 ≤ Z.lor value (Z.shiftl (Z.land b 127) shift)) as Hv'.
  { apply Z.lor_nonneg. split; [done|]. apply Z.shiftl_nonneg. apply land127_range. }
  destruct (Z.land b 128 =? 0).
  - split; [done|]. intros v p [= <- <-]. lia.
  - destruct (IH (Z.lor value (Z.shiftl (Z.land b 127) shift)) (shift + 7) (pos + 1)
      ltac:(lia) Hv' ltac:(lia) Hb) as [H1 H2].
    split; [done|]. intros v p E. destruct (H2 _ _ E). lia.
Qed.

Lemma read_compact_safe buf pos :
  0 ≤ pos → Forall byte_ok buf →
  value_error (read_compact_u16 buf pos) ∧
  ∀ v p, read_compact_u16 buf pos = Ok (v, p) → 0 ≤ v ∧ pos < p ≤ zlen buf.
Proof. intros. apply read_compact_loop_safe; lia || done. Qed.

Lemma parse_keys_safe n tx pos :
  0 ≤ pos → value_error (parse_keys n tx pos) ∧
  ∀ ks p, parse_keys n tx pos = Ok (ks, p) → pos ≤ p ∧ length ks = n.
Proof.
  revert pos. induction n as [|n IH]; intros pos Hp; cbn [parse_keys].
  { split; [done|]. intros ks p [= <- <-]. done. }
  destruct (zlen tx <? pos + 32); [split; done|].
  destruct (IH (pos + 32) ltac:(lia)) as [H1 H2].
  destruct (parse_keys n tx (pos + 32)) as [[ks' p']|e]; cbn; [|split; done].
  split; [done|]. intros ks p [= <- <-]. destruct (H2 _ _ eq_refl). cbn. lia.
Qed.

Lemma parse_instruction_safe keys tx pos :
  0 ≤ pos → Forall byte_ok tx →
  value_error (parse_instruction keys tx pos) ∧
  ∀ ix h p, parse_instruction keys tx pos = Ok (ix, h, p) → pos < p ≤ zlen tx.
Proof.
  intros Hp Hb. unfold parse_instruction.
  destruct (Z.leb_spec (zlen tx) pos); [split; done|].
  destruct (index_ok tx pos ltac:(lia)) as (b & -> & Hin). cbn [mbind result_bind].
  assert (0 ≤ b) as Hb0 by (eapply Forall_forall in Hb; [apply Hb|done]).
  set (r := match _resolve_static keys b with Ok p => _ | Raise e => _ end).
  assert (∃ pid h, r = Ok (pid, h)) as (pid & h & ->).
  { unfold r, _resolve_static. rewrite (proj2 (Z.ltb_ge b 0)) by done.
    destruct (Z.leb_spec (zlen keys) b); [rewrite decide_True by done; eauto|].
    destruct (index_ok keys b ltac:(lia)) as (k & -> & _). eauto. }
  cbn [mbind result_bind].
  destruct (read_compact_safe tx (pos + 1) ltac:(lia) Hb) as [V1 S1].
  destruct (read_compact_u16 tx (pos + 1)) as [[n_acc p1]|e]; [|split; done].
  destruct (S1 _ _ eq_refl). cbn [mbind result_bind].
  destruct (Z.ltb_spec (zlen tx) (p1 + n_acc)); [split; done|].
  destruct (read_compact_safe tx (p1 + n_acc) ltac:(lia) Hb) as [V2 S2].
  destruct (read_compact_u16 tx (p1 + n_acc)) as [[n_data p2]|e]; [|split; done].
  destruct (S2 _ _ eq_refl). cbn [mbind result_bind].
  destruct (Z.ltb_spec (zlen tx) (p2 + n_data)); [split; done|].
  split; [done|]. intros ix h' p [= <- <- <-]. lia.
Qed.

Lemma parse_instructions_safe n keys tx pos :
  0 ≤ pos → Forall byte_ok tx →
  value_error (parse_instructions n keys tx pos) ∧
  ∀ ixs h p, parse_instructions n keys tx pos = Ok (ixs, h, p) → pos ≤ p.
Proof.
  intros Hp Hb. revert pos Hp. induction n as [|n IH]; intros pos Hp; cbn [parse_instructions].
  { split; [done|]. intros ? ? ? [= <- <- <-]. lia. }
  destruct (parse_instruction_safe keys tx pos Hp Hb) as [V1 S1].
  destruct (parse_instruction keys tx pos) as [[[ix h] p1]|e]; [|split; done].
  specialize (S1 _ _ _ eq_refl). cbn [mbind result_bind].
  destruct (IH p1 ltac:(lia)) as [V2 S2].
  destruct (parse_instructions n keys tx p1) as [[[ixs hs] p2]|e]; [|split; done].
  specialize (S2 _ _ _ eq_refl). cbn. split; [done|]. intros ? ? ? [= <- <- <-]. lia.
Qed.

Lemma parse_alts_safe n tx pos :
  0 ≤ pos → Forall byte_ok tx → value_error (parse_alts n tx pos).
Proof.
  intros Hp Hb. revert pos Hp. induction n as [|n IH]; intros pos Hp; cbn [parse_alts]; [done|].
  destruct (zlen tx <? pos + 32); [done|].
  destruct (read_compact_safe tx (pos + 32) ltac:(lia) Hb) as [V1 S1].
  apply value_error_bind; [done|]. intros [n_w p1] E1. destruct (S1 _ _ E1).
  destruct (zlen tx <? p1 + n_w); [done|].
  destruct (read_compact_safe tx (p1 + n_w) ltac:(lia) Hb) as [V2 S2].
  apply value_error_bind; [done|]. intros [n_r p2] E2. destruct (S2 _ _ E2).
  destruct (zlen tx <? p2 + n_r); [done|]. apply IH. lia.
Qed.

Lemma parse_value_error tx : Forall byte_ok tx → value_error (parse_transaction tx).
Proof.
  intros Hb.
  unfold parse_transaction.
  destruct (read_compact_safe tx 0 ltac:(lia) Hb) as [V1 S1].
  apply value_error_bind; [done|]. intros [n_sigs p1] E1. destruct (S1 _ _ E1).
  destruct (Z.ltb_spec (zlen tx) (p1 + n_sigs * 64)); [done|].
  destruct (Z.leb_spec (zlen tx) (p1 + n_sigs * 64)); [done|].
  unfold parse_version. destruct (index_ok tx (p1 + n_sigs * 64) ltac:(lia)) as (b & -> & _).
  cbn [mbind result_bind].
  apply value_error_bind; [destruct (negb _); [destruct (negb _); done|done]|].
  intros [ver p2] E2. assert (0 ≤ p2) by (repeat case_match; simplify_eq; lia).
  destruct (Z.ltb_spec (zlen tx) (p2 + 3)); [done|].
  destruct (index_ok tx p2 ltac:(lia)) as (nreq & -> & _). cbn [mbind result_bind].
  destruct (read_compact_safe tx (p2 + 3) ltac:(lia) Hb) as [V3 S3].
  apply value_error_bind; [done|]. intros [n_keys p3] E3. destruct (S3 _ _ E3).
  destruct (parse_keys_safe (Z.to_nat n_keys) tx p3 ltac:(lia)) as [V4 S4].
  apply value_error_bind; [done|]. intros [keys p4] E4. destruct (S4 _ _ E4).
  destruct keys as [|payer ks]; [done|].
  destruct (zlen tx <? p4 + 32); [done|].
  destruct (read_compact_safe tx (p4 + 32) ltac:(lia) Hb) as [V5 S5].
  apply value_error_bind; [done|]. intros [n_ix p5] E5. destruct (S5 _ _ E5).
  destruct (parse_instructions_safe (Z.to_nat n_ix) (payer :: ks) tx p5 ltac:(lia) Hb) as [V6 S6].
  apply value_error_bind; [done|]. intros [[ixs hit] p6] E6. specialize (S6 _ _ _ E6).
  apply value_error_bind; [|done].
  destruct (ver && (p6 <? zlen tx)); [|done].
  destruct (read_compact_safe tx p6 ltac:(lia) Hb) as [V7 S7].
  apply value_error_bind; [done|]. intros [n_alt p7] E7. destruct (S7 _ _ E7).
  apply value_error_bind; [apply parse_alts_safe; lia || done|done].
Qed.

(** The parser is total on bytes: whatever it is given it returns a
    transaction or raises [ValueError]; no out-of-range read and no other
    exception escapes to the signer. *)
Theorem parse_only_value_error tx :
  Forall byte_ok tx →
  match parse_transaction tx with Ok _ => True | Raise e => ∃ m, e = ValueError m end.
Proof.
  intros H%parse_value_error. destruct (parse_transaction tx) as [|[]]; eauto; done.
Qed.

(** ** Parsing what the builder built *)

Definition prog_index (keys : list string) (ix : RawInstruction) : option Z :=
  match program_id_index_override ix with
  | Some i => Some i
  | None => (λ p, Z.of_nat p.1) <$> list_find (λ k, k = raw_program_id ix) keys
  end.

(** What the parser should report for a raw instruction, and whether it touches
    the ALT region. *)
Definition expected_ix (keys : list string) (ix : RawInstruction) : ParsedInstruction * bool :=
  let p := default 0 (prog_index keys ix) in
  (mk_pix (default "" (keys !! Z.to_nat p)) p (raw_accounts ix) (raw_data ix),
   (zlen keys <=? p) || existsb (λ i, zlen keys <=? i) (raw_accounts ix)).

Definition short_ix (ix : RawInstruction) : Prop :=
  zlen (raw_accounts ix) < 2 ^ 21 ∧ zlen (raw_data ix) < 2 ^ 21.

Lemma build_key_ok err k raw :
  build_key err k = Ok raw → zlen raw = 32 ∧ b58encode raw = k ∧ Forall byte_ok raw.
Proof.
  unfold build_key. destruct (b58decode k) as [d|] eqn:Ed; [|done]. cbn [mbind result_bind].
  destruct (Z.eqb_spec (zlen d) 32); [|done]. intros [= <-].
  apply b58_encode_decode_ok in Ed as []. done.
Qed.

Lemma parse_build_keys keys kb pre post :
  build_keys keys = Ok kb →
  parse_keys (length keys) (pre ++ kb ++ post) (zlen pre) = Ok (keys, zlen pre + zlen kb).
Proof.
  revert kb pre. induction keys as [|k ks IH]; intros kb pre H; cbn [build_keys] in H.
  { injection H as <-. cbn. f_equal. f_equal. change (zlen []) with 0. lia. }
  destruct (build_key _ k) as [raw|] eqn:Ek; [|done]. cbn [mbind result_bind] in H.
  destruct (build_keys ks) as [rest|] eqn:Er; [|done]. cbn [mbind result_bind] in H. injection H as <-.
  apply build_key_ok in Ek as (Hl & He & _).
  cbn [length parse_keys]. rewrite <- ?(assoc_L (++)).
  rewrite (proj2 (Z.ltb_ge _ _)).
  2: { rewrite !zlen_app. pose proof (zlen_nonneg rest). pose proof (zlen_nonneg post). lia. }
  rewrite (slice_app pre raw (rest ++ post)) by (done || lia). rewrite He.
  specialize (IH rest (pre ++ raw) eq_refl). rewrite <- (assoc_L (++)), zlen_app, Hl in IH.
  rewrite IH. cbn [mbind result_bind]. do 2 f_equal. rewrite zlen_app. lia.
Qed.

Lemma resolve_static_spec keys p :
  0 ≤ p →
  match _resolve_static keys p with
  | Ok k => Ok (k, false)
  | Raise e => if decide (e = _AltRegionIndex) then Ok ("", true) else Raise e
  end = Ok (default "" (keys !! Z.to_nat p), zlen keys <=? p).
Proof.
  intros Hp. unfold _resolve_static. rewrite (proj2 (Z.ltb_ge p 0)) by done.
  destruct (Z.leb_spec (zlen keys) p).
  - rewrite decide_True by done. rewrite lookup_ge_None_2; [done|]. unfold zlen in *. lia.
  - unfold index. destruct (lookup_lt_is_Some_2 keys (Z.to_nat p)) as [k ->]; [unfold zlen in *; lia|].
    done.
Qed.

Lemma parse_build_instruction keys ix ib pre post :
  build_instruction keys ix = Ok ib → short_ix ix →
  parse_instruction keys (pre ++ ib ++ post) (zlen pre) =
    Ok ((expected_ix keys ix).1, (expected_ix keys ix).2, zlen pre + zlen ib).
Proof.
  unfold build_instruction, expected_ix. intros H [Ha Hd].
  assert (∃ p, prog_index keys ix = Some p ∧
    (if negb ((0 <=? p) && (p <=? 255)) then Raise (ValueError "program_id_index must fit in a single byte")
     else (na ← write_compact_u16 (zlen (raw_accounts ix)); accs ← to_bytes (raw_accounts ix);
          nd ← write_compact_u16 (zlen (raw_data ix)); Ok ([p] ++ na ++ accs ++ nd ++ raw_data ix))) = Ok ib)
    as (p & -> & H').
  { unfold prog_index. destruct (program_id_index_override ix) as [i|]; [by exists i|].
    destruct (list_find _ keys) as [[i k]|]; [|done]. by exists (Z.of_nat i). }
  clear H. destruct (Z.leb_spec 0 p) as [Hp|]; [|done]. cbn [default].
  destruct (negb _); [done|].
  destruct (write_compact_u16 (zlen (raw_accounts ix))) as [na|] eqn:Ena; [|done].
  cbn [mbind result_bind] in H'. unfold to_bytes in H'.
  destruct (forallb _ (raw_accounts ix)); [|done]. cbn [mbind result_bind] in H'.
  destruct (write_compact_u16 (zlen (raw_data ix))) as [nd|] eqn:End; [|done].
  cbn [mbind result_bind] in H'. injection H' as <-.
  set (accs := raw_accounts ix) in *. set (dat := raw_data ix) in *.
  pose proof (write_compact_inv _ _ Ena) as [_ Hna]. pose proof (write_compact_inv _ _ End) as [_ Hnd].
  pose proof (zlen_nonneg accs). pose proof (zlen_nonneg dat). pose proof (zlen_nonneg post).
  unfold parse_instruction. cbn [app]. rewrite <- ?(assoc_L (++)). cbn [app]. rewrite <- ?(assoc_L (++)).
  rewrite (proj2 (Z.leb_gt _ _)) by (rewrite zlen_app, zlen_cons, !zlen_app; lia).
  rewrite index_app by done. cbn [mbind result_bind]. rewrite resolve_static_spec by done.
  cbn [mbind result_bind].
  assert (∀ l, pre ++ p :: l = (pre ++ [p]) ++ l) as Ep by (intros; by rewrite <- (assoc_L (++))).
  rewrite Ep. replace (zlen pre + 1) with (zlen (pre ++ [p])) by (rewrite zlen_app; done).
  rewrite (read_write_compact _ _ _ _ Ena Ha). cbn [mbind result_bind].
  rewrite (proj2 (Z.ltb_ge _ _)) by (rewrite !zlen_app; lia).
  assert (∀ l, (pre ++ [p]) ++ na ++ l = (pre ++ [p] ++ na) ++ l) as Ep2 by (intros; by rewrite <- ?(assoc_L (++))).
  rewrite Ep2.
  rewrite (slice_app (pre ++ [p] ++ na) accs) by (rewrite !zlen_app; lia).
  assert (∀ l, (pre ++ [p] ++ na) ++ accs ++ l = (pre ++ [p] ++ na ++ accs) ++ l) as Ep3
    by (intros; by rewrite <- ?(assoc_L (++))).
  rewrite Ep3.
  replace (zlen (pre ++ [p]) + zlen na + zlen accs) with (zlen (pre ++ [p] ++ na ++ accs))
    by (rewrite !zlen_app; lia).
  rewrite (read_write_compact _ _ _ _ End Hd). cbn [mbind result_bind].
  rewrite (proj2 (Z.ltb_ge _ _)) by (rewrite !zlen_app; lia).
  replace ((pre ++ [p] ++ na ++ accs) ++ nd ++ dat ++ post)
    with ((pre ++ [p] ++ na ++ accs ++ nd) ++ dat ++ post) by (rewrite <- ?(assoc_L (++)); done).
  rewrite (slice_app (pre ++ [p] ++ na ++ accs ++ nd) dat) by (rewrite !zlen_app; lia).
  do 2 f_equal. rewrite zlen_cons, !zlen_app. change (zlen [p]) with 1. lia.
Qed.

Lemma parse_build_instructions keys ixs ib pre post :
  build_instructions keys ixs = Ok ib → Forall short_ix ixs →
  parse_instructions (length ixs) keys (pre ++ ib ++ post) (zlen pre) =
    Ok (fst <$> (expected_ix keys <$> ixs), existsb snd (expected_ix keys <$> ixs), zlen pre + zlen ib).
Proof.
  revert ib pre. induction ixs as [|ix ixs IH]; intros ib pre H Hs; cbn [build_instructions] in H.
  { injection H as <-. cbn. do 2 f_equal. change (zlen []) with 0. lia. }
  inv Hs. destruct (build_instruction keys ix) as [b|] eqn:Eb; [|done]. cbn [mbind result_bind] in H.
  destruct (build_instructions keys ixs) as [rest|] eqn:Er; [|done]. cbn [mbind result_bind] in H.
  injection H as <-. cbn [length parse_instructions]. rewrite <- ?(assoc_L (++)).
  rewrite (parse_build_instruction keys ix) by done. cbn [mbind result_bind].
  specialize (IH rest (pre ++ b) eq_refl ltac:(done)). rewrite <- (assoc_L (++)), zlen_app in IH.
  rewrite IH. cbn [mbind result_bind fmap list_fmap existsb]. do 2 f_equal. rewrite zlen_app. lia.
Qed.

Lemma parse_dummy_alts n pre :
  is_ok (parse_alts n (pre ++ mjoin (replicate n dummy_alt)) (zlen pre)) = true.
Proof.
  revert pre. induction n as [|n IH]; intros pre; [done|].
  cbn [replicate mjoin list_join parse_alts]. set (rest := mjoin (replicate n dummy_alt)).
  pose proof (zlen_nonneg rest).
  rewrite (proj2 (Z.ltb_ge _ _)) by (rewrite !zlen_app; change (zlen dummy_alt) with 34; lia).
  unfold dummy_alt. rewrite <- ?(assoc_L (++)).
  replace (pre ++ replicate 32 0 ++ [0] ++ [0] ++ rest)
    with ((pre ++ replicate 32 0) ++ [0] ++ ([0] ++ rest)) by (rewrite <- ?(assoc_L (++)); done).
  replace (zlen pre + 32) with (zlen (pre ++ replicate 32 0)) by (rewrite zlen_app; done).
  rewrite (read_write_compact _ _ 0 [0]) by done. cbn [mbind result_bind].
  rewrite (proj2 (Z.ltb_ge _ _)) by (rewrite !zlen_app; change (zlen [0]) with 1; lia).
  replace ((pre ++ replicate 32 0) ++ [0] ++ [0] ++ rest)
    with ((pre ++ replicate 32 0 ++ [0]) ++ [0] ++ rest) by (rewrite <- ?(assoc_L (++)); done).
  replace (zlen (pre ++ replicate 32 0) + zlen [0] + 0) with (zlen (pre ++ replicate 32 0 ++ [0]))
    by (rewrite !zlen_app; lia).
  rewrite (read_write_compact _ _ 0 [0]) by done. cbn [mbind result_bind].
  rewrite (proj2 (Z.ltb_ge _ _)) by (rewrite !zlen_app; change (zlen [0]) with 1; lia).
  replace ((pre ++ replicate 32 0 ++ [0]) ++ [0] ++ rest)
    with ((pre ++ replicate 32 0 ++ [0] ++ [0]) ++ rest) by (rewrite <- ?(assoc_L (++)); done).
  replace (zlen (pre ++ replicate 32 0 ++ [0]) + zlen [0] + 0)
    with (zlen (pre ++ replicate 32 0 ++ [0] ++ [0])) by (rewrite !zlen_app; lia).
  apply IH.
Qed.

(** The flag byte: a v0 prefix, or a legacy header byte below 128. *)
Lemma parse_build_version versioned nreq pre post :
  0 ≤ nreq ≤ 255 → (versioned = false → nreq < 128) →
  parse_version (pre ++ (if versioned then [128] else []) ++ nreq :: post) (zlen pre) =
    Ok (versioned, zlen (pre ++ if versioned then [128] else [])).
Proof.
  intros Hn Hv. unfold parse_version. destruct versioned; cbn [app].
  - rewrite index_app by done. cbn. rewrite zlen_app. done.
  - rewrite index_app by done. cbn [mbind result_bind].
    destruct (land127_facts nreq ltac:(specialize (Hv eq_refl); lia)) as (-> & _). cbn.
    by rewrite app_nil_r.
Qed.

(** The parser after the version byte, on a built message. *)
Lemma parse_build_message keys nreq bh ixs rs ru nk kb bhb ni ib pre post :
  keys ≠ [] → zlen keys < 2 ^ 21 → zlen ixs < 2 ^ 21 → Forall short_ix ixs →
  write_compact_u16 (zlen keys) = Ok nk → build_keys keys = Ok kb →
  build_key "recent_blockhash does not decode to 32 bytes" bh = Ok bhb →
  write_compact_u16 (zlen ixs) = Ok ni → build_instructions keys ixs = Ok ib →
  let tx := pre ++ [nreq] ++ [rs] ++ [ru] ++ nk ++ kb ++ bhb ++ ni ++ ib ++ post in
  (zlen tx <? zlen pre + 3) = false ∧ index tx (zlen pre) = Ok nreq ∧
  ∃ p3 p4 p5 p6,
    read_compact_u16 tx (zlen pre + 3) = Ok (zlen keys, p3) ∧
    parse_keys (length keys) tx p3 = Ok (keys, p4) ∧
    (zlen tx <? p4 + 32) = false ∧ b58encode (slice tx p4 (p4 + 32)) = bh ∧
    read_compact_u16 tx (p4 + 32) = Ok (zlen ixs, p5) ∧
    parse_instructions (length ixs) keys tx p5 =
      Ok (fst <$> (expected_ix keys <$> ixs), existsb snd (expected_ix keys <$> ixs), p6) ∧
    p6 = zlen (pre ++ [nreq] ++ [rs] ++ [ru] ++ nk ++ kb ++ bhb ++ ni ++ ib).
Proof.
  intros Hk Hkl Hil Hs Enk Ekb Ebh Eni Eib tx.
  apply build_key_ok in Ebh as (Hbl & Hbe & _).
  pose proof (zlen_nonneg nk). pose proof (zlen_nonneg kb). pose proof (zlen_nonneg ni).
  pose proof (zlen_nonneg ib). pose proof (zlen_nonneg post).
  assert (zlen tx = zlen pre + 3 + zlen nk + zlen kb + 32 + zlen ni + zlen ib + zlen post) as Hlen.
  { unfold tx. rewrite !zlen_app, Hbl. change (zlen [nreq]) with 1. change (zlen [rs]) with 1.
    change (zlen [ru]) with 1. lia. }
  split; [apply Z.ltb_ge; lia|]. split; [by apply index_app|].
  set (hdr := pre ++ [nreq] ++ [rs] ++ [ru]).
  assert (zlen hdr = zlen pre + 3) as Hh by (unfold hdr; zlen_lia).
  exists (zlen hdr + zlen nk), (zlen (hdr ++ nk) + zlen kb), (zlen (hdr ++ nk ++ kb ++ bhb) + zlen ni),
    (zlen (hdr ++ nk ++ kb ++ bhb ++ ni) + zlen ib).
  assert (tx = hdr ++ nk ++ kb ++ bhb ++ ni ++ ib ++ post) as E1 by (unfold tx, hdr; by rewrite <- ?(assoc_L (++))).
  split_and!.
  - rewrite E1, <- Hh. by rewrite (read_write_compact _ _ _ _ Enk Hkl).
  - replace tx with ((hdr ++ nk) ++ kb ++ (bhb ++ ni ++ ib ++ post)) by (rewrite E1, <- ?(assoc_L (++)); done).
    replace (zlen hdr + zlen nk) with (zlen (hdr ++ nk)) by (rewrite zlen_app; done).
    by apply parse_build_keys.
  - apply Z.ltb_ge. rewrite !zlen_app in *. lia.
  - replace tx with ((hdr ++ nk ++ kb) ++ bhb ++ (ni ++ ib ++ post)) by (rewrite E1, <- ?(assoc_L (++)); done).
    rewrite (slice_app (hdr ++ nk ++ kb) bhb); [done| |lia]. rewrite !zlen_app. lia.
  - replace tx with ((hdr ++ nk ++ kb ++ bhb) ++ ni ++ (ib ++ post)) by (rewrite E1, <- ?(assoc_L (++)); done).
    replace (zlen (hdr ++ nk) + zlen kb + 32) with (zlen (hdr ++ nk ++ kb ++ bhb))
      by (rewrite !zlen_app; lia).
    by rewrite (read_write_compact _ _ _ _ Eni Hil).
  - replace tx with ((hdr ++ nk ++ kb ++ bhb ++ ni) ++ ib ++ post) by (rewrite E1, <- ?(assoc_L (++)); done).
    replace (zlen (hdr ++ nk ++ kb ++ bhb) + zlen ni) with (zlen (hdr ++ nk ++ kb ++ bhb ++ ni))
      by (rewrite !zlen_app; lia).
    by apply parse_build_instructions.
  - unfold hdr. rewrite !zlen_app. lia.
Qed.

(** What a transaction the builder returns is made of. *)
Lemma build_parts keys nreq bh ixs rs ru versioned n_alt tx :
  build_versioned_tx keys nreq bh ixs rs ru versioned n_alt = Ok tx →
  ∃ sigs nk kb bhb ni ib ab,
    write_compact_u16 nreq = Ok sigs ∧ 0 ≤ nreq ≤ 255 ∧
    write_compact_u16 (zlen keys) = Ok nk ∧ build_keys keys = Ok kb ∧
    build_key "recent_blockhash does not decode to 32 bytes" bh = Ok bhb ∧
    write_compact_u16 (zlen ixs) = Ok ni ∧ build_instructions keys ixs = Ok ib ∧
    (if versioned then na ← write_compact_u16 n_alt; Ok (na ++ mjoin (replicate (Z.to_nat n_alt) dummy_alt)) else Ok []) = Ok ab ∧
    tx = ((sigs ++ replicate (64 * Z.to_nat nreq) 0) ++ if versioned then [128] else [])
         ++ [nreq] ++ [rs] ++ [ru] ++ nk ++ kb ++ bhb ++ ni ++ ib ++ ab.
Proof.
  unfold build_versioned_tx, one_byte. intros H.
  destruct (write_compact_u16 nreq) as [sigs|]; [|done]. cbn [mbind result_bind] in H.
  destruct ((0 <=? nreq) && (nreq <=? 255)) eqn:Hr; [|done]. cbn [mbind result_bind] in H.
  destruct ((0 <=? rs) && _); [|done]. cbn [mbind result_bind] in H.
  destruct ((0 <=? ru) && _); [|done]. cbn [mbind result_bind] in H.
  destruct (write_compact_u16 (zlen keys)) as [nk|]; [|done]. cbn [mbind result_bind] in H.
  destruct (build_keys keys) as [kb|]; [|done]. cbn [mbind result_bind] in H.
  destruct (build_key _ bh) as [bhb|]; [|done]. cbn [mbind result_bind] in H.
  destruct (write_compact_u16 (zlen ixs)) as [ni|]; [|done]. cbn [mbind result_bind] in H.
  destruct (build_instructions keys ixs) as [ib|]; [|done]. cbn [mbind result_bind] in H.
  match type of H with (?r ≫= _) = _ => destruct r as [ab|] eqn:Ealts end; [|done].
  cbn [mbind result_bind] in H. injection H as <-. bools.
  exists sigs, nk, kb, bhb, ni, ib, ab. split_and!; try done. by rewrite <- ?(assoc_L (++)).
Qed.

(** The parser up to the version byte. *)
Lemma parse_build_head nreq sigs (versioned : bool) rest :
  write_compact_u16 nreq = Ok sigs → 0 ≤ nreq ≤ 255 → (versioned = false → nreq < 128) →
  let pre := (sigs ++ replicate (64 * Z.to_nat nreq) 0) ++ if versioned then [128] else [] in
  let tx := pre ++ nreq :: rest in
  read_compact_u16 tx 0 = Ok (nreq, zlen sigs) ∧ (zlen tx <? zlen sigs + nreq * 64) = false ∧
  (zlen tx <=? zlen sigs + nreq * 64) = false ∧ parse_version tx (zlen sigs + nreq * 64) = Ok (versioned, zlen pre).
Proof.
  intros Esigs Hr Hleg. set (ph := replicate _ 0). intros pre tx.
  assert (zlen ph = nreq * 64) as <- by (unfold ph; rewrite zlen_replicate; lia).
  assert (tx = (sigs ++ ph) ++ (if versioned then [128] else []) ++ nreq :: rest) as Etx
    by (unfold tx, pre; rewrite <- ?(assoc_L (++)); done).
  assert (zlen tx = zlen sigs + zlen ph + zlen (A:=Z) (if versioned then [128] else []) + 1 + zlen rest) as Hlen
    by (rewrite Etx, !zlen_app; unfold zlen; cbn [length]; lia).
  pose proof (zlen_nonneg rest). pose proof (zlen_nonneg (A:=Z) (if versioned then [128] else [])).
  split_and!; [|apply Z.ltb_ge; lia|apply Z.leb_gt; lia|].
  - replace tx with ([] ++ sigs ++ (ph ++ (if versioned then [128] else []) ++ nreq :: rest))
      by (rewrite Etx, <- ?(assoc_L (++)); done).
    change 0 with (zlen (A:=Z) []). by rewrite (read_write_compact _ _ _ _ Esigs) by lia.
  - rewrite Etx. rewrite <- (zlen_app sigs ph). by apply parse_build_version.
Qed.

(** The parser on the lookup tables. *)
Lemma parse_build_alts (versioned : bool) n_alt ab X (hit : bool) : n_alt < 2 ^ 21 →
  (if versioned then na ← write_compact_u16 n_alt; Ok (na ++ mjoin (replicate (Z.to_nat n_alt) dummy_alt)) else Ok []) = Ok ab →
  (if versioned && (zlen X <? zlen (X ++ ab)) then
     '(n_alt, pos) ← read_compact_u16 (X ++ ab) (zlen X);
     _ ← parse_alts (Z.to_nat n_alt) (X ++ ab) pos;
     Ok (hit || (0 <? n_alt))
   else Ok hit) = Ok (hit || (versioned && (0 <? n_alt))).
Proof.
  intros Hal Ealts. destruct versioned; cbn [andb]; [|by rewrite orb_false_r].
  destruct (write_compact_u16 n_alt) as [na|] eqn:Ena; [|done]. cbn [mbind result_bind] in Ealts.
  injection Ealts as <-. pose proof (write_compact_inv _ _ Ena) as [Hna0 Hna].
  set (body := mjoin (replicate (Z.to_nat n_alt) dummy_alt)). pose proof (zlen_nonneg body).
  rewrite (proj2 (Z.ltb_lt _ _)) by (rewrite !zlen_app; lia).
  rewrite (read_write_compact _ _ _ _ Ena Hal). cbn [mbind result_bind].
  rewrite (assoc_L (++) X na body), <- zlen_app.
  pose proof (parse_dummy_alts (Z.to_nat n_alt) (X ++ na)) as Hp. fold body in Hp. by destruct (parse_alts _ _ _).
Qed.

(** C39: round trip of the transaction codec: parsing any transaction the
    builder produced returns its keys, header, blockhash and instructions
    verbatim, the payer is the first key, and the ALT flag is set exactly when
    some index leaves the static keys or a lookup is declared. *)
Theorem parse_build_transaction keys nreq bh ixs rs ru versioned n_alt tx :
  build_versioned_tx keys nreq bh ixs rs ru versioned n_alt = Ok tx →
  keys ≠ [] → zlen keys < 2 ^ 21 → zlen ixs < 2 ^ 21 → n_alt < 2 ^ 21 →
  (versioned = false → nreq < 128) → Forall short_ix ixs →
  parse_transaction tx = Ok (mk_ptx keys nreq (hd "" keys) bh
    (fst <$> (expected_ix keys <$> ixs)) versioned
    (existsb snd (expected_ix keys <$> ixs) || (versioned && (0 <? n_alt)))).
Proof.
  intros H Hk Hkl Hil Hal Hleg Hs.
  destruct (build_parts _ _ _ _ _ _ _ _ _ H) as (sigs & nk & kb & bhb & ni & ib & ab & Esigs & Hr & Enk & Ekb & Ebh & Eni & Eib & Ealts & ->).
  destruct (parse_build_head nreq sigs versioned ([rs] ++ [ru] ++ nk ++ kb ++ bhb ++ ni ++ ib ++ ab) Esigs Hr Hleg) as (H1 & H2 & H3 & H4).
  set (pre := (sigs ++ _) ++ _) in *.
  destruct (parse_build_message keys nreq bh ixs rs ru nk kb bhb ni ib pre ab Hk Hkl Hil Hs Enk Ekb Ebh Eni Eib)
    as (M1 & M2 & p3 & p4 & p5 & p6 & M3 & M4 & M5 & M6 & M7 & M8 & M9).
  pose proof (parse_build_alts versioned n_alt ab (pre ++ [nreq] ++ [rs] ++ [ru] ++ nk ++ kb ++ bhb ++ ni ++ ib)
    (existsb snd (expected_ix keys <$> ixs)) Hal Ealts) as Halt.
  rewrite <- M9, <- ?(assoc_L (++)) in Halt. clear M9.
  change (pre ++ nreq :: ?l) with (pre ++ [nreq] ++ l) in H1, H2, H3, H4. set (tx := pre ++ [nreq] ++ _) in *.
  unfold parse_transaction. rewrite H1. cbn [mbind result_bind]. rewrite H2, H3, H4. cbn [mbind result_bind].
  rewrite M1, M2. cbn [mbind result_bind]. rewrite M3. cbn [mbind result_bind]. rewrite zlen_to_nat, M4. cbn [mbind result_bind].
  destruct keys as [|k0 ks]; [done|]. rewrite M5, M6, M7. cbn [mbind result_bind hd]. rewrite zlen_to_nat, M8. cbn [mbind result_bind].
  cbn [mbind result_bind] in Halt. by rewrite Halt.
Qed.

(** Base58 is a bijection between byte strings and the strings the decoder
    accepts, so comparing account keys as strings compares their bytes. *)
Theorem base58_bijection :
  (∀ d, Forall byte_ok d → b58decode (b58encode d) = Ok d) ∧
  (∀ s d, b58decode s = Ok d → b58encode d = s ∧ Forall byte_ok d).
Proof. split; [exact b58_decode_encode_ok|exact b58_encode_decode_ok]. Qed.

(** *** Witnesses *)

Lemma parse_only_value_error_witness :
  match parse_transaction [1; 2; 255] with Ok _ => True | Raise e => ∃ m, e = ValueError m end.
Proof. apply (parse_only_value_error [1; 2; 255]). repeat (constructor; [unfold byte_ok; lia|]). constructor. Defined.

Definition sample_keys : list string :=
  ["11111111111111111111111111111111"; "11111111111111111111111111111112"].
Definition sample_ix : RawInstruction := mk_raw "11111111111111111111111111111112" [0; 7] [2; 0; 0; 0] None.

Lemma parse_build_witness :
  ∃ tx, build_versioned_tx sample_keys 1 "11111111111111111111111111111113" [sample_ix] 0 1 true 1 = Ok tx ∧
        has_address_table_lookups <$> match parse_transaction tx with Ok p => Some p | _ => None end = Some true.
Proof.
  destruct (build_versioned_tx sample_keys 1 "11111111111111111111111111111113" [sample_ix] 0 1 true 1)
    as [tx|] eqn:E; [|by vm_compute in E].
  exists tx. split; [reflexivity|].
  rewrite (parse_build_transaction _ _ _ _ _ _ _ _ _ E); [by vm_compute|done|by vm_compute..| |].
  - done.
  - repeat constructor; by vm_compute.
Defined.
