(* ===== verification/Sha256.v ===== *)
(** * SHA-256: [hashlib.sha256]

    The digest of the standard library (FIPS 180-4), on lists of bytes.  Words
    are integers in [0, 2^32) with wrap-around addition. *)

From S2P Require Import Prelude Bytes.

Definition MASK32 : Z := 4294967295.
Definition add32 (a b : Z) : Z := Z.land (a + b) MASK32.
Definition rotr (x n : Z) : Z := Z.lor (Z.shiftr x n) (Z.land (Z.shiftl x (32 - n)) MASK32).
Definition not32 (x : Z) : Z := MASK32 - x.

Definition sha_K : list Z :=
  [1116352408; 1899447441; 3049323471; 3921009573; 961987163; 1508970993; 2453635748;
   2870763221; 3624381080; 310598401; 607225278; 1426881987; 1925078388; 2162078206;
   2614888103; 3248222580; 3835390401; 4022224774; 264347078; 604807628; 770255983;
   1249150122; 1555081692; 1996064986; 2554220882; 2821834349; 2952996808; 3210313671;
   3336571891; 3584528711; 113926993; 338241895; 666307205; 773529912; 1294757372;
   1396182291; 1695183700; 1986661051; 2177026350; 2456956037; 2730485921; 2820302411;
   3259730800; 3345764771; 3516065817; 3600352804; 4094571909; 275423344; 430227734;
   506948616; 659060556; 883997877; 958139571; 1322822218; 1537002063; 1747873779;
   1955562222; 2024104815; 2227730452; 2361852424; 2428436474; 2756734187; 3204031479;
   3329325298].

Definition sha_H0 : list Z :=
  [1779033703; 3144134277; 1013904242; 2773480762; 1359893119; 2600822924; 528734635;
   1541459225].

(** Padding to a multiple of 64 bytes. *)
Definition sha_pad (msg : bytes) : bytes :=
  let n := zlen msg in
  msg ++ [128] ++ replicate (Z.to_nat ((55 - n) mod 64)) 0 ++ int_to_bytes_big 8 (8 * n).

Fixpoint words (fuel : nat) (l : bytes) : list Z :=
  match fuel with
  | O => []
  | S f => match l with
           | [] => []
           | _ => int_from_bytes_big (take 4 l) :: words f (drop 4 l)
           end
  end.

(** Message schedule: extend the reversed word list [w] (latest word first). *)
Fixpoint schedule (k : nat) (w : list Z) : list Z :=
  match k with
  | O => w
  | S k' =>
      let at_ i := nth i w 0 in
      let s0 := Z.lxor (Z.lxor (rotr (at_ 14%nat) 7) (rotr (at_ 14%nat) 18)) (Z.shiftr (at_ 14%nat) 3) in
      let s1 := Z.lxor (Z.lxor (rotr (at_ 1%nat) 17) (rotr (at_ 1%nat) 19)) (Z.shiftr (at_ 1%nat) 10) in
      schedule k' (add32 (add32 (at_ 15%nat) s0) (add32 (at_ 6%nat) s1) :: w)
  end.

Definition sha_round (st : list Z) (kw : Z * Z) : list Z :=
  match st with
  | [a; b; c; d; e; f; g; h] =>
      let S1 := Z.lxor (Z.lxor (rotr e 6) (rotr e 11)) (rotr e 25) in
      let ch := Z.lxor (Z.land e f) (Z.land (not32 e) g) in
      let t1 := add32 (add32 (add32 h S1) (add32 ch kw.1)) kw.2 in
      let S0 := Z.lxor (Z.lxor (rotr a 2) (rotr a 13)) (rotr a 22) in
      let maj := Z.lxor (Z.lxor (Z.land a b) (Z.land a c)) (Z.land b c) in
      [add32 t1 (add32 S0 maj); a; b; c; add32 d t1; e; f; g]
  | _ => st
  end.

Definition sha_block (st : list Z) (block : bytes) : list Z :=
  let w := reverse (schedule 48 (reverse (words 16 block))) in
  zip_with add32 st (foldl sha_round st (zip sha_K w)).

Fixpoint sha_blocks (fuel : nat) (st : list Z) (l : bytes) : list Z :=
  match fuel with
  | O => st
  | S f => match l with
           | [] => st
           | _ => sha_blocks f (sha_block st (take 64 l)) (drop 64 l)
           end
  end.

Definition sha256 (msg : bytes) : bytes :=
  let p := sha_pad msg in
  concat (int_to_bytes_big 4 <$> sha_blocks (length p) sha_H0 p).

(** [hexdigest()] *)
Definition hex_digit (d : Z) : Ascii.ascii :=
  Ascii.ascii_of_nat (Z.to_nat (if d <? 10 then 48 + d else 87 + d)).
Definition hexdigest (l : bytes) : string :=
  String.string_of_list_ascii (concat ((λ b, [hex_digit (b / 16); hex_digit (b mod 16)]) <$> l)).

(** The UTF-8 bytes of an ASCII string. *)
Definition encode (s : string) : bytes :=
  (λ c, Z.of_nat (Ascii.nat_of_ascii c)) <$> String.list_ascii_of_string s.

Lemma schedule_length k w : length (schedule k w) = (k + length w)%nat.
Proof. revert w. induction k as [|k IH]; intros w; cbn [schedule]; [done|]. rewrite IH. cbn. lia. Qed.

Lemma sha_round_length st kw : length (sha_round st kw) = length st.
Proof. destruct st as [|? [|? [|? [|? [|? [|? [|? [|? [|? ?]]]]]]]]]; reflexivity. Qed.

Lemma sha_block_length st b : length (sha_block st b) = length st.
Proof.
  unfold sha_block. rewrite length_zip_with.
  assert (∀ l s, length (foldl sha_round s l) = length s) as ->; [|lia].
  induction l as [|x l IH]; intros s; cbn; [done|]. by rewrite IH, sha_round_length.
Qed.

Lemma sha_blocks_length n st l : length (sha_blocks n st l) = length st.
Proof.
  revert st l. induction n as [|n IH]; intros st l; cbn; [done|].
  destruct l; [done|]. by rewrite IH, sha_block_length.
Qed.

(** The digest is 32 bytes. *)
Lemma sha256_length msg : length (sha256 msg) = 32%nat.
Proof.
  unfold sha256. assert (∀ l : list Z, length (concat (int_to_bytes_big 4 <$> l)) = (4 * length l)%nat) as ->.
  { induction l as [|x l IH]; [done|]. rewrite fmap_cons; cbn [concat]. rewrite length_app, IH.
    unfold int_to_bytes_big. rewrite length_reverse, to_bytes_little_length. cbn. lia. }
  by rewrite sha_blocks_length.
Qed.

Lemma sha256_bytes msg : Forall byte_ok (sha256 msg).
Proof.
  unfold sha256. induction (sha_blocks _ _ _) as [|x l IH]; [constructor|].
  rewrite fmap_cons; cbn [concat]. apply Forall_app. split; [|done].
  unfold int_to_bytes_big. apply Forall_reverse, to_bytes_little_ok.
Qed.

(** FIPS 180-4 test vectors. *)
Example sha256_abc :
  hexdigest (sha256 (encode "abc")) =
    "ba7816bf8f01cfea414140de5dae2223b00361a396177a9cb410ff61f20015ad".
Proof. by vm_compute. Qed.

Example sha256_two_blocks :
  hexdigest (sha256 (encode "abcdbcdecdefdefgefghfghighijhijkijkljklmklmnlmnomnopnopq")) =
    "248d6a61d20638b8e5c026930c3e6039a33ce45964ff2167f6ecedd419db06c1".
Proof. by vm_compute. Qed.
