(* ===== verification/Ed25519.v ===== *)
(** * Ed25519 on-curve check: [aats/execution/ed25519_field.py] *)

From S2P Require Import Prelude Bytes.

Definition _Q : Z := 2 ^ 255 - 19.

(** [pow(b, e, m)] for [e >= 0]. *)
Fixpoint pow_pos_mod (b : Z) (e : positive) (m : Z) : Z :=
  match e with
  | xH => b mod m
  | xO e' => let h := pow_pos_mod b e' m in (h * h) mod m
  | xI e' => let h := pow_pos_mod b e' m in (((h * h) mod m) * b) mod m
  end.
Definition pow_mod (b e m : Z) : Z :=
  match e with Zpos p => pow_pos_mod b p m | _ => 1 mod m end.

Definition _D : Z := Eval vm_compute in (-121665 * pow_mod 121666 (_Q - 2) _Q) mod _Q.
Definition _I : Z := Eval vm_compute in pow_mod 2 ((_Q - 1) / 4) _Q.

Definition _inv (x : Z) : Z := pow_mod x (_Q - 2) _Q.

Definition _x_recover (y : Z) : option Z :=
  let xx := ((y * y - 1) * _inv ((_D * y * y + 1) mod _Q)) mod _Q in
  let x := pow_mod xx ((_Q + 3) / 8) _Q in
  let x := if negb ((x * x - xx) mod _Q =? 0) then (x * _I) mod _Q else x in
  if negb ((x * x - xx) mod _Q =? 0) then None else Some x.

Definition is_on_curve (compressed : bytes) : result bool :=
  if negb (zlen compressed =? 32)
  then Raise (ValueError "compressed point must be exactly 32 bytes")
  else
    let y := Z.land (int_from_bytes_little compressed) (2 ^ 255 - 1) in
    if _Q <=? y then Ok false else Ok (bool_decide (is_Some (_x_recover y))).

Lemma pow_pos_mod_spec b e m : 0 < m → pow_pos_mod b e m = (b ^ Zpos e) mod m.
Proof.
  intros Hm. induction e as [e IH|e IH|]; cbn [pow_pos_mod]; rewrite ?IH, <- ?Z.mul_mod by lia.
  - replace (Zpos e~1) with (Zpos e + Zpos e + 1) by lia.
    by rewrite Z.mul_mod_idemp_l, !Z.pow_add_r, Z.pow_1_r by lia.
  - replace (Zpos e~0) with (Zpos e + Zpos e) by lia. by rewrite Z.pow_add_r by lia.
  - by rewrite Z.pow_1_r.
Qed.

(** [pow] computes the power. *)
Lemma pow_mod_spec b e m : 0 < m → 0 ≤ e → pow_mod b e m = (b ^ e) mod m.
Proof.
  intros Hm He. destruct e as [|p|p]; [done|by apply pow_pos_mod_spec|lia].
Qed.

(** A recovered [x] is a root of the curve equation's [x^2]. *)
Lemma x_recover_sound y x :
  _x_recover y = Some x →
  (x * x - (y * y - 1) * _inv ((_D * y * y + 1) mod _Q)) mod _Q = 0.
Proof.
  unfold _x_recover. set (xx := ((y * y - 1) * _) mod _Q).
  set (x' := if negb _ then _ else pow_mod _ _ _). clearbody x'.
  destruct (negb _) eqn:E; [done|]. intros [= ->]. bools.
  revert E. subst xx. by rewrite Zminus_mod_idemp_r.
Qed.

(** An encoding past the modulus and a short one. *)
Example off_curve :
  is_on_curve (repeat 255 32) = Ok false ∧ is_on_curve (repeat 1 31) = Raise (ValueError "compressed point must be exactly 32 bytes").
Proof. split; by vm_compute. Qed.
