(* ===== verification/SignerEnforcer.v ===== *)
(** * The signer's enforcement: [aats/execution/signer_enforcer.py]

    C0..C5 re-derived from the transaction bytes, the rolling velocity ledger,
    the own-ATA derivation and the boot-time policy loader.  The native
    [solders] backend is third-party: a parameter of the derivation. *)

From Stdlib Require Import String Ascii.
From S2P Require Import Prelude Bytes RiskContracts Wire Sha256 Ed25519.

(** [SignerRefused(reason=...)] *)
Definition SignerRefused (reason : string) : exn := CustomError "SignerRefused" reason.

(** ** Clocks

    [now_s] is a [float] from the monotonic clock.  The ledger only subtracts
    the window width and compares. *)
Class Clock : Type := {
  time : Type;
  time_minus : time → Z → time;
  time_gtb : time → time → bool
}.

(** Readings are ordered, and a later cutoff keeps fewer entries. *)
Class ClockLaws (C : Clock) : Prop := {
  time_le_trans : ∀ t u v : time,
    time_gtb t u = false → time_gtb u v = false → time_gtb t v = false;
  cutoff_mono : ∀ (t now now' : time) (w : Z),
    time_gtb now now' = false →
    time_gtb t (time_minus now' w) = true → time_gtb t (time_minus now w) = true;
  cutoff_before : ∀ (t : time) (w : Z), 0 < w → time_gtb t (time_minus t w) = true
}.

(** Python's clock: binary64 seconds. *)
#[export] Instance float_clock : Clock := {|
  time := float;
  time_minus t w := SFsub 53 1024 t (binary_normalize 53 1024 w 0 false);
  time_gtb t u := fltb u t
|}.

(** Integer ticks. *)
Definition Z_clock : Clock := {| time := Z; time_minus := Z.sub; time_gtb := Z.gtb |}.

#[export] Instance Z_clock_laws : ClockLaws Z_clock.
Proof. split; cbn; intros *; rewrite !Z.gtb_ltb, ?Z.ltb_ge, ?Z.ltb_lt; lia. Qed.

(** ** Policy *)

(** [max_sol_lamports] of a decoder. *)
Definition SpendDecoder : Type := bytes → result Z.

Definition _UnverifiedSpendDecoder (allowlist_name : string) : SpendDecoder := λ _,
  Raise (ValueError ("venue_spend_decoders['" +:+ allowlist_name +:+ "'] is UNVERIFIED")).

Record SignerPolicy : Type := mk_policy {
  per_tx_cap_lamports : Z;
  aggregate_cap_lamports : Z;
  window_seconds : Z;
  max_sign_count : Z;
  allowed_program_ids : gset string;
  venue_program_ids : gset string;
  pinned_tip_accounts : gset string;
  ata_program_id : string;
  spl_token_program_id : string;
  venue_spend_decoders : gmap string SpendDecoder;
  system_program_id : string;
  compute_budget_program_id : string
}.

(** ** VelocityLedger *)

Section Ledger.
Context {C : Clock}.

Record VelocityLedger : Type := mk_ledger {
  _window_seconds : Z;
  _entries : list (time * Z)
}.

Definition VelocityLedger_init (w : Z) : result VelocityLedger :=
  if w <=? 0 then Raise (ValueError "window_seconds must be positive") else Ok (mk_ledger w []).

Definition _prune (now_s : time) (l : VelocityLedger) : VelocityLedger :=
  let cutoff := time_minus now_s (_window_seconds l) in
  mk_ledger (_window_seconds l) (filter (λ e, time_gtb e.1 cutoff = true) (_entries l)).

(** The verdict and the pruned ledger ([_prune] assigns [self._entries]). *)
Definition would_exceed (now_s : time) (spend agg_cap max_count : Z) (l : VelocityLedger)
    : option string * VelocityLedger :=
  let l := _prune now_s l in
  let window_spend := zsum (_entries l).*2 in
  (if agg_cap <? window_spend + spend then Some "signer_aggregate_cap_exceeded"
   else if max_count <? zlen (_entries l) + 1 then Some "signer_velocity_exceeded"
   else None, l).

Definition record (now_s : time) (spend : Z) (l : VelocityLedger) : VelocityLedger :=
  let l := _prune now_s l in
  mk_ledger (_window_seconds l) (_entries l ++ [(now_s, spend)]).
End Ledger.

(** ** Instruction decoding *)

Definition _SYSTEM_CREATE_ACCOUNT : Z := 0.
Definition _SYSTEM_TRANSFER : Z := 2.
Definition _SYSTEM_TRANSFER_WITH_SEED : Z := 11.
Definition _TOKEN_APPROVE : Z := 4.
Definition _TOKEN_APPROVE_CHECKED : Z := 13.
Definition _UNBOUNDED_APPROVAL_THRESHOLD : Z := 2 ^ 63.
Definition _ATA_CACHE_MAX_ENTRIES : nat := Z.to_nat 4096.
Definition _COMPUTE_BUDGET_SET_LIMIT_TAG : Z := 2.
Definition _COMPUTE_BUDGET_SET_PRICE_TAG : Z := 3.
Definition _PROTOCOL_MAX_CU_LIMIT : Z := 1400000.
Definition _MICROLAMPORTS_PER_LAMPORT : Z := 1000000.

Definition _resolve (keys : list string) (i : Z) : result string :=
  if (i <? 0) || (zlen keys <=? i) then Raise (ValueError "account index out of range")
  else index keys i.

(** Source, recipient and lamports, the accounts taken at [src] and [dst]. *)
Definition transfer_of (keys : list string) (ix : ParsedInstruction) (nacc src dst : Z)
    : result (option (string * string * Z)) :=
  if (zlen (data ix) <? 12) || (zlen (account_indices ix) <? nacc)
  then Raise (ValueError "malformed System transfer instruction")
  else
    let lamports := int_from_bytes_little (slice (data ix) 4 12) in
    i ← index (account_indices ix) src;
    s ← _resolve keys i;
    j ← index (account_indices ix) dst;
    d ← _resolve keys j;
    Ok (Some (s, d, lamports)).

Definition _decode_system_transfer (ix : ParsedInstruction) (keys : list string)
    : result (option (string * string * Z)) :=
  if zlen (data ix) <? 4 then Ok None
  else
    let discriminant := int_from_bytes_little (slice (data ix) 0 4) in
    if discriminant =? _SYSTEM_TRANSFER then transfer_of keys ix 2 0 1
    else if discriminant =? _SYSTEM_CREATE_ACCOUNT then transfer_of keys ix 2 0 1
    else if discriminant =? _SYSTEM_TRANSFER_WITH_SEED then transfer_of keys ix 3 0 2
    else Ok None.

Definition _check_approval_hygiene (ix : ParsedInstruction) (keys : list string)
    (policy : SignerPolicy) : result unit :=
  if zlen (data ix) <? 1 then Ok tt
  else
    tag ← index (data ix) 0;
    if negb ((tag =? _TOKEN_APPROVE) || (tag =? _TOKEN_APPROVE_CHECKED)) then Ok tt
    else if zlen (data ix) <? 9 then Raise (SignerRefused "signer_tx_unparseable")
    else
      let amount := int_from_bytes_little (slice (data ix) 1 9) in
      let delegate_slot := if tag =? _TOKEN_APPROVE then 1 else 2 in
      if zlen (account_indices ix) <=? delegate_slot then Raise (SignerRefused "signer_tx_unparseable")
      else
        i ← index (account_indices ix) delegate_slot;
        delegate ← (match _resolve keys i with
                    | Ok d => Ok d
                    | Raise (ValueError _) => Raise (SignerRefused "signer_tx_unparseable")
                    | Raise e => Raise e
                    end);
        if (_UNBOUNDED_APPROVAL_THRESHOLD <=? amount) && bool_decide (delegate ∉ venue_program_ids policy)
        then Raise (SignerRefused "signer_unbounded_approval") else Ok tt.

Inductive cb_kind : Type := CbLimit | CbPrice.

Definition _decode_compute_budget_ix (ix : ParsedInstruction) : result (option (cb_kind * Z)) :=
  if zlen (data ix) <? 1 then Ok None
  else
    tag ← index (data ix) 0;
    if tag =? _COMPUTE_BUDGET_SET_LIMIT_TAG then
      if zlen (data ix) <? 5 then Raise (ValueError "malformed SetComputeUnitLimit")
      else Ok (Some (CbLimit, int_from_bytes_little (slice (data ix) 1 5)))
    else if tag =? _COMPUTE_BUDGET_SET_PRICE_TAG then
      if zlen (data ix) <? 9 then Raise (ValueError "malformed SetComputeUnitPrice")
      else Ok (Some (CbPrice, int_from_bytes_little (slice (data ix) 1 9)))
    else Ok None.

(** ** ATA derivation *)

Definition _PDA_MARKER : bytes := encode "ProgramDerivedAddress".

Definition _create_program_address (seeds : list bytes) (program_id : bytes) : result bytes :=
  if existsb (λ s, 32 <? zlen s) seeds then Raise (ValueError "PDA seed exceeds 32 bytes")
  else
    let candidate := sha256 (concat seeds ++ program_id ++ _PDA_MARKER) in
    on ← is_on_curve candidate;
    if (on : bool) then Raise (ValueError "candidate address is on-curve") else Ok candidate.

(** [for bump in range(255, -1, -1)], with [n] = bump + 1. *)
Fixpoint find_bump (n : nat) (seeds : list bytes) (program_id : bytes) : result (bytes * Z) :=
  match n with
  | O => Raise (ValueError "unable to find a valid program address (exhausted all 256 bump seeds)")
  | S bump =>
      match _create_program_address (seeds ++ [[Z.of_nat bump]]) program_id with
      | Ok a => Ok (a, Z.of_nat bump)
      | Raise (ValueError _) => find_bump bump seeds program_id
      | Raise e => Raise e
      end
  end.
Definition _find_program_address (seeds : list bytes) (program_id : bytes) : result (bytes * Z) :=
  find_bump 256 seeds program_id.

Definition derive_ata (wallet mint ata_program spl_token : string) : result string :=
  wallet_b ← b58decode wallet;
  token_b ← b58decode spl_token;
  mint_b ← b58decode mint;
  program_b ← b58decode ata_program;
  if negb (forallb (λ b, zlen b =? 32) [wallet_b; token_b; mint_b; program_b])
  then Raise (ValueError "PDA inputs must each decode to 32 bytes")
  else
    '(addr, _) ← _find_program_address [wallet_b; token_b; mint_b] program_b;
    Ok (b58encode addr).

Section Enforce.
Context {C : Clock}.
(** [solders]' native derivation when importable ([None] otherwise); it returns
    [None] on an invalid key and never raises. *)
Context (solders : option (string → string → string → string → option string)).

Definition _try_derive_ata (wallet mint ata_program spl_token : string) : result (option string) :=
  match solders with
  | Some native => Ok (native wallet mint ata_program spl_token)
  | None =>
      match derive_ata wallet mint ata_program spl_token with
      | Ok a => Ok (Some a)
      | Raise (ValueError _) => Ok None
      | Raise e => Raise e
      end
  end.

(** ** The Enforcer *)

Record Enforcer : Type := mk_enforcer {
  _policy : SignerPolicy;
  _ledger : VelocityLedger;
  _price_cache : option (bytes * string * ParsedTx * Z);
  _ata_cache : gmap (string * string) (option string)
}.

Definition Enforcer_init (policy : SignerPolicy) (ledger : VelocityLedger) : Enforcer :=
  mk_enforcer policy ledger None ∅.

Definition set_ledger (l : VelocityLedger) (e : Enforcer) : Enforcer :=
  mk_enforcer (_policy e) l (_price_cache e) (_ata_cache e).
Definition set_price_cache (c : option (bytes * string * ParsedTx * Z)) (e : Enforcer) : Enforcer :=
  mk_enforcer (_policy e) (_ledger e) c (_ata_cache e).
Definition set_ata_cache (c : gmap (string * string) (option string)) (e : Enforcer) : Enforcer :=
  mk_enforcer (_policy e) (_ledger e) (_price_cache e) c.

(** The candidate loop of [_is_own_ata]. *)
Fixpoint own_ata_loop (recipient wallet : string) (keys : list string) : M Enforcer bool :=
  match keys with
  | [] => mret false
  | candidate_mint :: keys' =>
      e ← get;
      let cache_key := (wallet, candidate_mint) in
      ata ← (match _ata_cache e !! cache_key with
             | Some a => mret a
             | None =>
                 a ← lift (_try_derive_ata wallet candidate_mint
                             (ata_program_id (_policy e)) (spl_token_program_id (_policy e)));
                 modify (λ e, set_ata_cache (<[cache_key := a]> (_ata_cache e)) e);;
                 mret a
             end);
      if bool_decide (ata = Some recipient) then mret true
      else own_ata_loop recipient wallet keys'
  end.

Definition _is_own_ata (recipient wallet : string) (keys : list string) : M Enforcer bool :=
  modify (λ e, if (_ATA_CACHE_MAX_ENTRIES <=? size (_ata_cache e))%nat then set_ata_cache ∅ e else e);;
  own_ata_loop recipient wallet keys.

(** Check C1: the first instruction outside the allowlist refuses. *)
Definition check_allowlist (p : SignerPolicy) (ixs : list ParsedInstruction) : result unit :=
  if forallb (λ ix, bool_decide (program_id ix ∈ allowed_program_ids p)) ixs then Ok tt
  else Raise (SignerRefused "signer_program_not_allowlisted").

(** [except ValueError -> signer_tx_unparseable] *)
Definition or_unparseable {A} (r : result A) : result A :=
  match r with
  | Raise (ValueError _) => Raise (SignerRefused "signer_tx_unparseable")
  | r => r
  end.

(** Check C2: the System-transfer loop. *)
Fixpoint system_spend (p : SignerPolicy) (wallet : string) (keys : list string)
    (ixs : list ParsedInstruction) (acc : Z) : M Enforcer Z :=
  match ixs with
  | [] => mret acc
  | ix :: ixs' =>
      if negb (bool_decide (program_id ix = system_program_id p))
      then system_spend p wallet keys ixs' acc
      else
        transfer ← lift (or_unparseable (_decode_system_transfer ix keys));
        match transfer with
        | None => system_spend p wallet keys ixs' acc
        | Some (source, recipient, lamports) =>
            if negb (bool_decide (source = wallet)) then system_spend p wallet keys ixs' acc
            else
              own ← (if bool_decide (recipient ∈ pinned_tip_accounts p ∪ {[wallet]}) then mret true
                     else _is_own_ata recipient wallet keys);
              if negb own then raise (SignerRefused "signer_unpinned_transfer")
              else system_spend p wallet keys ixs' (acc + lamports)
        end
  end.

(** Check C3: the venue-spend loop. *)
Fixpoint venue_spend (p : SignerPolicy) (ixs : list ParsedInstruction) (acc : Z) : result Z :=
  match ixs with
  | [] => Ok acc
  | ix :: ixs' =>
      if bool_decide (program_id ix ∉ venue_program_ids p) then venue_spend p ixs' acc
      else match venue_spend_decoders p !! program_id ix with
           | None => Raise (SignerRefused "signer_spend_undecodable")
           | Some decoder =>
               match decoder (data ix) with
               | Ok s => venue_spend p ixs' (acc + s)
               | Raise (KeyError _) | Raise (ValueError _) =>
                   Raise (SignerRefused "signer_spend_undecodable")
               | Raise e => Raise e
               end
           end
  end.

(** Check C3: the ComputeBudget loop: the largest limit and price seen. *)
Fixpoint compute_budget (p : SignerPolicy) (ixs : list ParsedInstruction)
    (limit : option Z) (price : Z) : result (option Z * Z) :=
  match ixs with
  | [] => Ok (limit, price)
  | ix :: ixs' =>
      if negb (bool_decide (program_id ix = compute_budget_program_id p))
      then compute_budget p ixs' limit price
      else
        decoded ← or_unparseable (_decode_compute_budget_ix ix);
        match decoded with
        | None => compute_budget p ixs' limit price
        | Some (CbLimit, v) =>
            compute_budget p ixs' (Some (match limit with None => v | Some l => Z.max l v end)) price
        | Some (CbPrice, v) => compute_budget p ixs' limit (Z.max price v)
        end
  end.

Definition priority_fee (limit : option Z) (price : Z) : Z :=
  if 0 <? price then
    let effective_cu_limit := default _PROTOCOL_MAX_CU_LIMIT limit in
    let numerator := effective_cu_limit * price in
    - ((- numerator) / _MICROLAMPORTS_PER_LAMPORT)
  else 0.

(** C0..C3 on a cache miss; a success fills the cache. *)
Definition price_fresh (tx_bytes : bytes) (wallet : string) : M Enforcer (ParsedTx * Z) :=
  e ← get;
  let p := _policy e in
  parsed ← lift (or_unparseable (parse_transaction tx_bytes));
  (if negb (bool_decide (payer parsed = wallet))
   then raise (SignerRefused "signer_payer_mismatch") else mret tt);;
  (if has_address_table_lookups parsed
   then raise (SignerRefused "signer_alt_unresolvable_security_account") else mret tt);;
  lift (check_allowlist p (instructions parsed));;
  system ← system_spend p wallet (account_keys parsed) (instructions parsed) 0;
  venue ← lift (venue_spend p (instructions parsed) 0);
  '(limit, price) ← lift (compute_budget p (instructions parsed) None 0);
  let total_spend := system + venue + priority_fee limit price in
  (if per_tx_cap_lamports p <? total_spend
   then raise (SignerRefused "signer_per_tx_cap_exceeded") else mret tt);;
  modify (set_price_cache (Some (tx_bytes, wallet, parsed, total_spend)));;
  mret (parsed, total_spend).

Definition _parse_and_price (tx_bytes : bytes) (wallet : string) : M Enforcer (ParsedTx * Z) :=
  e ← get;
  match _price_cache e with
  | Some (ctx, cw, parsed, total) =>
      if bool_decide (ctx = tx_bytes) && bool_decide (cw = wallet) then mret (parsed, total)
      else price_fresh tx_bytes wallet
  | None => price_fresh tx_bytes wallet
  end.

(** C5 over the SPL-Token instructions. *)
Fixpoint check_approvals (p : SignerPolicy) (keys : list string) (ixs : list ParsedInstruction)
    : result unit :=
  match ixs with
  | [] => Ok tt
  | ix :: ixs' =>
      (if bool_decide (program_id ix = spl_token_program_id p)
       then _check_approval_hygiene ix keys p else Ok tt);;
      check_approvals p keys ixs'
  end.

Definition enforce (tx_bytes : bytes) (wallet : string) (now_s : time) : M Enforcer unit :=
  '(parsed, total_spend) ← _parse_and_price tx_bytes wallet;
  e ← get;
  let '(violation, l) := would_exceed now_s total_spend (aggregate_cap_lamports (_policy e))
                           (max_sign_count (_policy e)) (_ledger e) in
  modify (set_ledger l);;
  match violation with
  | Some v => raise (SignerRefused v)
  | None => lift (check_approvals (_policy e) (account_keys parsed) (instructions parsed))
  end.

Definition compute_spend_lamports (tx_bytes : bytes) (wallet : string) : M Enforcer Z :=
  '(_, total_spend) ← _parse_and_price tx_bytes wallet;
  mret total_spend.
End Enforce.

(** ** The boot-time policy loader *)

(** The parsed JSON documents, field by field as the loader reads them. *)
Record allow_entry : Type := mk_entry {
  ae_name : string;
  ae_program_id : string;
  ae_category : option string;
  ae_status : option string;
  ae_candidate : bool
}.
Record decoder_entry : Type := mk_dec_entry {
  de_allowlist_name : string;
  de_status : option string;
  de_discriminator_hex : option string
}.
Record policy_doc : Type := mk_doc {
  pd_per_tx_cap : Z;
  pd_aggregate_cap : Z;
  pd_window_seconds : Z;
  pd_max_sign_count : Z;
  pd_decoders : list decoder_entry
}.

(** The accumulators of the allowlist loop. *)
Record load_acc : Type := mk_acc {
  la_allowed : gset string;
  la_venue : gset string;
  la_by_name : gmap string string;
  la_system : string;
  la_ata : string;
  la_spl : string;
  la_cb : string
}.

Definition is_live (live_statuses : list string) (entry : allow_entry) : bool :=
  match ae_status entry with
  | Some s => bool_decide (s ∈ live_statuses)
  | None => negb (ae_candidate entry)
  end.

Definition load_entry (live_statuses : list string) (a : load_acc) (entry : allow_entry) : load_acc :=
  let name := ae_name entry in
  let pid := ae_program_id entry in
  let by_name := <[name := pid]> (la_by_name a) in
  if negb (is_live live_statuses entry)
  then mk_acc (la_allowed a) (la_venue a) by_name (la_system a) (la_ata a) (la_spl a) (la_cb a)
  else
    let is_ n := bool_decide (name = n) in
    mk_acc ({[pid]} ∪ la_allowed a)
      (if bool_decide (ae_category entry = Some "venue") then {[pid]} ∪ la_venue a else la_venue a)
      by_name
      (if is_ "system_program" then pid else la_system a)
      (if is_ "associated_token_account_program" then pid else la_ata a)
      (if is_ "spl_token_program" then pid else la_spl a)
      (if is_ "compute_budget_program" then pid else la_cb a).

Definition load_allowlist (live_statuses : list string) (entries : list allow_entry) : load_acc :=
  foldl (load_entry live_statuses) (mk_acc ∅ ∅ ∅ "" "" "" "") entries.

Fixpoint load_decoders (by_name : gmap string string) (ds : list decoder_entry)
    (acc : gmap string SpendDecoder) : result (gmap string SpendDecoder) :=
  match ds with
  | [] => Ok acc
  | d :: ds' =>
      match by_name !! de_allowlist_name d with
      | None => load_decoders by_name ds' acc
      | Some pid =>
          if bool_decide (de_status d = Some "unverified")
             || bool_decide (de_discriminator_hex d = Some "VERIFY_AT_BUILD")
          then load_decoders by_name ds' (<[pid := _UnverifiedSpendDecoder (de_allowlist_name d)]> acc)
          else Raise (CustomError "NotImplementedError" (de_allowlist_name d))
      end
  end.

Definition load_signer_policy (admit_only_status : list string) (allowed_programs : list allow_entry)
    (doc : policy_doc) (pinned : gset string) : result SignerPolicy :=
  let a := load_allowlist admit_only_status allowed_programs in
  if existsb (λ s, bool_decide (s = "")) [la_system a; la_ata a; la_spl a; la_cb a]
  then Raise (ValueError "program-allowlist.json is missing a required core program")
  else
    decoders ← load_decoders (la_by_name a) (pd_decoders doc) ∅;
    if 100000000 <? pd_per_tx_cap doc then Raise (ValueError "per_tx_cap_lamports exceeds the floor")
    else if 500000000 <? pd_aggregate_cap doc
    then Raise (ValueError "aggregate_cap_lamports exceeds the floor")
    else Ok (mk_policy (pd_per_tx_cap doc) (pd_aggregate_cap doc) (pd_window_seconds doc)
               (pd_max_sign_count doc) (la_allowed a) (la_venue a) pinned (la_ata a) (la_spl a)
               decoders (la_system a) (la_cb a)).

(** ** Total functions of the own-ATA search *)

Lemma b58decode_value_error s : value_error (b58decode s).
Proof.
  unfold b58decode. apply value_error_bind; [|done].
  generalize 0. induction (list_ascii_of_string s) as [|c cs IH]; intros n; cbn [b58_loop]; [done|].
  destruct (_B58_INDEX c); [apply IH|done].
Qed.

Lemma find_bump_value_error n seeds pid : value_error (find_bump n seeds pid).
Proof.
  induction n as [|n IH]; cbn [find_bump]; [done|].
  assert (value_error (_create_program_address (seeds ++ [[Z.of_nat n]]) pid)) as Hc.
  { unfold _create_program_address. destruct (existsb _ _); [done|].
    unfold is_on_curve, zlen. rewrite sha256_length.
    destruct (_Q <=? _); [done|]. cbn. by destruct (bool_decide _). }
  destruct (_create_program_address _ _) as [a|[]]; try done.
Qed.

Lemma derive_ata_value_error w m a t : value_error (derive_ata w m a t).
Proof.
  unfold derive_ata. repeat (apply value_error_bind; [apply b58decode_value_error|]; intros ? _).
  destruct (negb _); [done|]. apply value_error_bind; [apply find_bump_value_error|]. by intros [].
Qed.

Section Correctness.
Context {C : Clock}.
Context (solders : option (string → string → string → string → option string)).

Lemma try_derive_ok w m a t : ∃ r, _try_derive_ata solders w m a t = Ok r.
Proof.
  unfold _try_derive_ata. destruct solders as [f|]; [eauto|].
  pose proof (derive_ata_value_error w m a t). destruct (derive_ata w m a t) as [|[]]; eauto; done.
Qed.

(** ** The cache-free specification *)

(** [recipient] is the wallet's ATA for one of the transaction's keys. *)
Definition is_own_ata_spec (p : SignerPolicy) (recipient wallet : string) (keys : list string) : bool :=
  existsb (λ k, bool_decide (_try_derive_ata solders wallet k (ata_program_id p) (spl_token_program_id p)
                             = Ok (Some recipient))) keys.

Fixpoint system_spend_spec (p : SignerPolicy) (wallet : string) (keys : list string)
    (ixs : list ParsedInstruction) (acc : Z) : result Z :=
  match ixs with
  | [] => Ok acc
  | ix :: ixs' =>
      if negb (bool_decide (program_id ix = system_program_id p))
      then system_spend_spec p wallet keys ixs' acc
      else
        transfer ← or_unparseable (_decode_system_transfer ix keys);
        match transfer with
        | None => system_spend_spec p wallet keys ixs' acc
        | Some (source, recipient, lamports) =>
            if negb (bool_decide (source = wallet)) then system_spend_spec p wallet keys ixs' acc
            else if (if bool_decide (recipient ∈ pinned_tip_accounts p ∪ {[wallet]}) then true
                     else is_own_ata_spec p recipient wallet keys)
            then system_spend_spec p wallet keys ixs' (acc + lamports)
            else Raise (SignerRefused "signer_unpinned_transfer")
        end
  end.

Definition price_spec (p : SignerPolicy) (tx : bytes) (wallet : string) : result (ParsedTx * Z) :=
  parsed ← or_unparseable (parse_transaction tx);
  if negb (bool_decide (payer parsed = wallet)) then Raise (SignerRefused "signer_payer_mismatch")
  else if has_address_table_lookups parsed
  then Raise (SignerRefused "signer_alt_unresolvable_security_account")
  else
    _ ← check_allowlist p (instructions parsed);
    system ← system_spend_spec p wallet (account_keys parsed) (instructions parsed) 0;
    venue ← venue_spend p (instructions parsed) 0;
    lp ← compute_budget p (instructions parsed) None 0;
    let total := system + venue + priority_fee lp.1 lp.2 in
    if per_tx_cap_lamports p <? total then Raise (SignerRefused "signer_per_tx_cap_exceeded")
    else Ok (parsed, total).

Definition enforce_spec (p : SignerPolicy) (l : VelocityLedger) (tx : bytes) (wallet : string)
    (now_s : time) : result unit :=
  pt ← price_spec p tx wallet;
  match (would_exceed now_s pt.2 (aggregate_cap_lamports p) (max_sign_count p) l).1 with
  | Some v => Raise (SignerRefused v)
  | None => check_approvals p (account_keys pt.1) (instructions pt.1)
  end.

(** Both caches hold only what a fresh computation would return. *)
Record caches_valid (e : Enforcer) : Prop := {
  cv_ata : ∀ w k a, _ata_cache e !! (w, k) = Some a →
    _try_derive_ata solders w k (ata_program_id (_policy e)) (spl_token_program_id (_policy e)) = Ok a;
  cv_price : ∀ tx w parsed total, _price_cache e = Some (tx, w, parsed, total) →
    price_spec (_policy e) tx w = Ok (parsed, total)
}.

(** [e'] differs from [e] in its caches at most. *)
Definition same_but_caches (e e' : Enforcer) : Prop :=
  _policy e' = _policy e ∧ _ledger e' = _ledger e.

(** A step whose result is the pure [r] and that touches valid caches only. *)
Definition transparent {A} (m : M Enforcer A) (r : Enforcer → result A) : Prop :=
  ∀ e, caches_valid e →
    (m e).1 = r e ∧ caches_valid (m e).2 ∧ same_but_caches e (m e).2.

Lemma transparent_lift {A} (r : result A) : transparent (lift r) (λ _, r).
Proof. intros e He. by split_and!. Qed.

Lemma transparent_bind {A B} (m : M Enforcer A) r (f : A → M Enforcer B) g :
  transparent m r → (∀ a, transparent (f a) (g a)) →
  (∀ a e e', same_but_caches e e' → g a e' = g a e) →
  transparent (m ≫= f) (λ e, r e ≫= λ a, g a e).
Proof.
  intros Hm Hf Hg e He. destruct (Hm e He) as (H1 & H2 & H3). unfold mbind, M_bind.
  destruct (m e) as [[a|x] e1]; cbn in *; rewrite <- H1; cbn; [|done].
  destruct (Hf a e1 H2) as (F1 & F2 & F3). rewrite F1, (Hg a e e1 H3). split; [done|]. split; [done|].
  destruct H3, F3. split; congruence.
Qed.

Lemma caches_set_ata e k a w :
  caches_valid e →
  _try_derive_ata solders w k (ata_program_id (_policy e)) (spl_token_program_id (_policy e)) = Ok a →
  caches_valid (set_ata_cache (<[(w, k) := a]> (_ata_cache e)) e).
Proof.
  intros [Ha Hp] Hd. split; cbn; [|done]. intros w' k' a' H.
  destruct (decide ((w, k) = (w', k'))) as [[= <- <-]|Hne].
  - rewrite lookup_insert_eq in H. injection H as <-. done.
  - rewrite lookup_insert_ne in H by done. by apply Ha.
Qed.

Lemma own_ata_loop_transparent recipient wallet keys :
  transparent (own_ata_loop solders recipient wallet keys)
    (λ e, Ok (is_own_ata_spec (_policy e) recipient wallet keys)).
Proof.
  induction keys as [|k keys IH]; intros e He; [by split_and!|].
  cbn [own_ata_loop is_own_ata_spec existsb]. mstep.
  destruct (try_derive_ok wallet k (ata_program_id (_policy e)) (spl_token_program_id (_policy e)))
    as [a Ha]. rewrite Ha.
  destruct (_ata_cache e !! (wallet, k)) as [a'|] eqn:Ec.
  - pose proof (cv_ata e He _ _ _ Ec) as H. assert (a' = a) as -> by congruence. mstep.
    destruct (IH e He) as (I1 & I2 & I3).
    destruct (decide (a = Some recipient)) as [->|Hne].
    + rewrite !bool_decide_eq_true_2 by done. by split_and!.
    + rewrite !bool_decide_eq_false_2 by congruence. cbn. by split_and!.
  - mstep. pose proof (caches_set_ata e k a wallet He Ha) as Hv.
    destruct (IH _ Hv) as (I1 & I2 & I3).
    destruct (decide (a = Some recipient)) as [->|Hne].
    + rewrite !bool_decide_eq_true_2 by done. by split_and!.
    + rewrite !bool_decide_eq_false_2 by congruence. cbn. by split_and!.
Qed.

Lemma is_own_ata_transparent recipient wallet keys :
  transparent (_is_own_ata solders recipient wallet keys)
    (λ e, Ok (is_own_ata_spec (_policy e) recipient wallet keys)).
Proof.
  intros e He. unfold _is_own_ata. mstep. destruct (_ <=? _)%nat.
  - apply (own_ata_loop_transparent recipient wallet keys (set_ata_cache ∅ e)).
    destruct He as [Ha Hp]. split; cbn; [|done]. intros w k a. by rewrite lookup_empty.
  - by apply own_ata_loop_transparent.
Qed.

Lemma system_spend_transparent wallet keys ixs acc p :
  ∀ e, caches_valid e → _policy e = p →
  (system_spend solders p wallet keys ixs acc e).1 = system_spend_spec p wallet keys ixs acc ∧
  caches_valid (system_spend solders p wallet keys ixs acc e).2 ∧
  same_but_caches e (system_spend solders p wallet keys ixs acc e).2.
Proof.
  revert acc. induction ixs as [|ix ixs IH]; intros acc e He Hp; cbn [system_spend system_spend_spec]; [by split_and!|].
  destruct (negb _); [by apply IH|].
  mstep. destruct (or_unparseable _) as [[[[src rcp] l]|]|x]; mstep; [|by apply IH|by split_and!].
  destruct (negb _); [by apply IH|].
  destruct (bool_decide (rcp ∈ _)); mstep; [by apply IH|].
  destruct (is_own_ata_transparent rcp wallet keys e He) as (I1 & I2 & I3). rewrite Hp in I1.
  destruct (_is_own_ata solders rcp wallet keys e) as [r e1]. cbn in *. rewrite I1.
  destruct (is_own_ata_spec p rcp wallet keys); mstep; [|by split_and!].
  destruct I3 as [Hpol Hled]. destruct (IH (acc + l) e1 I2 ltac:(congruence)) as (J1 & J2 & J3 & J4).
  split; [done|]. split; [done|]. split; congruence.
Qed.

#[local] Arguments price_spec : simpl never.
#[local] Arguments parse_transaction : simpl never.
#[local] Arguments check_allowlist : simpl never.

(** A cache miss computes the specification and fills the cache with it. *)
Lemma price_fresh_transparent tx wallet :
  transparent (price_fresh solders tx wallet) (λ e, price_spec (_policy e) tx wallet).
Proof.
  intros e He. unfold price_fresh. mstep.
  pose proof (eq_refl (price_spec (_policy e) tx wallet)) as HR. unfold price_spec at 1 in HR.
  destruct (or_unparseable (parse_transaction tx)) as [parsed|x]; mstep; [|by split_and!].
  destruct (system_spend_transparent wallet (account_keys parsed) (instructions parsed) 0 (_policy e) e He eq_refl)
    as (S1 & S2 & S3).
  destruct (negb _); mstep; [by split_and!|].
  destruct (has_address_table_lookups parsed); mstep; [by split_and!|].
  destruct (check_allowlist _ _); mstep; [|by split_and!].
  destruct (system_spend solders _ _ _ _ _ e) as [r e1]. cbn in S1, S2, S3. rewrite <- S1 in HR.
  destruct r as [sys|]; mstep; [|by split_and!].
  destruct (venue_spend _ _ _) as [ven|]; mstep; [|by split_and!].
  destruct (compute_budget _ _ _ _) as [[lim pri]|]; mstep; [|by split_and!].
  destruct (_ <? _); mstep; [by split_and!|].
  split; [done|]. destruct S3 as [Hpol Hled]. split; [|by split].
  destruct S2 as [Ha Hpc]. split; [done|]. cbn. intros ? ? ? ? [= <- <- <- <-]. by rewrite Hpol.
Qed.

Lemma parse_and_price_transparent tx wallet :
  transparent (_parse_and_price solders tx wallet) (λ e, price_spec (_policy e) tx wallet).
Proof.
  intros e He. unfold _parse_and_price. mstep.
  destruct (_price_cache e) as [[[[ctx cw] parsed] total]|] eqn:Ec; [|by apply price_fresh_transparent].
  destruct (bool_decide (ctx = tx) && bool_decide (cw = wallet)) eqn:Eb;
    [|by apply price_fresh_transparent].
  bools. subst. mstep. rewrite (cv_price e He _ _ _ _ Ec). by split_and!.
Qed.

(** What [enforce] leaves behind: valid caches and a ledger that was at most
    pruned. *)
Lemma enforce_transparent tx wallet now_s e :
  caches_valid e →
  let '(r, e') := enforce solders tx wallet now_s e in
  r = enforce_spec (_policy e) (_ledger e) tx wallet now_s ∧
  caches_valid e' ∧ _policy e' = _policy e ∧
  _ledger e' = (if is_ok (price_spec (_policy e) tx wallet) then _prune now_s (_ledger e) else _ledger e).
Proof.
  intros He. unfold enforce, enforce_spec.
  destruct (parse_and_price_transparent tx wallet e He) as (P1 & P2 & Hpol & Hled). mstep.
  destruct (_parse_and_price solders tx wallet e) as [r e1]. cbn in *. subst r.
  destruct (price_spec (_policy e) tx wallet) as [[parsed total]|x]; mstep; [|by split_and!].
  rewrite Hpol, Hled. unfold would_exceed; cbn.
  assert (caches_valid (set_ledger (_prune now_s (_ledger e)) e1)) as Hv.
  { destruct P2. by split. }
  destruct (_ <? _); mstep; [by split_and!|]. destruct (_ <? _); mstep; by split_and!.
Qed.
End Correctness.

(** ** What an accepted transaction is *)

(** Lamports a System instruction moves out of the wallet, as the decoder sees it. *)
Definition wallet_out (p : SignerPolicy) (wallet : string) (keys : list string)
    (ix : ParsedInstruction) : Z :=
  if bool_decide (program_id ix = system_program_id p) then
    match _decode_system_transfer ix keys with
    | Ok (Some (source, _, lamports)) => if bool_decide (source = wallet) then lamports else 0
    | _ => 0
    end
  else 0.

(** Lamports a venue instruction may debit, by its registered decoder. *)
Definition venue_out (p : SignerPolicy) (ix : ParsedInstruction) : Z :=
  if bool_decide (program_id ix ∈ venue_program_ids p) then
    match venue_spend_decoders p !! program_id ix with
    | Some d => match d (data ix) with Ok s => s | _ => 0 end
    | None => 0
    end
  else 0.

(** Delegate and amount of an SPL Approve / ApproveChecked. *)
Definition approval (ix : ParsedInstruction) (keys : list string) : option (string * Z) :=
  match data ix with
  | tag :: _ =>
      if (tag =? _TOKEN_APPROVE) || (tag =? _TOKEN_APPROVE_CHECKED) then
        let slot := if tag =? _TOKEN_APPROVE then 1%nat else 2%nat in
        i ← account_indices ix !! slot;
        d ← (if (i <? 0) || (zlen keys <=? i) then None else keys !! Z.to_nat i);
        Some (d, int_from_bytes_little (slice (data ix) 1 9))
      else None
  | [] => None
  end.

Lemma venue_spend_sound p ixs acc s :
  venue_spend p ixs acc = Ok s →
  s = acc + zsum (venue_out p <$> ixs) ∧
  Forall (λ ix, program_id ix ∈ venue_program_ids p →
    ∃ d v, venue_spend_decoders p !! program_id ix = Some d ∧ d (data ix) = Ok v) ixs.
Proof.
  revert acc. induction ixs as [|ix ixs IH]; intros acc H; cbn [venue_spend fmap list_fmap zsum foldr] in *.
  { injection H as <-. split; [lia|constructor]. }
  unfold venue_out at 1. destruct (decide (program_id ix ∈ venue_program_ids p)) as [Hin|Hin].
  - rewrite bool_decide_eq_false_2 in H by tauto. rewrite bool_decide_eq_true_2 by done.
    destruct (venue_spend_decoders p !! program_id ix) as [d|] eqn:Ed; [|done].
    destruct (d (data ix)) as [v|[]] eqn:Ev; try done.
    apply IH in H as [-> Hf]. split; [unfold zsum; lia|]. constructor; eauto.
  - rewrite bool_decide_eq_true_2 in H by done. rewrite bool_decide_eq_false_2 by done.
    apply IH in H as [-> Hf]. split; [unfold zsum; lia|]. by constructor.
Qed.

(** The values the ComputeBudget instructions set, in order. *)
Definition cb_values (k : cb_kind) (p : SignerPolicy) (ixs : list ParsedInstruction) : list Z :=
  omap (λ ix, if bool_decide (program_id ix = compute_budget_program_id p) then
                match k, _decode_compute_budget_ix ix with
                | CbLimit, Ok (Some (CbLimit, v)) | CbPrice, Ok (Some (CbPrice, v)) => Some v
                | _, _ => None
                end
              else None) ixs.

(** The compute-unit limit a transaction is charged for: the largest it sets,
    the protocol maximum of 1.4M when it sets none. *)
Definition charged_limit (p : SignerPolicy) (ixs : list ParsedInstruction) : Z :=
  match cb_values CbLimit p ixs with
  | [] => 1400000
  | v :: vs => foldr Z.max v vs
  end.

(** The compute-unit price it is charged at: the largest it sets, or 0. *)
Definition charged_price (p : SignerPolicy) (ixs : list ParsedInstruction) : Z :=
  foldr Z.max 0 (cb_values CbPrice p ixs).

Definition seen_limit (lim : option Z) (vs : list Z) : option Z :=
  foldl (λ acc v, Some (match acc with None => v | Some l => Z.max l v end)) lim vs.

Lemma foldr_max_acc vs a b : foldr Z.max (Z.max a b) vs = Z.max a (foldr Z.max b vs).
Proof. induction vs as [|v vs IH]; cbn; lia. Qed.

Lemma seen_limit_Some vs l : seen_limit (Some l) vs = Some (foldr Z.max l vs).
Proof.
  unfold seen_limit. revert l. induction vs as [|v vs IH]; intros l; cbn; [done|].
  by rewrite IH, (Z.max_comm l v), foldr_max_acc.
Qed.

Lemma compute_budget_sound p ixs lim price lim' price' :
  compute_budget p ixs lim price = Ok (lim', price') →
  lim' = seen_limit lim (cb_values CbLimit p ixs) ∧
  price' = foldr Z.max price (cb_values CbPrice p ixs) ∧
  Forall (λ ix, program_id ix = compute_budget_program_id p →
    ∃ r, _decode_compute_budget_ix ix = Ok r) ixs.
Proof.
  revert lim price. induction ixs as [|ix ixs IH]; intros lim price H; cbn [compute_budget] in H.
  { injection H as <- <-. split_and!; [done..|constructor]. }
  cbn [cb_values omap list_omap].
  destruct (decide (program_id ix = compute_budget_program_id p)) as [Hc|Hc].
  2: { rewrite bool_decide_eq_false_2 in * by done. apply IH in H as (H1 & H2 & H3).
       split_and!; [done..|]. by constructor. }
  rewrite bool_decide_eq_true_2 in * by done. cbn [negb] in H.
  destruct (_decode_compute_budget_ix ix) as [[kv|]|e] eqn:Ed; [destruct kv as [[] v]| |];
    cbn in H; [| | |by destruct e]; apply IH in H as (-> & -> & H3);
    (split_and!; [done| |constructor; [eauto|done]]); try done.
  cbn. rewrite Z.max_comm. apply foldr_max_acc.
Qed.

(** From the loop's initial values the result is what the transaction sets. *)
Lemma compute_budget_charged p ixs lim price :
  compute_budget p ixs None 0 = Ok (lim, price) →
  default _PROTOCOL_MAX_CU_LIMIT lim = charged_limit p ixs ∧ price = charged_price p ixs ∧
  Forall (λ ix, program_id ix = compute_budget_program_id p →
    ∃ r, _decode_compute_budget_ix ix = Ok r) ixs.
Proof.
  intros (-> & -> & H)%compute_budget_sound. split_and!; [|done..].
  unfold charged_limit. destruct (cb_values CbLimit p ixs) as [|v vs]; [done|].
  change (seen_limit None (v :: vs)) with (seen_limit (Some v) vs). by rewrite seen_limit_Some.
Qed.

Lemma charged_price_nonneg p ixs : 0 ≤ charged_price p ixs.
Proof. unfold charged_price. induction (cb_values CbPrice p ixs); cbn; lia. Qed.

Lemma approvals_sound p keys ixs :
  check_approvals p keys ixs = Ok tt →
  Forall (λ ix, program_id ix = spl_token_program_id p → ∀ d amount,
    approval ix keys = Some (d, amount) → amount < 2 ^ 63 ∨ d ∈ venue_program_ids p) ixs.
Proof.
  induction ixs as [|ix ixs IH]; intros H; cbn [check_approvals] in H; [constructor|].
  destruct (decide (program_id ix = spl_token_program_id p)) as [Hp|Hp].
  2: { rewrite bool_decide_eq_false_2 in H by done. constructor; [done|auto]. }
  rewrite bool_decide_eq_true_2 in H by done.
  destruct (_check_approval_hygiene ix keys p) as [[]|] eqn:Eh; [|done].
  constructor; [|auto]. intros _ d amount Ha.
  unfold _check_approval_hygiene, approval in *. destruct (data ix) as [|tag rest] eqn:Ed; [done|].
  rewrite (proj2 (Z.ltb_ge (zlen (tag :: rest)) 1)) in Eh by (pose proof (zlen_nonneg rest); zlen_lia).
  cbn [index lookup list_lookup] in Eh. change (index (tag :: rest) 0) with (Ok tag) in Eh.
  cbn [mbind result_bind] in Eh. destruct ((tag =? _TOKEN_APPROVE) || _); cbn [negb] in Eh; [|done].
  destruct (zlen (tag :: rest) <? 9); [done|].
  set (slotn := if tag =? _TOKEN_APPROVE then 1%nat else 2%nat) in Ha.
  set (slot := if tag =? _TOKEN_APPROVE then 1 else 2) in Eh.
  assert (Z.to_nat slot = slotn) as Hs by (subst slot slotn; by destruct (tag =? _)).
  destruct (zlen (account_indices ix) <=? slot); [done|]. unfold index in Eh. rewrite Hs in Eh.
  destruct (account_indices ix !! slotn) as [i|]; [|done]. cbn [mbind result_bind option_bind] in Eh, Ha.
  unfold _resolve, index in Eh. destruct ((i <? 0) || (zlen keys <=? i)); [done|].
  destruct (keys !! Z.to_nat i) as [k|]; [|done]. cbn [mbind result_bind option_bind] in Eh, Ha.
  injection Ha as <- <-. unfold _UNBOUNDED_APPROVAL_THRESHOLD in Eh.
  destruct (Z.leb_spec (2 ^ 63) (int_from_bytes_little (slice (tag :: rest) 1 9))); [|by left].
  cbn [andb] in Eh. case_bool_decide as Hin; [done|]. right.
  destruct (decide (k ∈ venue_program_ids p)); tauto.
Qed.

(** The fee is limit x price in micro-lamports, rounded up. *)
Lemma priority_fee_rounds_up limit price :
  0 ≤ price →
  let n := default _PROTOCOL_MAX_CU_LIMIT limit * price in
  n ≤ priority_fee limit price * 1000000 < n + 1000000.
Proof.
  intros Hp. cbn zeta. unfold priority_fee, _MICROLAMPORTS_PER_LAMPORT. destruct (Z.ltb_spec 0 price).
  - set (n := _ * price). pose proof (Z.mul_div_le (- n) 1000000).
    pose proof (Z.mul_succ_div_gt (- n) 1000000). lia.
  - assert (price = 0) as -> by lia. lia.
Qed.

Section Soundness.
Context {C : Clock}.
Context (solders : option (string → string → string → string → option string)).

Lemma system_spend_sound p wallet keys ixs acc s :
  system_spend_spec solders p wallet keys ixs acc = Ok s →
  s = acc + zsum (wallet_out p wallet keys <$> ixs) ∧
  Forall (λ ix, program_id ix = system_program_id p →
    ∃ t, _decode_system_transfer ix keys = Ok t ∧
    ∀ recipient lamports, t = Some (wallet, recipient, lamports) →
      recipient ∈ pinned_tip_accounts p ∨ recipient = wallet ∨
      is_own_ata_spec solders p recipient wallet keys = true) ixs.
Proof.
  revert acc. induction ixs as [|ix ixs IH]; intros acc H; cbn [system_spend_spec fmap list_fmap zsum foldr] in *.
  { injection H as <-. split; [lia|constructor]. }
  unfold wallet_out at 1. destruct (decide (program_id ix = system_program_id p)) as [Hs|Hs].
  2: { rewrite bool_decide_eq_false_2 in * by done. apply IH in H as [-> Hf].
       split; [unfold zsum; lia|]. by constructor. }
  rewrite bool_decide_eq_true_2 in * by done. cbn [negb] in H.
  destruct (_decode_system_transfer ix keys) as [[[[src rcp] l]|]|e] eqn:Ed;
    cbn [or_unparseable mbind result_bind] in H; [| |by destruct e].
  - destruct (decide (src = wallet)) as [->|Hne].
    + rewrite bool_decide_eq_true_2 in * by done. cbn [negb] in H.
      destruct (if bool_decide (rcp ∈ _) then true else _) eqn:Eb; [|done].
      apply IH in H as [-> Hf]. split; [unfold zsum; lia|]. constructor; [|done].
      intros _. eexists. split; [done|]. intros ? ? [= <- <-].
      case_bool_decide as Hin; [|auto].
      apply elem_of_union in Hin as [|?%elem_of_singleton]; auto.
    + rewrite bool_decide_eq_false_2 in * by done. apply IH in H as [-> Hf].
      split; [unfold zsum; lia|]. constructor; [|done]. intros _. eexists. split; [done|]. congruence.
  - apply IH in H as [-> Hf]. split; [unfold zsum; lia|]. constructor; [|done].
    intros _. by eexists.
Qed.

(** C22: the caches are transparent: with caches that hold only past results,
    [enforce] returns exactly the verdict of the cache-free C0-C5 evaluation,
    leaves the caches in that state, and changes the ledger only by pruning. *)
Theorem enforce_refines_cache_free tx wallet now_s e :
  caches_valid solders e →
  let '(r, e') := enforce solders tx wallet now_s e in
  r = enforce_spec solders (_policy e) (_ledger e) tx wallet now_s ∧
  caches_valid solders e' ∧ _policy e' = _policy e ∧
  _ledger e' = (if is_ok (price_spec solders (_policy e) tx wallet)
                then _prune now_s (_ledger e) else _ledger e).
Proof. apply enforce_transparent. Qed.

(** The enforcers of a running signer: built by [Enforcer_init] over the boot
    ledger, then driven by [enforce], [compute_spend_lamports] and the
    handler's [record] on the shared ledger, in any order. *)
Inductive reached (p : SignerPolicy) : Enforcer → Prop :=
| reached_init l : reached p (Enforcer_init p l)
| reached_enforce e tx wallet now_s :
    reached p e → reached p (enforce solders tx wallet now_s e).2
| reached_compute e tx wallet :
    reached p e → reached p (compute_spend_lamports solders tx wallet e).2
| reached_record e now_s spend :
    reached p e → reached p (set_ledger (record now_s spend (_ledger e)) e).

Lemma reached_valid p e : reached p e → caches_valid solders e ∧ _policy e = p.
Proof.
  induction 1 as [l|e tx w t _ [Hv Hp]|e tx w _ [Hv Hp]|e t sp _ [[Ha Hc] Hp]].
  - split; [|done]. split; cbn; [|done]. intros w k a. by rewrite lookup_empty.
  - pose proof (enforce_transparent solders tx w t e Hv) as H.
    destruct (enforce _ _ _ _ _) as [r e']. destruct H as (_ & Hv' & Hp' & _). cbn. split; [done|congruence].
  - pose proof (parse_and_price_transparent solders tx w e Hv) as (_ & Hv' & Hp' & _).
    unfold compute_spend_lamports. mstep.
    destruct (_parse_and_price solders tx w e) as [[[]|] e']; cbn in *; (split; [done|congruence]).
  - split; [by split|done].
Qed.

(** What the cache-free evaluation of C0-C3 accepts. *)
Lemma price_spec_sound p tx wallet parsed total :
  price_spec solders p tx wallet = Ok (parsed, total) →
  parse_transaction tx = Ok parsed ∧
  payer parsed = wallet ∧ has_address_table_lookups parsed = false ∧
  let keys := account_keys parsed in let ixs := instructions parsed in
  Forall (λ ix, program_id ix ∈ allowed_program_ids p) ixs ∧
  (∃ sys, system_spend_spec solders p wallet keys ixs 0 = Ok sys ∧
   ∃ ven, venue_spend p ixs 0 = Ok ven ∧
   ∃ lim price, compute_budget p ixs None 0 = Ok (lim, price) ∧
   total = sys + ven + priority_fee lim price) ∧
  total ≤ per_tx_cap_lamports p.
Proof.
  unfold price_spec. intros H.
  destruct (parse_transaction tx) as [pd|e]; cbn [or_unparseable mbind result_bind] in H; [|by destruct e].
  case_bool_decide as Hpay; [|done]. cbn [negb] in H.
  destruct (has_address_table_lookups pd) eqn:Halt; [done|].
  unfold check_allowlist in H. destruct (forallb _ _) eqn:Hall; [|done]. cbn [mbind result_bind] in H.
  destruct (system_spend_spec _ _ _ _ _ _) as [sys|] eqn:Es; [|done]. cbn [mbind result_bind] in H.
  destruct (venue_spend _ _ _) as [ven|] eqn:Ev; [|done]. cbn [mbind result_bind] in H.
  destruct (compute_budget _ _ _ _) as [[lim price]|] eqn:Ec; [|done]. cbn [mbind result_bind fst snd] in H.
  destruct (Z.ltb_spec (per_tx_cap_lamports p) (sys + ven + priority_fee lim price)); [done|].
  injection H as -> <-. split_and!; try done; [|eauto 10].
  apply Forall_forall. intros ix Hix. rewrite forallb_forall in Hall.
  specialize (Hall ix ltac:(by apply list_elem_of_In)). by bools.
Qed.

(** The instructions [system_spend] lets through, with the derivation spelled
    out. *)
Lemma own_ata_exists p recipient wallet keys :
  is_own_ata_spec solders p recipient wallet keys = true →
  ∃ mint, mint ∈ keys ∧
    _try_derive_ata solders wallet mint (ata_program_id p) (spl_token_program_id p) = Ok (Some recipient).
Proof.
  unfold is_own_ata_spec. rewrite existsb_exists. intros (k & Hk & Hb). bools.
  exists k. split; [by apply list_elem_of_In|done].
Qed.

End Soundness.

(** ** What a loaded policy is *)

Lemma load_entry_venue_sub live a entry :
  la_venue a ⊆ la_allowed a →
  la_venue (load_entry live a entry) ⊆ la_allowed (load_entry live a entry).
Proof.
  intros H. unfold load_entry. destruct (negb _); cbn; [done|]. case_bool_decide; cbn; clear -H; set_solver.
Qed.

Lemma load_allowlist_venue_sub live entries :
  la_venue (load_allowlist live entries) ⊆ la_allowed (load_allowlist live entries).
Proof.
  unfold load_allowlist. set (a0 := mk_acc _ _ _ _ _ _ _).
  assert (la_venue a0 ⊆ la_allowed a0) as H by done. generalize dependent a0.
  induction entries as [|x xs IH]; intros a0 H; cbn; [done|]. by apply IH, load_entry_venue_sub.
Qed.

(** Only programs of live entries are admitted. *)
Lemma load_entry_allowed live a entry pid :
  pid ∈ la_allowed (load_entry live a entry) →
  pid ∈ la_allowed a ∨ (ae_program_id entry = pid ∧ is_live live entry = true).
Proof.
  unfold load_entry. destruct (is_live live entry); cbn; [|by left].
  rewrite elem_of_union, elem_of_singleton. intros [->|]; auto.
Qed.

Lemma load_allowlist_live live entries pid :
  pid ∈ la_allowed (load_allowlist live entries) →
  Exists (λ e, ae_program_id e = pid ∧ is_live live e = true) entries.
Proof.
  unfold load_allowlist. set (a0 := mk_acc _ _ _ _ _ _ _).
  assert (pid ∈ la_allowed a0 → False) as H0 by set_solver.
  revert H0. generalize a0. induction entries as [|x xs IH]; intros a H0 H; cbn in *; [done|].
  destruct (decide (ae_program_id x = pid ∧ is_live live x = true)) as [|Hn]; [by left|].
  right. apply (IH (load_entry live a x)); [|done]. intros Ha; apply load_entry_allowed in Ha; tauto.
Qed.

Definition unverified (ds : gmap string SpendDecoder) : Prop :=
  ∀ pid d, ds !! pid = Some d → ∀ b, ∃ m, d b = Raise (ValueError m).

Lemma load_decoders_unverified by_name ds acc r :
  load_decoders by_name ds acc = Ok r → unverified acc → unverified r.
Proof.
  revert acc. induction ds as [|d ds IH]; intros acc H Hacc; cbn in H; [by injection H as <-|].
  destruct (by_name !! _) as [pid|]; [|by eapply IH].
  destruct (_ || _); [|done]. eapply IH; [done|]. intros pid' d' Hd b.
  apply lookup_insert_Some in Hd as [[_ <-]|[_ Hd]]; [|by eapply Hacc].
  by eexists.
Qed.

Lemma load_policy_inv live entries doc pinned p :
  load_signer_policy live entries doc pinned = Ok p →
  per_tx_cap_lamports p ≤ 100000000 ∧ aggregate_cap_lamports p ≤ 500000000 ∧
  per_tx_cap_lamports p = pd_per_tx_cap doc ∧ aggregate_cap_lamports p = pd_aggregate_cap doc ∧
  allowed_program_ids p = la_allowed (load_allowlist live entries) ∧
  venue_program_ids p = la_venue (load_allowlist live entries) ∧
  pinned_tip_accounts p = pinned ∧ unverified (venue_spend_decoders p).
Proof.
  unfold load_signer_policy. cbn zeta. destruct (existsb _ _); [done|].
  destruct (load_decoders _ _ _) as [ds|] eqn:Ed; cbn; [|done].
  destruct (Z.ltb_spec 100000000 (pd_per_tx_cap doc)); [done|].
  destruct (Z.ltb_spec 500000000 (pd_aggregate_cap doc)); [done|]. intros [= <-]; cbn.
  split_and!; try done. eapply load_decoders_unverified; [done|]. intros ? ?. by rewrite lookup_empty.
Qed.

Section LoadedPolicy.
Context {C : Clock}.
Context (solders : option (string → string → string → string → option string)).

Lemma venue_spend_unverified p ixs acc s :
  unverified (venue_spend_decoders p) → venue_spend p ixs acc = Ok s →
  Forall (λ ix, program_id ix ∉ venue_program_ids p) ixs.
Proof.
  intros Hu H. apply venue_spend_sound in H as [_ H]. eapply Forall_impl; [exact H|].
  intros ix Hix Hin. destruct (Hix Hin) as (d & v & Hd & Hv).
  destruct (Hu _ _ Hd (data ix)) as [m Hm]. congruence.
Qed.

Lemma enforce_spec_venue p l tx wallet now_s :
  enforce_spec solders p l tx wallet now_s = Ok tt →
  ∃ parsed s, parse_transaction tx = Ok parsed ∧ venue_spend p (instructions parsed) 0 = Ok s.
Proof.
  unfold enforce_spec, price_spec. intros H.
  destruct (parse_transaction tx) as [parsed|e]; cbn [or_unparseable mbind result_bind] in H; [|by destruct e].
  destruct (negb _); [done|]. destruct (has_address_table_lookups parsed); [done|].
  destruct (check_allowlist _ _); [|done]. cbn [mbind result_bind] in H.
  destruct (system_spend_spec _ _ _ _ _ _) as [sys|]; [|done]. cbn [mbind result_bind] in H.
  destruct (venue_spend _ _ _) as [ven|] eqn:Ev; [|done]. eauto.
Qed.

(** The boot-time policy is at least as tight as the floor and fails
    closed: whatever the two configuration files say, a loaded policy has caps
    of at most 0.1 / 0.5 SOL, admits only programs of live allowlist entries,
    and, as every shipped spend decoder is unverified, refuses every
    transaction that carries a venue instruction. *)
Theorem loaded_policy_fails_closed live entries doc pinned p :
  load_signer_policy live entries doc pinned = Ok p →
  per_tx_cap_lamports p ≤ 100000000 ∧ aggregate_cap_lamports p ≤ 500000000 ∧
  venue_program_ids p ⊆ allowed_program_ids p ∧
  (∀ pid, pid ∈ allowed_program_ids p →
     Exists (λ e, ae_program_id e = pid ∧ is_live live e = true) entries) ∧
  ∀ l tx wallet now_s, enforce_spec solders p l tx wallet now_s = Ok tt →
    ∃ parsed, parse_transaction tx = Ok parsed ∧
      Forall (λ ix, program_id ix ∉ venue_program_ids p) (instructions parsed).
Proof.
  intros H. apply load_policy_inv in H as (H1 & H2 & _ & _ & Ha & Hv & _ & Hu).
  split_and!; [done..| | |].
  - rewrite Ha, Hv. apply load_allowlist_venue_sub.
  - rewrite Ha. intros pid. apply load_allowlist_live.
  - intros l tx wallet now_s (parsed & s & Hp & Hs)%enforce_spec_venue.
    exists parsed. split; [done|]. by eapply venue_spend_unverified.
Qed.
End LoadedPolicy.

(** ** Concrete policy and transactions *)

Definition sys_id : string := "11111111111111111111111111111111".
Definition ata_id : string := "ATokenGPvbdGVxr1b2hvZbsiqW5xWH25efTNsLJA8knL".
Definition spl_id : string := "TokenkegQfeZyiNwAJbNbGKPFXCWuBvf9Ss623VQ5DA".
Definition cb_id : string := "ComputeBudget111111111111111111111111111111".
Definition tip_id : string := "96gYZGLnJYVFmbjzopPSU6QiEV5fGqZNyN9nmNhvrZU5".
Definition wallet_id : string := "11111111111111111111111111111112".
Definition other_id : string := "11111111111111111111111111111113".

Definition core_entry (name pid : string) : allow_entry :=
  mk_entry name pid (Some "core") (Some "live-verified") false.
Definition sample_entries : list allow_entry :=
  [core_entry "system_program" sys_id; core_entry "associated_token_account_program" ata_id;
   core_entry "spl_token_program" spl_id; core_entry "compute_budget_program" cb_id].
Definition sample_doc : policy_doc := mk_doc 100000000 500000000 60 10 [].
Definition sample_policy : SignerPolicy :=
  mk_policy 100000000 500000000 60 10 {[sys_id; ata_id; spl_id; cb_id]} ∅ {[tip_id]}
    ata_id spl_id ∅ sys_id cb_id.

Definition le32 (v : Z) : bytes := [v mod 256; v / 256 mod 256; v / 65536 mod 256; v / 16777216].
Definition le64 (v : Z) : bytes := le32 (v mod 4294967296) ++ le32 (v / 4294967296).

Definition sample_tx (ixs : list RawInstruction) : bytes :=
  match build_versioned_tx [wallet_id; tip_id; other_id; sys_id; cb_id] 1 other_id ixs 0 2 true 0 with
  | Ok tx => tx
  | Raise _ => []
  end.
(** A 0.01 SOL tip with a compute-unit limit and price. *)
Definition tip_tx : bytes := sample_tx
  [mk_raw cb_id [] ([2] ++ le32 200000) None; mk_raw cb_id [] ([3] ++ le64 1000000) None;
   mk_raw sys_id [0; 1] (le32 2 ++ le64 10000000) None].
(** A policy with one venue, whose decoder reads the lamports at offset 1, and
    a swap of 0.02 SOL under two limits and one price. *)
Definition venue_decoder : SpendDecoder := λ d,
  if zlen d <? 9 then Raise (ValueError "short swap") else Ok (int_from_bytes_little (slice d 1 9)).
Definition venue_policy : SignerPolicy :=
  mk_policy 100000000 500000000 60 10 {[sys_id; ata_id; spl_id; cb_id; other_id]} {[other_id]} {[tip_id]}
    ata_id spl_id {[other_id := venue_decoder]} sys_id cb_id.
Definition venue_tx : bytes := sample_tx
  [mk_raw cb_id [] ([2] ++ le32 300000) None; mk_raw cb_id [] ([2] ++ le32 200000) None;
   mk_raw cb_id [] ([3] ++ le64 50000) None; mk_raw other_id [0] ([9] ++ le64 20000000) None;
   mk_raw sys_id [0; 1] (le32 2 ++ le64 10000000) None].
Definition venue_parsed : ParsedTx :=
  match parse_transaction venue_tx with
  | Ok parsed => parsed
  | Raise _ => mk_ptx [] 0 "" "" [] false false
  end.
(** [CreateAccountWithSeed] of 1000 SOL out of the wallet into [other_id]. *)
Definition create_with_seed_tx : bytes := sample_tx
  [mk_raw sys_id [0; 2; 0] (le32 3 ++ replicate 31 0 ++ [1] ++ le64 1 ++ [120] ++
      le64 1000000000000 ++ le64 0 ++ replicate 32 0) None].

(** A hole in the spend pricing: every System instruction whose tag is not
    Transfer, CreateAccount or TransferWithSeed is priced at zero and its
    recipient is not pinned.  System::CreateAccountWithSeed (tag 3) does move
    lamports: the transaction that funds a foreign account with 1000 SOL of
    the wallet passes every check of [enforce] under the shipped caps. *)
Theorem create_account_with_seed_unpriced :
  (∀ ix keys, 4 ≤ zlen (data ix) →
     int_from_bytes_little (slice (data ix) 0 4) ∉ [0; 2; 11] →
     _decode_system_transfer ix keys = Ok None) ∧
  let e := Enforcer_init (C := Z_clock) sample_policy (mk_ledger (C := Z_clock) 60 []) in
  fst (enforce (C := Z_clock) None create_with_seed_tx wallet_id 0 e) = Ok tt ∧
  fst (compute_spend_lamports (C := Z_clock) None create_with_seed_tx wallet_id e) = Ok 0.
Proof.
  split.
  - intros ix keys Hl Hn. unfold _decode_system_transfer.
    rewrite (proj2 (Z.ltb_ge _ _) Hl). cbn zeta. unfold _SYSTEM_TRANSFER, _SYSTEM_CREATE_ACCOUNT,
      _SYSTEM_TRANSFER_WITH_SEED.
    set (d := int_from_bytes_little _) in *.
    rewrite !not_elem_of_cons in Hn. destruct Hn as (H0 & H2 & H11 & _).
    by rewrite (proj2 (Z.eqb_neq _ _) H0), (proj2 (Z.eqb_neq _ _) H2), (proj2 (Z.eqb_neq _ _) H11).
  - split; vm_compute; reflexivity.
Qed.

(** *** Witnesses *)

Lemma Ok_inj {A} (x y : A) : Ok x = Ok y → x = y.
Proof. congruence. Qed.

Lemma enforce_refines_witness :
  caches_valid (C := Z_clock) None (Enforcer_init sample_policy (mk_ledger (C := Z_clock) 60 [])) ∧
  fst (enforce (C := Z_clock) None tip_tx wallet_id 5
         (Enforcer_init sample_policy (mk_ledger (C := Z_clock) 60 []))) = Ok tt.
Proof.
  assert (caches_valid (C := Z_clock) None (Enforcer_init sample_policy (mk_ledger (C := Z_clock) 60 []))) as Hv.
  { split; cbn; [|done]. intros w k a. by rewrite lookup_empty. }
  split; [exact Hv|].
  pose proof (enforce_refines_cache_free (C := Z_clock) None tip_tx wallet_id 5 _ Hv) as H.
  destruct (enforce _ _ _ _ _) as [r e']. destruct H as [-> _]. vm_compute. reflexivity.
Defined.


Lemma loaded_policy_witness :
  ∃ p, load_signer_policy ["live-verified"] sample_entries sample_doc {[tip_id]} = Ok p ∧
    aggregate_cap_lamports p ≤ 500000000.
Proof.
  destruct (load_signer_policy ["live-verified"] sample_entries sample_doc {[tip_id]}) as [p|] eqn:E;
    [|by vm_compute in E].
  exists p. split; [reflexivity|].
  exact (proj1 (proj2 (loaded_policy_fails_closed (C := Z_clock) None _ _ _ _ _ E))).
Defined.
