(* ===== verification/SignerProcess.v ===== *)
(** * The signer process: [aats/execution/signer_process.py]

    Framing, base64, signature splicing and the request handler.  Ed25519
    signing itself is delegated to [solders] by the program: a class here. *)

From Stdlib Require Import String Ascii.
From S2P Require Import Prelude Bytes Wire SignerEnforcer.

(** ** base64 (the standard library's codec) *)

Definition b64_alphabet : list ascii :=
  list_ascii_of_string "ABCDEFGHIJKLMNOPQRSTUVWXYZabcdefghijklmnopqrstuvwxyz0123456789+/".
Definition b64_char (v : Z) : ascii := nth (Z.to_nat v) b64_alphabet "A"%char.
Definition b64_value (ch : ascii) : option Z :=
  (λ '(i, _), Z.of_nat i) <$> list_find (λ c, c = ch) b64_alphabet.

(** [base64.b64encode] *)
Fixpoint b64_chars (bs : bytes) : list ascii :=
  match bs with
  | [] => []
  | [a] => [b64_char (a / 4); b64_char (a mod 4 * 16); "="%char; "="%char]
  | [a; b] => [b64_char (a / 4); b64_char (a mod 4 * 16 + b / 16); b64_char (b mod 16 * 4); "="%char]
  | a :: b :: c :: bs' =>
      b64_char (a / 4) :: b64_char (a mod 4 * 16 + b / 16) :: b64_char (b mod 16 * 4 + c / 64)
      :: b64_char (c mod 64) :: b64_chars bs'
  end.
Definition b64encode (bs : bytes) : string := string_of_list_ascii (b64_chars bs).

(** [binascii.a2b_base64(s, strict_mode=True)]: position in the quad, the bits
    left over, the pads seen and whether padding started. *)
Fixpoint a2b (cs : list ascii) (quad left : Z) (pads : Z) (padding : bool) : result bytes :=
  match cs with
  | [] => if quad =? 0 then Ok [] else Raise (ValueError "Incorrect padding")
  | c :: cs' =>
      if bool_decide (c = "="%char) then
        if (2 <=? quad) && (4 <=? quad + (pads + 1)) then
          match cs' with
          | [] => Ok []
          | _ => Raise (ValueError "Excess data after padding")
          end
        else a2b cs' quad left (if 2 <=? quad then pads + 1 else pads) true
      else
        match b64_value c with
        | None => Raise (ValueError "Only base64 data is allowed")
        | Some v =>
            if padding then Raise (ValueError "Discontinuous padding not allowed")
            else if quad =? 0 then a2b cs' 1 v 0 false
            else if quad =? 1 then
              rest ← a2b cs' 2 (v mod 16) 0 false; Ok (left * 4 + v / 16 :: rest)
            else if quad =? 2 then
              rest ← a2b cs' 3 (v mod 4) 0 false; Ok (left * 16 + v / 4 :: rest)
            else
              rest ← a2b cs' 0 0 0 false; Ok (left * 64 + v :: rest)
        end
  end.

(** [base64.b64decode(s, validate=True)] *)
Definition b64decode (s : string) : result bytes :=
  match list_ascii_of_string s with
  | "="%char :: _ => Raise (ValueError "Leading padding not allowed")
  | cs => a2b cs 0 0 0 false
  end.

(** ** Requests and responses *)

(** What [json.loads] returns, as far as the handler looks at it: an object,
    each value a string or something else, or a value that is no object. *)
Inductive json : Type :=
| JObj (fields : list (string * option string))
| JOther.

(** [payload.get(key)]: the last binding wins. *)
Definition obj_get (fields : list (string * option string)) (key : string) : option (option string) :=
  snd <$> last (filter (λ f, f.1 = key) fields).

Inductive loads_result : Type :=
| Loaded (v : json)
| JSONDecodeError
| UnicodeDecodeError.

Inductive response : Type :=
| Signed (signed_b64 pubkey : string)
| Refused (reason : string).

#[export] Instance response_eq_dec : EqDecision response.
Proof. solve_decision. Defined.

(** [class Ed25519Signer(Protocol)] *)
Class Ed25519Signer : Type := {
  pubkey_b58 : string;
  sign_message : bytes → bytes
}.

Definition _MAX_FRAME_BYTES : Z := 65536.

(** ** Signature splicing *)

Definition sign_transaction {S : Ed25519Signer} (tx_bytes : bytes) (signer_index : Z) : result bytes :=
  '(n_sigs, sigs_start) ← read_compact_u16 tx_bytes 0;
  if (signer_index <? 0) || (n_sigs <=? signer_index) then Raise (ValueError "signer_index out of range")
  else
    let message_start := sigs_start + n_sigs * 64 in
    if zlen tx_bytes <? message_start then Raise (ValueError "truncated transaction: signatures section")
    else
      let message := drop (Z.to_nat message_start) tx_bytes in
      let signature := sign_message message in
      if negb (zlen signature =? 64) then Raise (ValueError "ed25519 signature must be exactly 64 bytes")
      else
        let slot_start := Z.to_nat (sigs_start + signer_index * 64) in
        Ok (take slot_start tx_bytes ++ signature ++ drop (slot_start + 64) tx_bytes).

(** ** The server *)

Section Server.
Context {C : Clock} {S : Ed25519Signer}.
Context (solders : option (string → string → string → string → option string)).

(** The [try/except SignerRefused] around [enforce]. *)
Definition refused_reason (e : exn) : option string :=
  match e with
  | CustomError cls reason => if bool_decide (cls = "SignerRefused") then Some reason else None
  | _ => None
  end.

(** The state is the enforcer; [ledger] is the enforcer's own ([boot_enforcer]
    passes one object as both). *)
Definition sign_and_record (tx_bytes : bytes) (now_s : time) : M Enforcer response := λ e,
  match sign_transaction tx_bytes 0 with
  | Raise (ValueError _) => (Ok (Refused "signer_tx_unparseable"), e)
  | Raise x => (Raise x, e)
  | Ok signed_bytes =>
      let '(r, e) := compute_spend_lamports solders tx_bytes pubkey_b58 e in
      match r with
      | Raise x =>
          match refused_reason x with
          | Some _ =>
              (Ok (Signed (b64encode signed_bytes) pubkey_b58),
               set_ledger (record now_s (per_tx_cap_lamports (_policy e)) (_ledger e)) e)
          | None => (Raise x, e)
          end
      | Ok spend =>
          (Ok (Signed (b64encode signed_bytes) pubkey_b58),
           set_ledger (record now_s spend (_ledger e)) e)
      end
  end.

Definition enforce_and_sign (tx_bytes : bytes) (now_s : time) : M Enforcer response := λ e,
  let '(r, e) := enforce solders tx_bytes pubkey_b58 now_s e in
  match r with
  | Ok _ => sign_and_record tx_bytes now_s e
  | Raise x => match refused_reason x with
               | Some reason => (Ok (Refused reason), e)
               | None => (Raise x, e)
               end
  end.

(** [payload.get("wallet_id") != expected_wallet_id] *)
Definition wallet_id_matches (fields : list (string * option string)) (expected : option string) : bool :=
  match expected, obj_get fields "wallet_id" with
  | None, _ => true
  | Some w, Some (Some got) => bool_decide (got = w)
  | Some _, _ => false
  end.

Definition handle_sign_request (payload : json) (now_s : time) (expected_wallet_id : option string)
    : M Enforcer response :=
  match payload with
  | JObj fields =>
      if negb (wallet_id_matches fields expected_wallet_id)
      then mret (Refused "signer_wallet_id_mismatch")
      else
        match obj_get fields "tx_b64" with
        | Some (Some tx_b64) =>
            match b64decode tx_b64 with
            | Raise (ValueError _) => mret (Refused "signer_tx_unparseable")
            | Raise x => raise x
            | Ok tx_bytes => enforce_and_sign tx_bytes now_s
            end
        | _ => mret (Refused "signer_tx_unparseable")
        end
  | _ => raise (CustomError "AttributeError" "'get'")
  end.

(** [boot_enforcer]: the policy loaded from the configuration, and one fresh
    ledger shared by the enforcer and the handler. *)
Definition boot_enforcer (policy : result SignerPolicy) : result Enforcer :=
  match policy with
  | Raise _ => Raise (CustomError "SignerBootError" "failed to load signer policy")
  | Ok policy =>
      ledger ← VelocityLedger_init (window_seconds policy);
      Ok (Enforcer_init policy ledger)
  end.

(** *** Connections

    What [recv] will deliver: the chunks the peer wrote; after them the peer
    has closed the connection. *)
Fixpoint _recv_exact (chunks : list bytes) (n : nat) : result (bytes * list bytes) :=
  match n with
  | O => Ok ([], chunks)
  | _ =>
      match chunks with
      | [] => Raise (CustomError "OSError" "peer closed connection prematurely")
      | chunk :: chunks' =>
          match chunk with
          | [] => Raise (CustomError "OSError" "peer closed connection prematurely")
          | _ =>
              if (length chunk <=? n)%nat then
                '(rest, more) ← _recv_exact chunks' (n - length chunk);
                Ok (chunk ++ rest, more)
              else Ok (take n chunk, drop n chunk :: chunks')
          end
      end
  end.

Context (json_loads : bytes → loads_result).

(** Returns the response sent on the connection. *)
Definition _serve_one_connection (conn : list bytes) (now_s : time) (expected_wallet_id : option string)
    : M Enforcer response :=
  '(header, conn) ← lift (_recv_exact conn 4);
  let length := int_from_bytes_big header in
  if _MAX_FRAME_BYTES <? length then mret (Refused "signer_frame_too_large")
  else
    '(body, _) ← lift (_recv_exact conn (Z.to_nat length));
    match json_loads body with
    | JSONDecodeError => mret (Refused "signer_tx_unparseable")
    | UnicodeDecodeError => raise (ValueError "UnicodeDecodeError")
    | Loaded payload => handle_sign_request payload now_s expected_wallet_id
    end.

(** [except OSError]: logged, and the accept loop goes on. *)
Definition _serve_accepted_connection (conn : list bytes) (now_s : time)
    (expected_wallet_id : option string) : M Enforcer (option response) := λ e,
  match _serve_one_connection conn now_s expected_wallet_id e with
  | (Ok r, e) => (Ok (Some r), e)
  | (Raise x, e) =>
      match x with
      | CustomError cls _ => if bool_decide (cls = "OSError") then (Ok None, e) else (Raise x, e)
      | _ => (Raise x, e)
      end
  end.

(** The accept loop over the connections of a run. *)
Fixpoint serve_forever (conns : list (time * list bytes)) (expected_wallet_id : option string)
    : M Enforcer (list (option response)) :=
  match conns with
  | [] => mret []
  | (now_s, conn) :: conns' =>
      r ← _serve_accepted_connection conn now_s expected_wallet_id;
      rs ← serve_forever conns' expected_wallet_id;
      mret (r :: rs)
  end.
End Server.

(** ** base64 round trip *)

Lemma b64_value_char v : 0 ≤ v < 64 → b64_value (b64_char v) = Some v ∧ b64_char v ≠ "="%char.
Proof.
  intros Hv.
  assert (forallb (λ n, bool_decide (b64_value (b64_char (Z.of_nat n)) = Some (Z.of_nat n)
            ∧ b64_char (Z.of_nat n) ≠ "="%char)) (seq 0 64) = true) as H by (vm_compute; reflexivity).
  rewrite forallb_forall in H. specialize (H (Z.to_nat v) ltac:(apply in_seq; lia)).
  rewrite Z2Nat.id in H by lia. by bools.
Qed.

Lemma b64_value_range c v : b64_value c = Some v → 0 ≤ v < 64.
Proof.
  unfold b64_value. destruct (list_find _ _) as [[i x]|] eqn:E; [|done]. intros [= <-].
  apply list_find_Some in E as [E _]. apply lookup_lt_Some in E. by vm_compute in E; lia.
Qed.

(** A data character of the encoder is consumed as data. *)
Lemma a2b_char v cs quad left pads :
  0 ≤ v < 64 →
  a2b (b64_char v :: cs) quad left pads false =
    (if quad =? 0 then a2b cs 1 v 0 false
     else if quad =? 1 then rest ← a2b cs 2 (v mod 16) 0 false; Ok (left * 4 + v / 16 :: rest)
     else if quad =? 2 then rest ← a2b cs 3 (v mod 4) 0 false; Ok (left * 16 + v / 4 :: rest)
     else rest ← a2b cs 0 0 0 false; Ok (left * 64 + v :: rest)).
Proof.
  intros Hv. destruct (b64_value_char v Hv) as [Hval Hne]. cbn [a2b].
  rewrite bool_decide_eq_false_2 by done. by rewrite Hval.
Qed.

Lemma a2b_pad2 left : a2b ["="%char; "="%char] 2 left 0 false = Ok [].
Proof. reflexivity. Qed.
Lemma a2b_pad1 left : a2b ["="%char] 3 left 0 false = Ok [].
Proof. reflexivity. Qed.

Lemma a2b_one a left pads :
  byte_ok a → a2b (b64_chars [a]) 0 left pads false = Ok [a].
Proof.
  unfold byte_ok. intros Ha. cbn [b64_chars]. rewrite a2b_char by zdiv. cbn [Z.eqb].
  rewrite a2b_char by zdiv. cbn [Z.eqb Pos.eqb]. rewrite a2b_pad2. cbn [mbind result_bind].
  repeat f_equal; zdiv.
Qed.

Lemma a2b_two a b left pads :
  byte_ok a → byte_ok b → a2b (b64_chars [a; b]) 0 left pads false = Ok [a; b].
Proof.
  unfold byte_ok. intros Ha Hb. cbn [b64_chars]. rewrite a2b_char by zdiv. cbn [Z.eqb].
  rewrite a2b_char by zdiv. cbn [Z.eqb Pos.eqb]. rewrite a2b_char by zdiv. cbn [Z.eqb Pos.eqb].
  rewrite a2b_pad1. cbn [mbind result_bind]. repeat f_equal; zdiv.
Qed.

Lemma a2b_chars bs left pads :
  Forall byte_ok bs → a2b (b64_chars bs) 0 left pads false = Ok bs.
Proof.
  remember (length bs) as n eqn:Hn. revert bs left pads Hn.
  induction (lt_wf n) as [n _ IH]. intros [|a [|b [|c bs]]] left pads -> Hb; [done| | |].
  - apply a2b_one. by inv Hb.
  - inv Hb as [|?? Ha Hb']. inv Hb'. by apply a2b_two.
  - inv Hb as [|?? Ha Hb']. inv Hb' as [|?? Hb0 Hb'']. inv Hb'' as [|?? Hc Hr].
    unfold byte_ok in Ha, Hb0, Hc. cbn [b64_chars].
    rewrite a2b_char by zdiv. cbn [Z.eqb]. rewrite a2b_char by zdiv. cbn [Z.eqb Pos.eqb].
    rewrite a2b_char by zdiv. cbn [Z.eqb Pos.eqb]. rewrite a2b_char by zdiv. cbn [Z.eqb Pos.eqb].
    rewrite (IH (length bs)) by (simpl; done || lia). cbn [mbind result_bind].
    repeat f_equal; zdiv.
Qed.

Lemma list_ascii_of_string_of l : list_ascii_of_string (string_of_list_ascii l) = l.
Proof. apply list_ascii_of_string_of_list_ascii. Qed.

Lemma b64_decode_encode bs : Forall byte_ok bs → b64decode (b64encode bs) = Ok bs.
Proof.
  intros Hb. unfold b64decode, b64encode. rewrite list_ascii_of_string_of.
  pose proof (a2b_chars bs 0 0 Hb) as H.
  assert (head (b64_chars bs) ≠ Some "="%char) as Hh.
  { destruct bs as [|a [|b [|c bs]]]; cbn [b64_chars head]; [done| | |]; inv Hb as [|?? Ha _];
      unfold byte_ok in Ha; intros [= E]; by apply (b64_value_char (a / 4) ltac:(zdiv)). }
  destruct (b64_chars bs) as [|c cs]; [done|]. cbn in Hh.
  destruct c as [[] [] [] [] [] [] [] []]; done.
Qed.

(** Whatever is decoded is a byte string, and the only error is ValueError. *)
Lemma a2b_sound cs quad left pads padding :
  0 ≤ quad ≤ 3 → 0 ≤ left < 64 → (2 ≤ quad → left < 16) → (quad = 3 → left < 4) →
  match a2b cs quad left pads padding with
  | Ok bs => Forall byte_ok bs
  | Raise e => ∃ m, e = ValueError m
  end.
Proof.
  revert quad left pads padding. induction cs as [|c cs IH]; intros quad left pads padding Hq Hl H2 H3; cbn [a2b].
  { destruct (quad =? 0); [constructor|eauto]. }
  case_bool_decide.
  { destruct ((2 <=? quad) && _); [destruct cs; eauto|]. by apply IH. }
  destruct (b64_value c) as [v|] eqn:Ev; [|eauto]. apply b64_value_range in Ev.
  destruct padding; [eauto|].
  repeat match goal with |- context [if ?b then _ else _] => destruct b eqn:? end; bools.
  - apply IH; lia.
  - pose proof (IH 2 (v mod 16) 0 false ltac:(zdiv) ltac:(zdiv) ltac:(zdiv) ltac:(zdiv)) as IHx.
    destruct (a2b cs _ _ _ _); cbn; [|done]. constructor; [unfold byte_ok; zdiv|done].
  - pose proof (IH 3 (v mod 4) 0 false ltac:(zdiv) ltac:(zdiv) ltac:(zdiv) ltac:(zdiv)) as IHx.
    destruct (a2b cs _ _ _ _); cbn; [|done]. constructor; [unfold byte_ok; zdiv|done].
  - pose proof (IH 0 0 0 false ltac:(zdiv) ltac:(zdiv) ltac:(zdiv) ltac:(zdiv)) as IHx.
    destruct (a2b cs _ _ _ _); cbn; [|done]. constructor; [unfold byte_ok; zdiv|done].
Qed.

Lemma b64decode_cases s :
  b64decode s = a2b (list_ascii_of_string s) 0 0 0 false ∨
  b64decode s = Raise (ValueError "Leading padding not allowed").
Proof.
  unfold b64decode. destruct (list_ascii_of_string s) as [|[[] [] [] [] [] [] [] []] cs]; auto.
Qed.

Lemma b64decode_sound s :
  match b64decode s with Ok bs => Forall byte_ok bs | Raise e => ∃ m, e = ValueError m end.
Proof. destruct (b64decode_cases s) as [-> | ->]; [apply a2b_sound; lia|eauto]. Qed.

(** ** Framed reads do not depend on the chunking *)

Lemma recv_exact_concat chunks n :
  Forall (λ c, c ≠ []) chunks → (n ≤ length (concat chunks))%nat →
  ∃ more, _recv_exact chunks n = Ok (take n (concat chunks), more) ∧
    concat more = drop n (concat chunks) ∧ Forall (λ c, c ≠ []) more.
Proof.
  revert n. induction chunks as [|c cs IH]; intros n Hne Hn.
  { destruct n; cbn in Hn; [|lia]. exists []. by split_and!. }
  inv Hne as [|?? Hc Hcs]. destruct n as [|n]; [exists (c :: cs); by repeat constructor|].
  cbn [_recv_exact concat]. destruct c as [|b c]; [done|]. set (bc := b :: c) in *.
  assert (length (concat (bc :: cs)) = length bc + length (concat cs))%nat as Hlen
    by (cbn [concat]; apply length_app).
  destruct (Nat.leb_spec (length bc) (S n)) as [Hle|Hgt].
  - destruct (IH (S n - length bc)%nat Hcs ltac:(lia)) as (more & -> & H1 & H2). exists more.
    cbn [mbind result_bind]. split_and!; [|by rewrite H1, drop_app_ge by lia|done].
    do 2 f_equal. by rewrite take_app_ge by lia.
  - exists (drop (S n) bc :: cs). split_and!.
    + do 2 f_equal. by rewrite take_app_le by lia.
    + cbn [concat]. by rewrite drop_app_le by lia.
    + constructor; [|done]. intros E. apply (f_equal length) in E. rewrite length_drop in E.
      cbn [length] in E. lia.
Qed.

Lemma recv_exact_short chunks n :
  Forall (λ c, c ≠ []) chunks → (length (concat chunks) < n)%nat →
  _recv_exact chunks n = Raise (CustomError "OSError" "peer closed connection prematurely").
Proof.
  revert n. induction chunks as [|c cs IH]; intros n Hne Hn; destruct n as [|n]; try (cbn in Hn; lia); [done|].
  inv Hne as [|?? Hc Hcs]. cbn [_recv_exact]. destruct c as [|b c]; [done|]. set (bc := b :: c) in *.
  assert (length (concat (bc :: cs)) = length bc + length (concat cs))%nat as Hlen
    by (cbn [concat]; apply length_app).
  rewrite (proj2 (Nat.leb_le _ _)) by lia. rewrite IH by (done || lia). done.
Qed.

(** ** The enforcer only refuses *)

(** Registered decoders raise only what C3 catches. *)
Definition decoders_total (p : SignerPolicy) : Prop :=
  ∀ pid d, venue_spend_decoders p !! pid = Some d → ∀ b,
    match d b with Ok _ | Raise (KeyError _) | Raise (ValueError _) => True | _ => False end.

Definition refusal {A} (r : result A) : Prop :=
  match r with Ok _ => True | Raise e => ∃ m, e = SignerRefused m end.

Lemma refusal_bind {A B} (r : result A) (f : A → result B) :
  refusal r → (∀ a, r = Ok a → refusal (f a)) → refusal (r ≫= f).
Proof. destruct r; cbn; auto. Qed.

Lemma or_unparseable_refusal {A} (r : result A) : value_error r → refusal (or_unparseable r).
Proof. destruct r as [a|[]]; cbn; eauto; done. Qed.

Lemma index_in {A} (l : list A) i : 0 ≤ i < zlen l → ∃ x, index l i = Ok x.
Proof. intros H. destruct (index_ok l i H) as (x & Hx & _). eauto. Qed.

Lemma resolve_value_error keys i : value_error (_resolve keys i).
Proof.
  unfold _resolve. destruct (Z.ltb_spec i 0); [done|]. destruct (Z.leb_spec (zlen keys) i); [done|].
  cbn. by destruct (index_in keys i ltac:(lia)) as [x ->].
Qed.

Lemma transfer_value_error keys ix nacc src dst :
  0 ≤ src < nacc → 0 ≤ dst < nacc → value_error (transfer_of keys ix nacc src dst).
Proof.
  intros Hs Hd. unfold transfer_of. destruct (_ <? 12); [done|].
  destruct (Z.ltb_spec (zlen (account_indices ix)) nacc); [done|]. cbn.
  destruct (index_in (account_indices ix) src ltac:(lia)) as [i ->]. cbn.
  apply value_error_bind; [apply resolve_value_error|]. intros s _.
  destruct (index_in (account_indices ix) dst ltac:(lia)) as [j ->]. cbn.
  by apply value_error_bind; [apply resolve_value_error|].
Qed.

Lemma system_decode_value_error ix keys : value_error (_decode_system_transfer ix keys).
Proof.
  unfold _decode_system_transfer. destruct (_ <? 4); [done|]. cbn zeta.
  repeat case_match; try done; apply transfer_value_error; lia.
Qed.

Lemma cb_decode_value_error ix : value_error (_decode_compute_budget_ix ix).
Proof.
  unfold _decode_compute_budget_ix. destruct (Z.ltb_spec (zlen (data ix)) 1); [done|].
  destruct (index_in (data ix) 0 ltac:(lia)) as [t ->]. cbn [mbind result_bind].
  repeat case_match; done.
Qed.

Lemma compute_budget_refusal p ixs lim price : refusal (compute_budget p ixs lim price).
Proof.
  revert lim price. induction ixs as [|ix ixs IH]; intros lim price; cbn [compute_budget]; [done|].
  destruct (negb _); [done|]. apply refusal_bind; [apply or_unparseable_refusal, cb_decode_value_error|].
  intros [[[] v]|] _; apply IH.
Qed.

Lemma venue_refusal p ixs acc : decoders_total p → refusal (venue_spend p ixs acc).
Proof.
  intros Hd. revert acc. induction ixs as [|ix ixs IH]; intros acc; cbn [venue_spend]; [done|].
  destruct (bool_decide _); [done|]. destruct (_ !! _) as [d|] eqn:E; [|by eexists].
  specialize (Hd _ _ E (data ix)). destruct (d (data ix)) as [v|[]]; try done; by eexists.
Qed.

Lemma approvals_refusal p keys ixs : refusal (check_approvals p keys ixs).
Proof.
  induction ixs as [|ix ixs IH]; cbn [check_approvals]; [done|].
  apply refusal_bind; [|done]. case_bool_decide; [|done].
  unfold _check_approval_hygiene. destruct (Z.ltb_spec (zlen (data ix)) 1); [done|].
  destruct (index_in (data ix) 0 ltac:(lia)) as [t ->]. cbn [mbind result_bind].
  destruct (negb _); [done|]. destruct (zlen (data ix) <? 9); [by eexists|]. cbn zeta.
  set (slot := if t =? _TOKEN_APPROVE then 1 else 2).
  assert (0 ≤ slot) by (subst slot; case_match; lia).
  destruct (Z.leb_spec (zlen (account_indices ix)) slot); [by eexists|].
  destruct (index_in (account_indices ix) slot ltac:(lia)) as [i ->]. cbn [mbind result_bind].
  pose proof (resolve_value_error keys i) as Hr. destruct (_resolve keys i) as [d|[]]; try done; cbn;
    [|by eexists]. destruct (_ && _); cbn; [by eexists|done].
Qed.

Section Handler.
Context {C : Clock} {S : Ed25519Signer}.
Context (solders : option (string → string → string → string → option string)).

Lemma system_spend_refusal p wallet keys ixs acc :
  refusal (system_spend_spec solders p wallet keys ixs acc).
Proof.
  revert acc. induction ixs as [|ix ixs IH]; intros acc; cbn [system_spend_spec]; [done|].
  destruct (negb _); [done|].
  apply refusal_bind; [apply or_unparseable_refusal, system_decode_value_error|].
  intros [[[s r] v]|] _; [|done]. destruct (negb _); [done|].
  destruct (if bool_decide _ then true else _); [done|by eexists].
Qed.

Lemma price_refusal p tx wallet :
  decoders_total p → Forall byte_ok tx → refusal (price_spec solders p tx wallet).
Proof.
  intros Hd Hb. unfold price_spec.
  apply refusal_bind; [by apply or_unparseable_refusal, parse_value_error|]. intros parsed _.
  destruct (negb _); [by eexists|]. destruct (has_address_table_lookups _); [by eexists|].
  apply refusal_bind; [unfold check_allowlist; destruct (forallb _ _); [done|by eexists]|]. intros _ _.
  apply refusal_bind; [apply system_spend_refusal|]. intros s _.
  apply refusal_bind; [by apply venue_refusal|]. intros v _.
  apply refusal_bind; [apply compute_budget_refusal|]. intros lp _. cbn zeta.
  destruct (_ <? _); [by eexists|done].
Qed.

Lemma enforce_refusal p l tx wallet now_s :
  decoders_total p → Forall byte_ok tx → refusal (enforce_spec solders p l tx wallet now_s).
Proof.
  intros Hd Hb. unfold enforce_spec. apply refusal_bind; [by apply price_refusal|]. intros pt _.
  destruct (would_exceed _ _ _ _ _) as [[v|] l']; cbn; [by eexists|apply approvals_refusal].
Qed.

(** What an accepted request was priced at, and that it fits the window. *)
Lemma enforce_spec_priced p l tx wallet now_s :
  enforce_spec solders p l tx wallet now_s = Ok tt →
  ∃ parsed total, price_spec solders p tx wallet = Ok (parsed, total) ∧
    zsum (_entries (_prune now_s l)).*2 + total ≤ aggregate_cap_lamports p ∧
    zlen (_entries (_prune now_s l)) + 1 ≤ max_sign_count p.
Proof.
  unfold enforce_spec. destruct (price_spec _ _ _ _) as [[parsed total]|]; [|done].
  cbn [mbind result_bind fst snd]. unfold would_exceed. cbn zeta. cbn [fst].
  destruct (aggregate_cap_lamports p <? _) eqn:Ha; [done|].
  destruct (max_sign_count p <? _) eqn:Hm; [done|]. intros _. bools.
  exists parsed, total. split_and!; done.
Qed.

Lemma prune_idemp now_s l : _prune now_s (_prune now_s l) = _prune now_s l.
Proof.
  unfold _prune; cbn. f_equal. induction (_entries l) as [|x xs IH]; [done|].
  rewrite filter_cons. case_decide; [|done]. rewrite filter_cons. by rewrite decide_True, IH.
Qed.

Lemma record_prune now_s spend l : record now_s spend (_prune now_s l) = record now_s spend l.
Proof. unfold record. by rewrite prune_idemp. Qed.

(** [sign_transaction] raises only [ValueError]. *)
Lemma sign_value_error tx i : Forall byte_ok tx → value_error (sign_transaction tx i).
Proof.
  intros Hb. unfold sign_transaction.
  apply value_error_bind; [by apply read_compact_safe|]. intros [n p] _.
  destruct (_ || _); [done|]. destruct (_ <? _); [done|]. by destruct (negb _).
Qed.

(** What a signature over [tx] produces: only slot 0 changes. *)
Lemma sign_transaction_shape tx signed :
  Forall byte_ok tx → sign_transaction tx 0 = Ok signed →
  ∃ n p, read_compact_u16 tx 0 = Ok (n, p) ∧ 1 ≤ n ∧ 0 < p ∧ p + n * 64 ≤ zlen tx ∧
    take (Z.to_nat p) signed = take (Z.to_nat p) tx ∧
    slice signed p (p + 64) = sign_message (drop (Z.to_nat (p + n * 64)) tx) ∧
    drop (Z.to_nat (p + 64)) signed = drop (Z.to_nat (p + 64)) tx ∧ length signed = length tx.
Proof.
  intros Hb. unfold sign_transaction.
  destruct (read_compact_safe tx 0 ltac:(lia) Hb) as [_ Hs].
  destruct (read_compact_u16 tx 0) as [[n p]|] eqn:E; [|done]. destruct (Hs _ _ eq_refl) as [_ Hp].
  cbn [mbind result_bind orb Z.ltb Z.compare].
  destruct (Z.leb_spec n 0); [done|]. destruct (Z.ltb_spec (zlen tx) (p + n * 64)); [done|].
  set (msg := drop _ tx). destruct (Z.eqb_spec (zlen (sign_message msg)) 64) as [Hl|]; [|done].
  cbn [negb]. intros [= <-]. exists n, p. unfold zlen in *.
  rewrite Z.mul_0_l, Z.add_0_r.
  assert (length (take (Z.to_nat p) tx) = Z.to_nat p) as Ht by (rewrite length_take; lia).
  split_and!; [done|lia|lia|lia| | | |].
  - by rewrite take_app_length'.
  - unfold slice. rewrite drop_app_length' by done. by rewrite take_app_length' by lia.
  - rewrite app_assoc, drop_app_length'; [by rewrite Z2Nat.inj_add by lia|].
    rewrite length_app, Ht. lia.
  - rewrite !length_app, Ht, length_drop. lia.
Qed.

(** The transaction a request asks to sign, if it names this wallet and carries
    well-formed base64. *)
Definition request_tx (fields : list (string * option string)) (expected : option string) : option bytes :=
  if wallet_id_matches fields expected then
    match obj_get fields "tx_b64" with
    | Some (Some s) => match b64decode s with Ok tx => Some tx | Raise _ => None end
    | _ => None
    end
  else None.

Lemma request_tx_bytes fields expected tx : request_tx fields expected = Some tx → Forall byte_ok tx.
Proof.
  unfold request_tx. destruct (wallet_id_matches _ _); [|done].
  destruct (obj_get _ _) as [[s|]|]; [|done..]. pose proof (b64decode_sound s).
  destruct (b64decode s); [|done]. by intros [= <-].
Qed.

(** The ledger was left alone or pruned. *)
Definition pruned_at (now_s : time) (l l' : VelocityLedger) : Prop := l' = l ∨ l' = _prune now_s l.

(** A response and the ledger it leaves, for the transaction of a request. *)
Definition answered (tx : option bytes) (now_s : time) (e e' : Enforcer) (resp : response) : Prop :=
  caches_valid solders e' ∧ _policy e' = _policy e ∧
  match resp with
  | Signed s pk => ∃ t signed parsed total,
      tx = Some t ∧ enforce_spec solders (_policy e) (_ledger e) t pubkey_b58 now_s = Ok tt ∧
      sign_transaction t 0 = Ok signed ∧ s = b64encode signed ∧ pk = pubkey_b58 ∧
      price_spec solders (_policy e) t pubkey_b58 = Ok (parsed, total) ∧
      _ledger e' = record now_s total (_ledger e)
  | Refused _ => pruned_at now_s (_ledger e) (_ledger e') ∧
      ∀ t signed, tx = Some t → enforce_spec solders (_policy e) (_ledger e) t pubkey_b58 now_s = Ok tt →
        sign_transaction t 0 ≠ Ok signed
  end.

Lemma sign_and_record_spec tx now_s e parsed total :
  caches_valid solders e → Forall byte_ok tx →
  price_spec solders (_policy e) tx pubkey_b58 = Ok (parsed, total) →
  ∃ e', sign_and_record solders tx now_s e =
    (Ok (match sign_transaction tx 0 with
         | Ok signed => Signed (b64encode signed) pubkey_b58
         | Raise _ => Refused "signer_tx_unparseable"
         end), e') ∧
    caches_valid solders e' ∧ _policy e' = _policy e ∧
    _ledger e' = (if is_ok (sign_transaction tx 0) then record now_s total (_ledger e) else _ledger e).
Proof.
  intros He Hb Hp. unfold sign_and_record.
  pose proof (sign_value_error tx 0 Hb) as Hs. destruct (sign_transaction tx 0) as [signed|[]]; try done; [|by eexists].
  unfold compute_spend_lamports.
  destruct (parse_and_price_transparent solders tx pubkey_b58 e He) as (P1 & P2 & Hpol & Hled). mstep.
  destruct (_parse_and_price solders tx pubkey_b58 e) as [r e1]. cbn in *. rewrite P1, Hp.
  eexists. split; [done|]. cbn. rewrite Hled. split_and!; try done. by destruct P2.
Qed.

Lemma enforce_and_sign_spec tx now_s e :
  caches_valid solders e → decoders_total (_policy e) → Forall byte_ok tx →
  ∃ resp e', enforce_and_sign solders tx now_s e = (Ok resp, e') ∧ answered (Some tx) now_s e e' resp.
Proof.
  intros He Hd Hb. unfold enforce_and_sign.
  pose proof (enforce_transparent solders tx pubkey_b58 now_s e He) as Ht.
  destruct (enforce _ _ _ _ _) as [r e1]. destruct Ht as (-> & H1 & H2 & H3).
  pose proof (enforce_refusal (_policy e) (_ledger e) tx pubkey_b58 now_s Hd Hb) as Hr.
  destruct (enforce_spec _ _ _ _ _ _) as [[]|x] eqn:Ee.
  - destruct (enforce_spec_priced _ _ _ _ _ Ee) as (parsed & total & Hp & _). rewrite Hp in H3. cbn in H3.
    destruct (sign_and_record_spec tx now_s e1 parsed total H1 Hb ltac:(by rewrite H2)) as (e2 & -> & V & P & L).
    rewrite H3, record_prune in L. eexists _, _. split; [done|]. split; [done|]. split; [congruence|].
    destruct (sign_transaction tx 0) as [signed|] eqn:Es; cbn in L.
    + exists tx, signed, parsed, total. by split_and!.
    + split; [by right|]. intros ? ? [= <-] _. by rewrite Es.
  - destruct Hr as [m ->]. eexists _, _. split; [reflexivity|]. split; [done|]. split; [done|].
    split; [|by intros ? ? [= <-]; rewrite Ee]. rewrite H3. destruct (is_ok _); [by right|by left].
Qed.

Lemma handle_spec fields now_s expected e :
  caches_valid solders e → decoders_total (_policy e) →
  ∃ resp e', handle_sign_request solders (JObj fields) now_s expected e = (Ok resp, e') ∧
    answered (request_tx fields expected) now_s e e' resp.
Proof.
  intros He Hd. unfold handle_sign_request.
  assert (∀ m, answered None now_s e e (Refused m)) as Hn.
  { intros m. split_and!; try done. by left. }
  pose proof (request_tx_bytes fields expected) as Hb. unfold request_tx in *.
  destruct (wallet_id_matches _ _); cbn [negb]; [|by eexists _, _].
  destruct (obj_get _ _) as [[s|]|]; [|by eexists _, _..].
  pose proof (b64decode_sound s) as Hs. destruct (b64decode s) as [tx|x].
  - by apply enforce_and_sign_spec.
  - destruct Hs as [m ->]. by eexists _, _.
Qed.

(** C23: the handler's contract.  On any JSON object it never raises.  It
    answers with a signature exactly when the request names this wallet,
    decodes, passes the cache-free C0-C5 evaluation and has a signature slot;
    then, and only then, the ledger gains one entry: the validated spend.  A
    refusal records nothing. *)
Theorem handle_sign_request_correct fields now_s expected e :
  caches_valid solders e → decoders_total (_policy e) →
  ∃ resp e', handle_sign_request solders (JObj fields) now_s expected e = (Ok resp, e') ∧
    answered (request_tx fields expected) now_s e e' resp.
Proof. apply handle_spec. Qed.

(** A signature changes the signature slot 0 and nothing else: the prefix,
    the other slots and the message are kept, the slot holds the signature of
    exactly the message bytes, and the base64 answer decodes to it. *)
Theorem signing_changes_only_slot_zero tx signed :
  Forall byte_ok tx → (∀ m, Forall byte_ok (sign_message m)) → sign_transaction tx 0 = Ok signed →
  ∃ n p, read_compact_u16 tx 0 = Ok (n, p) ∧ 1 ≤ n ∧ 0 < p ∧ p + n * 64 ≤ zlen tx ∧
    take (Z.to_nat p) signed = take (Z.to_nat p) tx ∧
    slice signed p (p + 64) = sign_message (drop (Z.to_nat (p + n * 64)) tx) ∧
    drop (Z.to_nat (p + 64)) signed = drop (Z.to_nat (p + 64)) tx ∧ length signed = length tx ∧
    b64decode (b64encode signed) = Ok signed.
Proof.
  intros Hb Hsig H. destruct (sign_transaction_shape _ _ Hb H) as (n & p & Hr & Hn & Hp & Hl & H1 & H2 & H3 & H4).
  exists n, p. split_and!; try done. apply b64_decode_encode.
  rewrite <- (take_drop (Z.to_nat p) signed), H1. apply Forall_app. split; [by apply Forall_take|].
  rewrite <- (take_drop 64 (drop _ signed)). apply Forall_app. split.
  - unfold slice in H2. replace (Z.to_nat (p + 64 - p)) with 64%nat in H2 by lia. by rewrite H2.
  - rewrite drop_drop. replace (Z.to_nat p + 64)%nat with (Z.to_nat (p + 64)) by lia.
    rewrite H3. by apply Forall_drop.
Qed.
End Handler.

(** ** The server loop *)

Section Loop.
Context {C : Clock} {S : Ed25519Signer}.
Context (solders : option (string → string → string → string → option string)).
Context (json_loads : bytes → loads_result).

Abbreviation serve_one := (_serve_one_connection solders json_loads).
Abbreviation serve_accepted := (_serve_accepted_connection solders json_loads).
Abbreviation serve := (serve_forever solders json_loads).

(** The request frame of a connection, if it arrives whole and in bounds. *)
Definition frame_body (conn : list bytes) : option bytes :=
  match _recv_exact conn 4 with
  | Ok (header, conn) =>
      let length := int_from_bytes_big header in
      if _MAX_FRAME_BYTES <? length then None
      else match _recv_exact conn (Z.to_nat length) with
           | Ok (body, _) => Some body
           | Raise _ => None
           end
  | Raise _ => None
  end.

(** A frame whose body makes [json.loads] or [payload.get] raise past the
    handlers. *)
Definition poisoned (conn : list bytes) : Prop :=
  ∃ body, frame_body conn = Some body ∧
    (json_loads body = UnicodeDecodeError ∨ json_loads body = Loaded JOther).

Definition conn_tx (conn : list bytes) (expected : option string) : option bytes :=
  body ← frame_body conn;
  match json_loads body with
  | Loaded (JObj fields) => request_tx fields expected
  | _ => None
  end.

Lemma recv_exact_oserror chunks n x : _recv_exact chunks n = Raise x → ∃ m, x = CustomError "OSError" m.
Proof.
  revert n. induction chunks as [|c cs IH]; intros [|n]; cbn [_recv_exact]; try done.
  - intros [= <-]. eauto.
  - destruct c as [|b c]; [intros [= <-]; eauto|]. destruct (_ <=? _)%nat; [|done].
    destruct (_recv_exact cs _) as [[??]|] eqn:E; cbn; [done|]. intros [= <-]. by eapply IH.
Qed.

(** What the peer sees, and what the enforcer keeps, for one connection that is
    not poisoned. *)
Lemma serve_accepted_ok conn now_s expected e :
  caches_valid solders e → decoders_total (_policy e) → ¬ poisoned conn →
  ∃ out e', serve_accepted conn now_s expected e = (Ok out, e') ∧
    match out with
    | Some resp => answered solders (conn_tx conn expected) now_s e e' resp
    | None => e' = e
    end.
Proof.
  intros He Hd Hnp. unfold _serve_accepted_connection, _serve_one_connection, poisoned, conn_tx, frame_body in *.
  assert (∀ m, answered solders None now_s e e (Refused m)) as Hn.
  { intros m. split_and!; try done. by left. }
  unfold lift, mbind at 1, M_bind. destruct (_recv_exact conn 4) as [[h c]|x] eqn:E1.
  2: { apply recv_exact_oserror in E1 as [m ->]. rewrite bool_decide_eq_true_2 by done. by exists None, e. }
  destruct (_MAX_FRAME_BYTES <? _); [by eexists (Some _), e|].
  unfold mbind at 1. destruct (_recv_exact c _) as [[b c']|x] eqn:E2.
  2: { apply recv_exact_oserror in E2 as [m ->]. rewrite bool_decide_eq_true_2 by done. by exists None, e. }
  cbn [mbind option_bind].
  destruct (json_loads b) as [[fields|]| |] eqn:Ej.
  - destruct (handle_spec solders fields now_s expected e He Hd) as (resp & e' & -> & Ha). by exists (Some resp), e'.
  - destruct Hnp. eauto.
  - by eexists (Some _), e.
  - destruct Hnp. eauto.
Qed.

Lemma poisoned_raises conn now_s expected e :
  poisoned conn → ∃ x, serve_accepted conn now_s expected e = (Raise x, e) ∧
    (x = ValueError "UnicodeDecodeError" ∨ x = CustomError "AttributeError" "'get'").
Proof.
  intros (body & Hf & Hj). unfold _serve_accepted_connection, _serve_one_connection, frame_body in *.
  unfold lift, mbind at 1, M_bind. destruct (_recv_exact conn 4) as [[h c]|]; [|done].
  destruct (_MAX_FRAME_BYTES <? _); [done|].
  unfold mbind at 1. destruct (_recv_exact c _) as [[b c']|]; [|done]. injection Hf as ->.
  destruct Hj as [-> | ->]; cbn; eauto.
Qed.

(** Which peers can stop the signer.  Serving a connection returns (and the
    accept loop goes on) unless a complete frame of at most 64 KiB holds a
    body that is not UTF-8 or is JSON but not an object: then an exception
    that no handler catches leaves [serve_forever]. *)
Theorem server_survives_iff_not_poisoned conn now_s expected e :
  caches_valid solders e → decoders_total (_policy e) →
  (∃ out e', serve_accepted conn now_s expected e = (Ok out, e')) ↔ ¬ poisoned conn.
Proof.
  intros He Hd. split.
  - intros (out & e' & H) Hp. destruct (poisoned_raises conn now_s expected e Hp) as (x & Hx & _). congruence.
  - intros Hp. destruct (serve_accepted_ok conn now_s expected e He Hd Hp) as (out & e' & H & _). eauto.
Qed.

(** *** The rolling window over a run *)

(** Time and validated spend of every signature a run issued. *)
Fixpoint signed_log (p : SignerPolicy) (expected : option string)
    (conns : list (time * list bytes)) (rs : list (option response)) : list (time * Z) :=
  match conns, rs with
  | (t, conn) :: conns, r :: rs =>
      let rest := signed_log p expected conns rs in
      match r, conn_tx conn expected with
      | Some (Signed _ _), Some tx =>
          match price_spec solders p tx pubkey_b58 with
          | Ok (_, total) => (t, total) :: rest
          | Raise _ => rest
          end
      | _, _ => rest
      end
  | _, _ => []
  end.

Definition after (cutoff : time) (log : list (time * Z)) : list (time * Z) :=
  filter (λ x, time_gtb x.1 cutoff = true) log.

(** Every signature respects both rolling caps at the moment it is issued. *)
Definition window_ok (p : SignerPolicy) (log : list (time * Z)) : Prop :=
  ∀ n t s, log !! n = Some (t, s) →
    let win := after (time_minus t (window_seconds p)) (take (Datatypes.S n) log) in
    (t, s) ∈ win ∧ zsum win.*2 ≤ aggregate_cap_lamports p ∧ zlen win ≤ max_sign_count p.

Context `{!ClockLaws C}.

Lemma after_app c l1 l2 : after c (l1 ++ l2) = after c l1 ++ after c l2.
Proof. apply filter_app. Qed.

Lemma after_prune (now now' : time) w (l : list (time * Z)) :
  time_gtb now now' = false →
  after (time_minus now' w) (after (time_minus now w) l) = after (time_minus now' w) l.
Proof.
  intros Hle. unfold after. rewrite list_filter_filter. apply list_filter_iff.
  intros [t s]; cbn. split; [tauto|]. intros H. split; [done|]. by eapply cutoff_mono.
Qed.

Lemma window_ok_snoc p log t s :
  window_ok p log → time_gtb t (time_minus t (window_seconds p)) = true →
  zsum (after (time_minus t (window_seconds p)) log).*2 + s ≤ aggregate_cap_lamports p →
  zlen (after (time_minus t (window_seconds p)) log) + 1 ≤ max_sign_count p →
  window_ok p (log ++ [(t, s)]).
Proof.
  intros Hok Ht Ha Hc n t' s' Hn. destruct (decide (n < length log)%nat) as [Hlt|Hge].
  - rewrite lookup_app_l in Hn by done. rewrite take_app_le by lia. by apply Hok.
  - apply lookup_snoc_Some in Hn as [[? _]|[-> [= <- <-]]]; [lia|].
    rewrite take_ge by (rewrite length_app; cbn; lia). cbn zeta. rewrite after_app.
    assert (after (time_minus t (window_seconds p)) [(t, s)] = [(t, s)]) as ->
      by (unfold after; rewrite filter_cons_True by done; done).
    rewrite fmap_app, zsum_app. cbn [fmap list_fmap zsum foldr snd]. split_and!; [set_solver|lia|].
    rewrite zlen_app. unfold zlen at 2. cbn [length]. lia.
Qed.

(** What the ledger knows of a run whose last reading was [last]. *)
Record tracks (p : SignerPolicy) (log : list (time * Z)) (last : time) (l : VelocityLedger) : Prop := {
  tr_ok : window_ok p log;
  tr_window : _window_seconds l = window_seconds p;
  tr_after : ∀ now, time_gtb last now = false →
    after (time_minus now (window_seconds p)) (_entries l) = after (time_minus now (window_seconds p)) log
}.

Lemma prune_after (now : time) l :
  _entries (_prune now l) = after (time_minus now (_window_seconds l)) (_entries l).
Proof. done. Qed.

Lemma tracks_prune p log last now l :
  tracks p log last l → time_gtb last now = false → tracks p log now (_prune now l).
Proof.
  intros [Hok Hw Ha] Hle. split; [done|done|]. intros now' Hle'. rewrite prune_after, Hw.
  rewrite after_prune by done. apply Ha. by eapply time_le_trans.
Qed.

Lemma tracks_later p log last now l :
  tracks p log last l → time_gtb last now = false → tracks p log now l.
Proof.
  intros [Hok Hw Ha] Hle. split; [done|done|]. intros now' Hle'. apply Ha. by eapply time_le_trans.
Qed.

Lemma tracks_record p log last now l total :
  tracks p log last l → time_gtb last now = false → 0 < window_seconds p →
  zsum (_entries (_prune now l)).*2 + total ≤ aggregate_cap_lamports p →
  zlen (_entries (_prune now l)) + 1 ≤ max_sign_count p →
  tracks p (log ++ [(now, total)]) now (record now total l).
Proof.
  intros Ht Hle Hpos Ha Hc.
  assert (_entries (_prune now l) = after (time_minus now (window_seconds p)) log) as Hent.
  { rewrite <- (tr_after _ _ _ _ Ht now Hle). by rewrite prune_after, (tr_window _ _ _ _ Ht). }
  rewrite Hent in Ha, Hc. pose proof (tracks_prune _ _ _ _ _ Ht Hle) as [Hok Hw Haf].
  split; [|done|].
  - apply window_ok_snoc; try done. by apply cutoff_before.
  - intros now' Hle'. unfold record; cbn [_entries]. by rewrite !after_app, Haf.
Qed.

(** Readings of a monotonic clock. *)
Fixpoint monotonic (last : time) (ts : list time) : Prop :=
  match ts with [] => True | t :: ts => time_gtb last t = false ∧ monotonic t ts end.

Lemma serve_tracks conns expected log last e rs e' :
  caches_valid solders e → decoders_total (_policy e) → 0 < window_seconds (_policy e) →
  tracks (_policy e) log last (_ledger e) → monotonic last conns.*1 →
  serve conns expected e = (Ok rs, e') →
  window_ok (_policy e) (log ++ signed_log (_policy e) expected conns rs).
Proof.
  revert log last e rs. induction conns as [|[t conn] conns IH]; intros log last e rs Hv Hd Hpos Ht Hm H.
  { cbn in *. rewrite app_nil_r. by destruct Ht. }
  destruct Hm as [Hle Hm]. cbn [serve_forever signed_log] in *.
  assert (Decision (poisoned conn)) as Hdec.
  { unfold poisoned. destruct (frame_body conn) as [b|]; [|right; by intros (? & ? & ?)].
    destruct (json_loads b) as [[f|]| |] eqn:E; [right|left|right|left]; try (eexists; by eauto);
      intros (? & [= <-] & [|]); congruence. }
  destruct Hdec as [Hp|Hp].
  { destruct (poisoned_raises conn t expected e Hp) as (x & Hx & _). unfold mbind, M_bind in H. by rewrite Hx in H. }
  destruct (serve_accepted_ok conn t expected e Hv Hd Hp) as (out & e1 & Hs & Ha).
  unfold mbind, M_bind in H. rewrite Hs in H.
  destruct (serve conns expected e1) as [[rs'|] e2] eqn:Er; [|done].
  injection H as <- <-.
  destruct out as [resp|]; [|subst e1; eapply (IH _ t); try done; by apply (tracks_later _ _ last)].
  destruct Ha as (Hv1 & Hp1 & Ha). rewrite <- Hp1 in *.
  destruct resp as [s pk|m].
  - destruct Ha as (tx & signed & parsed & total & -> & He & _ & _ & _ & Hpr & Hl). rewrite Hpr.
    destruct (enforce_spec_priced _ _ _ _ _ _ He) as (? & ? & Hpr' & Hagg & Hcnt).
    assert (x0 = total) as -> by congruence.
    replace (log ++ (t, total) :: _) with ((log ++ [(t, total)]) ++ signed_log (_policy e1) expected conns rs')
      by (by rewrite <- app_assoc).
    eapply (IH _ t); try done. rewrite Hl. by eapply tracks_record.
  - destruct Ha as [[Hl|Hl] _]; eapply (IH _ t); try done; rewrite Hl;
      [by eapply tracks_later|by eapply tracks_prune].
Qed.

(** C7: the velocity guarantee, end to end.  Boot the signer with any loaded
    policy and let any peers talk to it, at the readings of a monotonic clock:
    at the moment each signature is issued, all signatures issued within the
    last [window_seconds], that one included, total at most the aggregate cap
    and number at most [max_sign_count]. *)
Theorem velocity_window_safety p e start conns expected rs e' :
  boot_enforcer (Ok p) = Ok e → decoders_total p → monotonic start conns.*1 →
  serve conns expected e = (Ok rs, e') →
  window_ok p (signed_log p expected conns rs).
Proof.
  unfold boot_enforcer, VelocityLedger_init. intros Hb Hd Hm H.
  destruct (Z.leb_spec (window_seconds p) 0); [done|]. injection Hb as <-.
  apply (serve_tracks conns expected [] start (Enforcer_init p (mk_ledger (window_seconds p) [])) rs e');
    done.
Qed.
End Loop.

(** *** Witnesses *)

Definition sample_signer : Ed25519Signer := {| pubkey_b58 := wallet_id; sign_message := λ _, replicate 64 1 |}.
Definition sample_fields : list (string * option string) :=
  [("wallet_id", Some "wallet-0"); ("tx_b64", Some (b64encode tip_tx))].
Definition sample_loads (body : bytes) : loads_result :=
  match body with
  | [91; 93] => Loaded JOther
  | _ => Loaded (JObj sample_fields)
  end.
Definition sample_enforcer : Enforcer (C := Z_clock) := Enforcer_init sample_policy (mk_ledger (C := Z_clock) 60 []).
Definition tip_response : response :=
  match sign_transaction (S := sample_signer) tip_tx 0 with
  | Ok b => Signed (b64encode b) wallet_id
  | Raise _ => Refused ""
  end.

Lemma sample_caches_valid : caches_valid (C := Z_clock) None sample_enforcer.
Proof. split; cbn; [|done]. intros w k a. by rewrite lookup_empty. Defined.

Lemma sample_decoders_total : decoders_total sample_policy.
Proof. unfold decoders_total, sample_policy. cbn [venue_spend_decoders]. intros pid d. by rewrite lookup_empty. Defined.

Lemma handle_witness :
  ∃ resp e', handle_sign_request (C := Z_clock) (S := sample_signer) None (JObj sample_fields) 5 (Some "wallet-0")
               sample_enforcer = (Ok resp, e') ∧ zlen (_entries (_ledger e')) = 1.
Proof.
  destruct (handle_sign_request_correct (C := Z_clock) (S := sample_signer) None sample_fields 5
    (Some "wallet-0") sample_enforcer sample_caches_valid sample_decoders_total) as (resp & e' & H & _).
  exists resp, e'. split; [exact H|].
  replace e' with (snd (handle_sign_request (C := Z_clock) (S := sample_signer) None (JObj sample_fields) 5
    (Some "wallet-0") sample_enforcer)) by (rewrite H; reflexivity).
  vm_compute. reflexivity.
Defined.

Lemma tip_tx_bytes : Forall byte_ok tip_tx.
Proof.
  assert (Forall (λ b, Is_true ((0 <=? b) && (b <? 256))) tip_tx) as H.
  { apply forallb_True, Is_true_true_2. vm_compute. reflexivity. }
  eapply Forall_impl; [exact H|]. intros x Hx. apply Is_true_true in Hx. bools. unfold byte_ok. lia.
Qed.

Lemma signing_witness :
  ∃ signed, sign_transaction (S := sample_signer) tip_tx 0 = Ok signed ∧ length signed = length tip_tx.
Proof.
  pose proof tip_tx_bytes as Hb.
  assert (∀ m, Forall byte_ok (sign_message (Ed25519Signer := sample_signer) m)) as Hm.
  { intros m. cbn [sign_message sample_signer]. apply Forall_replicate. unfold byte_ok. lia. }
  destruct (sign_transaction (S := sample_signer) tip_tx 0) as [signed|] eqn:E; [|by vm_compute in E].
  exists signed. split; [reflexivity|].
  destruct (signing_changes_only_slot_zero (S := sample_signer) tip_tx signed Hb Hm E)
    as (n & p & _ & _ & _ & _ & _ & _ & _ & Hl & _). exact Hl.
Defined.

(** A frame carrying [body]. *)
Definition frame (body : bytes) : list bytes := [int_to_bytes_big 4 (zlen body); body].

Lemma server_poisoned_witness :
  ¬ ∃ out e', _serve_accepted_connection (C := Z_clock) (S := sample_signer) None sample_loads (frame [91; 93]) 5
                (Some "wallet-0") sample_enforcer = (Ok out, e').
Proof.
  rewrite (server_survives_iff_not_poisoned (C := Z_clock) (S := sample_signer) None sample_loads
    (frame [91; 93]) 5 (Some "wallet-0") sample_enforcer sample_caches_valid sample_decoders_total).
  intros H. apply H. exists [91; 93]. split; [vm_compute; reflexivity|right; reflexivity].
Defined.

Lemma velocity_witness :
  ∃ e', serve_forever (C := Z_clock) (S := sample_signer) None sample_loads [(5, frame [1]); (6, frame [1])]
          (Some "wallet-0") sample_enforcer = (Ok [Some tip_response; Some tip_response], e') ∧
    window_ok (C := Z_clock) sample_policy
      (signed_log (C := Z_clock) (S := sample_signer) None sample_loads sample_policy (Some "wallet-0")
         [(5, frame [1]); (6, frame [1])] [Some tip_response; Some tip_response]).
Proof.
  destruct (serve_forever (C := Z_clock) (S := sample_signer) None sample_loads [(5, frame [1]); (6, frame [1])]
    (Some "wallet-0") sample_enforcer) as [r e'] eqn:E.
  assert (r = Ok [Some tip_response; Some tip_response]) as ->.
  { replace r with (fst (serve_forever (C := Z_clock) (S := sample_signer) None sample_loads
      [(5, frame [1]); (6, frame [1])] (Some "wallet-0") sample_enforcer)) by (rewrite E; reflexivity).
    vm_compute. reflexivity. }
  exists e'. split; [reflexivity|].
  assert (boot_enforcer (C := Z_clock) (Ok sample_policy) = Ok sample_enforcer) as Hb by reflexivity.
  assert (monotonic (C := Z_clock) 0 ([(5, frame [1]); (6, frame [1])] : list (Z * list bytes)).*1) as Hm
    by (split; [reflexivity|split; [reflexivity|exact I]]).
  exact (velocity_window_safety (C := Z_clock) (S := sample_signer) None sample_loads sample_policy
    sample_enforcer 0 [(5, frame [1]); (6, frame [1])] (Some "wallet-0") [Some tip_response; Some tip_response] e'
    Hb sample_decoders_total Hm E).
Defined.
