(* ===== verification/Intents.v ===== *)
(** * The intent union: [aats/contracts/intents.py] and [EventTime] of
    [aats/contracts/events.py]

    Every constructor runs its pydantic validators in order; [pynum] fields are
    those the code tests against [float]. *)

From S2P Require Import Prelude Decimal RiskContracts.

Module EventTime.
Record t : Type := mk { slot : Z; block_time_ms : Z; wall_clock_ms : Z }.

Definition _non_negative (v : Z) : result Z :=
  if v <? 0 then Raise (ValueError "EventTime field must be non-negative") else Ok v.

Definition _block_time_reasonable (e : t) : result t :=
  if block_time_ms e =? 0 then Raise (ValueError "block_time_ms must be > 0") else Ok e.

Definition new (slot block_time wall_clock : Z) : result t :=
  s ← _non_negative slot;
  b ← _non_negative block_time;
  w ← _non_negative wall_clock;
  _block_time_reasonable (mk s b w).
End EventTime.

Module CostStack.
Record t : Type := mk {
  expected_edge_bps : Z;
  jito_tip_bps : Z;
  priority_fee_bps : Z;
  entry_slippage_bps : Z;
  amm_fee_bps : Z;
  exit_slippage_bps : Z;
  adverse_selection_bps : Z;
  total_cost_bps : Z
}.
#[global] Instance t_eq_dec : EqDecision t.
Proof. solve_decision. Defined.

Definition _reject_float_bps (edge jito prio entry amm exit adverse total : pynum) : result unit :=
  reject_floats "CostStack"
    [("expected_edge_bps", edge); ("jito_tip_bps", jito); ("priority_fee_bps", prio);
     ("entry_slippage_bps", entry); ("amm_fee_bps", amm); ("exit_slippage_bps", exit);
     ("adverse_selection_bps", adverse); ("total_cost_bps", total)].

Definition _adverse_selection_floor (c : t) : result t :=
  if adverse_selection_bps c <? 150 then Raise (ValueError "adverse_selection_bps must be >= 150")
  else Ok c.

Definition new (edge jito prio entry amm exit adverse total : pynum) : result t :=
  _ ← _reject_float_bps edge jito prio entry amm exit adverse total;
  _adverse_selection_floor (mk (pynum_int edge) (pynum_int jito) (pynum_int prio) (pynum_int entry)
    (pynum_int amm) (pynum_int exit) (pynum_int adverse) (pynum_int total)).
End CostStack.

Module EntryIntent.
Record t : Type := mk {
  client_intent_id : string;
  mint : string;
  event_time : EventTime.t;
  sol_in_lamports : Z;
  slippage_bps : Z;
  tip_lamports : Z;
  cu_price_microlamports : Z;
  target_slot : Z;
  cost_stack : CostStack.t;
  venue : string;
  wallet_id : string
}.

Definition _reject_float_money (sol tip cu : pynum) : result unit :=
  reject_floats "EntryIntent"
    [("sol_in_lamports", sol); ("tip_lamports", tip); ("cu_price_microlamports", cu)].

Definition _slot_guard (i : t) : result t :=
  let min_target := EventTime.slot (event_time i) + 5 in
  if target_slot i <? min_target then Raise (ValueError "target_slot must be >= event_time.slot + 5")
  else Ok i.

Definition _cost_gate (i : t) : result t :=
  if CostStack.expected_edge_bps (cost_stack i) <=? CostStack.total_cost_bps (cost_stack i)
  then Raise (ValueError "ENTRY rejected: expected_edge_bps <= total_cost_bps") else Ok i.

Definition new (id mint : string) (et : EventTime.t) (sol : pynum) (slippage : Z) (tip cu : pynum)
    (target : Z) (cost : CostStack.t) (venue wallet : string) : result t :=
  _ ← _reject_float_money sol tip cu;
  i ← _slot_guard (mk id mint et (pynum_int sol) slippage (pynum_int tip) (pynum_int cu) target cost venue wallet);
  _cost_gate i.
End EntryIntent.

(** [Literal["secure", "fast"]] *)
Inductive exit_mode : Type := secure | fast.
#[export] Instance exit_mode_eq_dec : EqDecision exit_mode.
Proof. solve_decision. Defined.

Module ExitIntent.
Record t : Type := mk {
  client_intent_id : string; mint : string; fraction_bps : Z; mode : exit_mode; reason : string
}.
Definition _fraction_range (v : Z) : result Z :=
  if negb ((0 <=? v) && (v <=? 10000)) then Raise (ValueError "ExitIntent.fraction_bps must be in [0, 10000]")
  else Ok v.
Definition new (id mint : string) (fraction : Z) (m : exit_mode) (reason : string) : result t :=
  f ← _fraction_range fraction; Ok (mk id mint f m reason).
End ExitIntent.

Module ReduceIntent.
Record t : Type := mk {
  client_intent_id : string; mint : string; fraction_bps : Z; reason : string
}.
Definition _fraction_range (v : Z) : result Z :=
  if negb ((1 <=? v) && (v <=? 10000)) then Raise (ValueError "ReduceIntent.fraction_bps must be in [1, 10000]")
  else Ok v.
Definition new (id mint : string) (fraction : Z) (reason : string) : result t :=
  f ← _fraction_range fraction; Ok (mk id mint f reason).
End ReduceIntent.

Module VetoIntent.
Record t : Type := mk { client_intent_id : string; mint : string; reason : string }.
Definition new (id mint reason : string) : t := mk id mint reason.
End VetoIntent.

(** The closed union that reaches execution. *)
Inductive Intent : Type :=
| Entry (i : EntryIntent.t)
| Exit (i : ExitIntent.t)
| Reduce (i : ReduceIntent.t)
| Veto (i : VetoIntent.t).

(** [DeRiskIntentFactory]: no entry method. *)
Module DeRiskIntentFactory.
Definition exit (id mint : string) (fraction : Z) (m : exit_mode) (reason : string) : result Intent :=
  i ← ExitIntent.new id mint fraction m reason; Ok (Exit i).
Definition reduce (id mint : string) (fraction : Z) (reason : string) : result Intent :=
  i ← ReduceIntent.new id mint fraction reason; Ok (Reduce i).
Definition veto (id mint reason : string) : result Intent := Ok (Veto (VetoIntent.new id mint reason)).
End DeRiskIntentFactory.

(** Whether executing an intent can only shrink exposure: not an entry, and a
    fraction of at most the whole position. *)
Definition de_risk (i : Intent) : Prop :=
  match i with
  | Entry _ => False
  | Exit e => 0 ≤ ExitIntent.fraction_bps e ≤ 10000
  | Reduce r => 1 ≤ ReduceIntent.fraction_bps r ≤ 10000
  | Veto _ => True
  end.

(** ** Lemmas *)

Lemma exit_new_ok id mint f m r :
  0 ≤ f ≤ 10000 → DeRiskIntentFactory.exit id mint f m r = Ok (Exit (ExitIntent.mk id mint f m r)).
Proof.
  intros H. unfold DeRiskIntentFactory.exit, ExitIntent.new, ExitIntent._fraction_range.
  by rewrite (proj2 (Z.leb_le 0 f)), (proj2 (Z.leb_le f 10000)) by lia.
Qed.

Lemma reduce_new_ok id mint f r :
  1 ≤ f ≤ 10000 → DeRiskIntentFactory.reduce id mint f r = Ok (Reduce (ReduceIntent.mk id mint f r)).
Proof.
  intros H. unfold DeRiskIntentFactory.reduce, ReduceIntent.new, ReduceIntent._fraction_range.
  by rewrite (proj2 (Z.leb_le 1 f)), (proj2 (Z.leb_le f 10000)) by lia.
Qed.

(** When an entry can be constructed at all. *)
Lemma entry_new_iff id mint et sol slip tip cu target cost venue wallet :
  is_ok (EntryIntent.new id mint et sol slip tip cu target cost venue wallet) = true ↔
  (∃ s t c, sol = PyInt s ∧ tip = PyInt t ∧ cu = PyInt c) ∧
  EventTime.slot et + 5 ≤ target ∧
  CostStack.total_cost_bps cost < CostStack.expected_edge_bps cost.
Proof.
  unfold EntryIntent.new, EntryIntent._reject_float_money.
  destruct sol as [s|], tip as [t|], cu as [c|]; cbn;
    try (split; [done|intros ((? & ? & ? & ? & ? & ?) & _); done]).
  unfold EntryIntent._slot_guard, EntryIntent._cost_gate; cbn.
  destruct (Z.ltb_spec target (EventTime.slot et + 5)); cbn; [split; [done|lia]|].
  destruct (Z.leb_spec (CostStack.expected_edge_bps cost) (CostStack.total_cost_bps cost)); cbn;
    [split; [done|lia]|]. split; [|done]. intros _. split; [eauto 10|lia].
Qed.

(** C40: the union is asymmetric by construction: an entry exists only with
    integer money, a target slot at least five slots out and an edge that
    exceeds the total cost, over a cost stack whose adverse-selection term is
    at least 150 bps; and every intent the de-risk factory hands out shrinks
    exposure, a reduction by at least one basis point. *)
Theorem entry_gated_and_factory_de_risks :
  (∀ id mint et sol slip tip cu target cost venue wallet,
    is_ok (EntryIntent.new id mint et sol slip tip cu target cost venue wallet) = true ↔
    (∃ s t c, sol = PyInt s ∧ tip = PyInt t ∧ cu = PyInt c) ∧
    EventTime.slot et + 5 ≤ target ∧
    CostStack.total_cost_bps cost < CostStack.expected_edge_bps cost) ∧
  (∀ edge jito prio en amm ex adverse total c,
    CostStack.new edge jito prio en amm ex adverse total = Ok c →
    150 ≤ CostStack.adverse_selection_bps c) ∧
  (∀ id mint f m r i, DeRiskIntentFactory.exit id mint f m r = Ok i → de_risk i) ∧
  (∀ id mint f r i, DeRiskIntentFactory.reduce id mint f r = Ok i → de_risk i) ∧
  (∀ id mint r i, DeRiskIntentFactory.veto id mint r = Ok i → de_risk i).
Proof.
  split; [exact entry_new_iff|]. split.
  { intros [] [] [] [] [] [] [] [] c; cbn; try done. unfold CostStack._adverse_selection_floor; cbn.
    destruct (Z.ltb_spec z5 150); [done|]. by intros [= <-]. }
  split_and!.
  - intros id mint f m r i. unfold DeRiskIntentFactory.exit, ExitIntent.new, ExitIntent._fraction_range.
    destruct ((0 <=? f) && (f <=? 10000)) eqn:E; [|done]. bools. cbn. intros [= <-]. cbn. lia.
  - intros id mint f r i. unfold DeRiskIntentFactory.reduce, ReduceIntent.new, ReduceIntent._fraction_range.
    destruct ((1 <=? f) && (f <=? 10000)) eqn:E; [|done]. bools. cbn. intros [= <-]. cbn. lia.
  - by intros id mint r i [= <-].
Qed.

(** *** Witness *)

Lemma entry_gated_witness :
  is_ok (EntryIntent.new "id" "M" (EventTime.mk 7 1 1) (PyInt 10) 100 (PyInt 1) (PyInt 1) 12
           (CostStack.mk 400 1 1 1 1 1 150 300) "sim" "w") = true ∧
  is_ok (EntryIntent.new "id" "M" (EventTime.mk 7 1 1) (PyInt 10) 100 (PyInt 1) (PyInt 1) 11
           (CostStack.mk 400 1 1 1 1 1 150 300) "sim" "w") = false.
Proof.
  split; [|reflexivity].
  apply (proj1 entry_gated_and_factory_de_risks). cbn. split; [eauto 10|lia].
Defined.
