(* ===== verification/SurvivableStop.v ===== *)
(** * The fixed-at-entry hard stop: [aats/risk/survivable_stop.py] *)

From S2P Require Import Prelude Decimal.

(** A price argument ([object] in the code).  [NStr v] is a string with the
    finite value [Decimal(s)] gives it, [None] when [Decimal] rejects it. *)
Inductive num_in : Type :=
| NDec (d : dec)
| NInt (z : Z)
| NStr (v : option dec)
| NBool (b : bool)
| NFloat (repr : string).

(** [Decimal(s)] *)
Definition decimal_of_str (v : option dec) : result dec :=
  match v with Some d => Ok d | None => Raise (InvalidOperation "ConversionSyntax") end.

(** [bool] is an [int]: [Decimal(True) == 1]. *)
Definition _to_decimal_price (value : num_in) (field : string) : result dec :=
  match value with
  | NFloat _ => Raise (TypeError (field +:+ " must be Decimal/int/str"))
  | NDec d => Ok d
  | NInt z => Ok (dec_of_Z z)
  | NBool b => Ok (dec_of_Z (if b then 1 else 0))
  | NStr v => decimal_of_str v
  end.

(** [str(value)] of a price; a string prints as the value it stands for. *)
Definition num_str (v : num_in) : string :=
  match v with NDec d => dec_str d | NInt z => pretty z | NStr (Some d) => dec_str d | NStr None => ""
             | NBool b => if b then "True" else "False" | NFloat r => r end.

Module StopThresholds.
Record t : Type := mk { hard_stop_drawdown_bps : Z }.

Definition new (v : pynum) : result t :=
  match v with
  | PyFloat _ => Raise (TypeError "hard_stop_drawdown_bps must be int (bps)")
  | PyInt z => if negb ((0 <? z) && (z <=? 10000))
               then Raise (ValueError "hard_stop_drawdown_bps must be in (0, 10000] bps")
               else Ok (mk z)
  end.
Definition default : t := mk 4000.
End StopThresholds.

Definition d0 : dec := dec_of_Z 0.

Definition derive_stop_trigger_price (entry_fill_price : num_in) (th : StopThresholds.t) : result dec :=
  entry ← _to_decimal_price entry_fill_price "entry_fill_price";
  if dleb entry d0 then Raise (ValueError "entry_fill_price must be > 0")
  else
    factor ← ddiv (dsub (dec_of_Z 10000) (dec_of_Z (StopThresholds.hard_stop_drawdown_bps th)))
                  (dec_of_Z 10000);
    Ok (dmul entry factor).

Module StopState.
Record t : Type := mk {
  mint : string;
  entry_fill_price : dec;
  trigger_price : dec;
  thresholds : StopThresholds.t
}.

Definition __post_init__ (s : t) : result t :=
  if dleb (trigger_price s) d0 then Raise (ValueError "StopState.trigger_price must be > 0")
  else if dltb (entry_fill_price s) (trigger_price s)
  then Raise (ValueError "StopState.trigger_price must be <= entry_fill_price")
  else Ok s.

Definition at_entry (mint : string) (entry_fill_price : num_in) (th : option StopThresholds.t) : result t :=
  let th := default StopThresholds.default th in
  entry ← _to_decimal_price entry_fill_price "entry_fill_price";
  trigger ← derive_stop_trigger_price (NDec entry) th;
  __post_init__ (mk mint entry trigger th).

Definition is_breached (s : t) (mark_price : num_in) : result bool :=
  mark ← _to_decimal_price mark_price "mark_price";
  Ok (dleb mark (trigger_price s)).

Definition tighten (s : t) (proposed_trigger : num_in) : result t :=
  proposed ← _to_decimal_price proposed_trigger "proposed_trigger";
  if dltb proposed (trigger_price s) then Raise (ValueError "tighten() refused: lower than the current trigger")
  else if dleb proposed (trigger_price s) && dleb (trigger_price s) proposed then Ok s
  else if dltb (entry_fill_price s) proposed then Raise (ValueError "tighten() refused: exceeds entry")
  else __post_init__ (mk (mint s) (entry_fill_price s) proposed (thresholds s)).
End StopState.

(** ** Order on decimals *)

Lemma dle_refl a : dle a a.
Proof. intros m _ _. lia. Qed.
#[export] Hint Resolve dle_refl dle_trans : aats.

Lemma dcompare_antisym a b : dcompare b a = CompOpp (dcompare a b).
Proof. unfold dcompare. rewrite (Z.min_comm (expo b)). apply Z.compare_antisym. Qed.

Lemma dltb_dleb a b : dltb a b = negb (dleb b a).
Proof. unfold dltb, dleb. rewrite (dcompare_antisym a b). by destruct (dcompare a b). Qed.

Lemma dleb_total a b : dleb a b = false → dle b a.
Proof.
  intros H. apply dleb_dle. unfold dleb in *. rewrite (dcompare_antisym a b).
  by destruct (dcompare a b).
Qed.

Lemma dltb_dle a b : dltb a b = true → dle a b.
Proof. rewrite dltb_dleb. intros H%negb_true_iff. by apply dleb_total. Qed.

Lemma dltb_false a b : dltb a b = false → dle b a.
Proof. rewrite dltb_dleb. intros H%negb_false_iff. by apply dleb_dle. Qed.

Lemma dltb_irrefl_dle a b : dle b a → dltb a b = false.
Proof. intros H%dleb_dle. by rewrite dltb_dleb, H. Qed.

(** Positive decimals. *)
Lemma dleb_zero_coef d : dleb d d0 = false ↔ 0 < coef d.
Proof.
  unfold dleb, dcompare, rescale, d0; cbn [coef expo dec_of_Z]. rewrite Z.mul_0_l.
  pose proof (Z_pow10_pos' (expo d - Z.min (expo d) 0) ltac:(lia)) as Hp.
  destruct (Z.compare_spec (coef d * 10 ^ (expo d - Z.min (expo d) 0)) 0); split; intros; try done; nia.
Qed.

(** ** Tighten only *)

(** A well-formed stop: positive and at or below entry. *)
Definition stop_wf (s : StopState.t) : Prop :=
  StopState.__post_init__ s = Ok s.

Lemma stop_wf_iff s :
  stop_wf s ↔ 0 < coef (StopState.trigger_price s) ∧ dle (StopState.trigger_price s) (StopState.entry_fill_price s).
Proof.
  unfold stop_wf, StopState.__post_init__. rewrite <- dleb_zero_coef, <- dleb_dle, dltb_dleb.
  destruct (dleb (StopState.trigger_price s) d0); [split; [done|by intros [? _]]|].
  destruct (dleb (StopState.trigger_price s) (StopState.entry_fill_price s)); cbn; split; try done. by intros [_ ?].
Qed.

Lemma post_init_inv s s' : StopState.__post_init__ s = Ok s' → s' = s ∧ stop_wf s.
Proof.
  unfold stop_wf, StopState.__post_init__. destruct (dleb _ _); [done|]. destruct (dltb _ _); [done|].
  by intros [= <-].
Qed.

Lemma tighten_cases s p s' :
  stop_wf s → StopState.tighten s p = Ok s' →
  stop_wf s' ∧ dle (StopState.trigger_price s) (StopState.trigger_price s') ∧
  StopState.entry_fill_price s' = StopState.entry_fill_price s ∧ StopState.mint s' = StopState.mint s.
Proof.
  intros Hw. unfold StopState.tighten. destruct (_to_decimal_price p _) as [d|]; cbn; [|done].
  destruct (dltb d _) eqn:El; [done|]. apply dltb_false in El.
  destruct (_ && _); [by intros [= <-]; auto with aats|].
  destruct (dltb _ d); [done|]. intros H. apply post_init_inv in H as [-> Hw']. by split_and!.
Qed.

(** Successive tightenings. *)
Fixpoint tighten_all (s : StopState.t) (ps : list num_in) : result StopState.t :=
  match ps with [] => Ok s | p :: ps => s' ← StopState.tighten s p; tighten_all s' ps end.

(** A stop only ever tightens.  However often and with whatever proposals
    [tighten] is called, every stop it returns is well-formed, keeps entry and
    mint, stays at or below entry, has a trigger no lower than before, and
    fires on every mark the original fires on; a proposal below the trigger or
    above entry is refused. *)
Theorem stop_only_tightens s ps s' :
  stop_wf s → tighten_all s ps = Ok s' →
  stop_wf s' ∧ dle (StopState.trigger_price s) (StopState.trigger_price s') ∧
  dle (StopState.trigger_price s') (StopState.entry_fill_price s) ∧
  StopState.entry_fill_price s' = StopState.entry_fill_price s ∧ StopState.mint s' = StopState.mint s ∧
  (∀ mark, StopState.is_breached s mark = Ok true → StopState.is_breached s' mark = Ok true) ∧
  (∀ d, dltb d (StopState.trigger_price s') = true ∨ dltb (StopState.entry_fill_price s') d = true →
     is_ok (StopState.tighten s' (NDec d)) = false).
Proof.
  intros Hw H.
  assert (stop_wf s' ∧ dle (StopState.trigger_price s) (StopState.trigger_price s') ∧
    StopState.entry_fill_price s' = StopState.entry_fill_price s ∧ StopState.mint s' = StopState.mint s)
    as (Hw' & Ht & He & Hm).
  { revert s Hw H. induction ps as [|p ps IH]; intros s Hw H; cbn in H.
    - injection H as <-. by auto with aats.
    - destruct (StopState.tighten s p) as [s1|] eqn:E; [|done].
      destruct (tighten_cases _ _ _ Hw E) as (W1 & T1 & E1 & M1).
      destruct (IH s1 W1 H) as (W2 & T2 & E2 & M2). split_and!; [done|by eauto with aats|congruence..]. }
  pose proof (proj1 (stop_wf_iff s') Hw') as [Hp Hle]. split_and!; try done.
  - by rewrite <- He.
  - intros mark. unfold StopState.is_breached. destruct (_to_decimal_price mark _) as [m|]; cbn; [|done].
    intros [= Hb]. apply dleb_dle in Hb. f_equal. apply dleb_dle. by eauto with aats.
  - intros d [Hd|Hd]; unfold StopState.tighten; cbn; [by rewrite Hd|].
    destruct (dltb d _); [done|].
    assert (dleb d (StopState.trigger_price s') = false) as ->.
    { apply not_true_is_false. intros Hc%dleb_dle. rewrite dltb_dleb in Hd.
      apply negb_true_iff in Hd. rewrite (proj2 (dleb_dle d _)) in Hd; [done|]. by eauto with aats. }
    by rewrite Hd.
Qed.

(** The trigger is exactly [entry * (10000 - drawdown) / 10000] when the
    product has at most 28 digits; a full-drawdown stop is refused. *)
Lemma factor_ok dd :
  0 < dd ≤ 10000 → ∃ f, ddiv (dsub (dec_of_Z 10000) (dec_of_Z dd)) (dec_of_Z 10000) = Ok f ∧
    ∃ k, 0 ≤ k ∧ (10000 - dd) * 10 ^ k = coef f * 10 ^ (expo f + 4 + k) ∧ 0 ≤ expo f + 4 + k.
Proof.
  intros Hd. assert (dsub (dec_of_Z 10000) (dec_of_Z dd) = mkdec (10000 - dd) 0) as ->.
  { unfold dsub, rescale; cbn [coef expo dec_of_Z]. rewrite Z.min_id, Z.sub_diag, Z.pow_0_r, !Z.mul_1_r.
    apply fix28_exact; cbn [coef]. assert (10000 < 10 ^ 28) by (by vm_compute). lia. }
  change 10000 with (10 ^ 4) at 1.
  assert (Z.abs (10000 - dd) < 10 ^ 28) as Hb by (assert (10000 < 10 ^ 28) by (by vm_compute); lia).
  destruct (ddiv_pow10 (10000 - dd) 0 4 Hb ltac:(lia)) as (f & Hf & _ & k & Hk & He & Hn & _).
  exists f. split; [exact Hf|]. exists k. split; [done|].
  replace (expo f - (0 - 4) + k) with (expo f + 4 + k) in * by lia. done.
Qed.

(** *** Witness *)

Definition sample_stop : StopState.t :=
  StopState.mk "M" (dec_of_Z 100) (dec_of_Z 60) StopThresholds.default.

Lemma stop_only_tightens_witness :
  stop_wf sample_stop ∧
  ∃ s', tighten_all sample_stop [NInt 60; NDec (mkdec 755 (-1)); NInt 90] = Ok s' ∧
    dle (dec_of_Z 60) (StopState.trigger_price s').
Proof.
  split; [reflexivity|].
  destruct (tighten_all sample_stop [NInt 60; NDec (mkdec 755 (-1)); NInt 90]) as [s'|] eqn:E; [|by vm_compute in E].
  exists s'. split; [reflexivity|].
  exact (proj1 (proj2 (stop_only_tightens sample_stop _ s' eq_refl E))).
Defined.
