(* ===== verification/DecimalOrder.v ===== *)
(** * Rounding is monotone

    [fix28], the rounding of every context operation, preserves order and sign,
    so a product with a factor in [0, 1] and a difference of non-negative
    decimals stay below what they start from. *)

From S2P Require Import Prelude Decimal SurvivableStop.

(** ** Round half even *)

Lemma rhe_bounds n p : 0 < p → p * round_half_even n p ≤ n + p / 2 ∧ n ≤ p * round_half_even n p + p / 2.
Proof.
  intros Hp. unfold round_half_even. pose proof (Z.div_mod n p ltac:(lia)). pose proof (Z.mod_pos_bound n p Hp).
  set (q := n / p) in *. set (r := n mod p) in *. pose proof (Z.div_mod p 2 ltac:(lia)).
  pose proof (Z.mod_pos_bound p 2 ltac:(lia)).
  destruct (Z.ltb_spec (2 * r) p); [lia|]. destruct (Z.ltb_spec p (2 * r)); [lia|]. destruct (Z.even q); lia.
Qed.

Lemma rhe_mono n n' p : 0 < p → n ≤ n' → round_half_even n p ≤ round_half_even n' p.
Proof.
  intros Hp Hn. unfold round_half_even.
  pose proof (Z.div_le_mono n n' p Hp Hn). pose proof (Z.div_mod n p ltac:(lia)). pose proof (Z.div_mod n' p ltac:(lia)).
  pose proof (Z.mod_pos_bound n p Hp). pose proof (Z.mod_pos_bound n' p Hp).
  destruct (Z.eq_dec (n / p) (n' / p)) as [He|Hne].
  - rewrite He in *. set (q := n' / p) in *.
    destruct (Z.ltb_spec (2 * (n mod p)) p), (Z.ltb_spec p (2 * (n mod p))),
      (Z.ltb_spec (2 * (n' mod p)) p), (Z.ltb_spec p (2 * (n' mod p))); destruct (Z.even q); lia.
  - assert (∀ b x, x ≤ (if b : bool then x else x + 1) ≤ x + 1) as Hb by (intros [] ?; lia).
    transitivity (n / p + 1); [|transitivity (n' / p); [lia|]];
      repeat match goal with |- context [if ?b then _ else _] => destruct b end; lia.
Qed.

Lemma rhe_multiple c p : 0 < p → round_half_even (c * p) p = c.
Proof.
  intros Hp. unfold round_half_even. rewrite Z.div_mul, Z.mod_mul by lia.
  by rewrite (proj2 (Z.ltb_lt _ _)) by lia.
Qed.

Lemma rhe_upper n p c : 0 < p → n ≤ c * p → round_half_even n p ≤ c.
Proof. intros Hp Hn. rewrite <- (rhe_multiple c p) by done. by apply rhe_mono. Qed.
Lemma rhe_lower n p c : 0 < p → c * p ≤ n → c ≤ round_half_even n p.
Proof. intros Hp Hn. rewrite <- (rhe_multiple c p) at 1 by done. by apply rhe_mono. Qed.

Lemma rhe_scale n p s : 0 < p → 0 < s → round_half_even (n * s) (p * s) = round_half_even n p.
Proof.
  intros Hp Hs. unfold round_half_even. rewrite Z.div_mul_cancel_r, Z.mul_mod_distr_r by lia.
  assert (∀ a b, (a * s <? b * s) = (a <? b)) as Hc.
  { intros a b. apply eq_true_iff_eq. rewrite !Z.ltb_lt. symmetry. apply Z.mul_lt_mono_pos_r. done. }
  by rewrite Z.mul_assoc, !Hc.
Qed.

(** ** [fix28] as rounding to a quantum *)

(** The position above the leading digit, and the last digit kept. *)
Definition top (d : dec) : Z := expo d + ndigits (coef d).
Definition quantum (d : dec) : Z := top d - 28.

Lemma fix28_rescale d m :
  0 ≤ coef d → m ≤ expo d → m ≤ quantum d →
  m ≤ expo (fix28 d) ∧
  rescale (fix28 d) m = round_half_even (rescale d m) (10 ^ (quantum d - m)) * 10 ^ (quantum d - m).
Proof.
  intros Hc Hm Hq. unfold quantum, top in *. unfold fix28, prec. destruct (Z.leb_spec (ndigits (coef d)) 28) as [Hn|Hn].
  - split; [done|]. unfold rescale.
    replace (expo d - m) with ((28 - ndigits (coef d)) + (expo d + ndigits (coef d) - 28 - m)) by lia.
    rewrite Z.pow_add_r, Z.mul_assoc by lia. by rewrite rhe_multiple by (apply Z_pow10_pos'; lia).
  - set (k := ndigits (coef d) - 28) in *. replace (expo d + ndigits (coef d) - 28 - m) with (k + (expo d - m)) by lia.
    rewrite Z.abs_eq by done. set (q := round_half_even (coef d) (10 ^ k)).
    assert (rescale d m = coef d * 10 ^ (expo d - m)) as -> by done.
    rewrite Z.pow_add_r at 1 by lia.
    rewrite (rhe_scale _ (10 ^ k)) by (apply Z_pow10_pos'; lia). fold q.
    pose proof (ndigits_spec (coef d)) as (_ & Hhi & Hlo). rewrite Z.abs_eq in Hhi, Hlo by done.
    assert (0 < coef d) as Hpos.
    { destruct (Z.eq_dec (coef d) 0) as [E|]; [|lia]. rewrite E in Hn. by vm_compute in Hn. }
    rewrite Z.sgn_pos, !Z.mul_1_l by done.
    assert (q ≤ 10 ^ 28) as Hq28.
    { apply rhe_upper; [apply Z_pow10_pos'; lia|]. rewrite <- Z.pow_add_r by lia.
      replace (28 + k) with (ndigits (coef d)) by lia. lia. }
    destruct (Z.leb_spec (10 ^ 28) q) as [Hbig|Hsmall]; unfold rescale; cbn [coef expo].
    + assert (q = 10 ^ 28) as -> by lia. split; [lia|].
      replace (10 ^ 28 / 10) with (10 ^ 27) by (by vm_compute). rewrite <- !Z.pow_add_r by lia. f_equal. lia.
    + split; [lia|]. f_equal. f_equal. lia.
Qed.

Lemma rescale_nonneg d m : 0 ≤ coef d → 0 ≤ rescale d m.
Proof. intros H. unfold rescale. destruct (Z_pow10_pos (expo d - m)); nia. Qed.

(** Where the value of a positive decimal lies. *)
Lemma rescale_top d m : 0 < coef d → m ≤ expo d →
  10 ^ (top d - 1 - m) ≤ rescale d m < 10 ^ (top d - m).
Proof.
  intros Hc Hm. unfold top, rescale. pose proof (ndigits_spec (coef d)) as (H1 & Hhi & Hlo).
  rewrite Z.abs_eq in Hhi, Hlo by lia. pose proof (Z_pow10_pos' (expo d - m) ltac:(lia)).
  replace (expo d + ndigits (coef d) - 1 - m) with ((ndigits (coef d) - 1) + (expo d - m)) by lia.
  replace (expo d + ndigits (coef d) - m) with (ndigits (coef d) + (expo d - m)) by lia.
  rewrite !Z.pow_add_r by lia. split; [|by apply Z.mul_lt_mono_pos_r].
  apply Z.mul_le_mono_nonneg_r; [lia|]. destruct (Z.le_gt_cases 10 (coef d)) as [Hb|Hs]; [auto|].
  assert (ndigits (coef d) ≤ 1) by (apply ndigits_le; [lia|]; rewrite Z.abs_eq by lia; lia).
  replace (ndigits (coef d) - 1) with 0 by lia. lia.
Qed.

Lemma fix28_zero d : coef d = 0 → fix28 d = d.
Proof. intros H. apply fix28_exact. by rewrite H. Qed.

Lemma fix28_nonneg d : 0 ≤ coef d → 0 ≤ coef (fix28 d).
Proof.
  intros Hc. unfold fix28, prec. destruct (Z.leb_spec (ndigits (coef d)) 28); [done|].
  assert (0 ≤ round_half_even (Z.abs (coef d)) (10 ^ (ndigits (coef d) - 28))) as Hq
    by (apply rhe_lower; [apply Z_pow10_pos'; lia|lia]).
  assert (0 ≤ Z.sgn (coef d)) by lia.
  destruct (_ <=? _); cbn; [|nia]. apply Z.mul_nonneg_nonneg; [done|]. apply Z.div_pos; lia.
Qed.

Lemma fix28_nonpos d : coef d ≤ 0 → coef (fix28 d) ≤ 0.
Proof.
  intros Hc. unfold fix28, prec. destruct (Z.leb_spec (ndigits (coef d)) 28); [done|].
  assert (0 ≤ round_half_even (Z.abs (coef d)) (10 ^ (ndigits (coef d) - 28))) as Hq
    by (apply rhe_lower; [apply Z_pow10_pos'; lia|lia]).
  assert (Z.sgn (coef d) ≤ 0) by lia.
  destruct (_ <=? _); cbn; [|nia]. assert (0 ≤ round_half_even (Z.abs (coef d)) (10 ^ (ndigits (coef d) - 28)) / 10) by (apply Z.div_pos; lia). nia.
Qed.

Lemma dle_nonneg_coef a b : dle a b → 0 ≤ coef a → 0 ≤ coef b.
Proof.
  intros H Ha. specialize (H (Z.min (expo a) (expo b)) ltac:(lia) ltac:(lia)). unfold rescale in H.
  pose proof (Z_pow10_pos' (expo a - Z.min (expo a) (expo b)) ltac:(lia)).
  pose proof (Z_pow10_pos' (expo b - Z.min (expo a) (expo b)) ltac:(lia)). nia.
Qed.

Lemma dle_sign a b : coef a ≤ 0 → 0 ≤ coef b → dle a b.
Proof.
  intros Ha Hb m H1 H2. unfold rescale. pose proof (Z_pow10_pos' (expo a - m)). pose proof (Z_pow10_pos' (expo b - m)). nia.
Qed.

(** Rounding preserves order. *)
Lemma fix28_mono a b : 0 ≤ coef a → dle a b → dle (fix28 a) (fix28 b).
Proof.
  intros Ha Hab. pose proof (dle_nonneg_coef a b Hab Ha) as Hb.
  destruct (Z.eq_dec (coef a) 0) as [Hz|Hnz].
  { rewrite fix28_zero by done. apply dle_sign; [lia|by apply fix28_nonneg]. }
  set (m := Z.min (Z.min (expo a) (expo b)) (Z.min (quantum a) (quantum b))).
  pose proof (Hab m ltac:(lia) ltac:(lia)) as Hm.
  assert (0 < coef b) as Hb'.
  { destruct (Z.eq_dec (coef b) 0) as [E|]; [|lia]. unfold rescale in Hm. rewrite E in Hm.
    pose proof (Z_pow10_pos' (expo a - m) ltac:(lia)). nia. }
  destruct (fix28_rescale a m ltac:(lia) ltac:(lia) ltac:(lia)) as [Ea Ra].
  destruct (fix28_rescale b m ltac:(lia) ltac:(lia) ltac:(lia)) as [Eb Rb].
  apply (dle_at _ _ m Ea Eb). rewrite Ra, Rb.
  pose proof (rescale_top a m ltac:(lia) ltac:(lia)) as [La Ua]. pose proof (rescale_top b m Hb' ltac:(lia)) as [Lb Ub].
  assert (top a ≤ top b) as Htop.
  { destruct (Z.le_gt_cases (top a) (top b)); [done|].
    pose proof (Z.pow_le_mono_r 10 (top b - m) (top a - 1 - m) ltac:(lia) ltac:(lia)). lia. }
  unfold quantum in *. pose proof (Z_pow10_pos' (top a - 28 - m) ltac:(lia)) as Pa.
  pose proof (Z_pow10_pos' (top b - 28 - m) ltac:(lia)) as Pb.
  destruct (Z.eq_dec (top a) (top b)) as [He|Hne].
  - rewrite He in *. apply Z.mul_le_mono_nonneg_r; [lia|]. by apply rhe_mono.
  - transitivity (10 ^ (top a - m)).
    + replace (top a - m) with (28 + (top a - 28 - m)) by lia. rewrite (Z.pow_add_r 10 28) by lia.
      apply Z.mul_le_mono_nonneg_r; [lia|]. apply rhe_upper; [done|]. rewrite <- Z.pow_add_r by lia.
      replace (28 + (top a - 28 - m)) with (top a - m) by lia. lia.
    + transitivity (10 ^ (top b - 1 - m)); [apply Z.pow_le_mono_r; lia|].
      replace (top b - 1 - m) with (27 + (top b - 28 - m)) by lia. rewrite (Z.pow_add_r 10 27) by lia.
      apply Z.mul_le_mono_nonneg_r; [lia|]. apply rhe_lower; [done|]. rewrite <- Z.pow_add_r by lia.
      replace (27 + (top b - 28 - m)) with (top b - 1 - m) by lia. lia.
Qed.

(** A decimal the context leaves alone. *)
Definition fits (d : dec) : Prop := ndigits (coef d) ≤ 28.

Lemma fix28_fits d : fits d → fix28 d = d.
Proof. intros H. unfold fix28, prec. by rewrite (proj2 (Z.leb_le _ _) H). Qed.

Lemma fits_bound c e : Z.abs c < 10 ^ 28 → fits (mkdec c e).
Proof. intros H. apply ndigits_le; [lia|done]. Qed.

Lemma fits_fix28 d : fits (fix28 d).
Proof.
  unfold fix28, prec. destruct (Z.leb_spec (ndigits (coef d)) 28) as [H|H]; [done|].
  set (k := ndigits (coef d) - 28) in *. set (q := round_half_even (Z.abs (coef d)) (10 ^ k)).
  assert (0 ≤ q) by (apply rhe_lower; [apply Z_pow10_pos'|]; lia).
  assert (q ≤ 10 ^ 28) as Hq.
  { apply rhe_upper; [apply Z_pow10_pos'; lia|]. rewrite <- Z.pow_add_r by lia. unfold k.
    replace (28 + (ndigits (coef d) - 28)) with (ndigits (coef d)) by lia.
    pose proof (ndigits_spec (coef d)) as (_ & ? & _). lia. }
  assert (-1 ≤ Z.sgn (coef d) ≤ 1) as Hs by lia.
  destruct (Z.leb_spec (10 ^ 28) q); apply fits_bound.
  - assert (q = 10 ^ 28) as -> by lia. replace (10 ^ 28 / 10) with (10 ^ 27) by (by vm_compute).
    assert (10 ^ 27 < 10 ^ 28) by (by vm_compute). assert (0 < 10 ^ 27) by (by vm_compute). nia.
  - nia.
Qed.

Lemma fix28_upper d B : dle d B → fits B → 0 ≤ coef B → dle (fix28 d) B.
Proof.
  intros H Hf HB. destruct (Z.le_gt_cases 0 (coef d)) as [Hc|Hc].
  - rewrite <- (fix28_fits B Hf). by apply fix28_mono.
  - apply dle_sign; [apply fix28_nonpos; lia|done].
Qed.

(** ** Products *)

Definition exact_mul (a b : dec) : dec := mkdec (coef a * coef b) (expo a + expo b).

Lemma rescale_mul a b m1 m2 : m1 ≤ expo a → m2 ≤ expo b →
  rescale (exact_mul a b) (m1 + m2) = rescale a m1 * rescale b m2.
Proof.
  intros H1 H2. unfold rescale, exact_mul; cbn.
  replace (expo a + expo b - (m1 + m2)) with ((expo a - m1) + (expo b - m2)) by lia. rewrite Z.pow_add_r by lia. ring.
Qed.

Lemma exact_mul_mono a a' b b' : 0 ≤ coef a → 0 ≤ coef b → dle a a' → dle b b' → dle (exact_mul a b) (exact_mul a' b').
Proof.
  intros Ha Hb Hle Hle'. set (m1 := Z.min (expo a) (expo a')). set (m2 := Z.min (expo b) (expo b')).
  apply (dle_at _ _ (m1 + m2)); [unfold exact_mul; cbn; lia..|]. rewrite !rescale_mul by lia.
  apply Z.mul_le_mono_nonneg; [by apply rescale_nonneg|apply Hle; lia|by apply rescale_nonneg|apply Hle'; lia].
Qed.

Lemma dmul_mono a a' b b' : 0 ≤ coef a → 0 ≤ coef b → dle a a' → dle b b' → dle (dmul a b) (dmul a' b').
Proof. intros. apply fix28_mono; [cbn; nia|]. by apply exact_mul_mono. Qed.

Lemma dmul_nonneg a b : 0 ≤ coef a → 0 ≤ coef b → 0 ≤ coef (dmul a b).
Proof. intros. apply fix28_nonneg. cbn. nia. Qed.

(** A factor in [0, 1]. *)
Definition unit_dec (d : dec) : Prop := 0 ≤ coef d ∧ dle d (dec_of_Z 1).

Lemma exact_mul_1 a : exact_mul a (dec_of_Z 1) = a.
Proof. destruct a as [c e]. unfold exact_mul, dec_of_Z; cbn. by rewrite Z.mul_1_r, Z.add_0_r. Qed.

Lemma dmul_shrinks a b : fits a → 0 ≤ coef a → unit_dec b → dle (dmul a b) a.
Proof.
  intros Hf Ha [Hb H1]. unfold dmul. fold (exact_mul a b). apply fix28_upper; [|done..].
  rewrite <- (exact_mul_1 a) at 2. apply exact_mul_mono; auto with aats.
Qed.

Lemma fits_dmul a b : fits (dmul a b).
Proof. apply fits_fix28. Qed.

Lemma unit_dmul a b : unit_dec a → unit_dec b → unit_dec (dmul a b).
Proof.
  intros [Ha Ha1] [Hb Hb1]. split; [by apply dmul_nonneg|].
  apply (dle_trans _ (dmul (dec_of_Z 1) (dec_of_Z 1))); [by apply dmul_mono|].
  by apply dleb_dle; vm_compute.
Qed.

(** ** Differences *)

Definition exact_sub (a b : dec) : dec :=
  let e := Z.min (expo a) (expo b) in mkdec (rescale a e - rescale b e) e.

Lemma rescale_sub a b m : m ≤ expo a → m ≤ expo b → rescale (exact_sub a b) m = rescale a m - rescale b m.
Proof.
  intros Ha Hb. unfold exact_sub. set (e := Z.min (expo a) (expo b)).
  rewrite (rescale_lower a e m), (rescale_lower b e m) by lia. unfold rescale at 1; cbn. ring.
Qed.

Lemma exact_sub_mono a a' b b' : dle a a' → dle b' b → dle (exact_sub a b) (exact_sub a' b').
Proof.
  intros Ha Hb. set (m := Z.min (Z.min (expo a) (expo a')) (Z.min (expo b) (expo b'))).
  apply (dle_at _ _ m); [unfold exact_sub; cbn; lia..|]. rewrite !rescale_sub by lia.
  pose proof (Ha m ltac:(lia) ltac:(lia)). pose proof (Hb m ltac:(lia) ltac:(lia)). lia.
Qed.

Lemma exact_sub_nonneg a b : dle b a → 0 ≤ coef (exact_sub a b).
Proof. intros H. unfold exact_sub; cbn. specialize (H (Z.min (expo a) (expo b)) ltac:(lia) ltac:(lia)). lia. Qed.

Lemma dsub_mono a a' b b' : dle b a → dle a a' → dle b' b → dle (dsub a b) (dsub a' b').
Proof. intros H Ha Hb. apply (fix28_mono (exact_sub a b)); [by apply exact_sub_nonneg|by apply exact_sub_mono]. Qed.

Lemma dsub_upper a b : fits a → 0 ≤ coef a → 0 ≤ coef b → dle (dsub a b) a.
Proof.
  intros Hf Ha Hb. apply (fix28_upper (exact_sub a b)); [|done..].
  apply (dle_at _ _ (Z.min (expo a) (expo b))); [unfold exact_sub; cbn; lia..|].
  rewrite rescale_sub by lia. pose proof (rescale_nonneg b (Z.min (expo a) (expo b)) Hb). lia.
Qed.

(** [Decimal(1) - u] *)
Lemma unit_complement u : unit_dec u → unit_dec (dsub (dec_of_Z 1) u).
Proof.
  intros [Hu H1]. split.
  - apply (fix28_nonneg (exact_sub (dec_of_Z 1) u)). by apply exact_sub_nonneg.
  - apply dsub_upper; [by apply fits_bound|done..].
Qed.

Lemma fits_dsub a b : fits (dsub a b).
Proof. apply fits_fix28. Qed.

Lemma ddiv_nonneg a b d : 0 ≤ coef a → 0 ≤ coef b → ddiv a b = Ok d → 0 ≤ coef d.
Proof.
  intros Ha Hb. unfold ddiv. destruct (Z.eqb_spec (coef b) 0); [done|].
  destruct (Z.eqb_spec (coef a) 0); [by intros [= <-]|].
  assert (∀ n m, 0 ≤ n → 0 ≤ m → 0 ≤ n / m) as Hdiv.
  { intros k m ? ?. destruct (Z.eq_dec m 0) as [->|]; [by rewrite Z.div_0_r|]. apply Z.div_pos; lia. }
  assert (∀ f c e i, 0 ≤ c → 0 ≤ coef (strip_zeros f c e i)) as Hstrip.
  { induction f as [|f IH]; intros c e i Hc; cbn; [done|]. destruct (_ && _); [|done]. apply IH. apply Hdiv; lia. }
  set (sh := ndigits (coef b) - ndigits (coef a) + prec + 1).
  set (num := if 0 <=? sh then _ else _). set (den := if 0 <=? sh then _ else _).
  assert (0 ≤ num) by (unfold num; destruct (_ <=? _) eqn:E; bools; [pose proof (Z_pow10_pos' sh); nia|lia]).
  assert (0 ≤ den) by (unfold den; destruct (_ <=? _) eqn:E; bools; [lia|pose proof (Z_pow10_pos' (- sh)); nia]).
  rewrite (Z.sgn_pos (coef a)), (Z.sgn_pos (coef b)), !Z.mul_1_l by lia.
  destruct (num mod den =? 0); intros [= <-]; apply fix28_nonneg; cbn; rewrite ?Z.mul_1_l.
  - apply Hstrip. by apply Hdiv.
  - pose proof (Hdiv num den). destruct (_ =? 0); lia.
Qed.

(** *** The floor of a decimal *)

Lemma dec_floor_rescale d m : m ≤ expo d → m ≤ 0 → dec_floor d = rescale d m / 10 ^ (- m).
Proof.
  intros H1 H2. unfold dec_floor, rescale. pose proof (Z_pow10_pos' (- m) ltac:(lia)).
  destruct (Z.leb_spec 0 (expo d)) as [He|He].
  - replace (expo d - m) with (expo d + - m) by lia. rewrite Z.pow_add_r, Z.mul_assoc, Z.div_mul by lia. done.
  - replace (- m) with (- expo d + (expo d - m)) by lia. rewrite Z.pow_add_r by lia.
    pose proof (Z_pow10_pos' (expo d - m) ltac:(lia)). pose proof (Z_pow10_pos' (- expo d) ltac:(lia)).
    rewrite Z.div_mul_cancel_r by lia. done.
Qed.

Lemma dec_floor_mono a b : dle a b → dec_floor a ≤ dec_floor b.
Proof.
  intros H. set (m := Z.min 0 (Z.min (expo a) (expo b))).
  rewrite (dec_floor_rescale a m), (dec_floor_rescale b m) by lia.
  apply Z.div_le_mono; [apply Z_pow10_pos'; lia|]. apply H; lia.
Qed.
