(* ===== verification/FloatRepr.v ===== *)
(** * [Decimal(str(x))]

    [str] of a float is its shortest decimal that reads back as the same float
    (the nearest one, when several do), in positional notation for decimal
    points from -3 to 16, with [.0] after an integer; [Decimal] of that string
    keeps its digits and exponent. *)

From S2P Require Import Prelude Decimal RiskContracts Float64 SurvivableStop DecimalOrder.

(** The float nearest to [n / d] ([n >= 0], [d > 0]). *)
Definition float_of_ratio (n d : Z) : float :=
  match n with
  | Zpos p => SFdiv 53 1024 (S754_finite false p 0) (S754_finite false (Z.to_pos d) 0)
  | _ => fzero
  end.
(** [c * 10^k] read as a float. *)
Definition float_of_dec (c k : Z) : float :=
  if 0 <=? k then float_of_ratio (c * 10 ^ k) 1 else float_of_ratio c (10 ^ (- k)).

Definition float_same (x y : float) : bool :=
  match x, y with
  | S754_finite s m e, S754_finite s' m' e' => Bool.eqb s s' && Pos.eqb m m' && Z.eqb e e'
  | _, _ => false
  end.

(** Numerator and denominator of a positive finite float. *)
Definition ratio_of (m : positive) (e : Z) : Z * Z :=
  if 0 <=? e then (Zpos m * 2 ^ e, 1) else (Zpos m, 2 ^ (- e)).

(** The position of the decimal point: [10^(pt-1) <= n/d < 10^pt]. *)
Definition point (n d : Z) : Z := ndigits (n * 10 ^ 400 / d) - 400.

(** [n / d] in units of [10^k], rounded down, and its remainder. *)
Definition scaled (n d k : Z) : Z * Z * Z :=
  let num := if 0 <=? k then n else n * 10 ^ (- k) in
  let den := if 0 <=? k then d * 10 ^ k else d in
  (num / den, num mod den, den).

(** The candidates with last digit at [10^k], nearest first. *)
Definition candidates (n d k : Z) : list Z :=
  let '(lo, r, den) := scaled n d k in
  if r =? 0 then [lo]
  else if (2 * r <? den) || ((2 * r =? den) && Z.even lo) then [lo; lo + 1] else [lo + 1; lo].

(** The first of 1, 2, ... digits that reads back as [x]. *)
Fixpoint shortest (fuel : nat) (x : float) (n d pt digits : Z) : Z * Z :=
  let k := pt - digits in
  let cs := candidates n d k in
  match List.find (λ c, float_same (float_of_dec c k) x) cs, fuel with
  | Some c, _ => (c, k)
  | None, S fuel => shortest fuel x n d pt (digits + 1)
  | None, O => (fst (fst (scaled n d k)), k)
  end.

(** [Decimal(str(x))] of a finite float. *)
Definition dec_of_float (x : float) : dec :=
  match x with
  | S754_finite s m e =>
      let '(n, d) := ratio_of m e in
      let pt := point n d in
      let '(c, k) := shortest 17 (S754_finite false m e) n d pt 1 in
      let c := if s then - c else c in
      if (0 <=? k) && (pt <=? 16) then mkdec (c * 10 ^ (k + 1)) (-1) else mkdec c k
  | _ => mkdec 0 (-1)
  end.

(** ** Statistics in [0, 1] *)

Definition fone : float := float_of_Z 1.

(** A canonical float, as every Python float is. *)
Definition canonical (x : float) : Prop := valid_binary 53 1024 x = true.

Lemma digits2_bound m : Zpos m < 2 ^ Zpos (digits2_pos m).
Proof.
  induction m; cbn [digits2_pos]; rewrite ?Pos2Z.inj_succ, ?Z.pow_succ_r by lia; lia.
Qed.

Lemma canonical_mantissa_bound s m e : canonical (S754_finite s m e) → Zpos m < 2 ^ 53.
Proof.
  unfold canonical; cbn. unfold bounded, canonical_mantissa, fexp, emin. intros H. bools.
  pose proof (digits2_bound m). assert (Zpos (digits2_pos m) ≤ 53) by lia.
  pose proof (Z.pow_le_mono_r 2 (Zpos (digits2_pos m)) 53). lia.
Qed.

Lemma fleb_positive m e m' e' :
  fleb (S754_finite false m e) (S754_finite false m' e') = true → e < e' ∨ e = e' ∧ Zpos m ≤ Zpos m'.
Proof. rewrite fleb_key, key_compare_lt by done. cbn. lia. Qed.

Lemma fone_eq : fone = S754_finite false (2 ^ 52) (-52).
Proof. by vm_compute. Qed.

(** A float in [0, 1] is a ratio at most one. *)
Lemma unit_ratio m e :
  canonical (S754_finite false m e) → fleb (S754_finite false m e) fone = true →
  let '(n, d) := ratio_of m e in 0 < n ≤ d.
Proof.
  intros Hc Hle. pose proof (canonical_mantissa_bound _ _ _ Hc) as Hm. rewrite fone_eq in Hle.
  apply fleb_positive in Hle. change (Zpos (2 ^ 52)) with (2 ^ 52)%Z in Hle.
  unfold ratio_of. destruct (Z.leb_spec 0 e); [lia|]. split; [lia|].
  destruct (Z.eq_dec e (-52)) as [->|]; [cbn [Z.opp]; lia|].
  transitivity (2 ^ 53); [lia|]. apply Z.pow_le_mono_r; lia.
Qed.

(** Truncation to a decimal position of a ratio at most one. *)
Lemma candidates_unit n d k c : 0 < n ≤ d → k ≤ 0 → c ∈ candidates n d k → 0 ≤ c ≤ 10 ^ (- k).
Proof.
  intros Hn Hk Hc. unfold candidates, scaled in Hc. pose proof (Z_pow10_pos' (- k) ltac:(lia)) as Hp.
  assert ((if 0 <=? k then n else n * 10 ^ (- k)) = n * 10 ^ (- k)) as E1.
  { destruct (Z.leb_spec 0 k); [|done]. assert (k = 0) as -> by lia. lia. }
  assert ((if 0 <=? k then d * 10 ^ k else d) = d) as E2.
  { destruct (Z.leb_spec 0 k); [|done]. assert (k = 0) as -> by lia. lia. }
  rewrite E1, E2 in Hc. set (N := n * 10 ^ (- k)) in *.
  pose proof (Z.div_mod N d ltac:(lia)) as Hdm. pose proof (Z.mod_pos_bound N d ltac:(lia)) as Hr.
  assert (0 ≤ N / d) as H0 by (apply Z.div_pos; lia).
  assert (N ≤ d * 10 ^ (- k)) as HN by (unfold N; nia).
  assert (N / d ≤ 10 ^ (- k)) as Hlo by nia.
  assert (N mod d ≠ 0 → N / d + 1 ≤ 10 ^ (- k)) as Hhi by nia.
  destruct (Z.eqb_spec (N mod d) 0); [set_solver|]. specialize (Hhi ltac:(done)).
  destruct (_ || _); apply elem_of_cons in Hc as [->|Hc]; try lia; apply list_elem_of_singleton in Hc; lia.
Qed.

Lemma scaled_lo n d k : fst (fst (scaled n d k)) ∈ candidates n d k.
Proof.
  unfold candidates. destruct (scaled n d k) as [[lo r] den]; cbn.
  destruct (r =? 0); [set_solver|]. destruct (_ || _); set_solver.
Qed.

Lemma find_elem (f : Z → bool) l c : List.find f l = Some c → c ∈ l.
Proof. intros H. apply List.find_some in H as [H _]. by apply list_elem_of_In. Qed.

Lemma shortest_unit fuel x n d pt digits c k :
  0 < n ≤ d → pt ≤ digits → shortest fuel x n d pt digits = (c, k) → k ≤ 0 ∧ 0 ≤ c ≤ 10 ^ (- k).
Proof.
  intros Hn. revert digits. induction fuel as [|fuel IH]; intros digits Hpt; cbn [shortest].
  - destruct (List.find _ _) as [c'|] eqn:E; intros [= <- <-]; (split; [lia|]);
      apply (candidates_unit n d); try done; try lia; [by eapply find_elem|apply scaled_lo].
  - destruct (List.find _ _) as [c'|] eqn:E; [|apply IH; lia]. intros [= <- <-]. split; [lia|].
    apply (candidates_unit n d); try done; [lia|by eapply find_elem].
Qed.

Lemma point_unit n d : 0 < n ≤ d → point n d ≤ 1.
Proof.
  intros Hn. unfold point. pose proof (Z_pow10_pos' 400 ltac:(lia)) as Hp. set (P := 10 ^ 400) in *.
  assert (0 ≤ n * P / d ≤ P) as Hb.
  { split; [apply Z.div_pos; nia|]. apply Z.div_le_upper_bound; nia. }
  assert (ndigits (n * P / d) ≤ 401); [|lia]. apply ndigits_le; [lia|]. rewrite Z.abs_eq by lia.
  replace 401 with (1 + 400) by lia. rewrite Z.pow_add_r by lia. fold P. lia.
Qed.

(** The decimal of a statistic in [0, 1] is in [0, 1]. *)
Lemma dec_of_float_unit x :
  canonical x → fleb fzero x = true → fleb x fone = true → unit_dec (dec_of_float x).
Proof.
  assert (unit_dec (mkdec 0 (-1))) as H0 by (split; [done|by apply dleb_dle]).
  destruct x as [s|s| |s m e]; intros Hc Hlo Hhi; try exact H0.
  destruct s; [by vm_compute in Hlo|]. unfold dec_of_float.
  pose proof (unit_ratio m e Hc Hhi) as Hr. destruct (ratio_of m e) as [n d].
  pose proof (point_unit n d Hr) as Hp. set (pt := point n d) in *.
  destruct (shortest 17 _ n d pt 1) as [c k] eqn:E.
  apply shortest_unit in E as [Hk Hck]; [|done|lia].
  assert (∀ c k, 0 ≤ c → k ≤ 0 → c ≤ 10 ^ (- k) → unit_dec (mkdec c k)) as Hu.
  { intros c0 k0 H1 H2 H3. split; [done|]. apply (dle_at _ _ k0); cbn; [lia..|].
    unfold rescale; cbn. rewrite Z.sub_diag. change (10 ^ 0) with 1. replace (0 - k0) with (- k0) by lia. lia. }
  destruct ((0 <=? k) && (pt <=? 16)) eqn:Ek; [|by apply Hu; lia]. bools. assert (k = 0) as -> by lia.
  cbn in Hck. apply Hu; [|lia|]; change (10 ^ (0 + 1)) with 10; change (10 ^ (- -1)) with 10; lia.
Qed.
