(* ===== verification/Sizing.v ===== *)
(** * Fractional-Kelly sizing: [aats/risk/sizing.py]

    Every decimal step runs in the module's own 28-digit half-even context,
    which is the context [Decimal] models; statistics enter it as
    [Decimal(str(x))] ([FloatRepr]). *)

From S2P Require Import Prelude Decimal RiskContracts Float64 SurvivableStop DecimalOrder FloatRepr.

(** A probability, uncertainty or factor as the caller passes it. *)
Inductive stat_in : Type := StFloat (x : float) | StInt (z : Z) | StBool (b : bool).

Definition _reject_float_money (value : pynum) (field : string) : result Z :=
  match value with PyFloat _ => Raise (TypeError (field +:+ " must be int lamports (not float)")) | PyInt z => Ok z end.

Definition _HARD_KELLY_CAP : dec := mkdec 25 (-2).

(** [0.0 <= x <= 1.0] (and [0.0 < x <= 1.0]); an [int] compares exactly. *)
Definition in_unit (x : stat_in) : bool :=
  match x with
  | StFloat x => fleb fzero x && fleb x fone
  | StInt z => (0 <=? z) && (z <=? 1)
  | StBool _ => true
  end.
Definition in_half_open_unit (x : stat_in) : bool :=
  match x with
  | StFloat x => fltb fzero x && fleb x fone
  | StInt z => z =? 1
  | StBool b => b
  end.

Definition _clamp_unit (x : stat_in) (field : string) : result dec :=
  match x with
  | StBool _ => Raise (TypeError (field +:+ " must be a real number in [0,1], got bool"))
  | _ =>
      if negb (in_unit x) then Raise (ValueError (field +:+ " must be in [0, 1]"))
      else match x with
           | StFloat x => Ok (dec_of_float x)
           | StInt z => Ok (dec_of_Z z)
           | StBool b => Ok (dec_of_Z (if b then 1 else 0))
           end
  end.

Module DeRiskSignals.
Record t : Type := mk { sentiment_factor : stat_in; confidence_factor : stat_in }.
Definition default : t := mk (StFloat fone) (StFloat fone).

Definition check_factor (v : stat_in) (name : string) : result unit :=
  match v with
  | StBool _ => Raise (TypeError ("DeRiskSignals." +:+ name +:+ " must be a float in (0,1], got bool."))
  | _ => guard_ok (in_half_open_unit v) (ValueError ("DeRiskSignals." +:+ name +:+ " must be in (0, 1]"))
  end.
Definition new (sentiment confidence : stat_in) : result t :=
  check_factor sentiment "sentiment_factor";;
  check_factor confidence "confidence_factor";;
  Ok (mk sentiment confidence).

Definition combined_factor (s : t) : result dec :=
  a ← _clamp_unit (sentiment_factor s) "sentiment_factor";
  b ← _clamp_unit (confidence_factor s) "confidence_factor";
  let f := dmul a b in
  guard_ok (dleb f (dec_of_Z 1)) (AssertionError "combined de-risk factor exceeded 1");;
  Ok f.
End DeRiskSignals.

Inductive binding : Type := kelly | per_trade_cap | aggregate_cap | zero_edge.
#[export] Instance binding_eq_dec : EqDecision binding.
Proof. solve_decision. Defined.

Module SizingDecision.
Record t : Type := mk {
  size_lamports : Z;
  full_kelly_fraction : dec;
  applied_kelly_fraction : dec;
  pre_cap_lamports : Z;
  binding_constraint : binding
}.
Definition new (size pre_cap : pynum) (full applied : dec) (b : binding) : result t :=
  size ← _reject_float_money size "SizingDecision.size_lamports";
  pre ← _reject_float_money pre_cap "SizingDecision.pre_cap_lamports";
  if size <? 0 then Raise (ValueError "SizingDecision.size_lamports must be >= 0 (no negative size).")
  else Ok (mk size full applied pre b).
End SizingDecision.

(** [net_odds] as a Decimal. *)
Definition net_odds_dec (v : num_in) : result dec :=
  match v with
  | NFloat _ => Raise (TypeError "net_odds must be Decimal/int/str (exact), not float")
  | _ => _to_decimal_price v "net_odds"
  end.

Definition full_kelly_fraction (p_calibrated : stat_in) (net_odds : num_in) : result dec :=
  p ← _clamp_unit p_calibrated "p_calibrated";
  b ← net_odds_dec net_odds;
  if dleb b d0 then Raise (ValueError "net_odds must be > 0")
  else
    q ← ddiv (dsub (dec_of_Z 1) p) b;
    Ok (dsub p q).

Module FractionalKellySizer.
Record t : Type := mk { _config : RiskConfig.t; _kelly_cap : dec }.

(** [min(cfg_cap, _HARD_KELLY_CAP)] *)
Definition __init__ (config : RiskConfig.t) : t :=
  let cfg_cap := RiskConfig.kelly_fraction_cap config in
  mk config (if dltb _HARD_KELLY_CAP cfg_cap then _HARD_KELLY_CAP else cfg_cap).

(** Steps 5 to 7: the integer caps. *)
Definition apply_caps (per_trade agg_cap current pre_cap : Z) : Z * binding :=
  let '(size, b) := if per_trade <? pre_cap then (per_trade, per_trade_cap) else (pre_cap, kelly) in
  let remaining := agg_cap - current in
  let remaining := if remaining <? 0 then 0 else remaining in
  let '(size, b) := if remaining <? size then (remaining, aggregate_cap) else (size, b) in
  (if size <? 0 then 0 else size, b).

Definition size (s : t) (p_calibrated uncertainty : stat_in) (current_aggregate_lamports : pynum)
    (signals : option DeRiskSignals.t) (net_odds : num_in) : result SizingDecision.t :=
  current ← _reject_float_money current_aggregate_lamports "current_aggregate_lamports";
  if current <? 0 then Raise (ValueError "current_aggregate_lamports must be >= 0.")
  else
    let sig := default DeRiskSignals.default signals in
    unc ← _clamp_unit uncertainty "uncertainty";
    f_full ← full_kelly_fraction p_calibrated net_odds;
    if dleb f_full d0 then SizingDecision.new (PyInt 0) (PyInt 0) f_full d0 zero_edge
    else
      let f_applied := dmul (_kelly_cap s) f_full in
      let f_applied := dmul f_applied (dsub (dec_of_Z 1) unc) in
      combined ← DeRiskSignals.combined_factor sig;
      let f_applied := dmul f_applied combined in
      guard_ok (dleb f_applied (_kelly_cap s)) (AssertionError "applied Kelly fraction exceeded the 1/4 cap");;
      let per_trade := RiskConfig.per_trade_cap_lamports (_config s) in
      let pre_cap := dec_int (dmul (dec_of_Z per_trade) f_applied) in
      let '(size, b) := apply_caps per_trade (RiskConfig.max_aggregate_lamports (_config s)) current pre_cap in
      SizingDecision.new (PyInt size) (PyInt pre_cap) f_full f_applied b.
#[global] Arguments size : simpl never.
End FractionalKellySizer.

(** ** Statistics in [0, 1] become decimals in [0, 1] *)

(** Python floats are canonical. *)
Definition stat_wf (x : stat_in) : Prop := match x with StFloat x => canonical x | _ => True end.

Lemma clamp_unit_ok x f d : stat_wf x → _clamp_unit x f = Ok d → unit_dec d.
Proof.
  intros Hw. destruct x as [x|z|b]; cbn; [| |done].
  - destruct (fleb fzero x) eqn:E1; cbn; [|done]. destruct (fleb x fone) eqn:E2; cbn; [|done].
    intros [= <-]. by apply dec_of_float_unit.
  - destruct ((0 <=? z) && (z <=? 1)) eqn:E; cbn; [|done]. intros [= <-]. bools. split; [done|].
    intros m _ Hm. unfold rescale; cbn. pose proof (Z_pow10_pos' (0 - m) ltac:(cbn in Hm; lia)). nia.
Qed.

Lemma clamp_unit_iff x f : (∃ d, _clamp_unit x f = Ok d) ↔ in_unit x = true ∧ (∀ b, x ≠ StBool b).
Proof.
  destruct x as [x|z|b]; unfold _clamp_unit.
  - destruct (in_unit (StFloat x)); (split; intros [? ?]; [|try done]); try done; [by eexists].
  - destruct (in_unit (StInt z)); (split; intros [? ?]; [|try done]); try done; [by eexists].
  - split; [by intros [? ?]|]. intros [_ H]. by destruct (H b).
Qed.

(** Signals that went through the constructor. *)
Definition signals_ok (s : DeRiskSignals.t) : Prop :=
  DeRiskSignals.new (DeRiskSignals.sentiment_factor s) (DeRiskSignals.confidence_factor s) = Ok s ∧
  stat_wf (DeRiskSignals.sentiment_factor s) ∧ stat_wf (DeRiskSignals.confidence_factor s).

Lemma half_open_unit x : in_half_open_unit x = true → in_unit x = true.
Proof.
  destruct x as [x|z|b]; cbn; try done.
  - intros H. bools. apply andb_true_iff. split; [by apply fltb_fleb|done].
  - intros H. bools. subst. done.
Qed.

Lemma check_factor_ok v n : DeRiskSignals.check_factor v n = Ok tt → in_half_open_unit v = true ∧ ∀ b, v ≠ StBool b.
Proof. unfold DeRiskSignals.check_factor, guard_ok. destruct v; [| |done];
  (destruct (in_half_open_unit _); [intros _; split; [done|discriminate]|discriminate]). Qed.

Lemma combined_factor_ok s : signals_ok s → ∃ c, DeRiskSignals.combined_factor s = Ok c ∧ unit_dec c.
Proof.
  intros (Hn & Hw1 & Hw2). unfold DeRiskSignals.new in Hn. mstep.
  destruct (DeRiskSignals.check_factor (DeRiskSignals.sentiment_factor s) _) as [[]|] eqn:E1; [|done].
  destruct (DeRiskSignals.check_factor (DeRiskSignals.confidence_factor s) _) as [[]|] eqn:E2; [|done].
  apply check_factor_ok in E1 as [H1 N1], E2 as [H2 N2]. apply half_open_unit in H1, H2.
  unfold DeRiskSignals.combined_factor. mstep.
  destruct (proj2 (clamp_unit_iff _ "sentiment_factor") (conj H1 N1)) as [a Ea].
  destruct (proj2 (clamp_unit_iff _ "confidence_factor") (conj H2 N2)) as [b Eb]. rewrite Ea, Eb.
  assert (unit_dec (dmul a b)) as Hu by (apply unit_dmul; [exact (clamp_unit_ok _ _ a Hw1 Ea)|exact (clamp_unit_ok _ _ b Hw2 Eb)]).
  unfold guard_ok. rewrite (proj2 (dleb_dle _ _) (proj2 Hu)). by eexists.
Qed.

Lemma default_signals_ok : signals_ok DeRiskSignals.default.
Proof. by vm_compute. Qed.

(** The raw Kelly fraction is at most one. *)
Lemma full_kelly_le_1 p odds f :
  stat_wf p → full_kelly_fraction p odds = Ok f → dle f (dec_of_Z 1).
Proof.
  intros Hw. unfold full_kelly_fraction, mbind, result_bind.
  destruct (_clamp_unit p _) as [dp|] eqn:Ep; [|done]. apply clamp_unit_ok in Ep as Hp; [|done].
  destruct (net_odds_dec odds) as [b|]; [|done]. destruct (dleb b d0) eqn:Eb; [done|].
  destruct (ddiv _ b) as [q|] eqn:Eq; [|done]. intros [= <-].
  assert (0 ≤ coef q) as Hq.
  { eapply ddiv_nonneg; [|apply Z.lt_le_incl, dleb_zero_coef, Eb|exact Eq]. apply (unit_complement dp Hp). }
  destruct Hp as [Hp0 Hp1]. apply (fix28_upper (exact_sub dp q)); [|by apply fits_bound|done].
  apply (dle_trans _ dp); [|done]. apply (dle_at _ _ (Z.min (expo dp) (expo q))); [unfold exact_sub; cbn; lia..|].
  rewrite rescale_sub by lia. pose proof (rescale_nonneg q (Z.min (expo dp) (expo q)) Hq). lia.
Qed.

(** The sizer's cap, whatever the configuration says. *)
Lemma kelly_cap_bound c :
  fits (RiskConfig.kelly_fraction_cap c) → 0 ≤ coef (RiskConfig.kelly_fraction_cap c) →
  let cap := FractionalKellySizer._kelly_cap (FractionalKellySizer.__init__ c) in
  fits cap ∧ 0 ≤ coef cap ∧ dle cap _HARD_KELLY_CAP.
Proof.
  intros Hf H0. unfold FractionalKellySizer.__init__; cbn. destruct (dltb _ _) eqn:E.
  - split_and!; [by apply fits_bound|done|apply dle_refl].
  - split_and!; [done..|by apply dltb_false].
Qed.

(** The fraction after the cap, the uncertainty and the signals. *)
Definition applied (cap full unc combined : dec) : dec :=
  dmul (dmul (dmul cap full) (dsub (dec_of_Z 1) unc)) combined.

Lemma applied_bounds cap full unc combined :
  fits cap → 0 ≤ coef cap → 0 ≤ coef full → dle full (dec_of_Z 1) → unit_dec unc → unit_dec combined →
  0 ≤ coef (applied cap full unc combined) ∧ dle (applied cap full unc combined) cap.
Proof.
  intros Hf Hc Hfull Hfull1 Hu Hs. pose proof (unit_complement unc Hu) as Hu'.
  pose proof (dmul_nonneg cap full Hc Hfull) as H1. pose proof (dmul_nonneg _ _ H1 (proj1 Hu')) as H2.
  split; [by apply dmul_nonneg; [|apply Hs]|]. unfold applied.
  eapply dle_trans; [apply dmul_shrinks; [apply fits_dmul|done|done]|].
  eapply dle_trans; [apply dmul_shrinks; [apply fits_dmul|done|done]|].
  by apply dmul_shrinks.
Qed.

Lemma applied_mono cap full u u' c c' :
  0 ≤ coef cap → 0 ≤ coef full → unit_dec u → unit_dec u' → unit_dec c' → dle u u' → dle c' c →
  dle (applied cap full u' c') (applied cap full u c).
Proof.
  intros Hc Hf Hu Hu' Hc' Hle Hlec. pose proof (dmul_nonneg cap full Hc Hf) as H1.
  pose proof (unit_complement u' Hu') as Hn.
  apply dmul_mono; [by apply dmul_nonneg; [|apply Hn]|apply Hc'| |done].
  apply dmul_mono; [done|apply Hn|apply dle_refl|]. apply dsub_mono; [apply Hu'|apply dle_refl|done].
Qed.

(** ** The caps *)

Lemma apply_caps_spec pt agg cur pre :
  let size := fst (FractionalKellySizer.apply_caps pt agg cur pre) in
  size = Z.max 0 (Z.min (Z.min pre pt) (Z.max 0 (agg - cur))).
Proof.
  unfold FractionalKellySizer.apply_caps. destruct (Z.ltb_spec pt pre); cbn;
    destruct (Z.ltb_spec (agg - cur) 0); cbn;
    repeat match goal with |- context [?a <? ?b] => destruct (Z.ltb_spec a b); cbn end; lia.
Qed.

(** A quarter of the per-trade cap bounds the fraction of it. *)
Lemma pre_cap_bounds pt f : 0 ≤ pt < 10 ^ 24 → 0 ≤ coef f → dle f _HARD_KELLY_CAP →
  0 ≤ dec_int (dmul (dec_of_Z pt) f) ∧ 4 * dec_int (dmul (dec_of_Z pt) f) ≤ pt.
Proof.
  intros Hpt Hf Hle. split; [apply dec_int_nonneg, dmul_nonneg; [cbn; lia|done]|].
  assert (dle (dmul (dec_of_Z pt) f) (mkdec (pt * 25) (-2))) as H.
  { eapply dle_trans; [apply dmul_mono; [cbn; lia|done|apply dle_refl|exact Hle]|].
    unfold dmul. rewrite fix28_exact; [apply dle_refl|]. cbn.
    assert (10 ^ 24 * 25 < 10 ^ 28) by (by vm_compute). lia. }
  apply dec_int_mono in H. unfold dec_int at 2 in H; cbn [expo coef] in H.
  change (0 <=? -2) with false in H. change (10 ^ (- -2)) with 100 in H. rewrite Z.quot_div_nonneg in H by lia. zdiv.
Qed.

(** What a caller must pass. *)
Record inputs_ok (p unc : stat_in) (current : pynum) (odds : num_in) : Prop := {
  io_p : in_unit p = true ∧ ∀ b, p ≠ StBool b;
  io_unc : in_unit unc = true ∧ ∀ b, unc ≠ StBool b;
  io_current : ∃ z, current = PyInt z ∧ 0 ≤ z;
  io_odds : ∃ b, net_odds_dec odds = Ok b ∧ dleb b d0 = false
}.

Section Size.
Context (config : RiskConfig.t).
Context (Hfits : fits (RiskConfig.kelly_fraction_cap config)) (Hcap0 : 0 ≤ coef (RiskConfig.kelly_fraction_cap config)).
Context (Hpt : 0 ≤ RiskConfig.per_trade_cap_lamports config < 10 ^ 24).

Abbreviation sizer := (FractionalKellySizer.__init__ config).
Abbreviation cap := (FractionalKellySizer._kelly_cap sizer).
Abbreviation per_trade := (RiskConfig.per_trade_cap_lamports config).
Abbreviation agg := (RiskConfig.max_aggregate_lamports config).

(** The decision on well-formed inputs, both branches. *)
Lemma size_ok signals p unc z odds du full combined :
  signals_ok (default DeRiskSignals.default signals) → stat_wf p → stat_wf unc → 0 ≤ z →
  _clamp_unit unc "uncertainty" = Ok du → full_kelly_fraction p odds = Ok full →
  DeRiskSignals.combined_factor (default DeRiskSignals.default signals) = Ok combined →
  FractionalKellySizer.size sizer p unc (PyInt z) signals odds =
    Ok (if dleb full d0 then SizingDecision.mk 0 full d0 0 zero_edge
        else
          let f := applied cap full du combined in
          let pre := dec_int (dmul (dec_of_Z per_trade) f) in
          SizingDecision.mk (fst (FractionalKellySizer.apply_caps per_trade agg z pre)) full f pre
            (snd (FractionalKellySizer.apply_caps per_trade agg z pre))).
Proof.
  intros Hsig Hp Hu Hz Eu Ef Ec. unfold FractionalKellySizer.size. cbn [_reject_float_money mbind result_bind].
  rewrite (proj2 (Z.ltb_ge z 0) Hz), Eu. cbn [mbind result_bind]. rewrite Ef. cbn [mbind result_bind].
  destruct (dleb full d0) eqn:Ed; [done|]. rewrite Ec. cbn [mbind result_bind]. fold (applied cap full du combined).
  destruct (kelly_cap_bound config Hfits Hcap0) as (C1 & C2 & C3).
  destruct (combined_factor_ok _ Hsig) as (c & Ec' & Hc). rewrite Ec in Ec'. injection Ec' as <-.
  destruct (applied_bounds cap full du combined C1 C2) as [A1 A2]; [apply Z.lt_le_incl, dleb_zero_coef, Ed|
    exact (full_kelly_le_1 p odds full Hp Ef)|exact (clamp_unit_ok _ _ du Hu Eu)|done|].
  unfold guard_ok. rewrite (proj2 (dleb_dle _ _) A2). cbn [mbind result_bind].
  set (pre := dec_int _). change (FractionalKellySizer._config sizer) with config.
  pose proof (apply_caps_spec per_trade agg z pre) as Hs.
  destruct (FractionalKellySizer.apply_caps per_trade agg z pre) as [sz b]. cbn in Hs |- *.
  unfold SizingDecision.new; cbn. rewrite (proj2 (Z.ltb_ge sz 0)) by lia. done.
Qed.

(** What an answer says of the inputs. *)
Lemma size_inv signals p unc z odds d :
  FractionalKellySizer.size sizer p unc (PyInt z) signals odds = Ok d →
  0 ≤ z ∧ ∃ du full, _clamp_unit unc "uncertainty" = Ok du ∧ full_kelly_fraction p odds = Ok full.
Proof.
  intros Hd. unfold FractionalKellySizer.size, mbind, result_bind in Hd. cbn [_reject_float_money] in Hd.
  destruct (Z.ltb_spec z 0); [done|]. destruct (_clamp_unit unc _) as [du|]; [|done].
  destruct (full_kelly_fraction p odds) as [full|]; [|done]. split; [done|]. by exists du, full.
Qed.

(** What an answer says of the size. *)
Lemma size_bounds signals p unc z odds d :
  signals_ok (default DeRiskSignals.default signals) → stat_wf p → stat_wf unc →
  FractionalKellySizer.size sizer p unc (PyInt z) signals odds = Ok d →
  0 ≤ SizingDecision.size_lamports d ∧ 4 * SizingDecision.size_lamports d ≤ per_trade ∧
  z + SizingDecision.size_lamports d ≤ Z.max z agg ∧
  dle (SizingDecision.applied_kelly_fraction d) _HARD_KELLY_CAP.
Proof.
  intros Hsig Hp Hu Hd. destruct (size_inv _ _ _ _ _ _ Hd) as (Hz & du & full & Eu & Ef).
  destruct (combined_factor_ok _ Hsig) as (c & Ec & Hc).
  rewrite (size_ok signals p unc z odds du full c Hsig Hp Hu Hz Eu Ef Ec) in Hd. injection Hd as <-.
  destruct (dleb full d0) eqn:Ed; cbn; [split_and!; try lia; by apply dleb_dle|].
  destruct (kelly_cap_bound config Hfits Hcap0) as (C1 & C2 & C3).
  destruct (applied_bounds cap full du c C1 C2) as [A1 A2]; [apply Z.lt_le_incl, dleb_zero_coef, Ed|
    exact (full_kelly_le_1 p odds full Hp Ef)|exact (clamp_unit_ok _ _ du Hu Eu)|done|].
  assert (dle (applied cap full du c) _HARD_KELLY_CAP) as A3 by (eapply dle_trans; eauto).
  destruct (pre_cap_bounds per_trade _ Hpt A1 A3) as [P1 P2].
  cbn in P1, P2 |- *. rewrite apply_caps_spec. split_and!; [lia..|done].
Qed.

(** Sizing decides exactly on well-formed inputs and never exceeds a cap.
    [size] returns a decision iff probability and uncertainty are real numbers
    in [0, 1], the exposure is a non-negative integer and the odds an exact
    positive number; every other input raises.  A returned size is between
    zero and a quarter of the per-trade cap, whatever the configuration's own
    Kelly cap, and never takes the total exposure past the aggregate cap. *)
Theorem sizing_decides_and_caps signals p unc current odds :
  signals_ok (default DeRiskSignals.default signals) → stat_wf p → stat_wf unc →
  ((∃ d, FractionalKellySizer.size sizer p unc current signals odds = Ok d) ↔ inputs_ok p unc current odds) ∧
  ∀ d z, FractionalKellySizer.size sizer p unc current signals odds = Ok d → current = PyInt z →
    0 ≤ SizingDecision.size_lamports d ∧ 4 * SizingDecision.size_lamports d ≤ per_trade ∧
    z + SizingDecision.size_lamports d ≤ Z.max z agg ∧
    dle (SizingDecision.applied_kelly_fraction d) _HARD_KELLY_CAP.
Proof.
  intros Hsig Hp Hu. split.
  - split.
    + intros [d Hd]. unfold FractionalKellySizer.size, mbind, result_bind in Hd.
      destruct current as [z|]; cbn [_reject_float_money] in Hd; [|done]. destruct (Z.ltb_spec z 0); [done|].
      destruct (_clamp_unit unc _) as [du|] eqn:Eu; [|done].
      destruct (full_kelly_fraction p odds) as [full|] eqn:Ef; [|done]. clear Hd.
      unfold full_kelly_fraction, mbind, result_bind in Ef. destruct (_clamp_unit p _) as [dp|] eqn:Ep; [|done].
      destruct (net_odds_dec odds) as [b|] eqn:Eb; [|done]. destruct (dleb b d0) eqn:Hb; [done|].
      constructor; [eapply clamp_unit_iff; by eexists..|by eexists|by exists b].
    + intros [H1 H2 (z & -> & Hz) (b & Hb & Hpos)]. apply (clamp_unit_iff _ "p_calibrated") in H1 as [dp Ep].
      apply (clamp_unit_iff _ "uncertainty") in H2 as [du Eu].
      destruct (ddiv_ok (dsub (dec_of_Z 1) dp) b) as [q Eq]; [apply dleb_zero_coef in Hpos; lia|].
      destruct (combined_factor_ok _ Hsig) as (c & Ec & _). eexists.
      apply (size_ok signals p unc z odds du (dsub dp q) c Hsig Hp Hu Hz Eu); [|done].
      unfold full_kelly_fraction, mbind, result_bind. by rewrite Ep, Hb, Hpos, Eq.
  - intros d z Hd ->. exact (size_bounds signals p unc z odds d Hsig Hp Hu Hd).
Qed.

(** Every input but the edge can only shrink the size.  With the same
    probability and odds, a higher uncertainty, a lower product of the de-risk
    factors, and more exposure already at risk never give a larger size. *)
Theorem sizing_only_shrinks p unc unc' z z' odds signals signals' d d' :
  stat_wf p → stat_wf unc → stat_wf unc' →
  signals_ok (default DeRiskSignals.default signals) → signals_ok (default DeRiskSignals.default signals') →
  (∀ u u', _clamp_unit unc "uncertainty" = Ok u → _clamp_unit unc' "uncertainty" = Ok u' → dle u u') →
  (∀ c c', DeRiskSignals.combined_factor (default DeRiskSignals.default signals) = Ok c →
     DeRiskSignals.combined_factor (default DeRiskSignals.default signals') = Ok c' → dle c' c) →
  z ≤ z' →
  FractionalKellySizer.size sizer p unc (PyInt z) signals odds = Ok d →
  FractionalKellySizer.size sizer p unc' (PyInt z') signals' odds = Ok d' →
  SizingDecision.size_lamports d' ≤ SizingDecision.size_lamports d.
Proof.
  intros Hp Hu Hu' Hs Hs' Hleu Hlec Hz Hd Hd'.
  destruct (size_inv _ _ _ _ _ _ Hd) as (Hz0 & du & full & Eu & Ef).
  destruct (size_inv _ _ _ _ _ _ Hd') as (_ & du' & full' & Eu' & Ef').
  rewrite Ef in Ef'. injection Ef' as <-.
  destruct (combined_factor_ok _ Hs) as (c & Ec & Hc). destruct (combined_factor_ok _ Hs') as (c' & Ec' & Hc').
  rewrite (size_ok signals p unc z odds du full c Hs Hp Hu Hz0 Eu Ef Ec) in Hd. injection Hd as <-.
  rewrite (size_ok signals' p unc' z' odds du' full c' Hs' Hp Hu' ltac:(lia) Eu' Ef Ec') in Hd'. injection Hd' as <-.
  destruct (dleb full d0) eqn:Ed; [done|]. cbn. rewrite !apply_caps_spec.
  assert (0 ≤ coef full) as Hfull by (apply Z.lt_le_incl, dleb_zero_coef, Ed).
  destruct (kelly_cap_bound config Hfits Hcap0) as (C1 & C2 & C3).
  assert (dle (applied cap full du' c') (applied cap full du c)) as Ha.
  { apply applied_mono; try done; [exact (clamp_unit_ok _ _ du Hu Eu)|exact (clamp_unit_ok _ _ du' Hu' Eu')|auto..]. }
  assert (dec_int (dmul (dec_of_Z per_trade) (applied cap full du' c')) ≤
    dec_int (dmul (dec_of_Z per_trade) (applied cap full du c))) as Hi.
  { apply dec_int_mono, dmul_mono; [cbn; lia| |apply dle_refl|done].
    apply applied_bounds; try done; [exact (full_kelly_le_1 p odds full Hp Ef)|exact (clamp_unit_ok _ _ du' Hu' Eu')]. }
  cbn in Hi |- *. lia.
Qed.
End Size.

(** *** Witnesses *)

Definition p70 : stat_in := StFloat (float_lit 7 1).
Definition u10 : stat_in := StFloat (float_lit 1 1).
Definition u30 : stat_in := StFloat (float_lit 3 1).

(** 0.25 * (0.7 - 0.3) * 0.9 of 0.1 SOL. *)
Example size_70_10 :
  SizingDecision.size_lamports <$> (match FractionalKellySizer.size (FractionalKellySizer.__init__ RiskConfig.defaults)
    p70 u10 (PyInt 0) None (NInt 1) with Ok d => Some d | Raise _ => None end) = Some 9000000.
Proof. by vm_compute. Qed.

Lemma sizing_decides_and_caps_witness :
  ∃ d, FractionalKellySizer.size (FractionalKellySizer.__init__ RiskConfig.defaults) p70 u10 (PyInt 495000000) None (NInt 1) = Ok d.
Proof.
  apply (proj1 (sizing_decides_and_caps RiskConfig.defaults ltac:(by vm_compute) ltac:(by vm_compute) ltac:(by vm_compute)
    None p70 u10 (PyInt 495000000) (NInt 1) default_signals_ok ltac:(by vm_compute) ltac:(by vm_compute))).
  constructor; [split; [by vm_compute|discriminate]..|by exists 495000000|by exists (dec_of_Z 1)].
Defined.

Definition dec_of_result (r : result SizingDecision.t) : SizingDecision.t :=
  match r with Ok d => d | Raise _ => SizingDecision.mk 0 d0 d0 0 zero_edge end.

Lemma sizing_only_shrinks_witness :
  let cfg := RiskConfig.defaults in
  let size u z := FractionalKellySizer.size (FractionalKellySizer.__init__ cfg) p70 u (PyInt z) None (NInt 1) in
  SizingDecision.size_lamports (dec_of_result (size u30 1000)) ≤ SizingDecision.size_lamports (dec_of_result (size u10 0)).
Proof.
  apply (sizing_only_shrinks RiskConfig.defaults ltac:(by vm_compute) ltac:(by vm_compute) ltac:(by vm_compute)
    p70 u10 u30 0 1000 (NInt 1) None None); try (by vm_compute).
  - intros u u' Hu Hu'. vm_compute in Hu, Hu'. injection Hu as <-. injection Hu' as <-. by apply dleb_dle.
  - intros c c' Hc Hc'. rewrite Hc in Hc'. injection Hc' as <-. apply dle_refl.
Defined.
