(* ===== verification/LiquiditySanity.v ===== *)
(** * The liquidity-sanity gate: [aats/risk/liquidity_sanity.py]

    A reject-only gate on turnover and on the simulated price impact of the
    intended position, with a short-circuit evaluation for the hot path and a
    full scan for the dashboard. *)

From S2P Require Import Prelude Decimal RiskContracts SurvivableStop DecimalOrder.

Definition BPS_DENOM : Z := 10000.

Inductive LiquidityReject : Type := VOLUME_BELOW_MULTIPLE | SIM_SLIPPAGE_TOO_HIGH | INPUT_INCOMPLETE | INPUT_STALE.
#[export] Instance LiquidityReject_eq_dec : EqDecision LiquidityReject.
Proof. solve_decision. Defined.
Definition reject_value (r : LiquidityReject) : string :=
  match r with
  | VOLUME_BELOW_MULTIPLE => "volume_below_position_multiple"
  | SIM_SLIPPAGE_TOO_HIGH => "sim_slippage_too_high"
  | INPUT_INCOMPLETE => "input_incomplete"
  | INPUT_STALE => "input_stale"
  end.

Module LiquidityThresholds.
Record t : Type := mk { min_volume_multiple : dec; max_sim_slippage_bps : Z; max_staleness_ms : Z }.
Definition default : t := mk (dec_of_Z 10) 300 2000.

Definition nonneg_int (v : pynum) (name : string) : result Z :=
  match v with
  | PyFloat _ => Raise (TypeError ("LiquidityThresholds." +:+ name +:+ " must be int (bps/ms)"))
  | PyInt z => if z <? 0 then Raise (ValueError ("LiquidityThresholds." +:+ name +:+ " must be non-negative")) else Ok z
  end.
Definition new (multiple : num_in) (slippage staleness : pynum) : result t :=
  s ← nonneg_int slippage "max_sim_slippage_bps";
  m ← nonneg_int staleness "max_staleness_ms";
  match multiple with
  | NDec d => if dltb d (dec_of_Z 1) then Raise (ValueError "min_volume_multiple must be >= 1") else Ok (mk d s m)
  | _ => Raise (TypeError "LiquidityThresholds.min_volume_multiple must be Decimal (exact ratio)")
  end.
End LiquidityThresholds.

Module LiquidityInputs.
Record t : Type := mk {
  mint : string;
  event_slot : Z;
  event_block_time_ms : Z;
  data_staleness_ms : Z;
  intended_position_lamports : Z;
  volume_24h_lamports : option Z;
  sol_reserve_lamports : option Z;
  token_reserve_base : option Z
}.

Definition int_field (v : pynum) (name : string) : result Z :=
  match v with PyFloat _ => Raise (TypeError ("LiquidityInputs." +:+ name +:+ " must be int")) | PyInt z => Ok z end.
Definition int_or_none (v : option pynum) (name : string) : result (option Z) :=
  match v with None => Ok None | Some v => z ← int_field v name; Ok (Some z) end.

Definition new (mint : string) (slot block_time staleness position : pynum) (volume sol token : option pynum) : result t :=
  slot ← int_field slot "event_slot";
  bt ← int_field block_time "event_block_time_ms";
  st ← int_field staleness "data_staleness_ms";
  pos ← int_field position "intended_position_lamports";
  vol ← int_or_none volume "volume_24h_lamports";
  sol ← int_or_none sol "sol_reserve_lamports";
  tok ← int_or_none token "token_reserve_base";
  if bt <=? 0 then Raise (ValueError "LiquidityInputs.event_block_time_ms must be > 0 (real on-chain time).")
  else if st <? 0 then Raise (ValueError "LiquidityInputs.data_staleness_ms must be non-negative.")
  else if pos <=? 0 then Raise (ValueError "LiquidityInputs.intended_position_lamports must be > 0.")
  else Ok (mk mint slot bt st pos vol sol tok).
End LiquidityInputs.

Record LiquidityRejectHit : Type := mk_hit {
  hit_reason : LiquidityReject; measured : option Z; threshold : option Z; measured_ratio : option dec
}.

Inductive LiquidityVerdict : Type := PASS | REJECT.
#[export] Instance LiquidityVerdict_eq_dec : EqDecision LiquidityVerdict.
Proof. solve_decision. Defined.

Module LiquidityDecision.
Record t : Type := mk {
  mint : string; verdict : LiquidityVerdict; rejects : list LiquidityRejectHit;
  event_slot : Z; event_block_time_ms : Z
}.
Definition passed (d : t) : bool := bool_decide (verdict d = PASS).
Definition reject_codes (d : t) : list string := (λ h, reject_value (hit_reason h)) <$> rejects d.
End LiquidityDecision.

(** [x*y=k]: the impact of a buy in bps, [None] when no fill can be formed. *)
Definition simulate_entry_slippage_bps (sol token sol_in : Z) : result (option Z) :=
  if (sol <=? 0) || (token <=? 0) || (sol_in <=? 0) then Ok None
  else
    let k := sol * token in
    let new_reserve_sol := sol + sol_in in
    let new_reserve_tok := k / new_reserve_sol in
    let tokens_out := token - new_reserve_tok in
    if tokens_out <=? 0 then Ok None
    else
      spot_price ← ddiv (dec_of_Z sol) (dec_of_Z token);
      eff_price ← ddiv (dec_of_Z sol_in) (dec_of_Z tokens_out);
      if dleb spot_price d0 then Ok None
      else
        slip_fraction ← ddiv (dsub eff_price spot_price) spot_price;
        let slip_bps := dec_int (dmul slip_fraction (dec_of_Z BPS_DENOM)) in
        Ok (Some (Z.max 0 slip_bps)).

(** What the sink was told. *)
Inductive liquidity_event : Type :=
| LiquidityRejected (mint : string) (reasons : list string)
| LiquidityPassed (mint : string).

Module LiquiditySanityGate.
Record t : Type := mk { thresholds : LiquidityThresholds.t; enabled : bool; telemetry : option (list liquidity_event) }.

Definition emit (e : liquidity_event) (g : t) : t := mk (thresholds g) (enabled g) ((λ l, l ++ [e]) <$> telemetry g).

(** [int(required) + (1 if required != int(required) else 0)] *)
Definition required_int (multiple : dec) (pos : Z) : Z :=
  let required := dmul multiple (dec_of_Z pos) in
  let i := dec_int required in
  i + (if dleb required (dec_of_Z i) && dleb (dec_of_Z i) required then 0 else 1).

Definition _check_volume (th : LiquidityThresholds.t) (i : LiquidityInputs.t) : result (option LiquidityRejectHit) :=
  match LiquidityInputs.volume_24h_lamports i with
  | None => Ok (Some (mk_hit INPUT_INCOMPLETE None None None))
  | Some vol =>
      let pos := LiquidityInputs.intended_position_lamports i in
      let required := required_int (LiquidityThresholds.min_volume_multiple th) pos in
      if vol <? required
      then ratio ← ddiv (dec_of_Z vol) (dec_of_Z pos);
           Ok (Some (mk_hit VOLUME_BELOW_MULTIPLE (Some vol) (Some required) (Some ratio)))
      else Ok None
  end.

Definition _check_slippage (th : LiquidityThresholds.t) (i : LiquidityInputs.t) : result (option LiquidityRejectHit) :=
  match LiquidityInputs.sol_reserve_lamports i, LiquidityInputs.token_reserve_base i with
  | Some sol, Some tok =>
      slip ← simulate_entry_slippage_bps sol tok (LiquidityInputs.intended_position_lamports i);
      Ok (match slip with
          | None => Some (mk_hit INPUT_INCOMPLETE None None None)
          | Some s => if LiquidityThresholds.max_sim_slippage_bps th <? s
                      then Some (mk_hit SIM_SLIPPAGE_TOO_HIGH (Some s) (Some (LiquidityThresholds.max_sim_slippage_bps th)) None)
                      else None
          end)
  | _, _ => Ok (Some (mk_hit INPUT_INCOMPLETE None None None))
  end.

Definition stale (th : LiquidityThresholds.t) (i : LiquidityInputs.t) : option LiquidityRejectHit :=
  if LiquidityThresholds.max_staleness_ms th <? LiquidityInputs.data_staleness_ms i
  then Some (mk_hit INPUT_STALE (Some (LiquidityInputs.data_staleness_ms i)) (Some (LiquidityThresholds.max_staleness_ms th)) None)
  else None.

Definition _reject (i : LiquidityInputs.t) (hits : list LiquidityRejectHit) : M t LiquidityDecision.t :=
  let d := LiquidityDecision.mk (LiquidityInputs.mint i) REJECT hits (LiquidityInputs.event_slot i) (LiquidityInputs.event_block_time_ms i) in
  modify (emit (LiquidityRejected (LiquidityInputs.mint i) (LiquidityDecision.reject_codes d)));;
  mret d.
Definition _pass (i : LiquidityInputs.t) : M t LiquidityDecision.t :=
  modify (emit (LiquidityPassed (LiquidityInputs.mint i)));;
  mret (LiquidityDecision.mk (LiquidityInputs.mint i) PASS [] (LiquidityInputs.event_slot i) (LiquidityInputs.event_block_time_ms i)).

(** The short-circuit evaluation. *)
Definition evaluate (i : LiquidityInputs.t) : M t LiquidityDecision.t :=
  g ← get;
  match stale (thresholds g) i with
  | Some h => _reject i [h]
  | None =>
      v ← lift (_check_volume (thresholds g) i);
      match v with
      | Some h => _reject i [h]
      | None =>
          s ← lift (_check_slippage (thresholds g) i);
          match s with Some h => _reject i [h] | None => _pass i end
      end
  end.

Definition scan_all (i : LiquidityInputs.t) : M t LiquidityDecision.t :=
  g ← get;
  v ← lift (_check_volume (thresholds g) i);
  s ← lift (_check_slippage (thresholds g) i);
  let hits := option_list (stale (thresholds g) i) ++ option_list v ++ option_list s in
  match hits with [] => _pass i | _ => _reject i hits end.

Definition require_enabled_for_entry (d : LiquidityDecision.t) (g : t) : bool := enabled g && LiquidityDecision.passed d.
End LiquiditySanityGate.

(** ** The gate never raises *)

Lemma simulate_total sol tok x : ∃ o, simulate_entry_slippage_bps sol tok x = Ok o.
Proof.
  unfold simulate_entry_slippage_bps, mbind, result_bind. destruct (_ || _) eqn:E; [by eexists|]. bools.
  destruct (Z.leb_spec (tok - sol * tok / (sol + x)) 0); [by eexists|].
  destruct (ddiv_ok (dec_of_Z sol) (dec_of_Z tok)) as [spot ->]; [cbn; lia|].
  destruct (ddiv_ok (dec_of_Z x) (dec_of_Z (tok - sol * tok / (sol + x)))) as [eff ->]; [cbn; lia|].
  destruct (dleb spot d0) eqn:Es; [by eexists|]. apply dleb_zero_coef in Es.
  destruct (ddiv_ok (dsub eff spot) spot) as [f ->]; [lia|]. by eexists.
Qed.

Import LiquiditySanityGate.

Lemma check_volume_total th i : 0 < LiquidityInputs.intended_position_lamports i → ∃ o, _check_volume th i = Ok o.
Proof.
  intros Hp. unfold _check_volume, mbind, result_bind. destruct (LiquidityInputs.volume_24h_lamports i); [|by eexists].
  destruct (_ <? _); [|by eexists].
  destruct (ddiv_ok (dec_of_Z z) (dec_of_Z (LiquidityInputs.intended_position_lamports i))) as [r ->]; [cbn; lia|by eexists].
Qed.

Lemma check_slippage_total th i : ∃ o, _check_slippage th i = Ok o.
Proof.
  unfold _check_slippage, mbind, result_bind.
  destruct (LiquidityInputs.sol_reserve_lamports i), (LiquidityInputs.token_reserve_base i); try by eexists.
  destruct (simulate_total z z0 (LiquidityInputs.intended_position_lamports i)) as [o ->]. by eexists.
Qed.

(** ** What each check means *)

(** The requirement is the product rounded up. *)
Lemma required_int_spec m pos :
  0 ≤ coef m → 0 ≤ pos → fits (exact_mul m (dec_of_Z pos)) →
  ∀ v, dle (exact_mul m (dec_of_Z pos)) (dec_of_Z v) ↔ required_int m pos ≤ v.
Proof.
  intros Hm Hp Hf v. unfold required_int, dmul. change (mkdec (coef m * coef (dec_of_Z pos)) _) with (exact_mul m (dec_of_Z pos)).
  rewrite (fix28_fits _ Hf). set (r := exact_mul m (dec_of_Z pos)) in *.
  assert (0 ≤ coef r) as Hr by (cbn; nia). clearbody r. clear Hf.
  set (i := dec_int r). set (e := Z.min (expo r) 0).
  assert (∀ z, dle r (dec_of_Z z) ↔ rescale r e ≤ z * 10 ^ (- e)) as Hle.
  { intros z. replace (z * 10 ^ (- e)) with (rescale (dec_of_Z z) e) by (unfold rescale; cbn; f_equal; f_equal; lia).
    split; [intros H; apply H; cbn; lia|apply dle_at; cbn; lia]. }
  assert (∀ z, dle (dec_of_Z z) r ↔ z * 10 ^ (- e) ≤ rescale r e) as Hge.
  { intros z. replace (z * 10 ^ (- e)) with (rescale (dec_of_Z z) e) by (unfold rescale; cbn; f_equal; f_equal; lia).
    split; [intros H; apply H; cbn; lia|apply dle_at; cbn; lia]. }
  pose proof (Z_pow10_pos' (- e) ltac:(lia)) as Hpow.
  assert (i = rescale r e / 10 ^ (- e)) as Hi.
  { unfold i, dec_int, rescale, e. destruct (Z.leb_spec 0 (expo r)).
    - rewrite Z.min_r by lia. change (10 ^ (- 0)) with 1. by rewrite Z.div_1_r, Z.sub_0_r.
    - rewrite Z.min_l, Z.sub_diag by lia. change (10 ^ 0) with 1. rewrite Z.mul_1_r.
      apply Z.quot_div_nonneg; [lia|]. apply Z_pow10_pos'. lia. }
  set (R := rescale r e) in *. set (P := 10 ^ (- e)) in *. rewrite Hle.
  pose proof (Z.div_mod R P ltac:(lia)) as Hdm. pose proof (Z.mod_pos_bound R P Hpow) as Hmod. rewrite <- Hi in Hdm.
  destruct (dleb r (dec_of_Z i) && dleb (dec_of_Z i) r) eqn:Eq.
  - apply andb_true_iff in Eq as [E1 E2]. rewrite dleb_dle, Hle in E1. nia.
  - assert (R mod P ≠ 0) as Hne.
    { intros Hz. assert (dleb r (dec_of_Z i) && dleb (dec_of_Z i) r = true); [|congruence].
      apply andb_true_iff. rewrite !dleb_dle, Hle, Hge. nia. }
    nia.
Qed.

(** What a passing candidate has shown. *)
Record adequate (th : LiquidityThresholds.t) (i : LiquidityInputs.t) : Prop := {
  ad_fresh : LiquidityInputs.data_staleness_ms i ≤ LiquidityThresholds.max_staleness_ms th;
  ad_volume : ∃ vol, LiquidityInputs.volume_24h_lamports i = Some vol ∧
    dle (exact_mul (LiquidityThresholds.min_volume_multiple th) (dec_of_Z (LiquidityInputs.intended_position_lamports i))) (dec_of_Z vol);
  ad_impact : ∃ sol tok slip, LiquidityInputs.sol_reserve_lamports i = Some sol ∧ LiquidityInputs.token_reserve_base i = Some tok ∧
    simulate_entry_slippage_bps sol tok (LiquidityInputs.intended_position_lamports i) = Ok (Some slip) ∧
    slip ≤ LiquidityThresholds.max_sim_slippage_bps th
}.

Lemma volume_check_iff th i :
  0 ≤ coef (LiquidityThresholds.min_volume_multiple th) → 0 < LiquidityInputs.intended_position_lamports i →
  fits (exact_mul (LiquidityThresholds.min_volume_multiple th) (dec_of_Z (LiquidityInputs.intended_position_lamports i))) →
  _check_volume th i = Ok None ↔ ∃ vol, LiquidityInputs.volume_24h_lamports i = Some vol ∧
    dle (exact_mul (LiquidityThresholds.min_volume_multiple th) (dec_of_Z (LiquidityInputs.intended_position_lamports i))) (dec_of_Z vol).
Proof.
  intros Hm Hp Hf. destruct (check_volume_total th i Hp) as [o Ho]. unfold _check_volume, mbind, result_bind in *.
  destruct (LiquidityInputs.volume_24h_lamports i) as [vol|]; [|split; [done|by intros (? & ? & _)]].
  transitivity (required_int (LiquidityThresholds.min_volume_multiple th) (LiquidityInputs.intended_position_lamports i) ≤ vol).
  - destruct (Z.ltb_spec vol (required_int (LiquidityThresholds.min_volume_multiple th) (LiquidityInputs.intended_position_lamports i)));
      [|split; [lia|done]]. destruct (ddiv _ _); split; try done; lia.
  - rewrite <- required_int_spec by (done || lia). split; [by exists vol|]. by intros (? & [= <-] & ?).
Qed.

Lemma slippage_check_iff th i :
  _check_slippage th i = Ok None ↔
  ∃ sol tok slip, LiquidityInputs.sol_reserve_lamports i = Some sol ∧ LiquidityInputs.token_reserve_base i = Some tok ∧
    simulate_entry_slippage_bps sol tok (LiquidityInputs.intended_position_lamports i) = Ok (Some slip) ∧
    slip ≤ LiquidityThresholds.max_sim_slippage_bps th.
Proof.
  unfold _check_slippage, mbind, result_bind.
  destruct (LiquidityInputs.sol_reserve_lamports i) as [sol|], (LiquidityInputs.token_reserve_base i) as [tok|];
    try (split; [done|by intros (? & ? & ? & ? & ? & _)]).
  destruct (simulate_total sol tok (LiquidityInputs.intended_position_lamports i)) as [o E]. rewrite E. split.
  - destruct o as [s|]; [|done]. destruct (Z.ltb_spec (LiquidityThresholds.max_sim_slippage_bps th) s); [done|].
    intros _. by exists sol, tok, s.
  - intros (? & ? & s & [= <-] & [= <-] & Hs & Hle). rewrite E in Hs. injection Hs as ->.
    by destruct (Z.ltb_spec (LiquidityThresholds.max_sim_slippage_bps th) s); [lia|].
Qed.

(** C33: the two evaluations of the gate agree and mean what they say.  On any
    candidate with a positive position, whose required volume (multiple times
    position) fits the 28 digits of a Decimal, neither raises; they reach the same
    verdict, the hot path reports exactly the first failure of the full scan,
    and the verdict is PASS iff the data is fresh, the known 24h volume is at
    least the configured multiple of the position (as rationals, no rounding in
    the candidate's favour), and the simulated impact of the known reserves is
    within the limit.  Only an enabled gate lets a passing candidate enter. *)
Theorem liquidity_gate_correct g i :
  0 < LiquidityInputs.intended_position_lamports i →
  0 ≤ coef (LiquidityThresholds.min_volume_multiple (thresholds g)) →
  fits (exact_mul (LiquidityThresholds.min_volume_multiple (thresholds g)) (dec_of_Z (LiquidityInputs.intended_position_lamports i))) →
  ∃ d d', fst (evaluate i g) = Ok d ∧ fst (scan_all i g) = Ok d' ∧
    LiquidityDecision.verdict d = LiquidityDecision.verdict d' ∧
    LiquidityDecision.rejects d = take 1 (LiquidityDecision.rejects d') ∧
    (LiquidityDecision.verdict d = PASS ↔ adequate (thresholds g) i) ∧
    (require_enabled_for_entry d g = true ↔ enabled g = true ∧ adequate (thresholds g) i).
Proof.
  intros Hp Hm Hf. pose proof (volume_check_iff (thresholds g) i Hm Hp Hf) as Hv.
  pose proof (slippage_check_iff (thresholds g) i) as Hs.
  destruct (check_volume_total (thresholds g) i Hp) as [v Ev]. destruct (check_slippage_total (thresholds g) i) as [s Es].
  rewrite Ev in Hv. rewrite Es in Hs.
  assert (adequate (thresholds g) i ↔ stale (thresholds g) i = None ∧ v = None ∧ s = None) as Had.
  { unfold stale. split.
    - intros [H1 H2%Hv H3%Hs]. rewrite (proj2 (Z.ltb_ge _ _) H1). split_and!; congruence.
    - intros (H1 & -> & ->). destruct (Z.ltb_spec (LiquidityThresholds.max_staleness_ms (thresholds g)) (LiquidityInputs.data_staleness_ms i)); [done|].
      constructor; [done|by apply Hv|by apply Hs]. }
  unfold evaluate, scan_all, require_enabled_for_entry. mstep. rewrite Ev, Es. cbn.
  destruct (stale (thresholds g) i) as [h|], v as [hv|], s as [hs|]; cbn; do 2 eexists;
    (split_and!; [done..| |]); rewrite Had; unfold LiquidityDecision.passed; cbn;
    rewrite ?andb_true_iff, ?bool_decide_eq_true; intuition congruence.
Qed.

(** *** Witness *)

Definition sample_inputs : LiquidityInputs.t :=
  LiquidityInputs.mk "M" 1 1 100 100000000 (Some 2000000000) (Some 30000000000) (Some 1000000000000).
Definition sample_gate : LiquiditySanityGate.t := LiquiditySanityGate.mk LiquidityThresholds.default true None.

Lemma liquidity_gate_correct_witness :
  ∃ d d', fst (evaluate sample_inputs sample_gate) = Ok d ∧ fst (scan_all sample_inputs sample_gate) = Ok d' ∧
    LiquidityDecision.verdict d = LiquidityDecision.verdict d'.
Proof.
  destruct (liquidity_gate_correct sample_gate sample_inputs) as (d & d' & H1 & H2 & H3 & _);
    [reflexivity|by vm_compute|by vm_compute|].
  exists d, d'. split; [exact H1|]. split; [exact H2|exact H3].
Defined.

(** The sample passes with an impact of 33 bps; ten times the size has too
    little turnover and too much impact. *)
Example sample_verdicts :
  fst (evaluate sample_inputs sample_gate) = Ok (LiquidityDecision.mk "M" PASS [] 1 1) ∧
  (hit_reason <$> (match fst (scan_all (LiquidityInputs.mk "M" 1 1 100 1000000000 (Some 2000000000) (Some 30000000000)
      (Some 1000000000000)) sample_gate) with Ok d => LiquidityDecision.rejects d | Raise _ => [] end))
    = [VOLUME_BELOW_MULTIPLE; SIM_SLIPPAGE_TOO_HIGH].
Proof. by vm_compute. Qed.
