(* ===== verification/PyText.v ===== *)
(** * Python text

    A [str] is the list of its UTF-8 bytes.  Length, slicing, searching, the
    ASCII part of [strip] and [upper], [json.dumps] of strings, the [repr] of
    floats, [round(x, n)] and [float(s)] on ASCII numerals. *)

From S2P Require Import Prelude Decimal RiskContracts Float64 FloatRepr.
From Stdlib Require Import Ascii.

(** The double quote, the backslash and the newline. *)
Definition dq : string := String (ascii_of_nat 34) EmptyString.
Definition bslash : string := String (ascii_of_nat 92) EmptyString.
Definition nl : string := String (ascii_of_nat 10) EmptyString.
Definition code (a : ascii) : Z := Z.of_N (N_of_ascii a).

Definition quoted (s : string) : string := dq +:+ s +:+ dq.

(** ** Characters *)

(** A byte that does not continue a character. *)
Definition leads (a : ascii) : bool := negb ((128 <=? code a) && (code a <? 192)).

Fixpoint py_len (s : string) : Z :=
  match s with
  | EmptyString => 0
  | String a s => (if leads a then 1 else 0) + py_len s
  end.

(** [s[:n]] ([n >= 0]) *)
Fixpoint py_take (n : Z) (s : string) : string :=
  match s with
  | EmptyString => EmptyString
  | String a s =>
      if leads a then if n <=? 0 then EmptyString else String a (py_take (n - 1) s)
      else String a (py_take n s)
  end.

(** ** Searching and splitting *)

Fixpoint starts_with (p s : string) : option string :=
  match p, s with
  | EmptyString, _ => Some s
  | String a p, String b s => if Ascii.eqb a b then starts_with p s else None
  | String _ _, EmptyString => None
  end.

(** What follows the first occurrence of [p] in [s]. *)
Fixpoint after_first (p s : string) : option string :=
  match starts_with p s with
  | Some rest => Some rest
  | None => match s with EmptyString => None | String _ s => after_first p s end
  end.

(** [p in s] *)
Definition contains (p s : string) : bool :=
  match after_first p s with Some _ => true | None => false end.

Definition is_space (a : ascii) : bool :=
  let c := code a in ((9 <=? c) && (c <=? 13)) || ((28 <=? c) && (c <=? 32)).

Fixpoint lstrip (s : string) : string :=
  match s with
  | String a s' => if is_space a then lstrip s' else s
  | EmptyString => s
  end.

Definition string_rev (s : string) : string :=
  String.string_of_list_ascii (reverse (String.list_ascii_of_string s)).
Definition strip (s : string) : string := string_rev (lstrip (string_rev (lstrip s))).

Fixpoint string_map (f : ascii → ascii) (s : string) : string :=
  match s with EmptyString => EmptyString | String a s => String (f a) (string_map f s) end.

Definition upper_char (a : ascii) : ascii :=
  let c := code a in if (97 <=? c) && (c <=? 122) then ascii_of_N (Z.to_N (c - 32)) else a.
Definition upper : string → string := string_map upper_char.
(** [s.lower()] of ASCII text. *)
Definition lower_char (a : ascii) : ascii :=
  let c := code a in if (65 <=? c) && (c <=? 90) then ascii_of_nat (Z.to_nat (c + 32)) else a.
Definition lower : string → string := string_map lower_char.

(** [s.replace(x, y)] for single characters. *)
Definition replace_char (x y : ascii) : string → string :=
  string_map (λ a, if Ascii.eqb a x then y else a).

(** [sep.join(l)] *)
Fixpoint join (sep : string) (l : list string) : string :=
  match l with
  | [] => ""
  | [s] => s
  | s :: l => s +:+ sep +:+ join sep l
  end.

Definition str_bool (b : bool) : string := if b then "True" else "False".

(** ** [json.dumps] *)

Definition hex_char (d : Z) : ascii :=
  ascii_of_N (Z.to_N (if d <? 10 then 48 + d else 87 + d)).
Definition hex4 (c : Z) : string :=
  String.string_of_list_ascii (map (λ i, hex_char (c / 16 ^ i mod 16)) [3; 2; 1; 0]).

(** The escape of one code point. *)
Definition json_char (c : Z) : string :=
  if c =? 34 then bslash +:+ dq
  else if c =? 92 then bslash +:+ bslash
  else if c =? 10 then bslash +:+ "n"
  else if c =? 13 then bslash +:+ "r"
  else if c =? 9 then bslash +:+ "t"
  else if c =? 12 then bslash +:+ "f"
  else if c =? 8 then bslash +:+ "b"
  else if (32 <=? c) && (c <? 127) then String (ascii_of_N (Z.to_N c)) EmptyString
  else if c <? 65536 then bslash +:+ "u" +:+ hex4 c
  else bslash +:+ "u" +:+ hex4 (55296 + (c - 65536) / 1024)
       +:+ bslash +:+ "u" +:+ hex4 (56320 + (c - 65536) mod 1024).

(** Walk the bytes; [need] continuation bytes complete the point [acc]. *)
Fixpoint json_chars (need acc : Z) (s : string) : string :=
  match s with
  | EmptyString => EmptyString
  | String a s =>
      let b := code a in
      if 0 <? need then
        let acc := acc * 64 + (b - 128) in
        if need =? 1 then json_char acc +:+ json_chars 0 0 s else json_chars (need - 1) acc s
      else if b <? 128 then json_char b +:+ json_chars 0 0 s
      else if b <? 224 then json_chars 1 (b - 192) s
      else if b <? 240 then json_chars 2 (b - 224) s
      else json_chars 3 (b - 240) s
  end.
Definition json_str (s : string) : string := quoted (json_chars 0 0 s).
Definition json_bool (b : bool) : string := if b then "true" else "false".

(** ** [repr] of a string and of a list of strings

    Non-ASCII characters are taken to be printable. *)

Definition squote : string := "'".
Definition repr_char (q : ascii) (a : ascii) : string :=
  let c := code a in
  if Ascii.eqb a q || (c =? 92) then bslash +:+ String a EmptyString
  else if c =? 10 then bslash +:+ "n"
  else if c =? 13 then bslash +:+ "r"
  else if c =? 9 then bslash +:+ "t"
  else if (c <? 32) || (c =? 127) then bslash +:+ "x" +:+ String (hex_char (c / 16)) (String (hex_char (c mod 16)) EmptyString)
  else String a EmptyString.
Fixpoint concat_map (f : ascii → string) (s : string) : string :=
  match s with EmptyString => "" | String a s => f a +:+ concat_map f s end.
Definition str_repr (s : string) : string :=
  if contains squote s && negb (contains dq s) then dq +:+ concat_map (repr_char (ascii_of_nat 34)) s +:+ dq
  else squote +:+ concat_map (repr_char (ascii_of_nat 39)) s +:+ squote.
Definition str_list_repr (l : list string) : string := "[" +:+ join ", " (map str_repr l) +:+ "]".

(** ** Floats *)

Fixpoint rep (n : nat) (s : string) : string :=
  match n with O => "" | S n => s +:+ rep n s end.

(** [repr] of shortest digits [c * 10^k]. *)
Definition repr_digits (c k : Z) : string :=
  let ds : string := pretty c in
  let nd := Z.of_nat (String.length ds) in
  let pt := nd + k in
  if (-4 <? pt) && (pt <=? 16) then
    if pt <=? 0 then "0." +:+ rep (Z.to_nat (- pt)) "0" +:+ ds
    else if nd <=? pt then ds +:+ rep (Z.to_nat (pt - nd)) "0" +:+ ".0"
    else String.substring 0 (Z.to_nat pt) ds +:+ "."
         +:+ String.substring (Z.to_nat pt) (Z.to_nat (nd - pt)) ds
  else
    let x := pt - 1 in
    let xs : string := pretty (Z.abs x) in
    String.substring 0 1 ds
      +:+ (if nd =? 1 then "" else "." +:+ String.substring 1 (Z.to_nat (nd - 1)) ds)
      +:+ "e" +:+ (if x <? 0 then "-" else "+") +:+ (if Z.abs x <? 10 then "0" else "") +:+ xs.

Definition float_repr (x : float) : string :=
  match x with
  | S754_nan => "nan"
  | S754_infinity s => if s then "-inf" else "inf"
  | S754_zero s => if s then "-0.0" else "0.0"
  | S754_finite s m e =>
      let '(n, d) := ratio_of m e in
      let '(c, k) := shortest 17 (S754_finite false m e) n d (point n d) 1 in
      (if s then "-" else "") +:+ repr_digits c k
  end.
Definition json_float (x : float) : string :=
  match x with
  | S754_nan => "NaN"
  | S754_infinity s => if s then "-Infinity" else "Infinity"
  | _ => float_repr x
  end.

Definition fneg (x : float) : float := SFopp x.

(** [round(x, n)] ([n >= 0]): round the exact value half-even, read back. *)
Definition round_float (x : float) (n : Z) : float :=
  match x with
  | S754_finite s m e =>
      let '(a, b) := ratio_of m e in
      let y := float_of_dec (round_half_even (a * 10 ^ n) b) (- n) in
      if s then fneg y else y
  | _ => x
  end.

(** Digits from the left: their value, how many, what follows. *)
Fixpoint digits (acc n : Z) (s : string) : Z * Z * string :=
  match s with
  | String a s' =>
      if (48 <=? code a) && (code a <=? 57) then digits (acc * 10 + (code a - 48)) (n + 1) s'
      else (acc, n, s)
  | EmptyString => (acc, n, s)
  end.
Definition sign_of (s : string) : bool * string :=
  match s with
  | String "-" s' => (true, s')
  | String "+" s' => (false, s')
  | _ => (false, s)
  end.

(** [float(s)] for a string over ["-+.0123456789eE"]; [None] is [ValueError]. *)
Definition parse_float (s : string) : option float :=
  let '(neg, s) := sign_of s in
  let '(ip, ni, s) := digits 0 0 s in
  let '(c, nf, s) := match s with String "." s' => digits ip 0 s' | _ => (ip, 0, s) end in
  if ni + nf =? 0 then None
  else
    let value (e : Z) := let y := float_of_dec c (e - nf) in if neg then fneg y else y in
    match s with
    | EmptyString => Some (value 0)
    | String "e" s' | String "E" s' =>
        let '(eneg, s') := sign_of s' in
        let '(x, nx, s') := digits 0 0 s' in
        if (nx =? 0) then None
        else match s' with EmptyString => Some (value (if eneg then - x else x)) | _ => None end
    | _ => None
    end.

(** [int(x)] *)
Definition int_of_float (x : float) : result Z :=
  match x with
  | S754_nan => Raise (ValueError "cannot convert float NaN to integer")
  | S754_infinity _ => Raise (OverflowError "cannot convert float infinity to integer")
  | S754_zero _ => Ok 0
  | S754_finite s m e =>
      let z := if 0 <=? e then Zpos m * 2 ^ e else Z.quot (Zpos m) (2 ^ (- e)) in
      Ok (if s then - z else z)
  end.

Example repr_examples :
  map float_repr [float_lit 1 1; float_of_Z 10000000000000000; float_lit 15 8; float_lit 1 4;
                  float_lit 1 5; round_float (float_lit 2675 3) 2; float_of_Z 7]
  = ["0.1"; "1e+16"; "1.5e-07"; "0.0001"; "1e-05"; "2.67"; "7.0"].
Proof. vm_compute. reflexivity. Qed.
Example parse_examples :
  map parse_float ["0.1"; "-3"; "1e+16"; ""; "1e"; ".5"; "--1"; "12.5e-1"]
  = [Some (float_lit 1 1); Some (float_of_Z (-3)); Some (float_of_Z 10000000000000000); None; None;
     Some (float_lit 5 1); None; Some (float_lit 125 2)].
Proof. vm_compute. reflexivity. Qed.
Example json_example : json_str ("a" +:+ nl +:+ "é") = quoted ("a" +:+ bslash +:+ "n" +:+ bslash +:+ "u00e9").
Proof. vm_compute. reflexivity. Qed.
