(* ===== verification/PyParse.v ===== *)
(** * Reading numbers from text

    [int(s)], [float(s)], [str.split] and [partition] of ASCII text, for what
    the program reads from its environment and from Redis.  [parse_float] of
    [PyText] is the core of [float]; here are the white space, underscores,
    infinities and NaN around it. *)


From S2P Require Import Prelude Decimal RiskContracts Float64 FloatRepr PyText.
From Stdlib Require Import Ascii.

(** ** Digits with single underscores between them *)

Definition is_digit (a : ascii) : bool := (48 <=? code a) && (code a <=? 57).

(** [prev]: the character before was a digit. *)
Fixpoint int_digits (prev : bool) (acc n : Z) (s : string) : option (Z * Z) :=
  match s with
  | EmptyString => if prev then Some (acc, n) else None
  | String a s =>
      if is_digit a then int_digits true (acc * 10 + (code a - 48)) (n + 1) s
      else if Ascii.eqb a "_" && prev then
        match s with String b _ => if is_digit b then int_digits false acc n s else None | EmptyString => None end
      else None
  end.

(** [int(s)]; [None] is [ValueError].  More than 4300 digits are refused. *)
Definition parse_int (s : string) : option Z :=
  let '(neg, s) := sign_of (strip s) in
  match int_digits false 0 0 s with
  | Some (z, n) => if 4300 <? n then None else Some (if neg then - z else z)
  | None => None
  end.

(** Underscores between digits dropped; [None] when one is elsewhere. *)
Fixpoint drop_underscores (prev : bool) (s : string) : option string :=
  match s with
  | EmptyString => Some EmptyString
  | String a s' =>
      if Ascii.eqb a "_" then
        match s' with
        | String b _ => if prev && is_digit b then drop_underscores false s' else None
        | EmptyString => None
        end
      else String a <$> drop_underscores (is_digit a) s'
  end.

(** [float(s)]; [None] is [ValueError]. *)
Definition py_float (s : string) : option float :=
  let s := strip s in
  let '(neg, body) := sign_of s in
  let b := lower body in
  if bool_decide (b = "inf") || bool_decide (b = "infinity") then Some (S754_infinity neg)
  else if bool_decide (b = "nan") then Some S754_nan
  else s' ← drop_underscores false s; parse_float s'.

(** [s.split(c, 1)] into two parts; [None] when [c] does not occur. *)
Fixpoint split1 (c : ascii) (s : string) : option (string * string) :=
  match s with
  | EmptyString => None
  | String a s => if Ascii.eqb a c then Some (EmptyString, s) else prod_map (String a) id <$> split1 c s
  end.

Example parse_int_examples :
  map parse_int ["42"; " -7 "; "1_000"; "1__0"; "_1"; "1_"; ""; "+"; "3.0"; "+0"]
  = [Some 42; Some (-7); Some 1000; None; None; None; None; None; None; Some 0].
Proof. vm_compute. reflexivity. Qed.
Example py_float_examples :
  map py_float [" 60 "; "1_0.5"; "inf"; "-Infinity"; "NaN"; "1_"; "abc"; "0x10"]
  = [Some (float_of_Z 60); Some (float_lit 105 1); Some (S754_infinity false); Some (S754_infinity true);
     Some S754_nan; None; None; None].
Proof. vm_compute. reflexivity. Qed.

(** ** Reading back what [str] wrote *)

Lemma app_cons a s t : String a s +:+ t = String a (s +:+ t).
Proof. reflexivity. Qed.
Lemma app_empty t : "" +:+ t = t.
Proof. reflexivity. Qed.
Lemma string_app_assoc (a b c : string) : (a +:+ b) +:+ c = a +:+ (b +:+ c).
Proof. induction a; [done|]. rewrite !app_cons. by f_equal. Qed.
Lemma string_app_nil (a : string) : a +:+ "" = a.
Proof. induction a; [done|]. rewrite app_cons. by f_equal. Qed.

(** Digits only, at least one. *)
Fixpoint all_digits (s : string) : bool :=
  match s with EmptyString => true | String a s => is_digit a && all_digits s end.

Lemma all_digits_app a b : all_digits (a +:+ b) = all_digits a && all_digits b.
Proof. induction a; [done|]. rewrite app_cons. cbn. by rewrite IHa, andb_assoc. Qed.

Lemma pretty_N_char_digit x : (x < 10)%N → code (pretty_N_char x) = 48 + Z.of_N x ∧ is_digit (pretty_N_char x) = true.
Proof.
  intros Hx.
  assert (x = 0 ∨ x = 1 ∨ x = 2 ∨ x = 3 ∨ x = 4 ∨ x = 5 ∨ x = 6 ∨ x = 7 ∨ x = 8 ∨ x = 9)%N as Hc by lia.
  repeat (destruct Hc as [->|Hc]; [split; vm_compute; reflexivity|]). subst; split; vm_compute; reflexivity.
Qed.

(** The digits of [x], in front of [s]. *)
Lemma pretty_N_go_digits x : (0 < x)%N → ∃ p l, (∀ s, pretty_N_go x s = p +:+ s) ∧ all_digits p = true ∧ p ≠ "" ∧
  0 < l ∧ 10 ^ (l - 1) ≤ Z.of_N x ∧
  ∀ prev acc n s, int_digits prev acc n (p +:+ s) = int_digits true (acc * 10 ^ l + Z.of_N x) (n + l) s.
Proof.
  revert x. apply (well_founded_induction_type N.lt_wf_0 (λ x, (0 < x)%N → _)). intros x IH Hx.
  destruct (pretty_N_char_digit (x `mod` 10)%N) as [Hc Hd]; [by apply N.mod_lt|].
  assert (Z.of_N x = 10 * Z.of_N (x / 10)%N + Z.of_N (x `mod` 10)%N) as Hdm.
  { rewrite (N.div_mod' x 10) at 1. lia. }
  destruct (N.eq_dec (x / 10)%N 0) as [E0|Hne].
  - exists (String (pretty_N_char (x `mod` 10)%N) ""), 1. rewrite E0 in Hdm. split_and!.
    + intros s. rewrite pretty_N_go_step by done. by rewrite E0, pretty_N_go_0.
    + cbn. by rewrite Hd.
    + done.
    + done.
    + change (10 ^ (1 - 1)) with 1. lia.
    + intros prev acc n s. rewrite app_cons, app_empty. cbn. rewrite Hd, Hc. f_equal; lia.
  - destruct (IH (x / 10)%N) as (p & l & Hp & Hall & Hnil & Hl & Hlow & Hrun); [apply N.div_lt; lia|by apply N.neq_0_lt_0|].
    exists (p +:+ String (pretty_N_char (x `mod` 10)%N) ""), (l + 1). split_and!.
    + intros s. rewrite pretty_N_go_step by done. by rewrite Hp, string_app_assoc.
    + rewrite all_digits_app, Hall. cbn. by rewrite Hd.
    + by destruct p.
    + lia.
    + replace (l + 1 - 1) with ((l - 1) + 1) by lia. rewrite Z.pow_add_r by lia. change (10 ^ 1) with 10. pose proof (N2Z.is_nonneg (x `mod` 10)). lia.
    + intros prev acc n s. rewrite string_app_assoc, Hrun, app_cons, app_empty. cbn. rewrite Hd, Hc, Z.pow_add_r by lia. change (10 ^ 1) with 10. f_equal; lia.
Qed.

Lemma pretty_N_digits x : ∃ l, all_digits (pretty x) = true ∧ (pretty x : string) ≠ "" ∧
  (l = 1 ∨ 10 ^ (l - 1) ≤ Z.of_N x) ∧
  ∀ s, int_digits false 0 0 (pretty x +:+ s) = int_digits true (Z.of_N x) l s.
Proof.
  unfold pretty, pretty_N. case_decide as E.
  - subst. exists 1. split_and!; [done|done|by left|]. intros s. reflexivity.
  - destruct (pretty_N_go_digits x ltac:(lia)) as (p & l & Hp & H1 & H2 & _ & H3 & H4). exists l.
    rewrite (Hp ""), string_app_nil. split_and!; [done|done|by right|]. intros s. by rewrite H4.
Qed.

(** A digit is neither white space nor a sign nor a separator. *)
Lemma digit_not_space a : is_digit a = true → is_space a = false.
Proof. unfold is_digit, is_space. intros. bools. repeat rewrite ?andb_false_iff, ?orb_false_iff; lia. Qed.

Lemma lstrip_digit a s : is_space a = false → lstrip (String a s) = String a s.
Proof. intros H. cbn. by rewrite H. Qed.

Lemma strip_ends s :
  (∀ a s', s = String a s' → is_space a = false) →
  (∀ a s', string_rev s = String a s' → is_space a = false) → strip s = s.
Proof.
  intros H1 H2. unfold strip.
  assert (lstrip s = s) as ->. { destruct s as [|a s']; [done|]. by apply lstrip_digit, (H1 a s'). }
  assert (lstrip (string_rev s) = string_rev s) as ->.
  { destruct (string_rev s) as [|a s'] eqn:E; [done|]. by apply lstrip_digit, (H2 a s'). }
  unfold string_rev. by rewrite String.list_ascii_of_string_of_list_ascii, reverse_involutive, String.string_of_list_ascii_of_string.
Qed.

Lemma all_digits_Forall s : all_digits s = true ↔ Forall (λ a, is_digit a = true) (String.list_ascii_of_string s).
Proof. induction s; cbn; [by split; constructor|]. rewrite andb_true_iff, Forall_cons, IHs. done. Qed.

Lemma strip_digits s : all_digits s = true → strip s = s.
Proof.
  intros H%all_digits_Forall. apply strip_ends.
  - intros a s' ->. apply Forall_cons in H as [H _]. by apply digit_not_space.
  - intros a s' E. apply digit_not_space. rewrite Forall_forall in H. apply H, elem_of_reverse.
    unfold string_rev in E. apply (f_equal String.list_ascii_of_string) in E.
    rewrite String.list_ascii_of_string_of_list_ascii in E. rewrite E. cbn. by left.
Qed.

Lemma sign_of_digits s : all_digits s = true → s ≠ "" → sign_of s = (false, s).
Proof.
  destruct s as [|a s]; [done|]. cbn [all_digits]. intros [H _]%andb_true_iff _. unfold sign_of.
  by destruct a as [[] [] [] [] [] [] [] []].
Qed.

Lemma split1_digits c s t : all_digits s = true → is_digit c = false → split1 c (s +:+ String c t) = Some (s, t).
Proof.
  intros H Hc. induction s as [|a s IH].
  - rewrite app_empty. cbn. by rewrite Ascii.eqb_refl.
  - cbn [all_digits] in H. apply andb_true_iff in H as [Ha Hs]. rewrite app_cons. cbn [split1].
    destruct (Ascii.eqb_spec a c) as [->|]; [congruence|]. by rewrite (IH Hs).
Qed.

(** [int(str(z))] *)
(** What [int] accepts as decimal text: below this, at most 4300 digits. *)
Definition int_text_bound : Z := 10 ^ 4300.
#[global] Opaque int_text_bound.

Lemma digits_bounded l x limit : l = 1 ∨ 10 ^ (l - 1) ≤ x → x < 10 ^ limit → 1 ≤ limit → l ≤ limit.
Proof.
  intros [->|Hl] Hx H1; [done|]. destruct (Z.le_gt_cases l limit); [done|].
  pose proof (Z.pow_le_mono_r 10 limit (l - 1)). lia.
Qed.

Lemma pretty_Z_N z : 0 ≤ z → (pretty z : string) = pretty (Z.to_N z).
Proof. intros Hz. destruct z; [done..|lia]. Qed.

Lemma parse_int_pretty z : 0 ≤ z → z < int_text_bound → parse_int (pretty z) = Some z.
Proof.
  intros H0 Hz. rewrite pretty_Z_N by done. destruct (pretty_N_digits (Z.to_N z)) as (l & H1 & H2 & H3 & H4).
  rewrite Z2N.id in H3, H4 by done. unfold parse_int. rewrite strip_digits, sign_of_digits by done.
  rewrite <- (string_app_nil (pretty _)), H4. cbn [int_digits].
  assert (l ≤ 4300) as Hl by (apply (digits_bounded l z 4300 H3 Hz); done).
  by rewrite (proj2 (Z.ltb_ge 4300 l)).
Qed.

Lemma pretty_Z_digits z : 0 ≤ z → all_digits (pretty z) = true.
Proof. intros H0. rewrite pretty_Z_N by done. by destruct (pretty_N_digits (Z.to_N z)) as (l & H1 & _). Qed.
