(* ===== verification/UriShape.v ===== *)
(** * URIs, UTF-8 and Borsh strings of [aats/ingestion/decoders.py]

    [bytes.decode], [urllib.parse] as far as the template fingerprint uses
    them, the fingerprint itself, and the walk through an mpl-token-metadata
    payload.  [isdigit], [isalpha] and [lower] are those of ASCII. *)

From S2P Require Import Prelude Bytes Sha256 Decimal PyText PyParse.
From Stdlib Require Import Ascii.

(** ** UTF-8 *)

Definition cont (b : Z) : bool := (128 <=? b) && (b <? 192).
Definition in_range (lo hi b : Z) : bool := (lo <=? b) && (b <=? hi).

(** Whether the bytes start with a well-formed character, and how many bytes
    that character, or the longest prefix of one, takes. *)
Definition utf8_head (l : bytes) : bool * nat :=
  match l with
  | [] => (false, 1%nat)
  | b :: l =>
      let follow (lo hi : Z) (more : nat) :=
        match l with
        | c1 :: l1 =>
            if negb (in_range lo hi c1) then (false, 1%nat)
            else match more, l1 with
                 | 0%nat, _ => (true, 2%nat)
                 | S _, [] => (false, 2%nat)
                 | S more', c2 :: l2 =>
                     if negb (cont c2) then (false, 2%nat)
                     else match more', l2 with
                          | 0%nat, _ => (true, 3%nat)
                          | S _, [] => (false, 3%nat)
                          | S _, c3 :: _ => if cont c3 then (true, 4%nat) else (false, 3%nat)
                          end
                 end
        | [] => (false, 1%nat)
        end in
      if b <? 128 then (true, 1%nat)
      else if in_range 194 223 b then follow 128 191 0%nat
      else if b =? 224 then follow 160 191 1%nat
      else if b =? 237 then follow 128 159 1%nat
      else if in_range 225 239 b then follow 128 191 1%nat
      else if b =? 240 then follow 144 191 2%nat
      else if in_range 241 243 b then follow 128 191 2%nat
      else if b =? 244 then follow 128 143 2%nat
      else (false, 1%nat)
  end.

Definition string_of_bytes (l : bytes) : string :=
  String.string_of_list_ascii (map (λ b, ascii_of_nat (Z.to_nat b)) l).

(** [decode("utf-8")]; the fuel is the length. *)
Fixpoint utf8_ok (fuel : nat) (l : bytes) : bool :=
  match fuel, l with
  | _, [] => true
  | O, _ => false
  | S fuel, _ => let '(ok, n) := utf8_head l in ok && utf8_ok fuel (drop n l)
  end.
Definition utf8_decode (l : bytes) : option string :=
  if utf8_ok (length l) l then Some (string_of_bytes l) else None.

(** [decode("utf-8", "replace")] *)
Fixpoint utf8_fix (fuel : nat) (l : bytes) : bytes :=
  match fuel, l with
  | _, [] => []
  | O, _ => []
  | S fuel, _ => let '(ok, n) := utf8_head l in (if ok then take n l else [239; 191; 189]) ++ utf8_fix fuel (drop n l)
  end.
Definition utf8_replace (l : bytes) : string := string_of_bytes (utf8_fix (length l) l).

(** ** [urllib.parse] *)

Fixpoint string_filter (p : ascii → bool) (s : string) : string :=
  match s with EmptyString => EmptyString | String a s => if p a then String a (string_filter p s) else string_filter p s end.
Fixpoint string_forallb (p : ascii → bool) (s : string) : bool :=
  match s with EmptyString => true | String a s => p a && string_forallb p s end.

(** The longest prefix that passes [p], and the rest. *)
Fixpoint span (p : ascii → bool) (s : string) : string * string :=
  match s with
  | EmptyString => (EmptyString, EmptyString)
  | String a s' => if p a then let '(u, v) := span p s' in (String a u, v) else (EmptyString, s)
  end.

(** [s.split(c)] *)
Fixpoint split_all (c : ascii) (s : string) : list string :=
  match s with
  | EmptyString => [EmptyString]
  | String a s =>
      if Ascii.eqb a c then EmptyString :: split_all c s
      else match split_all c s with
           | x :: xs => String a x :: xs
           | [] => [String a EmptyString]
           end
  end.

(** [s.rpartition(c)], without the separator; [None] when [c] is absent. *)
Fixpoint rsplit1 (c : ascii) (s : string) : option (string * string) :=
  match s with
  | EmptyString => None
  | String a s =>
      match rsplit1 c s with
      | Some (u, v) => Some (String a u, v)
      | None => if Ascii.eqb a c then Some (EmptyString, s) else None
      end
  end.


Definition is_alpha (a : ascii) : bool := in_range 65 90 (code a) || in_range 97 122 (code a).
Definition scheme_char (a : ascii) : bool :=
  is_alpha a || is_digit a || Ascii.eqb a "+" || Ascii.eqb a "-" || Ascii.eqb a ".".
Definition is_ascii (a : ascii) : bool := code a <? 128.

Definition mem_char (a : ascii) (s : string) : bool := negb (string_forallb (λ b, negb (Ascii.eqb b a)) s).

Module ParseResult.
Record t : Type := mk { scheme : string; netloc : string; path : string; query : string }.
End ParseResult.

Section Urlparse.
(** The tests of a netloc that is bracketed or not ASCII depend on the
    interpreter's release and on Unicode normalisation. *)
Context (netloc_ok : string → bool).

Definition check_netloc (netloc : string) : result unit :=
  let opening := mem_char "[" netloc in
  let closing := mem_char "]" netloc in
  if xorb opening closing then Raise (ValueError "Invalid IPv6 URL")
  else if (opening || negb (string_forallb is_ascii netloc)) && negb (netloc_ok netloc) then Raise (ValueError "netloc")
  else Ok tt.

(** [uses_params], of the schemes that matter below. *)
Definition uses_params (scheme : string) : bool := bool_decide (scheme ∈ [""; "http"; "https"]).

(** [_splitparams]: what comes before the [;] of the last segment. *)
Definition strip_params (path : string) : string :=
  match rsplit1 "/" path with
  | Some (dir, last) => dir +:+ "/" +:+ (span (λ a, negb (Ascii.eqb a ";")) last).1
  | None => (span (λ a, negb (Ascii.eqb a ";")) path).1
  end.

Definition urlparse (url : string) : result ParseResult.t :=
  let url := (span (λ a, code a <=? 32) url).2 in
  let url := string_filter (λ a, negb ((code a =? 9) || (code a =? 10) || (code a =? 13))) url in
  let '(scheme, url) :=
    match split1 ":" url with
    | Some (String a s, rest) =>
        if is_alpha a && string_forallb scheme_char (String a s) then (lower (String a s), rest) else (EmptyString, url)
    | _ => (EmptyString, url)
    end in
  let '(netloc, url) :=
    match starts_with "//" url with
    | Some rest => span (λ a, negb (Ascii.eqb a "/" || Ascii.eqb a "?" || Ascii.eqb a "#")) rest
    | None => (EmptyString, url)
    end in
  _ ← check_netloc netloc;
  let url := (span (λ a, negb (Ascii.eqb a "#")) url).1 in
  let '(url, query) := match split1 "?" url with Some (u, q) => (u, q) | None => (url, EmptyString) end in
  Ok (ParseResult.mk scheme netloc (if uses_params scheme then strip_params url else url) query).

(** *** [parse_qsl], of which only the keys are used *)

Definition hex_value (a : ascii) : option Z :=
  if is_digit a then Some (code a - 48)
  else if in_range 65 70 (code a) then Some (code a - 55)
  else if in_range 97 102 (code a) then Some (code a - 87) else None.

(** [unquote_to_bytes] *)
Fixpoint unquote_bytes (s : string) : bytes :=
  match s with
  | EmptyString => []
  | String a s' =>
      match s' with
      | String x (String y s'') =>
          if Ascii.eqb a "%" then
            match hex_value x, hex_value y with
            | Some h, Some l => 16 * h + l :: unquote_bytes s''
            | _, _ => code a :: unquote_bytes s'
            end
          else code a :: unquote_bytes s'
      | _ => code a :: unquote_bytes s'
      end
  end.
Definition unquote (s : string) : string := if mem_char "%" s then utf8_replace (unquote_bytes s) else s.

Definition query_key (name_value : string) : string :=
  unquote (replace_char "+" " " (span (λ a, negb (Ascii.eqb a "=")) name_value).1).
Definition parse_qsl_keys (query : string) : list string :=
  map query_key (filter (λ s, s ≠ EmptyString) (split_all "&" query)).

(** [sorted({...})]: code points and their UTF-8 bytes sort alike. *)
Fixpoint insert_key (k : string) (l : list string) : list string :=
  match l with
  | [] => [k]
  | x :: xs => match String.compare k x with Lt => k :: l | Eq => l | Gt => x :: insert_key k xs end
  end.
Definition sorted_keys (l : list string) : list string := foldr insert_key [] l.

(** ** The shape of a metadata URI *)

Definition _ALLOWED_METADATA_URI_SCHEMES : list string := ["http"; "https"; "ipfs"; "ar"].

Definition _looks_variable (segment : string) : bool :=
  if bool_decide (segment = "") then false
  else if 16 <=? py_len segment then true
  else
    let has_digit := negb (string_forallb (λ a, negb (is_digit a)) segment) in
    let has_alpha := negb (string_forallb (λ a, negb (is_alpha a)) segment) in
    (8 <=? py_len segment) && has_digit && has_alpha.

Definition _normalize_path_segment (segment : string) : string :=
  let '(stem, ext) := match rsplit1 "." segment with Some (u, v) => (u, v) | None => (segment, EmptyString) end in
  let normalized_stem := if _looks_variable stem then "*" else stem in
  if bool_decide (ext = "") then normalized_stem else normalized_stem +:+ "." +:+ lower ext.

Definition _uri_shape (uri : string) : option string :=
  if bool_decide (uri = "") then None
  else
    match urlparse (strip uri) with
    | Raise _ => None
    | Ok parsed =>
        let scheme := lower (ParseResult.scheme parsed) in
        let netloc := ParseResult.netloc parsed in
        if negb (bool_decide (scheme ∈ _ALLOWED_METADATA_URI_SCHEMES)) then None
        else if bool_decide (netloc = "") then None
        else
          let host_identity :=
            if bool_decide (scheme ∈ ["http"; "https"]) then lower netloc
            else if _looks_variable netloc then "*" else lower netloc in
          let segments := filter (λ s, s ≠ EmptyString) (split_all "/" (ParseResult.path parsed)) in
          let normalized_path := join "/" (map _normalize_path_segment segments) in
          let query_keys := sorted_keys (parse_qsl_keys (ParseResult.query parsed)) in
          let shape := scheme +:+ "://" +:+ host_identity +:+ "/" +:+ normalized_path in
          Some (if bool_decide (query_keys = []) then shape else shape +:+ "?" +:+ join "&" query_keys)
    end.

Definition hash16 (s : string) : string := py_take 16 (hexdigest (sha256 (encode s))).

Definition _deploy_template_fingerprint_from_uri (uri : option string) : option string :=
  match uri with
  | None => None
  | Some uri => hash16 <$> _uri_shape uri
  end.
End Urlparse.

Definition _fingerprint_by_creator_mint (creator mint : string) : string := hash16 (creator +:+ ":" +:+ py_take 8 mint).

(** ** Borsh *)

(** [struct.unpack_from]: little-endian unsigned integers of [n] bytes. *)
Definition unpack_from (n : Z) (data : bytes) (offset : Z) : result Z :=
  if zlen data <? offset + n then Raise (CustomError "struct.error" "unpack_from requires a larger buffer")
  else Ok (int_from_bytes_little (slice data offset (offset + n))).

Definition _read_borsh_string (data : bytes) (offset : Z) : result (option (string * Z)) :=
  if zlen data <? offset + 4 then Ok None
  else
    length ← unpack_from 4 data offset;
    let start := offset + 4 in
    let stop := start + length in
    if (zlen data <? length) || (zlen data <? stop) then Ok None
    else Ok ((λ value, (value, stop)) <$> utf8_decode (slice data start stop)).

Definition _parse_mpl_create_metadata_uri (data : bytes) : result (option string) :=
  if zlen data <? 1 then Ok None
  else
    name ← _read_borsh_string data 1;
    match name with
    | None => Ok None
    | Some (_, offset) =>
        symbol ← _read_borsh_string data offset;
        match symbol with
        | None => Ok None
        | Some (_, offset) =>
            uri ← _read_borsh_string data offset;
            Ok (match uri with
                | None => None
                | Some (uri, _) => if bool_decide (uri = "") then None else Some uri
                end)
        end
    end.

Definition shape_of (uri : string) : option string := _uri_shape (λ _, true) uri.
Example shapes :
  map shape_of
    ["https://ipfs.io/ipfs/QmYwAPJzv5CZsnA625s3Xf2nemtYgPpHdWEz79ojWKPbdG";
     " HTTPS://CF-IPFS.com/ipfs/bafkreia1b2c3d4e5/meta.JSON?b=1&a&b=2 ";
     "ipfs://QmYwAPJzv5CZsnA625s3Xf2/1.json"; "ar://abc"; "ftp://x/y"; "data:application/json,{}"; "https://x.io/v1;p/a2b3c4d5e;q.png#f"]
  = [Some "https://ipfs.io/ipfs/*"; Some "https://cf-ipfs.com/ipfs/*/meta.json?a&b"; Some "ipfs://*/1.json"; Some "ar://abc/";
     None; None; Some "https://x.io/v1;p/*"].
Proof. vm_compute. reflexivity. Qed.

(** ** Strings of plain characters *)

Lemma forallb_app p a b : string_forallb p (a +:+ b) = string_forallb p a && string_forallb p b.
Proof. induction a as [|x a IH]; [done|]. rewrite app_cons. cbn. by rewrite IH, andb_assoc. Qed.

Lemma forallb_impl (p q : ascii → bool) s : (∀ a, p a = true → q a = true) → string_forallb p s = true → string_forallb q s = true.
Proof. intros Hpq. induction s as [|a s IH]; cbn; [done|]. intros [H1 H2]%andb_true_iff. by rewrite Hpq, IH. Qed.

Lemma split1_here c a b : string_forallb (λ x, negb (Ascii.eqb x c)) a = true → split1 c (a +:+ String c b) = Some (a, b).
Proof.
  induction a as [|x a IH]; rewrite ?app_empty, ?app_cons; cbn; [by rewrite Ascii.eqb_refl|].
  intros [H1%negb_true_iff H2]%andb_true_iff. by rewrite H1, IH.
Qed.

Lemma split1_none c s : string_forallb (λ x, negb (Ascii.eqb x c)) s = true → split1 c s = None.
Proof. induction s as [|x s IH]; cbn; [done|]. intros [H1%negb_true_iff H2]%andb_true_iff. by rewrite H1, IH. Qed.

Lemma span_all p s : string_forallb p s = true → span p s = (s, EmptyString).
Proof. induction s as [|x s IH]; cbn; [done|]. intros [H1 H2]%andb_true_iff. by rewrite H1, IH. Qed.

Lemma span_stop p a c b : string_forallb p a = true → p c = false → span p (a +:+ String c b) = (a, String c b).
Proof.
  intros Ha Hc. induction a as [|x a IH]; rewrite ?app_empty, ?app_cons; cbn; [by rewrite Hc|].
  cbn in Ha. apply andb_true_iff in Ha as [H1 H2]. by rewrite H1, IH.
Qed.

Lemma filter_all p s : string_forallb p s = true → string_filter p s = s.
Proof. induction s as [|x s IH]; cbn; [done|]. intros [H1 H2]%andb_true_iff. by rewrite H1, IH. Qed.

Lemma rsplit1_parts c s u v : rsplit1 c s = Some (u, v) → s = u +:+ String c v.
Proof.
  revert u v. induction s as [|x s IH]; intros u v; cbn; [done|]. destruct (rsplit1 c s) as [[u' v']|].
  - intros [= <- <-]. rewrite app_cons. f_equal. by apply IH.
  - destruct (Ascii.eqb_spec x c) as [->|]; [|done]. by intros [= <- <-].
Qed.

Lemma rsplit1_clean c s u v p : rsplit1 c s = Some (u, v) → string_forallb p s = true →
  string_forallb p u = true ∧ string_forallb p v = true.
Proof. intros ->%rsplit1_parts. rewrite forallb_app. cbn. rewrite !andb_true_iff. tauto. Qed.

Lemma strip_params_id s : string_forallb (λ a, negb (Ascii.eqb a ";")) s = true → strip_params s = s.
Proof.
  intros H. unfold strip_params. destruct (rsplit1 "/" s) as [[u v]|] eqn:E; [|by rewrite span_all].
  destruct (rsplit1_clean _ _ _ _ _ E H) as [_ Hv]. rewrite span_all by done. by rewrite (rsplit1_parts _ _ _ _ E).
Qed.

Lemma split_all_none c s : string_forallb (λ x, negb (Ascii.eqb x c)) s = true → split_all c s = [s].
Proof. induction s as [|x s IH]; cbn; [done|]. intros [H1%negb_true_iff H2]%andb_true_iff. by rewrite H1, IH. Qed.

Lemma split_all_cons c a s : string_forallb (λ x, negb (Ascii.eqb x c)) a = true → split_all c (a +:+ String c s) = a :: split_all c s.
Proof.
  induction a as [|x a IH]; rewrite ?app_empty, ?app_cons; cbn; [by rewrite Ascii.eqb_refl|].
  intros [H1%negb_true_iff H2]%andb_true_iff. by rewrite H1, IH.
Qed.

(** [s.split(c)] undoes [c.join]. *)
Lemma split_all_join c l : Forall (λ s, string_forallb (λ x, negb (Ascii.eqb x c)) s = true) l → l ≠ [] →
  split_all c (join (String c EmptyString) l) = l.
Proof.
  induction 1 as [|s l Hs Hl IH]; [done|]. intros _. destruct l as [|s' l]; [by apply split_all_none|].
  change (join (String c "") (s :: s' :: l)) with (s +:+ (String c EmptyString +:+ join (String c "") (s' :: l))).
  rewrite app_cons, app_empty, split_all_cons by done. by rewrite IH.
Qed.

Lemma forallb_join p sep l : string_forallb p sep = true → Forall (λ s, string_forallb p s = true) l →
  string_forallb p (join sep l) = true.
Proof.
  intros Hsep. induction 1 as [|s l Hs Hl IH]; [done|]. destruct l as [|s' l]; [done|].
  change (join sep (s :: s' :: l)) with (s +:+ (sep +:+ join sep (s' :: l))). by rewrite !forallb_app, Hs, Hsep, IH.
Qed.

(** RFC 3986's unreserved characters. *)
Definition plain_char (a : ascii) : bool :=
  is_alpha a || is_digit a || Ascii.eqb a "-" || Ascii.eqb a "." || Ascii.eqb a "_" || Ascii.eqb a "~".
Definition plain (s : string) : bool := string_forallb plain_char s.

Definition all_ascii : list ascii := map ascii_of_nat (seq 0 256).
Lemma ascii_in a : a ∈ all_ascii.
Proof.
  unfold all_ascii. apply list_elem_of_fmap. exists (nat_of_ascii a). split; [by rewrite ascii_nat_embedding|].
  apply list_elem_of_In, in_seq. pose proof (nat_ascii_bounded a). lia.
Qed.

(** A fact of all characters, by computation. *)
Lemma all_chars (p : ascii → bool) : forallb p all_ascii = true → ∀ a, p a = true.
Proof. intros H a. rewrite forallb_forall in H. apply H, list_elem_of_In, ascii_in. Qed.

Lemma plain_chars a : plain_char a = true →
  is_space a = false ∧ (32 <? code a) = true ∧ is_ascii a = true ∧
  forallb (λ c, negb (Ascii.eqb a c)) ["/"; "?"; "#"; ";"; ":"; "["; "]"]%char = true.
Proof.
  intros Ha. pose proof (all_chars (λ a, implb (plain_char a) (negb (is_space a) && (32 <? code a) && is_ascii a &&
    forallb (λ c, negb (Ascii.eqb a c)) ["/"; "?"; "#"; ";"; ":"; "["; "]"]%char)) ltac:(vm_compute; reflexivity) a) as H.
  cbv beta in H. rewrite Ha in H. cbn [implb] in H. rewrite !andb_true_iff in H. destruct H as [[[H1 H2] H3] H4].
  apply negb_true_iff in H1. done.
Qed.

(** A plain string has none of the characters the parser stops at. *)
Lemma plain_avoids c s : c ∈ ["/"; "?"; "#"; ";"; ":"; "["; "]"]%char → plain s = true →
  string_forallb (λ x, negb (Ascii.eqb x c)) s = true.
Proof.
  intros Hc. apply forallb_impl. intros a (_ & _ & _ & H)%plain_chars. rewrite forallb_forall in H. by apply H, list_elem_of_In.
Qed.

(** ** The fingerprint of a template *)

Definition web_url (scheme host : string) (segs : list string) : string :=
  scheme +:+ "://" +:+ host +:+ "/" +:+ join "/" segs.

Record web_parts (scheme host : string) (segs : list string) : Prop := {
  wp_scheme : scheme ∈ ["http"; "https"];
  wp_host : plain host = true ∧ host ≠ "";
  wp_segs : Forall (λ s, plain s = true ∧ s ≠ "") segs ∧ segs ≠ []
}.

Lemma strip_id s : string_forallb (λ a, negb (is_space a)) s = true → strip s = s.
Proof.
  intros H. assert (Forall (λ a, is_space a = false) (String.list_ascii_of_string s)) as Hf.
  { revert H. induction s as [|a s IH]; cbn; [constructor|]. intros [H1%negb_true_iff H2]%andb_true_iff. constructor; [done|auto]. }
  apply strip_ends.
  - intros a s' ->. by apply Forall_cons in Hf as [? _].
  - intros a s' E. rewrite Forall_forall in Hf. apply Hf, elem_of_reverse.
    unfold string_rev in E. apply (f_equal String.list_ascii_of_string) in E.
    rewrite String.list_ascii_of_string_of_list_ascii in E. rewrite E. cbn. by left.
Qed.

Section Template.
Context (netloc_ok : string → bool).

Lemma path_forallb p segs : (∀ a, plain_char a = true → p a = true) → p "/"%char = true →
  Forall (λ s, plain s = true ∧ s ≠ "") segs → string_forallb p (String "/" (join "/" segs)) = true.
Proof.
  intros Hp Hs Hsegs. cbn. rewrite Hs. apply forallb_join; [cbn; by rewrite Hs|].
  eapply Forall_impl; [exact Hsegs|]. intros s [H _]. by apply (forallb_impl plain_char).
Qed.

Lemma plain_not c a : c ∈ ["/"; "?"; "#"; ";"; ":"; "["; "]"]%char → plain_char a = true → negb (Ascii.eqb a c) = true.
Proof. intros Hc (_ & _ & _ & H)%plain_chars. rewrite forallb_forall in H. by apply H, list_elem_of_In. Qed.

Lemma check_plain host : plain host = true → check_netloc netloc_ok host = Ok tt.
Proof.
  intros H. unfold check_netloc, mem_char. rewrite !plain_avoids by (done || set_solver). cbn [negb xorb orb andb].
  assert (string_forallb is_ascii host = true) as -> by (eapply forallb_impl; [|exact H]; intros a Ha; by apply plain_chars). done.
Qed.

Lemma urlparse_web scheme host segs : web_parts scheme host segs →
  urlparse netloc_ok (web_url scheme host segs) = Ok (ParseResult.mk scheme host (String "/" (join "/" segs)) "").
Proof.
  intros [Hs [Hh Hh0] [Hsegs _]]. set (path := String "/" (join "/" segs)).
  assert (web_url scheme host segs = scheme +:+ String ":" ("//" +:+ (host +:+ path))) as ->.
  { unfold web_url, path. by rewrite !app_cons, !app_empty. }
  assert (∀ p, (∀ a, plain_char a = true → p a = true) → p "/"%char = true → string_forallb p (host +:+ path) = true) as Hall.
  { intros p Hp Hsl. rewrite forallb_app. rewrite (forallb_impl plain_char p host Hp Hh). by apply path_forallb. }
  unfold urlparse.
  assert ((span (λ a, code a <=? 32) (scheme +:+ String ":" ("//" +:+ (host +:+ path)))).2
    = scheme +:+ String ":" ("//" +:+ (host +:+ path))) as ->.
  { repeat (apply elem_of_cons in Hs as [->|Hs]; [done|]). by apply elem_of_nil in Hs. }
  rewrite filter_all.
  2:{ rewrite forallb_app. cbn [string_forallb]. rewrite (forallb_app _ "//"). rewrite Hall; [| |done].
      - repeat (apply elem_of_cons in Hs as [->|Hs]; [done|]). by apply elem_of_nil in Hs.
      - intros a (_ & H & _)%plain_chars. apply Z.ltb_lt in H. rewrite !(proj2 (Z.eqb_neq _ _)) by lia. done. }
  assert (split1 ":" (scheme +:+ String ":" ("//" +:+ (host +:+ path))) = Some (scheme, "//" +:+ (host +:+ path))) as ->.
  { apply split1_here. repeat (apply elem_of_cons in Hs as [->|Hs]; [done|]). by apply elem_of_nil in Hs. }
  match goal with |- context [let '(_, _) := ?e in _] => assert (e = (scheme, "//" +:+ (host +:+ path))) as -> end.
  { repeat (apply elem_of_cons in Hs as [->|Hs]; [reflexivity|]). by apply elem_of_nil in Hs. }
  cbv beta iota. rewrite !app_cons, app_empty. cbn [starts_with Ascii.eqb Bool.eqb].
  unfold path at 1. rewrite span_stop; [|eapply forallb_impl; [|exact Hh]; intros a Ha; by rewrite !negb_orb, !plain_not by set_solver|done].
  fold path. rewrite check_plain by done. cbn [mbind result_bind].
  rewrite span_all by (apply path_forallb; [intros a Ha; apply plain_not; set_solver|done|done]). cbn [fst].
  rewrite split1_none by (apply path_forallb; [intros a Ha; apply plain_not; set_solver|done|done]).
  assert (uses_params scheme = true) as -> by (unfold uses_params; apply bool_decide_eq_true; set_solver).
  rewrite strip_params_id by (apply path_forallb; [intros a Ha; apply plain_not; set_solver|done|done]). done.
Qed.
End Template.

Lemma forallb_map (p : ascii → bool) f s : (∀ a, p a = true → p (f a) = true) → string_forallb p s = true → string_forallb p (string_map f s) = true.
Proof. intros Hf. induction s as [|a s IH]; cbn; [done|]. intros [H1 H2]%andb_true_iff. by rewrite Hf, IH. Qed.

Definition no_slash (a : ascii) : bool := negb (Ascii.eqb a "/").

Lemma lower_no_slash s : string_forallb no_slash s = true → string_forallb no_slash (lower s) = true.
Proof.
  apply forallb_map. intros a Ha.
  pose proof (all_chars (λ a, implb (no_slash a) (no_slash (lower_char a))) ltac:(vm_compute; reflexivity) a) as H. cbv beta in H.
  by rewrite Ha in H.
Qed.

Lemma plain_no_slash s : plain s = true → string_forallb no_slash s = true.
Proof. apply forallb_impl. intros a Ha. apply plain_not; [set_solver|done]. Qed.

Lemma normalize_no_slash s : plain s = true → string_forallb no_slash (_normalize_path_segment s) = true.
Proof.
  intros H%plain_no_slash. unfold _normalize_path_segment. destruct (rsplit1 "." s) as [[u v]|] eqn:E.
  - destruct (rsplit1_clean _ _ _ _ _ E H) as [Hu Hv].
    destruct (_looks_variable u), (bool_decide (v = "")); rewrite ?forallb_app, ?Hu, ?lower_no_slash by done; done.
  - cbn. by destruct (_looks_variable s).
Qed.

Definition web_shape (scheme host : string) (segs : list string) : string :=
  scheme +:+ "://" +:+ lower host +:+ "/" +:+ join "/" (map _normalize_path_segment segs).

Lemma uri_shape_web netloc_ok scheme host segs : web_parts scheme host segs →
  _uri_shape netloc_ok (web_url scheme host segs) = Some (web_shape scheme host segs).
Proof.
  intros Hw. pose proof Hw as [Hs [Hh Hh0] [Hsegs Hne]]. unfold _uri_shape.
  rewrite bool_decide_false by (repeat (apply elem_of_cons in Hs as [->|Hs]; [done|]); by apply elem_of_nil in Hs).
  rewrite strip_id.
  2:{ unfold web_url. rewrite !forallb_app, (forallb_impl plain_char _ host); [| |exact Hh].
      - rewrite (forallb_join _ "/" segs); [|done|].
        + repeat (apply elem_of_cons in Hs as [->|Hs]; [done|]). by apply elem_of_nil in Hs.
        + eapply Forall_impl; [exact Hsegs|]. intros s [H _]. eapply forallb_impl; [|exact H]. intros a (-> & _)%plain_chars. done.
      - intros a (-> & _)%plain_chars. done. }
  rewrite (urlparse_web netloc_ok scheme host segs Hw). cbn [ParseResult.scheme ParseResult.netloc ParseResult.path ParseResult.query].
  assert (lower scheme = scheme) as ->.
  { repeat (apply elem_of_cons in Hs as [->|Hs]; [done|]). by apply elem_of_nil in Hs. }
  rewrite (bool_decide_true (scheme ∈ _ALLOWED_METADATA_URI_SCHEMES)) by (unfold _ALLOWED_METADATA_URI_SCHEMES; set_solver).
  rewrite (bool_decide_false (host = "")), (bool_decide_true (scheme ∈ ["http"; "https"])) by done. cbn [negb].
  assert (filter (λ s, s ≠ "") (split_all "/" (String "/" (join "/" segs))) = segs) as ->.
  { cbn [split_all Ascii.eqb Bool.eqb]. rewrite split_all_join; [|eapply Forall_impl; [exact Hsegs|]; intros s [H _]; apply plain_avoids; [set_solver|done]|done].
    rewrite filter_cons_False by tauto. clear -Hsegs. induction Hsegs as [|s l [_ H] _ IH]; [done|]. by rewrite filter_cons_True, IH. }
  done.
Qed.

Lemma web_shape_inj scheme host segs scheme' host' segs' :
  web_parts scheme host segs → web_parts scheme' host' segs' → web_shape scheme host segs = web_shape scheme' host' segs' →
  scheme = scheme' ∧ lower host = lower host' ∧ map _normalize_path_segment segs = map _normalize_path_segment segs'.
Proof.
  assert (∀ s h l, web_parts s h l →
    split1 ":" (web_shape s h l) = Some (s, "//" +:+ (lower h +:+ String "/" (join "/" (map _normalize_path_segment l)))) ∧
    split1 "/" (lower h +:+ String "/" (join "/" (map _normalize_path_segment l))) = Some (lower h, join "/" (map _normalize_path_segment l)) ∧
    split_all "/" (join "/" (map _normalize_path_segment l)) = map _normalize_path_segment l) as Hparts.
  { intros s h l [Hs [Hh _] [Hl Hne]]. split_and!.
    - unfold web_shape. rewrite !app_cons, !app_empty. apply (split1_here ":" s).
      repeat (apply elem_of_cons in Hs as [->|Hs]; [done|]). by apply elem_of_nil in Hs.
    - apply split1_here. by apply lower_no_slash, plain_no_slash.
    - apply split_all_join; [|by destruct l]. apply Forall_map. eapply Forall_impl; [exact Hl|]. intros x [Hx _]. by apply normalize_no_slash. }
  intros W W' E. destruct (Hparts _ _ _ W) as (A1 & A2 & A3), (Hparts _ _ _ W') as (B1 & B2 & B3).
  rewrite E, B1 in A1. apply (inj Some), pair_equal_spec in A1 as [-> A1].
  rewrite !app_cons, !app_empty in A1. injection A1 as A1. rewrite <- A1 in A2. rewrite A2 in B2. injection B2 as Hh Hj.
  rewrite Hj, B3 in A3. done.
Qed.

(** A metadata template keeps its fingerprint from launch to launch.  A web
    URI of plain characters always has a shape; two of them have the same
    shape exactly when scheme, host up to case, and path segments up to the
    per-mint hashes agree, and then they have the same fingerprint; every
    fingerprint is the truncated digest of the shape. *)
Theorem template_fingerprint_invariant netloc_ok scheme host segs scheme' host' segs' :
  web_parts scheme host segs → web_parts scheme' host' segs' →
  let u := web_url scheme host segs in let u' := web_url scheme' host' segs' in
  (_uri_shape netloc_ok u = _uri_shape netloc_ok u' ↔
     scheme = scheme' ∧ lower host = lower host' ∧ map _normalize_path_segment segs = map _normalize_path_segment segs') ∧
  (_uri_shape netloc_ok u = _uri_shape netloc_ok u' →
     _deploy_template_fingerprint_from_uri netloc_ok (Some u) = _deploy_template_fingerprint_from_uri netloc_ok (Some u')) ∧
  (∃ shape, _uri_shape netloc_ok u = Some shape ∧ _deploy_template_fingerprint_from_uri netloc_ok (Some u) = Some (hash16 shape)).
Proof.
  intros W W' u u'. unfold u, u', _deploy_template_fingerprint_from_uri. rewrite !uri_shape_web by done. split_and!.
  - split; [intros [= E]; by apply web_shape_inj|]. unfold web_shape. by intros (-> & -> & ->).
  - by intros [= ->].
  - by eexists.
Qed.

(** A stem that looks variable is collapsed, whatever it is. *)
Lemma variable_segments a b ext : _looks_variable a = true → _looks_variable b = true →
  string_forallb (λ x, negb (Ascii.eqb x ".")) ext = true → ext ≠ "" →
  _normalize_path_segment (a +:+ String "." ext) = _normalize_path_segment (b +:+ String "." ext).
Proof.
  intros Ha Hb He Hne. assert (∀ s, rsplit1 "." (s +:+ String "." ext) = Some (s, ext)) as Hr.
  { assert (rsplit1 "." ext = None) as Hn.
    { clear -He. induction ext as [|x e IH]; cbn in *; [done|]. apply andb_true_iff in He as [H1%negb_true_iff H2]. by rewrite IH, H1. }
    intros s. induction s as [|x s IH]; rewrite ?app_empty, ?app_cons; cbn; [by rewrite Hn|by rewrite IH]. }
  unfold _normalize_path_segment. by rewrite !Hr, Ha, Hb.
Qed.

(** ** Borsh payloads *)

Definition borsh (s : bytes) : bytes := int_to_bytes_little 4 (zlen s) ++ s.

(** Walking a payload never raises. *)
Lemma read_borsh_total data offset : ∃ r, _read_borsh_string data offset = Ok r.
Proof.
  unfold _read_borsh_string, unpack_from. destruct (Z.ltb_spec (zlen data) (offset + 4)); [eauto|].
  cbn [mbind result_bind]. destruct (_ || _); eauto.
Qed.

Lemma read_borsh pre s post : zlen s < 2 ^ 32 →
  _read_borsh_string (pre ++ borsh s ++ post) (zlen pre) = Ok ((λ v, (v, zlen pre + 4 + zlen s)) <$> utf8_decode s).
Proof.
  intros Hs. unfold _read_borsh_string, unpack_from, borsh.
  assert (zlen (int_to_bytes_little 4 (zlen s)) = 4) as H4 by reflexivity.
  assert (0 ≤ zlen s) as Hs0 by (unfold zlen; lia). assert (0 ≤ zlen pre ∧ 0 ≤ zlen post) as [Hp0 Hq0] by (unfold zlen; lia).
  assert (zlen (pre ++ (int_to_bytes_little 4 (zlen s) ++ s) ++ post) = zlen pre + (4 + zlen s) + zlen post) as Hlen.
  { unfold zlen. rewrite !length_app, to_bytes_little_length. lia. }
  rewrite Hlen, (proj2 (Z.ltb_ge _ (zlen pre + 4))) by lia. cbn [mbind result_bind].
  assert (int_from_bytes_little (slice (pre ++ (int_to_bytes_little 4 (zlen s) ++ s) ++ post) (zlen pre) (zlen pre + 4)) = zlen s) as Hlen4.
  { rewrite <- app_assoc, (slice_app pre _ (s ++ post)); [|done|by rewrite H4]. apply to_bytes_little_value. change (256 ^ Z.of_nat 4) with (2 ^ 32). lia. }
  rewrite Hlen4.
  rewrite (proj2 (Z.ltb_ge _ (zlen s))), (proj2 (Z.ltb_ge _ (zlen pre + 4 + zlen s))) by lia. cbn [orb].
  replace (pre ++ (int_to_bytes_little 4 (zlen s) ++ s) ++ post) with ((pre ++ int_to_bytes_little 4 (zlen s)) ++ s ++ post)
    by by rewrite !app_assoc.
  rewrite slice_app; [done|unfold zlen in *; rewrite length_app, to_bytes_little_length; lia|lia].
Qed.

(** The URI that was written is the URI that is read.  A payload made of a
    discriminant byte and the Borsh strings of name, symbol and URI, whatever
    follows, yields the URI when all three are UTF-8 and it is not empty, and
    nothing otherwise; and no payload makes the walk raise. *)
Theorem metadata_uri_round_trip d name symbol uri rest :
  zlen name < 2 ^ 32 → zlen symbol < 2 ^ 32 → zlen uri < 2 ^ 32 →
  _parse_mpl_create_metadata_uri (d :: borsh name ++ borsh symbol ++ borsh uri ++ rest) =
    Ok (match utf8_decode name, utf8_decode symbol, utf8_decode uri with
        | Some _, Some _, Some u => if bool_decide (u = "") then None else Some u
        | _, _, _ => None
        end) ∧
  ∀ data, ∃ r, _parse_mpl_create_metadata_uri data = Ok r.
Proof.
  intros Hn Hs Hu. split.
  - unfold _parse_mpl_create_metadata_uri. rewrite (proj2 (Z.ltb_ge _ 1)) by (unfold zlen; cbn; lia).
    pose proof (read_borsh [d] name (borsh symbol ++ borsh uri ++ rest) Hn) as R1. cbn [app] in R1. change (zlen [d]) with 1 in R1.
    rewrite R1. cbn [mbind result_bind]. destruct (utf8_decode name) as [n|]; [|done]. cbn [fmap option_fmap option_map].
    pose proof (read_borsh (d :: borsh name) symbol (borsh uri ++ rest) Hs) as R2.
    assert (zlen (d :: borsh name) = 1 + 4 + zlen name) as Hl1 by (unfold borsh, zlen; cbn [length]; rewrite length_app, to_bytes_little_length; lia).
    rewrite Hl1 in R2. cbn [app] in R2. rewrite R2. cbn [mbind result_bind]. destruct (utf8_decode symbol) as [y|]; [|done].
    cbn [fmap option_fmap option_map]. pose proof (read_borsh (d :: borsh name ++ borsh symbol) uri rest Hu) as R3.
    assert (zlen (d :: borsh name ++ borsh symbol) = 1 + 4 + zlen name + 4 + zlen symbol) as Hl2.
    { unfold borsh, zlen; cbn [length]. rewrite !length_app, !to_bytes_little_length. lia. }
    rewrite Hl2 in R3. cbn [app] in R3. rewrite <- !app_assoc in R3. rewrite R3. cbn [mbind result_bind]. by destruct (utf8_decode uri).
  - intros data. unfold _parse_mpl_create_metadata_uri. destruct (zlen data <? 1); [eauto|].
    destruct (read_borsh_total data 1) as [[[? o]|] ->]; cbn [mbind result_bind]; [|eauto].
    destruct (read_borsh_total data o) as [[[? o']|] ->]; cbn [mbind result_bind]; [|eauto].
    destruct (read_borsh_total data o') as [[[? ?]|] ->]; cbn [mbind result_bind]; eauto.
Qed.

(** *** Witnesses: two launches of one template *)

Definition host1 : string := "CF-ipfs.com".
Definition cid (s : string) : list string := ["ipfs"; s +:+ ".json"].

Lemma cid_parts s : plain s = true → web_parts "https" host1 (cid s).
Proof.
  intros H. split; [set_solver|done|]. split; [|done]. repeat constructor; try done.
  - unfold plain in *. by rewrite forallb_app, H.
  - by destruct s.
Qed.

Lemma template_fingerprint_witness :
  _deploy_template_fingerprint_from_uri (λ _, true) (Some (web_url "https" host1 (cid "QmYwAPJzv5CZsnA625s3Xf2")))
  = _deploy_template_fingerprint_from_uri (λ _, true) (Some (web_url "https" "cf-ipfs.com" (cid "bafkreia1b2c3d4e5f6"))).
Proof.
  destruct (template_fingerprint_invariant (λ _, true) "https" host1 (cid "QmYwAPJzv5CZsnA625s3Xf2") "https" "cf-ipfs.com" (cid "bafkreia1b2c3d4e5f6"))
    as (H1 & H2 & _); [by apply cid_parts| |].
  - destruct (cid_parts "bafkreia1b2c3d4e5f6" eq_refl). split; [done|done|done].
  - apply H2, H1. split_and!; vm_compute; reflexivity.
Defined.

Lemma metadata_uri_witness :
  _parse_mpl_create_metadata_uri (33 :: borsh (encode "N") ++ borsh (encode "S") ++ borsh (encode "ar://x") ++ [1; 2]) = Ok (Some "ar://x").
Proof. exact (proj1 (metadata_uri_round_trip 33 (encode "N") (encode "S") (encode "ar://x") [1; 2] eq_refl eq_refl eq_refl)). Defined.
