(* ===== verification/Clamp.v ===== *)
(** * The asymmetric-trust clamp and the conflict matrix

    [aats/reasoning/schema.py], [clamp.py] and [matrix.py]: the raw verdict an
    LLM must produce, the buckets of the decision state, the clamp and the
    matrix, and what the two together apply: the join, in the order of
    de-risk strength, of what the LLM, the quant bucket and the sentiment
    bucket each demand. *)

From S2P Require Import Prelude Decimal RiskContracts Float64 FloatRepr PyText.
From Stdlib Require Import Ascii.

(** ** [ReasoningAction] ([contracts/models.py]) *)

Module ReasoningAction.
Inductive t : Type := HOLD | VETO_ENTRY | REDUCE_SIZE | FORCE_EXIT.
#[global] Instance t_eq_dec : EqDecision t.
Proof. solve_decision. Defined.
Definition value (a : t) : string :=
  match a with
  | HOLD => "HOLD" | VETO_ENTRY => "VETO_ENTRY" | REDUCE_SIZE => "REDUCE_SIZE" | FORCE_EXIT => "FORCE_EXIT"
  end.
Definition members : list t := [HOLD; VETO_ENTRY; REDUCE_SIZE; FORCE_EXIT].
Definition _RISK_INCREASE_FORBIDDEN_NAMES : list string :=
  ["SIZE_UP"; "WIDEN_STOP"; "ADD_LEVERAGE"; "OVERRIDE_HARD_STOP"].
(** The import-time check: it must be empty. *)
Definition _ILLEGAL : list string :=
  filter (λ n, n ∈ _RISK_INCREASE_FORBIDDEN_NAMES) (map value members).
End ReasoningAction.
Import ReasoningAction.

(** ** [schema.py] *)

Module DecisionSignalLabel.
Inductive t : Type := STRONG_BUY | WEAK_BUY | HOLD | SELL | STRONG_SELL.
#[global] Instance t_eq_dec : EqDecision t.
Proof. solve_decision. Defined.
Definition value (l : t) : string :=
  match l with
  | STRONG_BUY => "Strong Buy" | WEAK_BUY => "Weak Buy" | HOLD => "Hold" | SELL => "Sell"
  | STRONG_SELL => "Strong Sell"
  end.
End DecisionSignalLabel.
Abbreviation label := DecisionSignalLabel.t.

Definition signal_risk_rank (l : label) : Z :=
  match l with
  | DecisionSignalLabel.STRONG_SELL => 0
  | DecisionSignalLabel.SELL => 1
  | DecisionSignalLabel.HOLD => 2
  | DecisionSignalLabel.WEAK_BUY => 3
  | DecisionSignalLabel.STRONG_BUY => 4
  end.

Definition MAX_RATIONALE : Z := 2000.

Module LLMRawVerdict.
Record t : Type := mk {
  decision_signal : label;
  confidence : float;
  veto : bool;
  narrative_failure : bool;
  rationale : string
}.
Definition _confidence_in_unit_interval (v : float) : result float :=
  if negb (fleb fzero v && fleb v fone) then Raise (ValueError "confidence must be in [0, 1]") else Ok v.
Definition _rationale_bounded (v : string) : string :=
  if MAX_RATIONALE <? py_len v then py_take MAX_RATIONALE v else v.
Definition new (s : label) (c : float) (v n : bool) (r : string) : result t :=
  c ← _confidence_in_unit_interval c;
  Ok (mk s c v n (_rationale_bounded r)).
Lemma new_veto s c v n r w : new s c v n r = Ok w → veto w = v.
Proof.
  unfold new, _confidence_in_unit_interval. destruct (negb _); cbn; [done|]. by intros [= <-].
Qed.
(** What validation guarantees of a verdict. *)
Definition validated (v : t) : Prop := ∃ s c b n r, new s c b n r = Ok v.
End LLMRawVerdict.

Inductive QuantBucket : Type := BEARISH | NEUTRAL | BULLISH.
#[global] Instance QuantBucket_eq_dec : EqDecision QuantBucket.
Proof. solve_decision. Defined.
Definition quant_value (q : QuantBucket) : string :=
  match q with BEARISH => "BEARISH" | NEUTRAL => "NEUTRAL" | BULLISH => "BULLISH" end.

Inductive SentimentRisk : Type := BENIGN | ELEVATED | MANUFACTURED.
#[global] Instance SentimentRisk_eq_dec : EqDecision SentimentRisk.
Proof. solve_decision. Defined.
Definition sentiment_value (s : SentimentRisk) : string :=
  match s with BENIGN => "BENIGN" | ELEVATED => "ELEVATED" | MANUFACTURED => "MANUFACTURED" end.

Definition QUANT_BULLISH_P : float := float_lit 62 2.
Definition QUANT_BEARISH_P : float := float_lit 45 2.
Definition UNCERTAINTY_DERISK_BAND : float := float_lit 35 2.

Definition bucket_quant (p_calibrated uncertainty : float) : result QuantBucket :=
  if negb (fleb fzero p_calibrated && fleb p_calibrated fone)
  then Raise (ValueError "p_calibrated must be in [0, 1]")
  else if negb (fleb fzero uncertainty && fleb uncertainty fone)
  then Raise (ValueError "uncertainty must be in [0, 1]")
  else if fleb QUANT_BULLISH_P p_calibrated && fleb uncertainty UNCERTAINTY_DERISK_BAND then Ok BULLISH
  else if fleb QUANT_BULLISH_P p_calibrated then Ok NEUTRAL
  else if fltb p_calibrated QUANT_BEARISH_P then Ok BEARISH
  else Ok NEUTRAL.

Definition MCS_BENIGN_CONVICTION : float := float_lit 55 2.
Definition MCS_HIGH_SYNCHRONICITY : float := float_lit 70 2.
Definition MCS_YOUNG_ACCOUNTS_DAYS : float := float_lit 140 1.

Definition bucket_sentiment (conviction synchronicity account_age_median_days : float)
    (coordinated_shill_flag : bool) : SentimentRisk :=
  let high := fleb MCS_HIGH_SYNCHRONICITY synchronicity in
  let young := fleb account_age_median_days MCS_YOUNG_ACCOUNTS_DAYS in
  if coordinated_shill_flag then MANUFACTURED
  else if high && young then MANUFACTURED
  else if high || young || fltb conviction MCS_BENIGN_CONVICTION then ELEVATED
  else BENIGN.

(** ** [clamp.py] *)

Definition _RISK_INCREASE_TOKENS : list string :=
  ["SIZE_UP"; "BUY"; "STRONG_BUY"; "INCREASE"; "INCREASE_SIZE"; "ADD"; "ADD_SIZE"; "WIDEN_STOP";
   "MOVE_STOP"; "ADD_LEVERAGE"; "LEVERAGE"; "OVERRIDE_HARD_STOP"; "OVERRIDE_STOP"; "DISABLE_STOP";
   "SCALE_IN"; "MARTINGALE"].

Module ClampResult.
Record t : Type := mk {
  action : ReasoningAction.t; risk_increase_clamped : bool; action_received_raw : string
}.
End ClampResult.

Definition classify_raw_is_risk_increase (action_received_raw : string) : bool :=
  let token := replace_char "-" "_" (replace_char " " "_" (upper (strip action_received_raw))) in
  bool_decide (token ∈ _RISK_INCREASE_TOKENS).

Definition quant_to_action_ceiling (quant : QuantBucket) : ReasoningAction.t :=
  match quant with BEARISH => VETO_ENTRY | _ => HOLD end.

(** [_DERISK_STRENGTH], looked up by [derisk_strength]. *)
Definition derisk_strength (a : ReasoningAction.t) : Z :=
  match a with HOLD => 0 | VETO_ENTRY => 1 | REDUCE_SIZE => 2 | FORCE_EXIT => 3 end.

Definition _llm_requested_derisk (signal : label) (veto narrative_failure position_is_open : bool)
    : ReasoningAction.t :=
  if narrative_failure then if position_is_open then FORCE_EXIT else VETO_ENTRY
  else if veto then if position_is_open then REDUCE_SIZE else VETO_ENTRY
  else match signal with
       | DecisionSignalLabel.STRONG_SELL | DecisionSignalLabel.SELL =>
           if position_is_open then FORCE_EXIT else VETO_ENTRY
       | _ => HOLD
       end.

Definition clamp_to_derisk_action (quant : QuantBucket) (signal : label) (veto narrative_failure : bool)
    (action_received_raw : string) (position_is_open : bool) : ClampResult.t :=
  let raw_is_risk_increase := classify_raw_is_risk_increase action_received_raw in
  let requested := _llm_requested_derisk signal veto narrative_failure position_is_open in
  let ceiling := quant_to_action_ceiling quant in
  let applied := if derisk_strength ceiling <=? derisk_strength requested then requested else ceiling in
  ClampResult.mk applied raw_is_risk_increase action_received_raw.

(** ** [matrix.py] *)

Module MatrixDecision.
Record t : Type := mk { floor_action : ReasoningAction.t; cell : string; is_conflict : bool }.
End MatrixDecision.

Definition in_BULLISH_OR_HOLD (s : label) : bool :=
  match s with
  | DecisionSignalLabel.HOLD | DecisionSignalLabel.WEAK_BUY | DecisionSignalLabel.STRONG_BUY => true
  | _ => false
  end.

Definition _llm_is_bearish_or_veto (signal : label) (veto : bool) : bool :=
  veto || match signal with
          | DecisionSignalLabel.SELL | DecisionSignalLabel.STRONG_SELL => true | _ => false end.

Definition evaluate_matrix (quant : QuantBucket) (signal : label) (veto narrative_failure : bool)
    (sentiment : SentimentRisk) (position_is_open : bool) : MatrixDecision.t :=
  let llm_derisk := _llm_is_bearish_or_veto signal veto in
  let q := quant_value quant in
  let s := DecisionSignalLabel.value signal in
  let m := sentiment_value sentiment in
  let floor := if position_is_open then REDUCE_SIZE else VETO_ENTRY in
  if narrative_failure then
    if position_is_open
    then MatrixDecision.mk FORCE_EXIT (q +:+ "×narrative_failure×" +:+ m +:+ "[open]") true
    else MatrixDecision.mk VETO_ENTRY (q +:+ "×narrative_failure×" +:+ m) true
  else if bool_decide (quant = BEARISH) then
    MatrixDecision.mk floor ("BEARISH×" +:+ s +:+ "×" +:+ m)
      (in_BULLISH_OR_HOLD signal && negb llm_derisk
       && (signal_risk_rank DecisionSignalLabel.HOLD <? signal_risk_rank signal))
  else if bool_decide (sentiment = MANUFACTURED) then
    MatrixDecision.mk floor (q +:+ "×" +:+ s +:+ "×MANUFACTURED")
      (bool_decide (quant = BULLISH) || in_BULLISH_OR_HOLD signal)
  else if llm_derisk then
    MatrixDecision.mk floor (q +:+ "×llm_derisk×" +:+ m) (bool_decide (quant = BULLISH))
  else MatrixDecision.mk HOLD (q +:+ "×" +:+ s +:+ "×" +:+ m +:+ "[agreement]") false.

Definition combine_clamp_and_matrix (clamp_action matrix_floor : ReasoningAction.t) : ReasoningAction.t :=
  if derisk_strength matrix_floor <=? derisk_strength clamp_action then clamp_action else matrix_floor.

(** ** What is applied: a join of demands

    The specification the two tables are held against: each party demands an
    action, and the strongest demand is applied. *)

Definition applied_action (q : QuantBucket) (s : label) (veto nf : bool) (m : SentimentRisk) (open : bool)
    : ReasoningAction.t :=
  combine_clamp_and_matrix
    (ClampResult.action (clamp_to_derisk_action q s veto nf (DecisionSignalLabel.value s) open))
    (MatrixDecision.floor_action (evaluate_matrix q s veto nf m open)).

(** No entry, or half of the position off. *)
Definition caution (open : bool) : ReasoningAction.t := if open then REDUCE_SIZE else VETO_ENTRY.
Definition alarm (open : bool) : ReasoningAction.t := if open then FORCE_EXIT else VETO_ENTRY.

Definition bearish (s : label) : bool :=
  match s with DecisionSignalLabel.SELL | DecisionSignalLabel.STRONG_SELL => true | _ => false end.

Definition llm_demand (s : label) (veto nf open : bool) : ReasoningAction.t :=
  if nf then alarm open else if veto then caution open else if bearish s then alarm open else HOLD.
Definition quant_demand (q : QuantBucket) (open : bool) : ReasoningAction.t :=
  if bool_decide (q = BEARISH) then caution open else HOLD.
Definition sentiment_demand (m : SentimentRisk) (open : bool) : ReasoningAction.t :=
  if bool_decide (m = MANUFACTURED) then caution open else HOLD.

Definition stronger (a b : ReasoningAction.t) : Prop := derisk_strength b ≤ derisk_strength a.
#[export] Instance stronger_pre : PreOrder stronger.
Proof. split; [intros a; unfold stronger; lia | intros a b c; unfold stronger; lia]. Qed.

Definition act_join (a b : ReasoningAction.t) : ReasoningAction.t :=
  if derisk_strength b <=? derisk_strength a then a else b.

Lemma strength_inj a b : derisk_strength a = derisk_strength b → a = b.
Proof. by destruct a, b. Qed.

Lemma act_join_lub a b c : stronger c (act_join a b) ↔ stronger c a ∧ stronger c b.
Proof. by destruct a, b, c; unfold stronger; simpl; split; intros; lia. Qed.

Lemma join_stronger_l a b : stronger (act_join a b) a.
Proof. by apply (act_join_lub a b (act_join a b)). Qed.
Lemma join_stronger_r a b : stronger (act_join a b) b.
Proof. by apply (act_join_lub a b (act_join a b)). Qed.

Lemma applied_join q s veto nf m open :
  applied_action q s veto nf m open
  = act_join (llm_demand s veto nf open) (act_join (quant_demand q open) (sentiment_demand m open)).
Proof. by destruct q, s, veto, nf, m, open. Qed.

Lemma veto_never_holds q s veto nf m open : veto = true → applied_action q s veto nf m open ≠ HOLD.
Proof. intros ->. by destruct q, s, nf, m, open. Qed.

(** Setting the veto, and the narrative bit of an open position, on top of any
    opinion is never weaker than the opinion. *)
Lemma news_stronger q s veto nf m open :
  stronger (applied_action q s true (nf || open) m open) (applied_action q s veto nf m open).
Proof. by destruct q, s, veto, nf, m, open. Qed.

Lemma news_forces q s nf m open :
  applied_action q s true (nf || open) m open = if open then FORCE_EXIT else VETO_ENTRY.
Proof. by destruct q, s, nf, m, open. Qed.

(** A bucket change towards danger: the quant reads less bullish, the
    sentiment more manufactured. *)
Definition quant_le (q q' : QuantBucket) : bool :=
  match q, q' with BEARISH, _ => true | NEUTRAL, (NEUTRAL | BULLISH) => true | BULLISH, BULLISH => true
  | _, _ => false end.
Definition risk_le (m m' : SentimentRisk) : bool :=
  match m, m' with BENIGN, _ => true | ELEVATED, (ELEVATED | MANUFACTURED) => true
  | MANUFACTURED, MANUFACTURED => true | _, _ => false end.

(** C26: What the reasoner applies, the combination of clamp and matrix, is
    exactly the strongest of three separate demands: the LLM's (exit on a dead
    narrative or a bare sell opinion, caution on a veto), the quant's (caution
    when bearish) and the sentiment's (caution when manufactured), for every
    bucket, signal and flag.  So it is never weaker than any of them, a
    bullish LLM opinion is worth exactly as much as "Hold", no worsening of
    the quant or sentiment bucket ever weakens it, and nothing but a hold
    leaves a pending entry alone. *)
Theorem applied_is_join_of_demands :
  (∀ q s veto nf m open,
     applied_action q s veto nf m open
     = act_join (llm_demand s veto nf open) (act_join (quant_demand q open) (sentiment_demand m open))) ∧
  (∀ q veto nf m open s, in_BULLISH_OR_HOLD s = true →
     applied_action q s veto nf m open = applied_action q DecisionSignalLabel.HOLD veto nf m open) ∧
  (∀ q q' m m' s veto nf open, quant_le q q' = true → risk_le m' m = true →
     stronger (applied_action q s veto nf m open) (applied_action q' s veto nf m' open)) ∧
  (∀ q s veto nf m open, applied_action q s veto nf m open = HOLD ↔
     nf = false ∧ veto = false ∧ bearish s = false ∧ q ≠ BEARISH ∧ m ≠ MANUFACTURED).
Proof.
  split_and!.
  - exact applied_join.
  - intros q veto nf m open s Hs. by destruct s, q, veto, nf, m, open.
  - intros q q' m m' s veto nf open Hq Hm. rewrite !applied_join, !act_join_lub. split_and!.
    + apply join_stronger_l.
    + etrans; [apply join_stronger_r|]. etrans; [apply join_stronger_l|].
      by destruct q, q', open.
    + etrans; [apply join_stronger_r|]. etrans; [apply join_stronger_r|].
      by destruct m, m', open.
  - by intros [] [] [] [] [] []; vm_compute; intuition congruence.
Qed.

Lemma applied_is_join_witness :
  quant_le NEUTRAL BULLISH = true ∧ risk_le ELEVATED MANUFACTURED = true ∧
  stronger (applied_action NEUTRAL DecisionSignalLabel.STRONG_BUY false false MANUFACTURED true)
    (applied_action BULLISH DecisionSignalLabel.STRONG_BUY false false ELEVATED true) ∧
  applied_action BULLISH DecisionSignalLabel.STRONG_BUY true false BENIGN false
  = applied_action BULLISH DecisionSignalLabel.HOLD true false BENIGN false.
Proof.
  split_and!; [done|done| |].
  - by apply applied_is_join_of_demands.
  - by apply applied_is_join_of_demands.
Defined.

(** The clamp is not monotone in the veto bit: on an open position an
    explicit veto added to a sell opinion weakens the applied action from a
    full exit to a half reduction (unless the narrative is dead too), although
    the bit is documented as one that can only add de-risk.  The router's
    fallback verdict, called the most conservative one, is such a verdict.
    And the audit flag is raised for a raw "Strong Buy" only: a "Weak Buy" is
    clamped without being recorded as a clamped risk increase. *)
Theorem veto_weakens_a_sell :
  (∀ q s m, bearish s = true →
     applied_action q s false false m true = FORCE_EXIT ∧
     applied_action q s true false m true = REDUCE_SIZE) ∧
  (∀ q s v nf open,
     ClampResult.risk_increase_clamped
       (clamp_to_derisk_action q s v nf (DecisionSignalLabel.value s) open)
     = bool_decide (s = DecisionSignalLabel.STRONG_BUY)).
Proof.
  split.
  - intros q s m Hs. by destruct q, s, m.
  - intros q s v nf open. by destruct s; vm_compute.
Qed.

Lemma veto_weakens_witness :
  bearish DecisionSignalLabel.SELL = true ∧
  applied_action NEUTRAL DecisionSignalLabel.SELL false false BENIGN true = FORCE_EXIT ∧
  applied_action NEUTRAL DecisionSignalLabel.SELL true false BENIGN true = REDUCE_SIZE.
Proof. split; [done|]. by apply veto_weakens_a_sell. Defined.

Example no_illegal_action : ReasoningAction._ILLEGAL = [].
Proof. by vm_compute. Qed.
Example tokens : classify_raw_is_risk_increase "  size-up " = true ∧ classify_raw_is_risk_increase "Weak Buy" = false.
Proof. by vm_compute. Qed.
