(* ===== verification/Reasoner.v ===== *)
(** * The de-risk reasoner and its router

    [aats/reasoning/router.py] and [reasoner.py].  A backend is an LLM behind a
    protocol: its n-th answer to a prompt is a parameter (a validated verdict,
    or a raise), as are the readings of [time.perf_counter].  The mock backend,
    the default, is modelled from its source. *)

From S2P Require Import Prelude Decimal RiskContracts Float64 FloatRepr Bytes Sha256 PyText Intents Clamp Prompt.
From Stdlib Require Import Ascii.
Import ReasoningAction.

(** ** [router.py]: tiers, backends, the mock *)

Inductive RouteTier : Type := CACHE | LOCAL | FRONTIER | FAST_PATH | FALLBACK.
#[global] Instance RouteTier_eq_dec : EqDecision RouteTier.
Proof. solve_decision. Defined.
Definition tier_value (t : RouteTier) : string :=
  match t with
  | CACHE => "CACHE" | LOCAL => "LOCAL" | FRONTIER => "FRONTIER" | FAST_PATH => "FAST_PATH" | FALLBACK => "FALLBACK"
  end.

(** [ReasonerBackend]: [reason n system user temperature] is its answer to the
    call it gets after [n] others. *)
Record ReasonerBackend : Type := mk_backend {
  reason : nat → string → string → float → result LLMRawVerdict.t;
  backend_id : string
}.

Definition is_numeral_char (a : ascii) : bool :=
  bool_decide (a ∈ String.list_ascii_of_string "-+.0123456789eE").
Fixpoint numeral (s : string) : string :=
  match s with
  | String a s => if is_numeral_char a then String a (numeral s) else EmptyString
  | EmptyString => EmptyString
  end.

Definition _extract_float (prompt key : string) : option float :=
  let needle := quoted key +:+ ":" in
  match after_first needle prompt with
  | None => None
  | Some rest => parse_float (numeral (lstrip rest))
  end.
Definition _extract_int (prompt key : string) : result (option Z) :=
  match _extract_float prompt key with
  | Some v => z ← int_of_float v; Ok (Some z)
  | None => Ok None
  end.

Definition opt_float (p : float → bool) (x : option float) : bool :=
  match x with Some x => p x | None => false end.

(** [MockReasonerBackend.reason] without a forced verdict. *)
Definition mock_reason (user_prompt : string) : result LLMRawVerdict.t :=
  let p := _extract_float user_prompt "p_calibrated" in
  let unc := _extract_float user_prompt "uncertainty" in
  let conviction := _extract_float user_prompt "conviction" in
  let shill := contains (quoted "coordinated_shill_flag" +:+ ": true") user_prompt in
  net_edge ← _extract_int user_prompt "net_edge_bps_after_costs";
  let '(veto, signal, confidence) :=
    if shill then (true, DecisionSignalLabel.SELL, float_lit 85 2)
    else (false, DecisionSignalLabel.HOLD, float_lit 6 1) in
  let '(veto, confidence) :=
    if match net_edge with Some e => e <=? 0 | None => false end
    then (true, fmax confidence (float_lit 75 2)) else (veto, confidence) in
  let '(signal, confidence) :=
    if opt_float (fleb (float_lit 5 1)) unc
    then (DecisionSignalLabel.HOLD, fmax confidence (float_lit 65 2)) else (signal, confidence) in
  let '(narrative_failure, signal, confidence) :=
    if opt_float (λ c, fltb c (float_lit 15 2)) conviction && opt_float (λ p, fltb p (float_lit 4 1)) p
    then (true, DecisionSignalLabel.STRONG_SELL, float_lit 9 1) else (false, signal, confidence) in
  LLMRawVerdict.new signal confidence veto narrative_failure
    "[mock-reasoner] derived from SAFE digest only; untrusted narrative ignored".

Definition MockReasonerBackend (force : option LLMRawVerdict.t) : ReasonerBackend :=
  mk_backend (λ _ _ user _, match force with Some v => Ok v | None => mock_reason user end) "mock-reasoner-v0".

(** ** The signal-bucket cache *)

Module SignalBucketKey.
Record t : Type := mk {
  quant : QuantBucket; sentiment : SentimentRisk; position_is_open : bool; net_edge_sign : Z
}.
#[global] Instance t_eq_dec : EqDecision t.
Proof. solve_decision. Defined.
Definition canon (k : t) : string :=
  "{" +:+ quoted "net_edge_sign" +:+ ": " +:+ pretty (net_edge_sign k) +:+ ", "
      +:+ quoted "position_is_open" +:+ ": " +:+ json_bool (position_is_open k) +:+ ", "
      +:+ quoted "quant" +:+ ": " +:+ quoted (quant_value (quant k)) +:+ ", "
      +:+ quoted "sentiment" +:+ ": " +:+ quoted (sentiment_value (sentiment k)) +:+ "}".
Definition digest (k : t) : string := hexdigest (sha256 (encode (canon k))).
End SignalBucketKey.

Definition conservative_fallback_verdict (reason : string) : result LLMRawVerdict.t :=
  LLMRawVerdict.new DecisionSignalLabel.SELL fone true false ("[fallback] conservative de-risk: " +:+ reason).

Module RoutedVerdict.
Record t : Type := mk {
  raw : LLMRawVerdict.t; tier : RouteTier; backend_id : string; cache_hit : bool; elapsed_ms : float;
  timed_out : bool
}.
End RoutedVerdict.

(** What [LLMRouter.__init__] fixes, with the clock of the process. *)
Record LLMRouter : Type := mk_router {
  _local : ReasonerBackend;
  _frontier : option ReasonerBackend;
  _budget_ms : float;
  _max_retries : Z;
  _temperature : float;
  perf_counter : nat → float
}.
Definition default_router (clock : nat → float) : LLMRouter :=
  mk_router (MockReasonerBackend None) None (float_of_Z 200) 1 fzero clock.

(** What changes: the cache, how often each backend was called and how often
    the clock was read. *)
Record RouterState : Type := mk_state {
  _cache : gmap string LLMRawVerdict.t; local_calls : nat; frontier_calls : nat; ticks : nat
}.
Definition fresh : RouterState := mk_state ∅ 0 0 0.

Section Router.
Context (self : LLMRouter).

Definition now : M RouterState float := λ s,
  (Ok (perf_counter self (ticks s)), mk_state (_cache s) (local_calls s) (frontier_calls s) (S (ticks s))).

(** [(perf_counter() - t0) * 1000.0] *)
Definition elapsed_since (t0 : float) : M RouterState float :=
  t ← now; mret (fmul (fsub t t0) (float_of_Z 1000)).

Definition cache_lookup (key : SignalBucketKey.t) : M RouterState (option LLMRawVerdict.t) :=
  gets (λ s, _cache s !! SignalBucketKey.digest key).
Definition cache_store (key : SignalBucketKey.t) (v : LLMRawVerdict.t) : M RouterState unit :=
  modify (λ s, mk_state (<[SignalBucketKey.digest key := v]> (_cache s)) (local_calls s) (frontier_calls s) (ticks s)).

Definition should_escalate (key : SignalBucketKey.t) : bool :=
  bool_decide (SignalBucketKey.quant key = NEUTRAL)
  && bool_decide (SignalBucketKey.sentiment key = ELEVATED)
  && (SignalBucketKey.net_edge_sign key =? 0).

(** One call of a backend: the local one, or the frontier [b]. *)
Definition call (front : option ReasonerBackend) (sys user : string) : M RouterState (result LLMRawVerdict.t) :=
  λ s, match front with
       | Some b => (Ok (reason b (frontier_calls s) sys user (_temperature self)),
                    mk_state (_cache s) (local_calls s) (S (frontier_calls s)) (ticks s))
       | None => (Ok (reason (_local self) (local_calls s) sys user (_temperature self)),
                  mk_state (_cache s) (S (local_calls s)) (frontier_calls s) (ticks s))
       end.

Definition _call_with_budget (front : option ReasonerBackend) (sys user : string) (budget_ms : float)
    : M RouterState (option LLMRawVerdict.t * bool * bool) :=
  t0 ← now;
  r ← call front sys user;
  match r with
  | Raise _ => mret (None, false, false)
  | Ok verdict =>
      elapsed_ms ← elapsed_since t0;
      if fltb budget_ms elapsed_ms then mret (None, true, true) else mret (Some verdict, false, true)
  end.

(** The [for attempt in range(attempts)] loop. *)
Fixpoint attempts_loop (n : nat) (front : option ReasonerBackend) (sys user : string)
    : M RouterState (option LLMRawVerdict.t * bool) :=
  match n with
  | O => mret (None, false)
  | S n => r ← call front sys user;
           match r with Ok verdict => mret (Some verdict, true) | Raise _ => attempts_loop n front sys user end
  end.
Definition _call_with_retries (front : option ReasonerBackend) (sys user : string)
    : M RouterState (option LLMRawVerdict.t * bool) :=
  attempts_loop (Z.to_nat (_max_retries self + 1)) front sys user.

Definition some_verdict (v : option LLMRawVerdict.t) : result LLMRawVerdict.t :=
  match v with Some v => Ok v | None => Raise (AssertionError "verdict is not None") end.

Definition fast_path_veto (sys user : string) (key : SignalBucketKey.t) : M RouterState RoutedVerdict.t :=
  t0 ← now;
  cached ← cache_lookup key;
  match cached with
  | Some v => e ← elapsed_since t0; mret (RoutedVerdict.mk v CACHE (backend_id (_local self)) true e false)
  | None =>
      '(verdict, timed_out, ok) ← _call_with_budget None sys user (_budget_ms self);
      elapsed ← elapsed_since t0;
      if negb ok || timed_out then
        v ← lift (conservative_fallback_verdict
                    (if (timed_out : bool) then "fast-path local timeout/error" else "fast-path invalid output"));
        mret (RoutedVerdict.mk v FALLBACK (backend_id (_local self)) false elapsed timed_out)
      else
        v ← lift (some_verdict verdict);
        cache_store key v;;
        mret (RoutedVerdict.mk v FAST_PATH (backend_id (_local self)) false elapsed false)
  end.

Definition route (sys user : string) (key : SignalBucketKey.t) : M RouterState RoutedVerdict.t :=
  t0 ← now;
  cached ← cache_lookup key;
  match cached with
  | Some v => e ← elapsed_since t0; mret (RoutedVerdict.mk v CACHE "cache" true e false)
  | None =>
      let front := if should_escalate key then _frontier self else None in
      let backend := default (_local self) front in
      let tier := match front with Some _ => FRONTIER | None => LOCAL end in
      '(verdict, ok) ← _call_with_retries front sys user;
      elapsed ← elapsed_since t0;
      if negb ok then
        v ← lift (conservative_fallback_verdict "route: backend error/invalid after retries");
        mret (RoutedVerdict.mk v FALLBACK (backend_id backend) false elapsed false)
      else
        v ← lift (some_verdict verdict);
        cache_store key v;;
        mret (RoutedVerdict.mk v tier (backend_id backend) false elapsed false)
  end.
End Router.

(** ** [reasoner.py] *)

(** [NewsSignal] of [aats/sentiment/models.py], the fields the reasoner reads. *)
Record NewsSignal : Type := mk_news {
  credible_negative_event : bool; mcs_delta : float; news_red_flags : list string; headline_digest : string
}.

Module ReasonerOutput.
Record t : Type := mk {
  verdict : ReasoningVerdict.t;
  intent : option Intent;
  route_tier : RouteTier;
  backend_id : string;
  prompt_hash : string;
  elapsed_ms : float;
  cache_hit : bool
}.
End ReasonerOutput.

Definition _prompt_hash (system_prompt user_prompt : string) : string :=
  hexdigest (sha256 (encode system_prompt ++ [0] ++ encode user_prompt)).

Definition _deterministic_intent_id (mint : string) (et : EventTime.t) (action : ReasoningAction.t) : string :=
  let raw := "reason:" +:+ mint +:+ ":" +:+ pretty (EventTime.slot et) +:+ ":"
             +:+ pretty (EventTime.block_time_ms et) +:+ ":" +:+ ReasoningAction.value action in
  py_take 32 (hexdigest (sha256 (encode raw))).

Definition quant_of (i : PromptInputs.t) : result QuantBucket :=
  bucket_quant (DecisionSignal.p_calibrated (PromptInputs.decision_signal i))
    (DecisionSignal.uncertainty (PromptInputs.decision_signal i)).
Definition sentiment_of (i : PromptInputs.t) : SentimentRisk :=
  let mcs := PromptInputs.mcs i in
  bucket_sentiment (MCSScore.conviction mcs) (MCSScore.synchronicity mcs)
    (MCSScore.account_age_median_days mcs) (MCSScore.coordinated_shill_flag mcs).

Definition _bucket_key (i : PromptInputs.t) : result SignalBucketKey.t :=
  quant ← quant_of i;
  let net_edge := PromptInputs.expected_edge_bps i - PromptInputs.total_cost_bps i in
  Ok (SignalBucketKey.mk quant (sentiment_of i) (PromptInputs.position_is_open i) (Z.sgn net_edge)).

Definition _build_intent (action : ReasoningAction.t) (mint : string) (et : EventTime.t) (reason : string)
    : result (option Intent) :=
  let client_intent_id := _deterministic_intent_id mint et action in
  match action with
  | HOLD => Ok None
  | VETO_ENTRY => i ← DeRiskIntentFactory.veto client_intent_id mint reason; Ok (Some i)
  | REDUCE_SIZE => i ← DeRiskIntentFactory.reduce client_intent_id mint 5000 reason; Ok (Some i)
  | FORCE_EXIT => i ← DeRiskIntentFactory.exit client_intent_id mint 10000 secure reason; Ok (Some i)
  end.

Definition _audit_reason (raw : LLMRawVerdict.t) (quant : QuantBucket) (sentiment : SentimentRisk)
    (matrix_cell : string) (clamped narrative_failure : bool) (route_tier : RouteTier)
    (backend_id prompt_hash : string) : string :=
  "quant=" +:+ quant_value quant +:+ " sentiment=" +:+ sentiment_value sentiment +:+ " cell=" +:+ matrix_cell
  +:+ " raw_signal=" +:+ DecisionSignalLabel.value (LLMRawVerdict.decision_signal raw)
  +:+ " raw_veto=" +:+ str_bool (LLMRawVerdict.veto raw)
  +:+ " raw_narrative_failure=" +:+ str_bool (LLMRawVerdict.narrative_failure raw)
  +:+ " applied_narrative_failure=" +:+ str_bool narrative_failure
  +:+ " risk_increase_clamped=" +:+ str_bool clamped
  +:+ " route=" +:+ tier_value route_tier +:+ " backend=" +:+ backend_id
  +:+ " prompt_hash=" +:+ py_take 12 prompt_hash
  +:+ " | [QUOTED-UNTRUSTED-RATIONALE] " +:+ LLMRawVerdict.rationale raw.

Definition _finalize (i : PromptInputs.t) (raw : LLMRawVerdict.t) (tier : RouteTier)
    (backend_id prompt_hash : string) (elapsed_ms : float) (cache_hit : bool) : result ReasonerOutput.t :=
  let sig := PromptInputs.decision_signal i in
  let open := PromptInputs.position_is_open i in
  quant ← quant_of i;
  let sentiment := sentiment_of i in
  let clamp := clamp_to_derisk_action quant (LLMRawVerdict.decision_signal raw) (LLMRawVerdict.veto raw)
      (LLMRawVerdict.narrative_failure raw) (DecisionSignalLabel.value (LLMRawVerdict.decision_signal raw)) open in
  let matrix := evaluate_matrix quant (LLMRawVerdict.decision_signal raw) (LLMRawVerdict.veto raw)
      (LLMRawVerdict.narrative_failure raw) sentiment open in
  let applied := combine_clamp_and_matrix (ClampResult.action clamp) (MatrixDecision.floor_action matrix) in
  let applied_narrative_failure := bool_decide (applied = FORCE_EXIT)
      && (LLMRawVerdict.narrative_failure raw || bool_decide (MatrixDecision.floor_action matrix = FORCE_EXIT)) in
  let audit := _audit_reason raw quant sentiment (MatrixDecision.cell matrix)
      (ClampResult.risk_increase_clamped clamp) applied_narrative_failure tier backend_id prompt_hash in
  verdict ← ReasoningVerdict.new (DecisionSignal.mint sig) (DecisionSignal.event_time sig) applied audit
      (LLMRawVerdict.confidence raw) (ClampResult.action_received_raw clamp)
      (ClampResult.risk_increase_clamped clamp);
  intent ← _build_intent applied (DecisionSignal.mint sig) (DecisionSignal.event_time sig)
      (ReasoningVerdict.reason verdict);
  Ok (ReasonerOutput.mk verdict intent tier backend_id prompt_hash elapsed_ms cache_hit).

Definition _MAX_NEWS_RATIONALE : Z := 300.

(** The verdict [_finalize_with_news_override] passes on. *)
Definition news_override (i : PromptInputs.t) (raw : LLMRawVerdict.t) (news : NewsSignal) : result LLMRawVerdict.t :=
  if credible_negative_event news then
    let override_narrative_failure := LLMRawVerdict.narrative_failure raw || PromptInputs.position_is_open i in
    let override_veto := LLMRawVerdict.veto raw || true in
    let sanitised_digest := py_take _MAX_NEWS_RATIONALE (headline_digest news) in
    let news_audit := "[E7-NEWS-OVERRIDE] credible_negative_event=True "
        +:+ "mcs_delta=" +:+ fmt_f3 (mcs_delta news) +:+ " "
        +:+ "red_flags=" +:+ str_list_repr (news_red_flags news) +:+ " "
        +:+ "[QUOTED-UNTRUSTED-HEADLINE-DIGEST] " +:+ sanitised_digest in
    let override_rationale := "[news_override] " +:+ news_audit +:+ " "
        +:+ "| [llm_original_rationale-QUOTED-UNTRUSTED] " +:+ LLMRawVerdict.rationale raw in
    let override_rationale :=
      if 2000 <? py_len override_rationale then py_take 2000 override_rationale else override_rationale in
    LLMRawVerdict.new (LLMRawVerdict.decision_signal raw) (LLMRawVerdict.confidence raw)
      override_veto override_narrative_failure override_rationale
  else Ok raw.

Definition _finalize_with_news_override (i : PromptInputs.t) (raw : LLMRawVerdict.t) (tier : RouteTier)
    (backend_id prompt_hash : string) (elapsed_ms : float) (cache_hit : bool) (news : NewsSignal)
    : result ReasonerOutput.t :=
  raw ← news_override i raw news;
  _finalize i raw tier backend_id prompt_hash elapsed_ms cache_hit.

Section Reasoner.
Context (_router : LLMRouter).

(** The steps [adjudicate], [adjudicate_with_news] and [fast_veto] share; they
    differ in the route taken and in how the verdict is finished. *)
Definition decide_with (via : string → string → SignalBucketKey.t → M RouterState RoutedVerdict.t)
    (finish : RoutedVerdict.t → string → result ReasonerOutput.t) (i : PromptInputs.t)
    : M RouterState ReasonerOutput.t :=
  lift (assert_point_in_time i);;
  key ← lift (_bucket_key i);
  user_prompt ← lift (build_reasoner_prompt i);
  let prompt_hash := _prompt_hash SYSTEM_PROMPT user_prompt in
  routed ← via SYSTEM_PROMPT user_prompt key;
  lift (finish routed prompt_hash).

Definition finish_plain (i : PromptInputs.t) (r : RoutedVerdict.t) (h : string) : result ReasonerOutput.t :=
  _finalize i (RoutedVerdict.raw r) (RoutedVerdict.tier r) (RoutedVerdict.backend_id r) h
    (RoutedVerdict.elapsed_ms r) (RoutedVerdict.cache_hit r).
Definition finish_news (news : NewsSignal) (i : PromptInputs.t) (r : RoutedVerdict.t) (h : string)
    : result ReasonerOutput.t :=
  _finalize_with_news_override i (RoutedVerdict.raw r) (RoutedVerdict.tier r) (RoutedVerdict.backend_id r) h
    (RoutedVerdict.elapsed_ms r) (RoutedVerdict.cache_hit r) news.

Definition adjudicate (i : PromptInputs.t) : M RouterState ReasonerOutput.t :=
  decide_with (route _router) (finish_plain i) i.
Definition adjudicate_with_news (news : NewsSignal) (i : PromptInputs.t) : M RouterState ReasonerOutput.t :=
  decide_with (route _router) (finish_news news i) i.
Definition fast_veto (i : PromptInputs.t) : M RouterState ReasonerOutput.t :=
  decide_with (fast_path_veto _router) (finish_plain i) i.
End Reasoner.

#[global] Arguments SignalBucketKey.digest : simpl never.
#[global] Arguments _prompt_hash : simpl never.
#[global] Arguments _audit_reason : simpl never.
#[global] Arguments LLMRawVerdict._rationale_bounded : simpl never.
#[global] Arguments build_reasoner_prompt : simpl never.

(** ** What routing does to the state *)

Section RouteFacts.
Context (self : LLMRouter).

Definition backend_of (front : option ReasonerBackend) : ReasonerBackend := default (_local self) front.
Definition calls (front : option ReasonerBackend) (s : RouterState) : nat :=
  match front with Some _ => frontier_calls s | None => local_calls s end.
(** The answer to the j-th call from now. *)
Definition answer (front : option ReasonerBackend) (sys user : string) (s : RouterState) (j : nat)
    : result LLMRawVerdict.t :=
  reason (backend_of front) (j + calls front s) sys user (_temperature self).
(** [k] calls and [t] clock readings later, with cache [c]. *)
Definition after (front : option ReasonerBackend) (k t : nat) (c : gmap string LLMRawVerdict.t)
    (s : RouterState) : RouterState :=
  match front with
  | Some _ => mk_state c (local_calls s) (k + frontier_calls s) (t + ticks s)
  | None => mk_state c (k + local_calls s) (frontier_calls s) (t + ticks s)
  end.
Definition front_of (key : SignalBucketKey.t) : option ReasonerBackend :=
  if should_escalate key then _frontier self else None.
Definition attempts : nat := Z.to_nat (_max_retries self + 1).
Definition fallback_raw (why : string) : LLMRawVerdict.t :=
  LLMRawVerdict.mk DecisionSignalLabel.SELL fone true false
    (LLMRawVerdict._rationale_bounded ("[fallback] conservative de-risk: " +:+ why)).
Definition failed (r : result LLMRawVerdict.t) : Prop := is_ok r = false.

Lemma fallback_ok why : conservative_fallback_verdict why = Ok (fallback_raw why).
Proof. reflexivity. Qed.

Lemma call_eq front sys user s :
  call self front sys user s = (Ok (answer front sys user s 0), after front 1 0 (_cache s) s).
Proof. by destruct front, s. Qed.

Lemma answer_after front sys user s k c t j :
  answer front sys user (after front k t c s) j = answer front sys user s (j + k).
Proof. unfold answer. destruct front; cbn; by rewrite Nat.add_assoc. Qed.

Lemma after_after front k k' t t' c c' s :
  after front k t c (after front k' t' c' s) = after front (k + k') (t + t') c s.
Proof. destruct front; cbn; by rewrite !Nat.add_assoc. Qed.

Lemma after_cache front k t c s : _cache (after front k t c s) = c.
Proof. by destruct front. Qed.

(** The retry loop asks until an answer is valid, at most [n] times. *)
Lemma attempts_loop_spec n front sys user s :
  (∃ k v, (k < n)%nat ∧ (∀ j, (j < k)%nat → failed (answer front sys user s j)) ∧
     answer front sys user s k = Ok v ∧
     attempts_loop self n front sys user s = (Ok (Some v, true), after front (S k) 0 (_cache s) s)) ∨
  ((∀ j, (j < n)%nat → failed (answer front sys user s j)) ∧
     attempts_loop self n front sys user s = (Ok (None, false), after front n 0 (_cache s) s)).
Proof.
  revert s. induction n as [|n IH]; intros s.
  - right. split; [lia|]. by destruct front, s.
  - cbn [attempts_loop]. unfold mbind, M_bind. rewrite call_eq.
    destruct (answer front sys user s 0) as [v|e] eqn:E0.
    + left. exists 0%nat, v. split_and!; [lia|lia|done|done].
    + assert (Hs : ∀ m, (∀ j, (j < m)%nat → failed (answer front sys user (after front 1 0 (_cache s) s) j)) →
                ∀ j, (j < S m)%nat → failed (answer front sys user s j)).
      { intros m Hm [|j] Hj; [by rewrite E0|]. specialize (Hm j). rewrite answer_after, Nat.add_1_r in Hm. apply Hm. lia. }
      destruct (IH (after front 1 0 (_cache s) s)) as [(k & v & Hk & Hf & Hv & Hl)|[Hf Hl]].
      * left. exists (S k), v. rewrite answer_after, Nat.add_1_r in Hv. split_and!; [lia|by apply Hs|done|].
        rewrite Hl, after_after, after_cache, Nat.add_1_r. done.
      * right. split; [by apply Hs|]. rewrite Hl, after_after, after_cache, Nat.add_1_r. done.
Qed.

(** A cache hit answers at once; otherwise the first valid answer within the
    bound is taken and stored, or the fallback is returned and nothing is. *)
Lemma route_spec sys user key s :
  ∃ e, match _cache s !! SignalBucketKey.digest key with
  | Some v => route self sys user key s = (Ok (RoutedVerdict.mk v CACHE "cache" true e false), after None 0 2 (_cache s) s)
  | None =>
      let front := front_of key in
      (∃ k v, (k < attempts)%nat ∧ (∀ j, (j < k)%nat → failed (answer front sys user s j)) ∧
         answer front sys user s k = Ok v ∧
         route self sys user key s
         = (Ok (RoutedVerdict.mk v (match front with Some _ => FRONTIER | None => LOCAL end)
                  (backend_id (backend_of front)) false e false),
            after front (S k) 2 (<[SignalBucketKey.digest key := v]> (_cache s)) s)) ∨
      ((∀ j, (j < attempts)%nat → failed (answer front sys user s j)) ∧
         route self sys user key s
         = (Ok (RoutedVerdict.mk (fallback_raw "route: backend error/invalid after retries") FALLBACK
                  (backend_id (backend_of front)) false e false), after front attempts 2 (_cache s) s))
  end.
Proof.
  exists (fmul (fsub (perf_counter self (S (ticks s))) (perf_counter self (ticks s))) (float_of_Z 1000)).
  unfold route, now, cache_lookup, elapsed_since, gets, mbind, M_bind. cbn [_cache].
  set (s1 := mk_state (_cache s) (local_calls s) (frontier_calls s) (S (ticks s))).
  destruct (_cache s !! SignalBucketKey.digest key) as [v|] eqn:Ec.
  { by destruct s. }
  fold (front_of key). unfold _call_with_retries. fold attempts.
  assert (H1 : ∀ j, answer (front_of key) sys user s1 j = answer (front_of key) sys user s j)
    by (intros j; unfold answer, s1; destruct (front_of key); reflexivity).
  destruct (attempts_loop_spec attempts (front_of key) sys user s1) as [(k & v & Hk & Hf & Hv & Hl)|[Hf Hl]];
    setoid_rewrite H1 in Hf.
  - left. exists k, v. rewrite <- H1. split_and!; [done|done|done|]. rewrite Hl. by destruct (front_of key), s.
  - right. split; [done|]. rewrite Hl. rewrite fallback_ok. by destruct (front_of key), s.
Qed.
End RouteFacts.

(** The fast path asks the local backend once; an answer later than the budget
    counts for nothing. *)
Definition ms (self : LLMRouter) (a b : nat) : float :=
  fmul (fsub (perf_counter self b) (perf_counter self a)) (float_of_Z 1000).
Definition overran (self : LLMRouter) (s : RouterState) : bool :=
  fltb (_budget_ms self) (ms self (1 + ticks s) (2 + ticks s)).

Lemma fast_path_spec self sys user key s :
  ∃ e, match _cache s !! SignalBucketKey.digest key with
  | Some v => fast_path_veto self sys user key s
      = (Ok (RoutedVerdict.mk v CACHE (backend_id (_local self)) true e false), after None 0 2 (_cache s) s)
  | None =>
      match answer self None sys user s 0 with
      | Raise _ => fast_path_veto self sys user key s
          = (Ok (RoutedVerdict.mk (fallback_raw "fast-path invalid output") FALLBACK (backend_id (_local self)) false e false),
             after None 1 3 (_cache s) s)
      | Ok v => fast_path_veto self sys user key s
          = if overran self s
            then (Ok (RoutedVerdict.mk (fallback_raw "fast-path local timeout/error") FALLBACK (backend_id (_local self)) false e true),
                  after None 1 4 (_cache s) s)
            else (Ok (RoutedVerdict.mk v FAST_PATH (backend_id (_local self)) false e false),
                  after None 1 4 (<[SignalBucketKey.digest key := v]> (_cache s)) s)
      end
  end.
Proof.
  unfold fast_path_veto, _call_with_budget, call, now, cache_lookup, elapsed_since, gets, mbind, M_bind. cbn [_cache].
  destruct (_cache s !! SignalBucketKey.digest key) as [v|] eqn:Ec.
  { eexists. reflexivity. }
  unfold answer. cbn. destruct (reason (_local self) (local_calls s) sys user (_temperature self)) as [v|e] eqn:Er.
  - exists (ms self (ticks s) (3 + ticks s)). unfold overran. fold (ms self (1 + ticks s) (2 + ticks s)). cbn.
    destruct (fltb (_budget_ms self) _); reflexivity.
  - eexists. cbn. reflexivity.
Qed.

(** ** Validated verdicts *)

Definition signal_validated (sig : DecisionSignal.t) : Prop :=
  ∃ m et v p u b s, DecisionSignal.new m et v p u b s = Ok sig.
Definition cache_validated (s : RouterState) : Prop :=
  map_Forall (λ _ v, LLMRawVerdict.validated v) (_cache s).

Definition conf_ok (v : LLMRawVerdict.t) : bool :=
  fleb fzero (LLMRawVerdict.confidence v) && fleb (LLMRawVerdict.confidence v) fone.

Lemma new_conf s c b n r : (fleb fzero c && fleb c fone)%bool = true →
  LLMRawVerdict.new s c b n r = Ok (LLMRawVerdict.mk s c b n (LLMRawVerdict._rationale_bounded r)).
Proof. intros H. unfold LLMRawVerdict.new, LLMRawVerdict._confidence_in_unit_interval. by rewrite H. Qed.

Lemma validated_conf v : LLMRawVerdict.validated v → conf_ok v = true.
Proof.
  intros (s & c & b & n & r & H). unfold conf_ok.
  unfold LLMRawVerdict.new, LLMRawVerdict._confidence_in_unit_interval in H.
  destruct (fleb fzero c && fleb c fone) eqn:E; cbn in H; [|done]. by injection H as <-.
Qed.

Lemma fallback_validated why : LLMRawVerdict.validated (fallback_raw why).
Proof. eexists _, _, _, _, _. exact (fallback_ok why). Qed.

Lemma quant_total i : signal_validated (PromptInputs.decision_signal i) → is_ok (quant_of i) = true.
Proof.
  intros (m & et & v & p & u & b & s & H). unfold quant_of, bucket_quant.
  unfold DecisionSignal.new, DecisionSignal._probability_range, unit_range, guard_ok in H.
  destruct (fleb fzero p && fleb p fone) eqn:Ep; [|done].
  destruct (fleb fzero u && fleb u fone) eqn:Eu; [|done].
  destruct (fleb fzero b && fleb b fone) eqn:Eb; [|done].
  cbn in H. injection H as <-. cbn. rewrite Ep, Eu. cbn. by repeat case_match.
Qed.

(** ** What is emitted *)

Definition intent_matches (a : ReasoningAction.t) (m : string) (o : option Intent) : Prop :=
  match a, o with
  | HOLD, None => True
  | VETO_ENTRY, Some (Veto v) => VetoIntent.mint v = m
  | REDUCE_SIZE, Some (Reduce r) => ReduceIntent.mint r = m ∧ ReduceIntent.fraction_bps r = 5000
  | FORCE_EXIT, Some (Exit e) => ExitIntent.mint e = m ∧ ExitIntent.fraction_bps e = 10000
      ∧ ExitIntent.mode e = secure
  | _, _ => False
  end.

Definition action_of (i : PromptInputs.t) (q : QuantBucket) (raw : LLMRawVerdict.t) : ReasoningAction.t :=
  applied_action q (LLMRawVerdict.decision_signal raw) (LLMRawVerdict.veto raw)
    (LLMRawVerdict.narrative_failure raw) (sentiment_of i) (PromptInputs.position_is_open i).

Definition emits (i : PromptInputs.t) (q : QuantBucket) (raw : LLMRawVerdict.t) (o : ReasonerOutput.t) : Prop :=
  let v := ReasonerOutput.verdict o in
  let m := DecisionSignal.mint (PromptInputs.decision_signal i) in
  ReasoningVerdict.action v = action_of i q raw ∧ ReasoningVerdict.mint v = m ∧
  ReasoningVerdict.event_time v = DecisionSignal.event_time (PromptInputs.decision_signal i) ∧
  intent_matches (ReasoningVerdict.action v) m (ReasonerOutput.intent o).

Lemma build_intent_ok a m et r : ∃ o, _build_intent a m et r = Ok o ∧ intent_matches a m o.
Proof. destruct a; by eexists. Qed.

Lemma finalize_ok i q raw tier id h e hit : quant_of i = Ok q → conf_ok raw = true →
  ∃ o, _finalize i raw tier id h e hit = Ok o ∧ emits i q raw o.
Proof.
  intros Hq Hc. unfold _finalize. rewrite Hq. unfold mbind at 1. cbn [result_bind].
  unfold ReasoningVerdict.new, ReasoningVerdict._confidence_range, unit_range, guard_ok.
  unfold conf_ok in Hc. rewrite Hc. unfold mbind, result_bind. cbn [ReasoningVerdict.reason].
  match goal with |- context [_build_intent ?a ?m ?t ?r] =>
    destruct (build_intent_ok a m t r) as (o & Ho & Hm); rewrite Ho end.
  eexists. split; [done|]. by split_and!.
Qed.

(** The news hook may set flags, never clear them. *)
Definition overridden (i : PromptInputs.t) (raw : LLMRawVerdict.t) (news : NewsSignal) : bool * bool :=
  if credible_negative_event news
  then (true, LLMRawVerdict.narrative_failure raw || PromptInputs.position_is_open i)
  else (LLMRawVerdict.veto raw, LLMRawVerdict.narrative_failure raw).

Lemma news_override_ok i raw news : conf_ok raw = true →
  ∃ raw', news_override i raw news = Ok raw' ∧ conf_ok raw' = true ∧
    LLMRawVerdict.decision_signal raw' = LLMRawVerdict.decision_signal raw ∧
    (LLMRawVerdict.veto raw', LLMRawVerdict.narrative_failure raw') = overridden i raw news ∧
    (credible_negative_event news = false → raw' = raw).
Proof.
  intros Hc. unfold news_override, overridden. destruct (credible_negative_event news); [|by exists raw].
  rewrite new_conf by done. eexists. split; [done|]. cbn. rewrite orb_true_r. by split_and!.
Qed.

(** ** Whose opinion is applied *)

(** The verdict behind an output: the bucket's cached one, a valid answer a
    backend gave in this run (now cached), or the router's fallback. *)
Inductive opinion (self : LLMRouter) (sys user : string) (key : SignalBucketKey.t) (s : RouterState) :
    LLMRawVerdict.t → RouteTier → RouterState → Prop :=
| from_cache v t :
    _cache s !! SignalBucketKey.digest key = Some v →
    opinion self sys user key s v CACHE (after None 0 t (_cache s) s)
| from_backend front v tier k t :
    _cache s !! SignalBucketKey.digest key = None →
    answer self front sys user s k = Ok v →
    (∀ j, (j < k)%nat → failed (answer self front sys user s j)) →
    (front = None ∨ front = front_of self key) → tier ≠ FALLBACK →
    opinion self sys user key s v tier (after front (S k) t (<[SignalBucketKey.digest key := v]> (_cache s)) s)
| from_fallback front why k t :
    _cache s !! SignalBucketKey.digest key = None →
    opinion self sys user key s (fallback_raw why) FALLBACK (after front k t (_cache s) s).

(** The three entry points. *)
Inductive entry : Type := Adjudicate | AdjudicateWithNews (news : NewsSignal) | FastVeto.
Definition run_entry (self : LLMRouter) (e : entry) (i : PromptInputs.t) : M RouterState ReasonerOutput.t :=
  match e with
  | Adjudicate => adjudicate self i
  | AdjudicateWithNews news => adjudicate_with_news self news i
  | FastVeto => fast_veto self i
  end.
(** The verdict an entry point finishes, given the routed one. *)
Definition finished (e : entry) (i : PromptInputs.t) (raw raw' : LLMRawVerdict.t) : Prop :=
  match e with
  | AdjudicateWithNews news => news_override i raw news = Ok raw'
  | _ => raw' = raw
  end.

Section Safety.
Context (self : LLMRouter).
(** A backend answers with validated verdicts only (its protocol). *)
Definition backends_validate : Prop :=
  ∀ b n sys user t v, b = _local self ∨ _frontier self = Some b →
    reason b n sys user t = Ok v → LLMRawVerdict.validated v.

Lemma front_is_backend key : let f := front_of self key in
  backend_of self f = _local self ∨ _frontier self = Some (backend_of self f).
Proof. unfold front_of, backend_of. destruct (should_escalate key), (_frontier self); cbn; auto. Qed.

Lemma opinion_validated sys user key s v tier s' : backends_validate → cache_validated s →
  opinion self sys user key s v tier s' → LLMRawVerdict.validated v ∧ cache_validated s'.
Proof.
  intros Hb Hs [v0 t Hc|front v0 tr k t Hc Ha Hf Hfr Ht|front why k t Hc]; unfold cache_validated; rewrite after_cache.
  - split; [exact (Hs _ _ Hc)|exact Hs].
  - assert (LLMRawVerdict.validated v0).
    { eapply (Hb (backend_of self front)); [|exact Ha]. destruct Hfr as [->| ->]; [by left|apply front_is_backend]. }
    split; [done|]. by apply map_Forall_insert_2.
  - split; [apply fallback_validated|done].
Qed.

Definition finish (e : entry) (i : PromptInputs.t) : RoutedVerdict.t → string → result ReasonerOutput.t :=
  match e with AdjudicateWithNews news => finish_news news i | _ => finish_plain i end.
Definition via (e : entry) : string → string → SignalBucketKey.t → M RouterState RoutedVerdict.t :=
  match e with FastVeto => fast_path_veto self | _ => route self end.

Lemma run_entry_eq e i : run_entry self e i = decide_with (via e) (finish e i) i.
Proof. by destruct e. Qed.

Lemma via_opinion e sys user key s :
  ∃ r s', via e sys user key s = (Ok r, s') ∧
    opinion self sys user key s (RoutedVerdict.raw r) (RoutedVerdict.tier r) s'.
Proof.
  assert (Hr : ∃ r s', route self sys user key s = (Ok r, s') ∧
            opinion self sys user key s (RoutedVerdict.raw r) (RoutedVerdict.tier r) s').
  { destruct (route_spec self sys user key s) as [el H]. destruct (_cache s !! _) as [v|] eqn:Ec.
    - eexists _, _. split; [exact H|]. by constructor.
    - destruct H as [(k & v & Hk & Hf & Hv & H)|[_ H]]; eexists _, _; (split; [exact H|]).
      + apply from_backend; auto. by destruct (front_of self key).
      + by apply from_fallback. }
  destruct e; [exact Hr|exact Hr|]. cbn [via].
  destruct (fast_path_spec self sys user key s) as [el H]. destruct (_cache s !! _) as [v|] eqn:Ec.
  - eexists _, _. split; [exact H|]. by constructor.
  - destruct (answer self None sys user s 0) as [v|x] eqn:Ea; [destruct (overran self s)|];
      eexists _, _; (split; [exact H|]).
    + by apply from_fallback.
    + apply (from_backend _ _ _ _ _ None); auto; lia.
    + by apply from_fallback.
Qed.

Lemma finish_ok e i q r h : quant_of i = Ok q → conf_ok (RoutedVerdict.raw r) = true →
  ∃ o raw', finish e i r h = Ok o ∧ finished e i (RoutedVerdict.raw r) raw' ∧ emits i q raw' o.
Proof.
  intros Hq Hc. destruct e as [|news|]; cbn [finish finished].
  2:{ destruct (news_override_ok i _ news Hc) as (raw' & Hn & Hc' & _).
      unfold finish_news, _finalize_with_news_override. rewrite Hn. cbn [mbind result_bind].
      destruct (finalize_ok i q raw' (RoutedVerdict.tier r) (RoutedVerdict.backend_id r) h
                  (RoutedVerdict.elapsed_ms r) (RoutedVerdict.cache_hit r) Hq Hc') as (o & Ho & He).
      by exists o, raw'. }
  all: destruct (finalize_ok i q _ (RoutedVerdict.tier r) (RoutedVerdict.backend_id r) h
                   (RoutedVerdict.elapsed_ms r) (RoutedVerdict.cache_hit r) Hq Hc) as (o & Ho & He); eauto.
Qed.

(** Every entry point on the same instant returns; what it emits is what the
    tables apply to the opinion it was served. *)
Lemma run_entry_ok e i q s : backends_validate → cache_validated s → quant_of i = Ok q →
  assert_point_in_time i = Ok tt →
  ∃ key user o raw raw' tier s', _bucket_key i = Ok key ∧ build_reasoner_prompt i = Ok user ∧
    run_entry self e i s = (Ok o, s') ∧ opinion self SYSTEM_PROMPT user key s raw tier s' ∧
    finished e i raw raw' ∧ emits i q raw' o ∧ cache_validated s'.
Proof.
  intros Hb Hs Hq Hp. rewrite run_entry_eq. unfold decide_with, lift, mbind, M_bind. rewrite Hp.
  destruct (_bucket_key i) as [key|] eqn:Ek; [|by unfold _bucket_key in Ek; rewrite Hq in Ek].
  destruct (build_reasoner_prompt i) as [user|] eqn:Eu; [|by unfold build_reasoner_prompt in Eu; rewrite Hp in Eu].
  destruct (via_opinion e SYSTEM_PROMPT user key s) as (r & s' & Hv & Ho). rewrite Hv.
  destruct (opinion_validated _ _ _ _ _ _ _ Hb Hs Ho) as [Hr Hs'].
  destruct (finish_ok e i q r (_prompt_hash SYSTEM_PROMPT user) Hq (validated_conf _ Hr)) as (o & raw' & Hf & Hfin & Hem).
  rewrite Hf. by exists key, user, o, (RoutedVerdict.raw r), raw', (RoutedVerdict.tier r), s'.
Qed.
End Safety.

(** C28: The reasoner always answers, and only ever takes risk away.  On one
    decision instant each entry point (the full route, the route with the news
    hook, the fast path) returns; the verdict is about the signal's mint and
    time, its action is exactly what the clamp and the matrix apply to the
    opinion it was served (the bucket's cached verdict, the first valid answer
    of a backend, or the fallback), and the intent is the matching de-risk
    variant: none for a hold, a veto, a half reduction, or a full secure exit.
    A fallback never passes a trade.  Inputs of two instants raise before any
    backend is asked. *)
Theorem reasoner_answers_and_de_risks self e i s : backends_validate self → cache_validated s →
  signal_validated (PromptInputs.decision_signal i) →
  if same_instant (DecisionSignal.event_time (PromptInputs.decision_signal i)) (MCSScore.event_time (PromptInputs.mcs i))
  then ∃ q key user o raw raw' tier s', quant_of i = Ok q ∧ _bucket_key i = Ok key ∧
    build_reasoner_prompt i = Ok user ∧ run_entry self e i s = (Ok o, s') ∧
    opinion self SYSTEM_PROMPT user key s raw tier s' ∧ finished e i raw raw' ∧ emits i q raw' o ∧
    cache_validated s' ∧ (tier = FALLBACK → ReasoningVerdict.action (ReasonerOutput.verdict o) ≠ HOLD)
  else run_entry self e i s = (Raise (ValueError "point-in-time violation"), s).
Proof.
  intros Hb Hs Hsig. destruct (same_instant _ _) eqn:Ei.
  - assert (Hp : assert_point_in_time i = Ok tt) by (unfold assert_point_in_time; by rewrite Ei).
    pose proof (quant_total i Hsig) as Hq. destruct (quant_of i) as [q|] eqn:Eq; [clear Hq|done].
    destruct (run_entry_ok self e i q s Hb Hs Eq Hp)
      as (key & user & o & raw & raw' & tier & s' & Hk & Hu & Hr & Ho & Hf & He & Hs').
    exists q, key, user, o, raw, raw', tier, s'. split_and!; try done.
    intros ->. destruct He as [-> _].
    assert (Hv : LLMRawVerdict.veto raw' = true); [|by unfold action_of; apply veto_never_holds].
    assert (Hv : LLMRawVerdict.veto raw = true) by by inversion Ho.
    destruct e as [|news|]; cbn in Hf; [by subst| |by subst]. unfold news_override in Hf.
    destruct (credible_negative_event news); [|by injection Hf as <-].
    apply LLMRawVerdict.new_veto in Hf as ->. apply orb_true_r.
  - rewrite run_entry_eq. unfold decide_with, assert_point_in_time. by rewrite Ei.
Qed.

(** A fresh router over the mock, and two mints in one bucket (a weak quant, a
    middling conviction, a positive edge, open): A's narrative is dead to the
    mock, B's is not. *)
Definition demo_router : LLMRouter := default_router (λ n, float_of_Z (Z.of_nat n)).
Definition demo_input (mint : string) (p conviction : float) (reasoning : string) : PromptInputs.t :=
  let et := EventTime.mk 5 6 7 in
  PromptInputs.mk (DecisionSignal.mk mint et "v1" p (float_lit 2 1) (float_lit 5 1) "EH-001")
    (MCSScore.mk mint et conviction (float_lit 5 1) (float_lit 5 1) (float_lit 3 1) (float_lit 300 1) false [] 4 reasoning)
    300 500 true.
Definition mint_A : PromptInputs.t := demo_input "A" (float_lit 39 2) (float_lit 1 1) "dead".
Definition mint_B : PromptInputs.t := demo_input "B" (float_lit 44 2) (float_lit 5 1) "alive".

Lemma mock_validates clock : backends_validate (default_router clock).
Proof.
  intros b n sys user t v [->|[=]]. cbn [reason default_router _local MockReasonerBackend]. unfold mock_reason.
  destruct (_extract_int _ _); [|done]. cbn [mbind result_bind].
  repeat case_match; intros Hnew; by eexists _, _, _, _, _.
Qed.

Definition in_unit_interval (x : float) : bool := fleb fzero x && fleb x fone.
Lemma signal_validated_mk m et v p u b s :
  in_unit_interval p = true → in_unit_interval u = true → in_unit_interval b = true →
  signal_validated (DecisionSignal.mk m et v p u b s).
Proof.
  unfold in_unit_interval. intros Hp Hu Hb. exists m, et, v, p, u, b, s.
  unfold DecisionSignal.new, DecisionSignal._probability_range, unit_range, guard_ok. by rewrite Hp, Hu, Hb.
Qed.

Lemma reasoner_answers_witness :
  ∃ q key user o raw raw' tier s', quant_of mint_A = Ok q ∧ _bucket_key mint_A = Ok key ∧
    build_reasoner_prompt mint_A = Ok user ∧ run_entry demo_router Adjudicate mint_A fresh = (Ok o, s') ∧
    opinion demo_router SYSTEM_PROMPT user key fresh raw tier s' ∧ finished Adjudicate mint_A raw raw' ∧
    emits mint_A q raw' o ∧ cache_validated s' ∧
    (tier = FALLBACK → ReasoningVerdict.action (ReasonerOutput.verdict o) ≠ HOLD).
Proof.
  apply (reasoner_answers_and_de_risks demo_router Adjudicate mint_A fresh).
  - apply mock_validates.
  - apply map_Forall_empty.
  - apply signal_validated_mk; vm_compute; reflexivity.
Defined.

(** C27: Routing ends within the retry bound and fails safe.  A cached bucket is
    answered without calling any backend.  Otherwise the chosen backend is
    called at most [max_retries + 1] times (not at all for a negative bound),
    no more than up to its first valid answer, which is returned and cached;
    if no attempt is valid the result is the veto fallback, and nothing is
    cached, so the next call asks again.  The frontier is asked only for a
    neutral quant with elevated sentiment and a zero edge.  The fast path asks
    the local backend once, and an answer later than the budget is dropped
    for the same fallback. *)
Theorem routing_bounded_and_fails_safe self sys user key s :
  let cached := _cache s !! SignalBucketKey.digest key in
  let front := front_of self key in
  (∃ r k e, route self sys user key s = (Ok r, after front k 2 e s) ∧
     (k ≤ Z.to_nat (_max_retries self + 1))%nat ∧
     match cached with
     | Some v => RoutedVerdict.raw r = v ∧ k = 0%nat ∧ e = _cache s
     | None => (∀ j, (S j < k)%nat → failed (answer self front sys user s j)) ∧
         ((∀ j, (j < Z.to_nat (_max_retries self + 1))%nat → failed (answer self front sys user s j)) →
            e = _cache s ∧ RoutedVerdict.tier r = FALLBACK ∧ LLMRawVerdict.veto (RoutedVerdict.raw r) = true) ∧
         (∀ j v, (j < Z.to_nat (_max_retries self + 1))%nat → answer self front sys user s j = Ok v →
            ∃ v', answer self front sys user s (pred k) = Ok v' ∧ RoutedVerdict.raw r = v' ∧
              e = <[SignalBucketKey.digest key := v']> (_cache s))
     end) ∧
  (∃ r k t e, fast_path_veto self sys user key s = (Ok r, after None k t e s) ∧ (k ≤ 1)%nat ∧
     (cached = None → is_ok (answer self None sys user s 0) = false ∨ overran self s = true →
        e = _cache s ∧ RoutedVerdict.tier r = FALLBACK ∧ LLMRawVerdict.veto (RoutedVerdict.raw r) = true)) ∧
  (is_Some front → SignalBucketKey.quant key = NEUTRAL ∧ SignalBucketKey.sentiment key = ELEVATED
     ∧ SignalBucketKey.net_edge_sign key = 0).
Proof.
  cbv zeta. fold (attempts self). split_and!.
  - destruct (route_spec self sys user key s) as [el H]. destruct (_cache s !! _) as [v|] eqn:Ec.
    + exists (RoutedVerdict.mk v CACHE "cache" true el false), 0%nat, (_cache s).
      split_and!; [|lia|done|done|done]. rewrite H. by destruct (front_of self key).
    + destruct H as [(k & v & Hk & Hf & Hv & H)|[Hf H]]; eexists _, _, _; (split; [exact H|]).
      * split; [lia|]. split; [intros j Hj; apply Hf; lia|]. split; [|by exists v].
        intros Hall. by specialize (Hall k Hk); rewrite Hv in Hall.
      * split; [lia|]. split; [intros j Hj; apply Hf; lia|]. split; [done|].
        intros j v Hj Hv. by specialize (Hf j Hj); rewrite Hv in Hf.
  - destruct (fast_path_spec self sys user key s) as [el H]. destruct (_cache s !! _) as [v|] eqn:Ec.
    + eexists _, _, _, _. split; [exact H|]. split; [lia|done].
    + destruct (answer self None sys user s 0) as [v|x] eqn:Ea; [destruct (overran self s) eqn:Eo|];
        (eexists _, _, _, _; split; [exact H|]; split; [lia|]); intros _; [done|by intros [|]|done].
  - unfold front_of, should_escalate. intros [b Hb].
    destruct (bool_decide (_ = NEUTRAL) && _ && _) eqn:E; [|done]. bools. done.
Qed.

(** ** The cache over a run *)

(** Entry points called one after another, each outcome observed. *)
Fixpoint run_entries (self : LLMRouter) (l : list (entry * PromptInputs.t)) (s : RouterState)
    : list (result ReasonerOutput.t) * RouterState :=
  match l with
  | [] => ([], s)
  | (e, i) :: l =>
      let '(o, s') := run_entry self e i s in
      let '(os, s'') := run_entries self l s' in (o :: os, s'')
  end.

(** Every bucket [_bucket_key] can name. *)
Definition all_keys : list SignalBucketKey.t :=
  q ← [BEARISH; NEUTRAL; BULLISH]; m ← [BENIGN; ELEVATED; MANUFACTURED]; b ← [true; false];
  n ← [-1; 0; 1]; [SignalBucketKey.mk q m b n].

Lemma bucket_key_listed i key : _bucket_key i = Ok key → key ∈ all_keys.
Proof.
  unfold _bucket_key. destruct (quant_of i) as [q|]; [|done]. intros [= <-].
  destruct q, (sentiment_of i), (PromptInputs.position_is_open i), (PromptInputs.expected_edge_bps i - PromptInputs.total_cost_bps i);
    apply (bool_decide_eq_true _); vm_compute; reflexivity.
Qed.

Lemma size_list_to_set_le (l : list string) : (size (list_to_set l : gset string) ≤ length l)%nat.
Proof.
  induction l as [|x l IH]; cbn; [by rewrite size_empty|]. rewrite size_union_alt.
  rewrite size_singleton.
  assert (size (list_to_set l ∖ {[x]} : gset string) ≤ size (list_to_set l : gset string))%nat; [|lia].
  apply subseteq_size. set_solver.
Qed.

(** One call touches at most the bucket it looks up, and only when empty. *)
Lemma run_entry_cache self e i s : let s' := (run_entry self e i s).2 in
  _cache s' = _cache s ∨
  ∃ key v, _bucket_key i = Ok key ∧ _cache s !! SignalBucketKey.digest key = None ∧
    _cache s' = <[SignalBucketKey.digest key := v]> (_cache s).
Proof.
  cbv zeta. rewrite run_entry_eq. unfold decide_with, lift, mbind, M_bind.
  destruct (assert_point_in_time i); [|by left].
  destruct (_bucket_key i) as [key|]; [|by left].
  destruct (build_reasoner_prompt i) as [user|]; [|by left].
  destruct (via_opinion self e SYSTEM_PROMPT user key s) as (r & s' & -> & Ho). cbn [snd].
  inversion Ho; subst; rewrite ?after_cache; [by left| |by left]. right. by eexists _, _.
Qed.

Definition cache_in_buckets (s : RouterState) : Prop :=
  dom (_cache s) ⊆ (list_to_set (SignalBucketKey.digest <$> all_keys) : gset string).

Lemma run_entries_inv self l s : let s' := (run_entries self l s).2 in
  (∀ d v, _cache s !! d = Some v → _cache s' !! d = Some v) ∧ (cache_in_buckets s → cache_in_buckets s').
Proof.
  cbv zeta. revert s. induction l as [|[e i] l IH]; intros s; [done|]. cbn [run_entries].
  pose proof (run_entry_cache self e i s) as Hc. destruct (run_entry self e i s) as [o s1]. cbv zeta in Hc. cbn [snd] in Hc.
  destruct (IH s1) as [H1 H2]. destruct (run_entries self l s1) as [os s2]. cbn [snd] in *.
  destruct Hc as [Hc|(key & v & Hk & Hn & Hc)].
  - unfold cache_in_buckets in *. rewrite Hc in *. auto.
  - split.
    + intros d w Hd. apply H1. rewrite Hc. rewrite lookup_insert_ne; [done|]. intros <-. by rewrite Hn in Hd.
    + intros Hs. apply H2. unfold cache_in_buckets in *. rewrite Hc, dom_insert_L. apply union_subseteq. split; [|done].
      apply singleton_subseteq_l, elem_of_list_to_set, list_elem_of_fmap_2, (bucket_key_listed i); done.
Qed.

Lemma run_entry_cached self e i s key user v : _bucket_key i = Ok key → build_reasoner_prompt i = Ok user →
  _cache s !! SignalBucketKey.digest key = Some v → conf_ok v = true →
  ∃ o q raw' s', run_entry self e i s = (Ok o, s') ∧ quant_of i = Ok q ∧ finished e i v raw' ∧ emits i q raw' o ∧
    local_calls s' = local_calls s ∧ frontier_calls s' = frontier_calls s.
Proof.
  intros Hk Hu Hc Hv. rewrite run_entry_eq. unfold decide_with, lift, mbind, M_bind.
  destruct (assert_point_in_time i) as [[]|] eqn:Ep; [|by unfold build_reasoner_prompt in Hu; rewrite Ep in Hu].
  rewrite Hk, Hu. destruct (via_opinion self e SYSTEM_PROMPT user key s) as (r & s' & -> & Ho).
  destruct (quant_of i) as [q|] eqn:Eq; [|by unfold _bucket_key in Hk; rewrite Eq in Hk].
  inversion Ho as [v0 t Hv0 Hr Ht Hs| |]; subst; [|congruence..]. rewrite Hc in Hv0. injection Hv0 as Hv0.
  destruct (finish_ok e i q r (_prompt_hash SYSTEM_PROMPT user) Eq) as (o & raw' & Hf & Hfin & He); [by rewrite <- Hv0|].
  rewrite Hf. exists o, q, raw', (after None 0 t (_cache s) s). rewrite Hv0. by split_and!.
Qed.

(** The first opinion on a bucket is final, and shared by every mint in it.
    Once a verdict is cached for a bucket it stays, whatever is called later
    and however long after; every later call that falls in the bucket, for
    whatever mint, conviction and narrative, is answered from it without
    asking any backend.  So a dead narrative seen on one open position forces
    a full exit of every open position that shares its bucket, and a healthy
    first verdict keeps a later dead narrative from being seen.  The cache
    never holds more than 54 verdicts. *)
Theorem first_opinion_serves_bucket self l s i key user v e : cache_validated s →
  _cache s !! SignalBucketKey.digest key = Some v → _bucket_key i = Ok key → build_reasoner_prompt i = Ok user →
  let s1 := (run_entries self l s).2 in
  _cache s1 !! SignalBucketKey.digest key = Some v ∧
  (∃ o q raw' s', run_entry self e i s1 = (Ok o, s') ∧ quant_of i = Ok q ∧ finished e i v raw' ∧ emits i q raw' o ∧
     local_calls s' = local_calls s1 ∧ frontier_calls s' = frontier_calls s1 ∧
     (e = Adjudicate → LLMRawVerdict.narrative_failure v = true → PromptInputs.position_is_open i = true →
        ReasoningVerdict.action (ReasonerOutput.verdict o) = FORCE_EXIT)) ∧
  (size (_cache (run_entries self l fresh).2) ≤ 54)%nat.
Proof.
  intros Hval Hc Hk Hu s1. destruct (run_entries_inv self l s) as [Hkeep _]. fold s1 in Hkeep.
  split_and!; [by apply Hkeep| |].
  - destruct (run_entry_cached self e i s1 key user v) as (o & q & raw' & s' & Hr & Hq & Hf & He & Hl & Hfr); auto.
    { apply validated_conf. exact (Hval _ _ Hc). }
    exists o, q, raw', s'. split_and!; try done. intros -> Hnf Hop. cbn in Hf. subst raw'.
    destruct He as [-> _]. unfold action_of. rewrite Hnf, Hop.
    by destruct q, (LLMRawVerdict.decision_signal v), (LLMRawVerdict.veto v), (sentiment_of i).
  - destruct (run_entries_inv self l fresh) as [_ Hin]. cbv zeta in Hin.
    assert (Hd : cache_in_buckets (run_entries self l fresh).2) by (apply Hin; by unfold cache_in_buckets).
    apply subseteq_size in Hd. rewrite size_dom in Hd. etrans; [exact Hd|]. etrans; [apply size_list_to_set_le|].
    rewrite length_fmap. by vm_compute.
Qed.

(** The key and the prompt of the demo inputs, and the state after one
    adjudication of A. *)
Definition after_A : RouterState := Eval vm_compute in (run_entry demo_router Adjudicate mint_A fresh).2.
Definition key_A : SignalBucketKey.t := SignalBucketKey.mk BEARISH ELEVATED true 1.
Definition opinion_A : LLMRawVerdict.t := Eval vm_compute in
  default (fallback_raw "") (_cache after_A !! SignalBucketKey.digest key_A).
Definition prompt_B : string := Eval vm_compute in
  match build_reasoner_prompt mint_B with Ok p => p | Raise _ => "" end.

Lemma first_opinion_witness :
  let s1 := (run_entries demo_router [] after_A).2 in
  _cache s1 !! SignalBucketKey.digest key_A = Some opinion_A ∧
  (∃ o q raw' s', run_entry demo_router Adjudicate mint_B s1 = (Ok o, s') ∧ quant_of mint_B = Ok q ∧
     finished Adjudicate mint_B opinion_A raw' ∧ emits mint_B q raw' o ∧
     local_calls s' = local_calls s1 ∧ frontier_calls s' = frontier_calls s1 ∧
     (Adjudicate = Adjudicate → LLMRawVerdict.narrative_failure opinion_A = true →
        PromptInputs.position_is_open mint_B = true →
        ReasoningVerdict.action (ReasonerOutput.verdict o) = FORCE_EXIT)) ∧
  (size (_cache (run_entries demo_router [] fresh).2) ≤ 54)%nat.
Proof.
  apply (first_opinion_serves_bucket demo_router [] after_A mint_B key_A prompt_B opinion_A Adjudicate).
  - assert (Hs : cache_validated fresh) by apply map_Forall_empty.
    pose proof (run_entry_ok demo_router Adjudicate mint_A BEARISH fresh (mock_validates _) Hs eq_refl eq_refl)
      as (key & user & o & raw & raw' & tier & s' & _ & _ & Hr & _ & _ & _ & Hv).
    replace after_A with s'; [done|]. change s' with (Ok o, s').2. rewrite <- Hr. by vm_compute.
  - by vm_compute.
  - by vm_compute.
  - by vm_compute.
Defined.

(** Asked first, B is only reduced; asked after A, it is force-exited on A's
    dead narrative.  Asked after B, A is only reduced. *)
Example verdicts_cross_mints :
  let act i s := match run_entry demo_router Adjudicate i s with
                 | (Ok o, _) => Some (ReasoningVerdict.action (ReasonerOutput.verdict o)) | _ => None end in
  let after_B := (run_entry demo_router Adjudicate mint_B fresh).2 in
  act mint_B fresh = Some REDUCE_SIZE ∧ act mint_B after_A = Some FORCE_EXIT ∧
  act mint_A fresh = Some FORCE_EXIT ∧ act mint_A after_B = Some REDUCE_SIZE.
Proof. by vm_compute. Qed.

(** The mock is documented to ignore the untrusted narrative; a narrative that
    spells its own digest line flips its veto. *)
Example narrative_sways_mock :
  let ask r := match build_reasoner_prompt (demo_input "A" (float_lit 7 1) (float_lit 6 1) r) with
               | Ok p => match mock_reason p with Ok v => Some (LLMRawVerdict.veto v) | _ => None end
               | _ => None end in
  ask "all good" = Some false ∧ ask (quoted "coordinated_shill_flag" +:+ ": true") = Some true.
Proof. by vm_compute. Qed.

(** The news hook only adds caution.  Adjudicated from the same state, the
    call with news leaves the router exactly as the plain call does and emits
    an action at least as strong; with no credible negative event it emits the
    very same output, with one it forces a full exit of an open position and
    a veto of a pending entry, whatever the LLM said. *)
Theorem news_only_adds_de_risk self news i s : backends_validate self → cache_validated s →
  signal_validated (PromptInputs.decision_signal i) → assert_point_in_time i = Ok tt →
  ∃ o o' s', adjudicate self i s = (Ok o, s') ∧ adjudicate_with_news self news i s = (Ok o', s') ∧
    let a := ReasoningVerdict.action (ReasonerOutput.verdict o) in
    let a' := ReasoningVerdict.action (ReasonerOutput.verdict o') in
    stronger a' a ∧
    (if credible_negative_event news
     then a' = if PromptInputs.position_is_open i then FORCE_EXIT else VETO_ENTRY
     else o' = o).
Proof.
  intros Hb Hs Hsig Hp. pose proof (quant_total i Hsig) as Hq. destruct (quant_of i) as [q|] eqn:Eq; [clear Hq|done].
  unfold adjudicate, adjudicate_with_news, decide_with, lift, mbind, M_bind. rewrite Hp.
  destruct (_bucket_key i) as [key|] eqn:Ek; [|by unfold _bucket_key in Ek; rewrite Eq in Ek].
  destruct (build_reasoner_prompt i) as [user|] eqn:Eu; [|by unfold build_reasoner_prompt in Eu; rewrite Hp in Eu].
  destruct (via_opinion self Adjudicate SYSTEM_PROMPT user key s) as (r & s' & Hv & Ho). cbn [via] in Hv. rewrite Hv.
  destruct (opinion_validated self _ _ _ _ _ _ _ Hb Hs Ho) as [Hr _]. apply validated_conf in Hr.
  set (h := _prompt_hash SYSTEM_PROMPT user).
  destruct (finish_ok Adjudicate i q r h Eq Hr) as (o & raw & Hf & Hfin & [Ha _]). cbn in Hf, Hfin. subst raw.
  destruct (news_override_ok i _ news Hr) as (raw' & Hn & Hc' & Hsame & Hover & Hid).
  unfold finish_news, _finalize_with_news_override. rewrite Hf, Hn. cbn [mbind result_bind].
  destruct (finalize_ok i q raw' (RoutedVerdict.tier r) (RoutedVerdict.backend_id r) h
              (RoutedVerdict.elapsed_ms r) (RoutedVerdict.cache_hit r) Eq Hc') as (o' & Ho' & [Ha' _]).
  rewrite Ho'. exists o, o', s'. split_and!; [done|done|..]; rewrite ?Ha, ?Ha'.
  - unfold action_of. rewrite Hsame. unfold overridden in Hover.
    destruct (credible_negative_event news); injection Hover as -> ->; [|reflexivity].
    apply news_stronger.
  - destruct (credible_negative_event news) eqn:Ec.
    + unfold action_of. unfold overridden in Hover. rewrite Ec in Hover. injection Hover as -> ->.
      apply news_forces.
    + rewrite (Hid eq_refl) in Ho'. unfold finish_plain in Hf. congruence.
Qed.

Lemma news_only_adds_witness :
  let news := mk_news true (float_of_Z (-1)) ["rug"] "exchange halts" in
  ∃ o o' s', adjudicate demo_router mint_B fresh = (Ok o, s') ∧
    adjudicate_with_news demo_router news mint_B fresh = (Ok o', s') ∧
    let a := ReasoningVerdict.action (ReasonerOutput.verdict o) in
    let a' := ReasoningVerdict.action (ReasonerOutput.verdict o') in
    stronger a' a ∧
    (if credible_negative_event news
     then a' = if PromptInputs.position_is_open mint_B then FORCE_EXIT else VETO_ENTRY
     else o' = o).
Proof.
  intros news. apply (news_only_adds_de_risk demo_router news mint_B fresh).
  - apply mock_validates.
  - apply map_Forall_empty.
  - apply signal_validated_mk; vm_compute; reflexivity.
  - done.
Defined.
