(* ===== verification/SafetyGate.v ===== *)
(** * The pre-trade safety gate and the denylist

    [aats/risk/pretrade_gate.py] and [aats/risk/blacklist.py]: the ordered
    refuse-by-default checks, the scanner, the hot-reloaded denylist and the
    evaluation that composes the two.  Telemetry sinks only observe and are
    left out; [json.loads] and what the file system answers are parameters. *)

From S2P Require Import Prelude Decimal RiskContracts Float64 FloatRepr PyText.

(** ** Red flags *)

Inductive RedFlag : Type :=
| FREEZE_AUTHORITY_SET | MINT_AUTHORITY_NOT_RENOUNCED | LP_NOT_LOCKED_OR_BURNED | DEV_OR_BUNDLE_CLUSTER
| HOLDER_CONCENTRATION_HIGH | HOLDER_COUNT_TOO_LOW | SELL_TAX_TOO_HIGH | BUY_TAX_TOO_HIGH
| CREATOR_DENYLISTED | MINT_DENYLISTED | SERIAL_DEPLOYER_RUGGED | DEV_FUNDED_JUST_BEFORE_LAUNCH
| DEV_FUNDING_UNDECODABLE | LP_UNLOCK_IMMINENT | LP_UNLOCK_SCHEDULE_UNKNOWN | INPUT_STALE | INPUT_INCOMPLETE
| NOT_SELLABLE.
#[export] Instance RedFlag_eq_dec : EqDecision RedFlag.
Proof. solve_decision. Defined.

Definition HOT_CHECK_ORDER : list RedFlag :=
  [FREEZE_AUTHORITY_SET; MINT_AUTHORITY_NOT_RENOUNCED; LP_NOT_LOCKED_OR_BURNED; DEV_OR_BUNDLE_CLUSTER;
   HOLDER_CONCENTRATION_HIGH; HOLDER_COUNT_TOO_LOW; SELL_TAX_TOO_HIGH; BUY_TAX_TOO_HIGH].

Definition BPS_DENOM : Z := 10000.

Record RedFlagHit : Type := mk_hit { flag : RedFlag; measured : option Z; threshold : option Z }.
#[export] Instance RedFlagHit_eq_dec : EqDecision RedFlagHit.
Proof. solve_decision. Defined.

(** ** Thresholds and inputs, with their validators *)

Module SafetyThresholds.
Record t : Type := mk {
  min_lp_locked_bps : Z;
  max_holder_concentration_top10_bps : Z;
  min_distinct_holders : Z;
  max_dev_bundle_cluster_bps : Z;
  max_sell_tax_bps : Z;
  max_buy_tax_bps : Z;
  max_staleness_ms : Z
}.
Definition default : t := mk 9500 3500 10 2000 1000 1000 2000.

(** The loop of [__post_init__]. *)
Fixpoint check_fields (fields : list (string * pynum)) : result unit :=
  match fields with
  | [] => Ok tt
  | (f, PyFloat _) :: _ => Raise (TypeError ("SafetyThresholds." +:+ f +:+ " must be int (bps/ms)"))
  | (f, PyInt z) :: fs =>
      if z <? 0 then Raise (ValueError ("SafetyThresholds." +:+ f +:+ " must be non-negative")) else check_fields fs
  end.
Definition new (lp conc holders cluster sell buy stale : pynum) : result t :=
  check_fields
    [("min_lp_locked_bps", lp); ("max_holder_concentration_top10_bps", conc); ("min_distinct_holders", holders);
     ("max_dev_bundle_cluster_bps", cluster); ("max_sell_tax_bps", sell); ("max_buy_tax_bps", buy);
     ("max_staleness_ms", stale)];;
  if negb ((0 <=? pynum_int lp) && (pynum_int lp <=? BPS_DENOM))
  then Raise (ValueError "min_lp_locked_bps must be in [0, 10000] bps.")
  else Ok (mk (pynum_int lp) (pynum_int conc) (pynum_int holders) (pynum_int cluster) (pynum_int sell)
             (pynum_int buy) (pynum_int stale)).
End SafetyThresholds.

Module SafetyInputs.
Record t : Type := mk {
  mint : string;
  event_slot : Z;
  event_block_time_ms : Z;
  data_staleness_ms : Z;
  freeze_authority : option string;
  mint_authority : option string;
  lp_locked_or_burned_bps : option Z;
  dev_bundle_cluster_bps : option Z;
  holder_concentration_top10_bps : option Z;
  sell_tax_bps : option Z;
  buy_tax_bps : option Z;
  authorities_decoded : bool;
  holder_count : option Z
}.

(** The two loops over the numeric fields: a float raises. *)
Fixpoint reject_float_fields (fields : list (string * option pynum)) : result unit :=
  match fields with
  | [] => Ok tt
  | (f, Some (PyFloat _)) :: _ => Raise (TypeError ("SafetyInputs." +:+ f +:+ " must be int"))
  | _ :: fs => reject_float_fields fs
  end.
Definition new (mint : string) (slot bt stale : pynum) (freeze mint_auth : option string)
    (lp cluster conc sell buy : option pynum) (decoded : bool) (holders : option pynum) : result t :=
  reject_float_fields
    [("event_slot", Some slot); ("event_block_time_ms", Some bt); ("data_staleness_ms", Some stale);
     ("lp_locked_or_burned_bps", lp); ("dev_bundle_cluster_bps", cluster); ("holder_concentration_top10_bps", conc);
     ("sell_tax_bps", sell); ("buy_tax_bps", buy); ("holder_count", holders)];;
  if match holders with Some h => pynum_int h <? 0 | None => false end
  then Raise (ValueError "SafetyInputs.holder_count must be non-negative or None.")
  else if pynum_int bt <=? 0 then Raise (ValueError "SafetyInputs.event_block_time_ms must be > 0 (real on-chain time).")
  else if pynum_int stale <? 0 then Raise (ValueError "SafetyInputs.data_staleness_ms must be non-negative.")
  else Ok (mk mint (pynum_int slot) (pynum_int bt) (pynum_int stale) freeze mint_auth (pynum_int <$> lp)
             (pynum_int <$> cluster) (pynum_int <$> conc) (pynum_int <$> sell) (pynum_int <$> buy) decoded
             (pynum_int <$> holders)).
End SafetyInputs.

(** ** The gate *)

Inductive GateVerdict : Type := PASS | REJECT.
#[export] Instance GateVerdict_eq_dec : EqDecision GateVerdict.
Proof. solve_decision. Defined.

Module GateDecision.
Record t : Type := mk {
  mint : string; verdict : GateVerdict; red_flags : list RedFlagHit; event_slot : Z; event_block_time_ms : Z
}.
Definition passed (d : t) : bool := bool_decide (verdict d = PASS).
End GateDecision.

Record PreTradeSafetyGate : Type := mk_gate { thresholds : SafetyThresholds.t; enabled : bool }.

(** A non-empty authority string. *)
Definition authority_set (a : option string) : bool :=
  match a with Some s => negb (bool_decide (s = "")) | None => false end.

(** One bound check; an undecoded value is [INPUT_INCOMPLETE]. *)
Definition check_bound (f : RedFlag) (bad : Z → Z → bool) (v : option Z) (limit : Z) : option RedFlagHit :=
  match v with
  | None => Some (mk_hit INPUT_INCOMPLETE None None)
  | Some v => if bad v limit then Some (mk_hit f (Some v) (Some limit)) else None
  end.
Definition check_authority (f : RedFlag) (decoded : bool) (a : option string) : option RedFlagHit :=
  if negb decoded then Some (mk_hit INPUT_INCOMPLETE None None)
  else if authority_set a then Some (mk_hit f None None) else None.

Definition below (v limit : Z) : bool := v <? limit.
Definition above (v limit : Z) : bool := limit <? v.

Definition _check_one (th : SafetyThresholds.t) (f : RedFlag) (i : SafetyInputs.t) : option RedFlagHit :=
  match f with
  | FREEZE_AUTHORITY_SET => check_authority f (SafetyInputs.authorities_decoded i) (SafetyInputs.freeze_authority i)
  | MINT_AUTHORITY_NOT_RENOUNCED =>
      check_authority f (SafetyInputs.authorities_decoded i) (SafetyInputs.mint_authority i)
  | LP_NOT_LOCKED_OR_BURNED =>
      check_bound f below (SafetyInputs.lp_locked_or_burned_bps i) (SafetyThresholds.min_lp_locked_bps th)
  | DEV_OR_BUNDLE_CLUSTER =>
      check_bound f above (SafetyInputs.dev_bundle_cluster_bps i) (SafetyThresholds.max_dev_bundle_cluster_bps th)
  | HOLDER_CONCENTRATION_HIGH =>
      check_bound f above (SafetyInputs.holder_concentration_top10_bps i)
        (SafetyThresholds.max_holder_concentration_top10_bps th)
  | HOLDER_COUNT_TOO_LOW =>
      check_bound f below (SafetyInputs.holder_count i) (SafetyThresholds.min_distinct_holders th)
  | SELL_TAX_TOO_HIGH => check_bound f above (SafetyInputs.sell_tax_bps i) (SafetyThresholds.max_sell_tax_bps th)
  | BUY_TAX_TOO_HIGH => check_bound f above (SafetyInputs.buy_tax_bps i) (SafetyThresholds.max_buy_tax_bps th)
  | _ => Some (mk_hit INPUT_INCOMPLETE None None)
  end.

Definition decide_on (i : SafetyInputs.t) (v : GateVerdict) (hits : list RedFlagHit) : GateDecision.t :=
  GateDecision.mk (SafetyInputs.mint i) v hits (SafetyInputs.event_slot i) (SafetyInputs.event_block_time_ms i).
Definition _reject (i : SafetyInputs.t) (hits : list RedFlagHit) : GateDecision.t := decide_on i REJECT hits.

Definition stale_hit (th : SafetyThresholds.t) (i : SafetyInputs.t) : option RedFlagHit :=
  if SafetyThresholds.max_staleness_ms th <? SafetyInputs.data_staleness_ms i
  then Some (mk_hit INPUT_STALE (Some (SafetyInputs.data_staleness_ms i)) (Some (SafetyThresholds.max_staleness_ms th)))
  else None.

(** The loop that stops at the first hit. *)
Fixpoint first_hit (th : SafetyThresholds.t) (i : SafetyInputs.t) (order : list RedFlag) : option RedFlagHit :=
  match order with
  | [] => None
  | f :: order => match _check_one th f i with Some hit => Some hit | None => first_hit th i order end
  end.

Definition evaluate_fast (g : PreTradeSafetyGate) (i : SafetyInputs.t) : GateDecision.t :=
  let th := thresholds g in
  match stale_hit th i with
  | Some hit => _reject i [hit]
  | None =>
      match first_hit th i HOT_CHECK_ORDER with
      | Some hit => _reject i [hit]
      | None => decide_on i PASS []
      end
  end.

Definition scan_all (g : PreTradeSafetyGate) (i : SafetyInputs.t) : GateDecision.t :=
  let th := thresholds g in
  let hits := option_list (stale_hit th i) ++ omap (λ f, _check_one th f i) HOT_CHECK_ORDER in
  match hits with [] => decide_on i PASS [] | _ => _reject i hits end.

Definition require_enabled_for_entry (g : PreTradeSafetyGate) (d : GateDecision.t) : bool :=
  enabled g && GateDecision.passed d.

(** The probe of the off-path seam: [None] when none is wired. *)
Definition check_sellability (i : SafetyInputs.t) (probe : option (string → Z → result bool)) : result (option RedFlagHit) :=
  match probe with
  | None => Ok (Some (mk_hit NOT_SELLABLE None None))
  | Some p => ok ← p (SafetyInputs.mint i) (SafetyInputs.event_slot i);
              Ok (if (ok : bool) then None else Some (mk_hit NOT_SELLABLE None None))
  end.

(** ** The denylist *)

(** A parsed JSON document; the keys of an object are distinct. *)
Inductive json : Type :=
| JNull | JTrue | JFalse | JInt (z : Z) | JFloat (x : float) | JString (s : string) | JArray (l : list json)
| JObject (fields : list (string * json)).

Module DenyAllowSnapshot.
Record t : Type := mk {
  denied_creators : gset string; denied_mints : gset string;
  allowed_creators : gset string; allowed_mints : gset string;
  source_mtime_ns : Z; source_size : Z; version : json
}.
Definition empty : t := mk ∅ ∅ ∅ ∅ 0 0 (JString "").
(** [x is not None and x in s] *)
Definition member (x : option string) (s : gset string) : bool :=
  match x with Some x => bool_decide (x ∈ s) | None => false end.
Definition is_creator_denied (c : option string) (s : t) : bool := member c (denied_creators s).
Definition is_mint_denied (m : option string) (s : t) : bool := member m (denied_mints s).
Definition is_creator_allowed (c : option string) (s : t) : bool := member c (allowed_creators s).
Definition is_mint_allowed (m : option string) (s : t) : bool := member m (allowed_mints s).
End DenyAllowSnapshot.


Fixpoint jget (k : string) (fields : list (string * json)) : json :=
  match fields with
  | [] => JNull
  | (k', v) :: fs => if bool_decide (k' = k) then v else jget k fs
  end.

(** [bool(x)] *)
Definition truthy (j : json) : bool :=
  match j with
  | JNull | JFalse => false
  | JTrue => true
  | JInt z => negb (z =? 0)
  | JFloat x => match x with S754_zero _ => false | _ => true end
  | JString s => negb (bool_decide (s = ""))
  | JArray l => negb (bool_decide (length l = 0%nat))
  | JObject l => negb (bool_decide (length l = 0%nat))
  end.

Definition entry_address (key : string) (e : json) : option string :=
  match e with
  | JString s => Some (strip s)
  | JObject fs => match jget key fs with JString s => Some (strip s) | _ => None end
  | _ => None
  end.
Definition _coerce_str_set (items : json) (key : string) : result (gset string) :=
  match items with
  | JNull => Ok ∅
  | JArray l => Ok (list_to_set (filter (λ s, s ≠ "") (omap (entry_address key) l)))
  | _ => Raise (ValueError "expected a list for entries")
  end.

(** [doc.get("version", "")], kept before its [str]: it is shown, never read. *)
Definition json_version (fields : list (string * json)) : json :=
  if bool_decide ("version" ∈ fields.*1) then jget "version" fields else JString "".

Definition object_or_empty (j : json) : result (list (string * json)) :=
  if negb (truthy j) then Ok []
  else match j with JObject fs => Ok fs | _ => Raise (ValueError "'denylist' and 'allowlist' must be JSON objects") end.

Section Denylist.
Context (json_loads : string → result json).

Definition parse_snapshot (raw_text : string) (mtime_ns size : Z) : result DenyAllowSnapshot.t :=
  doc ← json_loads raw_text;
  match doc with
  | JObject fields =>
      deny ← object_or_empty (jget "denylist" fields);
      allow ← object_or_empty (jget "allowlist" fields);
      dc ← _coerce_str_set (jget "creators" deny) "wallet";
      dm ← _coerce_str_set (jget "mints" deny) "mint";
      ac ← _coerce_str_set (jget "creators" allow) "wallet";
      am ← _coerce_str_set (jget "mints" allow) "mint";
      Ok (DenyAllowSnapshot.mk dc dm ac am mtime_ns size (json_version fields))
  | _ => Raise (ValueError "denylist root must be a JSON object")
  end.

(** What the path answers: [stat], then [read_text]. *)
Inductive file_view : Type :=
| NotFound | StatError
| File (mtime_ns size : Z) (text : result string).

Record DenyAllowWatcher : Type := mk_watcher {
  reload_throttle_s : float; _snapshot : DenyAllowSnapshot.t; _last_stat_at : float; _loaded_mtime_ns : Z;
  _loaded_size : Z
}.

(** [OSError], [ValueError] (and so [JSONDecodeError]) are caught; others are not. *)
Definition caught (e : exn) : bool :=
  match e with
  | ValueError _ => true
  | CustomError cls _ => bool_decide (cls ∈ ["OSError"; "FileNotFoundError"; "PermissionError"; "IsADirectoryError"; "UnicodeDecodeError"; "JSONDecodeError"])
  | PermissionError _ => true
  | _ => false
  end.

Definition _load (force : bool) (fs : file_view) : M DenyAllowWatcher bool := λ w,
  match fs with
  | NotFound | StatError => (Ok false, w)
  | File mtime_ns size text =>
      if negb force && (mtime_ns =? _loaded_mtime_ns w) && (size =? _loaded_size w) then (Ok false, w)
      else match text ≫= (λ t, parse_snapshot t mtime_ns size) with
           | Ok snap => (Ok true, mk_watcher (reload_throttle_s w) snap (_last_stat_at w) mtime_ns size)
           | Raise e => (if caught e then Ok false else Raise e, w)
           end
  end.

Definition stamp (now : float) (w : DenyAllowWatcher) : DenyAllowWatcher :=
  mk_watcher (reload_throttle_s w) (_snapshot w) now (_loaded_mtime_ns w) (_loaded_size w).
Definition blank_watcher (throttle : float) : DenyAllowWatcher :=
  mk_watcher throttle DenyAllowSnapshot.empty (S754_infinity true) (-1) (-1).

(** [__post_init__], at clock reading [now]. *)
Definition DenyAllowWatcher_init (throttle now : float) (fs : file_view) : result bool * DenyAllowWatcher :=
  _load true fs (stamp now (blank_watcher throttle)).

Definition maybe_reload (force : bool) (now : float) (fs : file_view) : M DenyAllowWatcher bool := λ w,
  if negb force && fltb (fsub now (_last_stat_at w)) (reload_throttle_s w) then (Ok false, w)
  else _load force fs (stamp now w).

Definition check_keys (creator mint : option string) (w : DenyAllowWatcher) : option RedFlagHit :=
  let snap := _snapshot w in
  if DenyAllowSnapshot.is_creator_denied creator snap then Some (mk_hit CREATOR_DENYLISTED None None)
  else if DenyAllowSnapshot.is_mint_denied mint snap then Some (mk_hit MINT_DENYLISTED None None)
  else None.

Definition is_allowed (creator mint : option string) (w : DenyAllowWatcher) : bool :=
  DenyAllowSnapshot.is_creator_allowed creator (_snapshot w) || DenyAllowSnapshot.is_mint_allowed mint (_snapshot w).
End Denylist.

Module PreGateResult.
Record t : Type := mk {
  mint : string; passed : bool; denylist_hit : option RedFlagHit; gate_decision : option GateDecision.t;
  was_allowlisted : bool; event_slot : Z; event_block_time_ms : Z
}.
End PreGateResult.

Definition evaluate_with_denylist (w : DenyAllowWatcher) (g : PreTradeSafetyGate) (i : SafetyInputs.t)
    (creator : option string) (mint : string) (event_slot event_block_time_ms : Z) : PreGateResult.t :=
  let was_allowlisted := is_allowed creator (Some mint) w in
  match check_keys creator (Some mint) w with
  | Some hit => PreGateResult.mk mint false (Some hit) None was_allowlisted event_slot event_block_time_ms
  | None =>
      let decision := evaluate_fast g i in
      PreGateResult.mk mint (GateDecision.passed decision) None (Some decision) was_allowlisted event_slot
        event_block_time_ms
  end.

(** ** The gate against a reference predicate *)

Definition within (v : option Z) (p : Z → Prop) : Prop := ∃ z, v = Some z ∧ p z.

(** Every fact decoded and inside its bound. *)
Record safe (th : SafetyThresholds.t) (i : SafetyInputs.t) : Prop := mk_safe {
  safe_fresh : SafetyInputs.data_staleness_ms i ≤ SafetyThresholds.max_staleness_ms th;
  safe_decoded : SafetyInputs.authorities_decoded i = true;
  safe_freeze : authority_set (SafetyInputs.freeze_authority i) = false;
  safe_mint : authority_set (SafetyInputs.mint_authority i) = false;
  safe_lp : within (SafetyInputs.lp_locked_or_burned_bps i) (λ z, SafetyThresholds.min_lp_locked_bps th ≤ z);
  safe_cluster : within (SafetyInputs.dev_bundle_cluster_bps i) (λ z, z ≤ SafetyThresholds.max_dev_bundle_cluster_bps th);
  safe_top10 : within (SafetyInputs.holder_concentration_top10_bps i)
                 (λ z, z ≤ SafetyThresholds.max_holder_concentration_top10_bps th);
  safe_holders : within (SafetyInputs.holder_count i) (λ z, SafetyThresholds.min_distinct_holders th ≤ z);
  safe_sell : within (SafetyInputs.sell_tax_bps i) (λ z, z ≤ SafetyThresholds.max_sell_tax_bps th);
  safe_buy : within (SafetyInputs.buy_tax_bps i) (λ z, z ≤ SafetyThresholds.max_buy_tax_bps th)
}.

(** [b] is no looser than [a] on any knob. *)
Record tighter (b a : SafetyThresholds.t) : Prop := mk_tighter {
  t_lp : SafetyThresholds.min_lp_locked_bps a ≤ SafetyThresholds.min_lp_locked_bps b;
  t_top10 : SafetyThresholds.max_holder_concentration_top10_bps b ≤ SafetyThresholds.max_holder_concentration_top10_bps a;
  t_holders : SafetyThresholds.min_distinct_holders a ≤ SafetyThresholds.min_distinct_holders b;
  t_cluster : SafetyThresholds.max_dev_bundle_cluster_bps b ≤ SafetyThresholds.max_dev_bundle_cluster_bps a;
  t_sell : SafetyThresholds.max_sell_tax_bps b ≤ SafetyThresholds.max_sell_tax_bps a;
  t_buy : SafetyThresholds.max_buy_tax_bps b ≤ SafetyThresholds.max_buy_tax_bps a;
  t_stale : SafetyThresholds.max_staleness_ms b ≤ SafetyThresholds.max_staleness_ms a
}.

Lemma check_below f v limit : check_bound f below v limit = None ↔ within v (λ z, limit ≤ z).
Proof.
  unfold check_bound, below, within. destruct v as [z|]; [|split; [done|by intros (?&?&?)]].
  destruct (z <? limit) eqn:E; bools; (split; [intros H; first [done|by exists z]|intros (?&[= <-]&?); first [lia|done]]).
Qed.
Lemma check_above f v limit : check_bound f above v limit = None ↔ within v (λ z, z ≤ limit).
Proof.
  unfold check_bound, above, within. destruct v as [z|]; [|split; [done|by intros (?&?&?)]].
  destruct (limit <? z) eqn:E; bools; (split; [intros H; first [done|by exists z]|intros (?&[= <-]&?); first [lia|done]]).
Qed.
Lemma check_authority_none f d a : check_authority f d a = None ↔ d = true ∧ authority_set a = false.
Proof. unfold check_authority. by destruct d, (authority_set a); split; intros; repeat (done || destruct_and?). Qed.
Lemma stale_none th i : stale_hit th i = None ↔ SafetyInputs.data_staleness_ms i ≤ SafetyThresholds.max_staleness_ms th.
Proof. unfold stale_hit. destruct (_ <? _) eqn:E; bools; split; intros; first [done|lia]. Qed.

Lemma first_hit_omap th i order : first_hit th i order = head (omap (λ f, _check_one th f i) order).
Proof. induction order as [|f order IH]; cbn; [done|]. by destruct (_check_one th f i). Qed.

Lemma checks_safe th i :
  option_list (stale_hit th i) ++ omap (λ f, _check_one th f i) HOT_CHECK_ORDER = [] ↔ safe th i.
Proof.
  split.
  - intros H. apply app_eq_nil in H as [H1 H2].
    assert (Hn : ∀ f, f ∈ HOT_CHECK_ORDER → _check_one th f i = None).
    { intros f Hf. destruct (_check_one th f i) eqn:E; [|done]. exfalso.
      assert (r ∈ omap (λ f, _check_one th f i) HOT_CHECK_ORDER) as Hin by (apply list_elem_of_omap; eauto).
      rewrite H2 in Hin. by apply not_elem_of_nil in Hin. }
    assert (Hall : Forall (λ f, _check_one th f i = None) HOT_CHECK_ORDER) by (by apply Forall_forall).
    unfold HOT_CHECK_ORDER in Hall. rewrite !Forall_cons in Hall. cbn [_check_one] in Hall.
    rewrite !check_below, !check_above, !check_authority_none in Hall.
    constructor; try tauto. apply stale_none. by destruct (stale_hit th i).
  - intros [H0 Hd Hf Hm H1 H2 H3 H4 H5 H6]. apply stale_none in H0. rewrite H0.
    unfold HOT_CHECK_ORDER. cbn [omap list_omap _check_one option_list app].
    apply (check_below LP_NOT_LOCKED_OR_BURNED) in H1. apply (check_above DEV_OR_BUNDLE_CLUSTER) in H2.
    apply (check_above HOLDER_CONCENTRATION_HIGH) in H3. apply (check_below HOLDER_COUNT_TOO_LOW) in H4.
    apply (check_above SELL_TAX_TOO_HIGH) in H5. apply (check_above BUY_TAX_TOO_HIGH) in H6.
    unfold check_authority. by rewrite Hd, Hf, Hm, H1, H2, H3, H4, H5, H6.
Qed.

(** The fast path reports the scanner's first flag. *)
Lemma fast_is_scan_head g i :
  GateDecision.verdict (evaluate_fast g i) = GateDecision.verdict (scan_all g i) ∧
  GateDecision.red_flags (evaluate_fast g i) = take 1 (GateDecision.red_flags (scan_all g i)).
Proof.
  unfold evaluate_fast, scan_all. rewrite first_hit_omap.
  destruct (stale_hit (thresholds g) i) as [h|]; cbn [option_list app]; [done|].
  by destruct (omap _ HOT_CHECK_ORDER).
Qed.

Lemma scan_passes g i : GateDecision.verdict (scan_all g i) = PASS ↔ safe (thresholds g) i.
Proof. rewrite <- checks_safe. unfold scan_all. by destruct (_ ++ _). Qed.
Lemma fast_passes g i : GateDecision.passed (evaluate_fast g i) = true ↔ safe (thresholds g) i.
Proof. unfold GateDecision.passed. rewrite bool_decide_eq_true, (proj1 (fast_is_scan_head g i)). apply scan_passes. Qed.

Lemma safe_tighter a b i : tighter b a → safe b i → safe a i.
Proof.
  intros [] [H0 Hd Hf Hm (z1&?&?) (z2&?&?) (z3&?&?) (z4&?&?) (z5&?&?) (z6&?&?)].
  constructor; try done; try lia; eexists; (split; [done|lia]).
Qed.

(** C21: The short-circuit evaluation and the full scan agree: same verdict, and
    the one flag the fast path reports is the first the scan lists.  Both pass
    a candidate exactly when its facts are fresh, all decoded, both
    authorities renounced, and every measure inside its bound; an undecoded
    fact never passes.  Tightening any thresholds only rejects more. *)
Theorem gate_fast_and_scan_agree g i :
  GateDecision.verdict (evaluate_fast g i) = GateDecision.verdict (scan_all g i) ∧
  GateDecision.red_flags (evaluate_fast g i) = take 1 (GateDecision.red_flags (scan_all g i)) ∧
  (GateDecision.passed (evaluate_fast g i) = true ↔ safe (thresholds g) i) ∧
  (∀ g', tighter (thresholds g') (thresholds g) →
     GateDecision.passed (evaluate_fast g' i) = true → GateDecision.passed (evaluate_fast g i) = true).
Proof.
  destruct (fast_is_scan_head g i) as [H1 H2]. split_and!; [done|done|apply fast_passes|].
  intros g' Ht H. apply fast_passes in H. apply fast_passes. by eapply safe_tighter.
Qed.

Definition sample_inputs : SafetyInputs.t :=
  SafetyInputs.mk "M" 7 1000 100 None (Some "") (Some 9900) (Some 500) (Some 2000) (Some 0) (Some 0) true (Some 40).
Definition strict_gate : PreTradeSafetyGate := mk_gate (SafetyThresholds.mk 9800 2500 20 1000 500 500 500) true.
Definition default_gate : PreTradeSafetyGate := mk_gate SafetyThresholds.default true.

Lemma gate_agree_witness :
  tighter (thresholds strict_gate) (thresholds default_gate) ∧
  GateDecision.passed (evaluate_fast default_gate sample_inputs) = true.
Proof.
  assert (Ht : tighter (thresholds strict_gate) (thresholds default_gate)) by (constructor; cbn; lia).
  split; [done|]. apply (proj2 (proj2 (proj2 (gate_fast_and_scan_agree default_gate sample_inputs))) strict_gate Ht).
  reflexivity.
Defined.

(** ** The denylist and the composed evaluation *)

Lemma check_keys_none w c m :
  check_keys c (Some m) w = None ↔
  (∀ a, c = Some a → a ∉ DenyAllowSnapshot.denied_creators (_snapshot w)) ∧
  m ∉ DenyAllowSnapshot.denied_mints (_snapshot w).
Proof.
  unfold check_keys, DenyAllowSnapshot.is_creator_denied, DenyAllowSnapshot.is_mint_denied, DenyAllowSnapshot.member.
  destruct c as [a|]; repeat case_bool_decide; naive_solver.
Qed.

(** The same denylist, whoever is trusted. *)
Definition same_denied (w w' : DenyAllowWatcher) : Prop :=
  DenyAllowSnapshot.denied_creators (_snapshot w) = DenyAllowSnapshot.denied_creators (_snapshot w') ∧
  DenyAllowSnapshot.denied_mints (_snapshot w) = DenyAllowSnapshot.denied_mints (_snapshot w').

(** Denylist first, then the whole gate, and trust buys nothing.  The
    composed evaluation passes exactly the candidates whose creator and mint
    are not denied and whose facts the gate passes; a denied one is rejected
    before the gate runs; two watchers with the same denied sets decide alike
    whatever their allowlists.  But it does not look at [enabled]: the
    evaluation meant for the entry path passes a candidate through a disabled
    gate, which [require_enabled_for_entry] alone would refuse. *)
Theorem denylist_then_gate w g i creator mint slot bt :
  let r := evaluate_with_denylist w g i creator mint slot bt in
  (PreGateResult.passed r = true ↔
     (∀ a, creator = Some a → a ∉ DenyAllowSnapshot.denied_creators (_snapshot w)) ∧
     mint ∉ DenyAllowSnapshot.denied_mints (_snapshot w) ∧ safe (thresholds g) i) ∧
  (PreGateResult.gate_decision r = None ↔ is_Some (PreGateResult.denylist_hit r)) ∧
  (∀ w', same_denied w w' →
     PreGateResult.passed (evaluate_with_denylist w' g i creator mint slot bt) = PreGateResult.passed r) ∧
  PreGateResult.passed (evaluate_with_denylist w (mk_gate (thresholds g) false) i creator mint slot bt)
    = PreGateResult.passed r ∧
  require_enabled_for_entry (mk_gate (thresholds g) false) (evaluate_fast g i) = false.
Proof.
  cbv zeta. unfold evaluate_with_denylist. pose proof (check_keys_none w creator mint) as Hc.
  split_and!; [| | | |done].
  - destruct (check_keys creator (Some mint) w) as [h|]; cbn.
    + split; [done|]. intros (H1 & H2 & _). discriminate (proj2 Hc (conj H1 H2)).
    + rewrite fast_passes. pose proof (proj1 Hc eq_refl). tauto.
  - destruct (check_keys creator (Some mint) w); cbn; [by split|]. split; [done|by intros []].
  - intros w' [H1 H2].
    assert (check_keys creator (Some mint) w' = check_keys creator (Some mint) w) as ->.
    { unfold check_keys, DenyAllowSnapshot.is_creator_denied, DenyAllowSnapshot.is_mint_denied. by rewrite H1, H2. }
    by destruct (check_keys creator (Some mint) w).
  - by destruct (check_keys creator (Some mint) w).
Qed.

Definition sample_watcher (allowed : gset string) : DenyAllowWatcher :=
  mk_watcher fzero (DenyAllowSnapshot.mk {["scammer"]} ∅ allowed ∅ 1 1 (JString "1")) fzero 1 1.

Lemma denylist_then_gate_witness :
  same_denied (sample_watcher ∅) (sample_watcher {["scammer"]}) ∧
  PreGateResult.passed (evaluate_with_denylist (sample_watcher {["scammer"]}) default_gate sample_inputs (Some "scammer") "M" 7 1000)
  = false.
Proof.
  split; [done|].
  rewrite (proj1 (proj2 (proj2 (denylist_then_gate (sample_watcher ∅) default_gate sample_inputs (Some "scammer") "M" 7 1000)))
             (sample_watcher {["scammer"]})) by done.
  vm_compute. reflexivity.
Defined.

(** *** Hot reload *)

Section Reload.
Context (json_loads : string → result json).

Inductive reload : Type := Reload (force : bool) (now : float) (fs : file_view).
Definition reload_step (r : reload) (w : DenyAllowWatcher) : result bool * DenyAllowWatcher :=
  let '(Reload force now fs) := r in maybe_reload json_loads force now fs w.

(** Each reload with what it answered. *)
Fixpoint reload_all (rs : list reload) (w : DenyAllowWatcher) : list (reload * result bool) * DenyAllowWatcher :=
  match rs with
  | [] => ([], w)
  | r :: rs => let '(o, w1) := reload_step r w in let '(os, w2) := reload_all rs w1 in ((r, o) :: os, w2)
  end.

(** The snapshot a reload read, if it swapped one in. *)
Definition swapped (x : reload * result bool) : option DenyAllowSnapshot.t :=
  match x with
  | (Reload _ _ (File mtime size (Ok text)), Ok true) =>
      match parse_snapshot json_loads text mtime size with Ok snap => Some snap | Raise _ => None end
  | _ => None
  end.

Lemma reload_step_spec r w : let '(o, w') := reload_step r w in
  match swapped (r, o) with
  | Some snap => _snapshot w' = snap ∧ _loaded_mtime_ns w' = DenyAllowSnapshot.source_mtime_ns snap ∧
                 _loaded_size w' = DenyAllowSnapshot.source_size snap
  | None => _snapshot w' = _snapshot w ∧ _loaded_mtime_ns w' = _loaded_mtime_ns w ∧ _loaded_size w' = _loaded_size w ∧
            o ≠ Ok true
  end.
Proof.
  destruct r as [force now fs]. cbn [reload_step]. unfold maybe_reload.
  destruct (negb force && fltb _ _); [by destruct fs as [| |? ? []]|].
  destruct fs as [| |mtime size text]; cbn [_load stamp]; [done|done|].
  destruct (negb force && _ && _); [by destruct text|].
  destruct text as [t|e]; cbn [mbind result_bind].
  - destruct (parse_snapshot json_loads t mtime size) as [snap|e] eqn:E; cbn [swapped].
    + rewrite E. unfold parse_snapshot in E. destruct (json_loads t) as [[]|]; cbn in E; try done.
      repeat match type of E with context [mbind _ ?x] => destruct x; cbn in E; [|done] end.
      by injection E as <-.
    + by destruct (caught e).
  - by destruct (caught e).
Qed.

(** A bad or absent file never changes the denylist.  After any sequence of
    reloads the snapshot in force is the parse of the last file the watcher
    read whole, or the one it started with: a missing, unreadable, malformed,
    throttled or unchanged file leaves it exactly as it was, and leaves the
    remembered (mtime, size) too, so a corrected file is read at the next
    reload.  An edit that keeps both is not seen unless forced. *)
Theorem reload_keeps_last_good rs w : let '(log, w') := reload_all rs w in
  _snapshot w' = default (_snapshot w) (last (omap swapped log)) ∧
  (omap swapped log = [] → _loaded_mtime_ns w' = _loaded_mtime_ns w ∧ _loaded_size w' = _loaded_size w) ∧
  (∀ now mtime size text, mtime = _loaded_mtime_ns w' → size = _loaded_size w' →
     ((maybe_reload json_loads false now (File mtime size text) w').1 = Ok false)).
Proof.
  revert w. induction rs as [|r rs IH]; intros w; cbn [reload_all].
  - split_and!; [done|done|]. intros now mtime size text -> ->. unfold maybe_reload, _load, stamp.
    destruct (negb false && fltb _ _); [done|]. cbn. by rewrite !Z.eqb_refl.
  - pose proof (reload_step_spec r w) as Hs. destruct (reload_step r w) as [o w1].
    specialize (IH w1). destruct (reload_all rs w1) as [log w2]. destruct IH as (H1 & H2 & H3).
    split_and!; [| |done].
    + cbn [omap list_omap]. destruct (swapped (r, o)) as [snap|]; [|by rewrite H1, (proj1 Hs)].
      rewrite H1. destruct (omap swapped log) as [|x l] eqn:El; [by destruct Hs|].
      change (last (snap :: x :: l)) with (last (x :: l)). by destruct (last (x :: l)) eqn:E; [|apply last_None in E].
    + cbn [omap list_omap]. destruct (swapped (r, o)) as [snap|]; [done|]. intros Hl.
      destruct (H2 Hl) as [-> ->]. by destruct Hs as (_ & -> & -> & _).
Qed.
End Reload.

Lemma reload_keeps_witness :
  let loads t := if bool_decide (t = "ok") then Ok (JObject [("denylist", JObject [("mints", JArray [JString " rug "])])])
                 else Raise (ValueError "Expecting value") in
  let '(log, w') := reload_all loads [Reload false fone (File 1 10 (Ok "ok")); Reload false fone (File 2 3 (Ok "typo")); Reload true fone NotFound]
                      (blank_watcher fzero) in
  DenyAllowSnapshot.denied_mints (_snapshot w') = {["rug"]} ∧
  (maybe_reload loads false fone (File 1 10 (Ok "typo")) w').1 = Ok false.
Proof.
  intros loads.
  pose proof (reload_keeps_last_good loads
    [Reload false fone (File 1 10 (Ok "ok")); Reload false fone (File 2 3 (Ok "typo")); Reload true fone NotFound]
    (blank_watcher fzero)) as H.
  destruct (reload_all _ _ _) as [log w'] eqn:E. destruct H as (H1 & _ & H3).
  assert (Hm : _loaded_mtime_ns w' = 1 ∧ _loaded_size w' = 10 ∧ DenyAllowSnapshot.denied_mints (_snapshot w') = {["rug"]}).
  { replace w' with (log, w').2 by done. rewrite <- E. vm_compute. done. }
  destruct Hm as (Hm1 & Hm2 & Hm3). split; [exact Hm3|]. by apply H3.
Defined.
