(* ===== verification/Haircut.v ===== *)
(** * De-risk gates: verdict, haircut, composition

    What [aats/risk/lp_unlock_gate.py], [deployer_reputation_gate.py],
    [dev_funding_age_gate.py] and [anti_fomo.py] share: a decision with a
    verdict and a conviction multiplier, the invariants its constructor
    enforces, the haircut it applies to a size, and the pre-gate that runs the
    next step unless it rejects.  A gate's decision type is an instance of
    [Decision]; the theorems here are proved against that interface. *)

From S2P Require Import Prelude Decimal DecimalOrder RiskContracts SurvivableStop Float64 FloatRepr SafetyGate.

Module Verdict.
Inductive t : Type := PASS | DOWN_WEIGHT | REJECT.
#[global] Instance eq_dec : EqDecision t.
Proof. solve_decision. Defined.
(** How much a verdict takes away. *)
Definition severity (v : t) : Z := match v with PASS => 0 | DOWN_WEIGHT => 1 | REJECT => 2 end.
End Verdict.

(** A multiplier argument; [RFloat] is a finite float, [RStr] as [NStr]. *)
Inductive ratio_in : Type := RDec (d : dec) | RInt (z : Z) | RStr (v : option dec) | RFloat (x : float) | RBool (b : bool).

(** The bool check and [Decimal(str(x))] of a thresholds class. *)
Definition ratio_value (v : ratio_in) (name : string) : result dec :=
  match v with
  | RBool _ => Raise (TypeError (name +:+ " must be Decimal/int/float/str, not bool"))
  | RDec d => Ok d
  | RInt z => Ok (dec_of_Z z)
  | RStr v => decimal_of_str v
  | RFloat x => Ok (dec_of_float x)
  end.
(** What the [from_env] of a thresholds class reads: [int(raw)] of a variable is
    given as its value, or [None] when the text is no integer; an absent or
    empty variable takes the default. *)
Definition env_int (raw : option (option Z)) (d : Z) : result Z :=
  match raw with
  | None => Ok d
  | Some (Some z) => Ok z
  | Some None => Raise (ValueError "invalid literal for int() with base 10")
  end.
Definition env_dec (raw : option (option dec)) (d : dec) : result dec :=
  match raw with None => Ok d | Some v => decimal_of_str v end.

(** [Decimal(0) <= d < Decimal(1)] and [Decimal(0) <= d <= Decimal(1)]. *)
Definition in_0_1_open (d : dec) : bool := dleb d0 d && dltb d (dec_of_Z 1).
Definition in_0_1 (d : dec) : bool := dleb d0 d && dleb d (dec_of_Z 1).
Definition deqb (a b : dec) : bool := dleb a b && dleb b a.

(** The interface: [veto_flags] lists the flags a rejection may carry, [None]
    for a decision class without red flags. *)
Class Decision (D : Type) : Type := {
  verdict : D → Verdict.t;
  conviction_multiplier : D → dec;
  red_flag_hit : D → option RedFlagHit;
  veto_flags : option (list RedFlag)
}.

Section Generic.
Context {D : Type} `{Decision D}.

Definition passed (d : D) : bool := negb (bool_decide (verdict d = Verdict.REJECT)).
Definition rejected (d : D) : bool := bool_decide (verdict d = Verdict.REJECT).
Definition down_weighted (d : D) : bool := bool_decide (verdict d = Verdict.DOWN_WEIGHT).

Definition check_no_hit (d : D) (msg : string) : result unit :=
  match veto_flags with
  | None => Ok tt
  | Some _ => guard_ok (bool_decide (red_flag_hit d = None)) (ValueError msg)
  end.
Definition check_veto_hit (d : D) : result unit :=
  match veto_flags with
  | None => Ok tt
  | Some flags =>
      match red_flag_hit d with
      | None => Raise (ValueError "a REJECT must carry a red_flag_hit (pre-gate veto contract)")
      | Some hit => guard_ok (bool_decide (flag hit ∈ flags)) (ValueError "a REJECT's red_flag_hit")
      end
  end.

(** [__post_init__] of a decision class. *)
Definition decision_new (cls : string) (d : D) : result D :=
  let m := conviction_multiplier d in
  guard_ok (in_0_1 m) (ValueError (cls +:+ ".conviction_multiplier must be in [0, 1]"));;
  match verdict d with
  | Verdict.REJECT =>
      guard_ok (deqb m d0) (ValueError "a REJECT must carry conviction_multiplier == 0");; check_veto_hit d
  | Verdict.PASS =>
      guard_ok (deqb m (dec_of_Z 1)) (ValueError "a PASS must carry conviction_multiplier == 1 (no change)");;
      check_no_hit d "a PASS must not carry a red_flag_hit"
  | Verdict.DOWN_WEIGHT =>
      guard_ok (in_0_1_open m) (ValueError "a DOWN_WEIGHT must carry conviction_multiplier in [0, 1)");;
      check_no_hit d "a DOWN_WEIGHT must not carry a red_flag_hit (it does not reject)"
  end;;
  Ok d.

(** [apply]: the haircut on an already-capped size. *)
Definition apply (d : D) (capped_size : int_arg) : result Z :=
  match capped_size with
  | IInt size =>
      if size <? 0 then Raise (ValueError "capped_size must be non-negative lamports")
      else Ok (Z.min (dec_floor (dmul (dec_of_Z size) (conviction_multiplier d))) size)
  | _ => Raise (TypeError "capped_size must be int lamports (money rule)")
  end.
End Generic.

(** *** The composed pre-gate *)

Module PreGate.
Record t (D N : Type) : Type := mk { passed : bool; decision : D; next_result : option N }.
Arguments mk {D N} passed decision next_result.
Arguments passed {D N} _.
Arguments decision {D N} _.
Arguments next_result {D N} _.
End PreGate.

(** [decision = gate.evaluate(...)], then [next_step()] unless it rejects; the
    next step may change a state of its own, and [next_passed] is
    [bool(getattr(next_result, "passed", True))]. *)
Definition evaluate_with {S D N} `{Decision D} (evaluated : result D) (next_step : M S N) (next_passed : N → bool)
    : M S (PreGate.t D N) :=
  decision ← lift evaluated;
  if rejected decision then mret (PreGate.mk false decision None)
  else
    next_result ← next_step;
    mret (PreGate.mk (next_passed next_result) decision (Some next_result)).

(** ** What every decision guarantees *)

Lemma in_0_1_unit d : in_0_1 d = true ↔ unit_dec d.
Proof.
  unfold in_0_1, unit_dec. rewrite andb_true_iff, !dleb_dle. split; intros [H1 H2]; (split; [|done]).
  - by apply (dle_nonneg_coef d0).
  - by apply dle_sign.
Qed.

Lemma open_unit m : in_0_1_open m = true → unit_dec m.
Proof.
  unfold in_0_1_open. intros [H1 H2]%andb_true_iff. apply in_0_1_unit. unfold in_0_1. rewrite H1. cbn.
  revert H2. unfold dltb, dleb. by destruct (dcompare m (dec_of_Z 1)).
Qed.
Lemma unit_1 : unit_dec (dec_of_Z 1).
Proof. by apply in_0_1_unit. Qed.
Lemma unit_0 : unit_dec d0.
Proof. by apply in_0_1_unit. Qed.
#[export] Hint Resolve unit_1 unit_0 open_unit : core.

(** The invariant a constructed decision satisfies. *)
Record decision_wf {D} `{Decision D} (d : D) : Prop := mk_decision_wf {
  dw_unit : unit_dec (conviction_multiplier d);
  dw_reject : verdict d = Verdict.REJECT → deqb (conviction_multiplier d) d0 = true;
  dw_pass : verdict d = Verdict.PASS → deqb (conviction_multiplier d) (dec_of_Z 1) = true;
  dw_down : verdict d = Verdict.DOWN_WEIGHT → in_0_1_open (conviction_multiplier d) = true;
  dw_hit : ∀ flags, veto_flags = Some flags →
    match red_flag_hit d with
    | Some hit => verdict d = Verdict.REJECT ∧ flag hit ∈ flags
    | None => verdict d ≠ Verdict.REJECT
    end
}.

Section Laws.
Context {D : Type} `{Decision D}.

Lemma decision_new_wf cls d d' : decision_new cls d = Ok d' ↔ d' = d ∧ decision_wf d.
Proof.
  unfold decision_new, check_no_hit, check_veto_hit, guard_ok. split.
  - intros E. destruct (in_0_1 _) eqn:Hu; [|done]. apply in_0_1_unit in Hu.
    destruct (verdict d) eqn:Ev;
      [destruct (deqb _ _) eqn:Ex|destruct (in_0_1_open _) eqn:Ex|destruct (deqb _ _) eqn:Ex]; cbn in E; try done;
      (destruct veto_flags as [flags|] eqn:Ef; [destruct (red_flag_hit d) as [hit|] eqn:Eh|]); cbn in E; try done;
      try (destruct (bool_decide (flag hit ∈ flags)) eqn:Hin; [bools|done]);
      injection E as <-; (split; [done|]); constructor; rewrite ?Ev, ?Eh; try done;
      intros ? E'; rewrite Ef in E'; by simplify_eq.
  - intros [-> []]. apply in_0_1_unit in dw_unit0 as ->. cbn.
    destruct (verdict d) eqn:Ev;
      [rewrite dw_pass0 by done|rewrite dw_down0 by done|rewrite dw_reject0 by done]; cbn;
      (destruct veto_flags as [flags|]; [|done]); specialize (dw_hit0 flags eq_refl);
      destruct (red_flag_hit d) as [hit|]; try (by destruct dw_hit0); try done.
    destruct dw_hit0 as [_ Hin]. by rewrite bool_decide_eq_true_2.
Qed.
Lemma decision_new_ok cls d : decision_wf d → decision_new cls d = Ok d ∧ decision_wf d.
Proof. intros H1. split; [|done]. by apply decision_new_wf. Qed.
End Laws.

Lemma dec_floor_Z z : dec_floor (dec_of_Z z) = z.
Proof. unfold dec_floor, dec_of_Z; cbn. lia. Qed.

Lemma deqb_dle a b : deqb a b = true ↔ dle a b ∧ dle b a.
Proof. unfold deqb. by rewrite andb_true_iff, !dleb_dle. Qed.

(** *** The haircut *)

(** [floor(size * m)] bounded by [size], as [apply] computes it. *)
Definition haircut (m : dec) (size : Z) : Z := Z.min (dec_floor (dmul (dec_of_Z size) m)) size.

Lemma apply_haircut {D} `{Decision D} (d : D) size :
  0 ≤ size → apply d (IInt size) = Ok (haircut (conviction_multiplier d) size).
Proof. intros Hs. unfold apply. by rewrite (proj2 (Z.ltb_ge size 0)). Qed.

Lemma haircut_bounds m size : 0 ≤ coef m → 0 ≤ size → 0 ≤ haircut m size ≤ size.
Proof.
  intros Hm Hs. unfold haircut. assert (0 ≤ dec_floor (dmul (dec_of_Z size) m)); [|lia].
  rewrite <- (dec_floor_Z 0). apply dec_floor_mono, dle_sign; cbn; [done|]. by apply dmul_nonneg.
Qed.

Lemma haircut_mono m m' size size' :
  0 ≤ coef m → 0 ≤ size → dle m m' → size ≤ size' → haircut m size ≤ haircut m' size'.
Proof.
  intros Hm Hs Hle Hs'. unfold haircut. apply Z.min_le_compat; [|done]. apply dec_floor_mono.
  apply dmul_mono; [done|done| |done]. apply (dle_at _ _ 0); unfold rescale, dec_of_Z; cbn; lia.
Qed.

Lemma haircut_zero m size : deqb m d0 = true → 0 ≤ size → haircut m size = 0.
Proof.
  intros [H1 H2]%deqb_dle Hs. assert (coef m = 0) as Hm.
  { set (k := Z.min (expo m) 0). specialize (H1 k ltac:(lia) ltac:(cbn; lia)). specialize (H2 k ltac:(cbn; lia) ltac:(lia)).
    unfold rescale in H1, H2. pose proof (Z_pow10_pos' (expo m - k) ltac:(lia)). cbn in H1, H2. nia. }
  assert (0 ≤ dec_floor (dmul (dec_of_Z size) m) ≤ 0) as H; [|unfold haircut; lia].
  unfold dmul. rewrite fix28_zero by (cbn; rewrite Hm; lia). unfold dec_floor; cbn [coef expo]. rewrite Hm, Z.mul_0_r.
  destruct (_ <=? _); by rewrite ?Zdiv_0_l.
Qed.

Lemma haircut_one m size : deqb m (dec_of_Z 1) = true → 0 ≤ size < 10 ^ 28 → haircut m size = size.
Proof.
  intros [_ H]%deqb_dle Hs. unfold haircut. assert (size ≤ dec_floor (dmul (dec_of_Z size) m)); [|lia].
  rewrite <- (dec_floor_Z size) at 1. apply dec_floor_mono.
  apply (dle_trans _ (dmul (dec_of_Z size) (dec_of_Z 1))).
  - rewrite dmul_exact; [|cbn; lia]. apply (dle_at _ _ 0); unfold rescale, dec_of_Z; cbn; lia.
  - apply dmul_mono; [cbn; lia|cbn; lia|by apply (dle_at _ _ 0)|done].
Qed.

(** ** Any decisions, one after the other *)

Inductive any_decision : Type := Any (D : Type) (HD : Decision D) (d : D).
Arguments Any {D HD} d.
Definition any_wf (a : any_decision) : Prop := match a with Any d => decision_wf d end.
Definition any_verdict (a : any_decision) : Verdict.t := match a with Any d => verdict d end.

(** The haircuts of several decisions on one size. *)
Fixpoint apply_all (ds : list any_decision) (size : Z) : result Z :=
  match ds with
  | [] => Ok size
  | Any d :: ds => size ← apply d (IInt size); apply_all ds size
  end.
#[global] Instance any_Decision : Decision any_decision := {|
  verdict := any_verdict;
  conviction_multiplier a := match a with Any d => conviction_multiplier d end;
  red_flag_hit a := match a with Any d => red_flag_hit d end;
  veto_flags := None |}.

(** Pre-gates in order around a last step. *)
Fixpoint pre_gates {S} (gates : list (result any_decision)) (last_step : M S bool) : M S bool :=
  match gates with
  | [] => last_step
  | g :: gates => r ← evaluate_with g (pre_gates gates last_step) id; mret (PreGate.passed r)
  end.

Lemma apply_all_bounds ds size : Forall any_wf ds → 0 ≤ size →
  ∃ out, apply_all ds size = Ok out ∧ 0 ≤ out ≤ size ∧
    (Exists (λ a, any_verdict a = Verdict.REJECT) ds → out = 0) ∧
    (size < 10 ^ 28 → Forall (λ a, any_verdict a = Verdict.PASS) ds → out = size).
Proof.
  intros Hds. revert size. induction Hds as [|[D HD d] ds [Hu Hrej Hpass _ _] _ IH]; intros size Hs.
  { exists size. split_and!; try done. intros H. by apply Exists_nil in H. }
  cbn [apply_all]. rewrite apply_haircut by done. cbn [mbind result_bind].
  pose proof (haircut_bounds _ _ (proj1 Hu) Hs) as Hb. destruct (IH _ (proj1 Hb)) as (out & -> & Ho & Hr & Hp).
  exists out. split_and!; [done|lia|lia| |].
  - intros [H|H]%Exists_cons; [|by apply Hr]. cbn in H. rewrite (haircut_zero _ _ (Hrej H) Hs) in Ho. lia.
  - intros Hlt [H H']%Forall_cons. cbn in H. rewrite (haircut_one _ _ (Hpass H)) in Hp by lia. by apply Hp.
Qed.

(** A decision some class's constructor returned. *)
Inductive built : any_decision → Prop :=
| built_new D (HD : Decision D) cls (d0 d : D) : decision_new cls d0 = Ok d → built (Any d).

Lemma built_wf a : built a → any_wf a.
Proof. intros [D HD cls d0 d E]. by apply decision_new_wf in E as [-> H]. Qed.
Lemma all_built_wf ds : Forall built ds → Forall any_wf ds.
Proof. intros H. eapply Forall_impl; [exact H|]. apply built_wf. Qed.

Lemma apply_all_shrinks ds more size out out' : Forall any_wf ds → Forall any_wf more → 0 ≤ size →
  apply_all ds size = Ok out → apply_all (ds ++ more) size = Ok out' → out' ≤ out.
Proof.
  intros Hds Hm. revert size. induction ds as [|[D HD d] ds IH]; intros size Hs; cbn [apply_all app].
  - intros [= <-] E. destruct (apply_all_bounds more size Hm Hs) as (o & E' & Ho & _). rewrite E in E'. simplify_eq. lia.
  - apply Forall_cons in Hds as [[Hu _ _ _ _] Hds]. rewrite apply_haircut by done. cbn [mbind result_bind].
    apply IH; [done|]. by apply haircut_bounds; [apply Hu|].
Qed.

Lemma pre_gates_pass {S} pre gates (step : M S bool) s : Forall (λ a, any_verdict a ≠ Verdict.REJECT) pre →
  pre_gates ((Ok <$> pre) ++ gates) step s = pre_gates gates step s.
Proof.
  induction 1 as [|a pre Ha _ IH]; [done|]. cbn [fmap list_fmap app pre_gates].
  unfold evaluate_with, rejected. change (verdict a) with (any_verdict a). mstep.
  rewrite bool_decide_eq_false_2 by done. mstep. rewrite IH.
  by destruct (pre_gates gates step s) as [[]].
Qed.

(** C37: A stack of de-risk gates can only take away.  Take decisions that
    constructors returned - whose guards put the multiplier in [0, 1], at 0 for
    a REJECT and at 1 for a PASS.  Applied to a size one after the other they
    return a size between zero and what they were given: zero as soon as one
    rejects, the size itself (below 10^28 lamports) when all pass, and never
    more for a larger list of decisions.  In front of a last step, gates that do
    not reject let it run, whatever it does; the first gate that rejects answers
    "not passed", and the first that raises raises, with nothing after it run. *)
Theorem gates_only_take_away ds size : Forall built ds → 0 ≤ size →
  (∃ out, apply_all ds size = Ok out ∧ 0 ≤ out ≤ size ∧
     (Exists (λ a, any_verdict a = Verdict.REJECT) ds → out = 0) ∧
     (size < 10 ^ 28 → Forall (λ a, any_verdict a = Verdict.PASS) ds → out = size)) ∧
  (∀ more out out', Forall built more →
     apply_all ds size = Ok out → apply_all (ds ++ more) size = Ok out' → out' ≤ out) ∧
  ∀ S (step : M S bool) (s : S) rest, Forall (λ a, any_verdict a ≠ Verdict.REJECT) ds →
    pre_gates (Ok <$> ds) step s = step s ∧
    (∀ d, any_verdict d = Verdict.REJECT →
       pre_gates ((Ok <$> ds) ++ Ok d :: rest) step s = (Ok false, s)) ∧
    (∀ e, pre_gates ((Ok <$> ds) ++ Raise e :: rest) step s = (Raise e, s)).
Proof.
  intros Hds%all_built_wf Hs. split_and!; [by apply apply_all_bounds| |].
  - intros more out out' Hm%all_built_wf. by apply apply_all_shrinks.
  - intros S step s rest Hp. split_and!.
    + rewrite <- (app_nil_r (Ok <$> ds)), pre_gates_pass by done. done.
    + intros d Hd. rewrite pre_gates_pass by done. cbn [pre_gates]. unfold evaluate_with, rejected.
      change (verdict d) with (any_verdict d). mstep. by rewrite bool_decide_eq_true_2.
    + intros e. rewrite pre_gates_pass by done. cbn [pre_gates]. unfold evaluate_with. by mstep.
Qed.
