(* ===== verification/ExitEngine.v ===== *)
(** * The exit engine: [aats/risk/exit_engine.py]

    Configuration with every validator, the per-position lifecycle state, the
    ordered per-tick hierarchy and the shipped presets. *)

From S2P Require Import Prelude Decimal Intents SurvivableStop.

Definition _FULL_EXIT_BPS : Z := 10000.
Definition _BPS_DENOM : dec := dec_of_Z 10000.
Definition d1 : dec := dec_of_Z 1.

(** Unlike the stop's coercion this one refuses [bool]. *)
Definition _to_decimal_price (value : num_in) (field_name : string) : result dec :=
  match value with
  | NBool _ => Raise (TypeError (field_name +:+ " must be Decimal/int/str, got bool"))
  | NFloat _ => Raise (TypeError (field_name +:+ " must be Decimal/int/str, got float"))
  | NDec d => Ok d
  | NInt z => Ok (dec_of_Z z)
  | NStr v => decimal_of_str v
  end.

(** [MevExitMode]: its two values are those of the intent's [exit_mode]. *)
Abbreviation FAST := fast.
Abbreviation SECURE := secure.
Definition mode_value (m : exit_mode) : string := match m with secure => "secure" | fast => "fast" end.

Module MevSlippageModel.
Record t : Type := mk { exit_slippage_bps : Z; sandwich_p_bps : Z; sandwich_loss_bps : Z }.
Definition _bps_field (name : string) (v : pynum) : result Z :=
  match v with
  | PyFloat _ => Raise (TypeError ("MevSlippageModel." +:+ name +:+ " must be int (bps)"))
  | PyInt z => if z <? 0 then Raise (ValueError ("MevSlippageModel." +:+ name +:+ " must be >= 0 bps")) else Ok z
  end.
Definition new (slip p loss : pynum) : result t :=
  s ← _bps_field "exit_slippage_bps" slip;
  q ← _bps_field "sandwich_p_bps" p;
  l ← _bps_field "sandwich_loss_bps" loss;
  if _FULL_EXIT_BPS <? q then Raise (ValueError "sandwich_p_bps must be <= 10000") else Ok (mk s q l).
End MevSlippageModel.

Definition FAST_SLIPPAGE : result MevSlippageModel.t := MevSlippageModel.new (PyInt 150) (PyInt 3000) (PyInt 1200).
Definition SECURE_SLIPPAGE : result MevSlippageModel.t := MevSlippageModel.new (PyInt 250) (PyInt 800) (PyInt 400).
Definition slippage_model_for (mode : exit_mode) : result MevSlippageModel.t :=
  if bool_decide (mode = FAST) then FAST_SLIPPAGE else SECURE_SLIPPAGE.

(** ** Configuration *)

Module TpRung.
Record t : Type := mk { trigger_r : dec; fraction_bps : Z }.
Definition new (trigger : num_in) (fraction : pynum) : result t :=
  trig ← _to_decimal_price trigger "TpRung.trigger_r";
  if dleb trig d0 then Raise (ValueError "TpRung.trigger_r must be > 0")
  else match fraction with
       | PyFloat _ => Raise (TypeError "TpRung.fraction_bps must be int (bps)")
       | PyInt f => if negb ((1 <=? f) && (f <=? 9999))
                    then Raise (ValueError "TpRung.fraction_bps must be in [1, 9999]")
                    else Ok (mk trig f)
       end.
End TpRung.

Module RatchetRung.
Record t : Type := mk { at_r : dec; lock_r : dec }.
Definition new (at_ lock : num_in) : result t :=
  a ← _to_decimal_price at_ "RatchetRung.at_r";
  l ← _to_decimal_price lock "RatchetRung.lock_r";
  if dleb a d1 then Raise (ValueError "RatchetRung.at_r must be > 1")
  else if dleb l d0 then Raise (ValueError "RatchetRung.lock_r must be > 0")
  else if dleb a l then Raise (ValueError "RatchetRung.lock_r must be < at_r")
  else Ok (mk a l).
End RatchetRung.

Module ExitConfig.
Record t : Type := mk {
  label : string;
  tp_ladder : list TpRung.t;
  hard_stop_r : dec;
  trail_arm_r : dec;
  trail_drawdown_bps : Z;
  max_hold_steps : Z;
  ratchet_ladder : list RatchetRung.t;
  time_stop_hours : option Z;
  time_stop_flat_band_bps : Z;
  time_stop_narrative_cooled_at : dec;
  default_exit_mode : exit_mode
}.

Fixpoint check_ladder (rungs : list TpRung.t) (prev : dec) (cumulative : Z) : result Z :=
  match rungs with
  | [] => Ok cumulative
  | rung :: rungs =>
      if dleb (TpRung.trigger_r rung) prev
      then Raise (ValueError "ExitConfig.tp_ladder rungs must be strictly ascending in trigger_r")
      else check_ladder rungs (TpRung.trigger_r rung) (cumulative + TpRung.fraction_bps rung)
  end.

Fixpoint check_ratchet (rungs : list RatchetRung.t) (prev_at prev_lock : dec) : result unit :=
  match rungs with
  | [] => Ok tt
  | r :: rungs =>
      if dleb (RatchetRung.at_r r) prev_at
      then Raise (ValueError "ExitConfig.ratchet_ladder rungs must be strictly ascending in at_r")
      else if dleb (RatchetRung.lock_r r) prev_lock
      then Raise (ValueError "ExitConfig.ratchet_ladder rungs must be strictly ascending in lock_r")
      else check_ratchet rungs (RatchetRung.at_r r) (RatchetRung.lock_r r)
  end.

(** An integer field that refuses floats, and its range test. *)
Definition int_in (v : pynum) (name : string) (ok : Z → bool) : result Z :=
  match v with
  | PyFloat _ => Raise (TypeError ("ExitConfig." +:+ name +:+ " must be int, not float/bool"))
  | PyInt z => if ok z then Ok z else Raise (ValueError ("ExitConfig." +:+ name +:+ " out of range"))
  end.

(** [__post_init__], test by test. *)
Definition new (label : string) (ladder : list TpRung.t) (hard_stop trail_arm : num_in)
    (drawdown max_hold : pynum) (ratchet : list RatchetRung.t) (hours : option pynum)
    (band : pynum) (cooled_at : num_in) (mode : exit_mode) : result t :=
  if bool_decide (label = "") then Raise (ValueError "ExitConfig.label must be a non-empty str")
  else
    hs ← _to_decimal_price hard_stop "ExitConfig.hard_stop_r";
    ta ← _to_decimal_price trail_arm "ExitConfig.trail_arm_r";
    if negb (dltb d0 hs && dltb hs d1) then Raise (ValueError "ExitConfig.hard_stop_r must be in (0, 1)")
    else if dleb ta d1 then Raise (ValueError "ExitConfig.trail_arm_r must be > 1")
    else
      dd ← int_in drawdown "trail_drawdown_bps" (λ z, (0 <? z) && (z <? _FULL_EXIT_BPS));
      mh ← int_in max_hold "max_hold_steps" (λ z, 0 <? z);
      h ← (match hours with
           | None => Ok None
           | Some v => z ← int_in v "time_stop_hours" (λ z, 0 <? z); Ok (Some z)
           end);
      fb ← int_in band "time_stop_flat_band_bps" (λ z, (0 <? z) && (z <=? _FULL_EXIT_BPS));
      cooled ← _to_decimal_price cooled_at "ExitConfig.time_stop_narrative_cooled_at";
      if negb (dleb d0 cooled && dleb cooled d1)
      then Raise (ValueError "ExitConfig.time_stop_narrative_cooled_at must be a Decimal in [0, 1]")
      else match ladder with
           | [] => Raise (ValueError "ExitConfig.tp_ladder must be a non-empty tuple of TpRung")
           | _ =>
               cumulative ← check_ladder ladder d0 0;
               if _FULL_EXIT_BPS <? cumulative
               then Raise (ValueError "ExitConfig.tp_ladder cumulative fraction_bps must be <= 10000")
               else
                 _ ← check_ratchet ratchet d0 d0;
                 Ok (mk label ladder hs ta dd mh ratchet h fb cooled mode)
           end.

Definition stop_thresholds (c : t) : result StopThresholds.t :=
  StopThresholds.new (PyInt (dec_int (dmul (dsub d1 (hard_stop_r c)) _BPS_DENOM))).
End ExitConfig.

(** ** Presets *)

(** [Decimal("1.5")] is [dq 15 1]. *)
Definition dq (c k : Z) : num_in := NDec (mkdec c (- k)).

Fixpoint all_ok {A} (rs : list (result A)) : result (list A) :=
  match rs with [] => Ok [] | r :: rs => a ← r; l ← all_ok rs; Ok (a :: l) end.

Definition _BALANCED_LADDER : result (list TpRung.t) := all_ok
  [TpRung.new (dq 15 1) (PyInt 3000); TpRung.new (dq 30 1) (PyInt 3000); TpRung.new (dq 60 1) (PyInt 2000)].

Definition _BALANCED_RATCHET : result (list RatchetRung.t) := all_ok
  [RatchetRung.new (dq 15 1) (dq 9 1); RatchetRung.new (dq 20 1) (dq 10 1);
   RatchetRung.new (dq 30 1) (dq 20 1); RatchetRung.new (dq 60 1) (dq 40 1)].

(** A preset without the time stop: the dataclass defaults. *)
Definition plain_preset (label : string) (ladder : result (list TpRung.t)) (hs ta : num_in)
    (dd mh : Z) (ratchet : result (list RatchetRung.t)) (mode : exit_mode) : result ExitConfig.t :=
  l ← ladder; r ← ratchet;
  ExitConfig.new label l hs ta (PyInt dd) (PyInt mh) r None (PyInt 1500) (NInt 0) mode.

Definition AUTO_STRAT_PRESETS : list (string * result ExitConfig.t) :=
  [("secure_balanced",
    plain_preset "secure_balanced" _BALANCED_LADDER (dq 60 2) (dq 20 1) 3000 24 _BALANCED_RATCHET SECURE);
   ("fast_balanced",
    plain_preset "fast_balanced" _BALANCED_LADDER (dq 60 2) (dq 20 1) 3000 24 _BALANCED_RATCHET FAST);
   ("secure_conservative",
    plain_preset "secure_conservative"
      (all_ok [TpRung.new (dq 13 1) (PyInt 4000); TpRung.new (dq 20 1) (PyInt 3500); TpRung.new (dq 40 1) (PyInt 2000)])
      (dq 70 2) (dq 15 1) 2000 16
      (all_ok [RatchetRung.new (dq 13 1) (dq 95 2); RatchetRung.new (dq 15 1) (dq 10 1);
               RatchetRung.new (dq 20 1) (dq 14 1); RatchetRung.new (dq 40 1) (dq 30 1)]) SECURE);
   ("secure_balanced_timestop",
    l ← _BALANCED_LADDER; r ← _BALANCED_RATCHET;
    ExitConfig.new "secure_balanced_timestop" l (dq 60 2) (dq 20 1) (PyInt 3000) (PyInt 24) r
      (Some (PyInt 6)) (PyInt 1500) (dq 2 1) SECURE);
   ("secure_runner",
    plain_preset "secure_runner"
      (all_ok [TpRung.new (dq 20 1) (PyInt 2000); TpRung.new (dq 50 1) (PyInt 2500); TpRung.new (dq 100 1) (PyInt 2500)])
      (dq 55 2) (dq 30 1) 3500 30
      (all_ok [RatchetRung.new (dq 20 1) (dq 9 1); RatchetRung.new (dq 30 1) (dq 10 1);
               RatchetRung.new (dq 50 1) (dq 25 1); RatchetRung.new (dq 100 1) (dq 60 1)]) SECURE)].

Definition DEFAULT_PRESET_LABEL : string := "secure_balanced".

Definition preset (label : option string) : result ExitConfig.t :=
  let label := default DEFAULT_PRESET_LABEL label in
  match list_find (λ p, p.1 = label) AUTO_STRAT_PRESETS with
  | Some (_, (_, c)) => c
  | None => Raise (KeyError "unknown auto-strat preset")
  end.

(** ** Lifecycle state *)

Module ExitState.
Record t : Type := mk {
  mint : string;
  entry_fill_price : dec;
  stop : StopState.t;
  remaining_bps : Z;
  fired_rungs : gset nat;
  peak_r : dec;
  armed : bool;
  steps_held : Z;
  locked_floor_r : dec;
  fired_ratchet_rungs : gset nat;
  entry_block_time_ms : Z;
  last_active_block_time_ms : Z
}.

Definition __post_init__ (s : t) : result t :=
  if dleb (entry_fill_price s) d0 then Raise (ValueError "ExitState.entry_fill_price must be > 0")
  else if negb ((0 <=? remaining_bps s) && (remaining_bps s <=? _FULL_EXIT_BPS))
  then Raise (ValueError "ExitState.remaining_bps must be in [0, 10000]")
  else if negb (bool_decide (StopState.mint (stop s) = mint s))
  then Raise (ValueError "ExitState.stop.mint must match mint")
  else if steps_held s <? 0 then Raise (ValueError "ExitState.steps_held must be >= 0")
  else if dltb (locked_floor_r s) d0 then Raise (ValueError "ExitState.locked_floor_r must be >= 0")
  else if entry_block_time_ms s <? -1 then Raise (ValueError "ExitState.entry_block_time_ms must be >= -1")
  else if last_active_block_time_ms s <? -1
  then Raise (ValueError "ExitState.last_active_block_time_ms must be >= -1")
  else Ok s.

Definition at_entry (mint : string) (entry_fill_price : num_in) (config : ExitConfig.t) : result t :=
  entry ← _to_decimal_price entry_fill_price "entry_fill_price";
  th ← ExitConfig.stop_thresholds config;
  stop ← StopState.at_entry mint (NDec entry) (Some th);
  __post_init__ (mk mint entry stop _FULL_EXIT_BPS ∅ d1 false 0 d0 ∅ (-1) (-1)).

Definition realized_r (s : t) (mark_price : num_in) : result dec :=
  mark ← _to_decimal_price mark_price "mark_price";
  ddiv mark (entry_fill_price s).

(** [_replace]: [s'] is [s] with the changes merged in. *)
Definition _replace (s s' : t) : result t :=
  if remaining_bps s <? remaining_bps s'
  then Raise (ValueError "ExitState transition refused: remaining_bps may only DECREASE")
  else if dltb (locked_floor_r s') (locked_floor_r s)
  then Raise (ValueError "ExitState transition refused: locked_floor_r may only RISE")
  else __post_init__ s'.

Definition with_peak_step (p : dec) (n : Z) (s : t) : t :=
  mk (mint s) (entry_fill_price s) (stop s) (remaining_bps s) (fired_rungs s) p (armed s) n
     (locked_floor_r s) (fired_ratchet_rungs s) (entry_block_time_ms s) (last_active_block_time_ms s).
Definition with_armed (s : t) : t :=
  mk (mint s) (entry_fill_price s) (stop s) (remaining_bps s) (fired_rungs s) (peak_r s) true (steps_held s)
     (locked_floor_r s) (fired_ratchet_rungs s) (entry_block_time_ms s) (last_active_block_time_ms s).
Definition with_floor (f : dec) (engaged : gset nat) (s : t) : t :=
  mk (mint s) (entry_fill_price s) (stop s) (remaining_bps s) (fired_rungs s) (peak_r s) (armed s) (steps_held s)
     f engaged (entry_block_time_ms s) (last_active_block_time_ms s).
Definition with_clock (entry last : Z) (s : t) : t :=
  mk (mint s) (entry_fill_price s) (stop s) (remaining_bps s) (fired_rungs s) (peak_r s) (armed s) (steps_held s)
     (locked_floor_r s) (fired_ratchet_rungs s) entry last.
Definition with_remaining (n : Z) (fired : gset nat) (s : t) : t :=
  mk (mint s) (entry_fill_price s) (stop s) n fired (peak_r s) (armed s) (steps_held s)
     (locked_floor_r s) (fired_ratchet_rungs s) (entry_block_time_ms s) (last_active_block_time_ms s).
End ExitState.

(** ** Decisions *)

Inductive ExitReason : Type :=
| NONE | NARRATIVE_FAILURE | INSIDER_DUMP | SELLABILITY_DEGRADED | LP_UNLOCK_APPROACHING
| HARD_STOP | RATCHET_STOP | TRAILING_STOP | TIMEOUT | STALE_NARRATIVE_TIME_STOP | TAKE_PROFIT.
#[export] Instance ExitReason_eq_dec : EqDecision ExitReason.
Proof. solve_decision. Defined.

Definition reason_value (r : ExitReason) : string :=
  match r with
  | NONE => "none" | NARRATIVE_FAILURE => "narrative_failure" | INSIDER_DUMP => "insider_dump"
  | SELLABILITY_DEGRADED => "sellability_degraded" | LP_UNLOCK_APPROACHING => "lp_unlock_approaching"
  | HARD_STOP => "hard_stop" | RATCHET_STOP => "ratchet_stop" | TRAILING_STOP => "trailing_stop"
  | TIMEOUT => "timeout" | STALE_NARRATIVE_TIME_STOP => "stale_narrative_time_stop"
  | TAKE_PROFIT => "take_profit"
  end.

Record ExitDecision : Type := mk_decision {
  d_reason : ExitReason;
  d_intent : option Intent;
  d_next_state : ExitState.t;
  d_fraction_bps : Z;
  d_exit_mode : option exit_mode
}.

Definition is_exit (d : ExitDecision) : bool := match d_intent d with Some _ => true | None => false end.
Definition is_full_exit (d : ExitDecision) : bool :=
  match d_intent d with Some (Exit _) => true | _ => false end.

(** ** The engine *)

Section Engine.
Context (config : ExitConfig.t).

Definition _hold (s : ExitState.t) : result ExitDecision := Ok (mk_decision NONE None s 0 None).

Definition _full_exit (s : ExitState.t) (block_time_ms : Z) (reason : ExitReason) (detail : string)
    : result ExitDecision :=
  let client_intent_id :=
    "exit_eng:" +:+ reason_value reason +:+ ":" +:+ ExitState.mint s +:+ ":" +:+ pretty block_time_ms in
  intent ← DeRiskIntentFactory.exit client_intent_id (ExitState.mint s) _FULL_EXIT_BPS SECURE
             (reason_value reason +:+ ": " +:+ detail);
  next_state ← ExitState._replace s (ExitState.with_remaining 0 (ExitState.fired_rungs s) s);
  Ok (mk_decision reason (Some intent) next_state _FULL_EXIT_BPS (Some SECURE)).

(** [int(a / b)]: the quotient of two small integers, truncated; the binary64
    quotient of integers below 2^53 truncates to the same integer here since a
    non-integer [a / 10000] with [a <= 10^8] is at least 10^-4 below the next
    integer. *)
Definition int_of_quotient (a b : Z) : Z := Z.quot a b.

Definition _scale_out (s : ExitState.t) (block_time_ms : Z) (rung_idx : nat) : result ExitDecision :=
  match ExitConfig.tp_ladder config !! rung_idx with
  | None => Raise (IndexError "tuple index out of range")
  | Some rung =>
      let frac_of_remaining := Z.min (TpRung.fraction_bps rung) (ExitState.remaining_bps s) in
      let reduce_bps := frac_of_remaining in
      let mode := ExitConfig.default_exit_mode config in
      let client_intent_id :=
        "exit_eng:tp:" +:+ ExitState.mint s +:+ ":" +:+ pretty block_time_ms +:+ ":" +:+ dec_str (TpRung.trigger_r rung) in
      let reason :=
        "take_profit: rung@" +:+ dec_str (TpRung.trigger_r rung) +:+ "x hit; scaling out " +:+ pretty reduce_bps
        +:+ " bps of remaining (" +:+ mode_value mode +:+ " routing)" in
      let sold_of_original := int_of_quotient (ExitState.remaining_bps s * reduce_bps) _FULL_EXIT_BPS in
      let new_remaining := ExitState.remaining_bps s - sold_of_original in
      let fired := ExitState.fired_rungs s ∪ {[rung_idx]} in
      next_state ← ExitState._replace s (ExitState.with_remaining new_remaining fired s);
      if new_remaining <=? 0 then
        intent ← DeRiskIntentFactory.exit client_intent_id (ExitState.mint s) _FULL_EXIT_BPS mode
                   (reason +:+ " [consumed remainder -> full exit]");
        next ← ExitState._replace s (ExitState.with_remaining 0 fired s);
        Ok (mk_decision TAKE_PROFIT (Some intent) next _FULL_EXIT_BPS (Some mode))
      else
        reduce_intent ← DeRiskIntentFactory.reduce client_intent_id (ExitState.mint s) reduce_bps reason;
        Ok (mk_decision TAKE_PROFIT (Some reduce_intent) next_state reduce_bps (Some mode))
  end.

(** The rung loop of [_advance_ratchet]: [idx] counts from [enumerate]. *)
Fixpoint ratchet_loop (peak : dec) (ladder : list RatchetRung.t) (idx : nat) (engaged : gset nat) (floor : dec)
    : gset nat * dec :=
  match ladder with
  | [] => (engaged, floor)
  | r :: ladder =>
      if dleb (RatchetRung.at_r r) peak then
        ratchet_loop peak ladder (S idx) ({[idx]} ∪ engaged)
          (if dltb floor (RatchetRung.lock_r r) then RatchetRung.lock_r r else floor)
      else ratchet_loop peak ladder (S idx) engaged floor
  end.

Definition dec_eqb (a b : dec) : bool := match dcompare a b with Eq => true | _ => false end.

Definition _advance_ratchet (s : ExitState.t) : result ExitState.t :=
  match ExitConfig.ratchet_ladder config with
  | [] => Ok s
  | ladder =>
      let '(engaged, new_floor) :=
        ratchet_loop (ExitState.peak_r s) ladder 0 (ExitState.fired_ratchet_rungs s) (ExitState.locked_floor_r s) in
      if dec_eqb new_floor (ExitState.locked_floor_r s) && bool_decide (engaged = ExitState.fired_ratchet_rungs s)
      then Ok s
      else ExitState._replace s (ExitState.with_floor new_floor engaged s)
  end.

(** The loop of [_highest_hit_rung]. *)
Fixpoint hit_loop (fired : gset nat) (r : dec) (ladder : list TpRung.t) (idx : nat) (best : option nat) (best_trigger : dec)
    : option nat :=
  match ladder with
  | [] => best
  | rung :: ladder =>
      if bool_decide (idx ∈ fired) then hit_loop fired r ladder (S idx) best best_trigger
      else if dleb (TpRung.trigger_r rung) r && dltb best_trigger (TpRung.trigger_r rung)
      then hit_loop fired r ladder (S idx) (Some idx) (TpRung.trigger_r rung)
      else hit_loop fired r ladder (S idx) best best_trigger
  end.
Definition _highest_hit_rung (s : ExitState.t) (r : dec) : option nat :=
  hit_loop (ExitState.fired_rungs s) r (ExitConfig.tp_ladder config) 0 None d0.

Definition _coerce_narrative_score (value : option num_in) : result (option dec) :=
  match value with
  | None => Ok None
  | Some v =>
      score ← (match v with
               | NBool _ => Raise (TypeError "narrative_score must be Decimal/int/str or None, got bool")
               | NFloat _ => Raise (TypeError "narrative_score must be Decimal/int/str or None, got float")
               | NDec d => Ok d
               | NInt z => Ok (dec_of_Z z)
               | NStr w => decimal_of_str w
               end);
      if negb (dleb d0 score && dleb score d1)
      then Raise (ValueError "narrative_score must be a normalized value in [0, 1]")
      else Ok (Some score)
  end.

Definition dabs (d : dec) : dec := fix28 (mkdec (Z.abs (coef d)) (expo d)).

Definition _advance_flat_clock (s : ExitState.t) (r : dec) (block_time_ms : Z) : result ExitState.t :=
  if ExitState.entry_block_time_ms s <? 0
  then ExitState._replace s (ExitState.with_clock block_time_ms block_time_ms s)
  else
    let deviation_bps := dmul (dabs (dsub r d1)) _BPS_DENOM in
    if dltb (dec_of_Z (ExitConfig.time_stop_flat_band_bps config)) deviation_bps
    then ExitState._replace s (ExitState.with_clock (ExitState.entry_block_time_ms s) block_time_ms s)
    else Ok s.

Definition _time_stop_detail (s : ExitState.t) (narrative_score : option dec) (block_time_ms : Z)
    : result (option string) :=
  match ExitConfig.time_stop_hours config, narrative_score with
  | None, _ | _, None => Ok None
  | Some hours, Some score =>
      if dltb (ExitConfig.time_stop_narrative_cooled_at config) score then Ok None
      else if ExitState.last_active_block_time_ms s <? 0 then Ok None
      else
        let flat_ms := block_time_ms - ExitState.last_active_block_time_ms s in
        if flat_ms <? 0 then Ok None
        else
          let horizon_ms := hours * 3600000 in
          if flat_ms <? horizon_ms then Ok None
          else
            flat_hours ← ddiv (dec_of_Z flat_ms) (dec_of_Z 3600000);
            Ok (Some ("flat " +:+ dec_str flat_hours +:+ "h (>= " +:+ pretty hours +:+ "h) within +/-"
                      +:+ pretty (ExitConfig.time_stop_flat_band_bps config)
                      +:+ "bps of entry AND narrative cooled (score " +:+ dec_str score +:+ " <= "
                      +:+ dec_str (ExitConfig.time_stop_narrative_cooled_at config)
                      +:+ "); stale bag force-exited"))
  end.

(** What one tick supplies. *)
Record tick : Type := mk_tick {
  mark_price : num_in;
  block_time_ms : pynum;
  narrative_failure_flag : bool;
  insider_dump_flag : bool;
  sellability_degraded_flag : bool;
  lp_unlock_approaching_flag : bool;
  narrative_score : option num_in
}.

(** [on_tick] up to the flat clock: the state the rules are evaluated on. *)
Definition stepped_state (s : ExitState.t) (r : dec) (bt : Z) : result ExitState.t :=
  let new_peak := if dltb (ExitState.peak_r s) r then r else ExitState.peak_r s in
  stepped ← ExitState._replace s (ExitState.with_peak_step new_peak (ExitState.steps_held s + 1) s);
  stepped ← (if negb (ExitState.armed stepped) && dleb (ExitConfig.trail_arm_r config) r
             then ExitState._replace stepped (ExitState.with_armed stepped) else Ok stepped);
  stepped ← _advance_ratchet stepped;
  _advance_flat_clock stepped r bt.

Definition trail_floor (s : ExitState.t) : result dec :=
  ddiv (dmul (ExitState.peak_r s) (dsub _BPS_DENOM (dec_of_Z (ExitConfig.trail_drawdown_bps config)))) _BPS_DENOM.

(** The floor exists only once armed. *)
Definition breaches_trail (r : dec) (floor : option dec) : bool :=
  match floor with Some f => dleb r f | None => false end.

(** The ordered rules. *)
Definition rules (s : ExitState.t) (r mark : dec) (bt : Z) (t : tick) (score : option dec) : result ExitDecision :=
  if narrative_failure_flag t then _full_exit s bt NARRATIVE_FAILURE 
    "SLOW-loop reasoner forced a catastrophic exit (manufactured/abandoned sentiment)"
  else if insider_dump_flag t then _full_exit s bt INSIDER_DUMP 
    ("insider/dev-sell dump flag pre-set off-hot-path "
     +:+ "(creator/top-holder distribution crossed threshold); rug-in-progress")
  else if sellability_degraded_flag t
  then _full_exit s bt SELLABILITY_DEGRADED 
    ("sellability_degraded flag pre-set off-hot-path (SLOW-loop "
     +:+ "sell-sim re-probe: delayed honeypot / tax-flip / inconclusive-refuse); "
     +:+ "exit while an exit is still possible")
  else if lp_unlock_approaching_flag t
  then _full_exit s bt LP_UNLOCK_APPROACHING 
    ("lp_unlock_approaching flag pre-set off-hot-path (SLOW-loop "
     +:+ "LP-unlock watcher: time-locked LP unlock within near horizon / "
     +:+ "undecodable schedule); pullable-LP window is a rising rug risk")
  else
    breached ← StopState.is_breached (ExitState.stop s) (NDec mark);
    if (breached : bool) then
      _full_exit s bt HARD_STOP ("mark (" +:+ dec_str mark +:+ ") <= fixed hard-stop trigger ("
                                 +:+ dec_str (StopState.trigger_price (ExitState.stop s)) +:+ ")")
    else if dltb d0 (ExitState.locked_floor_r s) && dleb r (ExitState.locked_floor_r s) then
      _full_exit s bt RATCHET_STOP ("R (" +:+ dec_str r +:+ ") <= locked profit floor ("
                                    +:+ dec_str (ExitState.locked_floor_r s) +:+ "x of entry); "
                                    +:+ "profit-lock ratchet force-exited the remainder")
    else
      trail_floor_r ← (if ExitState.armed s then f ← trail_floor s; Ok (Some f) else Ok None);
      if breaches_trail r trail_floor_r
      then _full_exit s bt TRAILING_STOP
             ("R (" +:+ dec_str r +:+ ") <= trailing floor (" +:+ dec_str (default d0 trail_floor_r) +:+ ") = peakR ("
              +:+ dec_str (ExitState.peak_r s) +:+ ") * (1 - " +:+ pretty (ExitConfig.trail_drawdown_bps config) +:+ "bps)")
      else if ExitConfig.max_hold_steps config <=? ExitState.steps_held s
      then _full_exit s bt TIMEOUT ("max_hold_steps (" +:+ pretty (ExitConfig.max_hold_steps config) +:+ ") reached")
      else
        ts_detail ← _time_stop_detail s score bt;
        match ts_detail with
        | Some detail => _full_exit s bt STALE_NARRATIVE_TIME_STOP detail
        | None =>
            match _highest_hit_rung s r with
            | Some hit_idx => _scale_out s bt hit_idx
            | None => _hold s
            end
        end.

Definition on_tick (state : ExitState.t) (t : tick) : result ExitDecision :=
  match block_time_ms t with
  | PyFloat _ => Raise (TypeError "block_time_ms must be int (event-time ms)")
  | PyInt bt =>
      if bt <? 0 then Raise (ValueError "block_time_ms must be non-negative (event-time)")
      else
        narr_score ← _coerce_narrative_score (narrative_score t);
        mark ← _to_decimal_price (mark_price t) "mark_price";
        if ExitState.remaining_bps state <=? 0 then _hold state
        else
          r ← ExitState.realized_r state (NDec mark);
          stepped ← stepped_state state r bt;
          rules stepped r mark bt t narr_score
  end.

(** The orchestrator's loop: thread [next_state] to the next tick. *)
Fixpoint run_ticks (s : ExitState.t) (ts : list tick) : result (list ExitDecision * ExitState.t) :=
  match ts with
  | [] => Ok ([], s)
  | t :: ts =>
      d ← on_tick s t;
      '(ds, s') ← run_ticks (d_next_state d) ts;
      Ok (d :: ds, s')
  end.
End Engine.

(** ** Well-formed states and their order *)

Definition state_wf (s : ExitState.t) : Prop := ExitState.__post_init__ s = Ok s.

Record wf_fields (s : ExitState.t) : Prop := {
  wf_entry : 0 < coef (ExitState.entry_fill_price s);
  wf_remaining : 0 ≤ ExitState.remaining_bps s ≤ 10000;
  wf_mint : StopState.mint (ExitState.stop s) = ExitState.mint s;
  wf_steps : 0 ≤ ExitState.steps_held s;
  wf_floor : dle d0 (ExitState.locked_floor_r s);
  wf_entry_bt : -1 ≤ ExitState.entry_block_time_ms s;
  wf_last_bt : -1 ≤ ExitState.last_active_block_time_ms s
}.

Lemma state_wf_iff s : state_wf s ↔ wf_fields s.
Proof.
  unfold state_wf, ExitState.__post_init__, _FULL_EXIT_BPS. rewrite dltb_dleb. split.
  - destruct (dleb (ExitState.entry_fill_price s) d0) eqn:E1; [done|].
    destruct ((0 <=? _) && _) eqn:E2; [|done]. case_bool_decide; [|done].
    destruct (ExitState.steps_held s <? 0) eqn:E3; [done|].
    destruct (dleb d0 _) eqn:E4; [|done].
    destruct (ExitState.entry_block_time_ms s <? -1) eqn:E5; [done|].
    destruct (ExitState.last_active_block_time_ms s <? -1) eqn:E6; [done|]. intros _.
    bools. split; try done; [by apply dleb_zero_coef|by apply dleb_dle].
  - intros [H1 H2 H3 H4 H5 H6 H7]. rewrite (proj2 (dleb_zero_coef _) H1).
    rewrite (proj2 (Z.leb_le _ _)), (proj2 (Z.leb_le _ 10000)) by lia. rewrite bool_decide_eq_true_2 by done.
    rewrite (proj2 (dleb_dle _ _) H5). cbn.
    rewrite (proj2 (Z.ltb_ge _ 0)), (proj2 (Z.ltb_ge _ (-1))), (proj2 (Z.ltb_ge _ (-1))) by lia. done.
Qed.

(** [s'] is a later, no riskier state of the position [s]. *)
Record tighter (s s' : ExitState.t) : Prop := {
  t_remaining : ExitState.remaining_bps s' ≤ ExitState.remaining_bps s;
  t_floor : dle (ExitState.locked_floor_r s) (ExitState.locked_floor_r s');
  t_peak : dle (ExitState.peak_r s) (ExitState.peak_r s');
  t_armed : ExitState.armed s = true → ExitState.armed s' = true;
  t_fired : ExitState.fired_rungs s ⊆ ExitState.fired_rungs s';
  t_steps : ExitState.steps_held s ≤ ExitState.steps_held s';
  t_stop : ExitState.stop s' = ExitState.stop s;
  t_entry : ExitState.entry_fill_price s' = ExitState.entry_fill_price s;
  t_mint : ExitState.mint s' = ExitState.mint s
}.

Lemma tighter_refl s : tighter s s.
Proof. split; auto with aats; lia. Qed.

Lemma tighter_trans s1 s2 s3 : tighter s1 s2 → tighter s2 s3 → tighter s1 s3.
Proof.
  intros [] []. split; [lia|by eauto with aats|by eauto with aats|by eauto|set_solver|lia|congruence..].
Qed.

(** [_replace] accepts every later state. *)
Lemma replace_ok s s' :
  ExitState.remaining_bps s' ≤ ExitState.remaining_bps s →
  dle (ExitState.locked_floor_r s) (ExitState.locked_floor_r s') → wf_fields s' →
  ExitState._replace s s' = Ok s'.
Proof.
  intros Hr Hf Hw%state_wf_iff. unfold ExitState._replace.
  rewrite (proj2 (Z.ltb_ge _ _)) by lia. by rewrite dltb_irrefl_dle.
Qed.

(** ** The ratchet *)

Lemma ratchet_loop_floor peak ladder idx engaged floor :
  let f := snd (ratchet_loop peak ladder idx engaged floor) in
  dle floor f ∧ Forall (λ g, dle (RatchetRung.at_r g) peak → dle (RatchetRung.lock_r g) f) ladder.
Proof.
  revert idx engaged floor. induction ladder as [|g ladder IH]; intros idx engaged floor; cbn [ratchet_loop];
    [by auto with aats|].
  destruct (dleb (RatchetRung.at_r g) peak) eqn:E.
  - set (fl := if dltb floor (RatchetRung.lock_r g) then _ else _).
    assert (dle floor fl ∧ dle (RatchetRung.lock_r g) fl) as [H1 H2].
    { subst fl. destruct (dltb floor _) eqn:El; [apply dltb_dle in El|apply dltb_false in El]; auto with aats. }
    destruct (IH (S idx) ({[idx]} ∪ engaged) fl) as [I1 I2]. split; [by eauto with aats|].
    constructor; [by eauto with aats|done].
  - destruct (IH (S idx) engaged floor) as [I1 I2]. split; [done|]. constructor; [|done].
    intros H%dleb_dle. congruence.
Qed.

Lemma dec_eqb_dle a b : dec_eqb a b = true → dle a b ∧ dle b a.
Proof.
  intros H. unfold dec_eqb in H. split; apply dleb_dle; unfold dleb;
    rewrite ?(dcompare_antisym a b); by destruct (dcompare a b).
Qed.

(** ** One tick *)

Section Tick.
Context (config : ExitConfig.t).

(** What the constructors guarantee of a configuration. *)
Record config_wf : Prop := {
  cw_ladder : Forall (λ g, 1 ≤ TpRung.fraction_bps g ≤ 9999) (ExitConfig.tp_ladder config);
  cw_trigger : Forall (λ g, dltb d0 (TpRung.trigger_r g) = true) (ExitConfig.tp_ladder config);
  cw_ratchet : Forall (λ g, dltb d1 (RatchetRung.at_r g) = true ∧ dltb d0 (RatchetRung.lock_r g) = true)
                 (ExitConfig.ratchet_ladder config);
  cw_hold : 0 < ExitConfig.max_hold_steps config
}.

Lemma advance_ratchet_spec s :
  wf_fields s →
  ∃ s', _advance_ratchet config s = Ok s' ∧ wf_fields s' ∧ tighter s s' ∧
    ExitState.remaining_bps s' = ExitState.remaining_bps s ∧ ExitState.fired_rungs s' = ExitState.fired_rungs s ∧
    ExitState.peak_r s' = ExitState.peak_r s ∧ ExitState.armed s' = ExitState.armed s ∧
    ExitState.steps_held s' = ExitState.steps_held s ∧
    Forall (λ g, dle (RatchetRung.at_r g) (ExitState.peak_r s) →
                 dle (RatchetRung.lock_r g) (ExitState.locked_floor_r s')) (ExitConfig.ratchet_ladder config).
Proof.
  intros Hw. unfold _advance_ratchet. destruct (ExitConfig.ratchet_ladder config) as [|g0 l0].
  { exists s. split_and!; try done. apply tighter_refl. }
  set (ladder := g0 :: l0).
  pose proof (ratchet_loop_floor (ExitState.peak_r s) ladder 0 (ExitState.fired_ratchet_rungs s)
    (ExitState.locked_floor_r s)) as [Hf Hg].
  destruct (ratchet_loop _ _ _ _ _) as [engaged nf]. cbn [snd] in Hf, Hg.
  destruct (_ && _) eqn:E.
  - bools. apply dec_eqb_dle in H as [Hle _]. exists s. split_and!; try done; [apply tighter_refl|].
    eapply Forall_impl; [exact Hg|]. cbn. by eauto with aats.
  - assert (wf_fields (ExitState.with_floor nf engaged s)) as Hw'.
    { destruct Hw. split; cbn; try done. by eauto with aats. }
    rewrite (replace_ok s _) by (done || by cbn; lia). eexists. split; [done|].
    split_and!; try done. split; cbn; auto with aats; lia.
Qed.

Lemma flat_clock_spec s r bt :
  wf_fields s → 0 ≤ bt →
  ∃ s', _advance_flat_clock config s r bt = Ok s' ∧ wf_fields s' ∧
    ∃ e l, s' = ExitState.with_clock e l s.
Proof.
  intros Hw Hb. unfold _advance_flat_clock.
  assert (∀ e l, -1 ≤ e → -1 ≤ l → ExitState._replace s (ExitState.with_clock e l s) = Ok (ExitState.with_clock e l s)
     ∧ wf_fields (ExitState.with_clock e l s)) as Hr.
  { intros e l He Hl. assert (wf_fields (ExitState.with_clock e l s)) as Hw' by (destruct Hw; by split).
    split; [|done]. by apply replace_ok; auto with aats. }
  destruct (ExitState.entry_block_time_ms s <? 0).
  { destruct (Hr bt bt ltac:(lia) ltac:(lia)) as [-> ?]. eauto 10. }
  destruct (dltb _ _).
  { destruct (Hr (ExitState.entry_block_time_ms s) bt (wf_entry_bt s Hw) ltac:(lia)) as [-> ?]. eauto 10. }
  exists s. split_and!; [done|done|]. exists (ExitState.entry_block_time_ms s), (ExitState.last_active_block_time_ms s).
  by destruct s.
Qed.

Record stepped_spec (s : ExitState.t) (r : dec) (s' : ExitState.t) : Prop := {
  ss_wf : wf_fields s';
  ss_tighter : tighter s s';
  ss_remaining : ExitState.remaining_bps s' = ExitState.remaining_bps s;
  ss_fired : ExitState.fired_rungs s' = ExitState.fired_rungs s;
  ss_peak : dle r (ExitState.peak_r s');
  ss_armed : ExitState.armed s' = ExitState.armed s || dleb (ExitConfig.trail_arm_r config) r;
  ss_steps : ExitState.steps_held s' = ExitState.steps_held s + 1;
  ss_ratchet : Forall (λ g, dle (RatchetRung.at_r g) (ExitState.peak_r s') →
      dle (RatchetRung.lock_r g) (ExitState.locked_floor_r s')) (ExitConfig.ratchet_ladder config)
}.

Lemma stepped_ok s r bt :
  wf_fields s → 0 ≤ bt → ∃ s', stepped_state config s r bt = Ok s' ∧ stepped_spec s r s'.
Proof.
  intros Hw Hb. unfold stepped_state. set (np := if dltb _ r then r else _).
  assert (dle (ExitState.peak_r s) np ∧ dle r np) as [Hp1 Hp2].
  { subst np. destruct (dltb _ r) eqn:E; [apply dltb_dle in E|apply dltb_false in E]; auto with aats. }
  set (s1 := ExitState.with_peak_step _ _ s).
  assert (wf_fields s1) as Hw1 by (destruct Hw; split; cbn; try done; lia).
  rewrite (replace_ok s s1) by (done || by cbn; auto with aats; lia). cbn [mbind result_bind].
  assert (tighter s s1) as T1 by (split; cbn; auto with aats; lia).
  set (s2 := if negb (ExitState.armed s1) && dleb (ExitConfig.trail_arm_r config) r then ExitState.with_armed s1 else s1).
  assert ((if negb (ExitState.armed s1) && dleb (ExitConfig.trail_arm_r config) r
           then ExitState._replace s1 (ExitState.with_armed s1) else Ok s1) = Ok s2) as ->.
  { subst s2. destruct (_ && _); [|done]. apply replace_ok; auto with aats; [done|]. destruct Hw1; by split. }
  cbn [mbind result_bind].
  assert (wf_fields s2 ∧ tighter s1 s2 ∧ ExitState.armed s2 = ExitState.armed s1 || dleb (ExitConfig.trail_arm_r config) r
          ∧ ExitState.peak_r s2 = np ∧ ExitState.steps_held s2 = ExitState.steps_held s + 1
          ∧ ExitState.fired_rungs s2 = ExitState.fired_rungs s ∧ ExitState.remaining_bps s2 = ExitState.remaining_bps s)
    as (Hw2 & T2 & A2 & P2 & N2 & F2 & R2).
  { subst s2. destruct (ExitState.armed s1) eqn:Ea, (dleb (ExitConfig.trail_arm_r config) r); cbn [negb andb orb];
      split_and!; try done; try apply tighter_refl; [destruct Hw1; by split|split; cbn; auto with aats; lia]. }
  destruct (advance_ratchet_spec s2 Hw2) as (s3 & -> & Hw3 & T3 & R3 & F3 & P3 & A3 & N3 & G3).
  cbn [mbind result_bind].
  destruct (flat_clock_spec s3 r bt Hw3 Hb) as (s4 & -> & Hw4 & e & l & ->).
  eexists. split; [done|]. split; cbn; try congruence; try done.
  - eapply tighter_trans; [exact T1|]. eapply tighter_trans; [exact T2|]. eapply tighter_trans; [exact T3|].
    split; cbn; auto with aats; lia.
  - by rewrite P3, P2.
  - by rewrite A3, A2.
  - by rewrite P3.
Qed.

(** *** The decisions *)

(** A full exit: SECURE, 100% of the remainder, the position flat afterwards. *)
Definition full_exit_decision (s : ExitState.t) (reason : ExitReason) (d : ExitDecision) : Prop :=
  d_reason d = reason ∧ d_fraction_bps d = 10000 ∧ d_exit_mode d = Some SECURE ∧
  d_next_state d = ExitState.with_remaining 0 (ExitState.fired_rungs s) s ∧
  ∃ i, d_intent d = Some (Exit i) ∧ ExitIntent.fraction_bps i = 10000 ∧ ExitIntent.mode i = SECURE ∧
    ExitIntent.mint i = ExitState.mint s.

Lemma full_exit_ok s bt reason detail :
  wf_fields s → ∃ d, _full_exit s bt reason detail = Ok d ∧ full_exit_decision s reason d ∧ wf_fields (d_next_state d).
Proof.
  intros Hw. unfold _full_exit, _FULL_EXIT_BPS. cbn zeta. rewrite exit_new_ok by lia. cbn [mbind result_bind].
  assert (wf_fields (ExitState.with_remaining 0 (ExitState.fired_rungs s) s)) as Hw' by (destruct Hw; split; cbn; try done; lia).
  rewrite replace_ok; [|cbn; destruct Hw; lia|cbn; auto with aats|done].
  eexists. split; [done|]. split; [|done]. split_and!; try done. by eexists.
Qed.

Lemma hit_loop_spec fired r ladder idx best bt i :
  hit_loop fired r ladder idx best bt = Some i →
  (best = Some i) ∨ ((idx ≤ i)%nat ∧ (i ∉ fired) ∧ ∃ g, ladder !! (i - idx)%nat = Some g ∧ dle (TpRung.trigger_r g) r).
Proof.
  revert idx best bt. induction ladder as [|g ladder IH]; intros idx best bt H; cbn [hit_loop] in H; [by left|].
  assert (∀ b t, hit_loop fired r ladder (S idx) b t = Some i →
    b = Some i ∨ ((idx ≤ i)%nat ∧ (i ∉ fired) ∧ ∃ g', (g :: ladder) !! (i - idx)%nat = Some g' ∧ dle (TpRung.trigger_r g') r)) as Hs.
  { intros b t [?|(Hle & Hn & g' & Hg & Hd)]%IH; [by left|]. right. split; [lia|]. split; [done|]. exists g'.
    replace (i - idx)%nat with (S (i - S idx)) by lia. done. }
  case_bool_decide; [by apply Hs in H|].
  destruct (dleb (TpRung.trigger_r g) r && _) eqn:E; [|by apply Hs in H].
  apply Hs in H as [[= ->]|H]; [|by right]. right. split; [lia|]. split; [done|]. exists g.
  rewrite Nat.sub_diag. bools. split; [done|]. by apply dleb_dle.
Qed.

(** Some un-fired rung has been reached. *)
Definition rung_hit (s : ExitState.t) (r : dec) : Prop :=
  ∃ i g, (i ∉ ExitState.fired_rungs s) ∧ ExitConfig.tp_ladder config !! i = Some g ∧ dle (TpRung.trigger_r g) r.

(** A scale-out: a share of the remainder is sold and the rung is spent; it
    never flattens. *)
Definition scale_out_decision (s : ExitState.t) (r : dec) (d : ExitDecision) : Prop :=
  ∃ i g f, (i ∉ ExitState.fired_rungs s) ∧ ExitConfig.tp_ladder config !! i = Some g ∧ dle (TpRung.trigger_r g) r ∧
    f = Z.min (TpRung.fraction_bps g) (ExitState.remaining_bps s) ∧
    d_reason d = TAKE_PROFIT ∧ d_fraction_bps d = f ∧ d_exit_mode d = Some (ExitConfig.default_exit_mode config) ∧
    (∃ ri, d_intent d = Some (Reduce ri) ∧ ReduceIntent.fraction_bps ri = f ∧ ReduceIntent.mint ri = ExitState.mint s) ∧
    d_next_state d = ExitState.with_remaining
      (ExitState.remaining_bps s - ExitState.remaining_bps s * f / 10000) (ExitState.fired_rungs s ∪ {[i]}) s ∧
    0 < ExitState.remaining_bps (d_next_state d).

Lemma scale_out_ok s r bt i :
  config_wf → wf_fields s → 0 < ExitState.remaining_bps s → _highest_hit_rung config s r = Some i →
  ∃ d, _scale_out config s bt i = Ok d ∧ scale_out_decision s r d ∧ wf_fields (d_next_state d).
Proof.
  intros [Hl _ _ _] Hw Hpos Hh. unfold _highest_hit_rung in Hh.
  apply hit_loop_spec in Hh as [|(_ & Hn & g & Hg & Hd)]; [done|]. rewrite Nat.sub_0_r in Hg.
  pose proof (Forall_lookup_1 _ _ _ _ Hl Hg) as Hf. cbn in Hf.
  unfold _scale_out, int_of_quotient, _FULL_EXIT_BPS. rewrite Hg. cbn zeta.
  set (rem := ExitState.remaining_bps s) in *. set (f := Z.min (TpRung.fraction_bps g) rem).
  assert (0 ≤ rem ≤ 10000) as Hrem by (subst rem; destruct Hw; lia).
  assert (1 ≤ f ≤ 9999) as Hf' by lia.
  rewrite Z.quot_div_nonneg by nia.
  assert (0 ≤ rem * f / 10000 < rem) as Hsold.
  { split; [apply Z.div_pos; nia|]. apply Z.div_lt_upper_bound; nia. }
  set (s' := ExitState.with_remaining (rem - rem * f / 10000) (ExitState.fired_rungs s ∪ {[i]}) s).
  assert (wf_fields s') as Hw' by (destruct Hw; split; cbn; try done; lia).
  rewrite (replace_ok s s'); [|cbn; lia|cbn; auto with aats|done]. cbn [mbind result_bind].
  rewrite (proj2 (Z.leb_gt (rem - rem * f / 10000) 0)) by lia.
  rewrite reduce_new_ok by lia. cbn [mbind result_bind].
  eexists. split; [done|]. split; [|done]. exists i, g, f. split_and!; try done; [by eexists|cbn; lia].
Qed.

Lemma trail_floor_ok s : ∃ f, trail_floor config s = Ok f.
Proof.
  unfold trail_floor, ddiv, _BPS_DENOM. cbn [coef dec_of_Z]. rewrite (proj2 (Z.eqb_neq 10000 0)) by lia.
  repeat case_match; eauto.
Qed.

Lemma time_stop_ok s score bt : ∃ o, _time_stop_detail config s score bt = Ok o.
Proof.
  unfold _time_stop_detail. destruct (ExitConfig.time_stop_hours config); [|eauto]. destruct score; [|eauto].
  repeat (destruct (dltb _ _) || destruct (_ <? _)); eauto.
  unfold ddiv. cbn [coef dec_of_Z]. rewrite (proj2 (Z.eqb_neq 3600000 0)) by lia.
  repeat case_match; eauto.
Qed.

Lemma hit_loop_none fired r ladder idx :
  hit_loop fired r ladder idx None d0 = None →
  Forall (λ g, dltb d0 (TpRung.trigger_r g) = true) ladder →
  ∀ i g, ladder !! i = Some g → (idx + i)%nat ∉ fired → ¬ dle (TpRung.trigger_r g) r.
Proof.
  revert idx. induction ladder as [|g0 ladder IH]; intros idx H Hp i g Hi Hn; [done|].
  inv Hp as [|?? Hg Hp']. cbn [hit_loop] in H. rewrite Hg, andb_true_r in H.
  assert (∀ b t, hit_loop fired r ladder (S idx) (Some b) t ≠ None) as Hsome.
  { clear. generalize (S idx). induction ladder as [|g ladder IH]; intros k b t; cbn; [done|].
    repeat case_match; apply IH. }
  assert (hit_loop fired r ladder (S idx) None d0 = None ∧ (idx ∉ fired → ¬ dle (TpRung.trigger_r g0) r)) as [H1 H2].
  { case_bool_decide; [done|]. destruct (dleb (TpRung.trigger_r g0) r) eqn:E; [by apply Hsome in H|].
    split; [done|]. intros _ Hd%dleb_dle. congruence. }
  destruct i as [|i]; cbn in Hi.
  - injection Hi as <-. apply H2. by rewrite Nat.add_0_r in Hn.
  - eapply (IH (S idx)); [done..|]. by rewrite Nat.add_succ_comm.
Qed.

(** *** The priority order, declaratively *)

(** E12: enabled, a cooled score, and flat in event time for the horizon. *)
Definition stale (s : ExitState.t) (score : option dec) (bt : Z) : bool :=
  match ExitConfig.time_stop_hours config, score with
  | Some hours, Some sc =>
      dleb sc (ExitConfig.time_stop_narrative_cooled_at config) && (0 <=? ExitState.last_active_block_time_ms s)
      && (0 <=? bt - ExitState.last_active_block_time_ms s)
      && (hours * 3600000 <=? bt - ExitState.last_active_block_time_ms s)
  | _, _ => false
  end.

Definition trailed (s : ExitState.t) (r : dec) : bool :=
  ExitState.armed s && match trail_floor config s with Ok f => dleb r f | Raise _ => false end.

Definition forced_exits (s : ExitState.t) (r mark : dec) (bt : Z) (t : tick) (score : option dec)
    : list (bool * ExitReason) :=
  [(narrative_failure_flag t, NARRATIVE_FAILURE);
   (insider_dump_flag t, INSIDER_DUMP);
   (sellability_degraded_flag t, SELLABILITY_DEGRADED);
   (lp_unlock_approaching_flag t, LP_UNLOCK_APPROACHING);
   (dleb mark (StopState.trigger_price (ExitState.stop s)), HARD_STOP);
   (dltb d0 (ExitState.locked_floor_r s) && dleb r (ExitState.locked_floor_r s), RATCHET_STOP);
   (trailed s r, TRAILING_STOP);
   (ExitConfig.max_hold_steps config <=? ExitState.steps_held s, TIMEOUT);
   (stale s score bt, STALE_NARRATIVE_TIME_STOP)].

(** The first rule that applies. *)
Fixpoint first_hit (bs : list (bool * ExitReason)) : option ExitReason :=
  match bs with
  | [] => None
  | (b, reason) :: bs => if b then Some reason else first_hit bs
  end.

Definition decided (s : ExitState.t) (r mark : dec) (bt : Z) (t : tick) (score : option dec) (d : ExitDecision) : Prop :=
  match first_hit (forced_exits s r mark bt t score) with
  | Some reason => full_exit_decision s reason d
  | None => (rung_hit s r ∧ scale_out_decision s r d) ∨ (¬ rung_hit s r ∧ d = mk_decision NONE None s 0 None)
  end.

Lemma time_stop_stale s score bt :
  ∃ o, _time_stop_detail config s score bt = Ok o ∧ match o with Some _ => stale s score bt = true | None => stale s score bt = false end.
Proof.
  unfold _time_stop_detail, stale. destruct (ExitConfig.time_stop_hours config) as [h|]; [|by exists None].
  destruct score as [sc|]; [|by exists None]. rewrite dltb_dleb.
  destruct (dleb sc _); cbn [negb andb]; [|by exists None].
  destruct (Z.ltb_spec (ExitState.last_active_block_time_ms s) 0).
  { exists None. by rewrite (proj2 (Z.leb_gt 0 _)) by lia. }
  rewrite (proj2 (Z.leb_le 0 (ExitState.last_active_block_time_ms s))) by lia. cbn [andb]. cbn zeta.
  set (fl := bt - _). destruct (Z.ltb_spec fl 0).
  { exists None. by rewrite (proj2 (Z.leb_gt 0 fl)) by lia. }
  rewrite (proj2 (Z.leb_le 0 fl)) by lia. cbn [andb].
  destruct (Z.ltb_spec fl (h * 3600000)).
  { exists None. split; [done|]. by apply Z.leb_gt. }
  assert (∃ q, ddiv (dec_of_Z fl) (dec_of_Z 3600000) = Ok q) as [q ->].
  { unfold ddiv. cbn [coef dec_of_Z]. rewrite (proj2 (Z.eqb_neq 3600000 0)) by lia. repeat case_match; eauto. }
  eexists (Some _). split; [done|]. by apply Z.leb_le.
Qed.

Lemma rules_ok s r mark bt t score :
  config_wf → wf_fields s → 0 < ExitState.remaining_bps s →
  ∃ d, rules config s r mark bt t score = Ok d ∧ decided s r mark bt t score d ∧ wf_fields (d_next_state d).
Proof.
  intros Hc Hw Hpos. unfold rules, decided, forced_exits. cbn [first_hit].
  assert (∀ reason detail, ∃ d, _full_exit s bt reason detail = Ok d ∧ full_exit_decision s reason d
    ∧ wf_fields (d_next_state d)) as Hfull by (intros; by apply full_exit_ok).
  destruct (narrative_failure_flag t); [apply Hfull|]. destruct (insider_dump_flag t); [apply Hfull|].
  destruct (sellability_degraded_flag t); [apply Hfull|]. destruct (lp_unlock_approaching_flag t); [apply Hfull|].
  cbn [StopState.is_breached SurvivableStop._to_decimal_price mbind result_bind].
  unfold StopState.is_breached; cbn [SurvivableStop._to_decimal_price mbind result_bind].
  destruct (dleb mark _); [apply Hfull|]. destruct (_ && dleb r _); [apply Hfull|].
  destruct (trail_floor_ok s) as [f Hf].
  assert ((if ExitState.armed s then f ← trail_floor config s; Ok (Some f) else Ok None)
    = Ok (if ExitState.armed s then Some f else None)) as -> by (destruct (ExitState.armed s); [by rewrite Hf|done]).
  cbn [mbind result_bind]. unfold trailed. rewrite Hf.
  destruct (ExitState.armed s); cbn [breaches_trail andb];
    [destruct (dleb r f); [apply Hfull|]|];
    (destruct (_ <=? _); [apply Hfull|];
     destruct (time_stop_stale s score bt) as (o & -> & Ho); cbn [mbind result_bind];
     destruct o as [detail|]; rewrite Ho; [apply Hfull|];
     destruct (_highest_hit_rung config s r) as [i|] eqn:Eh;
     [destruct (scale_out_ok s r bt i Hc Hw Hpos Eh) as (d & -> & Hd & Hwd); exists d;
      split_and!; try done; left; split; [|done]; destruct Hd as (i' & g & ? & Hn' & Hg' & Hle' & _); exists i', g; by split_and!
     |eexists; split_and!; [done| |done]; right; split; [|done]; intros (i & g & Hn & Hg & Hle);
      by eapply (hit_loop_none _ _ _ 0 Eh (cw_trigger Hc) i g)]).
Qed.

(** The inputs the engine accepts. *)
Definition tick_inputs (t : tick) (bt : Z) (mark : dec) (score : option dec) : Prop :=
  block_time_ms t = PyInt bt ∧ 0 ≤ bt ∧ _to_decimal_price (mark_price t) "mark_price" = Ok mark ∧
  _coerce_narrative_score (narrative_score t) = Ok score.
Definition tick_valid (t : tick) : Prop := ∃ bt mark score, tick_inputs t bt mark score.

(** [R] of a tick. *)
Definition return_of (s : ExitState.t) (t : tick) (r : dec) : Prop :=
  ∃ mark, _to_decimal_price (mark_price t) "mark_price" = Ok mark ∧ ddiv mark (ExitState.entry_fill_price s) = Ok r.

Lemma full_exit_tighter s reason d : wf_fields s → full_exit_decision s reason d → tighter s (d_next_state d).
Proof.
  intros Hw (_ & _ & _ & -> & _). split; cbn; auto with aats; [destruct Hw; lia|lia].
Qed.

Lemma decided_tighter s r mark bt t score d :
  config_wf → wf_fields s → decided s r mark bt t score d →
  tighter s (d_next_state d) ∧ (∀ i, d_intent d = Some i → de_risk i).
Proof.
  intros Hc Hw. unfold decided. destruct (first_hit _) as [reason|].
  - intros H. split; [by eapply full_exit_tighter|]. destruct H as (_ & _ & _ & _ & i & -> & Hf & _).
    intros ? [= <-]. cbn. lia.
  - intros [[_ (i & g & f & Hn & Hg & _ & Hf & _ & _ & _ & (ri & Hri & Hrf & _) & Hnext & Hpos)]|[_ ->]]; cbn.
    + pose proof (Forall_lookup_1 _ _ _ _ (cw_ladder Hc) Hg) as Hfr. cbn in Hfr.
      rewrite Hnext in Hpos. cbn in Hpos.
      assert (1 ≤ f ≤ 10000) as Hf'.
      { destruct Hw. destruct (Z.eq_dec (ExitState.remaining_bps s) 0) as [E|]; [|lia].
        rewrite E, Z.mul_0_l in Hpos. change (0 / 10000) with 0 in Hpos. lia. }
      assert (0 ≤ ExitState.remaining_bps s * f / 10000) as Hq by (apply Z.div_pos; destruct Hw; nia).
      split.
      * rewrite Hnext. split; cbn; auto with aats; try lia. clear; set_solver.
      * rewrite Hri. intros ? [= <-]. cbn. rewrite Hrf. lia.
    + split; [apply tighter_refl|done].
Qed.

(** One tick: total, well-formed, never riskier, and decided by the order. *)
Lemma on_tick_spec s t bt mark score :
  config_wf → wf_fields s → tick_inputs t bt mark score →
  ∃ d, on_tick config s t = Ok d ∧ wf_fields (d_next_state d) ∧ tighter s (d_next_state d) ∧
    (∀ i, d_intent d = Some i → de_risk i) ∧
    ((ExitState.remaining_bps s = 0 ∧ d = mk_decision NONE None s 0 None) ∨
     (0 < ExitState.remaining_bps s ∧ ∃ r s', ddiv mark (ExitState.entry_fill_price s) = Ok r ∧
        stepped_state config s r bt = Ok s' ∧ stepped_spec s r s' ∧ decided s' r mark bt t score d)).
Proof.
  intros Hc Hw (Hbt & Hb & Hm & Hs). unfold on_tick. rewrite Hbt, (proj2 (Z.ltb_ge bt 0)) by lia.
  rewrite Hs, Hm. cbn [mbind result_bind].
  destruct (Z.leb_spec (ExitState.remaining_bps s) 0).
  { eexists. split; [done|]. split_and!; [done|apply tighter_refl|done|]. left. destruct Hw. split; [lia|done]. }
  unfold ExitState.realized_r. cbn [_to_decimal_price mbind result_bind].
  assert (∃ r, ddiv mark (ExitState.entry_fill_price s) = Ok r) as [r Hr].
  { unfold ddiv. destruct (Z.eqb_spec (coef (ExitState.entry_fill_price s)) 0) as [He|]; [destruct Hw; lia|].
    repeat case_match; eauto. }
  rewrite Hr. cbn [mbind result_bind].
  destruct (stepped_ok s r bt Hw Hb) as (s' & Hst & Hsp). rewrite Hst. cbn [mbind result_bind].
  destruct (rules_ok s' r mark bt t score Hc (ss_wf _ _ _ Hsp) ltac:(rewrite (ss_remaining _ _ _ Hsp); lia))
    as (d & -> & Hd & Hwd).
  destruct (decided_tighter _ _ _ _ _ _ _ Hc (ss_wf _ _ _ Hsp) Hd) as [Ht Hi].
  exists d. split_and!; try done; [eapply tighter_trans; [apply (ss_tighter _ _ _ Hsp)|done]|].
  right. split; [lia|]. by exists r, s'.
Qed.

(** ** Runs *)

Lemma run_ticks_spec (P : ExitState.t → Prop) s ts :
  config_wf → wf_fields s → Forall tick_valid ts → P s →
  (∀ s t d, wf_fields s → tick_valid t → P s → on_tick config s t = Ok d → P (d_next_state d)) →
  ∃ ds s', run_ticks config s ts = Ok (ds, s') ∧ wf_fields s' ∧ tighter s s' ∧ P s' ∧
    length ds = length ts ∧ Forall (λ d, ∀ i, d_intent d = Some i → de_risk i) ds.
Proof.
  intros Hc Hw Hv HP Hstep. revert s Hw HP. induction Hv as [|t ts (bt & mark & score & Hin) Hv IH]; intros s Hw HP.
  { exists [], s. split_and!; try done. apply tighter_refl. }
  cbn [run_ticks]. destruct (on_tick_spec s t bt mark score Hc Hw Hin) as (d & Hd & Hwd & Ht & Hi & _).
  rewrite Hd. cbn [mbind result_bind].
  destruct (IH (d_next_state d) Hwd) as (ds & s' & -> & Hw' & Ht' & HP' & Hl & Hf).
  { apply (Hstep s t d); [done|by exists bt, mark, score|done|done]. }
  exists (d :: ds), s'. split; [done|]. split; [done|]. split; [by eapply tighter_trans|].
  split; [done|]. split; [by cbn; rewrite Hl|by constructor].
Qed.

(** The ratchet's promise, kept by every tick. *)
Definition ratchet_inv (s : ExitState.t) : Prop :=
  Forall (λ g, dle (RatchetRung.at_r g) (ExitState.peak_r s) →
               dle (RatchetRung.lock_r g) (ExitState.locked_floor_r s)) (ExitConfig.ratchet_ladder config).

Lemma decided_next s r mark bt t score d :
  decided s r mark bt t score d →
  ExitState.peak_r (d_next_state d) = ExitState.peak_r s ∧
  ExitState.locked_floor_r (d_next_state d) = ExitState.locked_floor_r s ∧
  ExitState.steps_held (d_next_state d) = ExitState.steps_held s.
Proof.
  unfold decided. destruct (first_hit _).
  - by intros (_ & _ & _ & -> & _).
  - intros [[_ (? & ? & ? & _ & _ & _ & _ & _ & _ & _ & _ & -> & _)]|[_ ->]]; done.
Qed.

Lemma ratchet_inv_step s t d :
  config_wf → wf_fields s → tick_valid t → ratchet_inv s → on_tick config s t = Ok d → ratchet_inv (d_next_state d).
Proof.
  intros Hc Hw (bt & mark & score & Hin) Hi Hd.
  destruct (on_tick_spec s t bt mark score Hc Hw Hin) as (d' & Hd' & _ & _ & _ & H). assert (d' = d) as -> by congruence.
  destruct H as [[_ ->]|(_ & r & s' & _ & _ & Hsp & Hdec)]; [done|].
  apply decided_next in Hdec as (E1 & E2 & _). unfold ratchet_inv. rewrite E1, E2. apply (ss_ratchet _ _ _ Hsp).
Qed.

(** A forced rule that applies flattens the position. *)
Lemma decided_forced s r mark bt t score d reason :
  In (true, reason) (forced_exits s r mark bt t score) → decided s r mark bt t score d →
  ExitState.remaining_bps (d_next_state d) = 0.
Proof.
  intros Hin. unfold decided.
  assert (∃ r', first_hit (forced_exits s r mark bt t score) = Some r') as [r' ->].
  { induction (forced_exits s r mark bt t score) as [|[b x] l IH]; [done|]. cbn.
    destruct b; [eauto|]. destruct Hin as [|Hin]; [done|by apply IH]. }
  by intros (_ & _ & _ & -> & _).
Qed.

Lemma decided_ratchet s r mark bt t score d g :
  dltb d0 (RatchetRung.lock_r g) = true → dle (RatchetRung.lock_r g) (ExitState.locked_floor_r s) →
  dle r (RatchetRung.lock_r g) → decided s r mark bt t score d →
  ExitState.remaining_bps (d_next_state d) = 0.
Proof.
  intros Hpos Hfl Hr Hd. apply (decided_forced s r mark bt t score d RATCHET_STOP); [|done].
  unfold forced_exits. cbn [In]. do 5 right. left. f_equal. apply andb_true_iff. split.
  - rewrite dltb_dleb in *. apply negb_true_iff. apply negb_true_iff in Hpos.
    apply not_true_is_false. intros H%dleb_dle. rewrite (proj2 (dleb_dle _ _)) in Hpos; [done|].
    by eapply dle_trans.
  - apply dleb_dle. by eapply dle_trans.
Qed.

Lemma entry_state mint price s :
  ExitState.at_entry mint price config = Ok s →
  wf_fields s ∧ ExitState.remaining_bps s = 10000 ∧ ExitState.peak_r s = d1 ∧ ExitState.steps_held s = 0 ∧
  ExitState.fired_rungs s = ∅ ∧ ExitState.armed s = false.
Proof.
  unfold ExitState.at_entry. destruct (_to_decimal_price _ _) as [e|]; cbn [mbind result_bind]; [|done].
  destruct (ExitConfig.stop_thresholds _) as [th|]; cbn [mbind result_bind]; [|done].
  destruct (StopState.at_entry _ _ _) as [st|]; cbn [mbind result_bind]; [|done].
  set (s0 := ExitState.mk _ _ _ _ _ _ _ _ _ _ _ _). intros H.
  assert (s = s0) as ->.
  { revert H. unfold ExitState.__post_init__. repeat (destruct (dleb _ _) || destruct (dltb _ _) || destruct (negb _) || destruct (_ <? _)); try done.
    by intros [= <-]. }
  apply state_wf_iff in H. by split_and!.
Qed.

Lemma entry_ratchet_inv mint price s :
  config_wf → ExitState.at_entry mint price config = Ok s → ratchet_inv s.
Proof.
  intros Hc H. apply entry_state in H as (_ & _ & Hp & _). unfold ratchet_inv. rewrite Hp.
  eapply Forall_impl; [exact (cw_ratchet Hc)|]. intros g [Hg _] Hle.
  rewrite dltb_dleb, (proj2 (dleb_dle _ _) Hle) in Hg. done.
Qed.

(** The peak is at least every return seen while the position is open. *)
Lemma run_peak s ts ds s' t r :
  config_wf → wf_fields s → Forall tick_valid ts → run_ticks config s ts = Ok (ds, s') →
  In t ts → return_of s t r → dle r (ExitState.peak_r s') ∨ ExitState.remaining_bps s' = 0.
Proof.
  intros Hc Hw Hv. revert s ds Hw. induction Hv as [|t0 ts Hv0 Hv IH]; intros s ds Hw Hrun Hin Hr; [done|].
  destruct Hv0 as (bt & mark & score & Hi). cbn [run_ticks] in Hrun.
  destruct (on_tick_spec s t0 bt mark score Hc Hw Hi) as (d & Hd & Hwd & Ht & _ & Hcase).
  rewrite Hd in Hrun. cbn [mbind result_bind] in Hrun.
  destruct (run_ticks_spec (λ _, True) (d_next_state d) ts Hc Hwd Hv I ltac:(done)) as (ds1 & s1 & E1 & _ & T1 & _ & _).
  destruct (run_ticks config (d_next_state d) ts) as [[ds' s'']|] eqn:E; [|done]. injection Hrun as <- <-. injection E1 as <- <-.
  destruct Hin as [->|Hin].
  - destruct Hcase as [[H0 ->]|(_ & r' & s1 & Hr' & _ & Hsp & Hdec)].
    { right. destruct T1 as [Hrem _]. cbn in Hrem.
      destruct (run_ticks_spec (λ _, True) _ ts Hc Hwd Hv I ltac:(done)) as (? & ? & E2 & W2 & _).
      rewrite E in E2. injection E2 as <- <-. destruct W2. lia. }
    left. destruct Hr as (m & Hm & Hr). destruct Hi as (_ & _ & Hm' & _). assert (m = mark) as -> by congruence.
    assert (r' = r) as -> by congruence. apply decided_next in Hdec as (Hp & _).
    eapply dle_trans; [apply (ss_peak _ _ _ Hsp)|]. rewrite <- Hp. apply T1.
  - eapply (IH (d_next_state d)); [done|done|done|]. destruct Hr as (m & Hm & Hr). exists m.
    split; [done|]. by rewrite (t_entry _ _ Ht).
Qed.

(** Every tick on an open position counts, and the last one exits. *)
Lemma run_steps s ts ds s' :
  config_wf → wf_fields s → Forall tick_valid ts → run_ticks config s ts = Ok (ds, s') →
  ExitState.remaining_bps s' = 0 ∨
  (ExitState.steps_held s' = ExitState.steps_held s + Z.of_nat (length ts) ∧
   (ts ≠ [] → ExitState.steps_held s' < ExitConfig.max_hold_steps config)).
Proof.
  intros Hc Hw Hv. revert s ds Hw. induction Hv as [|t ts Hv0 Hv IH]; intros s ds Hw Hrun.
  { injection Hrun as <- <-. right. cbn. split; [lia|done]. }
  destruct Hv0 as (bt & mark & score & Hi). cbn [run_ticks] in Hrun.
  destruct (on_tick_spec s t bt mark score Hc Hw Hi) as (d & Hd & Hwd & Ht & _ & Hcase).
  rewrite Hd in Hrun. cbn [mbind result_bind] in Hrun.
  destruct (run_ticks config (d_next_state d) ts) as [[ds' s'']|] eqn:E; [|done]. injection Hrun as <- <-.
  destruct (run_ticks_spec (λ _, True) _ ts Hc Hwd Hv I ltac:(done)) as (? & ? & E2 & W2 & T2 & _).
  rewrite E in E2. injection E2 as <- <-.
  destruct Hcase as [[H0 ->]|(_ & r & s1 & _ & _ & Hsp & Hdec)].
  { left. destruct T2, W2. cbn in *. lia. }
  pose proof (decided_next _ _ _ _ _ _ _ Hdec) as (_ & _ & Hn). rewrite (ss_steps _ _ _ Hsp) in Hn.
  destruct (IH _ _ Hwd E) as [|[Hs Hlt]]; [by left|].
  destruct (Z.le_gt_cases (ExitConfig.max_hold_steps config) (ExitState.steps_held s1)) as [Hto|Hto].
  - left. assert (ExitState.remaining_bps (d_next_state d) = 0) as Hz.
    { apply (decided_forced s1 r mark bt t score d TIMEOUT); [|done]. unfold forced_exits. cbn [In]. do 7 right. left.
      f_equal. by apply Z.leb_le. }
    destruct T2, W2. lia.
  - right. cbn [length]. split; [lia|]. intros _. destruct ts as [|t' ts']; [|by apply Hlt].
    cbn in E. injection E as <- <-. rewrite Hn. rewrite (ss_steps _ _ _ Hsp) in Hto. lia.
Qed.

(** *** Rungs *)

Definition tp_count (ds : list ExitDecision) : nat := length (filter (λ d, d_reason d = TAKE_PROFIT) ds).

Lemma first_hit_not_tp s r mark bt t score : first_hit (forced_exits s r mark bt t score) ≠ Some TAKE_PROFIT.
Proof. unfold forced_exits. cbn. by repeat case_match. Qed.

Lemma run_rungs s ts ds s' :
  config_wf → wf_fields s → Forall tick_valid ts → run_ticks config s ts = Ok (ds, s') →
  ExitState.fired_rungs s ⊆ set_seq 0 (length (ExitConfig.tp_ladder config)) →
  ExitState.fired_rungs s' ⊆ set_seq 0 (length (ExitConfig.tp_ladder config)) ∧
  size (ExitState.fired_rungs s') = (size (ExitState.fired_rungs s) + tp_count ds)%nat.
Proof.
  intros Hc Hw Hv. revert s ds Hw. induction Hv as [|t ts Hv0 Hv IH]; intros s ds Hw Hrun Hsub.
  { injection Hrun as <- <-. unfold tp_count. cbn. split; [done|lia]. }
  destruct Hv0 as (bt & mark & score & Hi). cbn [run_ticks] in Hrun.
  destruct (on_tick_spec s t bt mark score Hc Hw Hi) as (d & Hd & Hwd & Ht & _ & Hcase).
  rewrite Hd in Hrun. cbn [mbind result_bind] in Hrun.
  destruct (run_ticks config (d_next_state d) ts) as [[ds' s'']|] eqn:E; [|done]. injection Hrun as <- <-.
  assert (tp_count (d :: ds') = (if decide (d_reason d = TAKE_PROFIT) then 1 else 0) + tp_count ds')%nat as ->.
  { unfold tp_count. rewrite filter_cons. by case_decide. }
  assert (ExitState.fired_rungs (d_next_state d) ⊆ set_seq 0 (length (ExitConfig.tp_ladder config)) ∧
    size (ExitState.fired_rungs (d_next_state d)) =
      (size (ExitState.fired_rungs s) + if decide (d_reason d = TAKE_PROFIT) then 1 else 0)%nat) as [H1 H2].
  { destruct Hcase as [[H0 ->]|(_ & r & s1 & _ & _ & Hsp & Hdec)]; [cbn [d_reason d_next_state]; rewrite decide_False by done; split; [done|lia]|].
    rewrite <- (ss_fired _ _ _ Hsp) in Hsub |- *. pose proof (first_hit_not_tp s1 r mark bt t score) as Hnt.
    unfold decided in Hdec. destruct (first_hit _) as [reason|].
    - destruct Hdec as (-> & _ & _ & -> & _). cbn. rewrite decide_False by congruence. split; [done|lia].
    - destruct Hdec as [[_ (i & g & f & Hn & Hg & _ & _ & -> & _ & _ & _ & -> & _)]|[_ ->]]; cbn [d_reason d_next_state];
        [|rewrite decide_False by done; split; [done|lia]]. cbn.
      rewrite decide_True by done. apply lookup_lt_Some in Hg. split.
      + intros x [Hx|Hx%elem_of_singleton]%elem_of_union; [by apply Hsub|]. subst. apply elem_of_set_seq. lia.
      + rewrite size_union by (clear -Hn; set_solver). by rewrite size_singleton. }
  destruct (IH _ _ Hwd E H1) as [I1 I2]. split; [done|]. rewrite I2, H2. lia.
Qed.
End Tick.

(** ** Configurations that come out of the constructors *)

Definition constructed (c : ExitConfig.t) : Prop :=
  ∃ label ladder hs ta dd mh ratchet hours band cooled mode,
    ExitConfig.new label ladder hs ta dd mh ratchet hours band cooled mode = Ok c ∧
    Forall (λ g, ∃ trig f, TpRung.new trig f = Ok g) ladder ∧
    Forall (λ g, ∃ a l, RatchetRung.new a l = Ok g) ratchet.

Lemma rung_new_wf trig f g :
  TpRung.new trig f = Ok g → 1 ≤ TpRung.fraction_bps g ≤ 9999 ∧ dltb d0 (TpRung.trigger_r g) = true.
Proof.
  unfold TpRung.new. destruct (_to_decimal_price trig _) as [d|]; cbn; [|done].
  destruct (dleb d d0) eqn:E; [done|]. destruct f as [z|]; [|done].
  destruct ((1 <=? z) && (z <=? 9999)) eqn:Ez; [|done]. intros [= <-]. bools. cbn. rewrite dltb_dleb, E. split; [lia|done].
Qed.

Lemma ratchet_new_wf a l g :
  RatchetRung.new a l = Ok g → dltb d1 (RatchetRung.at_r g) = true ∧ dltb d0 (RatchetRung.lock_r g) = true.
Proof.
  unfold RatchetRung.new. destruct (_to_decimal_price a _) as [x|]; cbn; [|done].
  destruct (_to_decimal_price l _) as [y|]; cbn; [|done].
  destruct (dleb x d1) eqn:E1; [done|]. destruct (dleb y d0) eqn:E2; [done|]. destruct (dleb x y); [done|].
  intros [= <-]. cbn. by rewrite !dltb_dleb, E1, E2.
Qed.

Lemma int_in_ok v name ok z : ExitConfig.int_in v name ok = Ok z → ok z = true.
Proof. unfold ExitConfig.int_in. destruct v as [z'|]; [|done]. destruct (ok z') eqn:E; [|done]. by intros [= <-]. Qed.

(** What [ExitConfig.new] keeps of its arguments. *)
Lemma config_new_inv label ladder hs ta dd mh ratchet hours band cooled mode c :
  ExitConfig.new label ladder hs ta dd mh ratchet hours band cooled mode = Ok c →
  ExitConfig.tp_ladder c = ladder ∧ ExitConfig.ratchet_ladder c = ratchet ∧ 0 < ExitConfig.max_hold_steps c.
Proof.
  unfold ExitConfig.new. case_bool_decide; [done|].
  destruct (_to_decimal_price hs _); cbn [mbind result_bind]; [|done].
  destruct (_to_decimal_price ta _); cbn [mbind result_bind]; [|done].
  destruct (negb _); [done|]. destruct (dleb _ _); [done|].
  destruct (ExitConfig.int_in dd _ _); cbn [mbind result_bind]; [|done].
  destruct (ExitConfig.int_in mh _ _) as [m|] eqn:Em; cbn [mbind result_bind]; [|done].
  apply int_in_ok in Em. bools.
  destruct (match hours with Some _ => _ | None => _ end); cbn [mbind result_bind]; [|done].
  destruct (ExitConfig.int_in band _ _); cbn [mbind result_bind]; [|done].
  destruct (_to_decimal_price cooled _); cbn [mbind result_bind]; [|done].
  destruct (negb _); [done|]. destruct ladder as [|g ladder]; [done|].
  destruct (ExitConfig.check_ladder _ _ _); cbn [mbind result_bind]; [|done].
  destruct (_ <? _); [done|]. destruct (ExitConfig.check_ratchet _ _ _); cbn [mbind result_bind]; [|done].
  by intros [= <-].
Qed.

Lemma constructed_wf c : constructed c → config_wf c.
Proof.
  intros (label & ladder & hs & ta & dd & mh & ratchet & hours & band & cooled & mode & H & Hl & Hr).
  apply config_new_inv in H as (E1 & E2 & Hm). split; rewrite ?E1, ?E2; try done.
  - eapply Forall_impl; [exact Hl|]. intros g (? & ? & Hg). by eapply rung_new_wf.
  - eapply Forall_impl; [exact Hl|]. intros g (? & ? & Hg). by eapply rung_new_wf.
  - eapply Forall_impl; [exact Hr|]. intros g (? & ? & Hg). by eapply ratchet_new_wf.
Qed.

(** ** Theorems *)

(** C24: one tick, completely.  On every accepted input [on_tick] returns; the
    next state is well-formed and never riskier; any intent is de-risk; a flat
    position holds; otherwise the decision is that of the first rule of the
    documented order that applies to the stepped state (a full SECURE exit),
    else a scale-out of a reached, un-fired rung, else a hold. *)
Theorem on_tick_follows_priority config s t bt mark score :
  constructed config → state_wf s → tick_inputs t bt mark score →
  ∃ d, on_tick config s t = Ok d ∧ state_wf (d_next_state d) ∧ tighter s (d_next_state d) ∧
    (∀ i, d_intent d = Some i → de_risk i) ∧
    ((ExitState.remaining_bps s = 0 ∧ d = mk_decision NONE None s 0 None) ∨
     (0 < ExitState.remaining_bps s ∧ ∃ r s', ddiv mark (ExitState.entry_fill_price s) = Ok r ∧
        stepped_state config s r bt = Ok s' ∧ stepped_spec config s r s' ∧ decided config s' r mark bt t score d)).
Proof.
  intros Hc%constructed_wf Hw%state_wf_iff Hi.
  destruct (on_tick_spec config s t bt mark score Hc Hw Hi) as (d & Hd & Hwd & Ht & Hi' & H).
  exists d. split; [done|]. split; [by apply state_wf_iff|done].
Qed.

(** A position's whole life only sheds risk.  From entry, over any ticks,
    the engine never raises, emits only de-risk intents, never grows the
    remainder, never lowers the locked floor or the peak, never disarms the
    trail, and keeps the hard stop it was opened with. *)
Theorem exit_run_only_de_risks config mint price s ts :
  constructed config → ExitState.at_entry mint price config = Ok s → Forall tick_valid ts →
  ∃ ds s', run_ticks config s ts = Ok (ds, s') ∧ tighter s s' ∧ length ds = length ts ∧
    Forall (λ d, ∀ i, d_intent d = Some i → de_risk i) ds.
Proof.
  intros Hc%constructed_wf (Hw & _)%entry_state Hv.
  destruct (run_ticks_spec config (λ _, True) s ts Hc Hw Hv I ltac:(done)) as (ds & s' & H & _ & Ht & _ & Hl & Hf).
  by exists ds, s'.
Qed.

(** C15: the profit lock.  Once some tick's return reached a ratchet rung's
    [at_r], every later tick whose return is at or below that rung's [lock_r]
    leaves the position flat. *)
Theorem ratchet_locks_profit config mint price s ts ds s' g t1 r1 t2 r2 :
  constructed config → ExitState.at_entry mint price config = Ok s → Forall tick_valid ts →
  run_ticks config s ts = Ok (ds, s') → g ∈ ExitConfig.ratchet_ladder config →
  In t1 ts → return_of s t1 r1 → dle (RatchetRung.at_r g) r1 →
  tick_valid t2 → return_of s t2 r2 → dle r2 (RatchetRung.lock_r g) →
  ∃ d, on_tick config s' t2 = Ok d ∧ ExitState.remaining_bps (d_next_state d) = 0.
Proof.
  intros Hc%constructed_wf He Hv Hrun Hg Hin Hr1 Hat (bt & mark & score & Hi2) Hr2 Hlock.
  pose proof (entry_ratchet_inv config mint price s Hc He) as Hri. apply entry_state in He as (Hw & _).
  destruct (run_ticks_spec config (ratchet_inv config) s ts Hc Hw Hv Hri) as (ds' & s'' & E & Hw' & Ht & Hri' & _).
  { intros. by eapply ratchet_inv_step. }
  rewrite Hrun in E. injection E as <- <-.
  destruct (on_tick_spec config s' t2 bt mark score Hc Hw' Hi2) as (d & Hd & Hwd & Htd & _ & Hcase).
  exists d. split; [done|].
  destruct Hcase as [[H0 ->]|(Hpos & r & s1 & Hr & _ & Hsp & Hdec)]; [done|].
  assert (r = r2) as ->.
  { destruct Hr2 as (m & Hm & Hr2). destruct Hi2 as (_ & _ & Hm' & _).
    assert (m = mark) as -> by congruence. rewrite <- (t_entry _ _ Ht) in Hr2. congruence. }
  destruct (run_peak config s ts ds s' t1 r1 Hc Hw Hv Hrun Hin Hr1) as [Hpk|]; [|lia].
  apply list_elem_of_In in Hg.
  pose proof (proj1 (List.Forall_forall _ _) (cw_ratchet _ Hc) g Hg) as [_ Hlp].
  eapply (decided_ratchet config s1 r2 mark bt t2 score d g); try done.
  apply (proj1 (List.Forall_forall _ _) (ss_ratchet _ _ _ _ Hsp) g Hg).
  eapply dle_trans; [exact Hat|]. eapply dle_trans; [exact Hpk|]. apply (t_peak _ _ (ss_tighter _ _ _ _ Hsp)).
Qed.

(** C25: no position outlives [max_hold_steps]: after that many ticks it is
    flat, whatever the marks were. *)
Theorem position_closed_by_timeout config mint price s ts ds s' :
  constructed config → ExitState.at_entry mint price config = Ok s → Forall tick_valid ts →
  run_ticks config s ts = Ok (ds, s') → ExitConfig.max_hold_steps config ≤ Z.of_nat (length ts) →
  ExitState.remaining_bps s' = 0.
Proof.
  intros Hc%constructed_wf (Hw & _ & _ & Hn & _)%entry_state Hv Hrun Hlen.
  destruct (run_steps config s ts ds s' Hc Hw Hv Hrun) as [|[Hs Hlt]]; [done|].
  pose proof (cw_hold _ Hc). rewrite Hn in Hs. assert (ts ≠ []) as Hne by (intros ->; cbn in *; lia).
  specialize (Hlt Hne). lia.
Qed.

(** Every ladder rung scales out at most once in a position's life. *)
Theorem rungs_fire_at_most_once config mint price s ts ds s' :
  constructed config → ExitState.at_entry mint price config = Ok s → Forall tick_valid ts →
  run_ticks config s ts = Ok (ds, s') → (tp_count ds ≤ length (ExitConfig.tp_ladder config))%nat.
Proof.
  intros Hc%constructed_wf (Hw & _ & _ & _ & Hf & _)%entry_state Hv Hrun.
  destruct (run_rungs config s ts ds s' Hc Hw Hv Hrun) as [Hsub Hsz]; [rewrite Hf; set_solver|].
  rewrite Hf, size_empty in Hsz. apply subseteq_size in Hsub. rewrite size_set_seq in Hsub. lia.
Qed.

(** ** The shipped presets *)

(** The pieces of a preset, as the constructors built them. *)
Lemma all_ok_forall {A} (rs : list (result A)) l :
  all_ok rs = Ok l → Forall (λ a, Ok a ∈ rs) l.
Proof.
  revert l. induction rs as [|r rs IH]; intros l; cbn; [by intros [= <-]|].
  destruct r as [a|]; cbn; [|done]. destruct (all_ok rs) as [l'|]; cbn; [|done]. intros [= <-].
  constructor; [by left|]. eapply Forall_impl; [by apply IH|]. intros x Hx. by right.
Qed.

Definition tp_rung_result (r : result TpRung.t) : Prop := ∃ trig f, r = TpRung.new trig f.
Definition ratchet_rung_result (r : result RatchetRung.t) : Prop := ∃ a l, r = RatchetRung.new a l.

Lemma constructed_intro label lr hs ta dd mh rr hours band cooled mode ladder ratchet c :
  Forall tp_rung_result lr → Forall ratchet_rung_result rr →
  all_ok lr = Ok ladder → all_ok rr = Ok ratchet →
  ExitConfig.new label ladder hs ta dd mh ratchet hours band cooled mode = Ok c → constructed c.
Proof.
  intros Hl Hr El Er Hc. exists label, ladder, hs, ta, dd, mh, ratchet, hours, band, cooled, mode.
  split; [done|]. apply all_ok_forall in El, Er. split.
  - eapply Forall_impl; [exact El|]. intros g Hg. rewrite Forall_forall in Hl. by destruct (Hl _ Hg) as (? & ? & ->); eauto.
  - eapply Forall_impl; [exact Er|]. intros g Hg. rewrite Forall_forall in Hr. by destruct (Hr _ Hg) as (? & ? & ->); eauto.
Qed.

(** The hard-stop line of a configuration is [hard_stop_r] of entry: at an
    entry of 100 the trigger is [100 * hard_stop_r]. *)
Definition stop_line_agrees (c : ExitConfig.t) : bool :=
  match ExitState.at_entry "M" (NInt 100) c with
  | Ok s => dec_eqb (StopState.trigger_price (ExitState.stop s)) (dmul (dec_of_Z 100) (ExitConfig.hard_stop_r c))
  | Raise _ => false
  end.

Definition preset_ok (p : string * result ExitConfig.t) : Prop :=
  ∃ c, p.2 = Ok c ∧ ExitConfig.label c = p.1 ∧ constructed c ∧ stop_line_agrees c = true.

Lemma preset_ok_intro label lr hs ta dd mh rr hours band cooled mode c :
  (l ← all_ok lr; r ← all_ok rr; ExitConfig.new label l hs ta dd mh r hours band cooled mode) = Ok c →
  Forall tp_rung_result lr → Forall ratchet_rung_result rr → stop_line_agrees c = true → ExitConfig.label c = label →
  preset_ok (label, l ← all_ok lr; r ← all_ok rr; ExitConfig.new label l hs ta dd mh r hours band cooled mode).
Proof.
  intros H Hl Hr Hs Hlab. exists c. split_and!; try done.
  destruct (all_ok lr) as [l|] eqn:El; [|done]. destruct (all_ok rr) as [r|] eqn:Er; [|done].
  by eapply (constructed_intro label lr _ _ _ _ rr).
Qed.

Ltac rungs := repeat (constructor; [eexists _, _; reflexivity|]); constructor.

Lemma presets_ok : Forall preset_ok AUTO_STRAT_PRESETS.
Proof.
  unfold AUTO_STRAT_PRESETS, plain_preset, _BALANCED_LADDER, _BALANCED_RATCHET.
  repeat (constructor; [eapply preset_ok_intro; [vm_compute; reflexivity|rungs|rungs|vm_compute; reflexivity|reflexivity]|]).
  constructor.
Qed.

(** Every shipped preset passes its own validation, carries its own label,
    and its ladder and survivable stop agree on the hard-stop line; the default
    is [secure_balanced] and an unknown label raises [KeyError]. *)
Theorem presets_valid :
  Forall preset_ok AUTO_STRAT_PRESETS ∧
  preset None = preset (Some "secure_balanced") ∧ is_ok (preset None) = true ∧
  ∀ label, label ∉ AUTO_STRAT_PRESETS.*1 → preset (Some label) = Raise (KeyError "unknown auto-strat preset").
Proof.
  split; [|split; [reflexivity|split; [vm_compute; reflexivity|]]].
  - exact presets_ok.
  - intros label Hl. unfold preset. cbn [default].
    destruct (list_find _ AUTO_STRAT_PRESETS) as [[i [n c]]|] eqn:E; [|done].
    apply list_find_Some in E as (Hi & Hn & _). cbn in Hn. subst n. destruct Hl.
    apply list_elem_of_fmap. exists (label, c). split; [done|]. by eapply list_elem_of_lookup_2.
Qed.

(** ** Concrete runs *)

Definition balanced : ExitConfig.t :=
  match preset None with Ok c => c | Raise _ => ExitConfig.mk "" [] d0 d0 0 0 [] None 0 d0 SECURE end.
Definition entry100 : ExitState.t :=
  match ExitState.at_entry "M" (NInt 100) balanced with
  | Ok s => s
  | Raise _ => ExitState.mk "" d0 sample_stop 0 ∅ d0 false 0 d0 ∅ 0 0
  end.
Definition mark_tick (m bt : Z) : tick := mk_tick (NInt m) (PyInt bt) false false false false None.
Definition remainders (ms : list Z) : list Z :=
  match run_ticks balanced entry100 (imap (λ i m, mark_tick m (Z.of_nat i)) ms) with
  | Ok (ds, _) => (λ d, ExitState.remaining_bps (d_next_state d)) <$> ds
  | Raise _ => []
  end.

(** Two divergences of the take-profit ladder from its documentation.  A
    rung sells its share of the REMAINDER, not of the original position as
    [_scale_out] documents: the 30/30/20 ladder, hit rung by rung, leaves 3920
    bps, not 2000.  And a tick that jumps over rungs does not retire them: at
    an unchanged mark of 7x the skipped 3x and 1.5x rungs fire on the next two
    ticks, although [_highest_hit_rung] documents that they never do. *)
Theorem ladder_compounds_and_backfills :
  remainders [150; 300; 600] = [7000; 4900; 3920] ∧
  remainders [700; 700; 700; 700] = [8000; 5600; 3920; 3920].
Proof. split; vm_compute; reflexivity. Qed.

(** *** Witnesses *)

Lemma balanced_constructed : constructed balanced.
Proof.
  destruct (proj1 (Forall_cons _ _ _) presets_ok) as [(c & Hc & _ & Hcon & _) _].
  assert (balanced = c) as ->; [|exact Hcon].
  unfold balanced. assert (preset None = Ok c) as ->; [|reflexivity].
  rewrite <- Hc. vm_compute. reflexivity.
Defined.

Lemma entry100_ok : ExitState.at_entry "M" (NInt 100) balanced = Ok entry100.
Proof. vm_compute. reflexivity. Defined.

Lemma mark_tick_valid m bt : 0 ≤ bt → tick_valid (mark_tick m bt).
Proof. intros H. exists bt, (dec_of_Z m), None. by split_and!. Qed.

Lemma on_tick_witness :
  state_wf entry100 ∧ ∃ d, on_tick balanced entry100 (mark_tick 60 5) = Ok d ∧ state_wf (d_next_state d).
Proof.
  split; [vm_compute; reflexivity|].
  destruct (on_tick_follows_priority balanced entry100 (mark_tick 60 5) 5 (dec_of_Z 60) None balanced_constructed)
    as (d & Hd & Hw & _); [vm_compute; reflexivity|by split_and!|eauto].
Defined.

Definition up_down : list tick := [mark_tick 150 1; mark_tick 320 2; mark_tick 250 3].
Lemma up_down_valid : Forall tick_valid up_down.
Proof. repeat (constructor; [apply mark_tick_valid; lia|]). constructor. Defined.

Lemma exit_run_witness : ∃ ds s', run_ticks balanced entry100 up_down = Ok (ds, s') ∧ length ds = 3%nat.
Proof.
  destruct (exit_run_only_de_risks balanced "M" (NInt 100) entry100 up_down balanced_constructed entry100_ok
    up_down_valid) as (ds & s' & H & _ & Hl & _). exists ds, s'. split; [exact H|exact Hl].
Defined.

(** 3.2x arms the lock at 2x; the fall to 2x flattens. *)
Lemma ratchet_witness :
  ∃ ds s', run_ticks balanced entry100 [mark_tick 320 2] = Ok (ds, s') ∧
    ∃ d, on_tick balanced s' (mark_tick 200 3) = Ok d ∧ ExitState.remaining_bps (d_next_state d) = 0.
Proof.
  destruct (run_ticks balanced entry100 [mark_tick 320 2]) as [[ds s']|] eqn:E; [|by vm_compute in E].
  exists ds, s'. split; [reflexivity|].
  apply (ratchet_locks_profit balanced "M" (NInt 100) entry100 [mark_tick 320 2] ds s'
    (RatchetRung.mk (mkdec 30 (-1)) (mkdec 20 (-1))) (mark_tick 320 2) (mkdec 32 (-1)) (mark_tick 200 3) (mkdec 2 0)
    balanced_constructed entry100_ok).
  - repeat (constructor; [apply mark_tick_valid; lia|]). constructor.
  - exact E.
  - apply (list_elem_of_lookup_2 _ 2). reflexivity.
  - left. reflexivity.
  - exists (dec_of_Z 320). split; [reflexivity|vm_compute; reflexivity].
  - apply dleb_dle. reflexivity.
  - apply mark_tick_valid. lia.
  - exists (dec_of_Z 200). split; [reflexivity|vm_compute; reflexivity].
  - apply dleb_dle. reflexivity.
Defined.

Definition flat_marks : list tick := replicate 24 (mark_tick 100 1).
Lemma flat_marks_valid : Forall tick_valid flat_marks.
Proof. apply Forall_replicate, mark_tick_valid. lia. Defined.

Lemma timeout_witness :
  ∃ ds s', run_ticks balanced entry100 flat_marks = Ok (ds, s') ∧ ExitState.remaining_bps s' = 0.
Proof.
  destruct (run_ticks balanced entry100 flat_marks) as [[ds s']|] eqn:E; [|by vm_compute in E].
  exists ds, s'. split; [reflexivity|].
  apply (position_closed_by_timeout balanced "M" (NInt 100) entry100 flat_marks ds s' balanced_constructed
    entry100_ok flat_marks_valid E). by vm_compute.
Defined.

Lemma rungs_witness :
  ∃ ds s', run_ticks balanced entry100 up_down = Ok (ds, s') ∧ (tp_count ds ≤ 3)%nat.
Proof.
  destruct (run_ticks balanced entry100 up_down) as [[ds s']|] eqn:E; [|by vm_compute in E].
  exists ds, s'. split; [reflexivity|].
  exact (rungs_fire_at_most_once balanced "M" (NInt 100) entry100 up_down ds s' balanced_constructed
    entry100_ok up_down_valid E).
Defined.
