(* ===== verification/MicroPreset.v ===== *)
(** * The early-entry MICRO preset: [aats/risk/presets.py]

    A named composition of the safety gate, the sizer and an exit
    configuration. *)

From S2P Require Import Prelude Decimal DecimalOrder RiskContracts Float64 FloatRepr Intents SurvivableStop Sizing SafetyGate ExitEngine.

Definition MICRO_PRESET_LABEL : string := "micro".
Definition MICRO_TOP5_CONCENTRATION_MAX_BPS : Z := 2000.
Definition MICRO_MIN_LP_LOCKED_BPS : Z := BPS_DENOM.
Definition MICRO_MIN_LP_LOCK_DAYS : Z := 30.

Definition MICRO_SAFETY_THRESHOLDS : result SafetyThresholds.t :=
  SafetyThresholds.new (PyInt MICRO_MIN_LP_LOCKED_BPS) (PyInt MICRO_TOP5_CONCENTRATION_MAX_BPS)
    (PyInt (SafetyThresholds.min_distinct_holders SafetyThresholds.default)) (PyInt MICRO_TOP5_CONCENTRATION_MAX_BPS)
    (PyInt 500) (PyInt 500) (PyInt 2000).

(** ** The extra facts and their flags *)

Inductive MicroRedFlag : Type := NOT_VERIFIED | LP_LOCK_TOO_SHORT | TOP5_CONCENTRATION_HIGH.
Definition micro_value (f : MicroRedFlag) : string :=
  match f with
  | NOT_VERIFIED => "not_verified" | LP_LOCK_TOO_SHORT => "lp_lock_too_short"
  | TOP5_CONCENTRATION_HIGH => "top5_concentration_high"
  end.

Module MicroSafetyFacts.
Record t : Type := mk { verified : option bool; lp_lock_age_days : option Z; holder_concentration_top5_bps : option Z }.

(** [verified] as given: a bool or something else. *)
Inductive flag_arg : Type := FBool (b : bool) | FOther (type_name : string).

Fixpoint check_fields (fields : list (string * option pynum)) : result unit :=
  match fields with
  | [] => Ok tt
  | (f, Some (PyFloat _)) :: _ => Raise (TypeError ("MicroSafetyFacts." +:+ f +:+ " must be int or None, got float"))
  | (f, Some (PyInt z)) :: fs =>
      if z <? 0 then Raise (ValueError ("MicroSafetyFacts." +:+ f +:+ " must be non-negative")) else check_fields fs
  | (_, None) :: fs => check_fields fs
  end.

Definition new (verified : option flag_arg) (age top5 : option pynum) : result t :=
  _ ← check_fields [("lp_lock_age_days", age); ("holder_concentration_top5_bps", top5)];
  match verified with
  | Some (FOther ty) => Raise (TypeError ("MicroSafetyFacts.verified must be bool or None, got " +:+ ty))
  | Some (FBool b) => Ok (mk (Some b) (pynum_int <$> age) (pynum_int <$> top5))
  | None => Ok (mk None (pynum_int <$> age) (pynum_int <$> top5))
  end.
End MicroSafetyFacts.

(** A hit of the gate, or its subclass that carries a MICRO code. *)
Inductive micro_hit_t : Type :=
| BaseHit (h : RedFlagHit)
| _MicroRedFlagHit (h : RedFlagHit) (micro_code : string).

Definition _micro_hit (code : MicroRedFlag) (measured threshold : option Z) : micro_hit_t :=
  _MicroRedFlagHit (mk_hit INPUT_INCOMPLETE measured threshold) (micro_value code).

Definition incomplete : micro_hit_t := BaseHit (mk_hit INPUT_INCOMPLETE None None).

Definition _micro_extra_flags (facts : MicroSafetyFacts.t) : list micro_hit_t :=
  match MicroSafetyFacts.verified facts with
  | None => [incomplete]
  | Some verified => if negb verified then [_micro_hit NOT_VERIFIED None None] else []
  end ++
  match MicroSafetyFacts.lp_lock_age_days facts with
  | None => [incomplete]
  | Some age => if age <? MICRO_MIN_LP_LOCK_DAYS then [_micro_hit LP_LOCK_TOO_SHORT (Some age) (Some MICRO_MIN_LP_LOCK_DAYS)] else []
  end ++
  match MicroSafetyFacts.holder_concentration_top5_bps facts with
  | None => [incomplete]
  | Some top5 => if MICRO_TOP5_CONCENTRATION_MAX_BPS <=? top5
                 then [_micro_hit TOP5_CONCENTRATION_HIGH (Some top5) (Some MICRO_TOP5_CONCENTRATION_MAX_BPS)] else []
  end.

(** [flag.value] *)
Definition flag_value (f : RedFlag) : string :=
  match f with
  | FREEZE_AUTHORITY_SET => "freeze_authority_set" | MINT_AUTHORITY_NOT_RENOUNCED => "mint_authority_not_renounced"
  | LP_NOT_LOCKED_OR_BURNED => "lp_not_locked_or_burned" | DEV_OR_BUNDLE_CLUSTER => "dev_or_bundle_cluster"
  | HOLDER_CONCENTRATION_HIGH => "holder_concentration_high" | HOLDER_COUNT_TOO_LOW => "holder_count_too_low"
  | SELL_TAX_TOO_HIGH => "sell_tax_too_high" | BUY_TAX_TOO_HIGH => "buy_tax_too_high"
  | CREATOR_DENYLISTED => "creator_denylisted" | MINT_DENYLISTED => "mint_denylisted"
  | SERIAL_DEPLOYER_RUGGED => "serial_deployer_rugged" | DEV_FUNDED_JUST_BEFORE_LAUNCH => "dev_funded_just_before_launch"
  | DEV_FUNDING_UNDECODABLE => "dev_funding_undecodable" | LP_UNLOCK_IMMINENT => "lp_unlock_imminent"
  | LP_UNLOCK_SCHEDULE_UNKNOWN => "lp_unlock_schedule_unknown" | INPUT_STALE => "input_stale"
  | INPUT_INCOMPLETE => "input_incomplete" | NOT_SELLABLE => "not_sellable"
  end.

(** The [GateDecision] of a MICRO evaluation, whose hits may be of either class. *)
Module MicroDecision.
Record t : Type := mk {
  mint : string; verdict : GateVerdict; red_flags : list micro_hit_t; event_slot : Z; event_block_time_ms : Z
}.
End MicroDecision.

Definition micro_red_flag_codes (d : MicroDecision.t) : list string :=
  map (λ hit, match hit with
              | _MicroRedFlagHit h code => if negb (bool_decide (code = "")) then code else flag_value (flag h)
              | BaseHit h => flag_value (flag h)
              end) (MicroDecision.red_flags d).

(** ** The exit configuration *)

Definition MICRO_HARD_STOP_R : num_in := dq 82 2.
Definition _MICRO_TP_LADDER : list (result TpRung.t) := [TpRung.new (dq 13 1) (PyInt 3500); TpRung.new (dq 18 1) (PyInt 3500)].
Definition _MICRO_RATCHET : list (result RatchetRung.t) :=
  [RatchetRung.new (dq 13 1) (dq 95 2); RatchetRung.new (dq 15 1) (dq 10 1); RatchetRung.new (dq 20 1) (dq 14 1)].

Definition MICRO_EXIT_CONFIG : result ExitConfig.t :=
  l ← all_ok _MICRO_TP_LADDER; r ← all_ok _MICRO_RATCHET;
  ExitConfig.new MICRO_PRESET_LABEL l MICRO_HARD_STOP_R (dq 15 1) (PyInt 2000) (PyInt 24) r
    (Some (PyInt 24)) (PyInt 2000) (dq 1 0) SECURE.

(** ** Sizing *)

Definition MICRO_SIZE_FRACTION_BPS : Z := 50.

Module MicroSizingResult.
Record t : Type := mk { final_lamports : Z; kelly_decision : SizingDecision.t; micro_ceiling_lamports : Z }.
Definition new (final : pynum) (kelly : SizingDecision.t) (ceiling : Z) : result t :=
  match final with
  | PyFloat _ => Raise (TypeError "MicroSizingResult.final_lamports must be int lamports (no float).")
  | PyInt z => if z <? 0 then Raise (ValueError "MicroSizingResult.final_lamports must be >= 0.") else Ok (mk z kelly ceiling)
  end.
End MicroSizingResult.

(** [sizer.size] with its default odds. *)
Definition _DEFAULT_NET_ODDS : num_in := NDec (dec_of_Z 1).

Definition micro_size (sizer : FractionalKellySizer.t) (p_calibrated uncertainty : stat_in) (current_aggregate bankroll : pynum)
    (signals : option DeRiskSignals.t) : result MicroSizingResult.t :=
  match bankroll with
  | PyFloat _ => Raise (TypeError "bankroll_lamports must be int lamports (no float money).")
  | PyInt bankroll =>
      if bankroll <? 0 then Raise (ValueError "bankroll_lamports must be >= 0.")
      else
        kelly ← FractionalKellySizer.size sizer p_calibrated uncertainty current_aggregate signals _DEFAULT_NET_ODDS;
        let micro_ceiling := bankroll * MICRO_SIZE_FRACTION_BPS / BPS_DENOM in
        let final := Z.min (SizingDecision.size_lamports kelly) micro_ceiling in
        let final := if final <? 0 then 0 else final in
        MicroSizingResult.new (PyInt final) kelly micro_ceiling
  end.

(** ** The preset *)

Module MicroPreset.
Record t : Type := mk {
  label : string; safety_thresholds : SafetyThresholds.t; exit_config : ExitConfig.t; size_fraction_bps : Z;
  min_lp_lock_days : Z; top5_concentration_max_bps : Z
}.

Definition gate (p : t) : PreTradeSafetyGate := mk_gate (safety_thresholds p) true.

Definition evaluate_safety (p : t) (i : SafetyInputs.t) (facts : MicroSafetyFacts.t)
    (probe : option (string → Z → result bool)) : result MicroDecision.t :=
  let base := scan_all (gate p) i in
  let extra := _micro_extra_flags facts in
  honeypot ← check_sellability i probe;
  let all_hits := (BaseHit <$> GateDecision.red_flags base) ++ extra ++ (BaseHit <$> option_list honeypot) in
  let verdict := match all_hits with [] => PASS | _ => REJECT end in
  Ok (MicroDecision.mk (SafetyInputs.mint i) verdict all_hits (SafetyInputs.event_slot i) (SafetyInputs.event_block_time_ms i)).

Definition size (p : t) (sizer : FractionalKellySizer.t) (p_calibrated uncertainty : stat_in)
    (current_aggregate bankroll : pynum) (signals : option DeRiskSignals.t) : result MicroSizingResult.t :=
  micro_size sizer p_calibrated uncertainty current_aggregate bankroll signals.
End MicroPreset.

(** [MicroPreset()] *)
Definition MICRO_PRESET : result MicroPreset.t :=
  th ← MICRO_SAFETY_THRESHOLDS; cfg ← MICRO_EXIT_CONFIG;
  Ok (MicroPreset.mk MICRO_PRESET_LABEL th cfg MICRO_SIZE_FRACTION_BPS MICRO_MIN_LP_LOCK_DAYS MICRO_TOP5_CONCENTRATION_MAX_BPS).

Definition ENTRY_PRESETS : list (string * result MicroPreset.t) := [(MICRO_PRESET_LABEL, MICRO_PRESET)].

Definition entry_preset (label : option string) : result MicroPreset.t :=
  let label := default MICRO_PRESET_LABEL label in
  match list_find (λ p, p.1 = label) ENTRY_PRESETS with
  | Some (_, (_, p)) => p
  | None => Raise (KeyError "unknown entry preset")
  end.

(** ** Safety *)

(** The extra facts pass the MICRO band. *)
Record facts_ok (f : MicroSafetyFacts.t) : Prop := {
  fo_verified : MicroSafetyFacts.verified f = Some true;
  fo_age : within (MicroSafetyFacts.lp_lock_age_days f) (λ z, 30 ≤ z);
  fo_top5 : within (MicroSafetyFacts.holder_concentration_top5_bps f) (λ z, z < 2000)
}.

Lemma extra_flags_none f : _micro_extra_flags f = [] ↔ facts_ok f.
Proof.
  unfold _micro_extra_flags, within, MICRO_MIN_LP_LOCK_DAYS, MICRO_TOP5_CONCENTRATION_MAX_BPS. split.
  - intros H. destruct f as [[[]|] [a|] [t|]]; cbn in H; try done;
      destruct (Z.ltb_spec a 30); cbn in H; try done; destruct (Z.leb_spec 2000 t); try done.
    constructor; cbn; [done|by exists a|by exists t].
  - intros [H1 (a & H2 & Ha) (t & H3 & Ht)]. rewrite H1, H2, H3. cbn.
    by rewrite (proj2 (Z.ltb_ge a 30)), (proj2 (Z.leb_gt 2000 t)) by lia.
Qed.

(** The thresholds of the MICRO preset, and that they only tighten. *)
Definition micro_thresholds : SafetyThresholds.t := SafetyThresholds.mk 10000 2000 10 2000 500 500 2000.

Lemma micro_thresholds_eq : MICRO_SAFETY_THRESHOLDS = Ok micro_thresholds.
Proof. reflexivity. Qed.

Lemma micro_tighter : SafetyGate.tighter micro_thresholds SafetyThresholds.default.
Proof. constructor; cbn; lia. Qed.

Lemma scan_flags_nil g i : GateDecision.red_flags (scan_all g i) = [] ↔ safe (thresholds g) i.
Proof. rewrite <- checks_safe. unfold scan_all. by destruct (_ ++ _). Qed.

Lemma evaluate_safety_eq p i facts probe d : MicroPreset.evaluate_safety p i facts probe = Ok d →
  ∃ hit, check_sellability i probe = Ok hit ∧
    MicroDecision.red_flags d =
      (BaseHit <$> GateDecision.red_flags (scan_all (MicroPreset.gate p) i)) ++ _micro_extra_flags facts ++ (BaseHit <$> option_list hit) ∧
    (MicroDecision.verdict d = PASS ↔ MicroDecision.red_flags d = []).
Proof.
  unfold MicroPreset.evaluate_safety. destruct (check_sellability i probe) as [hit|]; [|done]. intros [= <-]. cbn.
  exists hit. split_and!; [done|done|]. by destruct (_ ++ _).
Qed.

Lemma sellable_iff i probe hit : check_sellability i probe = Ok hit →
  (hit = None ↔ ∃ f, probe = Some f ∧ f (SafetyInputs.mint i) (SafetyInputs.event_slot i) = Ok true).
Proof.
  unfold check_sellability. destruct probe as [f|]; [|intros [= <-]; split; [done|by intros (? & ? & _)]].
  destruct (f _ _) as [b|] eqn:E; [|done]. cbn. destruct b; intros [= <-]; (split; [intros; first [done|by exists f]|]); [done|].
  intros (f' & [= <-] & Ef). congruence.
Qed.

(** MICRO passes exactly the sellable candidates inside its band, and never
    one the default gate rejects.  An evaluation that returns passes iff every
    base fact is decoded, fresh and inside the preset's thresholds, the token
    is verified, its liquidity committed for thirty days, its top five
    holders below a fifth, and a wired probe says it can be sold; the only
    error is the probe's own; and what the shipped preset passes the default
    gate passes too. *)
Theorem micro_passes_iff p i facts probe :
  match MicroPreset.evaluate_safety p i facts probe with
  | Ok d =>
      (MicroDecision.verdict d = PASS ↔
         safe (MicroPreset.safety_thresholds p) i ∧ facts_ok facts ∧
         ∃ f, probe = Some f ∧ f (SafetyInputs.mint i) (SafetyInputs.event_slot i) = Ok true) ∧
      (MicroDecision.verdict d = PASS ↔ micro_red_flag_codes d = []) ∧
      (MICRO_PRESET = Ok p → MicroDecision.verdict d = PASS →
         GateDecision.passed (evaluate_fast (mk_gate SafetyThresholds.default true) i) = true)
  | Raise e => ∃ f, probe = Some f ∧ f (SafetyInputs.mint i) (SafetyInputs.event_slot i) = Raise e
  end.
Proof.
  destruct (MicroPreset.evaluate_safety p i facts probe) as [d|e] eqn:E.
  2:{ unfold MicroPreset.evaluate_safety, check_sellability in E. destruct probe as [f|]; [|done]. exists f. split; [done|].
      destruct (f _ _) as [b|e']; [by destruct b|]. by injection E as <-. }
  destruct (evaluate_safety_eq p i facts probe d E) as (hit & Hhit & Hflags & Hv).
  assert (MicroDecision.verdict d = PASS ↔ safe (MicroPreset.safety_thresholds p) i ∧ facts_ok facts ∧
    ∃ f, probe = Some f ∧ f (SafetyInputs.mint i) (SafetyInputs.event_slot i) = Ok true) as Hiff.
  { rewrite Hv, Hflags, <- extra_flags_none, <- (sellable_iff i probe hit Hhit).
    change (MicroPreset.safety_thresholds p) with (thresholds (MicroPreset.gate p)). rewrite <- scan_flags_nil.
    destruct (GateDecision.red_flags _); cbn; [|by split; [|intros (? & _)]].
    destruct (_micro_extra_flags facts); cbn; [|by split; [|intros (_ & ? & _)]]. by destruct hit; split; intros; try tauto; [|]; destruct_and?. }
  split_and!; [done| |].
  - rewrite Hv. unfold micro_red_flag_codes. by destruct (MicroDecision.red_flags d).
  - intros Hp (Hs & _)%Hiff. apply fast_passes. cbn. apply (safe_tighter _ micro_thresholds); [exact micro_tighter|].
    unfold MICRO_PRESET in Hp. rewrite micro_thresholds_eq in Hp. cbn [mbind result_bind] in Hp.
    destruct MICRO_EXIT_CONFIG; [|done]. cbn in Hp. by injection Hp as <-.
Qed.

(** ** Size *)

(** A MICRO size is below every bound and never above the sizer's, and the
    preset's own fraction is not among the bounds.  Whatever the preset, a
    result is the smaller of the size the sizer gives and half a percent of
    the bankroll; so it is between zero and a quarter of the per-trade cap,
    keeps the aggregate under its cap, and exists exactly when the sizer
    answers and the bankroll is a non-negative integer. *)
Theorem micro_size_bounded config preset p unc z bankroll signals :
  fits (RiskConfig.kelly_fraction_cap config) → 0 ≤ coef (RiskConfig.kelly_fraction_cap config) →
  0 ≤ RiskConfig.per_trade_cap_lamports config < 10 ^ 24 →
  signals_ok (default DeRiskSignals.default signals) → stat_wf p → stat_wf unc →
  let sizer := FractionalKellySizer.__init__ config in
  let sized := MicroPreset.size preset sizer p unc (PyInt z) bankroll signals in
  (is_ok sized = true ↔ (∃ b, bankroll = PyInt b ∧ 0 ≤ b) ∧
     is_ok (FractionalKellySizer.size sizer p unc (PyInt z) signals _DEFAULT_NET_ODDS) = true) ∧
  ∀ r b, sized = Ok r → bankroll = PyInt b →
    FractionalKellySizer.size sizer p unc (PyInt z) signals _DEFAULT_NET_ODDS = Ok (MicroSizingResult.kelly_decision r) ∧
    MicroSizingResult.final_lamports r = Z.min (SizingDecision.size_lamports (MicroSizingResult.kelly_decision r)) (b * 50 / 10000) ∧
    0 ≤ MicroSizingResult.final_lamports r ∧ 4 * MicroSizingResult.final_lamports r ≤ RiskConfig.per_trade_cap_lamports config ∧
    z + MicroSizingResult.final_lamports r ≤ Z.max z (RiskConfig.max_aggregate_lamports config) ∧
    200 * MicroSizingResult.final_lamports r ≤ b.
Proof.
  intros Hfits Hcap Hpt Hsig Hp Hu sizer sized. unfold sized, MicroPreset.size, micro_size.
  destruct bankroll as [b|]; [|split; [split; [done|by intros ((? & ? & _) & _)]|done]].
  destruct (Z.ltb_spec b 0); [split; [split; [done|intros ((? & [= <-] & ?) & _); lia]|done]|].
  destruct (FractionalKellySizer.size sizer p unc (PyInt z) signals _DEFAULT_NET_ODDS) as [k|] eqn:Ek; cbn [mbind result_bind].
  2:{ split; [split; [done|by intros (_ & ?)]|done]. }
  destruct (size_bounds config Hfits Hcap Hpt signals p unc z _DEFAULT_NET_ODDS k Hsig Hp Hu Ek) as (B1 & B2 & B3 & _).
  change (b * MICRO_SIZE_FRACTION_BPS / BPS_DENOM) with (b * 50 / 10000).
  assert (0 ≤ b * 50 / 10000) by (apply Z.div_pos; lia). pose proof (Z.mul_div_le (b * 50) 10000 ltac:(lia)).
  rewrite (proj2 (Z.ltb_ge (Z.min _ _) 0)) by lia. unfold MicroSizingResult.new. rewrite (proj2 (Z.ltb_ge (Z.min _ _) 0)) by lia.
  split; [split; [intros _; split; [by exists b|done]|done]|].
  intros r b' [= <-] [= <-]. cbn. split_and!; try done; lia.
Qed.

(** ** Exits *)

Definition micro_exit : ExitConfig.t :=
  match MICRO_EXIT_CONFIG with Ok c => c | Raise _ => ExitConfig.mk "" [] d0 d0 0 0 [] None 0 d0 SECURE end.

Lemma micro_exit_ok : MICRO_EXIT_CONFIG = Ok micro_exit ∧ constructed micro_exit.
Proof.
  assert (MICRO_EXIT_CONFIG = Ok micro_exit) as H by (vm_compute; reflexivity). split; [done|].
  assert (Forall tp_rung_result _MICRO_TP_LADDER) as Hl by (repeat apply Forall_cons_2; [by do 2 eexists..|apply Forall_nil_2]).
  assert (Forall ratchet_rung_result _MICRO_RATCHET) as Hr by (repeat apply Forall_cons_2; [by do 2 eexists..|apply Forall_nil_2]).
  pose proof H as H'. unfold MICRO_EXIT_CONFIG in H'.
  destruct (preset_ok_intro _ _ _ _ _ _ _ _ _ _ _ _ H' Hl Hr) as (c & Hc & _ & Hcon & _); [vm_compute; reflexivity..|].
  cbn [snd] in Hc. rewrite H' in Hc. by injection Hc as <-.
Qed.

Lemma micro_stop_line mint d s : ExitState.at_entry mint (NDec d) micro_exit = Ok s →
  StopState.trigger_price (ExitState.stop s) = dmul d (mkdec 82 (-2)) ∧ ExitState.entry_fill_price s = d.
Proof.
  unfold ExitState.at_entry. cbn [_to_decimal_price mbind result_bind].
  assert (ExitConfig.stop_thresholds micro_exit = Ok (StopThresholds.mk 1800)) as -> by (vm_compute; reflexivity).
  cbn [mbind result_bind]. unfold StopState.at_entry. change (default StopThresholds.default (Some (StopThresholds.mk 1800))) with (StopThresholds.mk 1800).
  cbn [SurvivableStop._to_decimal_price mbind result_bind].
  unfold derive_stop_trigger_price. cbn [SurvivableStop._to_decimal_price mbind result_bind].
  destruct (dleb d d0); [done|]. cbn [StopThresholds.hard_stop_drawdown_bps].
  assert (ddiv (dsub (dec_of_Z 10000) (dec_of_Z 1800)) (dec_of_Z 10000) = Ok (mkdec 82 (-2))) as -> by (vm_compute; reflexivity).
  cbn [mbind result_bind]. unfold StopState.__post_init__. destruct (dleb _ d0); [done|]. destruct (dltb _ _); [done|]. cbn [mbind result_bind].
  unfold ExitState.__post_init__. repeat (case_match; try done). intros [= <-]. by cbn.
Qed.

Lemma no_score_not_stale c s r mark bt t :
  first_hit (forced_exits c s r mark bt t None) ≠ Some STALE_NARRATIVE_TIME_STOP.
Proof. unfold forced_exits, stale. destruct (ExitConfig.time_stop_hours c); cbn; by repeat case_match. Qed.

(** When a position held under MICRO is flat.  Its stop is 0.82 of entry,
    fixed for life: on any later tick at or below it, and after any 24 ticks
    however short, nothing remains.  The 24-hour exit needs a narrative
    score: with one, whatever it is, a position flat for 24 hours of event
    time is stale; without one no tick ever exits for it. *)
Theorem micro_exits mint d s ts ds s' :
  ExitState.at_entry mint (NDec d) micro_exit = Ok s → Forall tick_valid ts → run_ticks micro_exit s ts = Ok (ds, s') →
  StopState.trigger_price (ExitState.stop s') = dmul d (mkdec 82 (-2)) ∧
  (24 ≤ Z.of_nat (length ts) → ExitState.remaining_bps s' = 0) ∧
  (∀ t bt mark score, tick_inputs t bt mark score → ∃ dn, on_tick micro_exit s' t = Ok dn ∧
     (dle mark (dmul d (mkdec 82 (-2))) → ExitState.remaining_bps (d_next_state dn) = 0) ∧
     (score = None → d_reason dn ≠ STALE_NARRATIVE_TIME_STOP)) ∧
  (∀ st sc bt, dle sc d1 → stale micro_exit st (Some sc) bt = true ↔
     0 ≤ ExitState.last_active_block_time_ms st ∧ ExitState.last_active_block_time_ms st + 24 * 3600000 ≤ bt).
Proof.
  intros He Hv Hrun. destruct (micro_stop_line mint d s He) as [Htrig _]. destruct micro_exit_ok as [_ Hc%constructed_wf].
  apply entry_state in He as (Hw & _ & _ & Hn & _).
  destruct (run_ticks_spec micro_exit (λ _, True) s ts Hc Hw Hv I ltac:(done)) as (ds2 & s2 & E & Hw' & Ht & _).
  rewrite Hrun in E. injection E as <- <-.
  assert (StopState.trigger_price (ExitState.stop s') = dmul d (mkdec 82 (-2))) as Htrig' by (by rewrite (t_stop _ _ Ht)).
  split_and!; [done| | |].
  - intros Hlen. destruct (run_steps micro_exit s ts ds s' Hc Hw Hv Hrun) as [|[Hs Hlt]]; [done|].
    assert (ts ≠ []) as Hne by (intros ->; cbn in Hlen; lia). specialize (Hlt Hne). rewrite Hn in Hs.
    assert (ExitConfig.max_hold_steps micro_exit = 24) as Hm by (vm_compute; reflexivity). lia.
  - intros t bt mark score Hi. destruct (on_tick_spec micro_exit s' t bt mark score Hc Hw' Hi) as (dn & Hd & _ & _ & _ & Hcase).
    exists dn. split; [done|]. destruct Hcase as [[H0 ->]|(_ & r & s1 & _ & _ & Hsp & Hdec)]; [by split|]. split.
    + intros Hmark. apply (decided_forced micro_exit s1 r mark bt t score dn HARD_STOP); [|done].
      unfold forced_exits. cbn [In]. do 4 right. left. f_equal. apply dleb_dle.
      by rewrite (t_stop _ _ (ss_tighter _ _ _ _ Hsp)), Htrig'.
    + intros ->. pose proof (no_score_not_stale micro_exit s1 r mark bt t) as Hno. unfold decided in Hdec.
      destruct (first_hit _) as [reason|]; [destruct Hdec as [-> _]; naive_solver|].
      destruct Hdec as [[_ (? & ? & ? & _ & _ & _ & _ & -> & _)]|[_ ->]]; done.
  - intros st sc bt Hsc. unfold stale.
    assert (ExitConfig.time_stop_hours micro_exit = Some 24) as -> by (vm_compute; reflexivity).
    assert (ExitConfig.time_stop_narrative_cooled_at micro_exit = mkdec 1 0) as -> by (vm_compute; reflexivity).
    change (mkdec 1 0) with d1. rewrite (proj2 (dleb_dle _ _) Hsc). cbn [andb]. rewrite !andb_true_iff, !Z.leb_le. lia.
Qed.

(** *** Witnesses *)

Definition micro_preset : MicroPreset.t :=
  MicroPreset.mk MICRO_PRESET_LABEL micro_thresholds micro_exit MICRO_SIZE_FRACTION_BPS MICRO_MIN_LP_LOCK_DAYS
    MICRO_TOP5_CONCENTRATION_MAX_BPS.
Definition micro_inputs : SafetyInputs.t :=
  SafetyInputs.mk "M" 7 1000 100 None (Some "") (Some 10000) (Some 500) (Some 1900) (Some 0) (Some 0) true (Some 40).
Definition sellable_probe : string → Z → result bool := λ _ _, Ok true.

Example entry_presets_resolve : entry_preset None = Ok micro_preset ∧ entry_preset (Some "macro") = Raise (KeyError "unknown entry preset").
Proof. split; vm_compute; reflexivity. Qed.

Example micro_codes :
  match MicroPreset.evaluate_safety micro_preset micro_inputs (MicroSafetyFacts.mk (Some false) (Some 29) (Some 2000)) None with
  | Ok d => micro_red_flag_codes d | Raise _ => [] end
  = ["not_verified"; "lp_lock_too_short"; "top5_concentration_high"; "not_sellable"].
Proof. vm_compute. reflexivity. Qed.

Lemma micro_passes_witness : ∃ d,
  MicroPreset.evaluate_safety micro_preset micro_inputs (MicroSafetyFacts.mk (Some true) (Some 30) (Some 1999)) (Some sellable_probe) = Ok d ∧
  MicroDecision.verdict d = PASS ∧
  GateDecision.passed (evaluate_fast (mk_gate SafetyThresholds.default true) micro_inputs) = true.
Proof.
  pose proof (micro_passes_iff micro_preset micro_inputs (MicroSafetyFacts.mk (Some true) (Some 30) (Some 1999)) (Some sellable_probe)) as H.
  destruct (MicroPreset.evaluate_safety micro_preset micro_inputs (MicroSafetyFacts.mk (Some true) (Some 30) (Some 1999)) (Some sellable_probe))
    as [d|e] eqn:E; [|vm_compute in E; discriminate E].
  destruct H as (_ & _ & H). exists d. split; [reflexivity|].
  assert (MicroDecision.verdict d = PASS) as Hv by (vm_compute in E; by injection E as <-).
  split; [exact Hv|]. apply H; [vm_compute; reflexivity|exact Hv].
Defined.

Lemma micro_size_witness : ∃ r,
  MicroPreset.size micro_preset (FractionalKellySizer.__init__ RiskConfig.defaults) p70 u10 (PyInt 0) (PyInt 1000000000) None = Ok r ∧
  MicroSizingResult.final_lamports r = 5000000 ∧ 200 * MicroSizingResult.final_lamports r ≤ 1000000000.
Proof.
  destruct (micro_size_bounded RiskConfig.defaults micro_preset p70 u10 0 (PyInt 1000000000) None) as [_ H];
    [by vm_compute|by vm_compute|by vm_compute|exact default_signals_ok|by vm_compute|by vm_compute|].
  destruct (MicroPreset.size micro_preset (FractionalKellySizer.__init__ RiskConfig.defaults) p70 u10 (PyInt 0) (PyInt 1000000000) None)
    as [r|e] eqn:E; [|vm_compute in E; discriminate E].
  exists r. split; [reflexivity|]. destruct (H r 1000000000 eq_refl eq_refl) as (_ & _ & _ & _ & _ & H200).
  split; [vm_compute in E; by injection E as <-|exact H200].
Defined.

Lemma micro_exits_witness : ∃ s ds s',
  ExitState.at_entry "M" (NDec (dec_of_Z 100)) micro_exit = Ok s ∧
  run_ticks micro_exit s (replicate 24 (mark_tick 100 1)) = Ok (ds, s') ∧ ExitState.remaining_bps s' = 0.
Proof.
  destruct (ExitState.at_entry "M" (NDec (dec_of_Z 100)) micro_exit) as [s|e] eqn:Es; [|vm_compute in Es; discriminate Es].
  destruct (run_ticks micro_exit s (replicate 24 (mark_tick 100 1))) as [[ds s']|e] eqn:Er.
  2:{ vm_compute in Es. injection Es as <-. vm_compute in Er. discriminate Er. }
  exists s, ds, s'. split; [reflexivity|]. split; [exact Er|].
  destruct (micro_exits "M" (dec_of_Z 100) s (replicate 24 (mark_tick 100 1)) ds s' Es) as (_ & H & _);
    [apply Forall_replicate, mark_tick_valid; lia|exact Er|]. apply H. cbn. lia.
Defined.
