(* ===== verification/Positions.v ===== *)
(** * Positions: [aats/contracts/positions.py] and [FillResult] of
    [aats/contracts/venue.py] *)

From S2P Require Import Prelude Decimal RiskContracts Intents.

Inductive FSMState : Type := IDLE | ENTERING | OPEN | CLOSING | CLOSED | VETOED.
#[export] Instance FSMState_eq_dec : EqDecision FSMState.
Proof. solve_decision. Defined.

Definition state_value (s : FSMState) : string :=
  match s with
  | IDLE => "IDLE" | ENTERING => "ENTERING" | OPEN => "OPEN"
  | CLOSING => "CLOSING" | CLOSED => "CLOSED" | VETOED => "VETOED"
  end.

Definition FSM_LEGAL_TRANSITIONS : list (FSMState * FSMState) :=
  [(IDLE, ENTERING); (ENTERING, OPEN); (ENTERING, VETOED); (OPEN, CLOSING); (CLOSING, CLOSED)].

Definition validate_fsm_transition (current next_state : FSMState) : result unit :=
  if bool_decide ((current, next_state) ∉ FSM_LEGAL_TRANSITIONS)
  then Raise (ValueError ("fsm_illegal_transition: " +:+ state_value current +:+ " -> " +:+ state_value next_state))
  else Ok tt.

Inductive position_status : Type := st_open | st_closed.
Inductive completeness : Type := complete | CENSORED.
#[export] Instance position_status_eq_dec : EqDecision position_status.
Proof. solve_decision. Defined.
#[export] Instance completeness_eq_dec : EqDecision completeness.
Proof. solve_decision. Defined.

Module Position.
Record t : Type := mk {
  mint : string;
  token : string;
  surface : string;
  fsm_state : FSMState;
  entry_slot : Z;
  sol_in_lamports : Z;
  tokens_out_base : Z;
  entry_slippage_bps : Z;
  exit_config_label : string;
  mode : exit_mode;
  tp_hit : Z;
  tp_total : Z;
  trailing_armed : bool;
  hard_stop_price_lamports : Z;
  realized_pnl_net_lamports : option Z;
  unrealized_pnl_net_lamports : Z;
  cost_breakdown : CostStack.t;
  status : position_status;
  completeness_status : completeness
}.
#[global] Instance t_eq_dec : EqDecision t.
Proof. solve_decision. Defined.

(** The money fields as given; [None] is skipped. *)
Definition _reject_float_money (sol tokens stop : pynum) (realized : option pynum) (unrealized : pynum) : result unit :=
  reject_floats "Position"
    ([("sol_in_lamports", sol); ("tokens_out_base", tokens); ("hard_stop_price_lamports", stop)]
     ++ match realized with Some r => [("realized_pnl_net_lamports", r)] | None => [] end
     ++ [("unrealized_pnl_net_lamports", unrealized)]).

Definition _closed_invariant (p : t) : result t :=
  match status p, realized_pnl_net_lamports p with
  | st_closed, None => Raise (ValueError "A closed Position must have realized_pnl_net_lamports set")
  | _, _ => Ok p
  end.

Definition new (mint token surface : string) (state : FSMState) (entry_slot : Z) (sol tokens : pynum)
    (slippage : Z) (label : string) (m : exit_mode) (tp_hit tp_total : Z) (armed : bool) (stop : pynum)
    (realized : option pynum) (unrealized : pynum) (cost : CostStack.t) (st : position_status)
    (compl : completeness) : result t :=
  _ ← _reject_float_money sol tokens stop realized unrealized;
  _closed_invariant (mk mint token surface state entry_slot (pynum_int sol) (pynum_int tokens) slippage label m
    tp_hit tp_total armed (pynum_int stop) (pynum_int <$> realized) (pynum_int unrealized) cost st compl).

(** [model_copy(update=...)]: the copies the state machine makes. *)
Definition copy (p : t) (state : FSMState) (tokens slippage tp_hit : Z) (armed : bool) (realized : option Z)
    (unrealized : Z) (st : position_status) : t :=
  mk (mint p) (token p) (surface p) state (entry_slot p) (sol_in_lamports p) tokens slippage
     (exit_config_label p) (mode p) tp_hit (tp_total p) armed (hard_stop_price_lamports p) realized unrealized
     (cost_breakdown p) st (completeness_status p).

Definition with_state (s : FSMState) (p : t) : t :=
  copy p s (tokens_out_base p) (entry_slippage_bps p) (tp_hit p) (trailing_armed p) (realized_pnl_net_lamports p)
    (unrealized_pnl_net_lamports p) (status p).
Definition opened (tokens slippage : Z) (p : t) : t :=
  copy p OPEN tokens slippage (tp_hit p) (trailing_armed p) (realized_pnl_net_lamports p) 0 st_open.
Definition finished (s : FSMState) (realized : Z) (p : t) : t :=
  copy p s (tokens_out_base p) (entry_slippage_bps p) (tp_hit p) (trailing_armed p) (Some realized)
    (unrealized_pnl_net_lamports p) st_closed.
Definition with_unrealized (u : Z) (p : t) : t :=
  copy p (fsm_state p) (tokens_out_base p) (entry_slippage_bps p) (tp_hit p) (trailing_armed p)
    (realized_pnl_net_lamports p) u (status p).
Definition with_tp_hit (n : Z) (p : t) : t :=
  copy p (fsm_state p) (tokens_out_base p) (entry_slippage_bps p) n (trailing_armed p)
    (realized_pnl_net_lamports p) (unrealized_pnl_net_lamports p) (status p).
Definition with_trailing (p : t) : t :=
  copy p (fsm_state p) (tokens_out_base p) (entry_slippage_bps p) (tp_hit p) true
    (realized_pnl_net_lamports p) (unrealized_pnl_net_lamports p) (status p).
End Position.

Module FillResult.
Record t : Type := mk {
  landed : bool;
  reason : string;
  land_slot : option Z;
  slot_delay : option Z;
  buyers_ahead : Z;
  tokens_out : Z;
  effective_price_decimal : string;
  entry_slippage_bps : Z;
  tip_lamports : Z;
  priority_lamports : Z
}.
#[global] Instance t_eq_dec : EqDecision t.
Proof. solve_decision. Defined.

Definition _reject_float_money (tokens slippage tip priority : pynum) : result unit :=
  reject_floats "FillResult"
    [("tokens_out", tokens); ("entry_slippage_bps", slippage); ("tip_lamports", tip); ("priority_lamports", priority)].

(** [FillResult(landed=False, reason=...)] *)
Definition failed (reason : string) : t := mk false reason None None 0 0 "0" 0 0 0.
End FillResult.

(** ** The transition relation *)

Lemma validate_ok_iff a b : validate_fsm_transition a b = Ok tt ↔ (a, b) ∈ FSM_LEGAL_TRANSITIONS.
Proof.
  unfold validate_fsm_transition. case_bool_decide as H; [by split|].
  split; [|done]. intros _. by destruct (decide ((a, b) ∈ FSM_LEGAL_TRANSITIONS)).
Qed.

Lemma validate_cases a b :
  (validate_fsm_transition a b = Ok tt ∧ (a, b) ∈ FSM_LEGAL_TRANSITIONS) ∨
  (∃ m, validate_fsm_transition a b = Raise (ValueError m) ∧ (a, b) ∉ FSM_LEGAL_TRANSITIONS).
Proof.
  unfold validate_fsm_transition. case_bool_decide as H; [right; by eexists|left].
  split; [done|]. by destruct (decide ((a, b) ∈ FSM_LEGAL_TRANSITIONS)).
Qed.

(** Reachability along legal edges. *)
Inductive reaches : FSMState → FSMState → Prop :=
| reaches_refl s : reaches s s
| reaches_step a b c : reaches a b → (b, c) ∈ FSM_LEGAL_TRANSITIONS → reaches a c.

Lemma reaches_trans a b c : reaches a b → reaches b c → reaches a c.
Proof. intros H1 H2. revert a H1. induction H2; intros a0 H1; [done|]. eapply reaches_step; [by apply IHreaches|done]. Qed.

Definition terminal (s : FSMState) : Prop := s = CLOSED ∨ s = VETOED.

Lemma terminal_no_edge s s' : terminal s → (s, s') ∉ FSM_LEGAL_TRANSITIONS.
Proof.
  unfold FSM_LEGAL_TRANSITIONS. intros [-> | ->]; rewrite !not_elem_of_cons; split_and!; try congruence; apply not_elem_of_nil.
Qed.
