(* ===== verification/StateStore.v ===== *)
(** * The shared state store: [aats/controller/state.py]

    [InMemoryStateStore], every operation an atomic step (each holds the lock).
    The wall clock is the sequence of its readings. *)

From S2P Require Import Prelude Decimal RiskContracts Intents Positions.

(** ** Insertion-ordered dictionaries *)

Section Dict.
Context {A : Type}.
Definition dict : Type := list (string * A).

Fixpoint dget (k : string) (d : dict) : option A :=
  match d with
  | [] => None
  | (k', v) :: d => if bool_decide (k' = k) then Some v else dget k d
  end.
(** [d[k] = v]: in place, or at the end. *)
Fixpoint dset (k : string) (v : A) (d : dict) : dict :=
  match d with
  | [] => [(k, v)]
  | (k', v') :: d => if bool_decide (k' = k) then (k', v) :: d else (k', v') :: dset k v d
  end.
(** [d.pop(k, None)] *)
Fixpoint dpop (k : string) (d : dict) : dict :=
  match d with
  | [] => []
  | (k', v) :: d => if bool_decide (k' = k) then dpop k d else (k', v) :: dpop k d
  end.

Lemma dget_dset k v d : dget k (dset k v d) = Some v.
Proof.
  induction d as [|[k' v'] d IH]; cbn; [by rewrite bool_decide_eq_true_2|].
  case_bool_decide as E; cbn; [by rewrite bool_decide_eq_true_2|by rewrite bool_decide_eq_false_2].
Qed.

Lemma dget_dset_ne k k' v d : k ≠ k' → dget k' (dset k v d) = dget k' d.
Proof.
  intros Hne. induction d as [|[k0 v0] d IH]; cbn; [by rewrite bool_decide_eq_false_2|].
  case_bool_decide as E; cbn; [subst; by rewrite !bool_decide_eq_false_2|by rewrite IH].
Qed.

Lemma dget_dpop k d : dget k (dpop k d) = None.
Proof. induction d as [|[k' v'] d IH]; cbn; [done|]. case_bool_decide as E; cbn; [done|]. by rewrite bool_decide_eq_false_2. Qed.

Lemma dget_dpop_ne k k' d : k ≠ k' → dget k' (dpop k d) = dget k' d.
Proof.
  intros Hne. induction d as [|[k0 v0] d IH]; cbn; [done|].
  case_bool_decide as E; cbn; [subst; by rewrite bool_decide_eq_false_2|by rewrite IH].
Qed.

Lemma dpop_dset k v d : dpop k (dset k v d) = dpop k d.
Proof.
  induction d as [|[k' v'] d IH]; cbn; [by rewrite bool_decide_eq_true_2|].
  case_bool_decide as E; cbn; [by rewrite bool_decide_eq_true_2|by rewrite bool_decide_eq_false_2, IH].
Qed.

Lemma dset_keys k v d x : x ∈ (dset k v d).*1 ↔ x = k ∨ x ∈ d.*1.
Proof.
  induction d as [|[k' v'] d IH]; cbn; [by rewrite elem_of_cons|]. case_bool_decide as E; cbn; rewrite !elem_of_cons;
    [subst; tauto|]. rewrite IH. tauto.
Qed.

Lemma dpop_keys k d x : x ∈ (dpop k d).*1 ↔ x ≠ k ∧ x ∈ d.*1.
Proof.
  induction d as [|[k' v'] d IH]; cbn; [by rewrite elem_of_nil; tauto|].
  case_bool_decide as E; cbn; rewrite !elem_of_cons, ?IH; [subst; tauto|]. split; [|tauto].
  intros [->|?]; tauto.
Qed.

Lemma dset_fresh k v d : k ∉ d.*1 → dset k v d = d ++ [(k, v)].
Proof.
  induction d as [|[k' v'] d IH]; cbn; [done|]. rewrite not_elem_of_cons. intros [Hne H].
  rewrite bool_decide_eq_false_2 by done. by rewrite IH.
Qed.

(** Totals over the values, under an update and a removal. *)
Lemma zsum_dset (f : A → Z) k v d :
  zsum (f <$> (dset k v d).*2) = zsum (f <$> d.*2) - (match dget k d with Some o => f o | None => 0 end) + f v.
Proof.
  induction d as [|[k' v'] d IH]; cbn; [lia|].
  case_bool_decide as E; cbn; unfold zsum in *; cbn in *; lia.
Qed.

Lemma Forall_dset (P : A → Prop) k v d : Forall P d.*2 → P v → Forall P (dset k v d).*2.
Proof.
  intros H Hv. induction d as [|[k' v'] d IH]; cbn in *; [by repeat constructor|].
  apply Forall_cons in H as [H1 H2]. case_bool_decide; cbn; constructor; auto.
Qed.

Lemma Forall_dpop (P : A → Prop) k d : Forall P d.*2 → Forall P (dpop k d).*2.
Proof.
  intros H. induction d as [|[k' v'] d IH]; cbn in *; [done|].
  apply Forall_cons in H as [H1 H2]. case_bool_decide; cbn; [|constructor]; auto.
Qed.

Lemma zsum_dpop (f : A → Z) k d : Forall (λ v, 0 ≤ f v) d.*2 → zsum (f <$> (dpop k d).*2) ≤ zsum (f <$> d.*2).
Proof.
  intros H. induction d as [|[k' v'] d IH]; cbn in *; [done|].
  apply Forall_cons in H as [H1 H2]. specialize (IH H2).
  case_bool_decide; cbn; unfold zsum in *; cbn in *; lia.
Qed.

Lemma dget_absent k d : k ∉ d.*1 → dget k d = None ∧ dpop k d = d.
Proof.
  induction d as [|[k' v'] d IH]; cbn; [done|]. rewrite not_elem_of_cons. intros [Hne H].
  rewrite bool_decide_eq_false_2 by congruence. destruct (IH H) as [-> ->]. done.
Qed.

Lemma zsum_dpop_eq (f : A → Z) k d : NoDup d.*1 →
  zsum (f <$> (dpop k d).*2) = zsum (f <$> d.*2) - match dget k d with Some o => f o | None => 0 end.
Proof.
  induction d as [|[k' v] d IH]; cbn; [done|]. intros [Hk Hd]%NoDup_cons. case_bool_decide as E.
  - subst. destruct (dget_absent k d Hk) as [_ ->]. lia.
  - cbn. unfold zsum in IH. rewrite IH by done. lia.
Qed.

Lemma NoDup_dset k v d : NoDup d.*1 → NoDup (dset k v d).*1.
Proof.
  induction d as [|[k' v'] d IH]; cbn; [intros _; apply NoDup_singleton|].
  intros [Hk Hd]%NoDup_cons. case_bool_decide as E; cbn; apply NoDup_cons; [done|].
  rewrite dset_keys. split; [|auto]. by intros [->|].
Qed.

Lemma NoDup_dpop k d : NoDup d.*1 → NoDup (dpop k d).*1.
Proof.
  induction d as [|[k' v'] d IH]; cbn; [done|]. intros [Hk Hd]%NoDup_cons.
  case_bool_decide; cbn; [auto|]. apply NoDup_cons. rewrite dpop_keys. split; [tauto|auto].
Qed.

Lemma dget_Forall (P : A → Prop) k d v : Forall P d.*2 → dget k d = Some v → P v.
Proof.
  intros H. induction d as [|[k' v'] d IH]; cbn in *; [done|].
  apply Forall_cons in H as [H1 H2]. case_bool_decide; [by intros [= <-]|auto].
Qed.
End Dict.
Arguments dict : clear implicits.

(** [DecisionSignal] of [aats/contracts/models.py], the fields the loops read. *)
Record DecisionSignal : Type := mk_signal {
  ds_mint : string;
  ds_p_calibrated : float;
  ds_uncertainty : float;
  ds_surface : string
}.

Record StateStore : Type := mk_store {
  _fsm_locks : gmap string (string * Z);
  _positions : dict Position.t;
  _signals : gmap string (DecisionSignal * Z);
  _veto_flags : gmap string Z;
  _narrative_flags : gmap string Z;
  _insider_dump_flags : gmap string (Z * Z * Z);
  _sellability_degraded_flags : gmap string (string * Z * Z);
  _lp_unlock_approaching_flags : gmap string (string * Z * Z);
  _cooldowns : gmap string Z;
  _seen_intents : gmap string Z;
  _breaker : option BreakerState.t;
  _last_heartbeat_ms : option Z;
  _last_heartbeat_wall_ms : option Z;
  (** clock readings taken so far *)
  _reads : nat
}.

Definition StateStore_init : StateStore :=
  mk_store ∅ [] ∅ ∅ ∅ ∅ ∅ ∅ ∅ ∅ None None None 0.

Definition set_locks x (s : StateStore) : StateStore :=
  mk_store x (_positions s) (_signals s) (_veto_flags s) (_narrative_flags s) (_insider_dump_flags s)
    (_sellability_degraded_flags s) (_lp_unlock_approaching_flags s) (_cooldowns s) (_seen_intents s)
    (_breaker s) (_last_heartbeat_ms s) (_last_heartbeat_wall_ms s) (_reads s).
Definition set_positions x (s : StateStore) : StateStore :=
  mk_store (_fsm_locks s) x (_signals s) (_veto_flags s) (_narrative_flags s) (_insider_dump_flags s)
    (_sellability_degraded_flags s) (_lp_unlock_approaching_flags s) (_cooldowns s) (_seen_intents s)
    (_breaker s) (_last_heartbeat_ms s) (_last_heartbeat_wall_ms s) (_reads s).
Definition set_signals x (s : StateStore) : StateStore :=
  mk_store (_fsm_locks s) (_positions s) x (_veto_flags s) (_narrative_flags s) (_insider_dump_flags s)
    (_sellability_degraded_flags s) (_lp_unlock_approaching_flags s) (_cooldowns s) (_seen_intents s)
    (_breaker s) (_last_heartbeat_ms s) (_last_heartbeat_wall_ms s) (_reads s).
Definition set_vetoes x (s : StateStore) : StateStore :=
  mk_store (_fsm_locks s) (_positions s) (_signals s) x (_narrative_flags s) (_insider_dump_flags s)
    (_sellability_degraded_flags s) (_lp_unlock_approaching_flags s) (_cooldowns s) (_seen_intents s)
    (_breaker s) (_last_heartbeat_ms s) (_last_heartbeat_wall_ms s) (_reads s).
Definition set_narratives x (s : StateStore) : StateStore :=
  mk_store (_fsm_locks s) (_positions s) (_signals s) (_veto_flags s) x (_insider_dump_flags s)
    (_sellability_degraded_flags s) (_lp_unlock_approaching_flags s) (_cooldowns s) (_seen_intents s)
    (_breaker s) (_last_heartbeat_ms s) (_last_heartbeat_wall_ms s) (_reads s).
Definition set_insiders x (s : StateStore) : StateStore :=
  mk_store (_fsm_locks s) (_positions s) (_signals s) (_veto_flags s) (_narrative_flags s) x
    (_sellability_degraded_flags s) (_lp_unlock_approaching_flags s) (_cooldowns s) (_seen_intents s)
    (_breaker s) (_last_heartbeat_ms s) (_last_heartbeat_wall_ms s) (_reads s).
Definition set_sellabilities x (s : StateStore) : StateStore :=
  mk_store (_fsm_locks s) (_positions s) (_signals s) (_veto_flags s) (_narrative_flags s) (_insider_dump_flags s)
    x (_lp_unlock_approaching_flags s) (_cooldowns s) (_seen_intents s)
    (_breaker s) (_last_heartbeat_ms s) (_last_heartbeat_wall_ms s) (_reads s).
Definition set_lp_unlocks x (s : StateStore) : StateStore :=
  mk_store (_fsm_locks s) (_positions s) (_signals s) (_veto_flags s) (_narrative_flags s) (_insider_dump_flags s)
    (_sellability_degraded_flags s) x (_cooldowns s) (_seen_intents s)
    (_breaker s) (_last_heartbeat_ms s) (_last_heartbeat_wall_ms s) (_reads s).
Definition set_cooldowns x (s : StateStore) : StateStore :=
  mk_store (_fsm_locks s) (_positions s) (_signals s) (_veto_flags s) (_narrative_flags s) (_insider_dump_flags s)
    (_sellability_degraded_flags s) (_lp_unlock_approaching_flags s) x (_seen_intents s)
    (_breaker s) (_last_heartbeat_ms s) (_last_heartbeat_wall_ms s) (_reads s).
Definition set_seen x (s : StateStore) : StateStore :=
  mk_store (_fsm_locks s) (_positions s) (_signals s) (_veto_flags s) (_narrative_flags s) (_insider_dump_flags s)
    (_sellability_degraded_flags s) (_lp_unlock_approaching_flags s) (_cooldowns s) x
    (_breaker s) (_last_heartbeat_ms s) (_last_heartbeat_wall_ms s) (_reads s).
Definition set_breaker x (s : StateStore) : StateStore :=
  mk_store (_fsm_locks s) (_positions s) (_signals s) (_veto_flags s) (_narrative_flags s) (_insider_dump_flags s)
    (_sellability_degraded_flags s) (_lp_unlock_approaching_flags s) (_cooldowns s) (_seen_intents s)
    x (_last_heartbeat_ms s) (_last_heartbeat_wall_ms s) (_reads s).
Definition set_heartbeat ms wall (s : StateStore) : StateStore :=
  mk_store (_fsm_locks s) (_positions s) (_signals s) (_veto_flags s) (_narrative_flags s) (_insider_dump_flags s)
    (_sellability_degraded_flags s) (_lp_unlock_approaching_flags s) (_cooldowns s) (_seen_intents s)
    (_breaker s) ms wall (_reads s).
Definition set_reads n (s : StateStore) : StateStore :=
  mk_store (_fsm_locks s) (_positions s) (_signals s) (_veto_flags s) (_narrative_flags s) (_insider_dump_flags s)
    (_sellability_degraded_flags s) (_lp_unlock_approaching_flags s) (_cooldowns s) (_seen_intents s)
    (_breaker s) (_last_heartbeat_ms s) (_last_heartbeat_wall_ms s) n.

Section Ops.
(** The n-th reading of the injected clock. *)
Context (_clock : nat → Z).

Definition _now : M StateStore Z := λ s, (Ok (_clock (_reads s)), set_reads (S (_reads s)) s).
Definition _is_expired (expiry_ms : Z) : M StateStore bool := now ← _now; mret (expiry_ms <=? now).

(** *** FSM and positions *)

(** Purge an expired lock first: a stale ENTERING is re-enterable. *)
Definition purge_lock (mint : string) : M StateStore unit :=
  s ← get;
  match _fsm_locks s !! mint with
  | Some (_, expiry) =>
      expired ← _is_expired expiry;
      if (expired : bool) then modify (λ s, set_locks (delete mint (_fsm_locks s)) s) else mret tt
  | None => mret tt
  end.

Definition claim_entering (mint intent_id : string) (ttl_seconds : Z) : M StateStore bool :=
  now ← _now;
  purge_lock mint;;
  s ← get;
  match _fsm_locks s !! mint with
  | Some _ => mret false
  | None =>
      let expiry_ms := now + ttl_seconds * 1000 in
      modify (λ s, set_locks (<[mint := (intent_id, expiry_ms)]> (_fsm_locks s)) s);;
      mret true
  end.

Definition release_entering (mint : string) : M StateStore unit :=
  modify (λ s, set_locks (delete mint (_fsm_locks s)) s).
Definition save_position (position : Position.t) : M StateStore unit :=
  modify (λ s, set_positions (dset (Position.mint position) position (_positions s)) s).
Definition load_position (mint : string) : M StateStore (option Position.t) :=
  gets (λ s, dget mint (_positions s)).
Definition delete_position (mint : string) : M StateStore unit :=
  modify (λ s, set_positions (dpop mint (_positions s)) s).
Definition load_all_positions : M StateStore (list Position.t) := gets (λ s, (_positions s).*2).

(** *** Values with a time to live

    The reading idiom the store repeats: an expired entry is deleted and read
    as absent. *)
Definition ttl_get {V} (proj : StateStore → gmap string V) (put : gmap string V → StateStore → StateStore)
    (expiry : V → Z) (key : string) : M StateStore (option V) :=
  s ← get;
  match proj s !! key with
  | None => mret None
  | Some v =>
      expired ← _is_expired (expiry v);
      if (expired : bool) then modify (λ s, put (delete key (proj s)) s);; mret None else mret (Some v)
  end.
Definition ttl_set {V} (proj : StateStore → gmap string V) (put : gmap string V → StateStore → StateStore)
    (key : string) (ttl_seconds : Z) (entry : Z → V) : M StateStore unit :=
  now ← _now;
  modify (λ s, put (<[key := entry (now + ttl_seconds * 1000)]> (proj s)) s).
Definition present {V} (o : option V) : bool := match o with Some _ => true | None => false end.

Definition get_decision_signal (mint : string) : M StateStore (option DecisionSignal) :=
  e ← ttl_get _signals set_signals snd mint; mret (fst <$> e).
Definition set_decision_signal (signal : DecisionSignal) (ttl_seconds : Z) : M StateStore unit :=
  ttl_set _signals set_signals (ds_mint signal) ttl_seconds (pair signal).

Definition get_veto_flag (mint : string) : M StateStore bool :=
  e ← ttl_get _veto_flags set_vetoes id mint; mret (present e).
Definition set_veto_flag (mint : string) (ttl_seconds : Z) : M StateStore unit :=
  ttl_set _veto_flags set_vetoes mint ttl_seconds id.
Definition clear_veto_flag (mint : string) : M StateStore unit :=
  modify (λ s, set_vetoes (delete mint (_veto_flags s)) s).

Definition get_narrative_failure_flag (mint : string) : M StateStore bool :=
  e ← ttl_get _narrative_flags set_narratives id mint; mret (present e).
Definition set_narrative_failure_flag (mint : string) (ttl_seconds : Z) : M StateStore unit :=
  ttl_set _narrative_flags set_narratives mint ttl_seconds id.

Definition get_insider_dump_detail (mint : string) : M StateStore (option (Z * Z)) :=
  e ← ttl_get _insider_dump_flags set_insiders snd mint; mret (fst <$> e).
Definition get_insider_dump_flag (mint : string) : M StateStore bool :=
  e ← ttl_get _insider_dump_flags set_insiders snd mint; mret (present e).
Definition set_insider_dump_flag (mint : string) (fraction_sold_bps event_slot : Z) (ttl_seconds : Z)
    : M StateStore unit :=
  if negb ((0 <=? fraction_sold_bps) && (fraction_sold_bps <=? 10000))
  then raise (ValueError "set_insider_dump_flag: fraction_sold_bps must be in [0, 10000]")
  else if event_slot <? 0 then raise (ValueError "set_insider_dump_flag: event_slot must be >= 0")
  else ttl_set _insider_dump_flags set_insiders mint ttl_seconds (pair (fraction_sold_bps, event_slot)).

Definition get_sellability_degraded_detail (mint : string) : M StateStore (option (string * Z)) :=
  e ← ttl_get _sellability_degraded_flags set_sellabilities snd mint; mret (fst <$> e).
Definition get_sellability_degraded_flag (mint : string) : M StateStore bool :=
  e ← ttl_get _sellability_degraded_flags set_sellabilities snd mint; mret (present e).
Definition set_sellability_degraded_flag (mint reason : string) (event_slot ttl_seconds : Z) : M StateStore unit :=
  if bool_decide (reason = "") then raise (ValueError "set_sellability_degraded_flag: reason must be a non-empty str")
  else if event_slot <? 0 then raise (ValueError "set_sellability_degraded_flag: event_slot must be >= 0")
  else ttl_set _sellability_degraded_flags set_sellabilities mint ttl_seconds (pair (reason, event_slot)).

Definition get_lp_unlock_approaching_detail (mint : string) : M StateStore (option (string * Z)) :=
  e ← ttl_get _lp_unlock_approaching_flags set_lp_unlocks snd mint; mret (fst <$> e).
Definition get_lp_unlock_approaching_flag (mint : string) : M StateStore bool :=
  e ← ttl_get _lp_unlock_approaching_flags set_lp_unlocks snd mint; mret (present e).
Definition set_lp_unlock_approaching_flag (mint reason : string) (event_slot ttl_seconds : Z) : M StateStore unit :=
  if bool_decide (reason = "") then raise (ValueError "set_lp_unlock_approaching_flag: reason must be a non-empty str")
  else if event_slot <? 0 then raise (ValueError "set_lp_unlock_approaching_flag: event_slot must be >= 0")
  else ttl_set _lp_unlock_approaching_flags set_lp_unlocks mint ttl_seconds (pair (reason, event_slot)).

Definition set_cooldown (mint : string) (ttl_seconds : Z) : M StateStore unit :=
  ttl_set _cooldowns set_cooldowns mint ttl_seconds id.
Definition in_cooldown (mint : string) : M StateStore bool :=
  e ← ttl_get _cooldowns set_cooldowns id mint; mret (present e).

Definition mark_intent_seen (intent_id : string) (ttl_seconds : Z) : M StateStore bool :=
  s ← get;
  seen ← (match _seen_intents s !! intent_id with
          | Some entry => expired ← _is_expired entry; mret (negb expired)
          | None => mret false
          end);
  if (seen : bool) then mret false
  else ttl_set _seen_intents set_seen intent_id ttl_seconds id;; mret true.

(** *** Breaker, heartbeat, exposure *)

Definition load_breaker_state : M StateStore (option BreakerState.t) := gets _breaker.
Definition save_breaker_state (st : BreakerState.t) : M StateStore unit := modify (set_breaker (Some st)).

Definition emit_heartbeat (block_time_ms : Z) : M StateStore unit :=
  now ← _now; modify (set_heartbeat (Some block_time_ms) (Some now)).
Definition get_heartbeat_age_ms : M StateStore Z :=
  s ← get;
  match _last_heartbeat_wall_ms s with
  | None => mret (2 ^ 31 - 1)
  | Some w => now ← _now; mret (now - w)
  end.

Definition get_aggregate_open_lamports : M StateStore Z :=
  gets (λ s, zsum (Position.sol_in_lamports <$> (_positions s).*2)).

Definition get_fsm_lock (mint : string) : M StateStore (option string) :=
  s ← get;
  match _fsm_locks s !! mint with
  | None => mret None
  | Some (intent_id, expiry) => expired ← _is_expired expiry; mret (if (expired : bool) then None else Some intent_id)
  end.
End Ops.

(** ** Any caller, any operation *)

Inductive store_op : Type :=
| OpClaim (mint id : string) (ttl : Z) | OpRelease (mint : string) | OpLock (mint : string)
| OpSave (p : Position.t) | OpDelete (mint : string)
| OpSignal (mint : string) | OpSetSignal (sg : DecisionSignal) (ttl : Z)
| OpVeto (mint : string) | OpSetVeto (mint : string) (ttl : Z) | OpClearVeto (mint : string)
| OpNarrative (mint : string) | OpSetNarrative (mint : string) (ttl : Z)
| OpInsider (mint : string) | OpSetInsider (mint : string) (fraction slot ttl : Z)
| OpSellability (mint : string) | OpSetSellability (mint reason : string) (slot ttl : Z)
| OpLp (mint : string) | OpSetLp (mint reason : string) (slot ttl : Z)
| OpCooldown (mint : string) | OpSetCooldown (mint : string) (ttl : Z)
| OpSeen (id : string) (ttl : Z)
| OpBreaker (st : BreakerState.t) | OpHeartbeat (block_time_ms : Z) | OpHeartbeatAge.

Section Runs.
Context (_clock : nat → Z).

(** An operation with its boolean answer, where it has one. *)
Definition answer {A} (f : A → bool) (m : M StateStore A) : M StateStore bool := a ← m; mret (f a).
Definition quiet (m : M StateStore unit) : M StateStore bool := answer (λ _, true) m.
Definition run_op (op : store_op) : M StateStore bool :=
  match op with
  | OpClaim m id ttl => claim_entering _clock m id ttl
  | OpRelease m => quiet (release_entering m)
  | OpLock m => answer present (get_fsm_lock _clock m)
  | OpSave p => quiet (save_position p)
  | OpDelete m => quiet (delete_position m)
  | OpSignal m => answer present (get_decision_signal _clock m)
  | OpSetSignal sg ttl => quiet (set_decision_signal _clock sg ttl)
  | OpVeto m => get_veto_flag _clock m
  | OpSetVeto m ttl => quiet (set_veto_flag _clock m ttl)
  | OpClearVeto m => quiet (clear_veto_flag m)
  | OpNarrative m => get_narrative_failure_flag _clock m
  | OpSetNarrative m ttl => quiet (set_narrative_failure_flag _clock m ttl)
  | OpInsider m => get_insider_dump_flag _clock m
  | OpSetInsider m f sl ttl => quiet (set_insider_dump_flag _clock m f sl ttl)
  | OpSellability m => get_sellability_degraded_flag _clock m
  | OpSetSellability m r sl ttl => quiet (set_sellability_degraded_flag _clock m r sl ttl)
  | OpLp m => get_lp_unlock_approaching_flag _clock m
  | OpSetLp m r sl ttl => quiet (set_lp_unlock_approaching_flag _clock m r sl ttl)
  | OpCooldown m => in_cooldown _clock m
  | OpSetCooldown m ttl => quiet (set_cooldown _clock m ttl)
  | OpSeen id ttl => mark_intent_seen _clock id ttl
  | OpBreaker st => quiet (save_breaker_state st)
  | OpHeartbeat b => quiet (emit_heartbeat _clock b)
  | OpHeartbeatAge => answer (λ _, true) (get_heartbeat_age_ms _clock)
  end.

(** The operations in order, with what each answered. *)
Fixpoint run_ops (ops : list store_op) (s : StateStore) : list (result bool) * StateStore :=
  match ops with
  | [] => ([], s)
  | op :: ops => let '(r, s1) := run_op op s in let '(rs, s2) := run_ops ops s1 in (r :: rs, s2)
  end.

Lemma run_ops_cons op ops s : snd (run_ops (op :: ops) s) = snd (run_ops ops (snd (run_op op s))).
Proof. cbn. destruct (run_op op s) as [r s1]; cbn. by destruct (run_ops ops s1). Qed.

(** *** The idioms, computed *)

Lemma ttl_get_eq {V} (proj : StateStore → gmap string V) put (expiry : V → Z) key s :
  ttl_get _clock proj put expiry key s =
  match proj s !! key with
  | None => (Ok None, s)
  | Some v =>
      if expiry v <=? _clock (_reads s)
      then (Ok None, put (delete key (proj (set_reads (S (_reads s)) s))) (set_reads (S (_reads s)) s))
      else (Ok (Some v), set_reads (S (_reads s)) s)
  end.
Proof. unfold ttl_get, _is_expired, _now. mstep. destruct (proj s !! key); [|done]. by destruct (_ <=? _). Qed.

Lemma claim_entering_eq mint id ttl s :
  claim_entering _clock mint id ttl s =
  let e := _clock (_reads s) + ttl * 1000 in
  match _fsm_locks s !! mint with
  | None => (Ok true, set_locks (<[mint := (id, e)]> (_fsm_locks s)) (set_reads (S (_reads s)) s))
  | Some (_, e0) =>
      if e0 <=? _clock (S (_reads s))
      then (Ok true, set_locks (<[mint := (id, e)]> (_fsm_locks s)) (set_reads (S (S (_reads s))) s))
      else (Ok false, set_reads (S (S (_reads s))) s)
  end.
Proof.
  unfold claim_entering, purge_lock, _is_expired, _now. mstep.
  destruct (_fsm_locks s !! mint) as [[i e]|] eqn:E; cbn; [|by rewrite E].
  destruct (_ <=? _) eqn:Ee; cbn; [rewrite lookup_delete_eq|by rewrite E].
  unfold set_locks, set_reads; cbn. by rewrite insert_delete_eq.
Qed.

Lemma mark_intent_seen_eq id ttl s :
  mark_intent_seen _clock id ttl s =
  let add n := set_seen (<[id := _clock n + ttl * 1000]> (_seen_intents s)) (set_reads (S n) s) in
  match _seen_intents s !! id with
  | None => (Ok true, add (_reads s))
  | Some e => if e <=? _clock (_reads s) then (Ok true, add (S (_reads s))) else (Ok false, set_reads (S (_reads s)) s)
  end.
Proof.
  unfold mark_intent_seen, ttl_set, _is_expired, _now. mstep.
  destruct (_seen_intents s !! id) as [e|]; cbn; [|done]. by destruct (_ <=? _).
Qed.

(** *** What each operation leaves alone *)

Ltac op_cases := repeat (break_match; cbn in *; simplify_eq).

(** The mint whose lock an operation may change, the intent it may mark. *)
Definition locks_of (op : store_op) : option string :=
  match op with OpClaim m _ _ | OpRelease m => Some m | _ => None end.
Definition marks_of (op : store_op) : option string :=
  match op with OpSeen id _ => Some id | _ => None end.

Ltac run_op_unfold :=
  unfold run_op, quiet, answer, get_decision_signal, set_decision_signal, get_veto_flag, set_veto_flag,
    clear_veto_flag, get_narrative_failure_flag, set_narrative_failure_flag, get_insider_dump_flag,
    set_insider_dump_flag, get_sellability_degraded_flag, set_sellability_degraded_flag,
    get_lp_unlock_approaching_flag, set_lp_unlock_approaching_flag, in_cooldown, set_cooldown, ttl_set,
    get_fsm_lock, get_heartbeat_age_ms, emit_heartbeat, save_breaker_state, release_entering, save_position,
    delete_position, _is_expired, _now in *;
  repeat (unfold mbind, mret, M_bind, M_ret, lift, modify, gets, get, raise);
  rewrite ?ttl_get_eq, ?claim_entering_eq, ?mark_intent_seen_eq.

Lemma run_op_frame op s m :
  (_reads s ≤ _reads (snd (run_op op s)))%nat ∧
  (locks_of op ≠ Some m → _fsm_locks (snd (run_op op s)) !! m = _fsm_locks s !! m) ∧
  (marks_of op ≠ Some m → _seen_intents (snd (run_op op s)) !! m = _seen_intents s !! m).
Proof.
  destruct op; run_op_unfold; cbn; op_cases; cbn; split_and!; try done; try lia; intros;
    by rewrite ?lookup_insert_ne, ?lookup_delete_ne by congruence.
Qed.

Lemma run_ops_reads ops s : (_reads s ≤ _reads (snd (run_ops ops s)))%nat.
Proof.
  revert s. induction ops as [|op ops IH]; intros s; cbn; [done|].
  destruct (run_op op s) as [r s1] eqn:E1. specialize (IH s1). destruct (run_ops ops s1) as [rs s2]; cbn in *.
  pose proof (proj1 (run_op_frame op s "")) as H. rewrite E1 in H. cbn in H. lia.
Qed.

(** A refusal that a state keeps giving, step by step. *)
Lemma run_ops_refused (held : StateStore → Prop) (bad ask : store_op → Prop) (E : Z) ops s :
  (∀ op s, ¬ bad op → held s → (∀ n, (_reads s ≤ n < _reads (snd (run_op op s)))%nat → _clock n < E) →
     held (snd (run_op op s)) ∧ (ask op → fst (run_op op s) = Ok false)) →
  Forall (λ op, ¬ bad op) ops → held s →
  (∀ n, (_reads s ≤ n < _reads (snd (run_ops ops s)))%nat → _clock n < E) →
  held (snd (run_ops ops s)) ∧
  ∀ i op, ops !! i = Some op → ask op → fst (run_ops ops s) !! i = Some (Ok false).
Proof.
  intros Hstep Hbad. revert s. induction Hbad as [|op ops Hop _ IH]; intros s Hs Hc; cbn in *; [done|].
  destruct (Hstep op s Hop Hs) as [Hs1 Hr].
  { intros n Hn. apply Hc. split; [lia|]. pose proof (run_ops_reads ops (snd (run_op op s))).
    destruct (run_op op s) as [r s1]; cbn in *. destruct (run_ops ops s1); cbn in *. lia. }
  pose proof (proj1 (run_op_frame op s "")) as Hmono.
  destruct (run_op op s) as [r s1]; cbn in *. specialize (IH s1 Hs1).
  destruct (run_ops ops s1) as [rs s2]; cbn in *. destruct IH as [H1 H2]; [intros n Hn; apply Hc; lia|].
  split; [done|]. intros [|i] op' Hi Ha; cbn in *; [simplify_eq; by rewrite (Hr Ha)|]. by eapply H2.
Qed.

Lemma held_lock_refuses mint id E op s :
  op ≠ OpRelease mint → _fsm_locks s !! mint = Some (id, E) →
  (∀ n, (_reads s ≤ n < _reads (snd (run_op op s)))%nat → _clock n < E) →
  _fsm_locks (snd (run_op op s)) !! mint = Some (id, E) ∧
  ((∃ i t, op = OpClaim mint i t) → fst (run_op op s) = Ok false).
Proof.
  intros Hne Hl Hc. destruct (decide (locks_of op = Some mint)) as [Hm|Hm].
  - destruct op; try discriminate; cbn in Hm; simplify_eq.
    cbn in Hc |- *. rewrite claim_entering_eq, Hl in Hc |- *. cbn in *.
    destruct (E <=? _clock (S (_reads s))) eqn:Ee; cbn in *; [|done].
    apply Z.leb_le in Ee. specialize (Hc (S (_reads s))). lia.
  - split; [by rewrite (proj1 (proj2 (run_op_frame op s mint)))|]. intros (i & t & ->). done.
Qed.

Lemma held_mark_refuses id E op s :
  _seen_intents s !! id = Some E →
  (∀ n, (_reads s ≤ n < _reads (snd (run_op op s)))%nat → _clock n < E) →
  _seen_intents (snd (run_op op s)) !! id = Some E ∧
  ((∃ t, op = OpSeen id t) → fst (run_op op s) = Ok false).
Proof.
  intros Hl Hc. destruct (decide (marks_of op = Some id)) as [Hm|Hm].
  - destruct op; try discriminate; cbn in Hm; simplify_eq.
    cbn in Hc |- *. rewrite mark_intent_seen_eq, Hl in Hc |- *. cbn in *.
    destruct (E <=? _clock (_reads s)) eqn:Ee; cbn in *; [|done].
    apply Z.leb_le in Ee. specialize (Hc (_reads s)). lia.
  - split; [by rewrite (proj2 (proj2 (run_op_frame op s id)))|]. intros (t & ->). done.
Qed.

(** C13: the claim is a lock. After a successful [claim_entering], whatever
    operations any loops perform, as long as none releases that mint and every
    clock reading is before the lock's expiry, every other claim of the mint
    answers [false] and the lock stays with its first holder; a mint without a
    lock, or with an expired one, can always be claimed. *)
Theorem claim_is_exclusive mint id ttl s s' ops :
  run_op (OpClaim mint id ttl) s = (Ok true, s') →
  Forall (λ op, op ≠ OpRelease mint) ops →
  (∀ n, (_reads s' ≤ n < _reads (snd (run_ops ops s')))%nat → _clock n < _clock (_reads s) + ttl * 1000) →
  _fsm_locks (snd (run_ops ops s')) !! mint = Some (id, _clock (_reads s) + ttl * 1000) ∧
  (∀ i id' ttl', ops !! i = Some (OpClaim mint id' ttl') → fst (run_ops ops s') !! i = Some (Ok false)) ∧
  ∀ s0 id0 ttl0,
    (_fsm_locks s0 !! mint = None ∨
     ∃ i e, _fsm_locks s0 !! mint = Some (i, e) ∧ e ≤ _clock (S (_reads s0))) →
    fst (run_op (OpClaim mint id0 ttl0) s0) = Ok true.
Proof.
  intros Hc Hops Hclk. cbn in Hc. rewrite claim_entering_eq in Hc.
  set (E := _clock (_reads s) + ttl * 1000) in *.
  assert (_fsm_locks s' !! mint = Some (id, E)) as Hl.
  { cbn in Hc. op_cases; cbn; by rewrite lookup_insert_eq. }
  destruct (run_ops_refused (λ s, _fsm_locks s !! mint = Some (id, E)) (λ op, op = OpRelease mint)
              (λ op, ∃ i t, op = OpClaim mint i t) E ops s') as [H1 H2]; try done.
  { intros op s1 Hb Hh Hn. by apply held_lock_refuses. }
  split; [done|]. split; [intros i id' t' Hi; eapply H2; eauto|].
  intros s0 id0 ttl0 H0. cbn. rewrite claim_entering_eq. cbn.
  destruct H0 as [-> | (i & e & -> & He)]; [done|]. by rewrite (proj2 (Z.leb_le _ _) He).
Qed.

(** An intent is handled once. After [mark_intent_seen] answered [true],
    every other call for the same id answers [false] while the clock is before
    the mark's expiry, whatever else happens to the store. *)
Theorem intent_seen_once id ttl s s' ops :
  run_op (OpSeen id ttl) s = (Ok true, s') →
  ∃ k, (_reads s ≤ k < _reads s')%nat ∧
    ((∀ n, (_reads s' ≤ n < _reads (snd (run_ops ops s')))%nat → _clock n < _clock k + ttl * 1000) →
     _seen_intents (snd (run_ops ops s')) !! id = Some (_clock k + ttl * 1000) ∧
     ∀ i ttl', ops !! i = Some (OpSeen id ttl') → fst (run_ops ops s') !! i = Some (Ok false)).
Proof.
  intros Hc. cbn in Hc. rewrite mark_intent_seen_eq in Hc.
  assert (∃ k, (_reads s ≤ k < _reads s')%nat ∧ _seen_intents s' !! id = Some (_clock k + ttl * 1000)) as (k & Hk & Hl).
  { cbn in Hc. op_cases; eexists; cbn; (split; [|by rewrite lookup_insert_eq]); lia. }
  exists k. split; [done|]. intros Hclk.
  destruct (run_ops_refused (λ s, _seen_intents s !! id = Some (_clock k + ttl * 1000)) (λ _, False)
              (λ op, ∃ t, op = OpSeen id t) (_clock k + ttl * 1000) ops s') as [H1 H2]; try done.
  { intros op s1 _ Hh Hn. by apply held_mark_refuses. }
  { apply Forall_true. tauto. }
  split; [done|]. intros i t' Hi; eapply H2; eauto.
Qed.

(** *** Flags with a time to live *)

Inductive flag : Type := Veto | Narrative | Insider | Sellability | Lp | Cooldown.
#[global] Instance flag_eq_dec : EqDecision flag.
Proof. solve_decision. Defined.

Definition expiry_of (fl : flag) (s : StateStore) (m : string) : option Z :=
  match fl with
  | Veto => _veto_flags s !! m
  | Narrative => _narrative_flags s !! m
  | Insider => snd <$> _insider_dump_flags s !! m
  | Sellability => snd <$> _sellability_degraded_flags s !! m
  | Lp => snd <$> _lp_unlock_approaching_flags s !! m
  | Cooldown => _cooldowns s !! m
  end.
Definition reads_flag (fl : flag) (m : string) : store_op :=
  match fl with
  | Veto => OpVeto m | Narrative => OpNarrative m | Insider => OpInsider m
  | Sellability => OpSellability m | Lp => OpLp m | Cooldown => OpCooldown m
  end.
(** Setting a flag with valid arguments. *)
Definition sets_flag (fl : flag) (m : string) (ttl : Z) (op : store_op) : Prop :=
  match fl with
  | Veto => op = OpSetVeto m ttl
  | Narrative => op = OpSetNarrative m ttl
  | Insider => ∃ f sl, op = OpSetInsider m f sl ttl ∧ 0 ≤ f ≤ 10000 ∧ 0 ≤ sl
  | Sellability => ∃ r sl, op = OpSetSellability m r sl ttl ∧ r ≠ "" ∧ 0 ≤ sl
  | Lp => ∃ r sl, op = OpSetLp m r sl ttl ∧ r ≠ "" ∧ 0 ≤ sl
  | Cooldown => op = OpSetCooldown m ttl
  end.
Definition writes_flag (fl : flag) (op : store_op) : option string :=
  match fl, op with
  | Veto, (OpSetVeto m _ | OpClearVeto m) | Narrative, OpSetNarrative m _ | Insider, OpSetInsider m _ _ _
  | Sellability, OpSetSellability m _ _ _ | Lp, OpSetLp m _ _ _ | Cooldown, OpSetCooldown m _ => Some m
  | _, _ => None
  end.

Lemma sets_flag_expiry fl m ttl op s :
  sets_flag fl m ttl op → expiry_of fl (snd (run_op op s)) m = Some (_clock (_reads s) + ttl * 1000).
Proof.
  assert (∀ z, 0 ≤ z → (z <? 0) = false) as Hz by (intros; by apply Z.ltb_ge).
  destruct fl; cbn [sets_flag];
    [intros ->|intros ->|intros (f & sl & -> & [H1 H2] & H3)|intros (r & sl & -> & Hr & H3)
    |intros (r & sl & -> & Hr & H3)|intros ->]; run_op_unfold; cbn;
    rewrite ?(Hz _ H3), ?(bool_decide_eq_false_2 _ Hr); cbn; try by rewrite lookup_insert_eq.
  rewrite (proj2 (Z.leb_le _ _) H1), (proj2 (Z.leb_le _ _) H2); cbn. by rewrite lookup_insert_eq.
Qed.

Lemma reads_flag_eq fl m s :
  fst (run_op (reads_flag fl m) s) =
  Ok (match expiry_of fl s m with None => false | Some e => negb (e <=? _clock (_reads s)) end).
Proof. destruct fl; cbn [reads_flag run_op]; run_op_unfold; cbn; op_cases; done. Qed.

Lemma reads_flag_positions fl m s : _positions (snd (run_op (reads_flag fl m) s)) = _positions s.
Proof. destruct fl; cbn [reads_flag run_op]; run_op_unfold; cbn; op_cases; done. Qed.

(** An operation that does not write the flag keeps it, or drops it because a
    reading of the clock had reached its expiry. *)
Lemma flag_frame fl op s m :
  writes_flag fl op ≠ Some m →
  expiry_of fl (snd (run_op op s)) m = expiry_of fl s m ∨
  expiry_of fl (snd (run_op op s)) m = None ∧ 
    ∃ e n, expiry_of fl s m = Some e ∧ (_reads s ≤ n < _reads (snd (run_op op s)))%nat ∧ e ≤ _clock n.
Proof.
  intros Hw. destruct fl, op; cbn in Hw |- *; run_op_unfold; cbn; op_cases; try (by left); cbn;
    try (left; by rewrite lookup_insert_ne by congruence);
    match goal with |- context [delete ?m0 _] => destruct (decide (m0 = m)) as [-> | Hm] end;
    rewrite ?lookup_delete_eq, ?lookup_delete_ne by done; try (by left); try congruence; bools;
    right; (split; [done|]); eexists _, (_reads s); (split; [by simplify_option_eq|]); (split; [lia|]); done.
Qed.

(** Every reading of the clock between two states comes before [E]. *)
Definition before (E : Z) (s s' : StateStore) : Prop := ∀ n, (_reads s ≤ n < _reads s')%nat → _clock n < E.

Lemma before_sub E s1 s2 s3 s4 :
  before E s1 s4 → (_reads s1 ≤ _reads s2)%nat → (_reads s3 ≤ _reads s4)%nat → before E s2 s3.
Proof. intros H ?? n Hn. apply H. lia. Qed.

(** A flag nobody writes stays until a reading reaches its expiry, and a read
    before that answers [true]. *)
Lemma flag_kept fl op s m E :
  writes_flag fl op ≠ Some m → expiry_of fl s m = Some E → before E s (snd (run_op op s)) →
  expiry_of fl (snd (run_op op s)) m = Some E.
Proof.
  intros Hw HE Hb. destruct (flag_frame fl op s m Hw) as [->|(_ & e & n & He & Hn & Hle)]; [done|].
  simplify_eq. specialize (Hb n Hn). lia.
Qed.

Lemma flag_reads_true fl m s E :
  expiry_of fl s m = Some E → before E s (snd (run_op (reads_flag fl m) s)) → fst (run_op (reads_flag fl m) s) = Ok true.
Proof.
  intros HE Hb. rewrite reads_flag_eq, HE. rewrite (proj2 (Z.leb_gt _ _)); [done|]. apply Hb. split; [lia|].
  revert HE. clear. destruct fl; cbn [reads_flag run_op expiry_of]; intros HE; run_op_unfold; cbn;
    repeat (break_match; cbn in *; simplify_eq); cbn; lia.
Qed.

Lemma flag_run fl ops s m E :
  (∀ n k, (n ≤ k)%nat → _clock n ≤ _clock k) →
  Forall (λ op, writes_flag fl op ≠ Some m) ops →
  (expiry_of fl s m = Some E ∨ expiry_of fl s m = None ∧ E ≤ _clock (_reads s)) →
  expiry_of fl (snd (run_ops ops s)) m = Some E ∨
  expiry_of fl (snd (run_ops ops s)) m = None ∧ E ≤ _clock (_reads (snd (run_ops ops s))).
Proof.
  intros Hmono Hops. revert s. induction Hops as [|op ops Hop _ IH]; intros s Hs; cbn; [done|].
  pose proof (flag_frame fl op s m Hop) as Hf. pose proof (proj1 (run_op_frame op s "")) as Hr.
  destruct (run_op op s) as [r s1]; cbn in *. specialize (IH s1).
  destruct (run_ops ops s1) as [rs s2]; cbn in *. apply IH. clear IH.
  destruct Hf as [-> | (-> & e & n & He & Hn & Hle)].
  - destruct Hs as [Hs|[Hs HE]]; [by left|right]. split; [done|]. specialize (Hmono _ _ Hr). lia.
  - right. split; [done|]. destruct Hs as [Hs|[Hs _]]; [|congruence]. simplify_eq.
    specialize (Hmono n (_reads s1) ltac:(lia)). lia.
Qed.

(** A veto, exit flag or cooldown lasts exactly its time to live: on a
    clock that does not run backwards, after a valid set at reading [t0] and
    any operations that neither set it again nor clear it, a read at reading
    [t] answers [true] if and only if [t < t0 + ttl * 1000]. *)
Theorem flag_lasts_its_ttl fl m ttl op s ops :
  (∀ n k, (n ≤ k)%nat → _clock n ≤ _clock k) →
  sets_flag fl m ttl op →
  Forall (λ op, writes_flag fl op ≠ Some m) ops →
  let s' := snd (run_ops ops (snd (run_op op s))) in
  fst (run_op (reads_flag fl m) s') = Ok (_clock (_reads s') <? _clock (_reads s) + ttl * 1000).
Proof.
  intros Hmono Hset Hops s'. rewrite reads_flag_eq. f_equal.
  destruct (flag_run fl ops (snd (run_op op s)) m (_clock (_reads s) + ttl * 1000)) as [H|[H HE]]; try done.
  { left. by apply sets_flag_expiry. }
  - fold s' in H. rewrite H. by rewrite Z.leb_antisym, negb_involutive.
  - fold s' in H, HE. rewrite H. symmetry. by apply Z.ltb_ge.
Qed.
End Runs.

(** *** Witnesses *)

Definition tick_clock (n : nat) : Z := 1000 + Z.of_nat n.

Lemma claim_is_exclusive_witness :
  let s' := snd (run_op tick_clock (OpClaim "M" "a" 30) StateStore_init) in
  let ops := [OpSeen "b" 60; OpClaim "M" "b" 30; OpRelease "N"; OpVeto "M"; OpClaim "M" "c" 1] in
  fst (run_ops tick_clock ops s') !! 4%nat = Some (Ok false).
Proof.
  intros s' ops. refine (proj1 (proj2 (claim_is_exclusive tick_clock "M" "a" 30 StateStore_init s' ops _ _ _)) 4%nat "c" 1 _).
  - vm_compute. reflexivity.
  - repeat constructor; discriminate.
  - assert (_reads (snd (run_ops tick_clock ops s')) = 6%nat) as -> by (vm_compute; reflexivity).
    unfold tick_clock. cbn. lia.
  - reflexivity.
Defined.

Lemma intent_seen_once_witness :
  let s' := snd (run_op tick_clock (OpSeen "i" 60) StateStore_init) in
  let ops := [OpClaim "M" "i" 30; OpSeen "j" 60; OpSeen "i" 60] in
  fst (run_ops tick_clock ops s') !! 2%nat = Some (Ok false).
Proof.
  intros s' ops. destruct (intent_seen_once tick_clock "i" 60 StateStore_init s' ops) as (k & Hk & H).
  { vm_compute. reflexivity. }
  refine (proj2 (H _) 2%nat 60 eq_refl).
  assert (_reads (snd (run_ops tick_clock ops s')) = 4%nat) as -> by (vm_compute; reflexivity).
  unfold tick_clock. intros n Hn. lia.
Defined.

Lemma flag_lasts_its_ttl_witness :
  let s' := snd (run_ops tick_clock [OpVeto "N"; OpClearVeto "N"; OpInsider "M"]
                   (snd (run_op tick_clock (OpSetVeto "M" 5) StateStore_init))) in
  fst (run_op tick_clock (OpVeto "M") s') = Ok (tick_clock (_reads s') <? 6000).
Proof.
  refine (flag_lasts_its_ttl tick_clock Veto "M" 5 (OpSetVeto "M" 5) StateStore_init
           [OpVeto "N"; OpClearVeto "N"; OpInsider "M"] _ eq_refl _).
  - intros n k H. unfold tick_clock. lia.
  - repeat constructor; discriminate.
Defined.
