(* ===== verification/Fsm.v ===== *)
(** * The per-position state machine: [aats/controller/fsm.py]

    A [PositionFSM] is the shared store together with the position it wraps. *)

From S2P Require Import Prelude Decimal RiskContracts Bytes Sha256 Intents Positions StateStore.

(** [hashlib.sha256(raw.encode()).hexdigest()[:32]] *)
Definition make_client_intent_id (mint : string) (epoch : Z) (kind : string) : string :=
  String.substring 0 32 (hexdigest (sha256 (encode (mint +:+ ":" +:+ pretty epoch +:+ ":" +:+ kind)))).

Record PositionFSM : Type := mk_fsm { _store : StateStore; _position : Position.t }.

(** Run a store operation on the wrapped store. *)
Definition on_store {A} (m : M StateStore A) : M PositionFSM A := λ f,
  let '(r, s) := m (_store f) in (r, mk_fsm s (_position f)).
Definition set_position (p : Position.t) : M PositionFSM unit := modify (λ f, mk_fsm (_store f) p).
Definition position : M PositionFSM Position.t := gets _position.

(** Called by the SNIPE loop after a successful claim. *)
Definition create_entering (mint token surface : string) (entry_slot : Z) (sol_in tokens_out : pynum) (slippage : Z)
    (exit_config_label : string) (mode : exit_mode) (tp_total : Z) (hard_stop : pynum) (cost : CostStack.t)
    : M StateStore Position.t :=
  p ← lift (Position.new mint token surface ENTERING entry_slot sol_in tokens_out slippage exit_config_label mode
              0 tp_total false hard_stop None (PyInt 0) cost st_open complete);
  save_position p;;
  mret p.

Definition transition_to_open (fill : FillResult.t) : M PositionFSM unit :=
  p ← position;
  lift (validate_fsm_transition (Position.fsm_state p) OPEN);;
  let updated := Position.opened (FillResult.tokens_out fill) (FillResult.entry_slippage_bps fill) p in
  on_store (save_position updated);;
  set_position updated;;
  on_store (release_entering (Position.mint updated)).

Definition transition_to_vetoed : M PositionFSM unit :=
  p ← position;
  lift (validate_fsm_transition (Position.fsm_state p) VETOED);;
  let updated := Position.finished VETOED 0 p in
  on_store (save_position updated);;
  set_position updated;;
  on_store (release_entering (Position.mint updated));;
  on_store (delete_position (Position.mint updated)).

Definition transition_to_closing : M PositionFSM unit :=
  p ← position;
  lift (validate_fsm_transition (Position.fsm_state p) CLOSING);;
  let updated := Position.with_state CLOSING p in
  on_store (save_position updated);;
  set_position updated.

Definition transition_to_closed (realized : pynum) : M PositionFSM unit :=
  p ← position;
  lift (validate_fsm_transition (Position.fsm_state p) CLOSED);;
  match realized with
  | PyFloat _ => raise (TypeError "realized_pnl_net_lamports must be int (lamports)")
  | PyInt pnl =>
      let updated := Position.finished CLOSED pnl p in
      on_store (save_position updated);;
      set_position updated;;
      on_store (delete_position (Position.mint updated))
  end.

Definition update_unrealized_pnl (unrealized : pynum) : M PositionFSM unit :=
  match unrealized with
  | PyFloat _ => raise (TypeError "unrealized_pnl_net_lamports must be int (lamports)")
  | PyInt u =>
      p ← position;
      let updated := Position.with_unrealized u p in
      on_store (save_position updated);;
      set_position updated
  end.

Definition record_tp_hit : M PositionFSM unit :=
  p ← position;
  let updated := Position.with_tp_hit (Position.tp_hit p + 1) p in
  on_store (save_position updated);;
  set_position updated.

Definition arm_trailing : M PositionFSM unit :=
  p ← position;
  if negb (Position.trailing_armed p) then
    let updated := Position.with_trailing p in
    on_store (save_position updated);;
    set_position updated
  else mret tt.

(** ** Sequences of calls *)

Inductive fsm_op : Type :=
| ToOpen (fill : FillResult.t)
| ToVetoed
| ToClosing
| ToClosed (realized : pynum)
| Unrealized (u : pynum)
| TpHit
| ArmTrailing.

Definition exec (op : fsm_op) : M PositionFSM unit :=
  match op with
  | ToOpen fill => transition_to_open fill
  | ToVetoed => transition_to_vetoed
  | ToClosing => transition_to_closing
  | ToClosed r => transition_to_closed r
  | Unrealized u => update_unrealized_pnl u
  | TpHit => record_tp_hit
  | ArmTrailing => arm_trailing
  end.

(** Calls in order; a caller that catches the error goes on. *)
Definition exec_all (ops : list fsm_op) (f : PositionFSM) : PositionFSM := foldl (λ f op, snd (exec op f)) f ops.

(** The stored record of the wrapped position's mint. *)
Definition stored (f : PositionFSM) : option Position.t := dget (Position.mint (_position f)) (_positions (_store f)).
Definition fsm_now (f : PositionFSM) : FSMState := Position.fsm_state (_position f).

(** One call: an error leaves everything as it was; a success moves along a
    legal edge or not at all, and the store already holds the new record, or
    none once the position is vetoed or closed. *)
Definition good_step (op : fsm_op) (f : PositionFSM) : Prop :=
  match exec op f with
  | (Raise _, f') => f' = f
  | (Ok _, f') =>
      Position.mint (_position f') = Position.mint (_position f) ∧
      match op with
      | ToOpen fill => (fsm_now f, OPEN) ∈ FSM_LEGAL_TRANSITIONS ∧ fsm_now f' = OPEN ∧ stored f' = Some (_position f') ∧
          _fsm_locks (_store f') !! Position.mint (_position f) = None ∧
          Position.tokens_out_base (_position f') = FillResult.tokens_out fill
      | ToVetoed => (fsm_now f, VETOED) ∈ FSM_LEGAL_TRANSITIONS ∧ fsm_now f' = VETOED ∧ stored f' = None ∧
          _fsm_locks (_store f') !! Position.mint (_position f) = None
      | ToClosing => (fsm_now f, CLOSING) ∈ FSM_LEGAL_TRANSITIONS ∧ fsm_now f' = CLOSING ∧
          stored f' = Some (_position f')
      | ToClosed r => (fsm_now f, CLOSED) ∈ FSM_LEGAL_TRANSITIONS ∧ fsm_now f' = CLOSED ∧ stored f' = None ∧
          ∃ pnl, r = PyInt pnl ∧ Position.realized_pnl_net_lamports (_position f') = Some pnl
      | ArmTrailing => fsm_now f' = fsm_now f ∧ (Position.trailing_armed (_position f') = true) ∧
          (stored f' = Some (_position f') ∨ f' = f)
      | _ => fsm_now f' = fsm_now f ∧ stored f' = Some (_position f')
      end
  end.

Ltac fsm_step := repeat (unfold on_store, position, set_position, save_position, release_entering, delete_position in *; mstep).

Lemma exec_good op f : good_step op f.
Proof.
  destruct f as [s p]. unfold good_step, stored, fsm_now. destruct op; cbn [exec].
  - unfold transition_to_open. fsm_step. destruct (validate_cases (Position.fsm_state p) OPEN) as [[-> H]|(m & -> & _)]; [|done].
    cbn. by rewrite dget_dset, lookup_delete_eq.
  - unfold transition_to_vetoed. fsm_step.
    destruct (validate_cases (Position.fsm_state p) VETOED) as [[-> H]|(m & -> & _)]; [|done].
    cbn. by rewrite dget_dpop, lookup_delete_eq.
  - unfold transition_to_closing. fsm_step.
    destruct (validate_cases (Position.fsm_state p) CLOSING) as [[-> H]|(m & -> & _)]; [|done]. cbn. by rewrite dget_dset.
  - unfold transition_to_closed. fsm_step.
    destruct (validate_cases (Position.fsm_state p) CLOSED) as [[-> H]|(m & -> & _)]; [|done].
    destruct realized as [pnl|]; cbn; [|done]. rewrite dget_dpop. eauto 10.
  - unfold update_unrealized_pnl. destruct u as [z|]; [|done]. fsm_step. by rewrite dget_dset.
  - unfold record_tp_hit. fsm_step. by rewrite dget_dset.
  - unfold arm_trailing. fsm_step. destruct (Position.trailing_armed p) eqn:E; cbn; [by auto|]. rewrite dget_dset. auto.
Qed.

(** One call moves along at most one legal edge. *)
Lemma exec_reaches op f : reaches (fsm_now f) (fsm_now (snd (exec op f))).
Proof.
  pose proof (exec_good op f) as H. unfold good_step in H. destruct (exec op f) as [[?|?] f']; cbn [snd].
  - destruct H as [_ H]. destruct op; try (destruct H as (Hl & Hs & _); rewrite Hs; eapply reaches_step; [apply reaches_refl|exact Hl]);
      destruct H as [-> _]; apply reaches_refl.
  - subst. apply reaches_refl.
Qed.

(** C12: every call of the position state machine is legal and write-ahead: it
    either raises and changes nothing, or moves along an edge of
    [FSM_LEGAL_TRANSITIONS] (the bookkeeping calls along none) with the new
    record in the store, or removed from it together with the lock when the
    position ends. *)
Theorem fsm_calls_legal_and_write_ahead op f : good_step op f.
Proof. apply exec_good. Qed.

(** Whatever sequence of calls is made, errors caught or not, the state is
    reachable from the first along legal edges, so a terminal position stays
    terminal, and as long as the position is live and was stored the store
    holds exactly the wrapped record. *)
Theorem fsm_runs_reachable ops f :
  reaches (fsm_now f) (fsm_now (exec_all ops f)) ∧
  (terminal (fsm_now f) → fsm_now (exec_all ops f) = fsm_now f) ∧
  (stored f = Some (_position f) → ¬ terminal (fsm_now (exec_all ops f)) →
     stored (exec_all ops f) = Some (_position (exec_all ops f))).
Proof.
  assert (∀ a b, terminal a → reaches a b → b = a) as Hterm.
  { intros a b Ha H. induction H as [|a b c H IH He]; [done|]. specialize (IH Ha). subst.
    by apply terminal_no_edge in He. }
  assert (∀ op f, stored f = Some (_position f) → ¬ terminal (fsm_now (snd (exec op f))) →
    stored (snd (exec op f)) = Some (_position (snd (exec op f)))) as Hstep.
  { intros op g Hg Ht. pose proof (exec_good op g) as H. unfold good_step in H.
    destruct (exec op g) as [[?|?] g']; cbn [snd] in *; [|by subst]. destruct H as [_ H].
    destruct op; cbn in H; try tauto.
    - destruct H as (_ & Hv & _). destruct Ht. by right.
    - destruct H as (_ & Hv & _). destruct Ht. by left.
    - destruct H as (_ & _ & [?| ->]); done. }
  revert f. induction ops as [|op ops IH] using rev_ind; intros f; unfold exec_all in *; cbn.
  { split; [apply reaches_refl|]. by split. }
  rewrite foldl_snoc. destruct (IH f) as (H1 & H2 & H3). set (g := foldl _ f ops) in *.
  pose proof (exec_reaches op g) as Hr. split; [by eapply reaches_trans|]. split.
  - intros Ht. assert (fsm_now g = fsm_now f) as Hg by exact (H2 Ht).
    rewrite (Hterm (fsm_now g) _ ltac:(by rewrite Hg) Hr). exact Hg.
  - intros Hs Hn. apply Hstep; [|done]. apply H3; [done|]. intros Ht. apply Hn. by rewrite (Hterm _ _ Ht Hr).
Qed.

(** The bookkeeping calls do not check the state. Once
    [transition_to_closed] has deleted a closing position from the store, a
    later [record_tp_hit] or [update_unrealized_pnl] on the same state machine
    succeeds and writes the CLOSED record back into the live store, where it
    counts as open exposure again. *)
Theorem bookkeeping_resurrects_closed f r u :
  fsm_now f = CLOSING →
  let g := snd (exec (ToClosed (PyInt r)) f) in
  stored g = None ∧ fsm_now g = CLOSED ∧
  ∀ op, op = TpHit ∨ op = Unrealized (PyInt u) →
    let h := snd (exec op g) in stored h = Some (_position h) ∧ fsm_now h = CLOSED.
Proof.
  intros Hf g. pose proof (exec_good (ToClosed (PyInt r)) f) as H. unfold good_step in H. fold g in H.
  assert (stored g = None ∧ fsm_now g = CLOSED) as [Hg Hc].
  { subst g. destruct f as [s p]. unfold fsm_now in *. cbn in Hf. cbn [exec] in *.
    unfold transition_to_closed in *. fsm_step. rewrite Hf in *.
    assert (validate_fsm_transition CLOSING CLOSED = Ok tt) as Hv by reflexivity. rewrite Hv in *. cbn in *. tauto. }
  clear H. do 2 (split; [done|]). clearbody g.
  intros op Ho. pose proof (exec_good op g) as H. unfold good_step in H.
  destruct Ho as [-> | ->]; cbn [exec] in *; unfold record_tp_hit, update_unrealized_pnl in *; fsm_step;
    destruct H as (_ & H & ?); (split; [done|]); by rewrite H.
Qed.

(** *** Witnesses *)

Definition sample_cost : CostStack.t := CostStack.mk 400 1 10 50 50 50 150 300.
Definition sample_position (st : FSMState) : Position.t :=
  Position.mk "M" "M" "EH-001" st 7 10000000 0 0 "default" secure 0 3 false 1 None 0 sample_cost st_open complete.
Definition sample_fsm (st : FSMState) : PositionFSM :=
  mk_fsm (set_positions [("M", sample_position st)] StateStore_init) (sample_position st).
Definition sample_fill : FillResult.t := FillResult.mk true "" None None 0 1000 "10000" 20 0 0.

Lemma fsm_runs_witness :
  let f := sample_fsm ENTERING in
  let ops := [ToClosed (PyInt 0); ToOpen sample_fill; TpHit; ArmTrailing; ToVetoed; ToClosing; Unrealized (PyInt 5)] in
  stored f = Some (_position f) ∧ fsm_now (exec_all ops f) = CLOSING ∧
  stored (exec_all ops f) = Some (_position (exec_all ops f)).
Proof.
  intros f ops. split; [reflexivity|]. split; [reflexivity|].
  apply (proj2 (proj2 (fsm_runs_reachable ops f))); [reflexivity|]. intros [H|H]; discriminate H.
Defined.

Lemma bookkeeping_witness :
  let f := sample_fsm CLOSING in
  fsm_now f = CLOSING ∧ stored (snd (exec TpHit (snd (exec (ToClosed (PyInt 3)) f)))) ≠ None.
Proof.
  intros f. split; [reflexivity|].
  destruct (bookkeeping_resurrects_closed f 3 0 eq_refl) as (_ & _ & H).
  destruct (H TpHit (or_introl eq_refl)) as [E _]. rewrite E. discriminate.
Defined.
