(* ===== verification/SellSim.v ===== *)
(** * The sell simulation and the sellability re-probe

    [aats/execution/sell_sim.py] and [aats/risk/sellability_reprobe.py]: the
    dry-run sell of a dust amount (quote, stub, signature, simulation, output,
    tax), its refuse-by-default answer, and the re-probe of every stored
    position that raises the [sellability_degraded] flag.  The RPC client and
    the signer are parameters, with the two mock clients of the source; log
    calls are left out. *)

From S2P Require Import Prelude PyText Bytes Wire SignerEnforcer SignerProcess Positions StateStore Fsm SafetyGate.

Definition DUST_SELL_AMOUNT : Z := 1.
Definition DEFAULT_MAX_SELL_TAX_BPS : Z := 1000.
Definition DEFAULT_MIN_OUT_RATIO_BPS : Z := 5000.

Module SellSimReason.
Inductive t : Type :=
| SELLABLE | SIM_REVERT | ZERO_OUTPUT | HIGH_SELL_TAX | SIGNER_REFUSED | ACCOUNT_CLOSE_TRAP | QUOTE_FAILED
| INFRASTRUCTURE_ERROR | NOT_SIMULATED.
#[global] Instance eq_dec : EqDecision t.
Proof. solve_decision. Defined.
Definition value (r : t) : string :=
  match r with
  | SELLABLE => "sellable" | SIM_REVERT => "sim_revert" | ZERO_OUTPUT => "zero_output"
  | HIGH_SELL_TAX => "high_sell_tax" | SIGNER_REFUSED => "signer_refused"
  | ACCOUNT_CLOSE_TRAP => "account_close_trap" | QUOTE_FAILED => "quote_failed"
  | INFRASTRUCTURE_ERROR => "infrastructure_error" | NOT_SIMULATED => "not_simulated"
  end.
End SellSimReason.
Import SellSimReason (SELLABLE, SIM_REVERT, ZERO_OUTPUT, HIGH_SELL_TAX, SIGNER_REFUSED, ACCOUNT_CLOSE_TRAP,
  QUOTE_FAILED, INFRASTRUCTURE_ERROR, NOT_SIMULATED).

Module SellSimResult.
Record t : Type := mk {
  sellable : bool; reason : SellSimReason.t; mint : string; event_slot : Z; dust_amount_in : Z;
  simulated_out_lamports : Z; effective_sell_tax_bps : Z; sim_cu_consumed : Z;
  sim_revert_reason : option string; detail : string
}.
End SellSimResult.

Module SellSimConfig.
Record t : Type := mk { max_sell_tax_bps : Z; min_out_ratio_bps : Z; dust_sell_amount : Z }.
Definition default : t := mk DEFAULT_MAX_SELL_TAX_BPS DEFAULT_MIN_OUT_RATIO_BPS DUST_SELL_AMOUNT.

Definition check_field (name : string) (v : pynum) : result Z :=
  match v with
  | PyFloat _ => Raise (TypeError ("SellSimConfig." +:+ name +:+ " must be int (bps / base units)"))
  | PyInt z => if z <? 0 then Raise (ValueError ("SellSimConfig." +:+ name +:+ " must be non-negative")) else Ok z
  end.
Definition is_bps (z : Z) : bool := (0 <=? z) && (z <=? 10000).
Definition new (max_tax min_ratio dust : pynum) : result t :=
  max_tax ← check_field "max_sell_tax_bps" max_tax;
  min_ratio ← check_field "min_out_ratio_bps" min_ratio;
  dust ← check_field "dust_sell_amount" dust;
  guard_ok (negb (dust <? 1)) (ValueError "SellSimConfig.dust_sell_amount must be >= 1");;
  guard_ok (is_bps max_tax) (ValueError "SellSimConfig.max_sell_tax_bps must be in [0, 10000] bps.");;
  guard_ok (is_bps min_ratio) (ValueError "SellSimConfig.min_out_ratio_bps must be in [0, 10000] bps.");;
  Ok (mk max_tax min_ratio dust).
End SellSimConfig.

(** ** The clients *)

Record SimResult : Type := mk_sim { success : bool; cu_consumed : Z; revert_reason : option string }.
Record UnsignedTx : Type := mk_unsigned {
  serialized_b64 : string; intent_kind : string; u_mint : string; client_intent_id : string
}.

(** What the venue uses of an RPC client: the two attributes it looks for with
    [hasattr], [None] when the client has none, and [simulate_transaction]. *)
Record RpcClient : Type := mk_rpc {
  quote_out_lamports : option Z;
  sell_out_lamports : option Z;
  simulate_transaction : string → result SimResult
}.
(** [signer.sign(tx, wallet_id).serialized_b64] *)
Definition Signer : Type := UnsignedTx → string → result string.

Definition MockRpcClient : RpcClient := mk_rpc None None (λ _, Ok (mk_sim true 180000 None)).
Definition MockSellSimRpcClient (simulate_sell_ok : bool) (quote_out sell_out : Z) (revert : string) : RpcClient :=
  mk_rpc (Some quote_out) (Some sell_out)
    (λ _, Ok (if simulate_sell_ok then mk_sim true 85000 None else mk_sim false 0 (Some revert))).
Definition MockHoneypotRpcClient : RpcClient := MockSellSimRpcClient false 10000 0 "custom_program_error_0x1775".

(** [s.encode()] of UTF-8 text. *)
Definition encode (s : string) : bytes := code <$> String.list_ascii_of_string s.
Definition MockSignerClient : Signer := λ tx wallet_id,
  Ok (b64encode (encode ("mock_sig:" +:+ client_intent_id tx +:+ ":" +:+ wallet_id +:+ ":" +:+ serialized_b64 tx))).
Definition MockSignerClientRefusing (reason : string) : Signer := λ _ _, Raise (CustomError "SignerRefused" reason).

(** ** The venue *)

Record SellSimVenue : Type := mk_venue {
  _rpc : RpcClient; _signer : Signer; _config : SellSimConfig.t; _wallet_pubkey : string
}.
Definition default_wallet : string := "SellSimPubkey11111111111111111111111111111".
(** [SellSimVenue()]: the offline mocks. *)
Definition default_venue : SellSimVenue := mk_venue MockRpcClient MockSignerClient SellSimConfig.default default_wallet.

Definition _quote_sell (v : SellSimVenue) : Z :=
  match quote_out_lamports (_rpc v), sell_out_lamports (_rpc v) with
  | Some q, _ => q
  | None, Some s => s
  | None, None => 10000
  end.

Definition json_field (k v : string) : string := json_str k +:+ ":" +:+ v.
(** The raw payload, before base64. *)
Definition stub_payload (v : SellSimVenue) (mint : string) (amount_in min_out_lamports : Z) (intent_id : string) : string :=
  "{" +:+ join ","
    [json_field "intent_kind" (json_str "SELL_SIM"); json_field "client_intent_id" (json_str intent_id);
     json_field "mint" (json_str mint); json_field "amount_in" (pretty amount_in);
     json_field "min_out_lamports" (pretty min_out_lamports); json_field "wallet_pubkey" (json_str (_wallet_pubkey v))]
    +:+ "}".
Definition _build_sell_stub (v : SellSimVenue) (mint : string) (amount_in min_out_lamports : Z) (intent_id : string) : string :=
  b64encode (encode (stub_payload v mint amount_in min_out_lamports intent_id)).

Definition _sign_sell_stub (v : SellSimVenue) (unsigned_b64 intent_id : string) : result (option string) :=
  signed ← _signer v (mk_unsigned unsigned_b64 "SELL_SIM" "sell_sim" intent_id) "sell-sim-wallet";
  Ok (Some signed).

Definition _run_simulate (v : SellSimVenue) (signed_b64 : string) : result SimResult :=
  simulate_transaction (_rpc v) signed_b64.

Definition _compute_effective_tax_bps (simulated_out quoted_out : Z) : Z :=
  if (quoted_out <=? 0) || (simulated_out <? 0) then 0
  else if quoted_out <=? simulated_out then 0
  else (quoted_out - simulated_out) * 10000 / quoted_out.

Definition _extract_sim_out (v : SellSimVenue) (quote_out : Z) : Z := default quote_out (sell_out_lamports (_rpc v)).

Section Venue.
Context (v : SellSimVenue) (mint : string) (event_slot : Z).

Definition refuse (r : SellSimReason.t) (detail : string) : SellSimResult.t :=
  SellSimResult.mk false r mint event_slot (SellSimConfig.dust_sell_amount (_config v)) 0 0 0 None detail.

(** Step 5, on the result of the simulation. *)
Definition judge (quote_out : Z) (sim : SimResult) : SellSimResult.t :=
  let dust := SellSimConfig.dust_sell_amount (_config v) in
  if negb (success sim) then
    SellSimResult.mk false SIM_REVERT mint event_slot dust 0 0 (cu_consumed sim) (revert_reason sim)
      ("simulate_revert:" +:+
       match revert_reason sim with Some r => if bool_decide (r = "") then "unknown" else r | None => "unknown" end)
  else
    let out := _extract_sim_out v quote_out in
    if out <=? 0 then
      SellSimResult.mk false ZERO_OUTPUT mint event_slot dust 0 0 (cu_consumed sim) None
        "simulated_sell_returned_zero_lamports"
    else
      let tax := _compute_effective_tax_bps out quote_out in
      let max_tax := SellSimConfig.max_sell_tax_bps (_config v) in
      if max_tax <? tax then
        SellSimResult.mk false HIGH_SELL_TAX mint event_slot dust out tax (cu_consumed sim) None
          ("sell_tax_" +:+ pretty tax +:+ "bps_exceeds_max_" +:+ pretty max_tax +:+ "bps")
      else SellSimResult.mk true SELLABLE mint event_slot dust out tax (cu_consumed sim) None "sell_sim_passed".

(** The [try] block. *)
Definition attempt_sell : result SellSimResult.t :=
  let intent_id := "sell-sim:" +:+ mint +:+ ":" +:+ pretty event_slot in
  let quote_out := _quote_sell v in
  if quote_out <=? 0 then Ok (refuse QUOTE_FAILED "sell_quote_returned_zero_output")
  else
    let unsigned := _build_sell_stub v mint (SellSimConfig.dust_sell_amount (_config v)) 1 intent_id in
    signed ← _sign_sell_stub v unsigned intent_id;
    match signed with
    | None => Ok (refuse SIGNER_REFUSED "signer_refused_sell_program_not_allowlisted")
    | Some signed_b64 => sim ← _run_simulate v signed_b64; Ok (judge quote_out sim)
    end.

Definition simulate_sell : SellSimResult.t :=
  match attempt_sell with
  | Ok r => r
  | Raise e =>
      match refused_reason e with
      | Some reason => refuse SIGNER_REFUSED ("signer_refused:" +:+ reason)
      | None => refuse INFRASTRUCTURE_ERROR ("unexpected:" +:+ exn_name e)
      end
  end.

Definition is_sellable : bool := SellSimResult.sellable simulate_sell.
End Venue.

(** ** The re-probe *)

Inductive SellabilityReprobeReason : Type :=
| HEALTHY | DEGRADED_SIM_REVERT | DEGRADED_ZERO_OUTPUT | DEGRADED_HIGH_SELL_TAX | DEGRADED_ACCOUNT_CLOSE_TRAP
| DEGRADED_OTHER | INCONCLUSIVE.
#[export] Instance SellabilityReprobeReason_eq_dec : EqDecision SellabilityReprobeReason.
Proof. solve_decision. Defined.
Definition reprobe_value (r : SellabilityReprobeReason) : string :=
  match r with
  | HEALTHY => "healthy" | DEGRADED_SIM_REVERT => "degraded_sim_revert"
  | DEGRADED_ZERO_OUTPUT => "degraded_zero_output" | DEGRADED_HIGH_SELL_TAX => "degraded_high_sell_tax"
  | DEGRADED_ACCOUNT_CLOSE_TRAP => "degraded_account_close_trap" | DEGRADED_OTHER => "degraded_other"
  | INCONCLUSIVE => "inconclusive"
  end.
Definition is_degraded (r : SellabilityReprobeReason) : bool := negb (bool_decide (r = HEALTHY)).

Definition _DEGRADED_REASON_MAP (r : SellSimReason.t) : option SellabilityReprobeReason :=
  match r with
  | SIM_REVERT => Some DEGRADED_SIM_REVERT
  | ZERO_OUTPUT => Some DEGRADED_ZERO_OUTPUT
  | HIGH_SELL_TAX => Some DEGRADED_HIGH_SELL_TAX
  | ACCOUNT_CLOSE_TRAP => Some DEGRADED_ACCOUNT_CLOSE_TRAP
  | _ => None
  end.
Definition _classify (r : SellSimResult.t) : SellabilityReprobeReason :=
  if negb (SellSimResult.sellable r) then default DEGRADED_OTHER (_DEGRADED_REASON_MAP (SellSimResult.reason r))
  else if bool_decide (SellSimResult.reason r = SELLABLE) then HEALTHY else INCONCLUSIVE.

Module ReprobeResult.
Record t : Type := mk {
  mint : string; event_slot : Z; reason : SellabilityReprobeReason; degraded : bool; flag_set : bool;
  sell_sim_reason : option string; detail : string
}.
End ReprobeResult.

Module ReprobeStats.
Record t : Type := mk {
  reprobes_run : Z; not_open_skipped : Z; degraded : Z; healthy : Z; probe_exceptions : Z; flags_set : Z;
  last_event_slot : Z
}.
Definition zero : t := mk 0 0 0 0 0 0 0.
Definition skip s := mk (reprobes_run s) (not_open_skipped s + 1) (degraded s) (healthy s) (probe_exceptions s) (flags_set s) (last_event_slot s).
Definition run slot s := mk (reprobes_run s + 1) (not_open_skipped s) (degraded s) (healthy s) (probe_exceptions s) (flags_set s) (Z.max (last_event_slot s) slot).
Definition raised s := mk (reprobes_run s) (not_open_skipped s) (degraded s) (healthy s) (probe_exceptions s + 1) (flags_set s) (last_event_slot s).
Definition unhealthy s := mk (reprobes_run s) (not_open_skipped s) (degraded s + 1) (healthy s) (probe_exceptions s) (flags_set s) (last_event_slot s).
Definition well s := mk (reprobes_run s) (not_open_skipped s) (degraded s) (healthy s + 1) (probe_exceptions s) (flags_set s) (last_event_slot s).
Definition wrote s := mk (reprobes_run s) (not_open_skipped s) (degraded s) (healthy s) (probe_exceptions s) (flags_set s + 1) (last_event_slot s).
End ReprobeStats.

(** The reprober's counters and the store its flag sink is. *)
Record ReprobeWorld : Type := mk_reprobe { r_stats : ReprobeStats.t; r_store : StateStore }.

Section Reprober.
Context (_clock : nat → Z).
(** [self._probe.simulate_sell], whether a flag sink is wired, and the TTL. *)
Context (probe : string → Z → result SellSimResult.t) (wired : bool) (_flag_ttl : Z).

(** [SellabilityReprober(...)]: the TTL's check. *)
Definition reprober_ttl (flag_ttl_seconds : int_arg) : result Z :=
  _check_int "SellabilityReprober.flag_ttl_seconds" flag_ttl_seconds (Some 1).

Definition count (f : ReprobeStats.t → ReprobeStats.t) : M ReprobeWorld unit :=
  modify (λ w, mk_reprobe (f (r_stats w)) (r_store w)).
Definition to_sink {A} (m : M StateStore A) : M ReprobeWorld A := λ w,
  let '(r, s) := m (r_store w) in (r, mk_reprobe (r_stats w) s).

Definition _run_probe (mint : string) (event_slot : Z)
    : M ReprobeWorld (SellabilityReprobeReason * option string * string) :=
  match probe mint event_slot with
  | Raise e => count ReprobeStats.raised;; mret (INCONCLUSIVE, None, "probe_raised:" +:+ exn_name e)
  | Ok result => mret (_classify result, Some (SellSimReason.value (SellSimResult.reason result)), SellSimResult.detail result)
  end.

(** The degraded branch: whether the flag was written. *)
Definition raise_flag (mint : string) (reason : SellabilityReprobeReason) (event_slot : Z) : M ReprobeWorld bool :=
  count ReprobeStats.unhealthy;;
  if wired then
    to_sink (set_sellability_degraded_flag _clock mint (reprobe_value reason) event_slot _flag_ttl);;
    count ReprobeStats.wrote;; mret true
  else mret false.

Definition reprobe (mint : string) (event_slot : int_arg) (is_open_position : bool) : M ReprobeWorld (option ReprobeResult.t) :=
  lift (_check_str "reprobe.mint" mint);;
  event_slot ← lift (_check_int "reprobe.event_slot" event_slot (Some 0));
  if negb is_open_position then count ReprobeStats.skip;; mret None
  else
    count (ReprobeStats.run event_slot);;
    '(reason, sell_sim_reason, detail) ← _run_probe mint event_slot;
    let degraded := is_degraded reason in
    flag_set ← (if degraded then raise_flag mint reason event_slot
                else count ReprobeStats.well;; mret false);
    mret (Some (ReprobeResult.mk mint event_slot reason degraded flag_set sell_sim_reason detail)).

Fixpoint reprobe_each (positions : list Position.t) (event_slot : Z) : M ReprobeWorld (list ReprobeResult.t) :=
  match positions with
  | [] => mret []
  | pos :: positions =>
      result ← reprobe (Position.mint pos) (IInt event_slot) true;
      results ← reprobe_each positions event_slot;
      mret (option_list result ++ results)
  end.

Definition reprobe_open_positions (event_slot : int_arg) : M ReprobeWorld (list ReprobeResult.t) :=
  event_slot ← lift (_check_int "reprobe_open_positions.event_slot" event_slot (Some 0));
  positions ← to_sink load_all_positions;
  reprobe_each positions event_slot.
End Reprober.

(** ** What the sell simulation confirms *)

(** A quote, a signed stub, a successful simulation, an output, and at most
    the tolerated share of the quote lost. *)
Definition sell_confirmed (v : SellSimVenue) (mint : string) (event_slot : Z) : Prop :=
  let id := "sell-sim:" +:+ mint +:+ ":" +:+ pretty event_slot in
  let q := _quote_sell v in
  0 < q ∧
  ∃ signed sim,
    _signer v (mk_unsigned (_build_sell_stub v mint (SellSimConfig.dust_sell_amount (_config v)) 1 id)
                 "SELL_SIM" "sell_sim" id) "sell-sim-wallet" = Ok signed ∧
    simulate_transaction (_rpc v) signed = Ok sim ∧ success sim = true ∧
    0 < _extract_sim_out v q ∧
    (q - _extract_sim_out v q) * 10000 < (SellSimConfig.max_sell_tax_bps (_config v) + 1) * q.

Lemma tax_within out q m : 0 < out → 0 < q → 0 ≤ m →
  (m <? _compute_effective_tax_bps out q) = false ↔ (q - out) * 10000 < (m + 1) * q.
Proof.
  intros Ho Hq Hm. unfold _compute_effective_tax_bps. rewrite (proj2 (Z.leb_gt q 0)), (proj2 (Z.ltb_ge out 0)) by lia.
  cbn [orb]. rewrite Z.ltb_ge. destruct (Z.leb_spec q out) as [H|H]; [nia|].
  pose proof (Z.div_mod ((q - out) * 10000) q ltac:(lia)). pose proof (Z.mod_pos_bound ((q - out) * 10000) q Hq). nia.
Qed.

Lemma judge_sellable v mint slot q sim :
  0 < q → 0 ≤ SellSimConfig.max_sell_tax_bps (_config v) →
  let r := judge v mint slot q sim in
  (SellSimResult.sellable r = true ↔ success sim = true ∧ 0 < _extract_sim_out v q ∧
     (q - _extract_sim_out v q) * 10000 < (SellSimConfig.max_sell_tax_bps (_config v) + 1) * q) ∧
  (SellSimResult.sellable r = true ↔ SellSimResult.reason r = SELLABLE).
Proof.
  intros Hq Hm. unfold judge. destruct (success sim); cbn [negb]; [|naive_solver].
  destruct (Z.leb_spec (_extract_sim_out v q) 0) as [H|H]; [split; split; try done; intros; cbn in *; lia|].
  pose proof (tax_within _ q _ H Hq Hm) as Ht.
  destruct (_ <? _); cbn; [naive_solver|]. split; split; try done. intros _. tauto.
Qed.

Lemma simulate_sellable v mint slot :
  0 ≤ SellSimConfig.max_sell_tax_bps (_config v) →
  let r := simulate_sell v mint slot in
  (SellSimResult.sellable r = true ↔ sell_confirmed v mint slot) ∧
  (SellSimResult.sellable r = true ↔ SellSimResult.reason r = SELLABLE).
Proof.
  intros Hm. unfold simulate_sell, attempt_sell, sell_confirmed, _sign_sell_stub, _run_simulate. cbv zeta.
  destruct (Z.leb_spec (_quote_sell v) 0) as [Hq|Hq]; [cbn; split; [split; [done|lia]|done]|].
  destruct (_signer v _ _) as [signed|e]; cbn [mbind result_bind].
  2:{ destruct (refused_reason e); cbn; naive_solver. }
  destruct (simulate_transaction (_rpc v) signed) as [sim|e] eqn:Es; cbn [mbind result_bind].
  2:{ destruct (refused_reason e); cbn; (split; split; [discriminate| |discriminate..]); intros (_ & s' & ? & Hs' & Es' & _);
      injection Hs' as <-; rewrite Es in Es'; discriminate. }
  destruct (judge_sellable v mint slot _ sim Hq Hm) as [H1 H2]. split; [|done]. rewrite H1. split.
  - intros H. split; [done|]. by exists signed, sim.
  - intros (_ & s' & sim' & Hs' & Es' & H). injection Hs' as <-. rewrite Es in Es'. injection Es' as <-. exact H.
Qed.

Definition with_ratio (ratio : Z) (v : SellSimVenue) : SellSimVenue :=
  mk_venue (_rpc v) (_signer v)
    (SellSimConfig.mk (SellSimConfig.max_sell_tax_bps (_config v)) ratio (SellSimConfig.dust_sell_amount (_config v)))
    (_wallet_pubkey v).

(** [min_out_ratio_bps] plays no part. *)
Lemma with_ratio_same ratio v mint slot : simulate_sell (with_ratio ratio v) mint slot = simulate_sell v mint slot.
Proof.
  unfold simulate_sell, attempt_sell, _run_simulate, _sign_sell_stub. cbv zeta.
  change (_quote_sell (with_ratio ratio v)) with (_quote_sell v).
  set (id := "sell-sim:" +:+ _).
  assert (_build_sell_stub (with_ratio ratio v) mint (SellSimConfig.dust_sell_amount (_config (with_ratio ratio v))) 1 id =
    _build_sell_stub v mint (SellSimConfig.dust_sell_amount (_config v)) 1 id) as ->.
  { unfold _build_sell_stub, stub_payload. cbn [with_ratio _config _wallet_pubkey SellSimConfig.dust_sell_amount]. reflexivity. }
  assert (∀ q sim, judge (with_ratio ratio v) mint slot q sim = judge v mint slot q sim) as Hj by done.
  assert (∀ r d, refuse (with_ratio ratio v) mint slot r d = refuse v mint slot r d) as Hr by done.
  rewrite !Hr. destruct (_ <=? _); [done|]. cbn [with_ratio _signer _rpc].
  destruct (_signer v _ _) as [signed|x]; cbn [mbind result_bind]; [|done].
  destruct (simulate_transaction _ _); cbn [mbind result_bind]; [apply Hj|done].
Qed.

(** C32: A token is reported sellable exactly when the dust sell was confirmed
    end to end.  The simulation returns whatever the clients raise; it answers
    [sellable] iff there was a quote, the stub was signed, the simulation
    succeeded, something came out, and the share of the quote that did not
    come out floors to at most the tolerated tax; otherwise the reason is one
    of the refusals, and the entry gate's probe then reports NOT_SELLABLE.
    [min_out_ratio_bps] plays no part, and no simulation ever reports an
    account-close trap. *)
Theorem sellable_iff_sell_confirmed v mint slot :
  0 ≤ SellSimConfig.max_sell_tax_bps (_config v) →
  let r := simulate_sell v mint slot in
  (is_sellable v mint slot = true ↔ sell_confirmed v mint slot) ∧
  (SellSimResult.sellable r = true ↔ SellSimResult.reason r = SELLABLE) ∧
  SellSimResult.reason r ≠ ACCOUNT_CLOSE_TRAP ∧
  (∀ i, SafetyInputs.mint i = mint → SafetyInputs.event_slot i = slot →
     check_sellability i (Some (λ m s, Ok (is_sellable v m s))) = Ok None ↔ sell_confirmed v mint slot) ∧
  (∀ ratio, simulate_sell (with_ratio ratio v) mint slot = r).
Proof.
  intros Hm. cbv zeta. destruct (simulate_sellable v mint slot Hm) as [H1 H2]. fold (is_sellable v mint slot) in H1.
  split_and!; [done|done| | |].
  - unfold simulate_sell, attempt_sell. cbv zeta. destruct (_ <=? _); [done|].
    destruct (_sign_sell_stub _ _ _) as [[signed|]|e]; cbn [mbind result_bind]; [|done|by destruct (refused_reason e)].
    destruct (_run_simulate v signed) as [sim|e]; cbn [mbind result_bind]; [|by destruct (refused_reason e)].
    unfold judge. by repeat case_match.
  - intros i <- <-. unfold check_sellability. cbn [mbind result_bind]. rewrite <- H1. by destruct (is_sellable _ _ _).
  - intros ratio. exact (with_ratio_same ratio v mint slot).
Qed.

Definition taxed_venue (out : Z) : SellSimVenue :=
  mk_venue (MockSellSimRpcClient true 10000 out "") MockSignerClient SellSimConfig.default default_wallet.

Lemma sellable_iff_witness : sell_confirmed (taxed_venue 9900) "M" 7 ∧ ¬ sell_confirmed (taxed_venue 8000) "M" 7.
Proof.
  split.
  - apply (proj1 (sellable_iff_sell_confirmed (taxed_venue 9900) "M" 7 ltac:(cbn; unfold DEFAULT_MAX_SELL_TAX_BPS; lia))).
    vm_compute. reflexivity.
  - intros H. apply (proj1 (sellable_iff_sell_confirmed (taxed_venue 8000) "M" 7 ltac:(cbn; unfold DEFAULT_MAX_SELL_TAX_BPS; lia))) in H.
    vm_compute in H. discriminate H.
Defined.

(** ** What the re-probe writes *)

Section Reprobed.
Context (_clock : nat → Z).
Context (probe : string → Z → result SellSimResult.t) (ttl slot : Z).

Definition probe_reason (mint : string) : SellabilityReprobeReason :=
  match probe mint slot with Ok r => _classify r | Raise _ => INCONCLUSIVE end.

(** The simulation ran and confirmed the sell. *)
Definition probe_confirms (mint : string) : Prop :=
  ∃ r, probe mint slot = Ok r ∧ SellSimResult.sellable r = true ∧ SellSimResult.reason r = SELLABLE.

Lemma degraded_iff mint : is_degraded (probe_reason mint) = true ↔ ¬ probe_confirms mint.
Proof.
  unfold is_degraded, probe_reason, probe_confirms, _classify.
  destruct (probe mint slot) as [r|e]; [|split; [|done]; intros _ (? & [=] & _)].
  destruct (SellSimResult.sellable r) eqn:E; cbn [negb].
  - destruct (decide (SellSimResult.reason r = SELLABLE)) as [H|H];
      [rewrite (bool_decide_eq_true_2 _ H)|rewrite (bool_decide_eq_false_2 _ H)]; cbn.
    + split; [done|]. intros Hn. exfalso. apply Hn. by exists r.
    + split; [|done]. intros _ (? & [= <-] & _ & ?). done.
  - split; [|by destruct (SellSimResult.reason r)]. intros _ (? & [= <-] & ? & _). congruence.
Qed.

(** What one re-probe does to the store. *)
Definition mark_degraded (mint : string) (s : StateStore) : StateStore :=
  if is_degraded (probe_reason mint) then
    set_sellabilities (<[mint := (reprobe_value (probe_reason mint), slot, _clock (_reads s) + ttl * 1000)]>
      (_sellability_degraded_flags s)) (set_reads (S (_reads s)) s)
  else s.
Definition outcome_of (mint : string) : ReprobeResult.t :=
  let d := is_degraded (probe_reason mint) in
  match probe mint slot with
  | Ok r => ReprobeResult.mk mint slot (_classify r) d d
              (Some (SellSimReason.value (SellSimResult.reason r))) (SellSimResult.detail r)
  | Raise e => ReprobeResult.mk mint slot INCONCLUSIVE d d None ("probe_raised:" +:+ exn_name e)
  end.

Hypothesis slot_ok : 0 ≤ slot.

Lemma reprobe_one mint w : mint ≠ "" →
  ∃ st, reprobe _clock probe true ttl mint (IInt slot) true w =
    (Ok (Some (outcome_of mint)), mk_reprobe st (mark_degraded mint (r_store w))).
Proof.
  intros Hm. unfold reprobe, _check_str, _check_int. rewrite bool_decide_eq_false_2 by done.
  rewrite (proj2 (Z.ltb_ge slot 0)) by done.
  unfold mark_degraded, outcome_of, probe_reason, _run_probe, raise_flag, count, to_sink, set_sellability_degraded_flag, ttl_set, _now.
  destruct w as [st s]. mstep. destruct (probe mint slot) as [r|e]; mstep.
  2:{ eexists. rewrite (proj2 (Z.ltb_ge slot 0)) by done. mstep. reflexivity. }
  destruct (is_degraded (_classify r)) eqn:E; mstep; [|by eexists].
  rewrite bool_decide_eq_false_2 by (by destruct (_classify r)).
  rewrite (proj2 (Z.ltb_ge slot 0)) by done. mstep. by eexists.
Qed.

Lemma reprobe_all ps w : Forall (λ p, Position.mint p ≠ "") ps →
  ∃ st, reprobe_each _clock probe true ttl ps slot w =
    (Ok (outcome_of <$> (Position.mint <$> ps)),
     mk_reprobe st (foldl (λ s m, mark_degraded m s) (r_store w) (Position.mint <$> ps))).
Proof.
  intros Hps. revert w. induction Hps as [|p ps Hp _ IH]; intros w; [by exists (r_stats w); destruct w|].
  cbn [reprobe_each]. destruct (reprobe_one (Position.mint p) w Hp) as [st E].
  unfold mbind, M_bind. rewrite E. destruct (IH (mk_reprobe st (mark_degraded (Position.mint p) (r_store w)))) as [st' E'].
  rewrite E'. by exists st'.
Qed.

Lemma marked ms s :
  let s' := foldl (λ s m, mark_degraded m s) s ms in
  _positions s' = _positions s ∧ (_reads s ≤ _reads s')%nat ∧
  (∀ fl m, fl ≠ Sellability → expiry_of fl s' m = expiry_of fl s m) ∧
  ∀ m, (m ∈ ms ∧ ¬ probe_confirms m ∧ ∃ n, (_reads s ≤ n < _reads s')%nat ∧ expiry_of Sellability s' m = Some (_clock n + ttl * 1000)) ∨
       (¬ (m ∈ ms ∧ ¬ probe_confirms m) ∧ expiry_of Sellability s' m = expiry_of Sellability s m).
Proof.
  revert s. induction ms as [|m0 ms IH]; intros s; cbv zeta; cbn [foldl].
  { split_and!; [done|lia|done|]. intros m. right. split; [|done]. intros [H _]. by apply not_elem_of_nil in H. }
  specialize (IH (mark_degraded m0 s)). cbv zeta in IH. destruct IH as (H1 & H2 & H3 & H4).
  unfold mark_degraded in H1, H2, H3, H4 |- * at 1. pose proof (degraded_iff m0) as Hd.
  set (s' := foldl _ _ ms) in *.
  destruct (is_degraded (probe_reason m0)); cbn in H1, H2.
  - split_and!; [done|lia| |].
    { intros fl m Hfl. rewrite H3 by done. by destruct fl. }
    intros m. destruct (H4 m) as [(Hin & Hn & n & Hle & He)|[Hno He]].
    + left. split; [by right|]. split; [done|]. exists n. cbn in Hle. split; [lia|done].
    + destruct (decide (m = m0)) as [->|Hne].
      * left. split; [by left|]. split; [by apply Hd|]. exists (_reads s). split; [lia|].
        rewrite He. cbn. by rewrite lookup_insert_eq.
      * right. split; [rewrite elem_of_cons; naive_solver|]. rewrite He. cbn. by rewrite lookup_insert_ne.
  - split_and!; [done|lia|done|]. intros m. destruct (H4 m) as [(Hin & Hn & n & Hle & He)|[Hno He]].
    + left. split; [by right|]. naive_solver.
    + right. split; [|done]. intros [[->|Hin]%elem_of_cons Hn]; [|by apply Hno].
      assert (false = true) by (by apply Hd). done.
Qed.

(** Every stored position is either confirmed sellable or flagged.  With
    the store as its sink, a re-probe of all positions returns one result per
    position in order; a position is reported degraded exactly when the
    simulation raised or did not confirm the sell, its flag then holds a fresh
    time to live, and no other flag, position or mint is touched; so the
    re-probe never clears or shortens the flag of a healthy position. *)
Theorem reprobe_flags_unconfirmed w : 
  Forall (λ p, Position.mint p ≠ "") (_positions (r_store w)).*2 →
  let '(r, w') := reprobe_open_positions _clock probe true ttl (IInt slot) w in
  let mints := Position.mint <$> (_positions (r_store w)).*2 in
  let s := r_store w in let s' := r_store w' in
  r = Ok (outcome_of <$> mints) ∧ _positions s' = _positions s ∧
  (∀ fl m, fl ≠ Sellability → expiry_of fl s' m = expiry_of fl s m) ∧
  (∀ m, ReprobeResult.degraded (outcome_of m) = true ↔ ¬ probe_confirms m) ∧
  (∀ m, m ∈ mints → ¬ probe_confirms m →
     ∃ n, (_reads s ≤ n < _reads s')%nat ∧ expiry_of Sellability s' m = Some (_clock n + ttl * 1000)) ∧
  (∀ m, m ∉ mints ∨ probe_confirms m → expiry_of Sellability s' m = expiry_of Sellability s m).
Proof.
  intros Hps. unfold reprobe_open_positions, _check_int. rewrite (proj2 (Z.ltb_ge slot 0)) by done.
  destruct w as [st s]. cbn [r_store] in *. mstep. destruct (reprobe_all _ (mk_reprobe st s) Hps) as [st' ->].
  cbn [r_store]. destruct (marked (Position.mint <$> (_positions s).*2) s) as (H1 & H2 & H3 & H4).
  split_and!; [done|done|done| | |].
  - intros m. rewrite <- degraded_iff. unfold outcome_of. by destruct (probe m slot).
  - intros m Hin Hn. destruct (H4 m) as [(_ & _ & H)|[H _]]; [done|tauto].
  - intros m H. destruct (H4 m) as [(Hin & Hn & _)|[_ He]]; [tauto|done].
Qed.
End Reprobed.

(** ** The signers the venue can be wired with *)

(** The mocked venue confirms every sell. *)
Lemma default_sells mint slot : SellSimResult.sellable (simulate_sell default_venue mint slot) = true ∧
  SellSimResult.reason (simulate_sell default_venue mint slot) = SELLABLE.
Proof.
  unfold simulate_sell, attempt_sell. cbv zeta. generalize ("sell-sim:" +:+ mint +:+ ":" +:+ pretty slot). intros id.
  change (_quote_sell default_venue) with 10000. cbn [Z.leb Z.compare].
  generalize (_build_sell_stub default_venue mint (SellSimConfig.dust_sell_amount (_config default_venue)) 1 id).
  intros stub. unfold _sign_sell_stub. cbn [default_venue _signer]. unfold MockSignerClient. cbn [mbind result_bind].
  by split.
Qed.

(** A pass whose every probe confirms leaves the store alone. *)
Lemma confirmed_pass _clock probe ttl slot w : 0 ≤ slot → Forall (λ p, Position.mint p ≠ "") (_positions (r_store w)).*2 →
  (∀ m, probe_confirms probe slot m) → r_store (reprobe_open_positions _clock probe true ttl (IInt slot) w).2 = r_store w.
Proof.
  intros Hs Hps Hp. unfold reprobe_open_positions, _check_int. rewrite (proj2 (Z.ltb_ge slot 0)) by done.
  destruct w as [st s]. cbn [r_store] in *. mstep. destruct (reprobe_all _clock probe ttl slot Hs _ (mk_reprobe st s) Hps) as [st' ->].
  cbn [r_store snd]. induction (Position.mint <$> (_positions s).*2) as [|m ms IH]; [done|]. cbn [foldl].
  assert (mark_degraded _clock probe ttl slot m s = s) as ->; [|exact IH]. unfold mark_degraded.
  destruct (is_degraded _) eqn:E; [|done]. destruct (proj1 (degraded_iff probe slot m) E (Hp m)).
Qed.

Section Isolated.
Context {C : Clock} {S : Ed25519Signer}.
Context (solders : option (string → string → string → string → option string)).

(** [SocketSignerClient.sign] against the signer process: a refusal comes back
    as [SignerRefused], and so does a connection the process dropped. *)
Definition SocketSignerClient (e : Enforcer) (now_s : time) (expected_wallet_id : option string) : Signer :=
  λ tx wallet_id,
    let payload := JObj [("wallet_id", Some wallet_id); ("tx_b64", Some (serialized_b64 tx));
                         ("intent_id", Some (client_intent_id tx)); ("intent_kind", Some (intent_kind tx));
                         ("mint", Some (u_mint tx))] in
    match (handle_sign_request solders payload now_s expected_wallet_id e).1 with
    | Ok (Signed signed_b64 _) => Ok signed_b64
    | Ok (Refused reason) => Raise (CustomError "SignerRefused" reason)
    | Raise _ => Raise (CustomError "SignerRefused" "signer_unavailable")
    end.

Lemma encode_ok s : Forall byte_ok (encode s).
Proof.
  unfold encode. apply Forall_fmap, Forall_forall. intros a _. unfold code, byte_ok; cbn.
  pose proof (Ascii.N_ascii_bounded a). lia.
Qed.

(** JSON text is no transaction: its first byte announces 123 signatures. *)
Lemma brace_unparseable bs : zlen (123 :: bs) < 7873 →
  parse_transaction (123 :: bs) = Raise (ValueError "truncated transaction: signatures section").
Proof.
  intros H. assert (read_compact_u16 (123 :: bs) 0 = Ok (123, 1)) as E.
  { unfold read_compact_u16. cbn [read_compact_loop]. assert (0 < zlen (123 :: bs)) as Hl by (unfold zlen; cbn; lia).
    rewrite (proj2 (Z.leb_gt _ _) Hl). reflexivity. }
  unfold parse_transaction. rewrite E. cbn [mbind result_bind]. rewrite (proj2 (Z.ltb_lt _ _)) by lia. reflexivity.
Qed.
Lemma stub_brace v mint amount_in min_out id :
  ∃ text, stub_payload v mint amount_in min_out id = String (Ascii.ascii_of_nat 123) text.
Proof. by eexists. Qed.

Lemma stub_refused e now_s expected tx wallet_id text :
  caches_valid solders e → serialized_b64 tx = b64encode (encode (String (Ascii.ascii_of_nat 123) text)) →
  zlen (encode (String (Ascii.ascii_of_nat 123) text)) < 7873 →
  ∃ r, SocketSignerClient e now_s expected tx wallet_id = Raise (CustomError "SignerRefused" r).
Proof.
  intros Hv Htx Hl. unfold SocketSignerClient, handle_sign_request.
  destruct (wallet_id_matches _ expected); cbn [negb fst]; [|by eexists].
  assert (∀ fs, obj_get (("wallet_id", Some wallet_id) :: ("tx_b64", Some (serialized_b64 tx))
    :: ("intent_id", Some (client_intent_id tx)) :: ("intent_kind", Some (intent_kind tx)) :: ("mint", Some (u_mint tx)) :: fs) "tx_b64"
    = obj_get (("tx_b64", Some (serialized_b64 tx)) :: fs) "tx_b64") as -> by done.
  change (obj_get _ "tx_b64") with (Some (Some (serialized_b64 tx))). cbv iota beta.
  rewrite Htx, b64_decode_encode by apply encode_ok. unfold enforce_and_sign.
  pose proof (enforce_transparent solders (encode (String (Ascii.ascii_of_nat 123) text)) pubkey_b58 now_s e Hv) as He.
  destruct (enforce solders _ pubkey_b58 now_s e) as [r e']. destruct He as [-> _].
  unfold enforce_spec, price_spec.
  change (encode (String (Ascii.ascii_of_nat 123) text)) with (123 :: encode text) in Hl |- *.
  rewrite brace_unparseable by done. cbn. by eexists.
Qed.

(** The re-probe is decided by its wiring, not by the token.  The venue the
    controller builds, [SellSimVenue()] on its offline mocks, reports every
    token sellable at every slot, so its re-probe never changes the store;
    with the isolated signer in place of the mock, every token whose stub fits
    in 7872 bytes is refused, because the stub is JSON and no transaction, so
    a re-probe flags every position it looks at. *)
Theorem reprobe_decided_by_wiring :
  (∀ mint slot, SellSimResult.reason (simulate_sell default_venue mint slot) = SELLABLE) ∧
  (∀ _clock ttl slot w, 0 ≤ slot → Forall (λ p, Position.mint p ≠ "") (_positions (r_store w)).*2 →
     r_store (reprobe_open_positions _clock (λ m s, Ok (simulate_sell default_venue m s)) true ttl (IInt slot) w).2
       = r_store w) ∧
  (∀ rpc cfg wallet e now_s expected mint slot,
     let v := mk_venue rpc (SocketSignerClient e now_s expected) cfg wallet in
     let id := "sell-sim:" +:+ mint +:+ ":" +:+ pretty slot in
     caches_valid solders e → 0 < _quote_sell v →
     zlen (encode (stub_payload v mint (SellSimConfig.dust_sell_amount cfg) 1 id)) < 7873 →
     SellSimResult.reason (simulate_sell v mint slot) = SIGNER_REFUSED ∧
     probe_reason (λ m s, Ok (simulate_sell v m s)) slot mint = DEGRADED_OTHER).
Proof.
  split_and!; [apply default_sells| |].
  - intros clock ttl slot w Hs Hps. apply confirmed_pass; [done|done|]. intros m. eexists. by split; [reflexivity|apply default_sells].
  - intros rpc cfg wallet e now_s expected mint slot v id Hv Hq Hl.
    destruct (stub_brace v mint (SellSimConfig.dust_sell_amount cfg) 1 id) as [text Et].
    set (tx := mk_unsigned (_build_sell_stub v mint (SellSimConfig.dust_sell_amount cfg) 1 id) "SELL_SIM" "sell_sim" id).
    assert (serialized_b64 tx = b64encode (encode (String (Ascii.ascii_of_nat 123) text))) as Etx
      by (unfold tx, _build_sell_stub; cbn [serialized_b64]; by rewrite Et).
    rewrite Et in Hl. destruct (stub_refused e now_s expected tx "sell-sim-wallet" text Hv Etx Hl) as [r Hr].
    assert (simulate_sell v mint slot = refuse v mint slot SIGNER_REFUSED ("signer_refused:" +:+ r)) as E.
    { unfold simulate_sell, attempt_sell. rewrite (proj2 (Z.leb_gt _ _)) by done. unfold _sign_sell_stub.
      fold id. change (_signer v) with (SocketSignerClient e now_s expected). change (_config v) with cfg. fold tx. by rewrite Hr. }
    split; [by rewrite E|]. unfold probe_reason. by rewrite E.
Qed.
End Isolated.

(** *** Witnesses *)

Definition reprobed : ReprobeWorld :=
  mk_reprobe ReprobeStats.zero (StateStore.set_positions [("M", sample_position OPEN)] StateStore_init).
(** A simulation that reverts. *)
Definition honeypot_probe (m : string) (s : Z) : result SellSimResult.t :=
  Ok (simulate_sell (mk_venue MockHoneypotRpcClient MockSignerClient SellSimConfig.default default_wallet) m s).

Lemma reprobe_flags_witness :
  let '(r, w') := reprobe_open_positions tick_clock honeypot_probe true 120 (IInt 9) reprobed in
  (∃ n, expiry_of Sellability (r_store w') "M" = Some (tick_clock n + 120000)) ∧
  ∃ res, r = Ok [res] ∧ ReprobeResult.reason res = DEGRADED_SIM_REVERT.
Proof.
  assert (Forall (λ p, Position.mint p ≠ "") (_positions (r_store reprobed)).*2) as Hps by (repeat constructor; discriminate).
  pose proof (reprobe_flags_unconfirmed tick_clock honeypot_probe 120 9 ltac:(lia) reprobed Hps) as H.
  destruct (reprobe_open_positions _ _ _ _ _ _) as [r w']. destruct H as (Hr & _ & _ & Hd & Hf & _).
  split.
  - destruct (Hf "M") as (n & _ & Hn); [by left| |by exists n]. apply Hd. vm_compute. reflexivity.
  - rewrite Hr. eexists. split; [reflexivity|]. vm_compute. reflexivity.
Defined.

Lemma reprobe_wiring_witness :
  let e := Enforcer_init (C := Z_clock) sample_policy (mk_ledger (C := Z_clock) 60 []) in
  SellSimResult.reason (simulate_sell
    (mk_venue MockRpcClient (SocketSignerClient (C := Z_clock) (S := sample_signer) None e 5 None) SellSimConfig.default
       default_wallet) "M" 7) = SIGNER_REFUSED.
Proof.
  intros e.
  assert (caches_valid (C := Z_clock) None e) as Hv.
  { split; cbn; [|done]. intros w k a. by rewrite lookup_empty. }
  exact (proj1 (proj2 (proj2 (reprobe_decided_by_wiring (C := Z_clock) (S := sample_signer) None))
    MockRpcClient SellSimConfig.default default_wallet e 5 None "M" 7 Hv ltac:(reflexivity) ltac:(vm_compute; reflexivity))).
Defined.
