(* ===== verification/LpUnlock.v ===== *)
(** * The LP-unlock gate and the exit watcher

    [aats/risk/lp_unlock_gate.py]: the decoded schedule of a liquidity lock,
    the entry gate over its distance in slots, and the watcher that raises the
    [lp_unlock_approaching] flag of an open position.  Telemetry and log calls
    are left out; an [LpLockStatus] is its enum value, so the branch for an
    unsupported status literal is not expressible. *)

From S2P Require Import Prelude Decimal DecimalOrder RiskContracts SurvivableStop SafetyGate Haircut Positions StateStore.

Module LpLockStatus.
Inductive t : Type := BURNED | TIME_LOCKED | UNKNOWN.
#[global] Instance eq_dec : EqDecision t.
Proof. solve_decision. Defined.
End LpLockStatus.

Module LpUnlockSchedule.
Record t : Type := mk { mint : string; as_of_event_slot : Z; status : LpLockStatus.t; unlock_slot : option Z }.

Definition check_slot (name : string) (v : int_arg) : result Z :=
  match v with
  | IInt z => if z <? 0 then Raise (ValueError (name +:+ " must be >= 0 (event-time slot).")) else Ok z
  | _ => Raise (TypeError (name +:+ " must be int (event-time slot)."))
  end.
Definition new (mint : string) (as_of : int_arg) (st : LpLockStatus.t) (unlock : option int_arg) : result t :=
  guard_ok (negb (bool_decide (mint = ""))) (ValueError "LpUnlockSchedule.mint must be a non-empty str.");;
  as_of ← check_slot "LpUnlockSchedule.as_of_event_slot" as_of;
  unlock ← (match unlock with
            | None => Ok None
            | Some u => u ← check_slot "LpUnlockSchedule.unlock_slot" u; Ok (Some u)
            end);
  guard_ok (bool_decide (st = LpLockStatus.TIME_LOCKED) || bool_decide (unlock = None))
    (ValueError "LpUnlockSchedule: status must carry unlock_slot=None");;
  Ok (mk mint as_of st unlock).
End LpUnlockSchedule.

Module LpUnlockThresholds.
Record t : Type := mk {
  reject_within_slots : Z; downweight_within_slots : Z; downweight_multiplier : dec; exit_raise_within_slots : Z
}.
Definition default : t := mk 216000 648000 (mkdec 25 (-2)) 216000.

Definition check_horizon (name : string) (v : int_arg) : result Z :=
  match v with
  | IInt z => if z <? 0 then Raise (ValueError (name +:+ " must be >= 0")) else Ok z
  | _ => Raise (TypeError (name +:+ " must be int (event-time slots)"))
  end.
Definition new (reject_within downweight_within : int_arg) (multiplier : ratio_in) (exit_raise : int_arg) : result t :=
  multiplier ← ratio_value multiplier "downweight_multiplier";
  reject_within ← check_horizon "reject_within_slots" reject_within;
  downweight_within ← check_horizon "downweight_within_slots" downweight_within;
  exit_raise ← check_horizon "exit_raise_within_slots" exit_raise;
  guard_ok (reject_within <=? downweight_within)
    (ValueError "downweight_within_slots must be >= reject_within_slots");;
  guard_ok (in_0_1_open multiplier) (ValueError "downweight_multiplier must be a fraction in [0, 1) - de-risk only");;
  Ok (mk reject_within downweight_within multiplier exit_raise).

(** [from_env] on the values of its four variables. *)
Definition from_env (reject downweight : option (option Z)) (multiplier : option (option dec)) (exit_raise : option (option Z))
    : result t :=
  reject ← env_int reject (reject_within_slots default);
  downweight ← env_int downweight (downweight_within_slots default);
  multiplier ← env_dec multiplier (downweight_multiplier default);
  exit_raise ← env_int exit_raise (exit_raise_within_slots default);
  new (IInt reject) (IInt downweight) (RDec multiplier) (IInt exit_raise).
End LpUnlockThresholds.

Module LpUnlockReason.
Inductive t : Type :=
| LP_UNLOCK_IMMINENT | LP_UNLOCK_APPROACHING | LP_UNLOCK_SCHEDULE_UNKNOWN | LP_BURNED_NO_UNLOCK | LP_UNLOCK_FAR_OFF.
Definition value (r : t) : string :=
  match r with
  | LP_UNLOCK_IMMINENT => "lp_unlock_imminent" | LP_UNLOCK_APPROACHING => "lp_unlock_approaching"
  | LP_UNLOCK_SCHEDULE_UNKNOWN => "lp_unlock_schedule_unknown" | LP_BURNED_NO_UNLOCK => "lp_burned_no_unlock"
  | LP_UNLOCK_FAR_OFF => "lp_unlock_far_off"
  end.
End LpUnlockReason.

Module LpUnlockDecision.
Record t : Type := mk {
  mint : string; verdict : Verdict.t; conviction_multiplier : dec; reason_codes : list string;
  slots_to_unlock : option Z; unlock_slot : option Z; as_of_event_slot : Z; event_block_time_ms : Z;
  red_flag_hit : option RedFlagHit
}.
Definition _REJECT_FLAGS : list RedFlag := [LP_UNLOCK_IMMINENT; LP_UNLOCK_SCHEDULE_UNKNOWN].
#[global] Instance decision : Decision t := {|
  Haircut.verdict := verdict; Haircut.conviction_multiplier := conviction_multiplier;
  Haircut.red_flag_hit := red_flag_hit; veto_flags := Some _REJECT_FLAGS |}.
Definition new (d : t) : result t := decision_new "LpUnlockDecision" d.
Definition refused_unknown (d : t) : bool :=
  rejected d && match red_flag_hit d with Some hit => bool_decide (SafetyGate.flag hit = LP_UNLOCK_SCHEDULE_UNKNOWN) | None => false end.
Definition apply (d : t) (capped_size : int_arg) : result Z := Haircut.apply d capped_size.
End LpUnlockDecision.

(** ** The entry gate *)

Section Gate.
Context (thresholds : LpUnlockThresholds.t).
Abbreviation schedule_t := LpUnlockSchedule.t.

Definition decide (schedule : schedule_t) (bt : Z) (v : Verdict.t) (m : dec) (codes : list string) (slots : option Z)
    (hit : option RedFlagHit) : result LpUnlockDecision.t :=
  LpUnlockDecision.new (LpUnlockDecision.mk (LpUnlockSchedule.mint schedule) v m codes slots
    (LpUnlockSchedule.unlock_slot schedule) (LpUnlockSchedule.as_of_event_slot schedule) bt hit).

Definition _pass (schedule : schedule_t) (bt : Z) (slots_to_unlock : option Z) : result LpUnlockDecision.t :=
  decide schedule bt Verdict.PASS (dec_of_Z 1) [] slots_to_unlock None.
Definition _reject (schedule : schedule_t) (bt : Z) (reason : LpUnlockReason.t) (red_flag : RedFlag)
    (slots_to_unlock measured threshold : option Z) : result LpUnlockDecision.t :=
  decide schedule bt Verdict.REJECT d0 [LpUnlockReason.value reason] slots_to_unlock
    (Some (mk_hit red_flag measured threshold)).

Definition evaluate (schedule : schedule_t) (bt : Z) : result LpUnlockDecision.t :=
  match LpUnlockSchedule.status schedule, LpUnlockSchedule.unlock_slot schedule with
  | LpLockStatus.BURNED, _ => _pass schedule bt None
  | LpLockStatus.UNKNOWN, _ | LpLockStatus.TIME_LOCKED, None =>
      _reject schedule bt LpUnlockReason.LP_UNLOCK_SCHEDULE_UNKNOWN LP_UNLOCK_SCHEDULE_UNKNOWN None None None
  | LpLockStatus.TIME_LOCKED, Some unlock_slot =>
      let slots_to_unlock := unlock_slot - LpUnlockSchedule.as_of_event_slot schedule in
      if slots_to_unlock <=? LpUnlockThresholds.reject_within_slots thresholds then
        _reject schedule bt LpUnlockReason.LP_UNLOCK_IMMINENT LP_UNLOCK_IMMINENT (Some slots_to_unlock)
          (Some slots_to_unlock) (Some (LpUnlockThresholds.reject_within_slots thresholds))
      else if slots_to_unlock <=? LpUnlockThresholds.downweight_within_slots thresholds then
        decide schedule bt Verdict.DOWN_WEIGHT (LpUnlockThresholds.downweight_multiplier thresholds)
          [LpUnlockReason.value LpUnlockReason.LP_UNLOCK_APPROACHING] (Some slots_to_unlock) None
      else _pass schedule bt (Some slots_to_unlock)
  end.

Definition evaluate_with_lp_unlock {S N} (schedule : schedule_t) (bt : Z) (next_step : M S N) (next_passed : N → bool)
    : M S (PreGate.t LpUnlockDecision.t N) :=
  evaluate_with (evaluate schedule bt) next_step next_passed.

(** ** The watcher of an open position *)

Inductive LpUnlockExitReason : Type := EXIT_HEALTHY | EXIT_APPROACHING | EXIT_SCHEDULE_UNKNOWN.
Definition exit_reason_value (r : LpUnlockExitReason) : string :=
  match r with
  | EXIT_HEALTHY => "healthy" | EXIT_APPROACHING => "lp_unlock_approaching"
  | EXIT_SCHEDULE_UNKNOWN => "lp_unlock_schedule_unknown"
  end.
Definition should_raise (r : LpUnlockExitReason) : bool := match r with EXIT_HEALTHY => false | _ => true end.

Definition classify_open_position_unlock (schedule : schedule_t) (event_slot : int_arg)
    : result (LpUnlockExitReason * option Z * string) :=
  event_slot ← (match event_slot with
                | IInt z => if z <? 0 then Raise (ValueError "classify_open_position_unlock.event_slot must be >= 0.") else Ok z
                | _ => Raise (TypeError "classify_open_position_unlock.event_slot must be int (event-time slot).")
                end);
  match LpUnlockSchedule.status schedule, LpUnlockSchedule.unlock_slot schedule with
  | LpLockStatus.BURNED, _ => Ok (EXIT_HEALTHY, None, "burned LP: no unlock window, no flag")
  | LpLockStatus.UNKNOWN, _ | LpLockStatus.TIME_LOCKED, None =>
      Ok (EXIT_SCHEDULE_UNKNOWN, None, "undecodable LP unlock schedule (refuse-by-default => raise exit flag)")
  | LpLockStatus.TIME_LOCKED, Some unlock_slot =>
      let slots_to_unlock := unlock_slot - event_slot in
      let horizon := LpUnlockThresholds.exit_raise_within_slots thresholds in
      if slots_to_unlock <=? horizon then
        Ok (EXIT_APPROACHING, Some slots_to_unlock,
            "unlock in " +:+ pretty slots_to_unlock +:+ " slots (<= " +:+ pretty horizon +:+ "); pullable-LP window is a rising rug risk")
      else
        Ok (EXIT_HEALTHY, Some slots_to_unlock,
            "unlock in " +:+ pretty slots_to_unlock +:+ " slots (> " +:+ pretty horizon +:+ "); far off")
  end.

Record LpUnlockExitDecision : Type := mk_exit_decision {
  x_mint : string; x_event_slot : Z; x_reason : LpUnlockExitReason; x_raise_flag : bool; x_flag_set : bool;
  x_slots_to_unlock : option Z; x_detail : string
}.

(** [LpUnlockExitWatcher.__post_init__]: the TTL's check. *)
Definition watcher_ttl (v : int_arg) : result Z :=
  match v with
  | IInt z => if z <? 1 then Raise (ValueError "LpUnlockExitWatcher.flag_ttl_seconds must be >= 1.") else Ok z
  | _ => Raise (TypeError "LpUnlockExitWatcher.flag_ttl_seconds must be int (seconds).")
  end.

(** [watch] with the state store as sink, when one is [wired]. *)
Definition watch (_clock : nat → Z) (wired : bool) (ttl : Z) (schedule : schedule_t) (event_slot : int_arg)
    : M StateStore LpUnlockExitDecision :=
  '(reason, slots_to_unlock, detail) ← lift (classify_open_position_unlock schedule event_slot);
  let slot := match event_slot with IInt z => z | _ => 0 end in
  let raise_flag := should_raise reason in
  flag_set ← (if raise_flag && wired then
                set_lp_unlock_approaching_flag _clock (LpUnlockSchedule.mint schedule) (exit_reason_value reason) slot ttl;;
                mret true
              else mret false : M StateStore bool);
  mret (mk_exit_decision (LpUnlockSchedule.mint schedule) slot reason raise_flag flag_set slots_to_unlock detail).
End Gate.

(** ** What the gate and the watcher guarantee *)

(** The thresholds a constructor accepts. *)
Record thresholds_wf (th : LpUnlockThresholds.t) : Prop := mk_th_wf {
  tw_order : 0 ≤ LpUnlockThresholds.reject_within_slots th ≤ LpUnlockThresholds.downweight_within_slots th;
  tw_exit : 0 ≤ LpUnlockThresholds.exit_raise_within_slots th;
  tw_mult : in_0_1_open (LpUnlockThresholds.downweight_multiplier th) = true
}.

Lemma thresholds_new_wf a b m e th : LpUnlockThresholds.new a b m e = Ok th → thresholds_wf th.
Proof.
  unfold LpUnlockThresholds.new, LpUnlockThresholds.check_horizon, guard_ok. intros H.
  destruct (ratio_value m _) as [x|]; cbn in H; [|done].
  destruct a as [a| |]; cbn in H; try done. destruct (a <? 0) eqn:Ea; cbn in H; [done|].
  destruct b as [b| |]; cbn in H; try done. destruct (b <? 0) eqn:Eb; cbn in H; [done|].
  destruct e as [e| |]; cbn in H; try done. destruct (e <? 0) eqn:Ee; cbn in H; [done|].
  destruct (a <=? b) eqn:Eo; cbn in H; [|done]. destruct (in_0_1_open x) eqn:Ex; cbn in H; [|done].
  injection H as <-. bools. by constructor; cbn.
Qed.

(** The slots left, for a schedule that can be read as a date. *)
Inductive lock_view : Type := Forever | Unreadable | Unlocks (slots : Z).
Definition view (schedule : LpUnlockSchedule.t) (slot : Z) : lock_view :=
  match LpUnlockSchedule.status schedule, LpUnlockSchedule.unlock_slot schedule with
  | LpLockStatus.BURNED, _ => Forever
  | LpLockStatus.TIME_LOCKED, Some u => Unlocks (u - slot)
  | _, _ => Unreadable
  end.
(** The band a distance falls in. *)
Definition band (th : LpUnlockThresholds.t) (v : lock_view) : Verdict.t :=
  match v with
  | Forever => Verdict.PASS
  | Unreadable => Verdict.REJECT
  | Unlocks n =>
      if n <=? LpUnlockThresholds.reject_within_slots th then Verdict.REJECT
      else if n <=? LpUnlockThresholds.downweight_within_slots th then Verdict.DOWN_WEIGHT else Verdict.PASS
  end.

Lemma decide_ok schedule bt v m codes slots hit :
  let d := LpUnlockDecision.mk (LpUnlockSchedule.mint schedule) v m codes slots
    (LpUnlockSchedule.unlock_slot schedule) (LpUnlockSchedule.as_of_event_slot schedule) bt hit in
  decision_wf d → decide schedule bt v m codes slots hit = Ok d ∧ decision_wf d.
Proof. intros d H. unfold decide, LpUnlockDecision.new. split; [|done]. by apply decision_new_wf. Qed.


Lemma reject_ok schedule bt r f s me t : f ∈ LpUnlockDecision._REJECT_FLAGS →
  ∃ d, _reject schedule bt r f s me t = Ok d ∧ decision_wf d ∧ verdict d = Verdict.REJECT ∧
    LpUnlockDecision.refused_unknown d = bool_decide (f = LP_UNLOCK_SCHEDULE_UNKNOWN).
Proof.
  intros Hf. unfold _reject. edestruct decide_ok as [H1 H2]; [|eexists; split_and!; [exact H1|exact H2|done..]].
  constructor; cbn; try done. intros ? [= <-]. by split.
Qed.
Lemma pass_ok schedule bt s :
  ∃ d, _pass schedule bt s = Ok d ∧ decision_wf d ∧ verdict d = Verdict.PASS ∧ LpUnlockDecision.refused_unknown d = false.
Proof.
  unfold _pass. edestruct decide_ok as [H1 H2]; [|eexists; split_and!; [exact H1|exact H2|done..]].
  by constructor.
Qed.

Lemma evaluate_ok th schedule bt : thresholds_wf th →
  ∃ d, evaluate th schedule bt = Ok d ∧ decision_wf d ∧
    verdict d = band th (view schedule (LpUnlockSchedule.as_of_event_slot schedule)) ∧
    (verdict d = Verdict.DOWN_WEIGHT → conviction_multiplier d = LpUnlockThresholds.downweight_multiplier th) ∧
    (LpUnlockDecision.refused_unknown d = true ↔ view schedule (LpUnlockSchedule.as_of_event_slot schedule) = Unreadable).
Proof.
  intros [Ho He Hm]. unfold evaluate, view.
  destruct (LpUnlockSchedule.status schedule), (LpUnlockSchedule.unlock_slot schedule) as [u|]; cbn [band];
    try (destruct (pass_ok schedule bt None) as (d & H1 & H2 & H3 & H4); exists d; rewrite H3, H4; by split_and!);
    try (destruct (reject_ok schedule bt LpUnlockReason.LP_UNLOCK_SCHEDULE_UNKNOWN LP_UNLOCK_SCHEDULE_UNKNOWN None None None)
           as (d & H1 & H2 & H3 & H4); [by right; left|]; exists d; rewrite H3, H4; by split_and!).
  set (n := u - _). destruct (n <=? LpUnlockThresholds.reject_within_slots th).
  { destruct (reject_ok schedule bt LpUnlockReason.LP_UNLOCK_IMMINENT LP_UNLOCK_IMMINENT (Some n) (Some n)
      (Some (LpUnlockThresholds.reject_within_slots th))) as (d & H1 & H2 & H3 & H4); [by left|].
    exists d. rewrite H3, H4, bool_decide_eq_false_2 by done. by split_and!. }
  destruct (n <=? LpUnlockThresholds.downweight_within_slots th).
  { edestruct decide_ok as [H1 H2]; [|eexists; split_and!; [exact H1|exact H2|done..]].
    constructor; cbn; try done. by apply open_unit. }
  destruct (pass_ok schedule bt (Some n)) as (d & H1 & H2 & H3 & H4). exists d. rewrite H3, H4. by split_and!.
Qed.

(** Raising a horizon. *)
Record wider (b a : LpUnlockThresholds.t) : Prop := mk_wider {
  w_reject : LpUnlockThresholds.reject_within_slots a ≤ LpUnlockThresholds.reject_within_slots b;
  w_down : LpUnlockThresholds.downweight_within_slots a ≤ LpUnlockThresholds.downweight_within_slots b;
  w_exit : LpUnlockThresholds.exit_raise_within_slots a ≤ LpUnlockThresholds.exit_raise_within_slots b
}.

Lemma band_mono a b schedule slot slot' : wider b a → slot ≤ slot' →
  Verdict.severity (band a (view schedule slot)) ≤ Verdict.severity (band b (view schedule slot')).
Proof.
  intros [H1 H2 _] Hs. unfold view.
  destruct (LpUnlockSchedule.status schedule), (LpUnlockSchedule.unlock_slot schedule) as [u|]; cbn; try done.
  repeat case_match; bools; cbn; lia.
Qed.

(** The schedule as decoded at a later slot. *)
Definition at_slot (schedule : LpUnlockSchedule.t) (slot : Z) : LpUnlockSchedule.t :=
  LpUnlockSchedule.mk (LpUnlockSchedule.mint schedule) slot (LpUnlockSchedule.status schedule)
    (LpUnlockSchedule.unlock_slot schedule).

Definition verdict_of (r : result LpUnlockDecision.t) : option Verdict.t :=
  match r with Ok d => Some (verdict d) | Raise _ => None end.

(** The gate is a function of the distance to the unlock, and only
    tightens.  On any thresholds it returns a well-formed decision: a burned
    lock passes, an unreadable one is rejected with its own flag, a dated one
    is rejected, down-weighted or passed by the band its distance falls in;
    as the decision slot advances, or a horizon is widened, the verdict of the
    same schedule never becomes milder; and with equal horizons the gate
    would reject at a slot exactly the dated or unreadable locks for which the
    watcher raises the exit flag at that slot. *)
Theorem lp_gate_bands_tighten th schedule bt : thresholds_wf th →
  (∃ d, evaluate th schedule bt = Ok d ∧ decision_wf d ∧
     verdict d = band th (view schedule (LpUnlockSchedule.as_of_event_slot schedule)) ∧
     (LpUnlockDecision.refused_unknown d = true ↔ view schedule (LpUnlockSchedule.as_of_event_slot schedule) = Unreadable)) ∧
  (∀ th' slot slot' v v', thresholds_wf th' → wider th' th → slot ≤ slot' →
     verdict_of (evaluate th (at_slot schedule slot) bt) = Some v →
     verdict_of (evaluate th' (at_slot schedule slot') bt) = Some v' → Verdict.severity v ≤ Verdict.severity v') ∧
  (∀ slot, 0 ≤ slot → LpUnlockThresholds.exit_raise_within_slots th = LpUnlockThresholds.reject_within_slots th →
     ∃ r s t, classify_open_position_unlock th schedule (IInt slot) = Ok (r, s, t) ∧
       (should_raise r = true ↔ verdict_of (evaluate th (at_slot schedule slot) bt) = Some Verdict.REJECT)).
Proof.
  intros Hw. split_and!.
  - destruct (evaluate_ok th schedule bt Hw) as (d & H1 & H2 & H3 & _ & H4). by exists d.
  - intros th' slot slot' v v' Hw' Hwide Hs.
    destruct (evaluate_ok th (at_slot schedule slot) bt Hw) as (d & -> & _ & Hd & _).
    destruct (evaluate_ok th' (at_slot schedule slot') bt Hw') as (d' & -> & _ & Hd' & _).
    cbn [verdict_of]. rewrite Hd, Hd'. intros [= <-] [= <-]. by apply (band_mono th th' schedule).
  - intros slot Hs Heq. destruct (evaluate_ok th (at_slot schedule slot) bt Hw) as (d & -> & _ & Hd & _).
    cbn [verdict_of]. rewrite Hd. unfold classify_open_position_unlock, view. cbn [at_slot LpUnlockSchedule.status
      LpUnlockSchedule.unlock_slot LpUnlockSchedule.as_of_event_slot].
    rewrite (proj2 (Z.ltb_ge slot 0)) by done. cbn [mbind result_bind].
    destruct (LpUnlockSchedule.status schedule), (LpUnlockSchedule.unlock_slot schedule) as [u|];
      try (do 3 eexists; by split). cbn [band]. rewrite <- Heq.
    destruct (_ <=? _); [by do 3 eexists|]. do 3 eexists. split; [done|]. by destruct (_ <=? _).
Qed.

Definition locked_until (u : Z) : LpUnlockSchedule.t := LpUnlockSchedule.mk "M" 1000 LpLockStatus.TIME_LOCKED (Some u).
Lemma default_thresholds_wf : thresholds_wf LpUnlockThresholds.default.
Proof. by constructor. Qed.

Lemma lp_gate_bands_witness :
  verdict_of (evaluate LpUnlockThresholds.default (at_slot (locked_until 700000) 0) 5) = Some Verdict.PASS ∧
  verdict_of (evaluate LpUnlockThresholds.default (at_slot (locked_until 700000) 600000) 5) = Some Verdict.REJECT ∧
  ∃ r s t, classify_open_position_unlock LpUnlockThresholds.default (locked_until 700000) (IInt 600000) = Ok (r, s, t) ∧
    should_raise r = true.
Proof.
  destruct (lp_gate_bands_tighten LpUnlockThresholds.default (locked_until 700000) 5 default_thresholds_wf) as (_ & _ & H).
  destruct (H 600000 ltac:(lia) eq_refl) as (r & s & t & E & Hr).
  split_and!; [by vm_compute|by vm_compute|]. exists r, s, t. split; [exact E|]. apply Hr. by vm_compute.
Defined.

(** The watcher on a position of a named mint: the flag it leaves. *)
Lemma watch_ok _clock th ttl schedule slot s r n t :
  LpUnlockSchedule.mint schedule ≠ "" → 0 ≤ slot →
  classify_open_position_unlock th schedule (IInt slot) = Ok (r, n, t) →
  ∃ d s', watch th _clock true ttl schedule (IInt slot) s = (Ok d, s') ∧ x_raise_flag d = should_raise r ∧
    x_flag_set d = should_raise r ∧ _positions s' = _positions s ∧
    _reads s' = (if should_raise r then S (_reads s) else _reads s) ∧
    (∀ m, expiry_of Lp s' m =
       (if should_raise r && bool_decide (m = LpUnlockSchedule.mint schedule)
        then Some (_clock (_reads s) + ttl * 1000) else expiry_of Lp s m)) ∧
    (∀ fl m, fl ≠ Lp → expiry_of fl s' m = expiry_of fl s m).
Proof.
  intros Hm Hs Hc. unfold watch. rewrite Hc. mstep.
  unfold set_lp_unlock_approaching_flag, ttl_set, _now.
  destruct (should_raise r) eqn:E; mstep; [|eexists _, s; by split_and!].
  rewrite bool_decide_eq_false_2 by (by destruct r). rewrite (proj2 (Z.ltb_ge slot 0)) by done. mstep.
  do 2 eexists. split_and!; try done; cbn; [|by intros []].
  intros m. case_bool_decide as Hmm; [subst; by rewrite lookup_insert_eq|by rewrite lookup_insert_ne].
Qed.

(** *** Several gates on one size *)

(** Whatever the gate returns, its class's constructor returned. *)
Lemma evaluate_built th schedule bt d : evaluate th schedule bt = Ok d → built (Any d).
Proof.
  unfold evaluate, _pass, _reject, decide, LpUnlockDecision.new.
  repeat case_match; intros E; by eapply built_new.
Qed.

(** The default gate on an approaching and on an imminent unlock. *)
Definition decided (u : Z) : any_decision :=
  match evaluate LpUnlockThresholds.default (locked_until u) 5 with
  | Ok d => Any d
  | Raise _ => Any (LpUnlockDecision.mk "" Verdict.REJECT d0 [] None None 0 0 None)
  end.
Definition near : any_decision := decided 300000.
Definition imminent : any_decision := decided 2000.
Definition far : any_decision := decided 9000000.

Lemma gates_only_take_away_witness :
  any_verdict near = Verdict.DOWN_WEIGHT ∧ any_verdict imminent = Verdict.REJECT ∧
  (∃ out, apply_all [near; far] 1000 = Ok out ∧ 0 ≤ out ≤ 1000) ∧
  apply_all [near; imminent] 1000 = Ok 0 ∧ apply_all [far; far] 1000 = Ok 1000 ∧
  pre_gates [Ok near; Ok imminent; Ok far] (λ n : nat, (Ok true, S n)) 0%nat = (Ok false, 0%nat) ∧
  pre_gates [Ok near; Ok far] (λ n : nat, (Ok true, S n)) 0%nat = (Ok true, 1%nat).
Proof.
  assert (built near ∧ built imminent ∧ built far) as (Hn & Hi & Hf).
  { unfold near, imminent, far. split_and!; unfold decided;
      (match goal with |- context [evaluate ?th ?l ?bt] => destruct (evaluate th l bt) eqn:E end;
       [by eapply evaluate_built|by vm_compute in E]). }
  assert (∀ a b, built a → built b → Forall built [a; b]) as Hl
    by (intros a b Ha Hb; apply Forall_cons_2; [exact Ha|]; apply Forall_cons_2; [exact Hb|by apply Forall_nil_2]).
  destruct (gates_only_take_away [near; far] 1000 (Hl _ _ Hn Hf) ltac:(lia)) as ((out & E & Ho & _) & _ & Hg).
  destruct (gates_only_take_away [near; imminent] 1000 (Hl _ _ Hn Hi) ltac:(lia)) as ((out' & E' & _ & Hr & _) & _).
  destruct (gates_only_take_away [far; far] 1000 (Hl _ _ Hf Hf) ltac:(lia)) as ((out'' & E'' & _ & _ & Hp) & _).
  destruct (gates_only_take_away [near] 1000 ltac:(apply Forall_cons_2; [exact Hn|by apply Forall_nil_2]) ltac:(lia)) as (_ & _ & Hq).
  split; [reflexivity|]. split; [reflexivity|]. split; [exists out; split; [exact E|exact Ho]|].
  split; [rewrite E', Hr; [reflexivity|by right; left]|].
  split; [rewrite E'', Hp; [reflexivity|lia|repeat (apply Forall_cons_2; [reflexivity|]); by apply Forall_nil_2]|].
  split.
  - apply (Hq nat (λ n, (Ok true, S n)) 0%nat [Ok far]); [|reflexivity].
    apply Forall_cons_2; [discriminate|by apply Forall_nil_2].
  - apply (Hg nat (λ n, (Ok true, S n)) 0%nat []).
    repeat (apply Forall_cons_2; [discriminate|]). by apply Forall_nil_2.
Defined.
