(* ===== verification/DeployerGates.v ===== *)
(** * The deployer gates

    [aats/risk/deployer_reputation_gate.py] (prior rugs of the deploying
    wallet) and [aats/risk/dev_funding_age_gate.py] (how long before the launch
    the wallet was funded): thresholds, decisions, the three bands of each gate
    and the pre-gates.  Telemetry is left out. *)

From S2P Require Import Prelude Decimal DecimalOrder RiskContracts SurvivableStop SafetyGate Haircut.

(** ** Deployer reputation *)

Module Reputation.

Module Thresholds.
Record t : Type := mk { downweight_min_prior_rugs : Z; reject_min_prior_rugs : Z; downweight_multiplier : dec }.
Definition default : t := mk 1 2 (mkdec 25 (-2)).
Definition check_count (name : string) (v : int_arg) : result Z :=
  match v with
  | IInt z => if z <? 1 then Raise (ValueError (name +:+ " must be >= 1")) else Ok z
  | _ => Raise (TypeError (name +:+ " must be int"))
  end.
Definition new (downweight reject : int_arg) (multiplier : ratio_in) : result t :=
  multiplier ← ratio_value multiplier "downweight_multiplier";
  downweight ← check_count "downweight_min_prior_rugs" downweight;
  reject ← check_count "reject_min_prior_rugs" reject;
  guard_ok (downweight <=? reject) (ValueError "reject_min_prior_rugs must be >= downweight_min_prior_rugs");;
  guard_ok (in_0_1_open multiplier) (ValueError "downweight_multiplier must be a fraction in [0, 1) - de-risk only");;
  Ok (mk downweight reject multiplier).
Definition from_env (downweight reject : option (option Z)) (multiplier : option (option dec)) : result t :=
  downweight ← env_int downweight (downweight_min_prior_rugs default);
  reject ← env_int reject (reject_min_prior_rugs default);
  multiplier ← env_dec multiplier (downweight_multiplier default);
  new (IInt downweight) (IInt reject) (RDec multiplier).
End Thresholds.

(** [DeployerReputationTallyLike] *)
Record Tally : Type := mk_tally {
  creator_wallet : string; deploy_template_fingerprint : option string; as_of_event_slot : Z;
  prior_launches : Z; prior_rugs : Z
}.

Module Decision.
Record t : Type := mk {
  wallet : string; fingerprint : option string; verdict : Verdict.t; conviction_multiplier : dec;
  reason_codes : list string; launches : Z; rugs : Z; slot : Z; event_block_time_ms : Z;
  red_flag_hit : option RedFlagHit
}.
#[global] Instance decision : Haircut.Decision t := {|
  Haircut.verdict := verdict; Haircut.conviction_multiplier := conviction_multiplier;
  Haircut.red_flag_hit := red_flag_hit; veto_flags := Some [SERIAL_DEPLOYER_RUGGED] |}.
Definition new (d : t) : result t := decision_new "DeployerReputationDecision" d.
Definition apply (d : t) (capped_size : int_arg) : result Z := Haircut.apply d capped_size.
End Decision.

Section Gate.
Context (thresholds : Thresholds.t).

(** The three bands: verdict, multiplier, reason codes, flag. *)
Definition bands (prior_rugs : Z) : Verdict.t * dec * list string * option RedFlagHit :=
  if Thresholds.reject_min_prior_rugs thresholds <=? prior_rugs then
    (Verdict.REJECT, d0, ["serial_deployer_rugged"],
     Some (mk_hit SERIAL_DEPLOYER_RUGGED (Some prior_rugs) (Some (Thresholds.reject_min_prior_rugs thresholds))))
  else if Thresholds.downweight_min_prior_rugs thresholds <=? prior_rugs then
    (Verdict.DOWN_WEIGHT, Thresholds.downweight_multiplier thresholds, ["prior_rug_downweight"], None)
  else (Verdict.PASS, dec_of_Z 1, [], None).

Definition evaluate (tally : Tally) (event_block_time_ms : Z) : result Decision.t :=
  let launches := prior_launches tally in
  let rugs := prior_rugs tally in
  if (launches <? 0) || (rugs <? 0) || (launches <? rugs)
  then Raise (ValueError "DeployerReputationGate: malformed tally")
  else
    let '(v, m, reasons, hit) := bands rugs in
    Decision.new (Decision.mk (creator_wallet tally) (deploy_template_fingerprint tally) v m reasons launches rugs
      (as_of_event_slot tally) event_block_time_ms hit).

Definition evaluate_with_deployer_reputation {S N} (tally : Tally) (bt : Z) (next_step : M S N) (next_passed : N → bool)
    : M S (PreGate.t Decision.t N) :=
  evaluate_with (evaluate tally bt) next_step next_passed.
End Gate.
End Reputation.

(** ** Funding age *)

Module FundingAge.

Module Thresholds.
Record t : Type := mk { reject_max_age_seconds : Z; downweight_max_age_seconds : Z; downweight_multiplier : dec }.
Definition default : t := mk 120 1800 (mkdec 25 (-2)).
Definition check_age (name : string) (v : int_arg) : result Z :=
  match v with
  | IInt z => if z <? 0 then Raise (ValueError (name +:+ " must be >= 0")) else Ok z
  | _ => Raise (TypeError (name +:+ " must be int"))
  end.
Definition new (reject downweight : int_arg) (multiplier : ratio_in) : result t :=
  multiplier ← ratio_value multiplier "downweight_multiplier";
  reject ← check_age "reject_max_age_seconds" reject;
  downweight ← check_age "downweight_max_age_seconds" downweight;
  guard_ok (reject <=? downweight) (ValueError "downweight_max_age_seconds must be >= reject_max_age_seconds");;
  guard_ok (in_0_1_open multiplier) (ValueError "downweight_multiplier must be a fraction in [0, 1) - de-risk only");;
  Ok (mk reject downweight multiplier).
Definition from_env (reject downweight : option (option Z)) (multiplier : option (option dec)) : result t :=
  reject ← env_int reject (reject_max_age_seconds default);
  downweight ← env_int downweight (downweight_max_age_seconds default);
  multiplier ← env_dec multiplier (downweight_multiplier default);
  new (IInt reject) (IInt downweight) (RDec multiplier).
End Thresholds.

(** [DevFundingAgeResultLike]; [found] is [_is_found]. *)
Record Result : Type := mk_result {
  creator_wallet : string; deploy_event_slot : Z; deploy_block_time_ms : Z; found : bool;
  funding_age_slots : option Z; funding_age_ms : option Z
}.

Module Decision.
Record t : Type := mk {
  wallet : string; verdict : Verdict.t; conviction_multiplier : dec; reason_codes : list string;
  age_slots : option Z; age_ms : option Z; slot : Z; event_block_time_ms : Z; red_flag_hit : option RedFlagHit
}.
#[global] Instance decision : Haircut.Decision t := {|
  Haircut.verdict := verdict; Haircut.conviction_multiplier := conviction_multiplier;
  Haircut.red_flag_hit := red_flag_hit;
  veto_flags := Some [DEV_FUNDED_JUST_BEFORE_LAUNCH; DEV_FUNDING_UNDECODABLE] |}.
Definition new (d : t) : result t := decision_new "DevFundingAgeDecision" d.
Definition refused_undecodable (d : t) : bool :=
  rejected d && match red_flag_hit d with Some hit => bool_decide (flag hit = DEV_FUNDING_UNDECODABLE) | None => false end.
Definition apply (d : t) (capped_size : int_arg) : result Z := Haircut.apply d capped_size.
End Decision.

Section Gate.
Context (thresholds : Thresholds.t).

Definition bands (funding_age_ms : Z) : Verdict.t * dec * list string * option RedFlagHit :=
  let age_seconds := funding_age_ms / 1000 in
  if funding_age_ms <=? Thresholds.reject_max_age_seconds thresholds * 1000 then
    (Verdict.REJECT, d0, ["dev_funded_just_before_launch"],
     Some (mk_hit DEV_FUNDED_JUST_BEFORE_LAUNCH (Some age_seconds) (Some (Thresholds.reject_max_age_seconds thresholds))))
  else if funding_age_ms <=? Thresholds.downweight_max_age_seconds thresholds * 1000 then
    (Verdict.DOWN_WEIGHT, Thresholds.downweight_multiplier thresholds, ["fresh_funding_downweight"], None)
  else (Verdict.PASS, dec_of_Z 1, [], None).

Definition evaluate (r : Result) (event_block_time_ms : option Z) : result Decision.t :=
  let block_time_ms := default (deploy_block_time_ms r) event_block_time_ms in
  if negb (found r) then
    Decision.new (Decision.mk (creator_wallet r) Verdict.REJECT d0 ["dev_funding_undecodable"] None None
      (deploy_event_slot r) block_time_ms (Some (mk_hit DEV_FUNDING_UNDECODABLE None None)))
  else
    match funding_age_ms r with
    | None => Raise (ValueError "DevFundingAgeGate: malformed FOUND result")
    | Some age =>
        if age <? 0 then Raise (ValueError "DevFundingAgeGate: malformed FOUND result")
        else
          let '(v, m, reasons, hit) := bands age in
          Decision.new (Decision.mk (creator_wallet r) v m reasons (funding_age_slots r) (Some age)
            (deploy_event_slot r) block_time_ms hit)
    end.

Definition evaluate_with_dev_funding_age {S N} (r : Result) (bt : option Z) (next_step : M S N) (next_passed : N → bool)
    : M S (PreGate.t Decision.t N) :=
  evaluate_with (evaluate r bt) next_step next_passed.
End Gate.
End FundingAge.

(** ** Both gates decide by their one number *)

Definition rep_wf (th : Reputation.Thresholds.t) : Prop :=
  1 ≤ Reputation.Thresholds.downweight_min_prior_rugs th ≤ Reputation.Thresholds.reject_min_prior_rugs th ∧
  in_0_1_open (Reputation.Thresholds.downweight_multiplier th) = true.
Definition age_wf (th : FundingAge.Thresholds.t) : Prop :=
  0 ≤ FundingAge.Thresholds.reject_max_age_seconds th ≤ FundingAge.Thresholds.downweight_max_age_seconds th ∧
  in_0_1_open (FundingAge.Thresholds.downweight_multiplier th) = true.

Definition verdict_in {D} `{Decision D} (r : result D) : option Verdict.t :=
  match r with Ok d => Some (verdict d) | Raise _ => None end.

Definition rep_band (th : Reputation.Thresholds.t) (rugs : Z) : Verdict.t := (Reputation.bands th rugs).1.1.1.
Definition age_band (th : FundingAge.Thresholds.t) (age : Z) : Verdict.t := (FundingAge.bands th age).1.1.1.

Lemma rep_ok th tally bt : rep_wf th → 0 ≤ Reputation.prior_rugs tally ≤ Reputation.prior_launches tally →
  ∃ d, Reputation.evaluate th tally bt = Ok d ∧ decision_wf d ∧ verdict d = rep_band th (Reputation.prior_rugs tally).
Proof.
  intros [Ho Hm] Ht. unfold Reputation.evaluate, rep_band. rewrite !(proj2 (Z.ltb_ge _ _)) by lia. cbn [orb].
  unfold Reputation.bands, Reputation.Decision.new.
  destruct (_ <=? _); [|destruct (_ <=? _)];
    (edestruct (decision_new_ok (D := Reputation.Decision.t)) as [H1 H2]; [|eexists; split_and!; [exact H1|exact H2|done]]);
    constructor; cbn; try done; [|by apply open_unit]. intros ? [= <-]. split; [done|by left].
Qed.

Lemma age_ok th r bt age : age_wf th → FundingAge.found r = true → FundingAge.funding_age_ms r = Some age → 0 ≤ age →
  ∃ d, FundingAge.evaluate th r bt = Ok d ∧ decision_wf d ∧ verdict d = age_band th age ∧
    FundingAge.Decision.refused_undecodable d = false.
Proof.
  intros [Ho Hm] Hf Ha H0. unfold FundingAge.evaluate, age_band. rewrite Hf, Ha, (proj2 (Z.ltb_ge _ _)) by lia. cbn [negb].
  unfold FundingAge.bands, FundingAge.Decision.new.
  destruct (_ <=? _); [|destruct (_ <=? _)];
    (edestruct (decision_new_ok (D := FundingAge.Decision.t)) as [H1 H2]; [|eexists; split_and!; [exact H1|exact H2|done|done]]);
    constructor; cbn; try done; [|by apply open_unit]. intros ? [= <-]. split; [done|by left].
Qed.

(** Stricter knobs. *)
Definition rep_tighter (b a : Reputation.Thresholds.t) : Prop :=
  Reputation.Thresholds.reject_min_prior_rugs b ≤ Reputation.Thresholds.reject_min_prior_rugs a ∧
  Reputation.Thresholds.downweight_min_prior_rugs b ≤ Reputation.Thresholds.downweight_min_prior_rugs a.
Definition age_tighter (b a : FundingAge.Thresholds.t) : Prop :=
  FundingAge.Thresholds.reject_max_age_seconds a ≤ FundingAge.Thresholds.reject_max_age_seconds b ∧
  FundingAge.Thresholds.downweight_max_age_seconds a ≤ FundingAge.Thresholds.downweight_max_age_seconds b.

(** Both deployer gates refuse what they cannot read and are monotone.
    The reputation gate raises on an impossible tally and otherwise returns a
    well-formed decision in the band of the number of prior rugs; the funding
    gate rejects an undecodable history with a flag of its own, raises on a
    found history without a valid age, and otherwise decides by the band of
    the age.  More rugs, a younger funding, or stricter knobs never give a
    milder verdict. *)
Theorem deployer_gates_monotone th ath : rep_wf th → age_wf ath →
  (∀ tally bt, let rugs := Reputation.prior_rugs tally in
     if decide (0 ≤ rugs ≤ Reputation.prior_launches tally)
     then ∃ d, Reputation.evaluate th tally bt = Ok d ∧ decision_wf d ∧ verdict d = rep_band th rugs
     else is_ok (Reputation.evaluate th tally bt) = false) ∧
  (∀ r bt, match FundingAge.found r, FundingAge.funding_age_ms r with
     | false, _ => ∃ d, FundingAge.evaluate ath r bt = Ok d ∧ decision_wf d ∧ verdict d = Verdict.REJECT ∧
                        FundingAge.Decision.refused_undecodable d = true
     | true, Some age =>
         if decide (0 ≤ age)
         then ∃ d, FundingAge.evaluate ath r bt = Ok d ∧ decision_wf d ∧ verdict d = age_band ath age ∧
                   FundingAge.Decision.refused_undecodable d = false
         else is_ok (FundingAge.evaluate ath r bt) = false
     | true, None => is_ok (FundingAge.evaluate ath r bt) = false
     end) ∧
  (∀ th' n n', rep_tighter th' th → n ≤ n' →
     Verdict.severity (rep_band th n) ≤ Verdict.severity (rep_band th' n')) ∧
  (∀ ath' age age', age_tighter ath' ath → age' ≤ age →
     Verdict.severity (age_band ath age) ≤ Verdict.severity (age_band ath' age')).
Proof.
  intros Hr Ha. split_and!.
  - intros tally bt. cbv zeta. destruct (decide _) as [H|H]; [by apply rep_ok|].
    unfold Reputation.evaluate. destruct (_ || _) eqn:E; [done|]. bools. lia.
  - intros r bt. destruct (FundingAge.found r) eqn:Hf.
    + destruct (FundingAge.funding_age_ms r) as [age|] eqn:Hage.
      * destruct (decide _) as [H|H]; [by apply age_ok|]. unfold FundingAge.evaluate. rewrite Hf, Hage. cbn [negb].
        by rewrite (proj2 (Z.ltb_lt _ _)) by lia.
      * unfold FundingAge.evaluate. by rewrite Hf, Hage.
    + unfold FundingAge.evaluate, FundingAge.Decision.new. rewrite Hf. cbn [negb].
      edestruct (decision_new_ok (D := FundingAge.Decision.t)) as [H1 H2]; [|eexists; split_and!; [exact H1|exact H2|done|done]].
      constructor; cbn; try done. intros ? [= <-]. split; [done|by right; left].
  - intros th' n n' [H1 H2] Hn. unfold rep_band, Reputation.bands. repeat case_match; bools; cbn in *; simplify_eq; lia.
  - intros ath' n n' [H1 H2] Hn. unfold age_band, FundingAge.bands. repeat case_match; bools; cbn in *; simplify_eq; lia.
Qed.

Lemma deployer_gates_witness :
  rep_wf Reputation.Thresholds.default ∧ age_wf FundingAge.Thresholds.default ∧
  ∃ d, Reputation.evaluate Reputation.Thresholds.default (Reputation.mk_tally "W" None 7 5 3) 9 = Ok d ∧
    verdict d = Verdict.REJECT.
Proof.
  assert (rep_wf Reputation.Thresholds.default) as Hr by (split; [cbn; lia|done]).
  assert (age_wf FundingAge.Thresholds.default) as Ha by (split; [cbn; lia|done]).
  split_and!; [done|done|].
  pose proof (proj1 (deployer_gates_monotone _ _ Hr Ha) (Reputation.mk_tally "W" None 7 5 3) 9) as H. cbv zeta in H.
  destruct (decide _) as [_|Hn]; [|cbn in Hn; lia]. destruct H as (d & E & _ & Hd). exists d. split; [exact E|].
  rewrite Hd. reflexivity.
Defined.
