(* ===== verification/AntiFomo.v ===== *)
(** * The anti-FOMO filter

    [aats/risk/anti_fomo.py]: the run-up of a candidate's price over its
    window, the mainstream mentions, and the conviction multiplier they leave.
    Telemetry and log calls are left out. *)

From Stdlib Require Import Ascii.
From S2P Require Import Prelude Decimal DecimalOrder RiskContracts SurvivableStop SafetyGate PyText Haircut.

Module MentionTier.
Inductive t : Type := MAINSTREAM_PRESS | MAJOR_CEX_LISTING | MINOR_CEX_LISTING | MAINSTREAM_INFLUENCER.
#[global] Instance eq_dec : EqDecision t.
Proof. solve_decision. Defined.
Definition value (m : t) : string :=
  match m with
  | MAINSTREAM_PRESS => "mainstream_press" | MAJOR_CEX_LISTING => "major_cex_listing"
  | MINOR_CEX_LISTING => "minor_cex_listing" | MAINSTREAM_INFLUENCER => "mainstream_influencer"
  end.
Definition members : list t := [MAINSTREAM_PRESS; MAJOR_CEX_LISTING; MINOR_CEX_LISTING; MAINSTREAM_INFLUENCER].
End MentionTier.
Import MentionTier (MAINSTREAM_PRESS, MAJOR_CEX_LISTING, MINOR_CEX_LISTING, MAINSTREAM_INFLUENCER).

Definition _HARD_MENTION_TIERS : list MentionTier.t := [MAINSTREAM_PRESS; MAJOR_CEX_LISTING].
Definition _SOFT_MENTION_TIERS : list MentionTier.t := [MINOR_CEX_LISTING; MAINSTREAM_INFLUENCER].

Definition parse_mention_tier (raw : string) : option MentionTier.t :=
  let s := lower (strip raw) in
  List.find (λ m, bool_decide (MentionTier.value m = s)) MentionTier.members.

Inductive FomoReason : Type :=
| FOMO_ALREADY_PUMPED | FOMO_MAINSTREAM_MENTION | FOMO_INPUT_STALE | FOMO_PUMP_DOWNWEIGHT | FOMO_SOFT_MENTION
| NO_PUMP_HISTORY.
#[export] Instance FomoReason_eq_dec : EqDecision FomoReason.
Proof. solve_decision. Defined.
Definition reason_value (r : FomoReason) : string :=
  match r with
  | FOMO_ALREADY_PUMPED => "fomo_already_pumped" | FOMO_MAINSTREAM_MENTION => "fomo_mainstream_mention"
  | FOMO_INPUT_STALE => "input_stale" | FOMO_PUMP_DOWNWEIGHT => "fomo_pump_downweight"
  | FOMO_SOFT_MENTION => "fomo_soft_mention" | NO_PUMP_HISTORY => "no_pump_history"
  end.
Definition _EXCLUSION_REASONS : list FomoReason := [FOMO_ALREADY_PUMPED; FOMO_MAINSTREAM_MENTION; FOMO_INPUT_STALE].
Definition _DOWNWEIGHT_REASONS : list FomoReason := [FOMO_PUMP_DOWNWEIGHT; FOMO_SOFT_MENTION].

Module Thresholds.
Record t : Type := mk {
  hard_pump_ratio : dec; warm_pump_ratio : dec; max_warm_pump_haircut : dec; soft_mention_multiplier : dec;
  max_staleness_ms : Z; min_price_samples : Z
}.
Definition default : t := mk (mkdec 40 (-1)) (mkdec 20 (-1)) (mkdec 50 (-2)) (mkdec 50 (-2)) 60000 2.

Definition check_int (name : string) (v : int_arg) (least : Z) (msg : string) : result Z :=
  match v with
  | IInt z => if z <? least then Raise (ValueError (name +:+ msg)) else Ok z
  | _ => Raise (TypeError (name +:+ " must be int"))
  end.
Definition new (hard warm haircut soft : ratio_in) (staleness samples : int_arg) : result t :=
  hard ← ratio_value hard "AntiFomoThresholds.hard_pump_ratio";
  warm ← ratio_value warm "AntiFomoThresholds.warm_pump_ratio";
  haircut ← ratio_value haircut "AntiFomoThresholds.max_warm_pump_haircut";
  soft ← ratio_value soft "AntiFomoThresholds.soft_mention_multiplier";
  guard_ok (dleb (dec_of_Z 1) warm) (ValueError "warm_pump_ratio must be >= 1.0 (a pump is a non-decrease)");;
  guard_ok (dleb warm hard) (ValueError "hard_pump_ratio must be >= warm_pump_ratio");;
  guard_ok (in_0_1 haircut) (ValueError "max_warm_pump_haircut must be a fraction in [0, 1]");;
  guard_ok (in_0_1 soft) (ValueError "soft_mention_multiplier must be a fraction in [0, 1]");;
  staleness ← check_int "max_staleness_ms" staleness 0 " must be non-negative";
  samples ← check_int "min_price_samples" samples 2 " must be >= 2 (need an anchor and a current sample)";
  Ok (mk hard warm haircut soft staleness samples).
Definition from_env (hard warm haircut soft : option (option dec)) (staleness samples : option (option Z)) : result t :=
  hard ← env_dec hard (hard_pump_ratio default);
  warm ← env_dec warm (warm_pump_ratio default);
  haircut ← env_dec haircut (max_warm_pump_haircut default);
  soft ← env_dec soft (soft_mention_multiplier default);
  staleness ← env_int staleness (max_staleness_ms default);
  samples ← env_int samples (min_price_samples default);
  new (RDec hard) (RDec warm) (RDec haircut) (RDec soft) (IInt staleness) (IInt samples).
End Thresholds.

Module Inputs.
Record t : Type := mk {
  mint : string; event_slot : Z; event_block_time_ms : Z; data_staleness_ms : Z;
  price_history_lamports : list Z; mention_tiers : list string
}.
Definition plain_int (name : string) (v : int_arg) : result Z :=
  match v with IInt z => Ok z | _ => Raise (TypeError ("AntiFomoInputs." +:+ name +:+ " must be int")) end.
Fixpoint prices (history : list int_arg) : result (list Z) :=
  match history with
  | [] => Ok []
  | IInt px :: history =>
      if px <? 0 then Raise (ValueError "price_history_lamports must be non-negative lamports")
      else history ← prices history; Ok (px :: history)
  | _ :: _ => Raise (TypeError "price_history_lamports must be int lamports (money rule)")
  end.
Definition new (mint : string) (slot bt : int_arg) (staleness : Z) (history : list int_arg) (tiers : list string) : result t :=
  slot ← plain_int "event_slot" slot;
  bt ← plain_int "event_block_time_ms" bt;
  guard_ok (0 <? bt) (ValueError "AntiFomoInputs.event_block_time_ms must be > 0 (real on-chain time)");;
  guard_ok (0 <=? staleness) (ValueError "AntiFomoInputs.data_staleness_ms must be non-negative");;
  history ← prices history;
  Ok (mk mint slot bt staleness history tiers).
End Inputs.

Record FomoReasonHit : Type := mk_fomo { reason : FomoReason; measured : option dec; threshold : option dec; detail : string }.
Definition is_exclusion (h : FomoReasonHit) : bool := bool_decide (reason h ∈ _EXCLUSION_REASONS).
Definition is_downweight (h : FomoReasonHit) : bool := bool_decide (reason h ∈ _DOWNWEIGHT_REASONS).

Module FomoDecision.
Record t : Type := mk {
  mint : string; verdict : Verdict.t; conviction_multiplier : dec; reasons : list FomoReasonHit;
  event_slot : Z; event_block_time_ms : Z
}.
#[global] Instance decision : Decision t := {|
  Haircut.verdict := verdict; Haircut.conviction_multiplier := conviction_multiplier;
  Haircut.red_flag_hit _ := None; veto_flags := None |}.
Definition new (d : t) : result t := decision_new "FomoDecision" d.
Definition reason_codes (d : t) : list string := (λ h, reason_value (reason h)) <$> reasons d.
Definition exclusion_codes (d : t) : list string := (λ h, reason_value (reason h)) <$> filter is_exclusion (reasons d).
Definition apply (d : t) (capped_size : int_arg) : result Z := Haircut.apply d capped_size.
End FomoDecision.

Section Filter.
Context (thresholds : Thresholds.t).
Abbreviation hard := (Thresholds.hard_pump_ratio thresholds).
Abbreviation warm := (Thresholds.warm_pump_ratio thresholds).
Abbreviation max_cut := (Thresholds.max_warm_pump_haircut thresholds).

(** [min(history)] *)
Definition window_min (history : list Z) : Z := foldl Z.min (List.hd 0 history) history.

Definition _eval_pump (i : Inputs.t) : result (list FomoReasonHit) :=
  let history := Inputs.price_history_lamports i in
  let unknown := [mk_fomo NO_PUMP_HISTORY None None ""] in
  if Z.of_nat (length history) <? Thresholds.min_price_samples thresholds then Ok unknown
  else
    let anchor := window_min history in
    let current := List.last history 0 in
    if anchor <=? 0 then Ok unknown
    else
      ratio ← ddiv (dec_of_Z current) (dec_of_Z anchor);
      Ok (if dleb hard ratio then [mk_fomo FOMO_ALREADY_PUMPED (Some ratio) (Some hard) ""]
          else if dleb warm ratio then [mk_fomo FOMO_PUMP_DOWNWEIGHT (Some ratio) (Some warm) ""]
          else []).

Fixpoint eval_mentions (seen : list MentionTier.t) (tiers : list string) : list FomoReasonHit :=
  match tiers with
  | [] => []
  | raw :: tiers =>
      match parse_mention_tier raw with
      | None => eval_mentions seen tiers
      | Some tier =>
          if bool_decide (tier ∈ seen) then eval_mentions seen tiers
          else
            let rest := eval_mentions (tier :: seen) tiers in
            if bool_decide (tier ∈ _HARD_MENTION_TIERS)
            then mk_fomo FOMO_MAINSTREAM_MENTION None None (MentionTier.value tier) :: rest
            else if bool_decide (tier ∈ _SOFT_MENTION_TIERS)
            then mk_fomo FOMO_SOFT_MENTION None None (MentionTier.value tier) :: rest
            else rest
      end
  end.
Definition _eval_mentions (i : Inputs.t) : list FomoReasonHit := eval_mentions [] (Inputs.mention_tiers i).

Definition _warm_pump_haircut (ratio : dec) : result dec :=
  let span := dsub hard warm in
  if dleb span d0 then Ok max_cut
  else
    let clamped := if dltb ratio warm then warm else ratio in
    let clamped := if dltb hard clamped then hard else clamped in
    frac ← ddiv (dsub clamped warm) span;
    let haircut := dmul frac max_cut in
    Ok (if dltb haircut d0 then d0 else if dltb max_cut haircut then max_cut else haircut).

Fixpoint multiply (reasons : list FomoReasonHit) (multiplier : dec) : result dec :=
  match reasons with
  | [] => Ok multiplier
  | hit :: reasons =>
      multiplier ← (match reason hit, measured hit with
                    | FOMO_SOFT_MENTION, _ => Ok (dmul multiplier (Thresholds.soft_mention_multiplier thresholds))
                    | FOMO_PUMP_DOWNWEIGHT, Some ratio =>
                        haircut ← _warm_pump_haircut ratio; Ok (dmul multiplier (dsub (dec_of_Z 1) haircut))
                    | _, _ => Ok multiplier
                    end);
      multiply reasons multiplier
  end.
Definition _compute_multiplier (reasons : list FomoReasonHit) : result dec :=
  multiplier ← multiply reasons (dec_of_Z 1);
  Ok (if dltb multiplier d0 then d0 else if dltb (dec_of_Z 1) multiplier then dec_of_Z 1 else multiplier).

Definition _finalize (i : Inputs.t) (reasons : list FomoReasonHit) : result FomoDecision.t :=
  '(v, m) ← (if existsb is_exclusion reasons then Ok (Verdict.REJECT, d0)
             else
               multiplier ← _compute_multiplier reasons;
               Ok (if dltb multiplier (dec_of_Z 1) then (Verdict.DOWN_WEIGHT, multiplier)
                   else (Verdict.PASS, dec_of_Z 1)));
  FomoDecision.new (FomoDecision.mk (Inputs.mint i) v m reasons (Inputs.event_slot i) (Inputs.event_block_time_ms i)).

Definition evaluate (i : Inputs.t) : result FomoDecision.t :=
  if Thresholds.max_staleness_ms thresholds <? Inputs.data_staleness_ms i then
    _finalize i [mk_fomo FOMO_INPUT_STALE (Some (dec_of_Z (Inputs.data_staleness_ms i)))
                   (Some (dec_of_Z (Thresholds.max_staleness_ms thresholds))) ""]
  else
    pump ← _eval_pump i;
    _finalize i (pump ++ _eval_mentions i).
End Filter.

(** ** What the filter guarantees *)

Record thresholds_wf (th : Thresholds.t) : Prop := mk_th_wf {
  fw_warm : dle (dec_of_Z 1) (Thresholds.warm_pump_ratio th);
  fw_hard : dle (Thresholds.warm_pump_ratio th) (Thresholds.hard_pump_ratio th);
  fw_cut : unit_dec (Thresholds.max_warm_pump_haircut th);
  fw_soft : unit_dec (Thresholds.soft_mention_multiplier th);
  fw_samples : 2 ≤ Thresholds.min_price_samples th
}.

Lemma dltb_false_dle a b : dltb a b = false → dle b a.
Proof.
  intros H. apply dleb_dle. revert H. unfold dltb, dleb, dcompare. rewrite (Z.min_comm (expo b)).
  rewrite (Z.compare_antisym (rescale a _)). by destruct (_ ?= _).
Qed.
Lemma dltb_true_dle a b : dltb a b = true → dle a b.
Proof. intros H. apply dleb_dle. revert H. unfold dltb, dleb. by destruct (dcompare a b). Qed.

Section Guarantees.
Context (th : Thresholds.t) (Hth : thresholds_wf th).

Lemma warm_haircut_unit ratio : ∃ h, _warm_pump_haircut th ratio = Ok h ∧ unit_dec h.
Proof.
  unfold _warm_pump_haircut. destruct (dleb _ d0) eqn:Es; [exists (Thresholds.max_warm_pump_haircut th); split; [done|apply Hth]|].
  set (span := dsub _ _) in *. match goal with |- context [ddiv (dsub ?x _) span] => set (c := x) end.
  assert (coef span ≠ 0) as Hs.
  { intros H0. apply not_true_iff_false in Es. apply Es, dleb_dle, dle_sign; cbn; lia. }
  destruct (ddiv_ok (dsub c (Thresholds.warm_pump_ratio th)) span Hs) as [frac ->]. cbn [mbind result_bind].
  eexists. split; [reflexivity|]. destruct (dltb (dmul _ _) d0) eqn:E1; [apply unit_0|].
  destruct (dltb _ (dmul _ _)) eqn:E2; [apply Hth|]. apply dltb_false_dle in E1, E2. split.
  - by apply (dle_nonneg_coef d0).
  - eapply dle_trans; [exact E2|]. apply Hth.
Qed.

Lemma multiply_unit reasons m : unit_dec m → fits m →
  ∃ m', multiply th reasons m = Ok m' ∧ unit_dec m' ∧ fits m' ∧ dle m' m.
Proof.
  revert m. induction reasons as [|h reasons IH]; intros m Hu Hf; cbn [multiply].
  { exists m. split_and!; try done. by apply (dle_at _ _ (expo m)). }
  assert (∀ f, unit_dec f → ∃ m', multiply th reasons (dmul m f) = Ok m' ∧ unit_dec m' ∧ fits m' ∧ dle m' m) as Hstep.
  { intros f Hunit. destruct (IH (dmul m f)) as (m' & H1 & H2 & H3 & H4); [by apply unit_dmul|apply fits_dmul|].
    exists m'. split_and!; try done. eapply dle_trans; [exact H4|]. apply dmul_shrinks; [done|apply Hu|done]. }
  destruct (reason h); try (cbn [mbind result_bind]; by apply IH).
  - destruct (measured h) as [ratio|]; [|cbn [mbind result_bind]; by apply IH].
    destruct (warm_haircut_unit ratio) as (cut & -> & Hc). cbn [mbind result_bind]. by apply Hstep, unit_complement.
  - cbn [mbind result_bind]. apply Hstep, Hth.
Qed.

Lemma multiply_app a b m : multiply th (a ++ b) m = (m' ← multiply th a m; multiply th b m').
Proof.
  revert m. induction a as [|h a IH]; intros m; cbn [app multiply]; [done|].
  match goal with |- (?x ≫= _) = _ => destruct x as [y|]; cbn [mbind result_bind]; [apply IH|done] end.
Qed.

Lemma compute_multiplier_ok reasons : ∃ m, _compute_multiplier th reasons = Ok m ∧ multiply th reasons (dec_of_Z 1) = Ok m ∧ unit_dec m.
Proof.
  destruct (multiply_unit reasons (dec_of_Z 1) unit_1) as (m & Hm & Hu & _); [by apply fits_bound|].
  unfold _compute_multiplier. rewrite Hm. exists m. split_and!; try done. cbn [mbind result_bind].
  destruct (dltb m d0) eqn:E.
  { exfalso. destruct Hu as [H0 _]. revert E. unfold dltb, dcompare.
    assert (rescale d0 (Z.min (expo m) (expo d0)) = 0) as -> by done.
    pose proof (rescale_nonneg m (Z.min (expo m) (expo d0)) H0). by destruct (Z.compare_spec (rescale m (Z.min (expo m) (expo d0))) 0); [| lia|]. }
  destruct (dltb (dec_of_Z 1) m) eqn:E2; [|done]. exfalso. destruct Hu as [_ H1]. apply dleb_dle in H1.
  revert E2 H1. unfold dltb, dleb, dcompare. rewrite (Z.min_comm (expo (dec_of_Z 1))).
  rewrite (Z.compare_antisym (rescale m _)). by destruct (_ ?= _).
Qed.

(** The multiplier a list of reasons leaves. *)
Definition leaves (reasons : list FomoReasonHit) (d : FomoDecision.t) : Prop :=
  if existsb is_exclusion reasons then verdict d = Verdict.REJECT
  else ∃ m, multiply th reasons (dec_of_Z 1) = Ok m ∧
    (if dltb m (dec_of_Z 1) then verdict d = Verdict.DOWN_WEIGHT ∧ conviction_multiplier d = m
     else verdict d = Verdict.PASS ∧ conviction_multiplier d = dec_of_Z 1).

Lemma fomo_finalize_ok i reasons : ∃ d, _finalize th i reasons = Ok d ∧ decision_wf d ∧ FomoDecision.reasons d = reasons ∧ leaves reasons d.
Proof.
  unfold _finalize, leaves, FomoDecision.new.
  destruct (existsb is_exclusion reasons); cbn [mbind result_bind].
  { edestruct decision_new_ok as [H1 H2]; [|eexists; split_and!; [exact H1|exact H2|done|done]]. by constructor. }
  destruct (compute_multiplier_ok reasons) as (m & -> & Hm & Hu). cbn [mbind result_bind].
  destruct (dltb m (dec_of_Z 1)) eqn:E.
  - edestruct decision_new_ok as [H1 H2]; [|eexists; split_and!; [exact H1|exact H2|done|exists m; rewrite E; done]].
    constructor; cbn; try done. intros _. unfold in_0_1_open. rewrite E, andb_true_r. apply dleb_dle, dle_sign; [done|apply Hu].
  - edestruct decision_new_ok as [H1 H2]; [|eexists; split_and!; [exact H1|exact H2|done|exists m; rewrite E; done]].
    by constructor.
Qed.
End Guarantees.

(** *** Mentions *)

(** The tiers a list of labels shows, in order, each once. *)
Fixpoint seen_after (seen : list MentionTier.t) (tiers : list string) : list MentionTier.t :=
  match tiers with
  | [] => seen
  | raw :: tiers =>
      match parse_mention_tier raw with
      | None => seen_after seen tiers
      | Some tier => seen_after (if bool_decide (tier ∈ seen) then seen else tier :: seen) tiers
      end
  end.

Lemma eval_mentions_app seen a b : eval_mentions seen (a ++ b) = eval_mentions seen a ++ eval_mentions (seen_after seen a) b.
Proof.
  revert seen. induction a as [|raw a IH]; intros seen; cbn [app eval_mentions seen_after]; [done|].
  destruct (parse_mention_tier raw) as [tier|]; [|apply IH]. case_bool_decide; [apply IH|].
  rewrite IH. by repeat case_bool_decide.
Qed.

Lemma mentions_exclude seen tiers : (∀ t, t ∈ seen → t ∉ _HARD_MENTION_TIERS) →
  existsb is_exclusion (eval_mentions seen tiers) = true ↔
  ∃ raw t, raw ∈ tiers ∧ parse_mention_tier raw = Some t ∧ t ∈ _HARD_MENTION_TIERS.
Proof.
  revert seen. induction tiers as [|raw tiers IH]; intros seen Hs; cbn [eval_mentions].
  { split; [done|]. intros (? & ? & H & _). by apply not_elem_of_nil in H. }
  assert (∀ P : Prop, (P ↔ ∃ raw0 t, raw0 ∈ tiers ∧ parse_mention_tier raw0 = Some t ∧ t ∈ _HARD_MENTION_TIERS) →
    (∀ t, parse_mention_tier raw = Some t → t ∉ _HARD_MENTION_TIERS) →
    (P ↔ ∃ raw0 t, raw0 ∈ raw :: tiers ∧ parse_mention_tier raw0 = Some t ∧ t ∈ _HARD_MENTION_TIERS)) as Hskip.
  { intros P -> Hn. split; intros (r & t & Hin & Ht & Hh); exists r, t; (split; [|done]).
    - by right.
    - apply elem_of_cons in Hin as [->|]; [|done]. by apply Hn in Ht. }
  destruct (parse_mention_tier raw) as [tier|] eqn:E; [|by apply Hskip; [apply IH|]].
  case_bool_decide as Hin.
  { apply Hskip; [by apply IH|]. intros t [= <-]. by apply Hs. }
  case_bool_decide as Hh.
  { split; [|done]. intros _. exists raw, tier. by split; [left|]. }
  assert (∀ t, t ∈ tier :: seen → t ∉ _HARD_MENTION_TIERS) as Hs'.
  { intros t [->|?]%elem_of_cons; [done|by apply Hs]. }
  assert (∀ t, Some tier = Some t → t ∉ _HARD_MENTION_TIERS) by (by intros t [= <-]).
  case_bool_decide; cbn [existsb]; apply Hskip; try done; by apply IH.
Qed.

(** The run-up reaches the hard ceiling. *)
Definition pumped (th : Thresholds.t) (i : Inputs.t) : Prop :=
  let history := Inputs.price_history_lamports i in
  Thresholds.min_price_samples th ≤ Z.of_nat (length history) ∧ 0 < window_min history ∧
  ∃ ratio, ddiv (dec_of_Z (List.last history 0)) (dec_of_Z (window_min history)) = Ok ratio ∧
    dle (Thresholds.hard_pump_ratio th) ratio.

Lemma eval_pump_ok th i : ∃ hits, _eval_pump th i = Ok hits ∧ (existsb is_exclusion hits = true ↔ pumped th i).
Proof.
  unfold _eval_pump, pumped. cbv zeta.
  destruct (Z.ltb_spec (Z.of_nat (length (Inputs.price_history_lamports i))) (Thresholds.min_price_samples th)).
  { eexists. split; [done|]. split; [done|]. intros [? _]. lia. }
  destruct (Z.leb_spec (window_min (Inputs.price_history_lamports i)) 0).
  { eexists. split; [done|]. split; [done|]. intros (_ & ? & _). lia. }
  destruct (ddiv_ok (dec_of_Z (List.last (Inputs.price_history_lamports i) 0))
    (dec_of_Z (window_min (Inputs.price_history_lamports i)))) as [ratio E]; [cbn; lia|].
  rewrite E. cbn [mbind result_bind]. eexists. split; [done|].
  destruct (dleb (Thresholds.hard_pump_ratio th) ratio) eqn:El.
  - split; [|done]. intros _. split_and!; try lia. exists ratio. split; [done|]. by apply dleb_dle.
  - split.
    + destruct (dleb (Thresholds.warm_pump_ratio th) ratio); cbn; intros H1; by vm_compute in H1.
    + intros (_ & _ & r & [= <-] & Hr). apply dleb_dle in Hr. congruence.
Qed.

(** More mention labels on the same candidate. *)
Definition mention_more (more : list string) (i : Inputs.t) : Inputs.t :=
  Inputs.mk (Inputs.mint i) (Inputs.event_slot i) (Inputs.event_block_time_ms i) (Inputs.data_staleness_ms i)
    (Inputs.price_history_lamports i) (Inputs.mention_tiers i ++ more).

Definition excluded (th : Thresholds.t) (i : Inputs.t) : Prop :=
  Thresholds.max_staleness_ms th < Inputs.data_staleness_ms i ∨ pumped th i ∨
  ∃ raw t, raw ∈ Inputs.mention_tiers i ∧ parse_mention_tier raw = Some t ∧ t ∈ _HARD_MENTION_TIERS.

Lemma fomo_evaluate_ok th i : thresholds_wf th → ∃ d reasons, evaluate th i = Ok d ∧ decision_wf d ∧ leaves th reasons d ∧
  (existsb is_exclusion reasons = true ↔ excluded th i) ∧
  ∀ more, ∃ extra, evaluate th (mention_more more i) = _finalize th (mention_more more i) (reasons ++ extra).
Proof.
  intros Hth. unfold evaluate, excluded. cbn [mention_more Inputs.data_staleness_ms].
  destruct (Z.ltb_spec (Thresholds.max_staleness_ms th) (Inputs.data_staleness_ms i)) as [Hs|Hs].
  - edestruct (fomo_finalize_ok th Hth i) as (d & E & Hd & _ & Hl). exists d. eexists. split; [exact E|]. split; [done|]. split; [done|].
    split; [split; [by left|done]|]. intros more. by exists [].
  - destruct (eval_pump_ok th i) as (hits & E & Hp). rewrite E. cbn [mbind result_bind].
    destruct (fomo_finalize_ok th Hth i (hits ++ _eval_mentions i)) as (d & E' & Hd & _ & Hl). exists d, (hits ++ _eval_mentions i).
    split; [done|]. split; [done|]. split; [done|]. split.
    + rewrite existsb_app, orb_true_iff, Hp. unfold _eval_mentions. rewrite mentions_exclude by (intros ? []%not_elem_of_nil).
      split; [by right|]. intros [?|?]; [lia|done].
    + intros more. exists (eval_mentions (seen_after [] (Inputs.mention_tiers i)) more).
      change (_eval_pump th (mention_more more i)) with (_eval_pump th i). rewrite E. cbn [mbind result_bind].
      unfold _eval_mentions. cbn [mention_more Inputs.mention_tiers]. by rewrite eval_mentions_app, app_assoc.
Qed.

(** Hype only costs conviction.  On valid thresholds the filter never
    raises and returns a well-formed decision, whose multiplier is therefore
    in [0, 1]; it rejects exactly a stale bundle, a run-up at or above the
    hard ceiling, and a hard mention among the labels, wherever it stands; and
    attaching further mentions, of whatever tier, to the same candidate never
    raises the multiplier nor lifts a rejection. *)
Theorem fomo_only_costs_conviction th i : thresholds_wf th →
  ∃ d, evaluate th i = Ok d ∧ decision_wf d ∧ (verdict d = Verdict.REJECT ↔ excluded th i) ∧
    ∀ more, ∃ d', evaluate th (mention_more more i) = Ok d' ∧
      dle (conviction_multiplier d') (conviction_multiplier d) ∧
      (verdict d = Verdict.REJECT → verdict d' = Verdict.REJECT).
Proof.
  intros Hth. destruct (fomo_evaluate_ok th i Hth) as (d & reasons & E & Hd & Hl & Hx & Hm). exists d.
  split; [done|]. split; [done|]. split.
  - rewrite <- Hx. unfold leaves in Hl. destruct (existsb is_exclusion reasons); [done|].
    destruct Hl as (m & _ & H). destruct (dltb m _); destruct H as [-> _]; by split.
  - intros more. destruct (Hm more) as [extra ->].
    destruct (fomo_finalize_ok th Hth (mention_more more i) (reasons ++ extra)) as (d' & -> & Hd' & _ & Hl'). exists d'.
    split; [done|]. unfold leaves in Hl, Hl'. rewrite existsb_app in Hl'.
    destruct (existsb is_exclusion reasons); cbn [orb] in Hl'.
    { split; [|by intros _]. pose proof (dw_reject _ Hd' Hl') as H0. apply deqb_dle in H0 as [H0 _].
      eapply dle_trans; [exact H0|]. by apply dle_sign, (dw_unit _ Hd). }
    destruct Hl as (m & Em & Hv). split.
    2:{ intros Hr. destruct (dltb m _); destruct Hv as [Hv _]; congruence. }
    destruct (multiply_unit th Hth reasons (dec_of_Z 1) unit_1) as (m0 & E0 & Hu & Hf & _); [by apply fits_bound|].
    rewrite Em in E0. simplify_eq.
    destruct (existsb is_exclusion extra).
    { pose proof (dw_reject _ Hd' Hl') as H0. apply deqb_dle in H0 as [H0 _].
      eapply dle_trans; [exact H0|]. by apply dle_sign, (dw_unit _ Hd). }
    destruct Hl' as (m' & Em' & Hv'). rewrite multiply_app, Em in Em'. cbn [mbind result_bind] in Em'.
    destruct (multiply_unit th Hth extra m0 Hu Hf) as (m1 & E1 & _ & _ & Hle). rewrite E1 in Em'. simplify_eq.
    destruct (dltb m0 (dec_of_Z 1)) eqn:B0; destruct Hv as [_ ->]; [|apply (dw_unit _ Hd')].
    destruct (dltb m' (dec_of_Z 1)) eqn:B1; destruct Hv' as [_ ->]; [done|].
    eapply dle_trans; [|exact Hle]. by apply dltb_false_dle.
Qed.

Lemma fomo_default_wf : thresholds_wf Thresholds.default.
Proof. constructor; try (by apply dleb_dle); try (by apply in_0_1_unit). done. Qed.

Definition doubled (tiers : list string) : Inputs.t := Inputs.mk "M" 7 1000 0 [150; 100; 300] tiers.
Lemma fomo_witness : ∃ d d', evaluate Thresholds.default (doubled []) = Ok d ∧
  evaluate Thresholds.default (doubled ["minor_cex_listing"]) = Ok d' ∧
  dle (conviction_multiplier d') (conviction_multiplier d).
Proof.
  destruct (fomo_only_costs_conviction Thresholds.default (doubled []) fomo_default_wf) as (d & E & _ & _ & H).
  destruct (H ["minor_cex_listing"]) as (d' & E' & Hle & _). exists d, d'. split; [exact E|]. split; [exact E'|exact Hle].
Defined.

(** At the warm floor exactly, the down-weight reason trips and takes nothing
    away: the verdict is a pass that lists a haircut. *)
Example warm_floor_passes : ∃ d, evaluate Thresholds.default (Inputs.mk "M" 7 1000 0 [100; 200] []) = Ok d ∧
  verdict d = Verdict.PASS ∧ FomoDecision.reason_codes d = ["fomo_pump_downweight"].
Proof. eexists. split; [vm_compute; reflexivity|]. done. Qed.
