(* ===== verification/SnipeLoop.v ===== *)
(** * The entry loop: [aats/controller/snipe_loop.py]

    One launch event at a time, with [LaunchEvent] of [aats/contracts/events.py]
    and the candidate ring of [aats/controller/candidate_store.py].  The
    injected engines are the fields of [SnipeLoop]; the venue may answer by
    everything it was sent before; the two monotonic-clock readings of
    [process_event] are its last arguments. *)

From S2P Require Import Prelude Decimal RiskContracts Bytes Sha256 Intents Positions StateStore Fsm.

Inductive DetectionTransport : Type := GEYSER | SHREDSTREAM.
Inductive LaunchSource : Type := PUMPFUN | PUMPSWAP | RAYDIUM_V4 | RAYDIUM_CPMM | MIGRATION.

Module LaunchEvent.
Record t : Type := mk {
  mint : string;
  venue_program_id : string;
  source : LaunchSource;
  event_time : EventTime.t;
  observation_slot : Z;
  confirmation_slot : Z;
  detection_transport : DetectionTransport;
  sol_reserve_lamports : Z;
  token_reserve_base : Z;
  token_decimals : Z;
  initial_holders : Z;
  competitors : Z;
  creator_wallet : string;
  bundler_cluster_id : option string;
  deploy_template_fingerprint : option string;
  data_staleness_ms : Z
}.

Definition _reject_float_money (sol token : pynum) : result unit :=
  reject_floats "LaunchEvent" [("sol_reserve_lamports", sol); ("token_reserve_base", token)].

Definition _slot_ordering (e : t) : result t :=
  if confirmation_slot e <? observation_slot e
  then Raise (ValueError "observation_slot must be <= confirmation_slot") else Ok e.
End LaunchEvent.

(** ** The candidate ring *)

Record CandidateRecord : Type := mk_candidate {
  c_mint : string;
  evaluated_at_slot : Z;
  evaluated_at_wall_ms : Z;
  c_status : string;
  model_p : option float;
  c_reason : string;
  gate_passed : bool;
  gate_reasons : list string
}.

Module CandidateQueue.
Record t : Type := mk { maxlen : nat; _ring : list CandidateRecord }.
Definition DEFAULT_MAXLEN : nat := 200.
Definition init (n : nat) : t := mk n [].

(** [deque(maxlen)]: an append drops from the other end what no longer fits. *)
Definition append (r : CandidateRecord) (q : t) : t :=
  let l := _ring q ++ [r] in mk (maxlen q) (drop (length l - maxlen q) l).

Definition record (mint : string) (slot wall_ms : Z) (status : string) (model_p : option float) (reason : string)
    (gate_passed : bool) (gate_reasons : list string) (q : t) : t :=
  append (mk_candidate mint slot wall_ms status model_p reason gate_passed gate_reasons) q.

Definition snapshot (newest_first : bool) (q : t) : list CandidateRecord :=
  if newest_first then reverse (_ring q) else _ring q.
End CandidateQueue.

(** ** The loop *)

Record SnipeLoop : Type := mk_snipe {
  _config : RiskConfig.t;
  _gate : option (LaunchEvent.t → bool);
  _sizing : option (float → float → Z → RiskConfig.t → result Z);
  _cost_model : option (LaunchEvent.t → Z → Z → option CostStack.t);
  _default_tip : Z;
  _default_cu : Z;
  _latency_budget_ms : option Z;
  _cooldown_seconds : Z;
  _min_sol : Z;
  _wallet_id : string;
  venue_name : string;
  venue_execute : list EntryIntent.t → EntryIntent.t → LaunchEvent.t → result FillResult.t
}.

(** The shared objects the loop acts on: the store, the candidate queue, and
    what the venue was asked to execute. *)
Record World : Type := mk_world {
  w_store : StateStore;
  w_queue : option CandidateQueue.t;
  w_sent : list EntryIntent.t
}.

Inductive snipe_result : Type := Filled (fill : FillResult.t) | Skipped (reason : string).

Module SnipeSkipReason.
Definition NO_SIGNAL : string := "no_signal".
Definition STALE_SIGNAL : string := "stale_signal".
Definition VETO_ACTIVE : string := "veto_active".
Definition IN_COOLDOWN : string := "in_cooldown".
Definition FSM_CONFLICT : string := "fsm_state_conflict".
Definition SAFETY_GATE_FAIL : string := "safety_gate_fail".
Definition BREAKER_TRIPPED : string := "breaker_tripped".
Definition COST_GATE_FAIL : string := "cost_gate_fail".
Definition BELOW_THRESHOLD : string := "below_snipe_threshold".
Definition DUPLICATE_INTENT : string := "duplicate_intent".
Definition BUDGET_BLOWN : string := "latency_budget_blown".
Definition FILL_FAILED : string := "fill_not_landed".
End SnipeSkipReason.
Import SnipeSkipReason.

Section Loop.
Context (_clock : nat → Z) (loop : SnipeLoop).

Definition with_store {A} (m : M StateStore A) : M World A := λ w,
  let '(r, s) := m (w_store w) in (r, mk_world s (w_queue w) (w_sent w)).

Definition _record_candidate (event : LaunchEvent.t) (wall_ms : Z) (status : string) (model_p : option float)
    (reason : string) (gate_passed : bool) (gate_reasons : list string) : M World unit :=
  modify (λ w, mk_world (w_store w)
    (CandidateQueue.record (LaunchEvent.mint event) (EventTime.slot (LaunchEvent.event_time event)) wall_ms status
       model_p reason gate_passed gate_reasons <$> w_queue w) (w_sent w)).

(** [self._venue.execute(intent, event)] *)
Definition submit (intent : EntryIntent.t) (event : LaunchEvent.t) : M World FillResult.t := λ w,
  (venue_execute loop (w_sent w) intent event, mk_world (w_store w) (w_queue w) (w_sent w ++ [intent])).

Definition _make_default_cost_stack (sol_in tip_lamports : Z) : result CostStack.t :=
  let adverse_sel := RiskConfig.pre_calibration_haircut_bps (_config loop) in
  let jito_tip_bps := Z.max 1 ((tip_lamports * 10000) / Z.max 1 sol_in) in
  let total := 50 + 50 + adverse_sel + jito_tip_bps + 10 in
  let edge := total + 100 in
  CostStack.new (PyInt edge) (PyInt jito_tip_bps) (PyInt 10) (PyInt 50) (PyInt 50) (PyInt 50)
    (PyInt adverse_sel) (PyInt total).

(** [max(1, int(sol / max(1, token) * 6 / 10))] *)
Definition hard_stop_price (event : LaunchEvent.t) : result Z :=
  q ← ddiv (dec_of_Z (LaunchEvent.sol_reserve_lamports event))
           (dec_of_Z (Z.max 1 (LaunchEvent.token_reserve_base event)));
  p ← ddiv (dmul q (dec_of_Z 6)) (dec_of_Z 10);
  Ok (Z.max 1 (dec_int p)).

(** *** The entry decision, one definition per numbered stage *)

Definition skip (event : LaunchEvent.t) (start_wall_ms : Z) (status : string) (p : option float) (reason : string)
    (gate : bool) (why : string) : M World snipe_result :=
  _record_candidate event start_wall_ms status p reason gate [why];; mret (Skipped reason).

(** 10-11: latency budget, then submission. *)
Definition budget_and_submit (event : LaunchEvent.t) (signal : DecisionSignal) (intent : EntryIntent.t)
    (start_wall_ms now_wall_ms : Z) : M World snipe_result :=
  let mint := LaunchEvent.mint event in
  let p := Some (ds_p_calibrated signal) in
  let over := match _latency_budget_ms loop with
              | Some budget => budget <? now_wall_ms - start_wall_ms
              | None => false
              end in
  if over then
    with_store (release_entering mint);;
    with_store (delete_position mint);;
    skip event start_wall_ms "skipped" p BUDGET_BLOWN true BUDGET_BLOWN
  else
    fill ← submit intent event;
    (if negb (FillResult.landed fill)
     then _record_candidate event start_wall_ms "skipped" p FILL_FAILED true ["fill_not_landed"]
     else _record_candidate event start_wall_ms "sniped" p "entered" true ["passed"]);;
    mret (Filled fill).

(** 8-9: build the intent, whose constructor gates edge against cost, and
    write the ENTERING record ahead. *)
Definition build_and_write_ahead (event : LaunchEvent.t) (signal : DecisionSignal) (intent_id : string)
    (sol_in tip_lamports : Z) (cost_stack : CostStack.t) (start_wall_ms now_wall_ms : Z) : M World snipe_result :=
  let mint := LaunchEvent.mint event in
  let et := LaunchEvent.event_time event in
  let target_slot := EventTime.slot et + 6 in
  match EntryIntent.new intent_id mint et (PyInt sol_in) (RiskConfig.max_slippage_bps (_config loop))
          (PyInt tip_lamports) (PyInt (_default_cu loop)) target_slot cost_stack (venue_name loop) (_wallet_id loop) with
  | Raise (ValueError m) =>
      with_store (release_entering mint);;
      let reason := "intent_validation_fail:" +:+ m in
      skip event start_wall_ms "skipped" (Some (ds_p_calibrated signal)) reason true "intent_validation_fail"
  | Raise e => raise e
  | Ok intent =>
      stop ← lift (hard_stop_price event);
      with_store (create_entering mint mint (ds_surface signal) (EventTime.slot et) (PyInt sol_in) (PyInt 0) 0
                    "default" secure 3 (PyInt stop) cost_stack);;
      budget_and_submit event signal intent start_wall_ms now_wall_ms
  end.

(** 5: the size. *)
Definition size_entry (signal : DecisionSignal) (current_agg : Z) : result Z :=
  match _sizing loop with
  | Some f => f (ds_p_calibrated signal) (ds_uncertainty signal) current_agg (_config loop)
  | None =>
      let remaining_headroom := Z.max 0 (RiskConfig.max_aggregate_lamports (_config loop) - current_agg) in
      Ok (Z.min (Z.min (_min_sol loop) (RiskConfig.per_trade_cap_lamports (_config loop))) remaining_headroom)
  end.

(** 7: the cost stack. *)
Definition cost_and_build (event : LaunchEvent.t) (signal : DecisionSignal) (intent_id : string)
    (sol_in start_wall_ms now_wall_ms : Z) : M World snipe_result :=
  let mint := LaunchEvent.mint event in
  let tip_lamports := _default_tip loop in
  cost ← (match _cost_model loop with
          | Some f => mret (f event sol_in tip_lamports)
          | None => c ← lift (_make_default_cost_stack sol_in tip_lamports); mret (Some c)
          end : M World (option CostStack.t));
  match cost with
  | None =>
      with_store (release_entering mint);;
      skip event start_wall_ms "skipped" (Some (ds_p_calibrated signal)) COST_GATE_FAIL true COST_GATE_FAIL
  | Some cost_stack =>
      build_and_write_ahead event signal intent_id sol_in tip_lamports cost_stack start_wall_ms now_wall_ms
  end.

(** 6: the atomic claim, after the dedup of the intent. *)
Definition claim_mint (event : LaunchEvent.t) (signal : DecisionSignal) (intent_id : string)
    (sol_in start_wall_ms now_wall_ms : Z) : M World snipe_result :=
  claimed ← with_store (claim_entering _clock (LaunchEvent.mint event) intent_id 30);
  if negb claimed
  then skip event start_wall_ms "skipped" (Some (ds_p_calibrated signal)) FSM_CONFLICT true FSM_CONFLICT
  else cost_and_build event signal intent_id sol_in start_wall_ms now_wall_ms.

Definition mark_and_claim (event : LaunchEvent.t) (signal : DecisionSignal) (sol_in start_wall_ms now_wall_ms : Z)
    : M World snipe_result :=
  let intent_id := make_client_intent_id (LaunchEvent.mint event) (EventTime.slot (LaunchEvent.event_time event)) "ENTRY" in
  fresh ← with_store (mark_intent_seen _clock intent_id 120);
  if negb fresh
  then skip event start_wall_ms "skipped" (Some (ds_p_calibrated signal)) DUPLICATE_INTENT true DUPLICATE_INTENT
  else claim_mint event signal intent_id sol_in start_wall_ms now_wall_ms.

(** 4-5: the safety gate and the size. *)
Definition gate_and_size (event : LaunchEvent.t) (signal : DecisionSignal) (start_wall_ms now_wall_ms : Z)
    : M World snipe_result :=
  let p := Some (ds_p_calibrated signal) in
  if match _gate loop with Some g => negb (g event) | None => false end
  then skip event start_wall_ms "skipped" p SAFETY_GATE_FAIL false SAFETY_GATE_FAIL
  else
  current_agg ← with_store get_aggregate_open_lamports;
  sol_in ← lift (size_entry signal current_agg);
  if sol_in <=? 0 then skip event start_wall_ms "skipped" p "size_zero" true "size_zero"
  else mark_and_claim event signal sol_in start_wall_ms now_wall_ms.

(** 3: the veto flag. *)
Definition after_signal (event : LaunchEvent.t) (signal : DecisionSignal) (start_wall_ms now_wall_ms : Z)
    : M World snipe_result :=
  veto ← with_store (get_veto_flag _clock (LaunchEvent.mint event));
  if (veto : bool)
  then skip event start_wall_ms "skipped" (Some (ds_p_calibrated signal)) VETO_ACTIVE false VETO_ACTIVE
  else gate_and_size event signal start_wall_ms now_wall_ms.

(** 2: the pre-staged score. *)
Definition check_signal (event : LaunchEvent.t) (signal : DecisionSignal) (start_wall_ms now_wall_ms : Z)
    : M World snipe_result :=
  let p := Some (ds_p_calibrated signal) in
  if fltb (ds_p_calibrated signal) (RiskConfig.snipe_threshold (_config loop))
  then skip event start_wall_ms "skipped" p BELOW_THRESHOLD false BELOW_THRESHOLD
  else if 5000 <? LaunchEvent.data_staleness_ms event
  then skip event start_wall_ms "skipped" p STALE_SIGNAL false STALE_SIGNAL
  else after_signal event signal start_wall_ms now_wall_ms.

Definition read_signal (event : LaunchEvent.t) (start_wall_ms now_wall_ms : Z) : M World snipe_result :=
  sig ← with_store (get_decision_signal _clock (LaunchEvent.mint event));
  match sig with
  | None => skip event start_wall_ms "monitoring" None NO_SIGNAL false NO_SIGNAL
  | Some signal => check_signal event signal start_wall_ms now_wall_ms
  end.

(** 1: breaker and cooldown, then the rest. *)
Definition process_event (event : LaunchEvent.t) (start_wall_ms now_wall_ms : Z) : M World snipe_result :=
  breaker ← with_store load_breaker_state;
  if match breaker with Some b => bool_decide (BreakerState.state b = TRIPPED) | None => false end
  then skip event start_wall_ms "skipped" None BREAKER_TRIPPED false BREAKER_TRIPPED
  else
  cooling ← with_store (in_cooldown _clock (LaunchEvent.mint event));
  if (cooling : bool) then skip event start_wall_ms "skipped" None IN_COOLDOWN false IN_COOLDOWN
  else read_signal event start_wall_ms now_wall_ms.
End Loop.

(** ** What one event can do *)

Section Spec.
Context (_clock : nat → Z) (loop : SnipeLoop).

(** Absent, or expired at some reading taken in the range. *)
Definition free (o : option Z) (lo hi : nat) : Prop := ∀ e, o = Some e → ∃ n, (lo ≤ n < hi)%nat ∧ e ≤ _clock n.

Lemma free_mono o lo hi lo' hi' : free o lo hi → (lo' ≤ lo)%nat → (hi ≤ hi')%nat → free o lo' hi'.
Proof. intros H ?? e He. destruct (H e He) as (n & ? & ?). exists n. split; [lia|done]. Qed.

Lemma free_expired e lo hi n : (lo ≤ n < hi)%nat → (e <=? _clock n) = true → free (Some e) lo hi.
Proof. intros ? ?%Z.leb_le e' [= <-]. eauto. Qed.

Lemma free_none lo hi : free None lo hi.
Proof. by intros e. Qed.

Definition intent_id_of (event : LaunchEvent.t) : string :=
  make_client_intent_id (LaunchEvent.mint event) (EventTime.slot (LaunchEvent.event_time event)) "ENTRY".

(** The record written ahead of the submission. *)
Definition entering_record (event : LaunchEvent.t) (signal : DecisionSignal) (sol_in stop : Z) (cost : CostStack.t)
    : Position.t :=
  Position.mk (LaunchEvent.mint event) (LaunchEvent.mint event) (ds_surface signal) ENTERING
    (EventTime.slot (LaunchEvent.event_time event)) sol_in 0 0 "default" secure 0 3 false stop None 0 cost st_open complete.

Definition intent_for (event : LaunchEvent.t) (sol_in : Z) (cost : CostStack.t) : EntryIntent.t :=
  EntryIntent.mk (intent_id_of event) (LaunchEvent.mint event) (LaunchEvent.event_time event) sol_in
    (RiskConfig.max_slippage_bps (_config loop)) (_default_tip loop) (_default_cu loop)
    (EventTime.slot (LaunchEvent.event_time event) + 6) cost (venue_name loop) (_wallet_id loop).

Definition answer_of (w : World) (intent : EntryIntent.t) (event : LaunchEvent.t) : result snipe_result :=
  f ← venue_execute loop (w_sent w) intent event; Ok (Filled f).

Definition in_budget (t0 t1 : Z) : Prop := ∀ b, _latency_budget_ms loop = Some b → t1 - t0 ≤ b.

(** The ways a stage ends, from the world it started in. *)
Inductive stage_end (event : LaunchEvent.t) (signal : DecisionSignal) (sol_in t0 t1 : Z) (w w' : World)
    : result snipe_result → Prop :=
| end_skip reason :
    reason ≠ BUDGET_BLOWN → w_sent w' = w_sent w → _positions (w_store w') = _positions (w_store w) →
    stage_end event signal sol_in t0 t1 w w' (Ok (Skipped reason))
| end_raise e :
    w_sent w' = w_sent w → _positions (w_store w') = _positions (w_store w) →
    stage_end event signal sol_in t0 t1 w w' (Raise e)
| end_budget p :
    Position.mint p = LaunchEvent.mint event → ¬ in_budget t0 t1 →
    w_sent w' = w_sent w →
    _positions (w_store w') = dpop (LaunchEvent.mint event) (dset (LaunchEvent.mint event) p (_positions (w_store w))) →
    _fsm_locks (w_store w') !! LaunchEvent.mint event = None →
    stage_end event signal sol_in t0 t1 w w' (Ok (Skipped BUDGET_BLOWN))
| end_submit stop cost expiry :
    in_budget t0 t1 → 1 ≤ stop →
    CostStack.total_cost_bps cost < CostStack.expected_edge_bps cost →
    w_sent w' = w_sent w ++ [intent_for event sol_in cost] →
    _positions (w_store w') =
      dset (LaunchEvent.mint event) (entering_record event signal sol_in stop cost) (_positions (w_store w)) →
    _fsm_locks (w_store w') !! LaunchEvent.mint event = Some (intent_id_of event, expiry) →
    stage_end event signal sol_in t0 t1 w w' (answer_of w (intent_for event sol_in cost) event).

Lemma hard_stop_price_ok event : ∃ stop, hard_stop_price event = Ok stop ∧ 1 ≤ stop.
Proof.
  unfold hard_stop_price.
  destruct (ddiv_ok (dec_of_Z (LaunchEvent.sol_reserve_lamports event))
              (dec_of_Z (Z.max 1 (LaunchEvent.token_reserve_base event)))) as [q ->]; [cbn; lia|].
  destruct (ddiv_ok (dmul q (dec_of_Z 6)) (dec_of_Z 10)) as [p Hp]; [done|].
  mstep. rewrite Hp. eexists. split; [done|lia].
Qed.

Lemma entry_new_int id mint et sol slip tip cu target cost venue wallet :
  (∃ m, EntryIntent.new id mint et (PyInt sol) slip (PyInt tip) (PyInt cu) target cost venue wallet = Raise (ValueError m)) ∨
  EntryIntent.new id mint et (PyInt sol) slip (PyInt tip) (PyInt cu) target cost venue wallet
    = Ok (EntryIntent.mk id mint et sol slip tip cu target cost venue wallet) ∧
  CostStack.total_cost_bps cost < CostStack.expected_edge_bps cost.
Proof.
  unfold EntryIntent.new, EntryIntent._slot_guard, EntryIntent._cost_gate. cbn.
  destruct (target <? _); cbn; [by left; eexists|].
  destruct (CostStack.expected_edge_bps cost <=? CostStack.total_cost_bps cost) eqn:E; cbn; [by left; eexists|].
  right. apply Z.leb_gt in E. done.
Qed.

Lemma entering_created s event signal sol_in stop cost :
  create_entering (LaunchEvent.mint event) (LaunchEvent.mint event) (ds_surface signal)
    (EventTime.slot (LaunchEvent.event_time event)) (PyInt sol_in) (PyInt 0) 0 "default" secure 3 (PyInt stop) cost s =
  (Ok (entering_record event signal sol_in stop cost),
   set_positions (dset (LaunchEvent.mint event) (entering_record event signal sol_in stop cost) (_positions s)) s).
Proof. done. Qed.

#[local] Arguments hard_stop_price : simpl never.
#[local] Arguments make_client_intent_id : simpl never.

(** 8-11, once the mint is claimed. *)
Lemma build_spec event signal sol_in cost t0 t1 expiry w r w' :
  _fsm_locks (w_store w) !! LaunchEvent.mint event = Some (intent_id_of event, expiry) →
  build_and_write_ahead loop event signal (intent_id_of event) sol_in (_default_tip loop) cost t0 t1 w = (r, w') →
  stage_end event signal sol_in t0 t1 w w' r ∧
  (w_sent w' = w_sent w → _fsm_locks (w_store w') !! LaunchEvent.mint event = None) ∧
  _reads (w_store w') = _reads (w_store w).
Proof.
  intros Hl. destruct w as [s q l]; cbn in Hl. unfold build_and_write_ahead.
  destruct (entry_new_int (intent_id_of event) (LaunchEvent.mint event) (LaunchEvent.event_time event) sol_in
    (RiskConfig.max_slippage_bps (_config loop)) (_default_tip loop) (_default_cu loop)
    (EventTime.slot (LaunchEvent.event_time event) + 6) cost (venue_name loop) (_wallet_id loop)) as [[m ->] | [-> Hc]].
  { cbn. intros [= <- <-]. cbn. rewrite lookup_delete_eq. split_and!; try done. by constructor. }
  destruct (hard_stop_price_ok event) as (stop & Hs & Hs1).
  unfold with_store, budget_and_submit, submit, skip, _record_candidate.
  unfold mbind, mret, M_bind, M_ret, lift, modify. rewrite Hs, entering_created. cbn -[dpop dset intent_id_of].
  assert (∀ b, (b <? t1 - t0) = true → _latency_budget_ms loop = Some b → ¬ in_budget t0 t1) as Hb.
  { intros b Hb%Z.ltb_lt E H. specialize (H b E). lia. }
  destruct (match _latency_budget_ms loop with Some b => b <? t1 - t0 | None => false end) eqn:Eo.
  { cbn -[dpop dset intent_id_of]. intros [= <- <-]. cbn -[dpop dset intent_id_of]. rewrite lookup_delete_eq.
    split_and!; try done. eapply end_budget; try done; [done| |by cbn; rewrite lookup_delete_eq].
    destruct (_latency_budget_ms loop) as [b|] eqn:Eb; [|done]. by eapply Hb. }
  assert (in_budget t0 t1) as Hin.
  { intros b E. rewrite E in Eo. by apply Z.ltb_ge in Eo. }
  fold (intent_for event sol_in cost).
  assert (∀ l : list EntryIntent.t, l ++ [intent_for event sol_in cost] ≠ l) as Hne.
  { intros l' H. apply (f_equal length) in H. rewrite length_app in H. cbn in H. lia. }
  pose proof (λ w', end_submit event signal sol_in t0 t1 (mk_world s q l) w' stop cost expiry Hin Hs1 Hc) as Hend.
  unfold answer_of in Hend. cbn -[dset intent_id_of intent_for] in Hend |- *.
  destruct (venue_execute loop l (intent_for event sol_in cost) event) as [f|e]; cbn -[dset intent_id_of intent_for] in *.
  - destruct (FillResult.landed f); cbn -[dset intent_id_of intent_for]; intros [= <- <-];
      cbn -[dset intent_id_of intent_for] in *; split_and!; eauto; by (intros Hq; apply Hne in Hq).
  - intros [= <- <-]; cbn -[dset intent_id_of intent_for] in *; split_and!; eauto; by intros []%Hne.
Qed.
#[local] Arguments build_and_write_ahead : simpl never.

#[local] Arguments intent_id_of : simpl never.

Lemma cost_spec event signal sol_in t0 t1 expiry w r w' :
  _fsm_locks (w_store w) !! LaunchEvent.mint event = Some (intent_id_of event, expiry) →
  cost_and_build loop event signal (intent_id_of event) sol_in t0 t1 w = (r, w') →
  stage_end event signal sol_in t0 t1 w w' r ∧ _reads (w_store w') = _reads (w_store w).
Proof.
  intros Hl. unfold cost_and_build, mbind, M_bind, mret, M_ret, lift.
  assert (∀ c, build_and_write_ahead loop event signal (intent_id_of event) sol_in (_default_tip loop) c t0 t1 w = (r, w') →
    stage_end event signal sol_in t0 t1 w w' r ∧ _reads (w_store w') = _reads (w_store w)) as Hb.
  { intros c Hc. destruct (build_spec event signal sol_in c t0 t1 expiry w r w' Hl Hc) as (? & _ & ?). done. }
  destruct (_cost_model loop) as [f|]; [destruct (f event sol_in (_default_tip loop))|
    destruct (_make_default_cost_stack loop sol_in (_default_tip loop))]; try exact (Hb _);
    destruct w as [s q l]; cbn; intros [= <- <-]; (split; [|done]); by constructor.
Qed.

(** A stage that only read the clock and marked or locked first. *)
Lemma stage_end_frame event signal sol_in t0 t1 w w1 w' r :
  w_sent w1 = w_sent w → _positions (w_store w1) = _positions (w_store w) →
  stage_end event signal sol_in t0 t1 w1 w' r → stage_end event signal sol_in t0 t1 w w' r.
Proof.
  intros Hs Hp []; [constructor|constructor|eapply end_budget|]; rewrite <- ?Hs, <- ?Hp; try done.
  unfold answer_of. rewrite Hs. eapply end_submit; rewrite <- ?Hs, <- ?Hp; done.
Qed.

Lemma claim_spec event signal sol_in t0 t1 w r w' :
  claim_mint _clock loop event signal (intent_id_of event) sol_in t0 t1 w = (r, w') →
  stage_end event signal sol_in t0 t1 w w' r ∧ (_reads (w_store w) ≤ _reads (w_store w'))%nat ∧
  (w_sent w' ≠ w_sent w →
    free (snd <$> _fsm_locks (w_store w) !! LaunchEvent.mint event) (_reads (w_store w)) (_reads (w_store w'))).
Proof.
  destruct w as [s q l]. unfold claim_mint, with_store, mbind, M_bind. rewrite claim_entering_eq. cbn.
  assert (∀ k, (_reads s ≤ k)%nat → free (snd <$> _fsm_locks s !! LaunchEvent.mint event) (_reads s) k → ∀ s2,
    _reads s2 = k → _positions s2 = _positions s →
    (∃ e, _fsm_locks s2 !! LaunchEvent.mint event = Some (intent_id_of event, e)) →
    cost_and_build loop event signal (intent_id_of event) sol_in t0 t1 (mk_world s2 q l) = (r, w') →
    stage_end event signal sol_in t0 t1 (mk_world s q l) w' r ∧ (_reads s ≤ _reads (w_store w'))%nat ∧
    (w_sent w' ≠ l →
      free (snd <$> _fsm_locks s !! LaunchEvent.mint event) (_reads s) (_reads (w_store w')))) as Hgo.
  { intros k Hk Hfree s2 Hr2 Hp2 [e He] Hc.
    destruct (cost_spec event signal sol_in t0 t1 e (mk_world s2 q l) r w' He Hc) as [Hend Hr]. cbn in Hr.
    rewrite Hr, Hr2. split_and!; [by eapply stage_end_frame; [| |exact Hend]|done|done]. }
  destruct (_fsm_locks s !! LaunchEvent.mint event) as [[i e]|] eqn:El; cbn in *.
  - destruct (e <=? _clock (S (_reads s))) eqn:Ee; cbn.
    + apply (Hgo (S (S (_reads s)))); cbn; try done; [lia| |by rewrite lookup_insert_eq; eauto].
      apply (free_expired _ _ _ (S (_reads s))); [lia|done].
    + intros [= <- <-]. cbn. split_and!; [by constructor|lia|done].
  - apply (Hgo (S (_reads s))); cbn; try apply free_none; try done; [lia|by rewrite lookup_insert_eq; eauto].
Qed.

#[local] Arguments claim_mint : simpl never.

Lemma mark_spec event signal sol_in t0 t1 w r w' :
  mark_and_claim _clock loop event signal sol_in t0 t1 w = (r, w') →
  stage_end event signal sol_in t0 t1 w w' r ∧ (_reads (w_store w) ≤ _reads (w_store w'))%nat ∧
  (w_sent w' ≠ w_sent w →
    free (_seen_intents (w_store w) !! intent_id_of event) (_reads (w_store w)) (_reads (w_store w')) ∧
    free (snd <$> _fsm_locks (w_store w) !! LaunchEvent.mint event) (_reads (w_store w)) (_reads (w_store w'))).
Proof.
  destruct w as [s q l]. unfold mark_and_claim, with_store, mbind, M_bind. fold (intent_id_of event).
  rewrite mark_intent_seen_eq. cbn.
  assert (∀ k, (_reads s ≤ k)%nat → free (_seen_intents s !! intent_id_of event) (_reads s) k → ∀ s2,
    _reads s2 = k → _positions s2 = _positions s → _fsm_locks s2 = _fsm_locks s →
    claim_mint _clock loop event signal (intent_id_of event) sol_in t0 t1 (mk_world s2 q l) = (r, w') →
    stage_end event signal sol_in t0 t1 (mk_world s q l) w' r ∧ (_reads s ≤ _reads (w_store w'))%nat ∧
    (w_sent w' ≠ l →
      free (_seen_intents s !! intent_id_of event) (_reads s) (_reads (w_store w')) ∧
      free (snd <$> _fsm_locks s !! LaunchEvent.mint event) (_reads s) (_reads (w_store w')))) as Hgo.
  { intros k Hk Hfree s2 Hr2 Hp2 Hl2 Hc.
    destruct (claim_spec event signal sol_in t0 t1 (mk_world s2 q l) r w' Hc) as (Hend & Hr & Hlock). cbn in *.
    rewrite Hr2, ?Hl2 in *. split_and!; [by eapply stage_end_frame; [| |exact Hend]|lia|].
    intros Hne. split; [eapply free_mono; eauto|eapply free_mono; eauto; done]. }
  destruct (_seen_intents s !! intent_id_of event) as [e|] eqn:El; cbn in *.
  - destruct (e <=? _clock (_reads s)) eqn:Ee; cbn.
    + apply (Hgo (S (S (_reads s)))); cbn; try done; [lia|]. apply (free_expired _ _ _ (_reads s)); [lia|done].
    + intros [= <- <-]. cbn. split_and!; [by constructor|lia|done].
  - apply (Hgo (S (_reads s))); cbn; try apply free_none; try done; lia.
Qed.
#[local] Arguments mark_and_claim : simpl never.

Definition breaker_tripped (s : StateStore) : bool :=
  match _breaker s with Some b => bool_decide (BreakerState.state b = TRIPPED) | None => false end.
Definition aggregate (s : StateStore) : Z := zsum (Position.sol_in_lamports <$> (_positions s).*2).

(** Every condition an entry needs, read in the world the event found, with
    the clock readings taken while it was processed. *)
Record cleared (event : LaunchEvent.t) (signal : DecisionSignal) (sol_in : Z) (w : World) (hi : nat) : Prop := {
  cl_breaker : breaker_tripped (w_store w) = false;
  cl_cooldown : free (_cooldowns (w_store w) !! LaunchEvent.mint event) (_reads (w_store w)) hi;
  cl_signal : ∃ e n, _signals (w_store w) !! LaunchEvent.mint event = Some (signal, e) ∧
                (_reads (w_store w) ≤ n < hi)%nat ∧ _clock n < e;
  cl_threshold : fltb (ds_p_calibrated signal) (RiskConfig.snipe_threshold (_config loop)) = false;
  cl_staleness : LaunchEvent.data_staleness_ms event ≤ 5000;
  cl_veto : free (_veto_flags (w_store w) !! LaunchEvent.mint event) (_reads (w_store w)) hi;
  cl_gate : ∀ g, _gate loop = Some g → g event = true;
  cl_size : size_entry loop signal (aggregate (w_store w)) = Ok sol_in ∧ 0 < sol_in;
  cl_fresh : free (_seen_intents (w_store w) !! intent_id_of event) (_reads (w_store w)) hi;
  cl_unlocked : free (snd <$> _fsm_locks (w_store w) !! LaunchEvent.mint event) (_reads (w_store w)) hi
}.

Lemma gate_spec event signal t0 t1 w r w' :
  gate_and_size _clock loop event signal t0 t1 w = (r, w') →
  ∃ sol_in, stage_end event signal sol_in t0 t1 w w' r ∧ (_reads (w_store w) ≤ _reads (w_store w'))%nat ∧
  (w_sent w' ≠ w_sent w →
    (∀ g, _gate loop = Some g → g event = true) ∧
    (size_entry loop signal (aggregate (w_store w)) = Ok sol_in ∧ 0 < sol_in) ∧
    free (_seen_intents (w_store w) !! intent_id_of event) (_reads (w_store w)) (_reads (w_store w')) ∧
    free (snd <$> _fsm_locks (w_store w) !! LaunchEvent.mint event) (_reads (w_store w)) (_reads (w_store w'))).
Proof.
  unfold gate_and_size. destruct (match _gate loop with Some g => negb (g event) | None => false end) eqn:Eg.
  { destruct w; cbn. intros [= <- <-]. exists 0. split_and!; [by constructor|done|done]. }
  assert (∀ g, _gate loop = Some g → g event = true) as Hg.
  { intros g E. rewrite E in Eg. by apply negb_false_iff in Eg. }
  unfold with_store, mbind, M_bind, lift, get_aggregate_open_lamports, gets. cbn. fold (aggregate (w_store w)).
  destruct w as [s q l]; cbn. destruct (size_entry loop signal (aggregate s)) as [sol|e] eqn:Ez.
  2:{ intros [= <- <-]. exists 0. cbn. split_and!; [by constructor|done|done]. }
  destruct (sol <=? 0) eqn:E0; [cbn; intros [= <- <-]; exists 0; split_and!; [by constructor|done|done]|].
  apply Z.leb_gt in E0. intros Hm. exists sol.
  destruct (mark_spec event signal sol t0 t1 (mk_world s q l) r w' Hm) as (Hend & Hr & Hc).
  split_and!; [done|done|]. intros Hne. destruct (Hc Hne). done.
Qed.

#[local] Arguments gate_and_size : simpl never.

Lemma veto_spec event signal t0 t1 w r w' :
  after_signal _clock loop event signal t0 t1 w = (r, w') →
  ∃ sol_in, stage_end event signal sol_in t0 t1 w w' r ∧ (_reads (w_store w) ≤ _reads (w_store w'))%nat ∧
  (w_sent w' ≠ w_sent w →
    free (_veto_flags (w_store w) !! LaunchEvent.mint event) (_reads (w_store w)) (_reads (w_store w')) ∧
    (∀ g, _gate loop = Some g → g event = true) ∧
    (size_entry loop signal (aggregate (w_store w)) = Ok sol_in ∧ 0 < sol_in) ∧
    free (_seen_intents (w_store w) !! intent_id_of event) (_reads (w_store w)) (_reads (w_store w')) ∧
    free (snd <$> _fsm_locks (w_store w) !! LaunchEvent.mint event) (_reads (w_store w)) (_reads (w_store w'))).
Proof.
  destruct w as [s q l]. unfold after_signal, with_store, get_veto_flag, mbind, M_bind, mret, M_ret.
  rewrite ttl_get_eq. cbn.
  assert (∀ k, (_reads s ≤ k)%nat → free (_veto_flags s !! LaunchEvent.mint event) (_reads s) k → ∀ s2,
    _reads s2 = k → _positions s2 = _positions s → _fsm_locks s2 = _fsm_locks s → _seen_intents s2 = _seen_intents s →
    gate_and_size _clock loop event signal t0 t1 (mk_world s2 q l) = (r, w') →
    ∃ sol_in, stage_end event signal sol_in t0 t1 (mk_world s q l) w' r ∧ (_reads s ≤ _reads (w_store w'))%nat ∧
    (w_sent w' ≠ l →
      free (_veto_flags s !! LaunchEvent.mint event) (_reads s) (_reads (w_store w')) ∧
      (∀ g, _gate loop = Some g → g event = true) ∧
      (size_entry loop signal (aggregate s) = Ok sol_in ∧ 0 < sol_in) ∧
      free (_seen_intents s !! intent_id_of event) (_reads s) (_reads (w_store w')) ∧
      free (snd <$> _fsm_locks s !! LaunchEvent.mint event) (_reads s) (_reads (w_store w')))) as Hgo.
  { intros k Hk Hfree s2 Hr2 Hp2 Hl2 Hs2 Hm.
    destruct (gate_spec event signal t0 t1 (mk_world s2 q l) r w' Hm) as (sol & Hend & Hr & Hc). exists sol.
    unfold aggregate in *. cbn in *. rewrite Hr2, Hl2, Hs2, Hp2 in *.
    split_and!; [by eapply stage_end_frame; [| |exact Hend]|lia|]. intros Hne.
    destruct (Hc Hne) as (H1 & [H2 H2'] & H3 & H4). split_and!; try done; eapply free_mono; try eassumption; lia. }
  destruct (_veto_flags s !! LaunchEvent.mint event) as [e|] eqn:El; cbn in *.
  - destruct (e <=? _clock (_reads s)) eqn:Ee; cbn.
    + apply (Hgo (S (_reads s))); cbn; try done; [lia|]. apply (free_expired _ _ _ (_reads s)); [lia|done].
    + intros [= <- <-]. cbn. exists 0. split_and!; [by constructor|lia|done].
  - apply (Hgo (_reads s)); cbn; try apply free_none; done.
Qed.

#[local] Arguments after_signal : simpl never.

(** A signal for the skips that come before one is read. *)
Definition no_signal : DecisionSignal := mk_signal "" (S754_zero false) (S754_zero false) "".

Lemma check_spec event signal t0 t1 w r w' :
  check_signal _clock loop event signal t0 t1 w = (r, w') →
  ∃ sol_in, stage_end event signal sol_in t0 t1 w w' r ∧ (_reads (w_store w) ≤ _reads (w_store w'))%nat ∧
  (w_sent w' ≠ w_sent w →
    (fltb (ds_p_calibrated signal) (RiskConfig.snipe_threshold (_config loop)) = false ∧
     LaunchEvent.data_staleness_ms event ≤ 5000) ∧
    free (_veto_flags (w_store w) !! LaunchEvent.mint event) (_reads (w_store w)) (_reads (w_store w')) ∧
    (∀ g, _gate loop = Some g → g event = true) ∧
    (size_entry loop signal (aggregate (w_store w)) = Ok sol_in ∧ 0 < sol_in) ∧
    free (_seen_intents (w_store w) !! intent_id_of event) (_reads (w_store w)) (_reads (w_store w')) ∧
    free (snd <$> _fsm_locks (w_store w) !! LaunchEvent.mint event) (_reads (w_store w)) (_reads (w_store w'))).
Proof.
  unfold check_signal. destruct (fltb _ _) eqn:Et.
  { destruct w; cbn; intros [= <- <-]; exists 0; split_and!; [by constructor|done|done]. }
  destruct (5000 <? _) eqn:Es.
  { destruct w; cbn; intros [= <- <-]; exists 0; split_and!; [by constructor|done|done]. }
  apply Z.ltb_ge in Es. intros Hm. destruct (veto_spec event signal t0 t1 w r w' Hm) as (sol & ? & ? & Hc).
  exists sol. split_and!; [done|done|]. intros Hne. by destruct (Hc Hne).
Qed.

#[local] Arguments check_signal : simpl never.

Lemma read_spec event t0 t1 w w0 r w' :
  read_signal _clock loop event t0 t1 w = (r, w') →
  breaker_tripped (w_store w0) = false →
  free (_cooldowns (w_store w0) !! LaunchEvent.mint event) (_reads (w_store w0)) (_reads (w_store w)) →
  (_reads (w_store w0) ≤ _reads (w_store w))%nat → w_sent w = w_sent w0 →
  _positions (w_store w) = _positions (w_store w0) → _fsm_locks (w_store w) = _fsm_locks (w_store w0) →
  _seen_intents (w_store w) = _seen_intents (w_store w0) → _signals (w_store w) = _signals (w_store w0) →
  _veto_flags (w_store w) = _veto_flags (w_store w0) →
  ∃ signal sol_in, stage_end event signal sol_in t0 t1 w0 w' r ∧
    (w_sent w' ≠ w_sent w0 → cleared event signal sol_in w0 (_reads (w_store w'))).
Proof.
  destruct w as [s q l], w0 as [s0 q0 l0]; cbn. intros Hm Hb Hcool Hr Hl Hp Hk Hi Hs Hv. subst l0.
  unfold read_signal, with_store, get_decision_signal, mbind, M_bind, mret, M_ret in Hm.
  rewrite ttl_get_eq in Hm. cbn in Hm. rewrite Hs in Hm.
  destruct (_signals s0 !! LaunchEvent.mint event) as [[sg e]|] eqn:El; cbn in Hm.
  2:{ unfold skip in Hm. mstep. simplify_eq. exists no_signal, 0. split; [by constructor|done]. }
  destruct (e <=? _clock (_reads s)) eqn:Ee; cbn in Hm.
  { unfold skip in Hm. mstep. simplify_eq. exists no_signal, 0. split; [by constructor|done]. }
  apply Z.leb_gt in Ee. exists sg.
  destruct (check_spec event sg t0 t1 _ _ _ Hm) as (sol & Hend & Hr' & Hc). exists sol. cbn in *.
  split; [by eapply stage_end_frame; [| |exact Hend]|]. intros Hne. destruct (Hc Hne) as ([H1 H2] & H3 & H4 & H5 & H6 & H7).
  unfold aggregate in *. cbn in *. rewrite ?Hp, ?Hk, ?Hi, ?Hv in *. unfold aggregate. cbn.
  constructor; cbn; try done; try (eapply free_mono; try eassumption; lia).
  exists e, (_reads s). split; [done|]. split; [lia|done].
Qed.

Lemma process_spec event t0 t1 w r w' :
  process_event _clock loop event t0 t1 w = (r, w') →
  ∃ signal sol_in, stage_end event signal sol_in t0 t1 w w' r ∧
    (w_sent w' ≠ w_sent w → cleared event signal sol_in w (_reads (w_store w'))).
Proof.
  destruct w as [s q l]. unfold process_event, with_store, load_breaker_state, gets, in_cooldown.
  unfold mbind, M_bind, mret, M_ret. cbn.
  change (match _breaker s with Some b => bool_decide (BreakerState.state b = TRIPPED) | None => false end)
    with (breaker_tripped s).
  destruct (breaker_tripped s) eqn:Eb; [cbn; intros [= <- <-]; exists no_signal, 0; split; [by constructor|done]|].
  rewrite ttl_get_eq. cbn. destruct (_cooldowns s !! LaunchEvent.mint event) as [e|] eqn:El; cbn.
  2:{ intros Hm. eapply read_spec; [exact Hm|..]; cbn; rewrite ?El; try apply free_none; done. }
  destruct (e <=? _clock (_reads s)) eqn:Ee; cbn.
  2:{ intros [= <- <-]. exists no_signal, 0. split; [by constructor|done]. }
  intros Hm. eapply read_spec; [exact Hm|..]; cbn; rewrite ?El; try done; [|lia].
  apply (free_expired _ _ _ (_reads s)); [lia|done].
Qed.

(** C4: the venue is asked to enter only when every guard passed: breaker not
    tripped, no cooldown, a live signal at or above the threshold, data at most
    5 seconds old, no live veto, the safety gate open, a positive size, a fresh
    intent, a free mint, an edge above the total cost and the latency budget
    kept. The one intent sent then targets slot + 6 under the deterministic id
    of (mint, slot), and the ENTERING record and the lock are already stored. *)
Theorem entry_requires_every_guard event t0 t1 w r w' :
  process_event _clock loop event t0 t1 w = (r, w') → w_sent w' ≠ w_sent w →
  ∃ signal sol_in stop cost expiry,
    cleared event signal sol_in w (_reads (w_store w')) ∧ in_budget t0 t1 ∧ 1 ≤ stop ∧
    CostStack.total_cost_bps cost < CostStack.expected_edge_bps cost ∧
    w_sent w' = w_sent w ++ [intent_for event sol_in cost] ∧
    _positions (w_store w') =
      dset (LaunchEvent.mint event) (entering_record event signal sol_in stop cost) (_positions (w_store w)) ∧
    _fsm_locks (w_store w') !! LaunchEvent.mint event = Some (intent_id_of event, expiry) ∧
    r = answer_of w (intent_for event sol_in cost) event.
Proof.
  intros Hp Hne. destruct (process_spec event t0 t1 w r w' Hp) as (signal & sol & Hend & Hc). specialize (Hc Hne).
  destruct Hend; try done. eauto 20.
Qed.

(** An event that is skipped, or raises before submission, sends nothing;
    the stored positions stay exactly as they were, except that a blown
    latency budget removes the mint's record and its lock. *)
Theorem skips_leave_positions event t0 t1 w r w' :
  process_event _clock loop event t0 t1 w = (r, w') →
  (∀ f, r = Ok (Filled f) → w_sent w' ≠ w_sent w) ∧
  (∀ reason, r = Ok (Skipped reason) → w_sent w' = w_sent w ∧
     _positions (w_store w') =
       (if decide (reason = BUDGET_BLOWN) then dpop (LaunchEvent.mint event) (_positions (w_store w))
        else _positions (w_store w))) ∧
  (∀ e, r = Raise e → w_sent w' = w_sent w → _positions (w_store w') = _positions (w_store w)).
Proof.
  intros Hp. destruct (process_spec event t0 t1 w r w' Hp) as (signal & sol & Hend & _).
  destruct Hend as [reason Hr Hs Hpos|e Hs Hpos|p Hm Hb Hs Hpos Hl|stop cost expiry Hb H1 Hc Hs Hpos Hl].
  - split_and!; [done| |done]. intros ? [= <-]. by rewrite decide_False.
  - split_and!; [done|done|]. by intros ? [= <-].
  - split_and!; [done| |done]. intros ? [= <-]. rewrite decide_True by done. by rewrite Hpos, dpop_dset.
  - assert (w_sent w' ≠ w_sent w) as Hne.
    { rewrite Hs. intros H. apply (f_equal length) in H. rewrite length_app in H. cbn in H. lia. }
    split_and!; try done. intros reason. unfold answer_of. by destruct (venue_execute _ _ _ _).
Qed.

(** *** The aggregate cap *)

(** Positions and exposures within the configured caps. *)
Definition capped (w : World) : Prop :=
  Forall (λ p, 0 ≤ Position.sol_in_lamports p) (_positions (w_store w)).*2 ∧
  aggregate (w_store w) ≤ RiskConfig.max_aggregate_lamports (_config loop) ∧
  Forall (λ i, 0 < EntryIntent.sol_in_lamports i ≤ RiskConfig.per_trade_cap_lamports (_config loop)) (w_sent w).

(** One step of the program around the store: an event, a closed position, a
    stored record rewritten with the same stake (every state machine call on a
    live position), or a change to the rest of the store (claims, flags,
    signals, breaker). *)
Inductive world_step : World → World → Prop :=
| step_event event t0 t1 w : world_step w (snd (process_event _clock loop event t0 t1 w))
| step_close mint w w' :
    w_sent w' = w_sent w → _positions (w_store w') = dpop mint (_positions (w_store w)) → world_step w w'
| step_rewrite p p' w w' :
    dget (Position.mint p) (_positions (w_store w)) = Some p → Position.mint p' = Position.mint p →
    Position.sol_in_lamports p' = Position.sol_in_lamports p → w_sent w' = w_sent w →
    _positions (w_store w') = dset (Position.mint p') p' (_positions (w_store w)) → world_step w w'
| step_other w w' :
    w_sent w' = w_sent w → _positions (w_store w') = _positions (w_store w) → world_step w w'.

Lemma fallback_size_capped signal agg sol :
  _sizing loop = None → size_entry loop signal agg = Ok sol → 0 < sol →
  sol ≤ RiskConfig.per_trade_cap_lamports (_config loop) ∧
  agg + sol ≤ RiskConfig.max_aggregate_lamports (_config loop).
Proof. intros Hs. unfold size_entry. rewrite Hs. intros [= <-]. lia. Qed.

Lemma capped_step w w' : _sizing loop = None → world_step w w' → capped w → capped w'.
Proof.
  intros Hs Hstep (Hpos & Hagg & Hsent).
  destruct Hstep as [event t0 t1 w|mint w w' Hw Hw'|p p' w w' Hp Hm Hsol Hw Hw'|w w' Hw Hw'];
    [|unfold capped, aggregate in *; rewrite Hw, Hw'..].
  - destruct (process_event _clock loop event t0 t1 w) as [r w'] eqn:E. cbn.
    destruct (process_spec event t0 t1 w r w' E) as (signal & sol & Hend & Hc).
    destruct Hend as [reason Hr Hw Hw'|e Hw Hw'|p Hm Hb Hw Hw' Hl|stop cost expiry Hb H1 Hcost Hw Hw' Hl];
      unfold capped, aggregate in *; rewrite Hw, Hw'; try done.
    + rewrite dpop_dset. pose proof (zsum_dpop Position.sol_in_lamports (LaunchEvent.mint event) _ Hpos).
      split_and!; [by apply Forall_dpop|by etransitivity|done].
    + assert (w_sent w' ≠ w_sent w) as Hne.
      { rewrite Hw. intros H. apply (f_equal length) in H. rewrite length_app in H. cbn in H. lia. }
      destruct (Hc Hne) as [_ _ _ _ _ _ _ [Hz Hz0] _ _].
      destruct (fallback_size_capped signal _ sol Hs Hz Hz0) as [Ht Ha]. unfold aggregate in Ha.
      split_and!.
      * apply Forall_dset; [done|]. cbn. lia.
      * rewrite zsum_dset. cbn.
        assert (0 ≤ match dget (LaunchEvent.mint event) (_positions (w_store w)) with
                    | Some o => Position.sol_in_lamports o | None => 0 end).
        { destruct (dget _ _) eqn:Eg; [|done]. apply (dget_Forall _ _ _ _ Hpos Eg). }
        lia.
      * apply Forall_app. split; [done|]. constructor; [cbn; lia|done].
  - pose proof (zsum_dpop Position.sol_in_lamports mint _ Hpos).
    split_and!; [by apply Forall_dpop|by etransitivity|done].
  - pose proof (dget_Forall _ _ _ _ Hpos Hp) as H0. cbn in H0.
    split_and!; [apply Forall_dset; [done|lia]| |done]. rewrite zsum_dset, Hm, Hp. lia.
  - done.
Qed.

(** A run with the two totals the store does not keep: the stakes of the
    closed records, and the stakes a re-entry dropped from the store. *)
Record Run : Type := mk_run { run_world : World; run_closed : Z; run_dropped : Z }.

(** Everything handed to the venue and not closed yet, landed or not. *)
Definition open_exposure (x : Run) : Z :=
  zsum (EntryIntent.sol_in_lamports <$> w_sent (run_world x)) - run_closed x.

Definition stake_of (mint : string) (w : World) : Z :=
  match dget mint (_positions (w_store w)) with Some p => Position.sol_in_lamports p | None => 0 end.

(** The calls that end a position: a veto and a close that return. *)
Definition ends (op : fsm_op) (r : result unit) : bool :=
  match op with ToVetoed | ToClosed _ => is_ok r | _ => false end.

(** One step of a run.  An event of a mint with a stored record that is sent,
    or that blows the latency budget, overwrites or deletes that record; a state
    machine call on a stored record that ends the position closes its stake, and
    so does the reconciler's deletion of a record. *)
Inductive run_step : Run → Run → Prop :=
| run_event event t0 t1 r w w' c d :
    process_event _clock loop event t0 t1 w = (r, w') →
    dget (LaunchEvent.mint event) (_positions (w_store w)) = None ∨
      (w_sent w' = w_sent w ∧ r ≠ Ok (Skipped BUDGET_BLOWN)) →
    run_step (mk_run w c d) (mk_run w' c d)
| run_reentry event t0 t1 r w w' p c d :
    process_event _clock loop event t0 t1 w = (r, w') →
    dget (LaunchEvent.mint event) (_positions (w_store w)) = Some p →
    (w_sent w' ≠ w_sent w ∨ r = Ok (Skipped BUDGET_BLOWN)) →
    run_step (mk_run w c d) (mk_run w' c (d + Position.sol_in_lamports p))
| run_fsm op p r f w c d :
    dget (Position.mint p) (_positions (w_store w)) = Some p → exec op (mk_fsm (w_store w) p) = (r, f) →
    run_step (mk_run w c d)
      (mk_run (mk_world (_store f) (w_queue w) (w_sent w))
         (c + if ends op r then Position.sol_in_lamports p else 0) d)
| run_delete mint w c d :
    run_step (mk_run w c d) (mk_run (snd (with_store (delete_position mint) w)) (c + stake_of mint w) d)
| run_other w w' c d :
    w_sent w' = w_sent w → _positions (w_store w') = _positions (w_store w) →
    run_step (mk_run w c d) (mk_run w' c d).

(** What a call on a stored record does to the stored records. *)
Lemma exec_books op s p r f : exec op (mk_fsm s p) = (r, f) →
  if ends op r then _positions (_store f) = dpop (Position.mint p) (_positions s)
  else _positions (_store f) = _positions s ∨
    ∃ p', Position.mint p' = Position.mint p ∧ Position.sol_in_lamports p' = Position.sol_in_lamports p ∧
      _positions (_store f) = dset (Position.mint p') p' (_positions s).
Proof.
  destruct op; cbn [exec].
  - unfold transition_to_open. fsm_step. destruct (validate_fsm_transition _ _); intros [= <- <-]; cbn -[dset]; [|by left].
    right. eexists (Position.opened _ _ p). by split_and!.
  - unfold transition_to_vetoed. fsm_step. destruct (validate_fsm_transition _ _); intros [= <- <-]; cbn -[dset dpop]; [|by left].
    apply dpop_dset.
  - unfold transition_to_closing. fsm_step. destruct (validate_fsm_transition _ _); intros [= <- <-]; cbn -[dset]; [|by left].
    right. eexists (Position.with_state CLOSING p). by split_and!.
  - unfold transition_to_closed. fsm_step. destruct (validate_fsm_transition _ _); [|intros [= <- <-]; by left].
    destruct realized as [pnl|]; intros [= <- <-]; cbn -[dset dpop]; [apply dpop_dset|by left].
  - unfold update_unrealized_pnl. destruct u as [z|]; [|intros [= <- <-]; by left]. fsm_step.
    intros [= <- <-]. right. eexists (Position.with_unrealized z p). by split_and!.
  - unfold record_tp_hit. fsm_step. intros [= <- <-]. right. eexists (Position.with_tp_hit _ p). by split_and!.
  - unfold arm_trailing. fsm_step. destruct (Position.trailing_armed p); cbn -[dset]; intros [= <- <-]; [by left|].
    right. eexists (Position.with_trailing p). by split_and!.
Qed.

Lemma run_step_world x y : run_step x y → world_step (run_world x) (run_world y).
Proof.
  intros [event t0 t1 r w w' c d H _|event t0 t1 r w w' p c d H _ _|op p r f w c d Hp E|mint w c d|w w' c d H1 H2]; cbn [run_world].
  - replace w' with (snd (process_event _clock loop event t0 t1 w)) by (by rewrite H). constructor.
  - replace w' with (snd (process_event _clock loop event t0 t1 w)) by (by rewrite H). constructor.
  - pose proof (exec_books op _ p r f E) as H. destruct (ends op r); [by eapply step_close|].
    destruct H as [H|(p' & Hm & Hs & H)]; [by eapply step_other|by eapply step_rewrite].
  - by eapply step_close.
  - by eapply step_other.
Qed.

(** The books balance: what is open is what the store records plus what
    re-entries dropped. *)
Record balanced (x : Run) : Prop := {
  ba_keys : NoDup (_positions (w_store (run_world x))).*1;
  ba_capped : capped (run_world x);
  ba_open : open_exposure x = aggregate (w_store (run_world x)) + run_dropped x;
  ba_dropped : 0 ≤ run_dropped x
}.

(** The exposure and the stored keys after an event: an event that is sent or
    blows the budget loses the mint's old stake. *)
Lemma event_books event t0 t1 w r w' :
  NoDup (_positions (w_store w)).*1 → process_event _clock loop event t0 t1 w = (r, w') →
  NoDup (_positions (w_store w')).*1 ∧
  ∃ lost, zsum (EntryIntent.sol_in_lamports <$> w_sent w') - zsum (EntryIntent.sol_in_lamports <$> w_sent w) =
    aggregate (w_store w') - aggregate (w_store w) + lost ∧
  ((w_sent w' = w_sent w ∧ r ≠ Ok (Skipped BUDGET_BLOWN) ∧ lost = 0) ∨
   ((w_sent w' ≠ w_sent w ∨ r = Ok (Skipped BUDGET_BLOWN)) ∧ lost = stake_of (LaunchEvent.mint event) w)).
Proof.
  intros Hnd E. destruct (process_spec event t0 t1 w r w' E) as (signal & sol & Hend & _).
  unfold aggregate, stake_of.
  destruct Hend as [reason Hr Hs Hpos|e Hs Hpos|p Hm Hb Hs Hpos Hl|stop cost expiry Hb H1 Hc Hs Hpos Hl];
    rewrite Hs, Hpos.
  - split; [done|]. exists 0. split; [lia|]. left. by split_and!; [|congruence|].
  - split; [done|]. exists 0. split; [lia|]. by left.
  - rewrite dpop_dset, zsum_dpop_eq by done.
    split; [by apply NoDup_dpop|]. eexists. split; [|right; split; [by right|done]]. lia.
  - rewrite zsum_dset, fmap_app, zsum_app. split; [by apply NoDup_dset|]. eexists.
    split; [|right; split; [left|done]]; [cbn; lia|].
    intros H. apply (f_equal length) in H. rewrite length_app in H. cbn in H. lia.
Qed.

Lemma balanced_step x y : _sizing loop = None → run_step x y → balanced x → balanced y.
Proof.
  intros Hz Hstep [Hnd Hcap Hopen Hd].
  pose proof (capped_step _ _ Hz (run_step_world x y Hstep) Hcap) as Hcap'.
  destruct Hstep as [event t0 t1 r w w' c d E Hfree|event t0 t1 r w w' p c d E Hp Hre|op p r f w c d Hp E|mint w c d|w w' c d Hw Hw'];
    unfold open_exposure in *; cbn [run_world run_closed run_dropped] in *.
  - destruct (event_books event t0 t1 w r w' Hnd E) as (Hnd' & lost & Hb & Hcase).
    assert (lost = 0) as ->.
    { destruct Hcase as [(_ & _ & ->)|[Hc ->]]; [done|]. unfold stake_of.
      destruct Hfree as [->|[Hs1 Hs2]]; [done|]. by destruct Hc. }
    split; cbn; try done. unfold open_exposure; cbn. lia.
  - destruct (event_books event t0 t1 w r w' Hnd E) as (Hnd' & lost & Hb & Hcase).
    assert (lost = Position.sol_in_lamports p) as ->.
    { destruct Hcase as [(H1 & H2 & _)|[_ ->]]; [by destruct Hre|]. unfold stake_of. by rewrite Hp. }
    destruct Hcap as [Hpos _]. pose proof (dget_Forall _ _ _ _ Hpos Hp) as H0. cbn in H0.
    split; cbn; [done|done|unfold open_exposure; cbn; lia|lia].
  - pose proof (exec_books op _ p r f E) as H.
    assert (NoDup (_positions (_store f)).*1 ∧
      aggregate (_store f) = aggregate (w_store w) - if ends op r then Position.sol_in_lamports p else 0) as [Hk Ha].
    { unfold aggregate. destruct (ends op r).
      - rewrite H, zsum_dpop_eq, Hp by done. split; [by apply NoDup_dpop|lia].
      - destruct H as [->|(p' & Hm & Hs & ->)]; [split; [done|lia]|].
        rewrite zsum_dset, Hm, Hp. split; [by apply NoDup_dset|lia]. }
    split; cbn [run_world run_dropped w_store]; [done|done| |done].
    unfold open_exposure; cbn [run_world run_closed w_sent w_store]. lia.
  - split; cbn -[dget dset dpop]; [by apply NoDup_dpop|done| |done].
    unfold open_exposure, aggregate, stake_of in *; cbn -[dget dset dpop zsum]. rewrite zsum_dpop_eq by done. lia.
  - split; cbn [run_world run_dropped]; [by rewrite Hw'|done| |done].
    unfold open_exposure, aggregate in *; cbn [run_world run_closed]. rewrite Hw, Hw'. lia.
Qed.

(** C10: the exposure caps, with the fallback sizing.  Start from a store
    whose records have unique mints, stay within the caps and account for every
    lamport sent.  Along every run of events, state machine calls on stored
    records, deletions and other store changes, the lamports handed to the venue and not closed are the recorded
    aggregate plus the stakes re-entries dropped; the recorded aggregate stays
    within [max_aggregate_lamports] and every intent within
    [per_trade_cap_lamports].  So without a re-entry on a stored position the
    real exposure never exceeds the cap, and with re-entries it exceeds it by at
    most the dropped stakes ([reentry_on_open_position] shows one). *)
Theorem exposure_stays_capped w0 x :
  _sizing loop = None →
  NoDup (_positions (w_store w0)).*1 → capped w0 →
  zsum (EntryIntent.sol_in_lamports <$> w_sent w0) = aggregate (w_store w0) →
  rtc run_step (mk_run w0 0 0) x →
  let cap := RiskConfig.max_aggregate_lamports (_config loop) in
  open_exposure x = aggregate (w_store (run_world x)) + run_dropped x ∧
  aggregate (w_store (run_world x)) ≤ cap ∧
  Forall (λ i, 0 < EntryIntent.sol_in_lamports i ≤ RiskConfig.per_trade_cap_lamports (_config loop))
    (w_sent (run_world x)) ∧
  0 ≤ run_dropped x ∧
  (run_dropped x = 0 → open_exposure x ≤ cap).
Proof.
  intros Hz Hnd Hcap Heq Hr cap.
  assert (balanced x) as [Hnd' (Hpos & Hagg & Hsent) Hopen Hd].
  { assert (balanced (mk_run w0 0 0)) as H0 by (split; unfold open_exposure; cbn; [done|done|lia|done]).
    revert H0. induction Hr as [|y z t Hyz _ IH]; [done|]. intros H. apply IH. by eapply balanced_step. }
  fold cap in Hagg. split_and!; try done. lia.
Qed.
End Spec.

(** *** A second event on an open position *)

Definition sample_event (slot : Z) : LaunchEvent.t :=
  LaunchEvent.mk "M" "prog" PUMPFUN (EventTime.mk slot 1767312000000 0) slot slot GEYSER 85000000000 1000000000000000
    6 10 2 "creator" None None 100.
Definition sample_signal : DecisionSignal :=
  mk_signal "M" (S754_finite false 8106479329266893 (-53)) (S754_zero false) "EH-001".
Definition sample_loop : SnipeLoop :=
  mk_snipe RiskConfig.defaults None None None 200000 10000 (Some 150) 30 10000000 "default" "sim"
    (λ _ _ _, Ok sample_fill).
Definition fresh_world : World :=
  mk_world (set_signals {["M" := (sample_signal, 1000000)]} StateStore_init) (Some (CandidateQueue.init 200)) [].

(** The fill consumer's call on the stored position. *)
Definition open_stored (mint : string) (fill : FillResult.t) (w : World) : World :=
  match dget mint (_positions (w_store w)) with
  | Some p => let '(_, f) := transition_to_open fill (mk_fsm (w_store w) p) in mk_world (_store f) (w_queue w) (w_sent w)
  | None => w
  end.

Definition after_first : World := open_stored "M" sample_fill (snd (process_event tick_clock sample_loop (sample_event 100) 0 5 fresh_world)).
Definition record_summary (w : World) : list (string * FSMState * Z * Z) :=
  (λ p, (Position.mint p, Position.fsm_state p, Position.sol_in_lamports p, Position.tokens_out_base p))
    <$> (_positions (w_store w)).*2.

(** An open position does not stop a second entry. [transition_to_open]
    releases the claim and [process_event] never looks at the stored
    positions, so the next event of the mint (a later slot, hence a fresh
    intent id) buys again: the OPEN record with its tokens is overwritten by
    an ENTERING one and the exposure of the first buy leaves the aggregate.
    If that second event blows the latency budget, the open position's record
    is deleted instead. *)
Theorem reentry_on_open_position :
  record_summary after_first = [("M", OPEN, 10000000, 1000)] ∧
  (let '(r, w) := process_event tick_clock sample_loop (sample_event 101) 20 25 after_first in
   r = Ok (Filled sample_fill) ∧ length (w_sent w) = 2%nat ∧
   record_summary w = [("M", ENTERING, 10000000, 0)] ∧ aggregate (w_store w) = 10000000) ∧
  (let '(r, w) := process_event tick_clock sample_loop (sample_event 101) 20 200 after_first in
   r = Ok (Skipped BUDGET_BLOWN) ∧ length (w_sent w) = 1%nat ∧ record_summary w = []).
Proof. vm_compute. repeat split. Qed.

(** *** Witnesses *)

Lemma entry_witness :
  let '(r, w') := process_event tick_clock sample_loop (sample_event 100) 0 5 fresh_world in
  ∃ sol, EntryIntent.sol_in_lamports <$> w_sent w' = [sol] ∧ 0 < sol.
Proof.
  destruct (process_event tick_clock sample_loop (sample_event 100) 0 5 fresh_world) as [r w'] eqn:E.
  destruct (entry_requires_every_guard tick_clock sample_loop (sample_event 100) 0 5 fresh_world r w' E)
    as (sg & sol & stop & cost & e & Hc & _ & _ & _ & Hs & _).
  { apply (f_equal (λ x, w_sent (snd x))) in E. cbn [snd] in E. rewrite <- E. vm_compute. discriminate. }
  exists sol. rewrite Hs. split; [reflexivity|]. apply (cl_size _ _ _ _ _ _ _ Hc).
Defined.

Lemma skips_witness :
  let '(r, w') := process_event tick_clock sample_loop (sample_event 101) 20 200 after_first in
  w_sent w' = w_sent after_first ∧ _positions (w_store w') = dpop "M" (_positions (w_store after_first)).
Proof.
  destruct (process_event tick_clock sample_loop (sample_event 101) 20 200 after_first) as [r w'] eqn:E.
  destruct (skips_leave_positions tick_clock sample_loop (sample_event 101) 20 200 after_first r w' E) as (_ & H & _).
  assert (r = Ok (Skipped BUDGET_BLOWN)) as Hr.
  { apply (f_equal fst) in E. cbn [fst] in E. rewrite <- E. vm_compute. reflexivity. }
  destruct (H BUDGET_BLOWN Hr) as [H1 H2]. split; [exact H1|]. exact H2.
Defined.

(** Two mints scored, and a loop whose aggregate cap is 0.015 SOL. *)
Definition two_mints : World :=
  mk_world (set_signals {["M" := (sample_signal, 1000000); "N" := (sample_signal, 1000000)]} StateStore_init) None [].
Definition event_of (mint : string) (slot : Z) : LaunchEvent.t :=
  LaunchEvent.mk mint "prog" PUMPFUN (EventTime.mk slot 1767312000000 0) slot slot GEYSER 85000000000 1000000000000000
    6 10 2 "creator" None None 100.
Definition small_cap : RiskConfig.t :=
  RiskConfig.mk 10000000 15000000 500000000 (mkdec 30 (-1)) 300000000 300
    (RiskConfig.snipe_threshold RiskConfig.defaults) (RiskConfig.veto_threshold RiskConfig.defaults)
    (mkdec 30 (-2)) (mkdec 25 (-2)) 1 100000000 60 150.
Definition small_loop : SnipeLoop :=
  mk_snipe small_cap None None None 200000 10000 (Some 150) 30 10000000 "default" "sim" (λ _ _ _, Ok sample_fill).
Definition after_event (mint : string) (slot : Z) (w : World) : World :=
  snd (process_event tick_clock small_loop (event_of mint slot) 0 5 w).
Definition open_m : World := open_stored "M" sample_fill (after_event "M" 100 two_mints).
Definition both_open : World := after_event "N" 100 open_m.
Definition m_closed : World := snd (with_store (delete_position "M") both_open).
Definition m_twice : World := open_stored "M" sample_fill (after_event "M" 101 open_m).
Definition m_thrice : World := after_event "M" 102 m_twice.

(** The one step of a run that sends [event_of mint slot] from [w]. *)
Lemma sent_step mint slot w c d :
  dget mint (_positions (w_store w)) = None →
  run_step tick_clock small_loop (mk_run w c d) (mk_run (after_event mint slot w) c d).
Proof.
  intros H. unfold after_event. destruct (process_event _ _ _ _ _ w) as [r w'] eqn:E.
  eapply run_event; [exact E|]. by left.
Qed.

Lemma resent_step mint slot w k c d :
  is_Some (dget mint (_positions (w_store w))) → stake_of mint w = k →
  w_sent (after_event mint slot w) ≠ w_sent w →
  run_step tick_clock small_loop (mk_run w c d) (mk_run (after_event mint slot w) c (d + k)).
Proof.
  intros [p H]. unfold stake_of. rewrite H. intros <-.
  unfold after_event. destruct (process_event _ _ _ _ _ w) as [r w'] eqn:E. intros Hne.
  eapply run_reentry; [exact E|done|by left].
Qed.

(** The fill consumer's call. *)
Lemma opened_step mint w c d :
  match dget mint (_positions (w_store w)) with Some p => Position.mint p = mint | None => False end →
  run_step tick_clock small_loop (mk_run w c d) (mk_run (open_stored mint sample_fill w) c d).
Proof.
  unfold open_stored. destruct (dget mint (_positions (w_store w))) as [p|] eqn:Hp; [|done]. intros Hm.
  destruct (transition_to_open sample_fill (mk_fsm (w_store w) p)) as [r f] eqn:E.
  replace c with (c + if ends (ToOpen sample_fill) r then Position.sol_in_lamports p else 0) at 2 by (cbn; lia).
  apply run_fsm; [by rewrite Hm|exact E].
Qed.

Lemma closed_step mint w k c d :
  stake_of mint w = k →
  run_step tick_clock small_loop (mk_run w c d) (mk_run (snd (with_store (delete_position mint) w)) (c + k) d).
Proof. intros <-. apply run_delete. Qed.

(** Without a re-entry: two buys, the second cut to the headroom, then a close,
    leave 0.005 SOL open.  With two re-entries 0.025 SOL is open under a cap of
    0.015 SOL, 0.01 SOL of it recorded. *)
Lemma exposure_witness :
  open_exposure (mk_run m_closed 10000000 0) = 5000000 ∧
  open_exposure (mk_run m_closed 10000000 0) ≤ 15000000 ∧
  open_exposure (mk_run m_thrice 0 15000000) = 25000000 ∧
  aggregate (w_store m_thrice) ≤ 15000000.
Proof.
  assert (NoDup (_positions (w_store two_mints)).*1) as Hnd by apply NoDup_nil_2.
  assert (capped small_loop two_mints) as Hcap by (split; [constructor|split; [discriminate|constructor]]).
  assert (rtc (run_step tick_clock small_loop) (mk_run two_mints 0 0) (mk_run open_m 0 0)) as Hopen.
  { eapply rtc_l; [apply (sent_step "M" 100); reflexivity|]. apply rtc_once.
    apply (opened_step "M"). vm_compute. reflexivity. }
  assert (rtc (run_step tick_clock small_loop) (mk_run two_mints 0 0) (mk_run m_closed 10000000 0)) as Ha.
  { etransitivity; [exact Hopen|]. eapply rtc_l; [apply (sent_step "N" 100); vm_compute; reflexivity|].
    apply rtc_once. apply (closed_step "M" both_open 10000000 0 0). vm_compute. reflexivity. }
  assert (rtc (run_step tick_clock small_loop) (mk_run two_mints 0 0) (mk_run m_thrice 0 15000000)) as Hb.
  { etransitivity; [exact Hopen|].
    eapply rtc_l; [apply (resent_step "M" 101 open_m 10000000);
      [vm_compute; eauto|vm_compute; reflexivity|vm_compute; discriminate]|].
    eapply rtc_l; [apply (opened_step "M"); vm_compute; reflexivity|].
    apply rtc_once. apply (resent_step "M" 102 m_twice 5000000 0 10000000);
      [vm_compute; eauto|vm_compute; reflexivity|vm_compute; discriminate]. }
  destruct (exposure_stays_capped tick_clock small_loop two_mints _ eq_refl Hnd Hcap eq_refl Ha) as (Ea & _ & _ & _ & La).
  destruct (exposure_stays_capped tick_clock small_loop two_mints _ eq_refl Hnd Hcap eq_refl Hb) as (Eb & Lb & _).
  split; [rewrite Ea; vm_compute; reflexivity|]. split; [exact (La eq_refl)|].
  split; [rewrite Eb; vm_compute; reflexivity|]. exact Lb.
Defined.
