(* ===== verification/Decoders.v ===== *)
(** * From transactions to launch events: [aats/ingestion/decoders.py] and
    [aats/ingestion/registry.py]

    The program registry, the four venue decoders and the router.  The clock
    is the sequence of its readings; log calls are left out. *)

From S2P Require Import Prelude Bytes Sha256 Decimal PyText PyParse UriShape Wire SignerEnforcer SignerProcess Intents Positions SnipeLoop.
From Stdlib Require Import Ascii.

Inductive EventKind : Type := KCreate | KInit | KBuy | KSell | KSwap | KWithdraw | KUnknown.
#[export] Instance EventKind_eq_dec : EqDecision EventKind.
Proof. solve_decision. Defined.
Definition WINDOW_OPENING_KINDS : list EventKind := [KCreate; KWithdraw; KInit].

#[export] Instance LaunchSource_eq_dec : EqDecision LaunchSource.
Proof. solve_decision. Defined.
#[export] Instance LaunchSource_countable : Countable LaunchSource.
Proof.
  refine (inj_countable' (λ s, match s with PUMPFUN => 0 | PUMPSWAP => 1 | RAYDIUM_V4 => 2 | RAYDIUM_CPMM => 3 | MIGRATION => 4 end)%nat
    (λ n, match n with 0 => PUMPFUN | 1 => PUMPSWAP | 2 => RAYDIUM_V4 | 3 => RAYDIUM_CPMM | _ => MIGRATION end)%nat _).
  by intros [].
Defined.

(** ** The registry *)

Module VenueEntry.
Record t : Type := mk {
  venue : LaunchSource; program_id : string; amm_fee_bps : Z; migration_target : option LaunchSource; status : string;
  last_verified_slot : Z
}.
End VenueEntry.

Module ProgramRegistry.
Record t : Type := mk { _entries : gmap LaunchSource VenueEntry.t; _by_pid : gmap string VenueEntry.t }.
Definition empty : t := mk ∅ ∅.

(** [registry._entries[venue] = entry; registry._by_pid[pid] = entry] *)
Definition add (e : VenueEntry.t) (r : t) : t :=
  mk (<[VenueEntry.venue e := e]> (_entries r)) (<[VenueEntry.program_id e := e]> (_by_pid r)).

(** An entry of the allowlist file; [None] is a missing key. *)
Record prog_entry : Type := mk_prog { p_venue : option string; p_status : option string; p_program_id : option string }.

Definition venue_name_map (name : string) : option LaunchSource :=
  if bool_decide (name = "pump.fun") then Some PUMPFUN else if bool_decide (name = "pumpswap") then Some PUMPSWAP
  else if bool_decide (name = "raydium_v4") then Some RAYDIUM_V4 else if bool_decide (name = "raydium_cpmm") then Some RAYDIUM_CPMM
  else None.
Definition amm_fees (v : LaunchSource) : Z := match v with PUMPFUN => 100 | MIGRATION => 0 | _ => 25 end.
Definition migration_targets (v : LaunchSource) : option LaunchSource := match v with PUMPFUN => Some PUMPSWAP | _ => None end.

(** [verifier(pid)]; a raise is a failed verification. *)
Definition verified (verifier : option (string → result bool)) (pid : string) : bool :=
  match verifier with
  | None => true
  | Some f => match f pid with Ok ok => ok | Raise _ => false end
  end.

Fixpoint from_allowlist (allowed_programs : list prog_entry) (verifier : option (string → result bool))
    (filter_active_only : bool) (registry : t) : result t :=
  match allowed_programs with
  | [] => Ok registry
  | p :: ps =>
      match p_venue p ≫= venue_name_map with
      | None => from_allowlist ps verifier filter_active_only registry
      | Some venue =>
          let status := default "candidate" (p_status p) in
          if filter_active_only && negb (bool_decide (status = "active")) then from_allowlist ps verifier filter_active_only registry
          else
            match p_program_id p with
            | None => Raise (KeyError "program_id")
            | Some pid =>
                if verified verifier pid
                then from_allowlist ps verifier filter_active_only
                       (add (VenueEntry.mk venue pid (amm_fees venue) (migration_targets venue) status 0) registry)
                else from_allowlist ps verifier filter_active_only registry
            end
      end
  end.

Definition from_dict (entries : list (LaunchSource * string)) : t :=
  fold_left (λ r '(venue, pid), add (VenueEntry.mk venue pid 25 None "active" 0) r) entries empty.

Definition program_id (r : t) (v : LaunchSource) : result string :=
  match _entries r !! v with Some e => Ok (VenueEntry.program_id e) | None => Raise (KeyError "venue") end.
Definition venue_for_pid (r : t) (pid : string) : option LaunchSource := VenueEntry.venue <$> _by_pid r !! pid.
Definition entry (r : t) (v : LaunchSource) : option VenueEntry.t := _entries r !! v.
Definition active_program_ids (r : t) : list string := (λ p, VenueEntry.program_id p.2) <$> map_to_list (_entries r).
Definition __contains__ (r : t) (pid : string) : bool := bool_decide (is_Some (_by_pid r !! pid)).
End ProgramRegistry.

(** ** Transactions *)

Module RawInstruction.
Record t : Type := mk { program_id : string; data_b64 : string; account_keys : list string; program_index : Z }.
End RawInstruction.
Module RawTransaction.
Record t : Type := mk {
  signature : string; slot : Z; block_time_unix_s : option Z; fee_payer : string;
  instructions : list RawInstruction.t; inner_instructions : list RawInstruction.t; program_logs : list string;
  is_vote : bool; err : option string
}.
End RawTransaction.

Definition _disc (name : string) : bytes := take 8 (sha256 (encode ("global:" +:+ name))).
Definition PUMP_DISC_CREATE : bytes := _disc "create".
Definition PUMP_DISC_BUY : bytes := _disc "buy".
Definition PUMP_DISC_SELL : bytes := _disc "sell".
Definition PUMP_DISC_WITHDRAW : bytes := _disc "withdraw".
Definition PUMPSWAP_DISC_CREATE_POOL : bytes := _disc "create_pool".
Definition PUMPSWAP_DISC_BUY : bytes := _disc "buy".
Definition PUMPSWAP_DISC_SELL : bytes := _disc "sell".
Definition RAYDIUM_V4_DISC_INIT2 : bytes := [1].
Definition RAYDIUM_V4_DISC_SWAP : bytes := [9].
Definition RAYDIUM_V4_DISC_SWAP2 : bytes := [10].
Definition CPMM_DISC_INITIALIZE : bytes := _disc "initialize".
Definition CPMM_DISC_SWAP_INPUT : bytes := _disc "swap_base_input".
Definition CPMM_DISC_SWAP_OUTPUT : bytes := _disc "swap_base_output".

(** The account indices that are used. *)
Definition PUMP_CREATE_ACCOUNT_IDX_MINT : nat := 1.
Definition PUMP_CREATE_ACCOUNT_IDX_PAYER : nat := 0.
Definition PUMP_CREATE_ACCOUNT_IDX_MPL_METADATA_PROGRAM : nat := 5.
Definition PUMP_BUY_ACCOUNT_IDX_MINT : nat := 2.
Definition PUMP_BUY_ACCOUNT_IDX_USER : nat := 6.
Definition PUMP_SELL_ACCOUNT_IDX_MINT : nat := 2.
Definition PUMP_SELL_ACCOUNT_IDX_USER : nat := 6.
Definition PUMP_WITHDRAW_ACCOUNT_IDX_MINT : nat := 2.
Definition PSWAP_CREATE_ACCOUNT_IDX_BASE_MINT : nat := 3.
Definition PSWAP_CREATE_ACCOUNT_IDX_CREATOR : nat := 1.
Definition RAY_V4_INIT_ACCOUNT_IDX_COIN_MINT : nat := 8.
Definition RAY_V4_INIT_ACCOUNT_IDX_PC_MINT : nat := 9.
Definition RAY_V4_SWAP_ACCOUNT_IDX_AMM_ID : nat := 1.
Definition RAY_V4_SWAP_ACCOUNT_IDX_USER_OWNER : nat := 16.
Definition CPMM_INIT_ACCOUNT_IDX_CREATOR : nat := 1.
Definition CPMM_INIT_ACCOUNT_IDX_TOKEN0 : nat := 4.
Definition CPMM_INIT_ACCOUNT_IDX_TOKEN1 : nat := 5.
Definition SOL_MINT : string := "So11111111111111111111111111111111111111112".

(** [binascii.a2b_base64(s, strict_mode=False)]: characters outside the
    alphabet and early padding are skipped. *)
Fixpoint a2b_lax (cs : list ascii) (quad left pads : Z) : result bytes :=
  match cs with
  | [] => if quad =? 0 then Ok [] else Raise (ValueError "Incorrect padding")
  | c :: cs =>
      if bool_decide (c = "="%char) then
        if 2 <=? quad then if 4 <=? quad + (pads + 1) then Ok [] else a2b_lax cs quad left (pads + 1)
        else a2b_lax cs quad left pads
      else
        match b64_value c with
        | None => a2b_lax cs quad left pads
        | Some v =>
            if quad =? 0 then a2b_lax cs 1 v 0
            else if quad =? 1 then rest ← a2b_lax cs 2 (v mod 16) 0; Ok (left * 4 + v / 16 :: rest)
            else if quad =? 2 then rest ← a2b_lax cs 3 (v mod 4) 0; Ok (left * 16 + v / 4 :: rest)
            else rest ← a2b_lax cs 0 0 0; Ok (left * 64 + v :: rest)
        end
  end.

(** [base64.b64decode(s)] *)
Definition _b64_decode (s : string) : result bytes :=
  if string_forallb is_ascii s then a2b_lax (String.list_ascii_of_string s) 0 0 0
  else Raise (ValueError "string argument should contain only ASCII characters").

Definition _safe_get_account (accounts : list string) (idx : nat) : option string := accounts !! idx.
(** [x or d] *)
Definition or_else (x : option string) (d : string) : string :=
  match x with Some s => if bool_decide (s = "") then d else s | None => d end.
(** [data[:len(d)] == d] *)
Definition has_disc (d data : bytes) : bool := bool_decide (take (length d) data = d).

Definition STALENESS_UNKNOWN : Z := -1.

(** What the decoders take from the interpreter: the n-th wall-clock reading
    in milliseconds and the netloc test of [UriShape]. *)
Class Platform := { clock : nat → Z; netloc_ok : string → bool }.

Section Decode.
Context `{Platform}.

Definition _now_ms : M nat Z := λ n, (Ok (clock n), S n).

Definition _make_event_time (slot : Z) (block_time_unix_s : option Z) : M nat (option EventTime.t) :=
  wall_ms ← _now_ms;
  match block_time_unix_s with
  | None => mret None
  | Some s =>
      if s <=? 0 then mret None
      else e ← lift (EventTime.new slot (s * 1000) wall_ms); mret (Some e)
  end.

Definition _staleness_ms (event_time : option EventTime.t) : M nat Z :=
  match event_time with
  | None => mret STALENESS_UNKNOWN
  | Some e => now ← _now_ms; mret (Z.max 0 (now - EventTime.block_time_ms e))
  end.

Fixpoint _find_mpl_metadata_uri (inner_instructions : list RawInstruction.t) (mpl_metadata_program_id : option string)
    : result (option string) :=
  match mpl_metadata_program_id with
  | None => Ok None
  | Some pid =>
      if bool_decide (pid = "") then Ok None
      else
        match inner_instructions with
        | [] => Ok None
        | inner_ix :: inner_instructions =>
            if negb (bool_decide (RawInstruction.program_id inner_ix = pid))
            then _find_mpl_metadata_uri inner_instructions mpl_metadata_program_id
            else
              match _b64_decode (RawInstruction.data_b64 inner_ix) with
              | Raise _ => _find_mpl_metadata_uri inner_instructions mpl_metadata_program_id
              | Ok data =>
                  uri ← _parse_mpl_create_metadata_uri data;
                  match uri with
                  | Some uri => Ok (Some uri)
                  | None => _find_mpl_metadata_uri inner_instructions mpl_metadata_program_id
                  end
              end
        end
  end.

(** What every [_try_*] ends with: the event time, and the event when there is
    one. *)
Definition launch (pid : string) (tx : RawTransaction.t) (transport : DetectionTransport) (source : LaunchSource)
    (mint : string) (sol token decimals : Z) (creator : string) (fingerprint : option string) : M nat (option LaunchEvent.t) :=
  event_time ← _make_event_time (RawTransaction.slot tx) (RawTransaction.block_time_unix_s tx);
  match event_time with
  | None => mret None
  | Some et =>
      staleness ← _staleness_ms (Some et);
      e ← lift (LaunchEvent._slot_ordering (LaunchEvent.mk mint pid source et (RawTransaction.slot tx) (RawTransaction.slot tx)
        transport sol token decimals 0 0 creator None fingerprint staleness));
      mret (Some e)
  end.

(** [try: data = _b64_decode(...) except Exception: return None], then the rest. *)
Definition with_data (ix : RawInstruction.t) (body : bytes → M nat (option LaunchEvent.t)) : M nat (option LaunchEvent.t) :=
  match _b64_decode (RawInstruction.data_b64 ix) with Raise _ => mret None | Ok data => body data end.

(** The loop over the instructions of one program. *)
Fixpoint first_event (try : RawInstruction.t → M nat (option LaunchEvent.t)) (kind : EventKind) (ixs : list RawInstruction.t)
    : M nat (option (LaunchEvent.t * EventKind)) :=
  match ixs with
  | [] => mret None
  | ix :: ixs =>
      ev ← try ix;
      match ev with Some e => mret (Some (e, kind)) | None => first_event try kind ixs end
  end.

(** The attempts of a decoder in order of priority. *)
Fixpoint first_of (attempts : list (M nat (option (LaunchEvent.t * EventKind)))) : M nat (option (LaunchEvent.t * EventKind)) :=
  match attempts with
  | [] => mret None
  | a :: attempts => r ← a; match r with Some x => mret (Some x) | None => first_of attempts end
  end.

Definition program_ixs (pid : string) (tx : RawTransaction.t) : list RawInstruction.t :=
  filter (λ ix, RawInstruction.program_id ix = pid) (RawTransaction.instructions tx ++ RawTransaction.inner_instructions tx).

End Decode.

Module PumpFunDecoder.
Section Ix.
Context `{Platform} (pid : string) (tx : RawTransaction.t) (transport : DetectionTransport) (ix : RawInstruction.t).
Abbreviation account := (_safe_get_account (RawInstruction.account_keys ix)).

Definition _try_create : M nat (option LaunchEvent.t) := with_data ix (λ data,
  if negb (has_disc PUMP_DISC_CREATE data) then mret None
  else
    match account PUMP_CREATE_ACCOUNT_IDX_MINT, account PUMP_CREATE_ACCOUNT_IDX_PAYER with
    | Some mint, Some creator =>
        metadata_uri ← lift (_find_mpl_metadata_uri (RawTransaction.inner_instructions tx)
          (account PUMP_CREATE_ACCOUNT_IDX_MPL_METADATA_PROGRAM));
        launch pid tx transport PUMPFUN mint 0 0 6 creator (_deploy_template_fingerprint_from_uri netloc_ok metadata_uri)
    | _, _ => mret None
    end).

Definition trade (disc : bytes) (mint_idx user_idx : nat) : M nat (option LaunchEvent.t) := with_data ix (λ data,
  if negb (has_disc disc data) then mret None
  else if zlen data <? 24 then mret None
  else
    token_amount ← lift (unpack_from 8 data 8);
    sol_amount ← lift (unpack_from 8 data 16);
    match account mint_idx with
    | None => mret None
    | Some mint => launch pid tx transport PUMPFUN mint sol_amount token_amount 6 (or_else (account user_idx) "") None
    end).
Definition _try_buy : M nat (option LaunchEvent.t) := trade PUMP_DISC_BUY PUMP_BUY_ACCOUNT_IDX_MINT PUMP_BUY_ACCOUNT_IDX_USER.
Definition _try_sell : M nat (option LaunchEvent.t) := trade PUMP_DISC_SELL PUMP_SELL_ACCOUNT_IDX_MINT PUMP_SELL_ACCOUNT_IDX_USER.

Definition _try_withdraw : M nat (option LaunchEvent.t) := with_data ix (λ data,
  if negb (has_disc PUMP_DISC_WITHDRAW data) then mret None
  else
    match account PUMP_WITHDRAW_ACCOUNT_IDX_MINT with
    | None => mret None
    | Some mint =>
        launch pid tx transport MIGRATION mint 0 0 6 (RawTransaction.fee_payer tx)
          (Some (_fingerprint_by_creator_mint (RawTransaction.fee_payer tx) mint))
    end).
End Ix.

Definition decode `{Platform} (r : ProgramRegistry.t) (tx : RawTransaction.t) (transport : DetectionTransport)
    : M nat (option (LaunchEvent.t * EventKind)) :=
  match ProgramRegistry.program_id r PUMPFUN with
  | Raise _ => mret None
  | Ok pid =>
      let pump_ixs := program_ixs pid tx in
      first_of [first_event (_try_withdraw pid tx transport) KWithdraw pump_ixs;
                first_event (_try_create pid tx transport) KCreate pump_ixs;
                first_event (_try_buy pid tx transport) KBuy pump_ixs;
                first_event (_try_sell pid tx transport) KSell pump_ixs]
  end.
End PumpFunDecoder.

Module PumpSwapDecoder.
Section Ix.
Context `{Platform} (pid : string) (tx : RawTransaction.t) (transport : DetectionTransport) (ix : RawInstruction.t).
Abbreviation account := (_safe_get_account (RawInstruction.account_keys ix)).

Definition _try_create_pool : M nat (option LaunchEvent.t) := with_data ix (λ data,
  if negb (has_disc PUMPSWAP_DISC_CREATE_POOL data) then mret None
  else if zlen data <? 24 then mret None
  else
    base_amount ← lift (unpack_from 8 data 8);
    quote_amount ← lift (unpack_from 8 data 16);
    let creator := or_else (account PSWAP_CREATE_ACCOUNT_IDX_CREATOR) (RawTransaction.fee_payer tx) in
    match account PSWAP_CREATE_ACCOUNT_IDX_BASE_MINT with
    | None => mret None
    | Some base_mint =>
        launch pid tx transport PUMPSWAP base_mint quote_amount base_amount 6 creator (Some (_fingerprint_by_creator_mint creator base_mint))
    end).

Definition _try_swap : M nat (option LaunchEvent.t) := with_data ix (λ data,
  if negb (has_disc PUMPSWAP_DISC_BUY data || has_disc PUMPSWAP_DISC_SELL data) then mret None
  else if zlen data <? 24 then mret None
  else
    base_amount ← lift (unpack_from 8 data 8);
    quote_amount ← lift (unpack_from 8 data 16);
    match account 2 with
    | None => mret None
    | Some base_mint =>
        launch pid tx transport PUMPSWAP base_mint quote_amount base_amount 6 (or_else (account 1) (RawTransaction.fee_payer tx)) None
    end).
End Ix.

Definition decode `{Platform} (r : ProgramRegistry.t) (tx : RawTransaction.t) (transport : DetectionTransport)
    : M nat (option (LaunchEvent.t * EventKind)) :=
  match ProgramRegistry.program_id r PUMPSWAP with
  | Raise _ => mret None
  | Ok pid =>
      let ixs := program_ixs pid tx in
      first_of [first_event (_try_create_pool pid tx transport) KInit ixs; first_event (_try_swap pid tx transport) KSwap ixs]
  end.
End PumpSwapDecoder.

Module RaydiumV4Decoder.
Section Ix.
Context `{Platform} (pid : string) (tx : RawTransaction.t) (transport : DetectionTransport) (ix : RawInstruction.t).
Abbreviation account := (_safe_get_account (RawInstruction.account_keys ix)).

Definition _try_init2 : M nat (option LaunchEvent.t) := with_data ix (λ data,
  if negb (has_disc RAYDIUM_V4_DISC_INIT2 data) then mret None
  else
    match account RAY_V4_INIT_ACCOUNT_IDX_COIN_MINT with
    | None => mret None
    | Some coin_mint =>
        let pc_mint := account RAY_V4_INIT_ACCOUNT_IDX_PC_MINT in
        let creator := RawTransaction.fee_payer tx in
        let sol_mint_is_coin := bool_decide (coin_mint = SOL_MINT) in
        let mint := if sol_mint_is_coin then pc_mint else Some coin_mint in
        '(sol_lamports, token_base) ←
          (if 26 <=? zlen data then
             init_pc_amount ← lift (unpack_from 8 data 10);
             init_coin_amount ← lift (unpack_from 8 data 18);
             mret (if sol_mint_is_coin then (init_coin_amount, init_pc_amount) else (init_pc_amount, init_coin_amount))
           else mret (0, 0));
        let mint := or_else mint coin_mint in
        launch pid tx transport RAYDIUM_V4 mint sol_lamports token_base 9 creator (Some (_fingerprint_by_creator_mint creator mint))
    end).

Definition _try_swap : M nat (option LaunchEvent.t) := with_data ix (λ data,
  if negb (has_disc RAYDIUM_V4_DISC_SWAP data || has_disc RAYDIUM_V4_DISC_SWAP2 data) then mret None
  else if zlen data <? 17 then mret None
  else
    amount_in ← lift (unpack_from 8 data 1);
    min_out ← lift (unpack_from 8 data 9);
    launch pid tx transport RAYDIUM_V4 (or_else (account RAY_V4_SWAP_ACCOUNT_IDX_AMM_ID) "") amount_in min_out 9
      (or_else (account RAY_V4_SWAP_ACCOUNT_IDX_USER_OWNER) (RawTransaction.fee_payer tx)) None).
End Ix.

Definition decode `{Platform} (r : ProgramRegistry.t) (tx : RawTransaction.t) (transport : DetectionTransport)
    : M nat (option (LaunchEvent.t * EventKind)) :=
  match ProgramRegistry.program_id r RAYDIUM_V4 with
  | Raise _ => mret None
  | Ok pid =>
      let ixs := program_ixs pid tx in
      first_of [first_event (_try_init2 pid tx transport) KInit ixs; first_event (_try_swap pid tx transport) KSwap ixs]
  end.
End RaydiumV4Decoder.

Module RaydiumCpmmDecoder.
Section Ix.
Context `{Platform} (pid : string) (tx : RawTransaction.t) (transport : DetectionTransport) (ix : RawInstruction.t).
Abbreviation account := (_safe_get_account (RawInstruction.account_keys ix)).

Definition _try_initialize : M nat (option LaunchEvent.t) := with_data ix (λ data,
  if negb (has_disc CPMM_DISC_INITIALIZE data) then mret None
  else if zlen data <? 24 then mret None
  else
    amount_0 ← lift (unpack_from 8 data 8);
    amount_1 ← lift (unpack_from 8 data 16);
    let token0 := account CPMM_INIT_ACCOUNT_IDX_TOKEN0 in
    let token1 := account CPMM_INIT_ACCOUNT_IDX_TOKEN1 in
    let creator := or_else (account CPMM_INIT_ACCOUNT_IDX_CREATOR) (RawTransaction.fee_payer tx) in
    let '(mint, sol_lamports, token_base) :=
      if bool_decide (token0 = Some SOL_MINT) then (or_else token1 "", amount_0, amount_1)
      else (or_else token0 "", amount_1, amount_0) in
    if bool_decide (mint = "") then mret None
    else launch pid tx transport RAYDIUM_CPMM mint sol_lamports token_base 9 creator (Some (_fingerprint_by_creator_mint creator mint))).

Definition _try_swap : M nat (option LaunchEvent.t) := with_data ix (λ data,
  if negb (has_disc CPMM_DISC_SWAP_INPUT data || has_disc CPMM_DISC_SWAP_OUTPUT data) then mret None
  else if zlen data <? 24 then mret None
  else
    amount_in ← lift (unpack_from 8 data 8);
    min_out ← lift (unpack_from 8 data 16);
    let input_mint := account 10 in
    let output_mint := account 11 in
    let user := or_else (account 0) (RawTransaction.fee_payer tx) in
    let mint := match (if bool_decide (input_mint = Some SOL_MINT) then output_mint else input_mint) with
                | Some m => m
                | None => or_else input_mint ""
                end in
    launch pid tx transport RAYDIUM_CPMM mint amount_in min_out 9 user None).
End Ix.

Definition decode `{Platform} (r : ProgramRegistry.t) (tx : RawTransaction.t) (transport : DetectionTransport)
    : M nat (option (LaunchEvent.t * EventKind)) :=
  match ProgramRegistry.program_id r RAYDIUM_CPMM with
  | Raise _ => mret None
  | Ok pid =>
      let ixs := program_ixs pid tx in
      first_of [first_event (_try_initialize pid tx transport) KInit ixs; first_event (_try_swap pid tx transport) KSwap ixs]
  end.
End RaydiumCpmmDecoder.

Module InstructionRouter.
Definition decoders `{Platform} : list (ProgramRegistry.t → RawTransaction.t → DetectionTransport → M nat (option (LaunchEvent.t * EventKind))) :=
  [PumpFunDecoder.decode; PumpSwapDecoder.decode; RaydiumV4Decoder.decode; RaydiumCpmmDecoder.decode].

(** The loop over the decoders; one that raises is skipped. *)
Fixpoint try_decoders (ds : list (M nat (option (LaunchEvent.t * EventKind)))) : M nat (option (LaunchEvent.t * EventKind)) := λ n,
  match ds with
  | [] => (Ok None, n)
  | d :: ds =>
      match d n with
      | (Ok (Some x), n) => (Ok (Some x), n)
      | (Ok None, n) | (Raise _, n) => try_decoders ds n
      end
  end.

Definition route `{Platform} (r : ProgramRegistry.t) (tx : RawTransaction.t) (transport : DetectionTransport)
    : M nat (option (LaunchEvent.t * EventKind)) :=
  if RawTransaction.is_vote tx || bool_decide (is_Some (RawTransaction.err tx)) then mret None
  else
    let all_pids := RawInstruction.program_id <$> (RawTransaction.instructions tx ++ RawTransaction.inner_instructions tx) in
    if negb (existsb (λ p, bool_decide (p ∈ ProgramRegistry.active_program_ids r)) all_pids) then mret None
    else try_decoders ((λ d, d r tx transport) <$> decoders).
End InstructionRouter.

(** ** base64 *)

(** What the strict decoder accepts the lenient one reads alike. *)
Lemma a2b_lax_strict cs quad left pads padding bs : a2b cs quad left pads padding = Ok bs → a2b_lax cs quad left pads = Ok bs.
Proof.
  revert quad left pads padding bs. induction cs as [|c cs IH]; intros quad left pads padding bs; cbn [a2b a2b_lax]; [done|].
  case_bool_decide.
  { destruct (2 <=? quad); cbn [andb]; [|by apply IH]. destruct (4 <=? quad + (pads + 1)); [by destruct cs|by apply IH]. }
  destruct (b64_value c) as [v|]; [|done]. destruct padding; [done|].
  destruct (quad =? 0); [by apply IH|].
  destruct (quad =? 1); [|destruct (quad =? 2)];
    (match goal with |- context [a2b cs ?q ?l ?p false] => destruct (a2b cs q l p false) as [rest|] eqn:E; [|done] end;
     intros [= <-]; by rewrite (IH _ _ _ _ _ E)).
Qed.

Lemma b64_char_ascii v : is_ascii (b64_char v) = true.
Proof.
  assert (forallb is_ascii b64_alphabet = true) as H by (vm_compute; reflexivity). rewrite forallb_forall in H.
  unfold b64_char. destruct (nth_in_or_default (Z.to_nat v) b64_alphabet "A"%char) as [Hin| ->]; [by apply H|done].
Qed.

Lemma b64_chars_ascii bs : string_forallb is_ascii (b64encode bs) = true.
Proof.
  unfold b64encode. remember (length bs) as n eqn:Hn. revert bs Hn.
  induction (lt_wf n) as [n _ IH]. intros [|a [|b [|c bs]]] ->;
    cbn -[b64_char]; rewrite ?b64_char_ascii; try done.
  rewrite !andb_true_l. apply (IH (length bs)); cbn; [lia|done].
Qed.

Lemma decode_encode bs : Forall byte_ok bs → _b64_decode (b64encode bs) = Ok bs.
Proof.
  intros Hb. unfold _b64_decode. rewrite b64_chars_ascii. pose proof (b64_decode_encode bs Hb) as H. unfold b64decode in H.
  apply (a2b_lax_strict _ _ _ _ false).
  destruct (String.list_ascii_of_string (b64encode bs)) as [|c cs]; [done|]. by destruct c as [[] [] [] [] [] [] [] []].
Qed.

(** ** The discriminators *)

Definition discriminators : list (LaunchSource * EventKind * bytes) :=
  [(PUMPFUN, KWithdraw, PUMP_DISC_WITHDRAW); (PUMPFUN, KCreate, PUMP_DISC_CREATE); (PUMPFUN, KBuy, PUMP_DISC_BUY);
   (PUMPFUN, KSell, PUMP_DISC_SELL); (PUMPSWAP, KInit, PUMPSWAP_DISC_CREATE_POOL); (PUMPSWAP, KSwap, PUMPSWAP_DISC_BUY);
   (PUMPSWAP, KSwap, PUMPSWAP_DISC_SELL); (RAYDIUM_V4, KInit, RAYDIUM_V4_DISC_INIT2); (RAYDIUM_V4, KSwap, RAYDIUM_V4_DISC_SWAP);
   (RAYDIUM_V4, KSwap, RAYDIUM_V4_DISC_SWAP2); (RAYDIUM_CPMM, KInit, CPMM_DISC_INITIALIZE);
   (RAYDIUM_CPMM, KSwap, CPMM_DISC_SWAP_INPUT); (RAYDIUM_CPMM, KSwap, CPMM_DISC_SWAP_OUTPUT)].

(** Within a venue no discriminator starts another. *)
Example discriminators_distinct :
  forallb (λ '(s, _, d), forallb (λ '(s', _, d'),
    bool_decide (s ≠ s') || bool_decide (d = d') || negb (has_disc d d')) discriminators) discriminators = true
  ∧ map (λ '(_, _, d), length d) discriminators = [8; 8; 8; 8; 8; 8; 8; 1; 1; 1; 8; 8; 8]%nat.
Proof. split; vm_compute; reflexivity. Qed.

(** ** What every event satisfies *)

Section Events.
Context `{Platform}.

(** A property of whatever a computation returns. *)
Definition ensures {A} (m : M nat A) (Q : A → Prop) : Prop := ∀ n a n', m n = (Ok a, n') → Q a.

Lemma ensures_ret {A} (x : A) (Q : A → Prop) : Q x → ensures (mret x) Q.
Proof. by intros HQ n a n' [= <- <-]. Qed.
Lemma ensures_bind {A B} (m : M nat A) (f : A → M nat B) Q R : ensures m Q → (∀ a, Q a → ensures (f a) R) → ensures (a ← m; f a) R.
Proof.
  intros Hm Hf n b n'. unfold mbind, M_bind. destruct (m n) as [[a|] n1] eqn:E; [|done].
  intros Hb. by apply (Hf a (Hm _ _ _ E) n1 b n').
Qed.
Lemma ensures_any {A B} (m : M nat A) (f : A → M nat B) R : (∀ a, ensures (f a) R) → ensures (a ← m; f a) R.
Proof. intros Hf. apply (ensures_bind _ _ (λ _, True)); [done|auto]. Qed.

(** The times of an event: the slot and block time of its transaction, which
    must be known and positive, and nothing else. *)
Record stamped (tx : RawTransaction.t) (transport : DetectionTransport) (e : LaunchEvent.t) : Prop := {
  st_block_time : ∃ s, RawTransaction.block_time_unix_s tx = Some s ∧ 0 < s ∧
    EventTime.block_time_ms (LaunchEvent.event_time e) = s * 1000;
  st_slot : EventTime.slot (LaunchEvent.event_time e) = RawTransaction.slot tx;
  st_observed : LaunchEvent.observation_slot e = RawTransaction.slot tx ∧ LaunchEvent.confirmation_slot e = RawTransaction.slot tx;
  st_transport : LaunchEvent.detection_transport e = transport;
  st_staleness : 0 ≤ LaunchEvent.data_staleness_ms e
}.

Lemma event_time_new slot bt wall e : EventTime.new slot bt wall = Ok e → e = EventTime.mk slot bt wall.
Proof.
  unfold EventTime.new, EventTime._non_negative, EventTime._block_time_reasonable, mbind, result_bind.
  destruct (slot <? 0), (bt <? 0), (wall <? 0); try done. cbn. destruct (bt =? 0); [done|]. by intros [= <-].
Qed.

Lemma launch_ensures pid tx tr src mint sol tok dec cr fp :
  ensures (launch pid tx tr src mint sol tok dec cr fp)
    (λ o, ∀ e, o = Some e → stamped tx tr e ∧ LaunchEvent.venue_program_id e = pid ∧ LaunchEvent.source e = src).
Proof.
  intros n o n'. unfold launch, _make_event_time, _now_ms, _staleness_ms, lift, mbind, M_bind, mret, M_ret.
  destruct (RawTransaction.block_time_unix_s tx) as [s|] eqn:Es; [|by intros [= <- <-]].
  destruct (Z.leb_spec s 0); [by intros [= <- <-]|].
  destruct (EventTime.new _ _ _) as [et|] eqn:Et; [|done]. apply event_time_new in Et as ->.
  unfold LaunchEvent._slot_ordering; cbn. rewrite Z.ltb_irrefl. intros [= <- <-] e [= <-]. split_and!; [|done|done].
  split; cbn; [by exists s|done|done|done|lia].
Qed.

(** An instruction of the venue with the discriminator of the kind. *)
Definition evidence (r : ProgramRegistry.t) (tx : RawTransaction.t) (k : EventKind) (e : LaunchEvent.t) : Prop :=
  ∃ src ix data d, ix ∈ RawTransaction.instructions tx ++ RawTransaction.inner_instructions tx ∧
    ProgramRegistry.program_id r src = Ok (RawInstruction.program_id ix) ∧
    _b64_decode (RawInstruction.data_b64 ix) = Ok data ∧ has_disc d data = true ∧ (src, k, d) ∈ discriminators ∧
    LaunchEvent.venue_program_id e = RawInstruction.program_id ix ∧
    LaunchEvent.source e = (if bool_decide (k = KWithdraw) then MIGRATION else src).

(** An attempt on one instruction: what it returns is stamped, of the venue,
    and the instruction carries one of the given discriminators. *)
Definition attempt_ok (pid : string) (tx : RawTransaction.t) (tr : DetectionTransport) (src : LaunchSource) (ds : list bytes)
    (ix : RawInstruction.t) (m : M nat (option LaunchEvent.t)) : Prop :=
  ensures m (λ o, ∀ e, o = Some e → stamped tx tr e ∧ LaunchEvent.venue_program_id e = pid ∧ LaunchEvent.source e = src ∧
    ∃ data d, _b64_decode (RawInstruction.data_b64 ix) = Ok data ∧ d ∈ ds ∧ has_disc d data = true).

Lemma attempt_intro pid tx tr src ds ix body :
  (∀ data, _b64_decode (RawInstruction.data_b64 ix) = Ok data →
     ensures (body data) (λ o, ∀ e, o = Some e → (∃ d, d ∈ ds ∧ has_disc d data = true) ∧
       stamped tx tr e ∧ LaunchEvent.venue_program_id e = pid ∧ LaunchEvent.source e = src)) →
  attempt_ok pid tx tr src ds ix (with_data ix body).
Proof.
  intros Hb. unfold attempt_ok, with_data. destruct (_b64_decode _) as [data|] eqn:Ed; [|by apply ensures_ret].
  intros n o n' E e ->. destruct (Hb data eq_refl n _ n' E e eq_refl) as ((d & ? & ?) & ? & ? & ?). split_and!; try done. by exists data, d.
Qed.

Lemma launch_evidence pid tx tr src mint sol tok dec cr fp (ds : list bytes) data d :
  d ∈ ds → has_disc d data = true →
  ensures (launch pid tx tr src mint sol tok dec cr fp) (λ o, ∀ e, o = Some e → (∃ d, d ∈ ds ∧ has_disc d data = true) ∧
       stamped tx tr e ∧ LaunchEvent.venue_program_id e = pid ∧ LaunchEvent.source e = src).
Proof. intros Hd Hh n o n' E e He. split; [by exists d|]. by apply (launch_ensures _ _ _ _ _ _ _ _ _ _ n o n' E). Qed.

End Events.

#[global] Opaque _disc.

(** Steps through the branches of an attempt to its [launch]. *)
Ltac attempt :=
  apply attempt_intro; intros data _;
  repeat first
    [ apply ensures_ret; intros ? [=]
    | progress cbv zeta
    | match goal with
      | |- ensures (mbind _ _) _ => apply ensures_any; intros ?
      | |- ensures (launch _ _ _ _ _ _ _ _ _ _) _ => eapply launch_evidence; [|eassumption]; first [apply list_elem_of_here | apply list_elem_of_further, list_elem_of_here]
      | |- ensures (if negb (?a || ?b) then _ else _) _ => destruct a eqn:?; [|destruct b eqn:?]; cbn [negb orb]
      | |- ensures (if negb ?b then _ else _) _ => destruct b eqn:?; cbn [negb]
      | |- ensures (if ?b then _ else _) _ => destruct b eqn:?
      | |- ensures (match ?x with _ => _ end) _ => destruct x eqn:?
      end ].

Section Attempts.
Context `{Platform} (pid : string) (tx : RawTransaction.t) (tr : DetectionTransport) (ix : RawInstruction.t).

Lemma create_ok : attempt_ok pid tx tr PUMPFUN [PUMP_DISC_CREATE] ix (PumpFunDecoder._try_create pid tx tr ix).
Proof. unfold PumpFunDecoder._try_create. attempt. Qed.
Lemma buy_ok : attempt_ok pid tx tr PUMPFUN [PUMP_DISC_BUY] ix (PumpFunDecoder._try_buy pid tx tr ix).
Proof. unfold PumpFunDecoder._try_buy, PumpFunDecoder.trade. attempt. Qed.
Lemma sell_ok : attempt_ok pid tx tr PUMPFUN [PUMP_DISC_SELL] ix (PumpFunDecoder._try_sell pid tx tr ix).
Proof. unfold PumpFunDecoder._try_sell, PumpFunDecoder.trade. attempt. Qed.
Lemma withdraw_ok : attempt_ok pid tx tr MIGRATION [PUMP_DISC_WITHDRAW] ix (PumpFunDecoder._try_withdraw pid tx tr ix).
Proof. unfold PumpFunDecoder._try_withdraw. attempt. Qed.
Lemma create_pool_ok : attempt_ok pid tx tr PUMPSWAP [PUMPSWAP_DISC_CREATE_POOL] ix (PumpSwapDecoder._try_create_pool pid tx tr ix).
Proof. unfold PumpSwapDecoder._try_create_pool. attempt. Qed.
Lemma pswap_ok : attempt_ok pid tx tr PUMPSWAP [PUMPSWAP_DISC_BUY; PUMPSWAP_DISC_SELL] ix (PumpSwapDecoder._try_swap pid tx tr ix).
Proof. unfold PumpSwapDecoder._try_swap. attempt. Qed.
Lemma init2_ok : attempt_ok pid tx tr RAYDIUM_V4 [RAYDIUM_V4_DISC_INIT2] ix (RaydiumV4Decoder._try_init2 pid tx tr ix).
Proof. unfold RaydiumV4Decoder._try_init2. attempt. Qed.
Lemma v4_swap_ok : attempt_ok pid tx tr RAYDIUM_V4 [RAYDIUM_V4_DISC_SWAP; RAYDIUM_V4_DISC_SWAP2] ix (RaydiumV4Decoder._try_swap pid tx tr ix).
Proof. unfold RaydiumV4Decoder._try_swap. attempt. Qed.
Lemma initialize_ok : attempt_ok pid tx tr RAYDIUM_CPMM [CPMM_DISC_INITIALIZE] ix (RaydiumCpmmDecoder._try_initialize pid tx tr ix).
Proof. unfold RaydiumCpmmDecoder._try_initialize. attempt. Qed.
Lemma cpmm_swap_ok : attempt_ok pid tx tr RAYDIUM_CPMM [CPMM_DISC_SWAP_INPUT; CPMM_DISC_SWAP_OUTPUT] ix (RaydiumCpmmDecoder._try_swap pid tx tr ix).
Proof. unfold RaydiumCpmmDecoder._try_swap. attempt. Qed.
End Attempts.

Section Routed.
Context `{Platform} (r : ProgramRegistry.t) (tx : RawTransaction.t) (tr : DetectionTransport).

(** What is known of a decoder's result. *)
Definition vouched (o : option (LaunchEvent.t * EventKind)) : Prop := ∀ e k, o = Some (e, k) → stamped tx tr e ∧ evidence r tx k e.

Lemma first_event_ok try src kind esrc ds pid :
  ProgramRegistry.program_id r src = Ok pid →
  (∀ ix, attempt_ok pid tx tr esrc ds ix (try ix)) → esrc = (if bool_decide (kind = KWithdraw) then MIGRATION else src) →
  (∀ d, d ∈ ds → (src, kind, d) ∈ discriminators) →
  ensures (first_event try kind (program_ixs pid tx)) vouched.
Proof.
  intros Hpid Htry -> Hds.
  assert (∀ ix, ix ∈ program_ixs pid tx →
    ix ∈ RawTransaction.instructions tx ++ RawTransaction.inner_instructions tx ∧ RawInstruction.program_id ix = pid) as Hixs
    by (intros ix; unfold program_ixs; rewrite list_elem_of_filter; tauto).
  induction (program_ixs pid tx) as [|ix ixs IH]; cbn [first_event]; [by apply ensures_ret|].
  eapply ensures_bind; [apply Htry|]. intros [e|] He; [|apply IH; set_solver].
  apply ensures_ret. intros e' k' [= <- <-]. destruct (He e eq_refl) as (Hs & Hp & Hsrc & data & d & Hdata & Hd & Hdisc).
  destruct (Hixs ix) as [Hin Hix]; [set_solver|]. split; [done|]. exists src, ix, data, d. rewrite Hix. split_and!; auto.
Qed.

Lemma first_of_ok attempts : Forall (λ a, ensures a vouched) attempts → ensures (first_of attempts) vouched.
Proof.
  induction 1 as [|a attempts Ha _ IH]; cbn [first_of]; [by apply ensures_ret|].
  eapply ensures_bind; [apply Ha|]. intros [x|] Hx; [by apply ensures_ret|done].
Qed.

(** The decoder of a venue: its attempts on the instructions of its program. *)
Ltac decoder src :=
  destruct (ProgramRegistry.program_id r src) as [pid|] eqn:Hpid; [|by apply ensures_ret];
  apply first_of_ok; rewrite !Forall_cons, Forall_nil; split_and!; try exact I;
  (eapply first_event_ok;
   [ exact Hpid
   | intros ix; auto using create_ok, buy_ok, sell_ok, withdraw_ok, create_pool_ok, pswap_ok, init2_ok, v4_swap_ok, initialize_ok, cpmm_swap_ok
   | reflexivity
   | intros d Hd; unfold discriminators;
     repeat (apply elem_of_cons in Hd as [->|Hd]; [repeat first [apply list_elem_of_here | apply list_elem_of_further]|]);
     by apply not_elem_of_nil in Hd ]).

Lemma pumpfun_ok : ensures (PumpFunDecoder.decode r tx tr) vouched.
Proof. unfold PumpFunDecoder.decode. decoder PUMPFUN. Qed.
Lemma pumpswap_ok : ensures (PumpSwapDecoder.decode r tx tr) vouched.
Proof. unfold PumpSwapDecoder.decode. decoder PUMPSWAP. Qed.
Lemma v4_ok : ensures (RaydiumV4Decoder.decode r tx tr) vouched.
Proof. unfold RaydiumV4Decoder.decode. decoder RAYDIUM_V4. Qed.
Lemma cpmm_ok : ensures (RaydiumCpmmDecoder.decode r tx tr) vouched.
Proof. unfold RaydiumCpmmDecoder.decode. decoder RAYDIUM_CPMM. Qed.

(** Every decoder is tried with its exceptions swallowed. *)
Lemma try_decoders_ok ds n : Forall (λ d, ensures d vouched) ds → ∃ o n', InstructionRouter.try_decoders ds n = (Ok o, n') ∧ vouched o.
Proof.
  intros Hds. revert n. induction Hds as [|d ds Hd _ IH]; intros n; cbn; [by exists None, n|].
  destruct (d n) as [[[x|]|] n1] eqn:E; [|apply IH..]. exists (Some x), n1. split; [done|]. by apply (Hd n _ n1).
Qed.

(** The router always answers; an event it emits is stamped with the times of
    its transaction, which succeeded and is no vote, and some instruction of
    the venue's registered program carries the discriminator of its kind. *)
Lemma routed_events_are_evidenced n : ∃ o n', InstructionRouter.route r tx tr n = (Ok o, n') ∧
  ∀ e k, o = Some (e, k) →
    RawTransaction.is_vote tx = false ∧ RawTransaction.err tx = None ∧ stamped tx tr e ∧ evidence r tx k e.
Proof.
  unfold InstructionRouter.route. destruct (RawTransaction.is_vote tx); [by exists None, n|]. cbn [orb].
  destruct (RawTransaction.err tx) as [err|]; [by exists None, n|]. cbn [bool_decide].
  rewrite bool_decide_eq_false_2 by (by intros [? [=]]). destruct (negb _); [by exists None, n|].
  destruct (try_decoders_ok ((λ d, d r tx tr) <$> InstructionRouter.decoders) n) as (o & n' & E & Ho).
  { cbn. rewrite !Forall_cons, Forall_nil. auto using pumpfun_ok, pumpswap_ok, v4_ok, cpmm_ok. }
  exists o, n'. split; [done|]. intros e k ->. destruct (Ho e k eq_refl). auto.
Qed.

(** Only the pump.fun curve has a sell discriminator. *)
Lemma sell_discriminator src d : (src, KSell, d) ∈ discriminators → src = PUMPFUN ∧ d = PUMP_DISC_SELL.
Proof.
  assert (Forall (λ x : LaunchSource * EventKind * bytes, x.1.2 = KSell → x.1.1 = PUMPFUN ∧ x.2 = PUMP_DISC_SELL) discriminators) as Hall.
  { unfold discriminators. repeat apply Forall_cons_2; cbn [fst snd]; [..|apply Forall_nil_2]; intros Hk; first [exfalso; discriminate Hk | split; reflexivity]. }
  intros Hin. exact (proj1 (Forall_forall _ _) Hall _ Hin eq_refl).
Qed.

(** ** A completed curve is never masked *)

(** [program_id(PUMPFUN)] is one of the ids the router looks for. *)
Lemma active_program_id src pid : ProgramRegistry.program_id r src = Ok pid → pid ∈ ProgramRegistry.active_program_ids r.
Proof.
  unfold ProgramRegistry.program_id, ProgramRegistry.active_program_ids. destruct (_ !! src) as [e|] eqn:E; [|done]. intros [= <-].
  apply list_elem_of_fmap. exists (src, e). split; [done|]. by apply elem_of_map_to_list.
Qed.

Lemma route_runs pid ix n :
  RawTransaction.is_vote tx = false → RawTransaction.err tx = None → pid ∈ ProgramRegistry.active_program_ids r → ix ∈ program_ixs pid tx →
  InstructionRouter.route r tx tr n = InstructionRouter.try_decoders ((λ d, d r tx tr) <$> InstructionRouter.decoders) n.
Proof.
  intros Hv He Hpid Hix. unfold InstructionRouter.route. rewrite Hv, He, bool_decide_eq_false_2 by (by intros [? [=]]). cbn [orb].
  replace (existsb _ _) with true; [done|]. symmetry. apply existsb_exists. exists pid. rewrite bool_decide_eq_true.
  split; [|done]. apply list_elem_of_In, list_elem_of_fmap. exists ix. unfold program_ixs in Hix.
  rewrite list_elem_of_filter in Hix. naive_solver.
Qed.

(** Transactions whose time is known, on a machine whose clock is past the epoch. *)
Class Confirmed (s : Z) : Prop := {
  confirmed_time : RawTransaction.block_time_unix_s tx = Some s;
  confirmed_positive : 0 < s;
  confirmed_slot : 0 ≤ RawTransaction.slot tx;
  confirmed_clock : ∀ n, 0 ≤ clock n
}.

(** Such a transaction's launches are all built. *)
Lemma launch_confirmed `{Confirmed s} pid src mint sol tok dec cr fp n :
  ∃ e n', launch pid tx tr src mint sol tok dec cr fp n = (Ok (Some e), n') ∧ LaunchEvent.mint e = mint ∧
    LaunchEvent.sol_reserve_lamports e = sol ∧ LaunchEvent.token_reserve_base e = tok ∧ LaunchEvent.creator_wallet e = cr.
Proof.
  unfold launch, _make_event_time, _now_ms, _staleness_ms, lift, mbind, M_bind, mret, M_ret.
  pose proof confirmed_positive. pose proof (confirmed_clock n). pose proof confirmed_slot.
  rewrite confirmed_time, (proj2 (Z.leb_gt s 0)) by lia.
  unfold EventTime.new, EventTime._non_negative, EventTime._block_time_reasonable, mbind, result_bind.
  rewrite !(proj2 (Z.ltb_ge _ _)) by lia. cbn. rewrite (proj2 (Z.eqb_neq (s * 1000) 0)) by lia.
  unfold LaunchEvent._slot_ordering. cbn. rewrite Z.ltb_irrefl. eauto 10.
Qed.

(** A pump.fun withdraw of [mint]. *)
Definition withdraw_of (ix : RawInstruction.t) (mint : string) : Prop :=
  (∃ data, _b64_decode (RawInstruction.data_b64 ix) = Ok data ∧ has_disc PUMP_DISC_WITHDRAW data = true) ∧
  _safe_get_account (RawInstruction.account_keys ix) PUMP_WITHDRAW_ACCOUNT_IDX_MINT = Some mint.

Lemma try_withdraw_spec `{Confirmed s} pid ix n :
  (∃ e n' mint, PumpFunDecoder._try_withdraw pid tx tr ix n = (Ok (Some e), n') ∧ withdraw_of ix mint ∧ LaunchEvent.mint e = mint)
  ∨ (PumpFunDecoder._try_withdraw pid tx tr ix n = (Ok None, n) ∧ ∀ mint, ¬ withdraw_of ix mint).
Proof.
  unfold PumpFunDecoder._try_withdraw, with_data, withdraw_of.
  destruct (_b64_decode _) as [data|]; [|right; split; [done|]; intros mint [(? & [=] & _) _]].
  destruct (has_disc PUMP_DISC_WITHDRAW data) eqn:Ed; cbn [negb];
    [|right; split; [done|]; intros mint [(? & [= <-] & ?) _]; congruence].
  destruct (_safe_get_account _ _) as [mint|]; [|right; split; [done|]; by intros mint [_ [=]]].
  destruct (launch_confirmed pid MIGRATION mint 0 0 6 (RawTransaction.fee_payer tx)
    (Some (_fingerprint_by_creator_mint (RawTransaction.fee_payer tx) mint)) n) as (e & n' & E & Hm & _).
  left. exists e, n', mint. eauto 10.
Qed.

(** A confirmed pump.fun withdraw is reported whatever else the transaction
    holds, before it or after it. *)
Theorem withdraw_is_never_masked `{Confirmed s} pid ix mint n :
  ProgramRegistry.program_id r PUMPFUN = Ok pid → RawTransaction.is_vote tx = false → RawTransaction.err tx = None →
  ix ∈ program_ixs pid tx → withdraw_of ix mint →
  ∃ e n' ix', InstructionRouter.route r tx tr n = (Ok (Some (e, KWithdraw)), n') ∧
    ix' ∈ program_ixs pid tx ∧ withdraw_of ix' (LaunchEvent.mint e).
Proof.
  intros Hpid Hv He Hin Hw. rewrite (route_runs pid ix) by eauto using active_program_id.
  cbn [InstructionRouter.decoders fmap list_fmap InstructionRouter.try_decoders]. unfold PumpFunDecoder.decode. rewrite Hpid.
  cbn [first_of]. revert n Hin.
  assert (∀ ixs n, ix ∈ ixs → ∃ e n' ix', first_event (PumpFunDecoder._try_withdraw pid tx tr) KWithdraw ixs n = (Ok (Some (e, KWithdraw)), n')
    ∧ ix' ∈ ixs ∧ withdraw_of ix' (LaunchEvent.mint e)) as Hfirst.
  { induction ixs as [|i ixs IH]; intros n Hin; [by apply not_elem_of_nil in Hin|]. cbn [first_event]. unfold mbind at 1, M_bind at 1.
    destruct (try_withdraw_spec pid i n) as [(e & n' & m & -> & Hi & <-)|[-> Hno]].
    { exists e, n', i. split_and!; [done|apply list_elem_of_here|done]. }
    apply elem_of_cons in Hin as [->|Hin]; [by apply Hno in Hw|].
    destruct (IH n Hin) as (e & n' & i' & E & Hi' & Hm). exists e, n', i'. split_and!; [done|by apply list_elem_of_further|done]. }
  intros n Hin. destruct (Hfirst _ n Hin) as (e & n' & i' & E & Hi' & Hm). unfold mbind at 1, M_bind at 1. rewrite E. by exists e, n', i'.
Qed.

(** ** Trades are read back *)

Definition trade_data (disc : bytes) (token sol : Z) : bytes := disc ++ int_to_bytes_little 8 token ++ int_to_bytes_little 8 sol.

(** Its fields, at the offsets the decoders read. *)
Lemma trade_data_fields disc token sol : length disc = 8%nat → 0 ≤ token < 2 ^ 64 → 0 ≤ sol < 2 ^ 64 →
  zlen (trade_data disc token sol) = 24 ∧ unpack_from 8 (trade_data disc token sol) 8 = Ok token ∧
  unpack_from 8 (trade_data disc token sol) 16 = Ok sol.
Proof.
  intros Hd Ht Hs.
  assert (zlen (trade_data disc token sol) = 24) as Hlen by (unfold trade_data, zlen; rewrite !length_app, !to_bytes_little_length, Hd; done).
  unfold unpack_from. rewrite Hlen. cbn -[slice trade_data]. unfold trade_data. split_and!; [done|f_equal..].
  - rewrite (slice_app disc (int_to_bytes_little 8 token)); [by apply to_bytes_little_value|by unfold zlen; rewrite Hd|].
    unfold zlen. by rewrite to_bytes_little_length.
  - rewrite (app_assoc disc), <- (app_nil_r (int_to_bytes_little 8 sol)).
    rewrite (slice_app _ (int_to_bytes_little 8 sol)); [by apply to_bytes_little_value| |]; unfold zlen;
      rewrite ?length_app, !to_bytes_little_length, ?Hd; done.
Qed.

Lemma trade_data_disc d d' token sol : length d = length d' → has_disc d' (trade_data d token sol) = bool_decide (d = d').
Proof. intros Hd. unfold has_disc, trade_data. by rewrite <- Hd, take_app_length. Qed.

(** An attempt on a trade of its kind launches it. *)
Lemma trade_reads pid ix disc mi ui token sol mint user n :
  _b64_decode (RawInstruction.data_b64 ix) = Ok (trade_data disc token sol) → length disc = 8%nat →
  0 ≤ token < 2 ^ 64 → 0 ≤ sol < 2 ^ 64 →
  RawInstruction.account_keys ix !! mi = Some mint → RawInstruction.account_keys ix !! ui = Some user →
  PumpFunDecoder.trade pid tx tr ix disc mi ui n = launch pid tx tr PUMPFUN mint sol token 6 user None n.
Proof.
  intros Hdec Hl Ht Hs Hmint Huser. destruct (trade_data_fields disc token sol Hl Ht Hs) as (Hlen & Htok & Hsol).
  unfold PumpFunDecoder.trade, with_data, _safe_get_account.
  rewrite Hdec, (trade_data_disc disc disc), bool_decide_eq_true_2, Hlen, Hmint, Huser by done.
  change (24 <? 24) with false. cbn [negb]. rewrite Htok, Hsol. unfold lift, mbind, M_bind, or_else. by case_bool_decide; subst.
Qed.

(** Lookups on a single instruction. *)
Lemma first_event_one try k ix n : first_event try k [ix] n =
  match try ix n with (Ok (Some e), n') => (Ok (Some (e, k)), n') | (Ok None, n') => (Ok None, n') | (Raise x, n') => (Raise x, n') end.
Proof. cbn [first_event]. unfold mbind, M_bind. by destruct (try ix n) as [[[e|]|] n']. Qed.
End Routed.

(** The trade instructions of pump.fun. *)
Definition trade_kind (sell : bool) : EventKind := if sell then KSell else KBuy.
Definition trade_disc (sell : bool) : bytes := if sell then PUMP_DISC_SELL else PUMP_DISC_BUY.

Lemma trade_disc_spec sell :
  Forall byte_ok (trade_disc sell) ∧ length (trade_disc sell) = 8%nat ∧
  ∀ token sol, has_disc PUMP_DISC_WITHDRAW (trade_data (trade_disc sell) token sol) = false ∧
    has_disc PUMP_DISC_CREATE (trade_data (trade_disc sell) token sol) = false ∧
    has_disc PUMP_DISC_BUY (trade_data (trade_disc sell) token sol) = negb sell ∧
    has_disc PUMP_DISC_SELL (trade_data (trade_disc sell) token sol) = sell.
Proof.
  assert (length (trade_disc sell) = 8%nat) as Hl by (destruct sell; vm_compute; reflexivity).
  assert (forallb (λ b, (0 <=? b) && (b <? 256)) (trade_disc sell) = true) as Hb by (destruct sell; vm_compute; reflexivity).
  split_and!; [|done|].
  - apply List.Forall_forall. intros b Hin. rewrite forallb_forall in Hb. specialize (Hb b Hin). unfold byte_ok. lia.
  - intros token sol. rewrite !trade_data_disc by (rewrite Hl; vm_compute; reflexivity). destruct sell; split_and!; vm_compute; reflexivity.
Qed.

(** A confirmed pump.fun buy or sell is reported with the amounts, mint and
    user its instruction was built from. *)
Theorem trade_is_read_back `{Platform} r tx tr s `{!Confirmed tx s} pid ix sell token sol mint user n :
  ProgramRegistry.program_id r PUMPFUN = Ok pid → RawTransaction.is_vote tx = false → RawTransaction.err tx = None →
  program_ixs pid tx = [ix] → RawInstruction.data_b64 ix = b64encode (trade_data (trade_disc sell) token sol) →
  RawInstruction.account_keys ix !! 2%nat = Some mint → RawInstruction.account_keys ix !! 6%nat = Some user →
  0 ≤ token < 2 ^ 64 → 0 ≤ sol < 2 ^ 64 →
  ∃ e n', InstructionRouter.route r tx tr n = (Ok (Some (e, trade_kind sell)), n') ∧ LaunchEvent.mint e = mint ∧
    LaunchEvent.sol_reserve_lamports e = sol ∧ LaunchEvent.token_reserve_base e = token ∧ LaunchEvent.creator_wallet e = user.
Proof.
  intros Hpid Hv He Hixs Hdata Hmint Huser Ht Hs. rewrite (route_runs r tx tr pid ix) by (rewrite ?Hixs; eauto using active_program_id, list_elem_of_here).
  destruct (trade_disc_spec sell) as (Hb & Hl & Hd). destruct (Hd token sol) as (Hw & Hc & Hbuy & Hsell).
  assert (_b64_decode (RawInstruction.data_b64 ix) = Ok (trade_data (trade_disc sell) token sol)) as Hdec.
  { rewrite Hdata. apply decode_encode. unfold trade_data. rewrite !Forall_app. split_and!; [done|apply to_bytes_little_ok..]. }
  cbn [InstructionRouter.decoders fmap list_fmap InstructionRouter.try_decoders]. unfold PumpFunDecoder.decode. rewrite Hpid, Hixs.
  destruct (launch_confirmed tx tr pid PUMPFUN mint sol token 6 user None n) as (e & n' & E & Hm).
  exists e, n'. split; [|done].
  assert (∀ d mi ui, has_disc d (trade_data (trade_disc sell) token sol) = false → PumpFunDecoder.trade pid tx tr ix d mi ui n = (Ok None, n)) as Hskip
    by (intros d mi ui Hd'; unfold PumpFunDecoder.trade, with_data; by rewrite Hdec, Hd').
  cbn [first_of]. unfold mbind, M_bind. rewrite !first_event_one.
  replace (PumpFunDecoder._try_withdraw pid tx tr ix n) with (Ok (@None LaunchEvent.t), n)
    by (unfold PumpFunDecoder._try_withdraw, with_data; by rewrite Hdec, Hw).
  rewrite first_event_one. replace (PumpFunDecoder._try_create pid tx tr ix n) with (Ok (@None LaunchEvent.t), n)
    by (unfold PumpFunDecoder._try_create, with_data; by rewrite Hdec, Hc).
  rewrite first_event_one. unfold PumpFunDecoder._try_buy, PumpFunDecoder._try_sell. destruct sell.
  - rewrite Hskip, first_event_one by done.
    rewrite (trade_reads tx tr pid ix (trade_disc true) _ _ token sol mint user) by done. by rewrite E.
  - rewrite (trade_reads tx tr pid ix (trade_disc false) _ _ token sol mint user) by done. by rewrite E.
Qed.

(** ** The clock decides nothing *)

(** An event without its monitoring fields. *)
Definition blind (e : LaunchEvent.t) : LaunchEvent.t :=
  let t := LaunchEvent.event_time e in
  LaunchEvent.mk (LaunchEvent.mint e) (LaunchEvent.venue_program_id e) (LaunchEvent.source e)
    (EventTime.mk (EventTime.slot t) (EventTime.block_time_ms t) 0) (LaunchEvent.observation_slot e) (LaunchEvent.confirmation_slot e)
    (LaunchEvent.detection_transport e) (LaunchEvent.sol_reserve_lamports e) (LaunchEvent.token_reserve_base e)
    (LaunchEvent.token_decimals e) (LaunchEvent.initial_holders e) (LaunchEvent.competitors e) (LaunchEvent.creator_wallet e)
    (LaunchEvent.bundler_cluster_id e) (LaunchEvent.deploy_template_fingerprint e) 0.

(** Two computations that end alike from any readings of the clock. *)
Definition agree {A} (R : A → A → Prop) (m1 m2 : M nat A) : Prop :=
  ∀ n1 n2, match (m1 n1).1, (m2 n2).1 with Ok a, Ok b => R a b | Raise _, Raise _ => True | _, _ => False end.
Definition same_launch (o1 o2 : option LaunchEvent.t) : Prop := blind <$> o1 = blind <$> o2.
Definition same_event (o1 o2 : option (LaunchEvent.t * EventKind)) : Prop :=
  prod_map blind id <$> o1 = prod_map blind id <$> o2.

#[export] Instance same_launch_equiv : Equivalence same_launch.
Proof. unfold same_launch. split; [by intros ?|by intros ??|by intros ??? ->]. Qed.
#[export] Instance same_event_equiv : Equivalence same_event.
Proof. unfold same_event. split; [by intros ?|by intros ??|by intros ??? ->]. Qed.

Lemma agree_ret {A} (R : A → A → Prop) a b : R a b → agree R (mret a) (mret b).
Proof. by intros HR n1 n2. Qed.
Lemma agree_bind {A B} (Q : A → A → Prop) (R : B → B → Prop) m1 m2 f1 f2 :
  agree Q m1 m2 → (∀ a b, Q a b → agree R (f1 a) (f2 b)) → agree R (a ← m1; f1 a) (a ← m2; f2 a).
Proof.
  intros Hm Hf n1 n2. specialize (Hm n1 n2). unfold mbind, M_bind.
  destruct (m1 n1) as [[a|] k1], (m2 n2) as [[b|] k2]; try done. apply (Hf a b Hm).
Qed.
Lemma agree_lift {A} (r : result A) : agree eq (lift r) (lift r).
Proof. intros n1 n2. cbn. by destruct r. Qed.

Section Clocks.
Context (clock1 clock2 : nat → Z) (ok : string → bool).
Context (Hclock1 : ∀ n, 0 ≤ clock1 n) (Hclock2 : ∀ n, 0 ≤ clock2 n).
Let P1 : Platform := {| clock := clock1; netloc_ok := ok |}.
Let P2 : Platform := {| clock := clock2; netloc_ok := ok |}.

Lemma launch_agree pid tx tr src mint sol tok dec cr fp :
  agree same_launch (@launch P1 pid tx tr src mint sol tok dec cr fp) (@launch P2 pid tx tr src mint sol tok dec cr fp).
Proof.
  intros n1 n2. unfold launch, _make_event_time, _now_ms, _staleness_ms, lift, mbind, M_bind, mret, M_ret. cbn [clock P1 P2].
  destruct (RawTransaction.block_time_unix_s tx) as [s|]; [|done]. destruct (s <=? 0); [done|].
  unfold EventTime.new, EventTime._non_negative, EventTime._block_time_reasonable, mbind, result_bind.
  destruct (RawTransaction.slot tx <? 0); [done|]. destruct (s * 1000 <? 0); [done|].
  rewrite (proj2 (Z.ltb_ge (clock1 n1) 0)), (proj2 (Z.ltb_ge (clock2 n2) 0)) by auto. cbn.
  destruct (s * 1000 =? 0); [done|]. unfold LaunchEvent._slot_ordering. cbn. by rewrite Z.ltb_irrefl.
Qed.

Lemma with_data_agree ix b1 b2 : (∀ data, agree same_launch (b1 data) (b2 data)) → agree same_launch (with_data ix b1) (with_data ix b2).
Proof. intros Hb. unfold with_data. destruct (_b64_decode _); [apply Hb|by apply agree_ret]. Qed.

Lemma first_event_agree t1 t2 k ixs : (∀ ix, agree same_launch (t1 ix) (t2 ix)) → agree same_event (first_event t1 k ixs) (first_event t2 k ixs).
Proof.
  intros Ht. induction ixs as [|ix ixs IH]; cbn [first_event]; [by apply agree_ret|].
  eapply agree_bind; [apply Ht|]. intros [a|] [b|] Hab; try done. apply agree_ret.
  assert (blind a = blind b) as Hb by (by apply (inj Some)). unfold same_event, prod_map. cbn -[blind]. by rewrite Hb.
Qed.

Lemma first_of_agree l1 l2 : Forall2 (agree same_event) l1 l2 → agree same_event (first_of l1) (first_of l2).
Proof.
  induction 1 as [|m1 m2 l1 l2 Hm _ IH]; cbn [first_of]; [by apply agree_ret|].
  eapply agree_bind; [apply Hm|]. intros [x|] [y|] Hxy; try done. by apply agree_ret.
Qed.

Lemma try_decoders_agree l1 l2 n1 n2 : Forall2 (agree same_event) l1 l2 →
  ∃ o1 o2, (InstructionRouter.try_decoders l1 n1).1 = Ok o1 ∧ (InstructionRouter.try_decoders l2 n2).1 = Ok o2 ∧ same_event o1 o2.
Proof.
  intros Hl. revert n1 n2. induction Hl as [|m1 m2 l1 l2 Hm _ IH]; intros n1 n2; cbn; [by exists None, None|].
  specialize (Hm n1 n2). destruct (m1 n1) as [[[x|]|] k1], (m2 n2) as [[[y|]|] k2]; try done; try apply IH.
  by exists (Some x), (Some y).
Qed.

(** Steps through two copies of an attempt at once. *)
Ltac lockstep :=
  apply with_data_agree; intros data;
  repeat first
    [ match goal with
      | |- agree _ (mret _) _ => by apply agree_ret
      | |- agree _ (launch _ _ _ _ _ _ _ _ _ _) _ => apply launch_agree
      | |- agree _ (mbind _ (lift _)) _ => eapply agree_bind; [apply agree_lift|intros ? ? <-]
      | |- agree _ (mbind _ _) _ => eapply (agree_bind eq); [|intros ? ? <-]
      | |- agree _ (if ?b then _ else _) _ => destruct b
      | |- agree _ (match ?x with _ => _ end) _ => destruct x
      end
    | progress cbv zeta ].

Lemma pumpfun_agree r tx tr : agree same_event (@PumpFunDecoder.decode P1 r tx tr) (@PumpFunDecoder.decode P2 r tx tr).
Proof.
  unfold PumpFunDecoder.decode. destruct (ProgramRegistry.program_id r PUMPFUN) as [pid|]; [|by apply agree_ret].
  apply first_of_agree. repeat apply Forall2_cons_2; [..|apply Forall2_nil_2]; apply first_event_agree; intros ix.
  - unfold PumpFunDecoder._try_withdraw. lockstep.
  - unfold PumpFunDecoder._try_create. lockstep.
  - unfold PumpFunDecoder._try_buy, PumpFunDecoder.trade. lockstep.
  - unfold PumpFunDecoder._try_sell, PumpFunDecoder.trade. lockstep.
Qed.
Lemma pumpswap_agree r tx tr : agree same_event (@PumpSwapDecoder.decode P1 r tx tr) (@PumpSwapDecoder.decode P2 r tx tr).
Proof.
  unfold PumpSwapDecoder.decode. destruct (ProgramRegistry.program_id r PUMPSWAP) as [pid|]; [|by apply agree_ret].
  apply first_of_agree. repeat apply Forall2_cons_2; [..|apply Forall2_nil_2]; apply first_event_agree; intros ix.
  - unfold PumpSwapDecoder._try_create_pool. lockstep.
  - unfold PumpSwapDecoder._try_swap. lockstep.
Qed.
Lemma v4_agree r tx tr : agree same_event (@RaydiumV4Decoder.decode P1 r tx tr) (@RaydiumV4Decoder.decode P2 r tx tr).
Proof.
  unfold RaydiumV4Decoder.decode. destruct (ProgramRegistry.program_id r RAYDIUM_V4) as [pid|]; [|by apply agree_ret].
  apply first_of_agree. repeat apply Forall2_cons_2; [..|apply Forall2_nil_2]; apply first_event_agree; intros ix.
  - unfold RaydiumV4Decoder._try_init2. lockstep.
  - unfold RaydiumV4Decoder._try_swap. lockstep.
Qed.
Lemma cpmm_agree r tx tr : agree same_event (@RaydiumCpmmDecoder.decode P1 r tx tr) (@RaydiumCpmmDecoder.decode P2 r tx tr).
Proof.
  unfold RaydiumCpmmDecoder.decode. destruct (ProgramRegistry.program_id r RAYDIUM_CPMM) as [pid|]; [|by apply agree_ret].
  apply first_of_agree. repeat apply Forall2_cons_2; [..|apply Forall2_nil_2]; apply first_event_agree; intros ix.
  - unfold RaydiumCpmmDecoder._try_initialize. lockstep.
  - unfold RaydiumCpmmDecoder._try_swap. lockstep.
Qed.

(** C31: Whatever the machine's clock reads and however often it was read before,
    a transaction is routed to the same event, up to its wall-clock stamp and
    its staleness. *)
Theorem clock_decides_nothing r tx tr n1 n2 :
  ∃ o1 o2, (@InstructionRouter.route P1 r tx tr n1).1 = Ok o1 ∧ (@InstructionRouter.route P2 r tx tr n2).1 = Ok o2 ∧ same_event o1 o2.
Proof using Hclock1 Hclock2.
  unfold InstructionRouter.route. destruct (_ || _); [by exists None, None|]. destruct (negb _); [by exists None, None|].
  apply try_decoders_agree. repeat apply Forall2_cons_2; [..|apply Forall2_nil_2];
    [apply pumpfun_agree|apply pumpswap_agree|apply v4_agree|apply cpmm_agree].
Qed.
End Clocks.

(** *** Witnesses: one pump.fun program, a sell before a withdraw. *)

Definition demo_registry : ProgramRegistry.t := ProgramRegistry.from_dict [(PUMPFUN, "pump_program")].
Definition demo_clock (n : nat) : Z := 1000500.
#[export] Instance demo_platform : Platform := {| clock := demo_clock; netloc_ok := λ _, true |}.
Definition demo_keys : list string := ["payer"; "a1"; "mint"; "a3"; "a4"; "a5"; "user"].
Definition demo_sell : RawInstruction.t := RawInstruction.mk "pump_program" (b64encode (trade_data (trade_disc true) 1000 2000)) demo_keys 0.
Definition demo_withdraw : RawInstruction.t := RawInstruction.mk "pump_program" (b64encode PUMP_DISC_WITHDRAW) demo_keys 0.
Definition demo_tx (ixs : list RawInstruction.t) : RawTransaction.t :=
  RawTransaction.mk "sig" 42 (Some 1000) "payer" ixs [] [] false None.

Lemma demo_confirmed ixs : Confirmed (demo_tx ixs) 1000.
Proof. split; [done|lia|cbn; lia|intros n; cbn; unfold demo_clock; lia]. Qed.

Lemma demo_withdraw_of : withdraw_of demo_withdraw "mint".
Proof. split; [|done]. exists PUMP_DISC_WITHDRAW. split; vm_compute; reflexivity. Qed.

Lemma withdraw_priority_witness : ∃ e n' ix',
  InstructionRouter.route demo_registry (demo_tx [demo_sell; demo_withdraw]) GEYSER 0%nat = (Ok (Some (e, KWithdraw)), n') ∧
    ix' ∈ program_ixs "pump_program" (demo_tx [demo_sell; demo_withdraw]) ∧ withdraw_of ix' (LaunchEvent.mint e).
Proof.
  apply (withdraw_is_never_masked demo_registry (demo_tx [demo_sell; demo_withdraw]) GEYSER (H0 := demo_confirmed _)
    "pump_program" demo_withdraw "mint"); try reflexivity.
  - apply list_elem_of_further, list_elem_of_here.
  - exact demo_withdraw_of.
Defined.

Lemma trade_read_back_witness : ∃ e n',
  InstructionRouter.route demo_registry (demo_tx [demo_sell]) GEYSER 0%nat = (Ok (Some (e, KSell)), n') ∧
    LaunchEvent.mint e = "mint" ∧ LaunchEvent.sol_reserve_lamports e = 2000 ∧ LaunchEvent.token_reserve_base e = 1000 ∧
    LaunchEvent.creator_wallet e = "user".
Proof.
  apply (trade_is_read_back demo_registry (demo_tx [demo_sell]) GEYSER 1000 (Confirmed0 := demo_confirmed _)
    "pump_program" demo_sell true); try reflexivity; lia.
Defined.

Lemma clock_decides_nothing_witness : ∃ o1 o2,
  (@InstructionRouter.route {| clock := λ _, 0; netloc_ok := λ _, true |} demo_registry (demo_tx [demo_sell]) GEYSER 0%nat).1 = Ok o1 ∧
  (@InstructionRouter.route {| clock := λ n, Z.of_nat n; netloc_ok := λ _, true |} demo_registry (demo_tx [demo_sell]) GEYSER 7%nat).1 = Ok o2 ∧
  same_event o1 o2.
Proof. apply (clock_decides_nothing (λ _, 0) (λ n, Z.of_nat n) (λ _, true)); lia. Defined.
