(* ===== verification/MultiWallet.v ===== *)
(** * Multi-wallet execution: [aats/execution/multi_wallet.py]

    One entry intent split over the wallet slots, under a per-mint exposure
    ledger; the aggregation of the slots' fills and their reconciliation.  The
    venue is a parameter that may answer by everything it was sent before.
    Log calls are left out. *)

From S2P Require Import Prelude Decimal RiskContracts PyText PyParse Intents Positions StateStore SnipeLoop.
From Stdlib Require Import Ascii.

Definition N_WALLETS_MAX_DEFAULT : Z := 1.
Definition N_WALLETS_MAX_HARD_CEILING : Z := 5.
Definition _PER_TRADE_CAP_DEFAULT_LAMPORTS : Z := 100000000.

Definition AntiClusterCapExceeded (mint : string) : exn := CustomError "AntiClusterCapExceeded" mint.
Definition MultiWalletConfigError (m : string) : exn := CustomError "MultiWalletConfigError" m.

(** ** Data *)

Module WalletSlotFill.
Record t : Type := mk { wallet_id : string; intent_id : string; fill : FillResult.t; sol_allocated_lamports : Z }.
End WalletSlotFill.

Module BundleFillResult.
Record t : Type := mk {
  wallet_fills : list WalletSlotFill.t;
  any_landed : bool;
  total_tokens_out : Z;
  total_sol_spent_lamports : Z;
  total_tip_lamports : Z;
  total_priority_lamports : Z;
  partial_fill : bool;
  aggregate_effective_price_decimal : string
}.
End BundleFillResult.

Module PartialFillSummary.
Record t : Type := mk {
  landed_slots : Z;
  total_slots : Z;
  net_sol_spent_lamports : Z;
  tokens_received : Z;
  partial_fill_ratio_bps : Z;
  total_tip_lamports : Z;
  total_priority_lamports : Z;
  aggregate_effective_price_decimal : string;
  is_partial_fill : bool
}.
End PartialFillSummary.

(** ** The exposure ledger *)

Module MintExposureLedger.
Record t : Type := mk { _cap : Z; _exposure : gmap string Z }.

Definition __init__ (cap : pynum) : result t :=
  match cap with
  | PyFloat _ => Raise (TypeError "MintExposureLedger: cap_lamports must be int (lamports), not float. ")
  | PyInt c => if c <=? 0 then Raise (MultiWalletConfigError "cap_lamports must be > 0") else Ok (mk c ∅)
  end.

Definition get_exposure (mint : string) (l : t) : Z := default 0 (_exposure l !! mint).
Definition set_exposure (mint : string) (v : Z) (l : t) : t := mk (_cap l) (<[mint := v]> (_exposure l)).

Definition check_and_reserve (mint : string) (sol : Z) : M t unit :=
  l ← get;
  let proposed := get_exposure mint l + sol in
  if _cap l <? proposed then raise (AntiClusterCapExceeded mint)
  else modify (set_exposure mint proposed).

Definition release (mint : string) (sol : Z) : M t unit :=
  l ← get;
  modify (set_exposure mint (Z.max 0 (get_exposure mint l - sol))).

Definition reset_mint (mint : string) (l : t) : t := mk (_cap l) (delete mint (_exposure l)).
End MintExposureLedger.

(** ** Configuration *)

Definition _assert_signer_wallet_id_alignment (env : gmap string string) (wallet_ids : list string) : result unit :=
  match env !! "SIGNER_WALLET_ID" with
  | Some provisioned =>
      if negb (bool_decide (provisioned = "")) && negb (bool_decide (provisioned ∈ wallet_ids))
      then Raise (MultiWalletConfigError "SIGNER_WALLET_ID is not among wallet_ids") else Ok tt
  | None => Ok tt
  end.

Definition n_max_range (n : Z) : result Z :=
  if n <? 1 then Raise (MultiWalletConfigError "Effective N_max must be >= 1")
  else if N_WALLETS_MAX_HARD_CEILING <? n then Raise (MultiWalletConfigError "Effective N_max exceeds hard ceiling")
  else Ok n.

Definition _resolve_n_max (env : gmap string string) (override : option pynum) : result Z :=
  match override with
  | Some (PyFloat _) => Raise (TypeError "_resolve_n_max: override must be int, not float.")
  | Some (PyInt n) => n_max_range n
  | None =>
      if negb (bool_decide (lower (strip (default "false" (env !! "N_WALLETS_MAX_ENABLED"))) = "true"))
      then Ok N_WALLETS_MAX_DEFAULT
      else match parse_int (default (pretty N_WALLETS_MAX_DEFAULT) (env !! "N_WALLETS_MAX")) with
           | None => Raise (MultiWalletConfigError "N_WALLETS_MAX env var must be an integer")
           | Some n => n_max_range n
           end
  end.

(** ** Slots *)

Definition _derive_slot_intent (base : EntryIntent.t) (wallet_id : string) (slot_sol : Z) (slot_intent_id : string) : result EntryIntent.t :=
  let c := EntryIntent.cost_stack base in
  cost ← CostStack.new (PyInt (CostStack.expected_edge_bps c)) (PyInt (CostStack.jito_tip_bps c))
    (PyInt (CostStack.priority_fee_bps c)) (PyInt (CostStack.entry_slippage_bps c)) (PyInt (CostStack.amm_fee_bps c))
    (PyInt (CostStack.exit_slippage_bps c)) (PyInt (CostStack.adverse_selection_bps c)) (PyInt (CostStack.total_cost_bps c));
  EntryIntent.new slot_intent_id (EntryIntent.mint base) (EntryIntent.event_time base) (PyInt slot_sol)
    (EntryIntent.slippage_bps base) (PyInt (EntryIntent.tip_lamports base)) (PyInt (EntryIntent.cu_price_microlamports base))
    (EntryIntent.target_slot base) cost (EntryIntent.venue base) wallet_id.

(** [f"{intent.client_intent_id}:w{i}"] *)
Definition slot_id (base : string) (i : nat) : string := base +:+ ":w" +:+ pretty (Z.of_nat i).

(** The shares of [n] slots: the remainder goes to the last. *)
Definition slot_sols (total : Z) (n : nat) : list Z :=
  let base_sol := total / Z.of_nat n in
  let remainder := total - base_sol * Z.of_nat n in
  map (λ i, if Nat.eqb i (n - 1) then base_sol + remainder else base_sol) (seq 0 n).

Definition agg_price (sol tokens : Z) : string :=
  if (0 <? tokens) && (0 <? sol)
  then match ddiv (dec_of_Z sol) (dec_of_Z tokens) with Ok p => dec_str p | Raise _ => "0" end
  else "0".

Definition landed (s : WalletSlotFill.t) : bool := FillResult.landed (WalletSlotFill.fill s).
(** The sum of [f] over the slots that landed. *)
Definition landed_sum (f : WalletSlotFill.t → Z) (slots : list WalletSlotFill.t) : Z :=
  zsum (f <$> List.filter landed slots).

Definition _aggregate_fills (slots : list WalletSlotFill.t) : BundleFillResult.t :=
  let any := existsb landed slots in
  let tokens := landed_sum (λ s, FillResult.tokens_out (WalletSlotFill.fill s)) slots in
  let sol := landed_sum WalletSlotFill.sol_allocated_lamports slots in
  BundleFillResult.mk slots any tokens sol
    (landed_sum (λ s, FillResult.tip_lamports (WalletSlotFill.fill s)) slots)
    (landed_sum (λ s, FillResult.priority_lamports (WalletSlotFill.fill s)) slots)
    (any && (length (List.filter landed slots) <? length slots)%nat)
    (agg_price sol tokens).

(** ** The orchestrator *)

Module MultiWalletOrchestrator.
Record t : Type := mk { _wallet_ids : list string; _effective_n_max : Z }.

Definition __init__ (env : gmap string string) (wallet_ids : list string) (n_max : option pynum) : result t :=
  n ← _resolve_n_max env n_max;
  if bool_decide (wallet_ids = []) then Raise (MultiWalletConfigError "wallet_ids must not be empty")
  else if n <? Z.of_nat (length wallet_ids) then Raise (MultiWalletConfigError "len(wallet_ids) > effective N_max")
  else if negb (bool_decide (length (remove_dups wallet_ids) = length wallet_ids))
  then Raise (MultiWalletConfigError "wallet_ids must be unique")
  else _ ← _assert_signer_wallet_id_alignment env wallet_ids; Ok (mk wallet_ids n).

Definition n_wallets (o : t) : Z := Z.of_nat (length (_wallet_ids o)).

(** What the venue was handed, in order. *)
Definition sent : Type := list (EntryIntent.t * LaunchEvent.t).
Record World : Type := mk_world { _ledger : MintExposureLedger.t; _sent : sent }.

Section Execute.
Context (venue_execute : sent → EntryIntent.t → LaunchEvent.t → result FillResult.t).

Definition execute (i : EntryIntent.t) (e : LaunchEvent.t) : M World (result FillResult.t) :=
  λ w, (Ok (venue_execute (_sent w) i e), mk_world (_ledger w) (_sent w ++ [(i, e)])).
Definition on_ledger {A} (m : M MintExposureLedger.t A) : M World A :=
  λ w, let '(r, l) := m (_ledger w) in (r, mk_world l (_sent w)).

Definition slot_fill (r : result FillResult.t) : FillResult.t :=
  match r with Ok f => f | Raise e => FillResult.failed ("slot_exception:" +:+ exn_name e) end.

(** The slot loop; its result is a value, so that the caller can release the
    reservation when building an intent raises. *)
Fixpoint execute_slots (base : EntryIntent.t) (e : LaunchEvent.t) (i : nat) (slots : list (string * Z))
    : M World (list WalletSlotFill.t) :=
  match slots with
  | [] => mret []
  | (wallet, sol) :: slots =>
      intent ← lift (_derive_slot_intent base wallet sol (slot_id (EntryIntent.client_intent_id base) i));
      r ← execute intent e;
      fills ← execute_slots base e (S i) slots;
      mret (WalletSlotFill.mk wallet (slot_id (EntryIntent.client_intent_id base) i) (slot_fill r) sol :: fills)
  end.

(** The [try] of [execute_bundle]: an unexpected error gives the reservation
    back. *)
Definition run_slots (o : t) (intent : EntryIntent.t) (e : LaunchEvent.t) : M World BundleFillResult.t := λ w,
  let total := EntryIntent.sol_in_lamports intent in
  match execute_slots intent e 0 (zip (_wallet_ids o) (slot_sols total (length (_wallet_ids o)))) w with
  | (Ok fills, w') => (Ok (_aggregate_fills fills), w')
  | (Raise x, w') => (Raise x, snd (on_ledger (MintExposureLedger.release (EntryIntent.mint intent) total) w'))
  end.

Definition execute_bundle (o : t) (intent : EntryIntent.t) (e : LaunchEvent.t) : M World BundleFillResult.t :=
  on_ledger (MintExposureLedger.check_and_reserve (EntryIntent.mint intent) (EntryIntent.sol_in_lamports intent));;
  run_slots o intent e.
End Execute.
End MultiWalletOrchestrator.

Definition make_single_wallet_orchestrator (env : gmap string string) (wallet_id : string) (per_trade_cap : option pynum)
    : result (MultiWalletOrchestrator.t * MintExposureLedger.t) :=
  cap ← match per_trade_cap with
        | Some (PyFloat _) => Raise (TypeError "make_single_wallet_orchestrator: per_trade_cap_lamports must be int, not float.")
        | Some (PyInt c) => Ok c
        | None => match parse_int (default (pretty _PER_TRADE_CAP_DEFAULT_LAMPORTS) (env !! "PER_TRADE_CAP_LAMPORTS")) with
                  | Some c => Ok c
                  | None => Raise (MultiWalletConfigError "PER_TRADE_CAP_LAMPORTS env var must be an integer")
                  end
        end;
  ledger ← MintExposureLedger.__init__ (PyInt cap);
  o ← MultiWalletOrchestrator.__init__ env [wallet_id] (Some (PyInt N_WALLETS_MAX_DEFAULT));
  Ok (o, ledger).

Definition reconcile (b : BundleFillResult.t) (expected_tokens_out : pynum) : result PartialFillSummary.t :=
  match expected_tokens_out with
  | PyFloat _ => Raise (TypeError "PartialFillReconciler.reconcile: expected_tokens_out must be int, not float.")
  | PyInt expected =>
      let fills := BundleFillResult.wallet_fills b in
      let received := BundleFillResult.total_tokens_out b in
      let ratio := if (0 <? expected) && (0 <=? received)
                   then Z.max 0 (Z.min 10000 (received * 10000 / expected)) else 0 in
      Ok (PartialFillSummary.mk (Z.of_nat (length (List.filter landed fills))) (Z.of_nat (length fills))
        (landed_sum WalletSlotFill.sol_allocated_lamports fills) received ratio
        (BundleFillResult.total_tip_lamports b) (BundleFillResult.total_priority_lamports b)
        (BundleFillResult.aggregate_effective_price_decimal b) (BundleFillResult.partial_fill b))
  end.

Lemma get_set_exposure m v l : MintExposureLedger.get_exposure m (MintExposureLedger.set_exposure m v l) = v.
Proof. unfold MintExposureLedger.get_exposure, MintExposureLedger.set_exposure; cbn. by rewrite lookup_insert_eq. Qed.

(** ** Shares *)

Lemma zsum_seq_last (b r : Z) (n k : nat) : (0 < n)%nat →
  zsum (map (λ i, if Nat.eqb i (k + n - 1) then b + r else b) (seq k n)) = b * Z.of_nat n + r.
Proof.
  revert k. induction n as [|n IH]; intros k Hn; [lia|]. cbn [seq map zsum foldr].
  destruct (decide (n = 0)%nat) as [->|Hne].
  - rewrite (proj2 (Nat.eqb_eq k (k + 1 - 1))) by lia. cbn. lia.
  - rewrite (proj2 (Nat.eqb_neq k (k + S n - 1))) by lia. fold (zsum (map (λ i, if Nat.eqb i (k + S n - 1) then b + r else b) (seq (S k) n))).
    replace (k + S n - 1)%nat with (S k + n - 1)%nat by lia. rewrite IH by lia. lia.
Qed.

Lemma slot_sols_sum total n : (0 < n)%nat → zsum (slot_sols total n) = total.
Proof. intros Hn. unfold slot_sols. etransitivity; [exact (zsum_seq_last _ _ n 0 Hn)|lia]. Qed.

Lemma slot_sols_length total n : length (slot_sols total n) = n.
Proof. unfold slot_sols. by rewrite length_map, length_seq. Qed.

Lemma slot_sols_nonneg total n : (0 < n)%nat → 0 ≤ total → Forall (λ x, 0 ≤ x) (slot_sols total n).
Proof.
  intros Hn Ht. unfold slot_sols. apply Forall_forall. intros x (i & -> & _)%list_elem_of_fmap.
  pose proof (Z.div_pos total (Z.of_nat n) Ht ltac:(lia)). pose proof (Z.mul_div_le total (Z.of_nat n) ltac:(lia)).
  destruct (Nat.eqb i (n - 1)); nia.
Qed.

(** ** Identities *)

Lemma string_app_inj_l (a b c : string) : a +:+ b = a +:+ c → b = c.
Proof. induction a; [done|]. rewrite !app_cons. by intros [= ?]; auto. Qed.

Lemma split_w_pretty (a b p q : string) :
  all_digits p = true → all_digits q = true → a +:+ ":w" +:+ p = b +:+ ":w" +:+ q → a = b ∧ p = q.
Proof.
  intros Hp Hq. revert b. induction a as [|x a IH]; intros [|y b]; rewrite ?app_cons, ?app_empty.
  - intros H. injection H as H. done.
  - intros H. exfalso. injection H as Hx H. destruct b as [|z b]; rewrite ?app_cons, ?app_empty in H.
    + injection H as Hz H. done.
    + injection H as Hz H. rewrite H in Hp. rewrite all_digits_app in Hp. cbn in Hp. by rewrite andb_false_r in Hp.
  - intros H. exfalso. injection H as Hx H. destruct a as [|z a]; rewrite ?app_cons, ?app_empty in H.
    + injection H as Hz H. done.
    + injection H as Hz H. rewrite <- H in Hq. rewrite all_digits_app in Hq. cbn in Hq. by rewrite andb_false_r in Hq.
  - intros H. injection H as Hx H. destruct (IH b H) as [-> ->]. by rewrite Hx.
Qed.

(** One slot of one intent has an id of its own. *)
Lemma slot_id_inj a b i j : slot_id a i = slot_id b j → a = b ∧ i = j.
Proof.
  intros H. apply split_w_pretty in H as [-> H]; [|apply pretty_Z_digits; lia..].
  split; [done|]. apply (inj (pretty (A := Z))) in H. lia.
Qed.

(** ** One bundle *)

(** What the validators of an intent leave. *)
Definition entry_wf (i : EntryIntent.t) : Prop :=
  150 ≤ CostStack.adverse_selection_bps (EntryIntent.cost_stack i) ∧
  EventTime.slot (EntryIntent.event_time i) + 5 ≤ EntryIntent.target_slot i ∧
  CostStack.total_cost_bps (EntryIntent.cost_stack i) < CostStack.expected_edge_bps (EntryIntent.cost_stack i).

(** The intent of one slot. *)
Definition slot_intent (base : EntryIntent.t) (wallet : string) (sol : Z) (id : string) : EntryIntent.t :=
  EntryIntent.mk id (EntryIntent.mint base) (EntryIntent.event_time base) sol (EntryIntent.slippage_bps base)
    (EntryIntent.tip_lamports base) (EntryIntent.cu_price_microlamports base) (EntryIntent.target_slot base)
    (EntryIntent.cost_stack base) (EntryIntent.venue base) wallet.

Lemma derive_ok base wallet sol id : entry_wf base → _derive_slot_intent base wallet sol id = Ok (slot_intent base wallet sol id).
Proof.
  intros (Ha & Hs & Hc). unfold _derive_slot_intent, CostStack.new, CostStack._adverse_selection_floor, EntryIntent.new,
    EntryIntent._slot_guard, EntryIntent._cost_gate; cbn.
  rewrite (proj2 (Z.ltb_ge _ 150) Ha); cbn. rewrite (proj2 (Z.ltb_ge _ _) Hs); cbn. rewrite (proj2 (Z.leb_gt _ _) Hc).
  unfold slot_intent. by destruct (EntryIntent.cost_stack base).
Qed.

Lemma entry_new_wf id mint et sol slip tip cu target cost venue wallet i :
  150 ≤ CostStack.adverse_selection_bps cost →
  EntryIntent.new id mint et sol slip tip cu target cost venue wallet = Ok i → entry_wf i.
Proof.
  intros Ha H. assert (is_ok (EntryIntent.new id mint et sol slip tip cu target cost venue wallet) = true) as H' by by rewrite H.
  apply entry_new_iff in H' as ((s & t & c & -> & -> & ->) & Hs & Hc). unfold EntryIntent.new in H; cbn in H.
  unfold EntryIntent._slot_guard, EntryIntent._cost_gate in H; cbn in H.
  rewrite (proj2 (Z.ltb_ge _ _) Hs) in H; cbn in H. rewrite (proj2 (Z.leb_gt _ _) Hc) in H. by injection H as <-.
Qed.

Section Bundle.
Import MultiWalletOrchestrator.
Context (venue_execute : sent → EntryIntent.t → LaunchEvent.t → result FillResult.t).

(** What the slots send, and what comes back. *)
Fixpoint requests (base : EntryIntent.t) (e : LaunchEvent.t) (i : nat) (slots : list (string * Z)) : sent :=
  match slots with
  | [] => []
  | (wallet, sol) :: slots =>
      (slot_intent base wallet sol (slot_id (EntryIntent.client_intent_id base) i), e) :: requests base e (S i) slots
  end.
Fixpoint answers (log : sent) (reqs : sent) : list FillResult.t :=
  match reqs with
  | [] => []
  | (i, e) :: reqs => slot_fill (venue_execute log i e) :: answers (log ++ [(i, e)]) reqs
  end.
Fixpoint slot_fills (base : EntryIntent.t) (i : nat) (slots : list (string * Z)) (fills : list FillResult.t) : list WalletSlotFill.t :=
  match slots, fills with
  | (wallet, sol) :: slots, f :: fills =>
      WalletSlotFill.mk wallet (slot_id (EntryIntent.client_intent_id base) i) f sol :: slot_fills base (S i) slots fills
  | _, _ => []
  end.

Lemma answers_length log reqs : length (answers log reqs) = length reqs.
Proof. revert log. induction reqs as [|[i e] reqs IH]; intros log; cbn; [done|by rewrite IH]. Qed.
Lemma requests_length base e i slots : length (requests base e i slots) = length slots.
Proof. revert i. induction slots as [|[w s] slots IH]; intros i; cbn; [done|by rewrite IH]. Qed.

Lemma execute_slots_spec base e i slots w : entry_wf base →
  execute_slots venue_execute base e i slots w =
  (Ok (slot_fills base i slots (answers (_sent w) (requests base e i slots))),
   mk_world (_ledger w) (_sent w ++ requests base e i slots)).
Proof.
  intros Hwf. revert i w. induction slots as [|[wallet sol] slots IH]; intros i [l log]; cbn [execute_slots requests].
  { cbn. by rewrite app_nil_r. }
  unfold mbind, M_bind, lift. rewrite derive_ok by done. unfold execute at 1. cbn [_ledger _sent].
  rewrite IH. cbn. by rewrite <- app_assoc.
Qed.

(** The slots of an intent over the wallets of an orchestrator. *)
Definition slots_of (o : t) (intent : EntryIntent.t) : list (string * Z) :=
  zip (_wallet_ids o) (slot_sols (EntryIntent.sol_in_lamports intent) (length (_wallet_ids o))).

Lemma execute_bundle_spec o intent e w : entry_wf intent →
  let mint := EntryIntent.mint intent in
  let proposed := MintExposureLedger.get_exposure mint (_ledger w) + EntryIntent.sol_in_lamports intent in
  execute_bundle venue_execute o intent e w =
  if MintExposureLedger._cap (_ledger w) <? proposed then (Raise (AntiClusterCapExceeded mint), w)
  else
    let reqs := requests intent e 0 (slots_of o intent) in
    (Ok (_aggregate_fills (slot_fills intent 0 (slots_of o intent) (answers (_sent w) reqs))),
     mk_world (MintExposureLedger.set_exposure mint proposed (_ledger w)) (_sent w ++ reqs)).
Proof.
  intros Hwf. cbv zeta. destruct w as [l log]. unfold execute_bundle, on_ledger, MintExposureLedger.check_and_reserve.
  unfold mbind, M_bind, get. cbn [_ledger _sent]. destruct (_ <? _); [done|]. unfold modify.
  unfold run_slots. rewrite execute_slots_spec by done. done.
Qed.

Lemma slots_fst o intent : (slots_of o intent).*1 = _wallet_ids o.
Proof. unfold slots_of. rewrite fst_zip; [done|]. by rewrite slot_sols_length. Qed.
Lemma slots_snd o intent : (slots_of o intent).*2 = slot_sols (EntryIntent.sol_in_lamports intent) (length (_wallet_ids o)).
Proof. unfold slots_of. rewrite snd_zip; [done|]. by rewrite slot_sols_length. Qed.

Lemma slot_fills_wallets base i slots fills : length fills = length slots →
  WalletSlotFill.wallet_id <$> slot_fills base i slots fills = slots.*1 ∧
  WalletSlotFill.sol_allocated_lamports <$> slot_fills base i slots fills = slots.*2 ∧
  WalletSlotFill.fill <$> slot_fills base i slots fills = fills.
Proof.
  revert i fills. induction slots as [|[wallet sol] slots IH]; intros i [|f fills]; cbn; try done.
  intros [= H]. destruct (IH (S i) fills H) as (H1 & H2 & H3). by rewrite H1, H2, H3.
Qed.

Lemma answers_lookup log reqs k i e : reqs !! k = Some (i, e) →
  answers log reqs !! k = Some (slot_fill (venue_execute (log ++ take k reqs) i e)).
Proof.
  revert log k. induction reqs as [|[i' e'] reqs IH]; intros log k; [done|]. destruct k as [|k]; cbn.
  - intros [= -> ->]. by rewrite app_nil_r.
  - intros H. rewrite (IH _ k H). by rewrite <- app_assoc.
Qed.

Lemma requests_sols base e i slots : (λ r, EntryIntent.sol_in_lamports r.1) <$> requests base e i slots = slots.*2.
Proof. revert i. induction slots as [|[wallet sol] slots IH]; intros i; cbn; [done|by rewrite IH]. Qed.
Lemma requests_mint base e i slots : Forall (λ r, EntryIntent.mint r.1 = EntryIntent.mint base) (requests base e i slots).
Proof. revert i. induction slots as [|[wallet sol] slots IH]; intros i; cbn; [constructor|by constructor]. Qed.
Lemma requests_ids base e i slots :
  (λ r, EntryIntent.client_intent_id r.1) <$> requests base e i slots =
  slot_id (EntryIntent.client_intent_id base) <$> seq i (length slots).
Proof. revert i. induction slots as [|[wallet sol] slots IH]; intros i; cbn; [done|by rewrite IH]. Qed.

Lemma partial_fill_iff slots :
  BundleFillResult.partial_fill (_aggregate_fills slots) = true ↔
  (∃ s, s ∈ slots ∧ landed s = true) ∧ (∃ s, s ∈ slots ∧ landed s = false).
Proof.
  unfold _aggregate_fills; cbn [BundleFillResult.partial_fill]. rewrite andb_true_iff, existsb_exists, Nat.ltb_lt.
  assert (length (List.filter landed slots) < length slots ↔ ∃ s, s ∈ slots ∧ landed s = false)%nat as ->.
  { induction slots as [|s slots IH]; cbn.
    - split; [lia|]. intros (s & Hs & _). by apply not_elem_of_nil in Hs.
    - destruct (landed s) eqn:E; cbn.
      + rewrite <- Nat.succ_lt_mono, IH. split; intros (t & Ht & Hl); exists t; split; auto; [by right|].
        apply elem_of_cons in Ht as [->|]; [congruence|done].
      + split; [|intros _; pose proof (List.filter_length_le landed slots); lia]. intros _. exists s. split; [by left|done]. }
  apply and_iff_compat_r. split; intros (s & Hs & Hl); exists s; split; auto; by apply list_elem_of_In.
Qed.

Lemma landed_sum_nonneg f slots : Forall (λ s, 0 ≤ f s) slots → 0 ≤ landed_sum f slots ≤ zsum (f <$> slots).
Proof.
  unfold landed_sum, zsum. induction 1 as [|s slots Hs _ IH]; [cbn; lia|]. cbn [List.filter]. destruct (landed s); rewrite !fmap_cons; cbn [foldr]; lia.
Qed.

(** A bundle is refused whole or runs every slot.  When the mint's exposure
    would pass the cap nothing is sent and nothing changes; otherwise the
    exposure grows by the whole size, the slots get shares that add up to it,
    one per wallet and in order, each slot's fill is what the venue answered
    to that slot after everything sent before (a raise counts as not landed
    and stops no other slot), what is spent is between nothing and the size,
    and the fill is partial exactly when some slots landed and some did not. *)
Theorem bundle_runs_every_slot o intent e w :
  entry_wf intent → _wallet_ids o ≠ [] → 0 ≤ EntryIntent.sol_in_lamports intent →
  let mint := EntryIntent.mint intent in
  let proposed := MintExposureLedger.get_exposure mint (_ledger w) + EntryIntent.sol_in_lamports intent in
  (MintExposureLedger._cap (_ledger w) < proposed →
     execute_bundle venue_execute o intent e w = (Raise (AntiClusterCapExceeded mint), w)) ∧
  (proposed ≤ MintExposureLedger._cap (_ledger w) →
     ∃ r w' reqs, execute_bundle venue_execute o intent e w = (Ok r, w') ∧
       MintExposureLedger.get_exposure mint (_ledger w') = proposed ∧ _sent w' = _sent w ++ reqs ∧
       WalletSlotFill.wallet_id <$> BundleFillResult.wallet_fills r = _wallet_ids o ∧
       zsum (WalletSlotFill.sol_allocated_lamports <$> BundleFillResult.wallet_fills r) = EntryIntent.sol_in_lamports intent ∧
       zsum ((λ q, EntryIntent.sol_in_lamports q.1) <$> reqs) = EntryIntent.sol_in_lamports intent ∧
       (∀ k i e', reqs !! k = Some (i, e') → EntryIntent.mint i = mint ∧
          WalletSlotFill.fill <$> BundleFillResult.wallet_fills r !! k =
            Some (slot_fill (venue_execute (_sent w ++ take k reqs) i e'))) ∧
       0 ≤ BundleFillResult.total_sol_spent_lamports r ≤ EntryIntent.sol_in_lamports intent ∧
       (BundleFillResult.partial_fill r = true ↔
          (∃ s, s ∈ BundleFillResult.wallet_fills r ∧ landed s = true) ∧
          (∃ s, s ∈ BundleFillResult.wallet_fills r ∧ landed s = false))).
Proof.
  intros Hwf Hne H0. cbv zeta. pose proof (execute_bundle_spec o intent e w Hwf) as E. cbv zeta in E.
  assert (0 < length (_wallet_ids o))%nat as Hn by (destruct (_wallet_ids o); cbn; [done|lia]).
  split; intros Hc; [by rewrite (proj2 (Z.ltb_lt _ _) Hc) in E|]. rewrite (proj2 (Z.ltb_ge _ _) Hc) in E.
  set (reqs := requests intent e 0 (slots_of o intent)) in *.
  destruct (slot_fills_wallets intent 0 (slots_of o intent) (answers (_sent w) reqs)) as (F1 & F2 & F3).
  { rewrite answers_length. apply requests_length. }
  rewrite slots_fst in F1. rewrite slots_snd in F2.
  eexists _, _, reqs. split; [exact E|]. cbn [_ledger _sent BundleFillResult.wallet_fills _aggregate_fills].
  assert (zsum (slot_sols (EntryIntent.sol_in_lamports intent) (length (_wallet_ids o))) = EntryIntent.sol_in_lamports intent) as Hsum
    by by apply slot_sols_sum.
  destruct (landed_sum_nonneg WalletSlotFill.sol_allocated_lamports
    (slot_fills intent 0 (slots_of o intent) (answers (_sent w) reqs))) as [L1 L2].
  { apply (Forall_fmap WalletSlotFill.sol_allocated_lamports (λ x, 0 ≤ x)). rewrite F2. by apply slot_sols_nonneg. }
  rewrite F2, Hsum in L2.
  split_and!.
  - apply get_set_exposure.
  - done.
  - exact F1.
  - by rewrite F2.
  - unfold reqs. by rewrite requests_sols, slots_snd.
  - intros k i e' Hk. split.
    + pose proof (requests_mint intent e 0 (slots_of o intent)) as Hm. rewrite Forall_lookup in Hm. exact (Hm k _ Hk).
    + rewrite <- list_lookup_fmap, F3. by apply answers_lookup.
  - done.
  - done.
  - by apply partial_fill_iff.
Qed.

(** ** Any sequence of bundles *)

Definition bundles : Type := list (EntryIntent.t * LaunchEvent.t).
Definition run (o : t) (ops : bundles) (w : World) : World :=
  foldl (λ w op, snd (execute_bundle venue_execute o op.1 op.2 w)) w ops.

(** What the venue was asked to spend on a mint. *)
Definition asked (m : string) (log : sent) : Z :=
  zsum ((λ q, if bool_decide (EntryIntent.mint q.1 = m) then EntryIntent.sol_in_lamports q.1 else 0) <$> log).

Lemma asked_app m a b : asked m (a ++ b) = asked m a + asked m b.
Proof. unfold asked. by rewrite fmap_app, zsum_app. Qed.

Lemma asked_requests m o intent e : _wallet_ids o ≠ [] →
  asked m (requests intent e 0 (slots_of o intent)) =
  if bool_decide (EntryIntent.mint intent = m) then EntryIntent.sol_in_lamports intent else 0.
Proof.
  intros Hne. unfold asked. pose proof (requests_mint intent e 0 (slots_of o intent)) as Hm.
  case_bool_decide as E.
  - rewrite (list_fmap_ext _ (λ q, EntryIntent.sol_in_lamports q.1) _).
    + rewrite requests_sols, slots_snd. apply slot_sols_sum. destruct (_wallet_ids o); cbn; [done|lia].
    + intros k q Hq. rewrite Forall_lookup in Hm. rewrite (Hm k q Hq). by rewrite bool_decide_eq_true_2.
  - rewrite (list_fmap_ext _ (λ _, 0) _).
    + induction (requests _ _ _ _); cbn; [done|]. inversion Hm; subst. auto.
    + intros k q Hq. rewrite Forall_lookup in Hm. rewrite (Hm k q Hq). by rewrite bool_decide_eq_false_2.
Qed.

(** The ledger counts what was asked and stays at or below its cap. *)
Definition accounted (cap : Z) (w : World) : Prop :=
  MintExposureLedger._cap (_ledger w) = cap ∧
  ∀ m, asked m (_sent w) = MintExposureLedger.get_exposure m (_ledger w) ∧
    0 ≤ MintExposureLedger.get_exposure m (_ledger w) ≤ cap.

Lemma accounted_bundle cap o intent e w :
  _wallet_ids o ≠ [] → entry_wf intent → 0 ≤ EntryIntent.sol_in_lamports intent → accounted cap w →
  accounted cap (snd (execute_bundle venue_execute o intent e w)).
Proof.
  intros Hne Hwf H0 [Hcap Hacc]. rewrite execute_bundle_spec by done. cbv zeta.
  destruct (Z.ltb_spec (MintExposureLedger._cap (_ledger w))
    (MintExposureLedger.get_exposure (EntryIntent.mint intent) (_ledger w) + EntryIntent.sol_in_lamports intent)); [by split|].
  cbn [snd]. split; [done|]. intros m. cbn [_ledger _sent]. destruct (Hacc m) as [H1 H2].
  rewrite asked_app, H1, asked_requests by done.
  unfold MintExposureLedger.get_exposure, MintExposureLedger.set_exposure in *; cbn [MintExposureLedger._exposure].
  case_bool_decide as E; [subst m; rewrite lookup_insert_eq; cbn; lia|rewrite lookup_insert_ne by done; lia].
Qed.

(** C11: No mint is ever asked for more than the cap: over any sequence of bundles
    from a fresh ledger, of well-formed intents with non-negative sizes, whatever
    the venue answers, the sizes handed to the
    venue for one mint add up to that mint's exposure, at most the cap. *)
Theorem anti_cluster_cap_holds o cap ledger ops :
  MintExposureLedger.__init__ (PyInt cap) = Ok ledger → _wallet_ids o ≠ [] →
  Forall (λ op, entry_wf op.1 ∧ 0 ≤ EntryIntent.sol_in_lamports op.1) ops →
  ∀ m, asked m (_sent (run o ops (mk_world ledger []))) =
         MintExposureLedger.get_exposure m (_ledger (run o ops (mk_world ledger []))) ∧
       0 ≤ asked m (_sent (run o ops (mk_world ledger []))) ≤ cap.
Proof.
  intros Hl Hne Hops. assert (accounted cap (mk_world ledger [])) as Ha.
  { unfold MintExposureLedger.__init__ in Hl. destruct (Z.leb_spec cap 0); [done|]. injection Hl as <-.
    split; [done|]. intros m. cbn. unfold MintExposureLedger.get_exposure; cbn. rewrite lookup_empty. cbn. lia. }
  assert (accounted cap (run o ops (mk_world ledger []))) as [_ Hacc].
  { clear Hl. revert Ha. generalize (mk_world ledger []). induction Hops as [|op ops [H1 H2] _ IH]; intros w Ha; [done|].
    apply IH. by apply accounted_bundle. }
  intros m. destruct (Hacc m) as [H1 H2]. by rewrite H1.
Qed.

Definition ids (log : sent) : list string := (λ q, EntryIntent.client_intent_id q.1) <$> log.

(** No order id is used twice: when the bundles have different ids, so have
    all the slot orders the venue is handed. *)
Theorem slot_ids_never_repeat o ledger ops :
  Forall (λ op, entry_wf op.1) ops → NoDup (ids ops) → NoDup (ids (_sent (run o ops (mk_world ledger [])))).
Proof.
  intros Hwf Hnd.
  assert (∀ w, (∀ b i, b ∈ ids ops → slot_id b i ∉ ids (_sent w)) → NoDup (ids (_sent w)) →
    NoDup (ids (_sent (run o ops w)))) as Hgen; [|apply Hgen; [set_solver|constructor]].
  induction Hwf as [|[intent e] ops H1 _ IH]; intros w Hfresh Hw; [done|]. cbn [fst] in *.
  apply NoDup_cons in Hnd as [Hni Hnd]. change (run o ((intent, e) :: ops) w) with
    (run o ops (snd (execute_bundle venue_execute o intent e w))).
  rewrite execute_bundle_spec by done. cbv zeta. destruct (_ <? _); cbn [snd].
  - apply IH; [done| |done]. intros b i Hb. apply Hfresh. by right.
  - set (n := length (slots_of o intent)).
    assert (ids (_sent w ++ requests intent e 0 (slots_of o intent)) =
      ids (_sent w) ++ (slot_id (EntryIntent.client_intent_id intent) <$> seq 0 n)) as Hids.
    { unfold ids. by rewrite fmap_app, requests_ids. }
    apply IH; [done|..]; cbn [_sent]; rewrite Hids.
    + intros b i Hb [Hin|(j & Hj & _)%list_elem_of_fmap]%elem_of_app.
      * by apply (Hfresh b i); [right|].
      * apply slot_id_inj in Hj as [-> _]. done.
    + apply NoDup_app. split_and!; [done| |].
      * intros x Hx (j & -> & _)%list_elem_of_fmap. by apply (Hfresh (EntryIntent.client_intent_id intent) j); [left|].
      * apply NoDup_fmap_2_strong; [|apply NoDup_seq]. intros i j _ _ Hij. by apply slot_id_inj in Hij as [_ ?].
Qed.

(** A bundle that fails keeps its reservation: although not one slot landed,
    the same intent again is refused, and nothing is sent, as soon as twice
    its size passes the cap. *)
Theorem failed_bundle_blocks_retry o intent e w retry :
  entry_wf intent → entry_wf retry → EntryIntent.mint retry = EntryIntent.mint intent →
  EntryIntent.sol_in_lamports retry = EntryIntent.sol_in_lamports intent →
  (∀ log i e, landed (WalletSlotFill.mk "" "" (slot_fill (venue_execute log i e)) 0) = false) →
  let mint := EntryIntent.mint intent in
  let cur := MintExposureLedger.get_exposure mint (_ledger w) in
  cur + EntryIntent.sol_in_lamports intent ≤ MintExposureLedger._cap (_ledger w) <
    cur + 2 * EntryIntent.sol_in_lamports intent →
  ∃ r w', execute_bundle venue_execute o intent e w = (Ok r, w') ∧ BundleFillResult.any_landed r = false ∧
    execute_bundle venue_execute o retry e w' = (Raise (AntiClusterCapExceeded mint), w').
Proof.
  intros Hwf Hwf2 Hm Hs Hfail. cbv zeta. intros [Hc1 Hc2]. pose proof (execute_bundle_spec o intent e w Hwf) as E. cbv zeta in E.
  rewrite (proj2 (Z.ltb_ge _ _) Hc1) in E. eexists _, _. split; [exact E|]. split.
  - cbn [BundleFillResult.any_landed _aggregate_fills]. apply not_true_iff_false. intros (s & Hin & Hl)%existsb_exists.
    set (reqs := requests intent e 0 (slots_of o intent)) in *.
    destruct (slot_fills_wallets intent 0 (slots_of o intent) (answers (_sent w) reqs)) as (_ & _ & F3).
    { rewrite answers_length. apply requests_length. }
    assert (WalletSlotFill.fill s ∈ answers (_sent w) reqs) as Hf.
    { rewrite <- F3. apply list_elem_of_fmap_2, list_elem_of_In, Hin. }
    apply list_elem_of_lookup in Hf as [k Hk].
    destruct (reqs !! k) as [[i e']|] eqn:Er.
    + rewrite (answers_lookup _ _ k i e' Er) in Hk. injection Hk as Hk.
      specialize (Hfail (_sent w ++ take k reqs) i e'). unfold landed in *. cbn in Hfail. congruence.
    + apply lookup_ge_None in Er. apply lookup_lt_Some in Hk. rewrite answers_length in Hk. lia.
  - rewrite execute_bundle_spec by done. cbv zeta. cbn [_ledger].
    rewrite Hm, Hs, get_set_exposure. rewrite (proj2 (Z.ltb_lt _ _)); [done|]. cbn [MintExposureLedger.set_exposure MintExposureLedger._cap]. lia.
Qed.
End Bundle.

(** ** Configuration and reconciliation *)

Lemma n_max_range_ok n m : n_max_range n = Ok m → m = n ∧ 1 ≤ n ≤ N_WALLETS_MAX_HARD_CEILING.
Proof.
  unfold n_max_range. destruct (Z.ltb_spec n 1); [done|]. destruct (Z.ltb_spec N_WALLETS_MAX_HARD_CEILING n); [done|].
  intros [= <-]. lia.
Qed.

(** Several wallets only on request, and never more than five.  An
    orchestrator that could be built has between one and five wallets, all
    distinct, the provisioned signer wallet among them; without an override
    and unless the environment says true, exactly one. *)
Theorem wallets_bounded env wallet_ids n_max o :
  MultiWalletOrchestrator.__init__ env wallet_ids n_max = Ok o →
  MultiWalletOrchestrator._wallet_ids o = wallet_ids ∧
  1 ≤ MultiWalletOrchestrator.n_wallets o ≤ MultiWalletOrchestrator._effective_n_max o ∧
  MultiWalletOrchestrator._effective_n_max o ≤ N_WALLETS_MAX_HARD_CEILING ∧ NoDup wallet_ids ∧
  (∀ p, env !! "SIGNER_WALLET_ID" = Some p → p ≠ "" → p ∈ wallet_ids) ∧
  (n_max = None → lower (strip (default "false" (env !! "N_WALLETS_MAX_ENABLED"))) ≠ "true" →
     MultiWalletOrchestrator.n_wallets o = 1).
Proof.
  unfold MultiWalletOrchestrator.__init__, mbind, result_bind. destruct (_resolve_n_max env n_max) as [n|] eqn:En; [|done].
  case_bool_decide as Hne; [done|]. destruct (Z.ltb_spec n (Z.of_nat (length wallet_ids))) as [|Hle]; [done|].
  case_bool_decide as Hnd; cbn [negb]; [|done]. destruct (_assert_signer_wallet_id_alignment _ _) eqn:Ea; [|done].
  intros [= <-]. cbn. unfold MultiWalletOrchestrator.n_wallets; cbn.
  assert (1 ≤ Z.of_nat (length wallet_ids)) as H1 by (destruct wallet_ids; cbn; [done|lia]).
  assert (1 ≤ n ≤ N_WALLETS_MAX_HARD_CEILING ∧ (n_max = None →
    lower (strip (default "false" (env !! "N_WALLETS_MAX_ENABLED"))) ≠ "true" → n = 1)) as [Hn Hone].
  { unfold _resolve_n_max in En. destruct n_max as [[z|]|]; [|done|].
    - apply n_max_range_ok in En as [-> ?]. done.
    - case_bool_decide as Et; cbn [negb] in En.
      + destruct (parse_int _); [|done]. apply n_max_range_ok in En as [-> ?]. done.
      + injection En as <-. unfold N_WALLETS_MAX_DEFAULT, N_WALLETS_MAX_HARD_CEILING. split; [lia|done]. }
  split_and!; [done|done|done|apply Hn| | |].
  - apply NoDup_ListNoDup. clear -Hnd. revert Hnd. induction wallet_ids as [|x l IH]; cbn; [constructor|].
    pose proof (NoDup_remove_dups l) as H.
    assert (length (remove_dups l) ≤ length l)%nat as Hlen.
    { clear. induction l as [|y l IH]; cbn; [done|]. case_decide; cbn; lia. }
    case_decide as Hin; cbn; intros E; [lia|]. constructor; [by rewrite <- list_elem_of_In|]. apply IH. lia.
  - intros p Hp Hne'. unfold _assert_signer_wallet_id_alignment in Ea. rewrite Hp in Ea.
    rewrite (bool_decide_eq_false_2 _ Hne') in Ea. cbn in Ea. by case_bool_decide.
  - intros H2 H3. specialize (Hone H2 H3). lia.
Qed.

(** Reconciliation stays in bounds: the filled share is between 0 and 10000
    bps, the landed slots are at most all of them, and the spent amount is
    what the landed slots were allocated. *)
Theorem reconcile_bounds slots expected :
  ∃ s, reconcile (_aggregate_fills slots) (PyInt expected) = Ok s ∧
    0 ≤ PartialFillSummary.partial_fill_ratio_bps s ≤ 10000 ∧
    0 ≤ PartialFillSummary.landed_slots s ≤ PartialFillSummary.total_slots s ∧
    PartialFillSummary.net_sol_spent_lamports s = BundleFillResult.total_sol_spent_lamports (_aggregate_fills slots) ∧
    (PartialFillSummary.is_partial_fill s = true → 0 < PartialFillSummary.landed_slots s < PartialFillSummary.total_slots s).
Proof.
  eexists. split; [reflexivity|]. cbn [PartialFillSummary.partial_fill_ratio_bps PartialFillSummary.landed_slots
    PartialFillSummary.total_slots PartialFillSummary.net_sol_spent_lamports PartialFillSummary.is_partial_fill
    BundleFillResult.wallet_fills _aggregate_fills BundleFillResult.total_sol_spent_lamports BundleFillResult.partial_fill].
  pose proof (List.filter_length_le landed slots). split; [destruct (_ && _); lia|]. split; [lia|]. split; [done|].
  intros [Ha Hl]%andb_true_iff. apply Nat.ltb_lt in Hl. split; [|lia].
  apply existsb_exists in Ha as (s & Hin & Hs).
  assert (In s (List.filter landed slots)) as Hf by by apply List.filter_In.
  destruct (List.filter landed slots); [done|cbn; lia].
Qed.

(** *** Witnesses: 100 lamports over three wallets; the first slot's venue
    call raises, the others land. *)

Definition three_wallets : MultiWalletOrchestrator.t := MultiWalletOrchestrator.mk ["w0"; "w1"; "w2"] 3.
Definition bundle_intent (id : string) : EntryIntent.t :=
  EntryIntent.mk id "M" (EventTime.mk 7 1 1) 100 50 1 1 12 (CostStack.mk 400 1 1 1 1 1 150 300) "sim" "w0".
Definition bundle_venue (log : MultiWalletOrchestrator.sent) (i : EntryIntent.t) (_ : LaunchEvent.t) : result FillResult.t :=
  match log with
  | [] => Raise (RuntimeError "rpc")
  | _ => Ok (FillResult.mk true "" None None 0 (EntryIntent.sol_in_lamports i * 3) "1" 0 2 1)
  end.
Definition dead_venue (log : MultiWalletOrchestrator.sent) (i : EntryIntent.t) (_ : LaunchEvent.t) : result FillResult.t :=
  Raise (RuntimeError "rpc").
Definition any_event : LaunchEvent.t :=
  LaunchEvent.mk "M" "p" PUMPFUN (EventTime.mk 7 1 1) 7 7 GEYSER 1 1 6 1 1 "c" None None 0.
Definition fresh_world (cap : Z) : MultiWalletOrchestrator.World :=
  MultiWalletOrchestrator.mk_world (MintExposureLedger.mk cap ∅) [].

Lemma bundle_intent_wf id : entry_wf (bundle_intent id).
Proof. unfold entry_wf; cbn. lia. Qed.

Example three_slots :
  match MultiWalletOrchestrator.execute_bundle bundle_venue three_wallets (bundle_intent "x") any_event (fresh_world 250) with
  | (Ok r, w) => Some (WalletSlotFill.sol_allocated_lamports <$> BundleFillResult.wallet_fills r,
      WalletSlotFill.intent_id <$> BundleFillResult.wallet_fills r,
      BundleFillResult.total_sol_spent_lamports r, BundleFillResult.partial_fill r,
      BundleFillResult.aggregate_effective_price_decimal r)
  | _ => None
  end = Some ([33; 33; 34], ["x:w0"; "x:w1"; "x:w2"], 67, true, "0.3333333333333333333333333333").
Proof. vm_compute. reflexivity. Qed.

Lemma bundle_runs_every_slot_witness :
  ∃ r w' reqs, MultiWalletOrchestrator.execute_bundle bundle_venue three_wallets (bundle_intent "x") any_event (fresh_world 250) = (Ok r, w') ∧
    MintExposureLedger.get_exposure "M" (MultiWalletOrchestrator._ledger w') = 100 ∧
    zsum ((λ q, EntryIntent.sol_in_lamports q.1) <$> (reqs : MultiWalletOrchestrator.sent)) = 100.
Proof.
  destruct (proj2 (bundle_runs_every_slot bundle_venue three_wallets (bundle_intent "x") any_event (fresh_world 250)
    (bundle_intent_wf "x") ltac:(discriminate) ltac:(cbn; lia)) ltac:(by vm_compute)) as (r & w' & reqs & H1 & H2 & _ & _ & _ & H3 & _).
  exists r, w', reqs. split; [exact H1|]. by split.
Defined.

Lemma anti_cluster_cap_witness :
  0 ≤ asked "M" (MultiWalletOrchestrator._sent (run bundle_venue three_wallets
    [(bundle_intent "x", any_event); (bundle_intent "y", any_event); (bundle_intent "z", any_event)] (fresh_world 250))) ≤ 250.
Proof.
  apply (anti_cluster_cap_holds bundle_venue three_wallets 250 (MintExposureLedger.mk 250 ∅)); [reflexivity|discriminate|].
  repeat apply Forall_cons_2; try apply Forall_nil_2; (split; [apply bundle_intent_wf|cbn; lia]).
Defined.

Lemma slot_ids_never_repeat_witness :
  NoDup (ids (MultiWalletOrchestrator._sent (run bundle_venue three_wallets
    [(bundle_intent "x", any_event); (bundle_intent "y", any_event)] (fresh_world 250)))).
Proof.
  apply (slot_ids_never_repeat bundle_venue three_wallets (MintExposureLedger.mk 250 ∅)).
  - repeat apply Forall_cons_2; try apply Forall_nil_2; apply bundle_intent_wf.
  - by apply (bool_decide_unpack _); vm_compute.
Defined.

Lemma failed_bundle_blocks_retry_witness :
  ∃ r w', MultiWalletOrchestrator.execute_bundle dead_venue three_wallets (bundle_intent "x") any_event (fresh_world 150) = (Ok r, w') ∧
    BundleFillResult.any_landed r = false ∧
    MultiWalletOrchestrator.execute_bundle dead_venue three_wallets (bundle_intent "x2") any_event w' =
      (Raise (AntiClusterCapExceeded "M"), w').
Proof.
  apply (failed_bundle_blocks_retry dead_venue three_wallets (bundle_intent "x") any_event (fresh_world 150) (bundle_intent "x2"));
    [apply bundle_intent_wf..|reflexivity|reflexivity|reflexivity|by vm_compute].
Defined.

Lemma wallets_bounded_witness :
  ∃ o, MultiWalletOrchestrator.__init__ ∅ ["wallet-0"] None = Ok o ∧ MultiWalletOrchestrator.n_wallets o = 1.
Proof.
  exists (MultiWalletOrchestrator.mk ["wallet-0"] 1). split; [vm_compute; reflexivity|].
  refine (proj2 (proj2 (proj2 (proj2 (proj2 (wallets_bounded ∅ ["wallet-0"] None (MultiWalletOrchestrator.mk ["wallet-0"] 1) _))))) eq_refl _).
  - vm_compute. reflexivity.
  - rewrite lookup_empty. vm_compute. discriminate.
Defined.
