(* ===== verification/Tips.v ===== *)
(** * Tips and the atomic buy bundle: [aats/mev/tip_stream.py],
    [aats/mev/tip_controller.py] and [aats/mev/bundle_submitter.py]

    The live tip floor read point-in-time, the tip bounded by the edge, and
    the bundle that lands whole or not at all.  The stream behind the
    controller and the block engine are interfaces; the fixed stream and the
    mock engine of the source are instances.  Log calls are left out. *)

From S2P Require Import Prelude Decimal RiskContracts SurvivableStop DecimalOrder PyText.
From Stdlib Require Import Sorted.

(** ** The tip stream *)

Module TipFloorSnapshot.
Record t : Type := mk {
  p25_lamports : Z; p50_lamports : Z; p75_lamports : Z; p95_lamports : Z;
  tip_accounts : list string; as_of_slot : Z; as_of_block_time_ms : Z
}.
#[global] Instance t_eq_dec : EqDecision t.
Proof. solve_decision. Defined.

Definition _reject_float_lamports (p25 p50 p75 p95 : pynum) : result unit :=
  reject_floats "TipFloorSnapshot"
    [("p25_lamports", p25); ("p50_lamports", p50); ("p75_lamports", p75); ("p95_lamports", p95)].

Definition ladder (s : t) : list Z := [p25_lamports s; p50_lamports s; p75_lamports s; p95_lamports s].

Definition _ladder_monotonic (s : t) : result t :=
  if existsb (λ x, x <? 0) (ladder s) then Raise (ValueError "TipFloorSnapshot percentiles must be >= 0")
  else if negb ((p25_lamports s <=? p50_lamports s) && (p50_lamports s <=? p75_lamports s) && (p75_lamports s <=? p95_lamports s))
  then Raise (ValueError "TipFloorSnapshot percentile ladder must be non-decreasing")
  else if bool_decide (tip_accounts s = []) then Raise (ValueError "TipFloorSnapshot.tip_accounts must be non-empty")
  else Ok s.

Definition new (p25 p50 p75 p95 : pynum) (accounts : list string) (slot block_time : Z) : result t :=
  _ ← _reject_float_lamports p25 p50 p75 p95;
  _ladder_monotonic (mk (pynum_int p25) (pynum_int p50) (pynum_int p75) (pynum_int p95) accounts slot block_time).

Definition percentile (s : t) (pct : Z) : result Z :=
  if pct =? 25 then Ok (p25_lamports s) else if pct =? 50 then Ok (p50_lamports s)
  else if pct =? 75 then Ok (p75_lamports s) else if pct =? 95 then Ok (p95_lamports s)
  else Raise (ValueError "Unsupported percentile").
End TipFloorSnapshot.

Definition StaleTipStreamError : exn := CustomError "StaleTipStreamError" "".

(** [TipStreamProtocol]: what [current] promises of a well-formed stream is
    that no snapshot lies in the future and that every snapshot passed its
    validator. *)
Class TipStream (S : Type) := current : S → Z → result TipFloorSnapshot.t.
Class TipStreamLaws (S : Type) `{TipStream S} := {
  stream_ok : S → Prop;
  current_ok s d snap : stream_ok s → current s d = Ok snap →
    TipFloorSnapshot.as_of_slot snap ≤ d ∧ TipFloorSnapshot._ladder_monotonic snap = Ok snap
}.

Module StaticTipStream.
Record t : Type := mk { _snapshots : list TipFloorSnapshot.t }.

(** [sorted(key=as_of_slot)] is stable: [x], which comes first, stays before
    every later element of the same slot. *)
Fixpoint insert (x : TipFloorSnapshot.t) (l : list TipFloorSnapshot.t) : list TipFloorSnapshot.t :=
  match l with
  | [] => [x]
  | y :: l' => if TipFloorSnapshot.as_of_slot x <=? TipFloorSnapshot.as_of_slot y then x :: l else y :: insert x l'
  end.
Definition sorted (l : list TipFloorSnapshot.t) : list TipFloorSnapshot.t := foldr insert [] l.

Definition __init__ (snapshots : list TipFloorSnapshot.t) : result t :=
  if bool_decide (snapshots = []) then Raise (ValueError "StaticTipStream requires at least one snapshot.")
  else Ok (mk (sorted snapshots)).

Definition current (s : t) (decision_slot : Z) : result TipFloorSnapshot.t :=
  match last (List.filter (λ x, TipFloorSnapshot.as_of_slot x <=? decision_slot) (_snapshots s)) with
  | None => Raise StaleTipStreamError
  | Some x => Ok x
  end.
End StaticTipStream.

(** ** The tip controller *)

Definition DEFAULT_EDGE_CAP_FRAC : dec := mkdec 30 (-2).

(** [_BUCKET_TO_PERCENTILE] *)
Definition _BUCKET_TO_PERCENTILE (bucket : string) : result Z :=
  if bool_decide (bucket = "low") then Ok 50 else if bool_decide (bucket = "medium") then Ok 75
  else if bool_decide (bucket = "high") then Ok 95 else Raise (KeyError bucket).

Inductive TipDecisionKind : Type := SUBMIT | DO_NOT_SUBMIT.
#[export] Instance TipDecisionKind_eq_dec : EqDecision TipDecisionKind.
Proof. solve_decision. Defined.

Module TipDecision.
Record t : Type := mk {
  kind : TipDecisionKind; tip_lamports : Z; expected_edge_lamports : Z; edge_ceiling_lamports : Z;
  live_floor_lamports : Z; percentile_used : Z; contention_bucket : string; snapshot_slot : Z; reason : string;
  tip_pct_of_edge_bps : Z
}.
End TipDecision.

Definition _pct_of_edge_bps (tip edge : Z) : Z := if edge <=? 0 then 0 else tip * 10000 / edge.

(** The constructor's check of [edge_cap_frac], the same in the controller and
    in the contention recorder. *)
Definition edge_cap (v : num_in) : result dec :=
  cap ← match v with
        | NFloat _ => Raise (TypeError "edge_cap_frac must be Decimal or str, not float (exact-money rule).")
        | _ => _to_decimal_price v "edge_cap_frac"
        end;
  if negb (dltb d0 cap && dleb cap (dec_of_Z 1)) then Raise (ValueError "edge_cap_frac must be in (0, 1]") else Ok cap.

(** [int((cap * Decimal(edge)).to_integral_value(rounding=ROUND_FLOOR))] *)
Definition edge_ceiling (cap : dec) (edge : Z) : Z := dec_floor (dmul cap (dec_of_Z edge)).

Module TipController.
Section Stream.
Context {S : Type} `{TipStream S}.
Record t : Type := mk { _stream : S; _edge_cap_frac : dec }.

Definition __init__ (stream : S) (edge_cap_frac : num_in) : result t :=
  cap ← edge_cap edge_cap_frac; Ok (mk stream cap).

Definition _refuse (reason : string) (edge ceiling floor percentile : Z) (bucket : string) (snapshot : Z) : TipDecision.t :=
  TipDecision.mk DO_NOT_SUBMIT 0 edge ceiling floor percentile bucket snapshot reason (_pct_of_edge_bps floor edge).

Definition price_tip (c : t) (expected_edge : pynum) (decision_slot : Z) (bucket : string) : result TipDecision.t :=
  match expected_edge with
  | PyFloat _ => Raise (TypeError "expected_edge_lamports must be int (lamports), not float (exact-money rule).")
  | PyInt edge =>
      if edge <=? 0 then Ok (_refuse "no_expected_edge" (Z.max 0 edge) 0 0 0 bucket (-1))
      else match current (_stream c) decision_slot with
           | Raise e =>
               if bool_decide (e = StaleTipStreamError) then Ok (_refuse "no_live_tip_floor" edge 0 0 0 bucket (-1))
               else Raise e
           | Ok snap =>
               percentile ← _BUCKET_TO_PERCENTILE bucket;
               live_floor ← TipFloorSnapshot.percentile snap percentile;
               let ceiling := edge_ceiling (_edge_cap_frac c) edge in
               if ceiling <? live_floor
               then Ok (_refuse "priced_out_live_floor_exceeds_edge_ceiling" edge ceiling live_floor percentile bucket
                          (TipFloorSnapshot.as_of_slot snap))
               else Ok (TipDecision.mk SUBMIT live_floor edge ceiling live_floor percentile bucket
                          (TipFloorSnapshot.as_of_slot snap) "priced_at_live_floor_within_edge_ceiling"
                          (_pct_of_edge_bps live_floor edge))
           end
  end.

Definition log_tip_pct_of_pnl (tip pnl : pynum) : result Z :=
  match tip, pnl with
  | PyInt tip, PyInt pnl => Ok (if pnl <=? 0 then -1 else tip * 10000 / pnl)
  | _, _ => Raise (TypeError "tip / pnl must be int lamports, not float (exact-money rule).")
  end.
End Stream.
Arguments t S : clear implicits.
End TipController.

(** ** The bundle *)

Inductive BundleSubmitMode : Type := BDRY_RUN | BLIVE.
Module BundleStatus.
Inductive t : Type := LANDED | REVERTED | DROPPED | DRY_RUN.
#[global] Instance t_eq_dec : EqDecision t.
Proof. solve_decision. Defined.
End BundleStatus.

Module BundleResult.
Record t : Type := mk {
  status : BundleStatus.t; landed_buy : bool; bundle_id : option string; reason : string;
  tip_lamports : Z; min_tokens_out_base : Z
}.
Definition _flat_unless_landed (r : t) : result t :=
  if landed_buy r && negb (bool_decide (status r = BundleStatus.LANDED))
  then Raise (ValueError "landed_buy=True is only legal when status==LANDED") else Ok r.
End BundleResult.

Module SignedTx.
Record t : Type := mk { serialized_b64 : string; signer_pubkey : string; intent_kind : string; mint : string; client_intent_id : string }.
End SignedTx.

Module AtomicBuyBundle.
Record t : Type := mk {
  signed_buy_tx : SignedTx.t; tip_lamports : Z; tip_account : string; min_tokens_out_base : Z; client_intent_id : string
}.

Definition _reject_float_money (tip min_out : pynum) : result unit :=
  reject_floats "AtomicBuyBundle" [("tip_lamports", tip); ("min_tokens_out_base", min_out)].

Definition _positive_thresholds (b : t) : result t :=
  if tip_lamports b <? 0 then Raise (ValueError "tip_lamports must be >= 0")
  else if min_tokens_out_base b <=? 0 then Raise (ValueError "min_tokens_out_base must be > 0")
  else if bool_decide (tip_account b = "") then Raise (ValueError "tip_account must be a pinned Jito tip account")
  else Ok b.

Definition new (tx : SignedTx.t) (tip : pynum) (account : string) (min_out : pynum) (id : string) : result t :=
  _ ← _reject_float_money tip min_out;
  _positive_thresholds (mk tx (pynum_int tip) account (pynum_int min_out) id).
End AtomicBuyBundle.

(** [BlockEngineClientProtocol]: a client with a state of its own. *)
Class BlockEngineClient (E : Type) := {
  send_bundle : AtomicBuyBundle.t → M E string;
  poll_status : string → M E BundleStatus.t
}.

Module MockBlockEngine.
Record t : Type := mk { _actual_tokens_out : Z; _force_drop : bool; _submitted : gmap string AtomicBuyBundle.t; _counter : Z }.
Definition __init__ (actual : pynum) (force_drop : bool) : result t :=
  match actual with
  | PyFloat _ => Raise (TypeError "actual_tokens_out_base must be int base units, not float.")
  | PyInt z => Ok (mk z force_drop ∅ 0)
  end.
Definition send_bundle (b : AtomicBuyBundle.t) : M t string := λ s,
  let n := _counter s + 1 in
  let id := "mock-bundle-" +:+ pretty n +:+ "-" +:+ AtomicBuyBundle.client_intent_id b in
  (Ok id, mk (_actual_tokens_out s) (_force_drop s) (<[id := b]> (_submitted s)) n).
Definition poll_status (id : string) : M t BundleStatus.t := gets (λ s,
  match _submitted s !! id with
  | None => BundleStatus.DROPPED
  | Some b =>
      if _force_drop s then BundleStatus.DROPPED
      else if _actual_tokens_out s <? AtomicBuyBundle.min_tokens_out_base b then BundleStatus.REVERTED
      else BundleStatus.LANDED
  end).
End MockBlockEngine.
#[export] Instance MockBlockEngine_client : BlockEngineClient MockBlockEngine.t :=
  { send_bundle := MockBlockEngine.send_bundle; poll_status := MockBlockEngine.poll_status }.

Definition LiveBundleBlocked : exn := CustomError "LiveBundleBlocked" "".
Definition _dry_run_env_disabled (env : gmap string string) : bool :=
  bool_decide (lower (strip (default "true" (env !! "DRY_RUN_ENABLED"))) = "false").

Module JitoBundleSubmitter.
Section Submit.
Context {E : Type} `{BlockEngineClient E} (live_submit_enabled : bool) (env : gmap string string).

Definition submit_mode : BundleSubmitMode :=
  if live_submit_enabled && _dry_run_env_disabled env then BLIVE else BDRY_RUN.

Definition _assert_live_allowed : result unit :=
  if negb live_submit_enabled then Raise LiveBundleBlocked
  else if negb (_dry_run_env_disabled env) then Raise LiveBundleBlocked
  else Ok tt.

Definition status_reason (s : BundleStatus.t) : string :=
  match s with
  | BundleStatus.LANDED => "bundle_landed" | BundleStatus.REVERTED => "min_out_reverted_flat_state"
  | BundleStatus.DROPPED => "bundle_dropped_flat_state" | BundleStatus.DRY_RUN => "unknown"
  end.

Definition submit_atomic_buy (b : AtomicBuyBundle.t) : M E BundleResult.t :=
  match submit_mode with
  | BDRY_RUN =>
      lift (BundleResult._flat_unless_landed (BundleResult.mk BundleStatus.DRY_RUN false None "dry_run"
        (AtomicBuyBundle.tip_lamports b) (AtomicBuyBundle.min_tokens_out_base b)))
  | BLIVE =>
      lift _assert_live_allowed;;
      id ← send_bundle b;
      status ← poll_status id;
      lift (BundleResult._flat_unless_landed (BundleResult.mk status (bool_decide (status = BundleStatus.LANDED)) (Some id)
        (status_reason status) (AtomicBuyBundle.tip_lamports b) (AtomicBuyBundle.min_tokens_out_base b)))
  end.
End Submit.
End JitoBundleSubmitter.

(** ** The fixed stream *)

Lemma insert_elem x y l : y ∈ StaticTipStream.insert x l ↔ y = x ∨ y ∈ l.
Proof.
  induction l as [|z l IH]; cbn; [by rewrite list_elem_of_singleton, elem_of_nil; tauto|].
  destruct (_ <=? _); rewrite !elem_of_cons; [done|]. rewrite IH. tauto.
Qed.

Lemma sorted_elem x l : x ∈ StaticTipStream.sorted l ↔ x ∈ l.
Proof. induction l as [|y l IH]; cbn; [done|]. by rewrite insert_elem, IH, elem_of_cons. Qed.

Definition slot_le (x y : TipFloorSnapshot.t) : Prop := TipFloorSnapshot.as_of_slot x ≤ TipFloorSnapshot.as_of_slot y.

Lemma insert_sorted x l : StronglySorted slot_le l → StronglySorted slot_le (StaticTipStream.insert x l).
Proof.
  induction 1 as [|y l Hl IH Hy]; cbn; [by repeat constructor|].
  destruct (Z.leb_spec (TipFloorSnapshot.as_of_slot x) (TipFloorSnapshot.as_of_slot y)).
  - constructor; [by constructor|]. constructor; [done|]. eapply Forall_impl; [exact Hy|]. unfold slot_le. intros; lia.
  - constructor; [done|]. apply Forall_forall. intros z [->|Hz]%insert_elem; [unfold slot_le; lia|].
    rewrite Forall_forall in Hy. by apply Hy.
Qed.

Lemma sorted_sorted l : StronglySorted slot_le (StaticTipStream.sorted l).
Proof. induction l; cbn; [constructor|by apply insert_sorted]. Qed.

(** The last of a sorted list that passes a test bounded by the order. *)
Lemma last_filter_max l d x : StronglySorted slot_le l →
  last (List.filter (λ y, TipFloorSnapshot.as_of_slot y <=? d) l) = Some x →
  x ∈ l ∧ TipFloorSnapshot.as_of_slot x ≤ d ∧
  ∀ y, y ∈ l → TipFloorSnapshot.as_of_slot y ≤ d → slot_le y x.
Proof.
  induction 1 as [|y l Hl IH Hy]; cbn [List.filter]; [done|]. rewrite Forall_forall in Hy.
  destruct (Z.leb_spec (TipFloorSnapshot.as_of_slot y) d) as [Hyd|Hyd].
  - rewrite last_cons. destruct (last (List.filter _ l)) as [z|] eqn:E.
    + intros [= ->]. destruct (IH eq_refl) as (H1 & H2 & H3). split_and!; [by right|done|].
      intros z [->|Hz]%elem_of_cons Hzd; [by apply Hy|by apply H3].
    + intros [= ->]. split_and!; [by left|done|]. intros z [->|Hz]%elem_of_cons Hzd; [unfold slot_le; lia|].
      exfalso. apply last_None in E. assert (In z (List.filter (λ y, TipFloorSnapshot.as_of_slot y <=? d) l)) as Hin.
      { apply List.filter_In. split; [by apply list_elem_of_In|by apply Z.leb_le]. }
      by rewrite E in Hin.
  - intros E. destruct (IH E) as (H1 & H2 & H3). split_and!; [by right|done|].
    intros z [->|Hz]%elem_of_cons Hzd; [lia|by apply H3].
Qed.

#[export] Instance StaticTipStream_stream : TipStream StaticTipStream.t := StaticTipStream.current.

(** The fixed stream answers with a freshest snapshot at or before the slot,
    and refuses exactly when every snapshot lies after it. *)
Theorem static_stream_point_in_time snapshots s d :
  StaticTipStream.__init__ snapshots = Ok s →
  match StaticTipStream.current s d with
  | Ok x => x ∈ snapshots ∧ TipFloorSnapshot.as_of_slot x ≤ d ∧
      ∀ y, y ∈ snapshots → TipFloorSnapshot.as_of_slot y ≤ d → TipFloorSnapshot.as_of_slot y ≤ TipFloorSnapshot.as_of_slot x
  | Raise e => e = StaleTipStreamError ∧ ∀ y, y ∈ snapshots → d < TipFloorSnapshot.as_of_slot y
  end.
Proof.
  unfold StaticTipStream.__init__. case_bool_decide; [done|]. intros [= <-].
  unfold StaticTipStream.current; cbn [StaticTipStream._snapshots].
  destruct (last _) as [x|] eqn:E.
  - destruct (last_filter_max _ d x (sorted_sorted snapshots) E) as (H1 & H2 & H3). rewrite sorted_elem in H1.
    cbv iota. split_and!; [exact H1|exact H2|]. intros y Hy. apply H3. by apply sorted_elem.
  - split; [done|]. intros y Hy. apply last_None in E. apply Z.nle_gt. intros Hle.
    assert (In y (List.filter (λ z, TipFloorSnapshot.as_of_slot z <=? d) (StaticTipStream.sorted snapshots))) as Hin.
    { apply List.filter_In. split; [by apply list_elem_of_In, sorted_elem|by apply Z.leb_le]. }
    by rewrite E in Hin.
Qed.

#[export] Program Instance StaticTipStream_laws : TipStreamLaws StaticTipStream.t := {
  stream_ok s := StronglySorted slot_le (StaticTipStream._snapshots s) ∧
    Forall (λ x, TipFloorSnapshot._ladder_monotonic x = Ok x) (StaticTipStream._snapshots s)
}.
Next Obligation.
  intros s d x [Hs Hv]. unfold current, StaticTipStream_stream, StaticTipStream.current.
  destruct (last _) as [y|] eqn:E; [|done]. intros [= ->]. destruct (last_filter_max _ d x Hs E) as (H1 & H2 & _).
  split; [done|]. rewrite Forall_forall in Hv. by apply Hv.
Qed.

(** ** The edge ceiling *)

Lemma edge_cap_ok v cap : edge_cap v = Ok cap → 0 < coef cap ∧ dle cap (dec_of_Z 1).
Proof.
  unfold edge_cap, mbind, result_bind. destruct v as [x|z|x|b|x]; [| | | |done];
    (destruct (_to_decimal_price _ _) as [d|]; [|done]);
    (destruct (dltb d0 d && dleb d (dec_of_Z 1)) eqn:E; cbn [negb]; [|done]; intros [= <-]; apply andb_true_iff in E as [E1 E2];
     split; [apply dleb_zero_coef; rewrite dltb_dleb in E1; by apply negb_true_iff|by apply dleb_dle]).
Qed.

Lemma dmul_comm a b : dmul a b = dmul b a.
Proof. unfold dmul. by rewrite Z.mul_comm, Z.add_comm. Qed.

Lemma fits_Z z : 0 ≤ z < 10 ^ 28 → fits (dec_of_Z z).
Proof. intros. apply fits_bound. lia. Qed.

(** The ceiling is at most the edge and grows with it. *)
Lemma edge_ceiling_bounds cap edge : 0 < coef cap → dle cap (dec_of_Z 1) → 0 ≤ edge < 10 ^ 28 →
  0 ≤ edge_ceiling cap edge ≤ edge.
Proof.
  intros Hc H1 He. unfold edge_ceiling. split.
  - transitivity (dec_floor d0); [by vm_compute|]. apply dec_floor_mono, dle_sign; [cbn; lia|].
    apply dmul_nonneg; cbn; lia.
  - transitivity (dec_floor (dec_of_Z edge)); [|unfold dec_floor; cbn; lia].
    apply dec_floor_mono. rewrite dmul_comm. apply dmul_shrinks; [by apply fits_Z|cbn; lia|split; [lia|done]].
Qed.

Lemma edge_ceiling_mono cap e e' : 0 < coef cap → 0 ≤ e ≤ e' → edge_ceiling cap e ≤ edge_ceiling cap e'.
Proof.
  intros Hc He. unfold edge_ceiling. apply dec_floor_mono, dmul_mono; [lia|cbn; lia|apply dle_refl|].
  apply (dle_at _ _ 0); [cbn; lia..|]. unfold rescale; cbn [coef expo dec_of_Z]. change (10 ^ (0 - 0)) with 1. lia.
Qed.

(** ** Pricing *)

Definition bucket_percentile (b : string) : option Z :=
  match _BUCKET_TO_PERCENTILE b with Ok p => Some p | Raise _ => None end.

(** The floor of a bucket on a snapshot. *)
Definition floor_of (snap : TipFloorSnapshot.t) (bucket : string) : option Z :=
  p ← bucket_percentile bucket;
  match TipFloorSnapshot.percentile snap p with Ok f => Some f | Raise _ => None end.

Lemma floor_of_ok snap bucket p : _BUCKET_TO_PERCENTILE bucket = Ok p →
  ∃ f, TipFloorSnapshot.percentile snap p = Ok f ∧ floor_of snap bucket = Some f ∧
    (TipFloorSnapshot._ladder_monotonic snap = Ok snap → 0 ≤ f).
Proof.
  unfold floor_of, bucket_percentile. intros E. rewrite E. cbn [mbind option_bind].
  assert (p = 50 ∨ p = 75 ∨ p = 95) as Hp.
  { unfold _BUCKET_TO_PERCENTILE in E. repeat case_bool_decide; try done; injection E as <-; auto. }
  assert (∀ f, f ∈ TipFloorSnapshot.ladder snap → TipFloorSnapshot._ladder_monotonic snap = Ok snap → 0 ≤ f) as Hn.
  { intros f Hf. unfold TipFloorSnapshot._ladder_monotonic. destruct (existsb _ _) eqn:Ex; [done|]. intros _.
    apply Z.nlt_ge. intros Hlt. apply not_true_iff_false in Ex. apply Ex, existsb_exists. exists f.
    split; [by apply list_elem_of_In|by apply Z.ltb_lt]. }
  destruct Hp as [->|[->| ->]]; eexists; (split; [reflexivity|]; split; [reflexivity|]); apply Hn; unfold TipFloorSnapshot.ladder; set_solver.
Qed.

Section Pricing.
Context {S : Type} `{TipStreamLaws S}.
Context (s : S) (cap_arg : num_in) (c : TipController.t S).
Context (Hc : TipController.__init__ s cap_arg = Ok c) (Hs : stream_ok s).
Abbreviation cap := (TipController._edge_cap_frac c).
Abbreviation price := (TipController.price_tip c).

Lemma controller_fields : TipController._stream c = s ∧ 0 < coef cap ∧ dle cap (dec_of_Z 1).
Proof.
  unfold TipController.__init__, mbind, result_bind in Hc. destruct (edge_cap cap_arg) as [d|] eqn:E; [|done].
  injection Hc as <-. cbn. split; [done|]. by apply (edge_cap_ok cap_arg).
Qed.

(** C35: A tip is bid exactly when the edge can pay the live floor.  With a valid
    bucket, an edge below 10^28 lamports and a stream that is merely stale or
    answers, pricing returns; it
    bids iff the edge is positive, a snapshot at or before the decision slot
    exists and the bucket's floor on it is at most the ceiling.  A bid is
    that floor, neither more nor less, so it lies between nothing and the
    ceiling, which is at most the edge; a refusal carries no tip. *)
Theorem tip_is_live_floor_within_edge edge slot bucket p :
  _BUCKET_TO_PERCENTILE bucket = Ok p → edge < 10 ^ 28 →
  (∀ e, current s slot = Raise e → e = StaleTipStreamError) →
  ∃ d, price (PyInt edge) slot bucket = Ok d ∧
    (TipDecision.kind d = SUBMIT ↔
       0 < edge ∧ ∃ snap f, current s slot = Ok snap ∧ floor_of snap bucket = Some f ∧ f ≤ edge_ceiling cap edge) ∧
    (TipDecision.kind d = SUBMIT → ∃ snap, current s slot = Ok snap ∧
       floor_of snap bucket = Some (TipDecision.tip_lamports d) ∧
       TipDecision.snapshot_slot d = TipFloorSnapshot.as_of_slot snap ∧ TipDecision.snapshot_slot d ≤ slot ∧
       0 ≤ TipDecision.tip_lamports d ≤ TipDecision.edge_ceiling_lamports d ∧
       TipDecision.edge_ceiling_lamports d ≤ edge ∧ 0 ≤ TipDecision.tip_pct_of_edge_bps d ≤ 10000) ∧
    (TipDecision.kind d = DO_NOT_SUBMIT → TipDecision.tip_lamports d = 0).
Proof.
  intros Hp He Hstale. destruct controller_fields as (Hst & Hc0 & Hc1). unfold TipController.price_tip. rewrite Hst.
  destruct (Z.leb_spec edge 0) as [Hneg|Hpos].
  { eexists. split; [reflexivity|]. cbn. split; [split; [done|lia]|]. by split. }
  destruct (current s slot) as [snap|e] eqn:Ec.
  2:{ rewrite bool_decide_eq_true_2 by by apply Hstale. eexists. split; [reflexivity|]. cbn.
      split; [split; [done|intros (_ & snap & f & ? & _); done]|]. by split. }
  destruct (current_ok s slot snap Hs Ec) as [Hslot Hlad].
  rewrite Hp. destruct (floor_of_ok snap bucket p Hp) as (f & E1 & E2 & E3). cbn [mbind result_bind]. rewrite E1. cbn [mbind result_bind].
  pose proof (edge_ceiling_bounds cap edge Hc0 Hc1 ltac:(lia)) as Hb. specialize (E3 Hlad).
  destruct (Z.ltb_spec (edge_ceiling cap edge) f) as [Hlt|Hge]; eexists; (split; [reflexivity|]); cbn.
  - split; [|by split]. split; [done|]. intros (_ & snap' & f' & [= <-] & E2' & Hle). rewrite E2 in E2'. injection E2' as <-. lia.
  - split; [split; [|done]; intros _; split; [done|]; by exists snap, f|]. split; [|done]. intros _. exists snap.
    assert (0 ≤ _pct_of_edge_bps f edge ≤ 10000) as Hpct.
    { unfold _pct_of_edge_bps. rewrite (proj2 (Z.leb_gt edge 0)) by done. split; [apply Z.div_pos; lia|].
      apply Z.div_le_upper_bound; lia. }
    split_and!; try done; lia.
Qed.

(** More edge never withdraws a bid: what is bid on an edge is bid, at the
    same tip, on every larger one. *)
Theorem bid_kept_with_more_edge edge edge' slot bucket d :
  edge ≤ edge' → price (PyInt edge) slot bucket = Ok d → TipDecision.kind d = SUBMIT →
  ∃ d', price (PyInt edge') slot bucket = Ok d' ∧ TipDecision.kind d' = SUBMIT ∧
    TipDecision.tip_lamports d' = TipDecision.tip_lamports d.
Proof.
  intros Hle. destruct controller_fields as (Hst & Hc0 & Hc1). unfold TipController.price_tip. rewrite Hst.
  destruct (Z.leb_spec edge 0) as [|Hpos]; [by intros [= <-]|]. rewrite (proj2 (Z.leb_gt edge' 0)) by lia.
  destruct (current s slot) as [snap|e]; [|case_bool_decide; [by intros [= <-]|done]].
  unfold mbind, result_bind. destruct (_BUCKET_TO_PERCENTILE bucket) as [p|]; [|done].
  destruct (TipFloorSnapshot.percentile snap p) as [f|]; [|done].
  destruct (Z.ltb_spec (edge_ceiling cap edge) f); [by intros [= <-]|]. intros [= <-] _.
  pose proof (edge_ceiling_mono cap edge edge' Hc0 ltac:(lia)).
  rewrite (proj2 (Z.ltb_ge _ _)) by lia. eexists. by split.
Qed.
End Pricing.

(** ** The bundle lands whole or not at all *)

Section Bundle.
Context {E : Type} `{BlockEngineClient E} (live : bool) (env : gmap string string).
Abbreviation submit_bundle := (JitoBundleSubmitter.submit_atomic_buy live env).

Definition gates_open : bool := live && _dry_run_env_disabled env.

(** What a client can do when it is used: send once, then poll that id. *)
Definition engine_run (b : AtomicBuyBundle.t) : M E (string * BundleStatus.t) :=
  id ← send_bundle b; status ← poll_status id; mret (id, status).

(** A buy is reported only for a landed bundle.  Unless both gates are open
    the block engine is not touched and the answer is a dry run; otherwise the
    bundle is sent once and polled once, an error of the engine is passed on,
    and the answer reports a buy iff the engine said LANDED, with the bundle's
    tip and its minimum. *)
Theorem buy_reported_iff_landed b e :
  submit_bundle b e =
  (if gates_open then
     match engine_run b e with
     | (Ok (id, status), e') =>
         (Ok (BundleResult.mk status (bool_decide (status = BundleStatus.LANDED)) (Some id) (JitoBundleSubmitter.status_reason status)
            (AtomicBuyBundle.tip_lamports b) (AtomicBuyBundle.min_tokens_out_base b)), e')
     | (Raise x, e') => (Raise x, e')
     end
   else (Ok (BundleResult.mk BundleStatus.DRY_RUN false None "dry_run"
           (AtomicBuyBundle.tip_lamports b) (AtomicBuyBundle.min_tokens_out_base b)), e)).
Proof.
  unfold JitoBundleSubmitter.submit_atomic_buy, JitoBundleSubmitter.submit_mode, gates_open.
  destruct live eqn:El, (_dry_run_env_disabled env) eqn:Ee; cbn; try done.
  unfold JitoBundleSubmitter._assert_live_allowed, engine_run, mbind, M_bind, lift. rewrite Ee. cbn.
  destruct (send_bundle b e) as [[id|x] e1]; [|done]. destruct (poll_status id e1) as [[status|x] e2]; [|done].
  unfold BundleResult._flat_unless_landed; cbn. by destruct status.
Qed.
End Bundle.

(** On the mock engine the whole bundle lands iff both gates are open, the
    engine does not drop it and the fill reaches the minimum; a short fill
    reverts and leaves no buy. *)
Theorem mock_bundle_atomic live env b e :
  ∃ r e', JitoBundleSubmitter.submit_atomic_buy live env b e = (Ok r, e') ∧
    (BundleResult.landed_buy r = true ↔
       gates_open live env = true ∧ MockBlockEngine._force_drop e = false ∧
       AtomicBuyBundle.min_tokens_out_base b ≤ MockBlockEngine._actual_tokens_out e) ∧
    (BundleResult.landed_buy r = true ↔ BundleResult.status r = BundleStatus.LANDED) ∧
    (gates_open live env = false → e' = e).
Proof.
  rewrite buy_reported_iff_landed. destruct (gates_open live env).
  2:{ eexists _, _. split; [reflexivity|]. cbn. split_and!; try done; split; try done; by intros [? _]. }
  unfold engine_run, mbind, M_bind, send_bundle, poll_status, MockBlockEngine_client, MockBlockEngine.send_bundle,
    MockBlockEngine.poll_status, gets; cbn. rewrite lookup_insert_eq.
  destruct (MockBlockEngine._force_drop e).
  { eexists _, _. split; [reflexivity|]. cbn. split_and!; try done; split; try done; by intros (_ & ? & _). }
  destruct (Z.ltb_spec (MockBlockEngine._actual_tokens_out e) (AtomicBuyBundle.min_tokens_out_base b)).
  - eexists _, _. split; [reflexivity|]. cbn. split_and!; try done; split; try done. intros (_ & _ & ?). lia.
  - eexists _, _. split; [reflexivity|]. cbn. split_and!; try done; split; try done.
Qed.

(** *** Witnesses: a stream of two snapshots, slots 10 and 20; an edge of one
    million lamports pays the p75 of the first and not that of the second. *)

Definition snap10 : TipFloorSnapshot.t := TipFloorSnapshot.mk 1000 10000 200000 400000 ["T1"] 10 1.
Definition snap20 : TipFloorSnapshot.t := TipFloorSnapshot.mk 1000 10000 400000 900000 ["T1"] 20 2.
Definition two_snaps : StaticTipStream.t := StaticTipStream.mk [snap10; snap20].
Definition tip_controller : TipController.t StaticTipStream.t := TipController.mk two_snaps DEFAULT_EDGE_CAP_FRAC.

Lemma two_snaps_ok : stream_ok two_snaps.
Proof. split; [repeat constructor; unfold slot_le; cbn; lia|by repeat constructor]. Qed.

Example priced :
  map (λ slot, match TipController.price_tip tip_controller (PyInt 1000000) slot "medium" with
               | Ok d => (TipDecision.kind d, TipDecision.tip_lamports d, TipDecision.reason d)
               | Raise _ => (SUBMIT, -1, "") end) [5; 15; 25]
  = [(DO_NOT_SUBMIT, 0, "no_live_tip_floor"); (SUBMIT, 200000, "priced_at_live_floor_within_edge_ceiling");
     (DO_NOT_SUBMIT, 0, "priced_out_live_floor_exceeds_edge_ceiling")].
Proof. vm_compute. reflexivity. Qed.

Lemma static_stream_witness :
  match StaticTipStream.current two_snaps 15 with
  | Ok x => x ∈ [snap20; snap10] ∧ TipFloorSnapshot.as_of_slot x ≤ 15 ∧
      ∀ y, y ∈ [snap20; snap10] → TipFloorSnapshot.as_of_slot y ≤ 15 → TipFloorSnapshot.as_of_slot y ≤ TipFloorSnapshot.as_of_slot x
  | Raise e => e = StaleTipStreamError ∧ ∀ y, y ∈ [snap20; snap10] → 15 < TipFloorSnapshot.as_of_slot y
  end.
Proof. exact (static_stream_point_in_time [snap20; snap10] two_snaps 15 eq_refl). Defined.

Lemma two_snaps_stale slot e : current two_snaps slot = Raise e → e = StaleTipStreamError.
Proof. unfold current, StaticTipStream_stream, StaticTipStream.current. destruct (last _); [done|]. by intros [= <-]. Qed.

Lemma tip_is_live_floor_witness :
  ∃ d, TipController.price_tip tip_controller (PyInt 1000000) 15 "medium" = Ok d ∧
    (TipDecision.kind d = DO_NOT_SUBMIT → TipDecision.tip_lamports d = 0).
Proof.
  destruct (tip_is_live_floor_within_edge two_snaps (NDec DEFAULT_EDGE_CAP_FRAC) tip_controller eq_refl two_snaps_ok
    1000000 15 "medium" 75 eq_refl ltac:(by apply Z.ltb_lt; vm_compute) (two_snaps_stale 15)) as (d & H1 & _ & _ & H4).
  by exists d.
Defined.

Lemma bid_kept_witness :
  ∃ d', TipController.price_tip tip_controller (PyInt 2000000) 15 "medium" = Ok d' ∧ TipDecision.tip_lamports d' = 200000.
Proof.
  destruct (bid_kept_with_more_edge two_snaps (NDec DEFAULT_EDGE_CAP_FRAC) tip_controller eq_refl
    1000000 2000000 15 "medium" (TipDecision.mk SUBMIT 200000 1000000 300000 200000 75 "medium" 10
      "priced_at_live_floor_within_edge_ceiling" 2000)) as (d' & H1 & _ & H3); [lia|vm_compute; reflexivity|done|].
  by exists d'.
Defined.
