(* ===== verification/SplitExit.v ===== *)
(** * Private split exits and tip-contention stamps: [aats/mev/split_exit.py]

    The recorder that stamps a candidate with the tip contention at its
    decision slot, and the planner that splits an exit into private legs with
    a floor on each.  Log calls are left out. *)

From S2P Require Import Prelude Decimal RiskContracts Intents SurvivableStop DecimalOrder ExitEngine Tips.

Definition DEFAULT_EXIT_MODE : exit_mode := SECURE.

(** ** Tip contention *)

Inductive ContentionBucket : Type := LOW | MEDIUM | HIGH | PRICED_OUT.
#[export] Instance ContentionBucket_eq_dec : EqDecision ContentionBucket.
Proof. solve_decision. Defined.

(** The check the frozen dataclasses of the module make on every integer
    field: neither float nor bool. *)
Definition int_field (name : string) (v : int_arg) : result Z :=
  match v with IInt z => Ok z | _ => Raise (TypeError (name +:+ " must be int, not float/bool.")) end.

Module TipContentionStamp.
Record t : Type := mk {
  candidate_id : string; mint : string; decision_slot : Z; as_of_slot : Z; as_of_block_time_ms : Z;
  live_p50_lamports : Z; live_p75_lamports : Z; live_p95_lamports : Z; live_floor_lamports : Z;
  edge_ceiling_lamports : Z; bucket : ContentionBucket; priced_out : bool
}.

Definition checks (s : t) : result t :=
  if decision_slot s <? as_of_slot s then Raise (ValueError "TipContentionStamp.as_of_slot must be <= decision_slot")
  else if priced_out s && negb (bool_decide (bucket s = PRICED_OUT)) then Raise (ValueError "priced_out=True must carry bucket=PRICED_OUT")
  else if bool_decide (bucket s = PRICED_OUT) && negb (priced_out s) then Raise (ValueError "bucket=PRICED_OUT must carry priced_out=True.")
  else Ok s.

Definition new (id mint : string) (decision as_of block p50 p75 p95 floor ceiling : int_arg) (bucket : ContentionBucket)
    (priced_out : bool) : result t :=
  decision ← int_field "decision_slot" decision;
  as_of ← int_field "as_of_slot" as_of;
  block ← int_field "as_of_block_time_ms" block;
  p50 ← int_field "live_p50_lamports" p50;
  p75 ← int_field "live_p75_lamports" p75;
  p95 ← int_field "live_p95_lamports" p95;
  floor ← int_field "live_floor_lamports" floor;
  ceiling ← int_field "edge_ceiling_lamports" ceiling;
  checks (mk id mint decision as_of block p50 p75 p95 floor ceiling bucket priced_out).
End TipContentionStamp.

Module TipContentionRecorder.
(** The sink's [append], given what it holds; a raise is swallowed. *)
Definition sink_fn : Type := list TipContentionStamp.t → TipContentionStamp.t → result unit.

Section Stream.
Context {S : Type} `{TipStream S}.
Record t : Type := mk { _stream : S; _edge_cap_frac : dec; _sink : option sink_fn; appended : list TipContentionStamp.t }.

Definition __init__ (stream : S) (edge_cap_frac : num_in) (sink : option sink_fn) : result t :=
  cap ← edge_cap edge_cap_frac; Ok (mk stream cap sink []).

Definition _edge_ceiling (r : t) (edge : Z) : Z := if edge <=? 0 then 0 else edge_ceiling (_edge_cap_frac r) edge.

Definition _bucket (live_floor : Z) (snap : TipFloorSnapshot.t) (priced_out : bool) : ContentionBucket :=
  if priced_out then PRICED_OUT
  else if live_floor <=? TipFloorSnapshot.p50_lamports snap then LOW
  else if live_floor <=? TipFloorSnapshot.p75_lamports snap then MEDIUM
  else HIGH.

Definition _emit (s : TipContentionStamp.t) : M t unit := λ r,
  match _sink r with
  | None => (Ok tt, r)
  | Some append =>
      match append (appended r) s with
      | Ok _ => (Ok tt, mk (_stream r) (_edge_cap_frac r) (_sink r) (appended r ++ [s]))
      | Raise _ => (Ok tt, r)
      end
  end.

Definition stamp (id mint : string) (edge : int_arg) (decision_slot : Z) (required_percentile : Z) : M t (option TipContentionStamp.t) :=
  edge ← lift (int_field "expected_edge_lamports" edge);
  r ← get;
  match current (_stream r) decision_slot with
  | Raise e => if bool_decide (e = StaleTipStreamError) then mret None else raise e
  | Ok snap =>
      live_floor ← lift (TipFloorSnapshot.percentile snap required_percentile);
      let ceiling := _edge_ceiling r edge in
      let priced_out := ceiling <? live_floor in
      let bucket := _bucket live_floor snap priced_out in
      s ← lift (TipContentionStamp.new id mint (IInt decision_slot) (IInt (TipFloorSnapshot.as_of_slot snap))
        (IInt (TipFloorSnapshot.as_of_block_time_ms snap)) (IInt (TipFloorSnapshot.p50_lamports snap))
        (IInt (TipFloorSnapshot.p75_lamports snap)) (IInt (TipFloorSnapshot.p95_lamports snap)) (IInt live_floor) (IInt ceiling)
        bucket priced_out);
      _emit s;;
      mret (Some s)
  end.
End Stream.
Arguments t S : clear implicits.
End TipContentionRecorder.

(** ** Legs and plans *)

Module ExitLeg.
Record t : Type := mk { leg_index : Z; fraction_bps : Z; min_out_base : Z; private : bool }.
#[global] Instance t_eq_dec : EqDecision t.
Proof. solve_decision. Defined.

Definition new (idx fraction min_out : int_arg) (private : bool) : result t :=
  idx ← int_field "ExitLeg.leg_index" idx;
  fraction ← int_field "ExitLeg.fraction_bps" fraction;
  min_out ← int_field "ExitLeg.min_out_base" min_out;
  if idx <? 0 then Raise (ValueError "ExitLeg.leg_index must be >= 0.")
  else if negb ((1 <=? fraction) && (fraction <=? _FULL_EXIT_BPS)) then Raise (ValueError "ExitLeg.fraction_bps must be in [1, 10000]")
  else if min_out <? 0 then Raise (ValueError "ExitLeg.min_out_base must be >= 0 base units")
  else Ok (mk idx fraction min_out private).
End ExitLeg.

Module SplitExitPlan.
Record t : Type := mk {
  mint : string; mode : exit_mode; total_fraction_bps : Z; legs : list ExitLeg.t; modeled_sandwich_p_bps : Z;
  fast_baseline_sandwich_p_bps : Z; reason : string
}.

Definition __post_init__ (p : t) : result t :=
  if negb ((1 <=? total_fraction_bps p) && (total_fraction_bps p <=? _FULL_EXIT_BPS))
  then Raise (ValueError "total_fraction_bps must be in [1, 10000]")
  else if bool_decide (legs p = []) then Raise (ValueError "SplitExitPlan must have at least one leg.")
  else if negb (zsum (ExitLeg.fraction_bps <$> legs p) =? total_fraction_bps p)
  then Raise (ValueError "SplitExitPlan legs must sum to total_fraction_bps")
  else if negb (forallb ExitLeg.private (legs p)) then Raise (ValueError "Every leg of a SplitExitPlan must be private")
  else if negb ((0 <=? modeled_sandwich_p_bps p) && (modeled_sandwich_p_bps p <=? _FULL_EXIT_BPS))
  then Raise (ValueError "SplitExitPlan.modeled_sandwich_p_bps must be in [0, 10000] bps")
  else if negb ((0 <=? fast_baseline_sandwich_p_bps p) && (fast_baseline_sandwich_p_bps p <=? _FULL_EXIT_BPS))
  then Raise (ValueError "SplitExitPlan.fast_baseline_sandwich_p_bps must be in [0, 10000] bps")
  else if fast_baseline_sandwich_p_bps p <? modeled_sandwich_p_bps p
  then Raise (ValueError "SplitExitPlan refused: modeled_sandwich_p_bps > FAST baseline")
  else Ok p.

Definition n_legs (p : t) : Z := Z.of_nat (length (legs p)).
End SplitExitPlan.

Module PoolLiquidity.
Record t : Type := mk { quote_reserve_base : Z; sell_notional_base : Z }.

Definition new (reserve notional : int_arg) : result t :=
  reserve ← int_field "PoolLiquidity.quote_reserve_base" reserve;
  _ ← guard_ok (negb (reserve <? 0)) (ValueError "PoolLiquidity.quote_reserve_base must be >= 0");
  notional ← int_field "PoolLiquidity.sell_notional_base" notional;
  _ ← guard_ok (negb (notional <? 0)) (ValueError "PoolLiquidity.sell_notional_base must be >= 0");
  Ok (mk reserve notional).

Definition sell_fraction_of_pool_bps (p : t) : Z :=
  if quote_reserve_base p <=? 0 then _FULL_EXIT_BPS
  else Z.min (sell_notional_base p * _FULL_EXIT_BPS / quote_reserve_base p) _FULL_EXIT_BPS.
End PoolLiquidity.

(** ** Splitting *)

Definition _split_bps_evenly (total_bps n : Z) : result (list Z) :=
  if n <? 1 then Raise (ValueError "n must be >= 1.")
  else
    let n := Z.min n total_bps in
    if n =? 0 then Raise (ZeroDivisionError "integer division or modulo by zero")
    else
      let base := total_bps / n in
      let rem := total_bps - base * n in
      let parts := map (λ i, base + (if Z.of_nat i <? rem then 1 else 0)) (seq 0 (Z.to_nat n)) in
      if zsum parts =? total_bps then Ok parts else Raise (AssertionError "").

Definition _modeled_split_sandwich_p_bps (mode_base n_legs : Z) : result Z :=
  if n_legs <? 1 then Raise (ValueError "n_legs must be >= 1.") else Ok (mode_base / n_legs).

Module ExitProtectionPlanner.
Record t : Type := mk { _max_legs : Z; _split_threshold_bps : Z }.

Definition __init__ (max_legs split_threshold : int_arg) : result t :=
  max_legs ← int_field "max_legs" max_legs;
  _ ← guard_ok (negb (max_legs <? 1)) (ValueError "max_legs must be >= 1.");
  threshold ← int_field "split_threshold_bps" split_threshold;
  if negb ((1 <=? threshold) && (threshold <=? _FULL_EXIT_BPS)) then Raise (ValueError "split_threshold_bps must be in [1, 10000] bps.")
  else Ok (mk max_legs threshold).
Definition default : t := mk 4 200.

Definition _validate_exit_inputs (fraction slip expected : int_arg) : result (Z * Z * Z) :=
  fraction ← int_field "fraction_bps" fraction;
  slip ← int_field "per_leg_slippage_bps" slip;
  expected ← int_field "expected_tokens_out_base" expected;
  if negb ((1 <=? fraction) && (fraction <=? _FULL_EXIT_BPS)) then Raise (ValueError "fraction_bps must be in [1, 10000].")
  else if negb ((0 <=? slip) && (slip <? _FULL_EXIT_BPS)) then Raise (ValueError "per_leg_slippage_bps must be in [0, 10000).")
  else if expected <=? 0 then Raise (ValueError "expected_tokens_out_base must be > 0 (a real fill).")
  else Ok (fraction, slip, expected).

Definition _leg_count (pl : t) (pool : PoolLiquidity.t) : Z :=
  let fill := PoolLiquidity.sell_fraction_of_pool_bps pool in
  if fill <? _split_threshold_bps pl then 1
  else Z.max 1 (Z.min (_max_legs pl) (fill / _split_threshold_bps pl)).

(** One leg: its share of the tokens and its floor. *)
Definition leg_tokens (expected fraction lf : Z) : Z := expected * lf / fraction.
Definition min_out (keep : dec) (tokens : Z) : Z := dec_floor (dmul (dec_of_Z tokens) keep).

Fixpoint build_legs (keep : dec) (expected fraction : Z) (idx : Z) (leg_fracs : list Z) : result (list ExitLeg.t) :=
  match leg_fracs with
  | [] => Ok []
  | lf :: leg_fracs =>
      leg ← ExitLeg.new (IInt idx) (IInt lf) (IInt (Z.max (min_out keep (leg_tokens expected fraction lf)) 0)) true;
      legs ← build_legs keep expected fraction (idx + 1) leg_fracs;
      Ok (leg :: legs)
  end.
Definition _build_legs (leg_fracs : list Z) (fraction expected slip : Z) : result (list ExitLeg.t) :=
  keep ← ddiv (dsub _BPS_DENOM (dec_of_Z slip)) _BPS_DENOM;
  build_legs keep expected fraction 0 leg_fracs.

Definition plan_reason (mode : exit_mode) (n_legs fill slip modeled baseline : Z) : string :=
  mode_value mode +:+ " private split: " +:+ pretty n_legs +:+ " leg(s); pool_fill=" +:+ pretty fill +:+ "bps; per_leg_slip="
  +:+ pretty slip +:+ "bps; modeled_sandwich_p=" +:+ pretty modeled +:+ "bps <= fast_baseline=" +:+ pretty baseline +:+ "bps".

Definition plan (pl : t) (mint : string) (fraction_bps : int_arg) (mode : exit_mode) (pool : PoolLiquidity.t)
    (per_leg_slippage_bps expected_tokens_out_base : int_arg) : result SplitExitPlan.t :=
  '(fraction, slip, expected) ← _validate_exit_inputs fraction_bps per_leg_slippage_bps expected_tokens_out_base;
  let n_legs := _leg_count pl pool in
  leg_fracs ← _split_bps_evenly fraction n_legs;
  fast ← FAST_SLIPPAGE;
  let fast_baseline_p := MevSlippageModel.sandwich_p_bps fast in
  model ← slippage_model_for mode;
  modeled ← _modeled_split_sandwich_p_bps (MevSlippageModel.sandwich_p_bps model) n_legs;
  let modeled_p := Z.min modeled fast_baseline_p in
  legs ← _build_legs leg_fracs fraction expected slip;
  SplitExitPlan.__post_init__ (SplitExitPlan.mk mint mode fraction legs modeled_p fast_baseline_p
    (plan_reason mode n_legs (PoolLiquidity.sell_fraction_of_pool_bps pool) slip modeled_p fast_baseline_p)).
End ExitProtectionPlanner.

(** ** The split adds up *)

Lemma zsum_cons x l : zsum (x :: l) = x + zsum l.
Proof. reflexivity. Qed.

(** [k] of [n] parts get one more. *)
Lemma zsum_parts (base rem : Z) (k n : nat) : Z.of_nat k ≤ rem →
  zsum (map (λ i, base + (if Z.of_nat i <? rem then 1 else 0)) (seq k n)) = base * Z.of_nat n + Z.min (Z.of_nat n) (rem - Z.of_nat k).
Proof.
  revert k. induction n as [|n IH]; intros k Hk; cbn [seq map]; [change (zsum []) with 0; lia|].
  rewrite zsum_cons.
  destruct (Z.ltb_spec (Z.of_nat k) rem).
  - rewrite IH by lia. lia.
  - assert (∀ m j, rem ≤ Z.of_nat j → zsum (map (λ i, base + (if Z.of_nat i <? rem then 1 else 0)) (seq j m)) = base * Z.of_nat m) as Hflat.
    { induction m as [|m IHm]; intros j Hj; cbn [seq map]; [change (zsum []) with 0; lia|]. rewrite zsum_cons, IHm by lia. destruct (Z.ltb_spec (Z.of_nat j) rem); lia. }
    rewrite Hflat by lia. lia.
Qed.

Lemma split_bps_ok total n : 1 ≤ total → 1 ≤ n → ∃ parts, _split_bps_evenly total n = Ok parts ∧
  zsum parts = total ∧ Z.of_nat (length parts) = Z.min n total ∧
  Forall (λ p, total / Z.min n total ≤ p ≤ total / Z.min n total + 1) parts.
Proof.
  intros Ht Hn. unfold _split_bps_evenly. rewrite (proj2 (Z.ltb_ge n 1)) by done.
  set (m := Z.min n total). assert (1 ≤ m ≤ total) as Hm by lia. rewrite (proj2 (Z.eqb_neq m 0)) by lia.
  assert (0 ≤ total - total / m * m < m) as Hrem by (pose proof (Z.mod_pos_bound total m); pose proof (Z.div_mod total m); lia).
  rewrite (zsum_parts _ _ 0) by (cbn; lia). rewrite Z2Nat.id by lia.
  rewrite (proj2 (Z.eqb_eq _ total)) by lia. eexists. split; [done|]. split_and!.
  - rewrite (zsum_parts _ _ 0) by (cbn; lia). rewrite Z2Nat.id by lia. lia.
  - rewrite length_map, length_seq. lia.
  - apply Forall_forall. intros p (i & -> & _)%list_elem_of_fmap. destruct (_ <? _); lia.
Qed.

(** ** The floor of a leg is exact *)

Lemma bps_left slip : 0 ≤ slip < 10000 → dsub _BPS_DENOM (dec_of_Z slip) = dec_of_Z (10000 - slip).
Proof.
  intros Hs. unfold dsub, rescale, dec_of_Z. cbn -[fix28]. rewrite !Z.mul_1_r. apply fix28_exact. cbn [coef]. lia.
Qed.

Definition keep_of (slip : Z) : result dec := ddiv (dsub _BPS_DENOM (dec_of_Z slip)) _BPS_DENOM.

(** The kept share of an admissible slippage is its decimal fraction. *)
Lemma keep_ok slip : 0 ≤ slip < 10000 → ∃ f, keep_of slip = Ok f ∧
  0 ≤ coef f ≤ 10000 ∧ -4 ≤ expo f ≤ 0 ∧ coef f * 10 ^ (expo f + 4) = 10000 - slip.
Proof.
  intros Hs. unfold keep_of. rewrite bps_left by done.
  destruct (ddiv_pow10 (10000 - slip) 0 4) as (f & Hf & _ & k & Hk & Hval & Hj & Hc); [lia..|].
  change (10 ^ 4) with 10000 in Hf. exists f. split; [exact Hf|].
  rewrite (Z.abs_eq (10000 - slip)) in Hc by lia. replace (expo f - (0 - 4) + k) with (expo f + 4 + k) in * by lia.
  pose proof (Z_pow10_pos' k Hk). pose proof (Z_pow10_pos' (expo f + 4 + k) Hj).
  assert (0 < coef f) as Hf0 by nia.
  assert (-4 ≤ expo f) as He.
  { destruct (Z.le_gt_cases (-4) (expo f)); [done|].
    pose proof (Z.pow_lt_mono_r 10 (expo f + 4 + k) k ltac:(lia) ltac:(lia) ltac:(lia)). nia. }
  rewrite Z.pow_add_r in Hval by lia. pose proof (Z_pow10_pos' (expo f + 4) ltac:(lia)) as H4.
  assert (coef f * 10 ^ (expo f + 4) = 10000 - slip) as Heq by (rewrite Z.mul_assoc in Hval; by apply Z.mul_cancel_r in Hval; [|lia]).
  assert (expo f ≤ 0) as He'; [|split_and!; try done; nia].
  destruct (Z.le_gt_cases (expo f) 0); [done|].
  pose proof (Z.pow_lt_mono_r 10 4 (expo f + 4) ltac:(lia) ltac:(lia) ltac:(lia)) as H5. change (10 ^ 4) with 10000 in H5. nia.
Qed.

Lemma min_out_exact slip f tokens : 0 ≤ slip < 10000 → keep_of slip = Ok f → 0 ≤ tokens < 10 ^ 24 →
  ExitProtectionPlanner.min_out f tokens = tokens * (10000 - slip) / 10000.
Proof.
  intros Hs Hf Ht. destruct (keep_ok slip Hs) as (f' & Hf' & H1 & H2 & H3). rewrite Hf in Hf'. injection Hf' as <-.
  unfold ExitProtectionPlanner.min_out. unfold dmul. rewrite fix28_exact.
  2:{ cbn. rewrite Z.abs_eq by nia. assert (10 ^ 24 * 10000 = 10 ^ 28) as <- by (by vm_compute). nia. }
  rewrite <- H3. unfold dec_floor; cbn [coef expo dec_of_Z]. rewrite Z.add_0_l.
  destruct f as [c e]; cbn [coef expo] in *.
  assert (e = 0 ∨ e = -1 ∨ e = -2 ∨ e = -3 ∨ e = -4) as He by lia.
  destruct He as [->|[->|[->|[->| ->]]]]; cbn [Z.leb Z.compare Z.opp];
    match goal with |- context [10 ^ (?a + 4)] => let v := eval vm_compute in (10 ^ (a + 4)) in change (10 ^ (a + 4)) with v end.
  - change (10 ^ 0) with 1. rewrite Z.mul_assoc, Z.div_mul by lia. lia.
  - change (10 ^ 1) with 10. rewrite Z.mul_assoc. change 10000 with (10 * 1000). rewrite Z.div_mul_cancel_r by lia. done.
  - change (10 ^ 2) with 100. rewrite Z.mul_assoc. change 10000 with (100 * 100). rewrite Z.div_mul_cancel_r by lia. done.
  - change (10 ^ 3) with 1000. rewrite Z.mul_assoc. change 10000 with (1000 * 10). rewrite Z.div_mul_cancel_r by lia. done.
  - change (10 ^ 4) with 10000. by rewrite Z.mul_1_r.
Qed.

(** ** The planner *)

Lemma build_legs_ok keep expected fraction idx fracs :
  Forall (λ p, 1 ≤ p ≤ 10000) fracs → 0 ≤ idx →
  ∃ legs, ExitProtectionPlanner.build_legs keep expected fraction idx fracs = Ok legs ∧
    ExitLeg.fraction_bps <$> legs = fracs ∧ Forall (λ l, ExitLeg.private l = true) legs ∧
    ExitLeg.min_out_base <$> legs =
      (λ lf, Z.max (ExitProtectionPlanner.min_out keep (ExitProtectionPlanner.leg_tokens expected fraction lf)) 0) <$> fracs.
Proof.
  intros Hf. revert idx. induction Hf as [|p fracs Hp _ IH]; intros idx Hi; cbn [ExitProtectionPlanner.build_legs].
  { exists []. by split_and!. }
  unfold ExitLeg.new at 1; cbn [int_field mbind result_bind]. rewrite (proj2 (Z.ltb_ge idx 0)) by done.
  rewrite (proj2 (Z.leb_le 1 p)), (proj2 (Z.leb_le p _FULL_EXIT_BPS)) by (unfold _FULL_EXIT_BPS; lia). cbn [andb negb].
  rewrite (proj2 (Z.ltb_ge (Z.max _ 0) 0)) by lia. cbn [mbind result_bind].
  destruct (IH (idx + 1) ltac:(lia)) as (legs & -> & H1 & H2 & H3). cbn [mbind result_bind]. eexists. split; [done|].
  cbn [fmap list_fmap ExitLeg.fraction_bps ExitLeg.min_out_base]. rewrite H1, H3. split_and!; [done|by constructor|done].
Qed.

Definition planner_wf (pl : ExitProtectionPlanner.t) : Prop :=
  1 ≤ ExitProtectionPlanner._max_legs pl ∧ 1 ≤ ExitProtectionPlanner._split_threshold_bps pl ≤ 10000.

Lemma planner_init_wf m th pl : ExitProtectionPlanner.__init__ m th = Ok pl → planner_wf pl.
Proof.
  unfold ExitProtectionPlanner.__init__, guard_ok. destruct m as [m| |]; cbn; try done. destruct (Z.ltb_spec m 1); cbn; [done|].
  destruct th as [th| |]; cbn; try done. destruct ((1 <=? th) && (th <=? _FULL_EXIT_BPS)) eqn:E; cbn; [|done].
  intros [= <-]. unfold _FULL_EXIT_BPS in E. unfold planner_wf; cbn. bools. lia.
Qed.

Lemma leg_count_bounds pl pool : planner_wf pl →
  1 ≤ ExitProtectionPlanner._leg_count pl pool ≤ ExitProtectionPlanner._max_legs pl.
Proof. intros [H1 H2]. unfold ExitProtectionPlanner._leg_count. destruct (_ <? _); lia. Qed.

(** What the legs of a plan expect to receive, and the least they accept. *)
Lemma zsum_shares expected fraction fracs : 0 < fraction → 0 ≤ expected → Forall (λ p, 0 ≤ p) fracs →
  0 ≤ fraction * zsum ((λ lf, expected * lf / fraction) <$> fracs) ≤ expected * zsum fracs.
Proof.
  intros Hf He. induction 1 as [|p fracs Hp _ IH]; [cbn; lia|]. rewrite fmap_cons, !zsum_cons.
  pose proof (Z.mul_div_le (expected * p) fraction Hf). pose proof (Z.div_pos (expected * p) fraction ltac:(nia) Hf). nia.
Qed.

Lemma zsum_le {A} (f g : A → Z) l : Forall (λ x, 0 ≤ f x ≤ g x) l → 0 ≤ zsum (f <$> l) ≤ zsum (g <$> l).
Proof. induction 1 as [|x l Hx _ IH]; [cbn; lia|]. rewrite !fmap_cons, !zsum_cons. lia. Qed.

(** A part of the split is a leg's size, and its share is within the whole. *)
Lemma parts_are_legs fraction n parts : 1 ≤ fraction ≤ 10000 → 1 ≤ n →
  zsum parts = fraction → Z.of_nat (length parts) = Z.min n fraction →
  Forall (λ p, fraction / Z.min n fraction ≤ p ≤ fraction / Z.min n fraction + 1) parts →
  Forall (λ p, 1 ≤ p ≤ fraction) parts.
Proof.
  intros Hf Hn P1 P2 P3. assert (Forall (λ x, 1 ≤ x) parts) as Hpos.
  { eapply Forall_impl; [exact P3|]. cbn. intros x [Hx _]. transitivity (fraction / Z.min n fraction); [|done].
    apply Z.div_le_lower_bound; lia. }
  subst fraction. clear -Hpos. induction Hpos as [|x ps Hx Hps IH]; [constructor|].
  assert (0 ≤ zsum ps) as H0 by (apply zsum_nonneg; eapply Forall_impl; [exact Hps|cbn; lia]).
  rewrite zsum_cons. constructor; [lia|]. eapply Forall_impl; [exact IH|]. cbn. lia.
Qed.

Lemma share_bounds expected fraction l : 0 < expected → 1 ≤ l ≤ fraction → 0 ≤ expected * l / fraction ≤ expected.
Proof. intros He Hl. split; [apply Z.div_pos; nia|]. apply Z.div_le_upper_bound; nia. Qed.

(** The base sandwich probabilities of the two modes. *)
Definition mode_p (mode : exit_mode) : Z := match mode with FAST => 3000 | SECURE => 800 end.

Lemma slippage_p mode : ∃ m, slippage_model_for mode = Ok m ∧ MevSlippageModel.sandwich_p_bps m = mode_p mode.
Proof. destruct mode; vm_compute; eauto. Qed.

Lemma fast_p : ∃ m, FAST_SLIPPAGE = Ok m ∧ MevSlippageModel.sandwich_p_bps m = 3000.
Proof. exact (slippage_p FAST). Qed.

Lemma validate_ok fraction slip expected :
  ExitProtectionPlanner._validate_exit_inputs (IInt fraction) (IInt slip) (IInt expected) = Ok (fraction, slip, expected)
    ∧ 1 ≤ fraction ≤ 10000 ∧ 0 ≤ slip < 10000 ∧ 0 < expected ∨
  (∃ e, ExitProtectionPlanner._validate_exit_inputs (IInt fraction) (IInt slip) (IInt expected) = Raise e)
    ∧ ¬ (1 ≤ fraction ≤ 10000 ∧ 0 ≤ slip < 10000 ∧ 0 < expected).
Proof.
  unfold ExitProtectionPlanner._validate_exit_inputs, _FULL_EXIT_BPS. cbn [int_field mbind result_bind].
  destruct (Z.leb_spec 1 fraction), (Z.leb_spec fraction 10000); cbn; [|right; split; [by eexists|lia]..].
  destruct (Z.leb_spec 0 slip), (Z.ltb_spec slip 10000); cbn; [|right; split; [by eexists|lia]..].
  destruct (Z.leb_spec expected 0); cbn; [right; split; [by eexists|lia]|]. left. split; [done|lia].
Qed.

Lemma plan_passes (p : SplitExitPlan.t) :
  1 ≤ SplitExitPlan.total_fraction_bps p ≤ 10000 → SplitExitPlan.legs p ≠ [] →
  zsum (ExitLeg.fraction_bps <$> SplitExitPlan.legs p) = SplitExitPlan.total_fraction_bps p →
  Forall (λ l, ExitLeg.private l = true) (SplitExitPlan.legs p) →
  0 ≤ SplitExitPlan.modeled_sandwich_p_bps p ≤ SplitExitPlan.fast_baseline_sandwich_p_bps p ∧
    SplitExitPlan.fast_baseline_sandwich_p_bps p ≤ 10000 →
  SplitExitPlan.__post_init__ p = Ok p.
Proof.
  intros H1 H2 H3 H4 H5. unfold SplitExitPlan.__post_init__, _FULL_EXIT_BPS.
  rewrite (proj2 (Z.leb_le 1 _)), (proj2 (Z.leb_le _ 10000)) by lia. cbn [andb negb].
  rewrite bool_decide_false, (proj2 (Z.eqb_eq _ _)) by done. cbn [negb].
  assert (forallb ExitLeg.private (SplitExitPlan.legs p) = true) as -> by (apply forallb_forall; intros l Hl; rewrite Forall_forall in H4; by apply H4, list_elem_of_In).
  cbn [negb]. rewrite (proj2 (Z.leb_le 0 _)), (proj2 (Z.leb_le _ 10000)) by lia. cbn [andb negb].
  rewrite (proj2 (Z.leb_le 0 _)), (proj2 (Z.leb_le _ 10000)) by lia. cbn [andb negb].
  by rewrite (proj2 (Z.ltb_ge _ _)) by lia.
Qed.

(** The floors of the legs, exactly, and their sum. *)
Lemma floors_exact slip keep expected fraction parts :
  0 ≤ slip < 10000 → keep_of slip = Ok keep → 0 < expected → expected < 10 ^ 20 → Forall (λ p, 1 ≤ p ≤ fraction) parts →
  (λ lf, Z.max (ExitProtectionPlanner.min_out keep (ExitProtectionPlanner.leg_tokens expected fraction lf)) 0) <$> parts =
  (λ b, expected * b / fraction * (10000 - slip) / 10000) <$> parts.
Proof.
  intros Hs Hk He1 He2 Hp. apply list_fmap_ext. intros i b Hb.
  pose proof (proj1 (Forall_lookup _ _) Hp i b Hb) as Hb'. cbn in Hb'.
  pose proof (share_bounds expected fraction b He1 Hb') as Hsh. unfold ExitProtectionPlanner.leg_tokens.
  rewrite (min_out_exact slip keep _ Hs Hk) by (assert (10 ^ 20 < 10 ^ 24) by (by vm_compute); lia).
  apply Z.max_l. apply Z.div_pos; nia.
Qed.

Lemma floors_within slip expected fraction parts :
  0 ≤ slip < 10000 → 0 < fraction → 0 < expected → zsum parts = fraction → Forall (λ p, 1 ≤ p ≤ fraction) parts →
  0 ≤ zsum ((λ b, expected * b / fraction * (10000 - slip) / 10000) <$> parts) ≤ expected.
Proof.
  intros Hs Hf He P1 P4.
  assert (Forall (λ x, 0 ≤ x) parts) as Hpos by (eapply Forall_impl; [exact P4|cbn; lia]).
  pose proof (zsum_shares expected fraction parts Hf ltac:(lia) Hpos) as Hsum. rewrite P1 in Hsum.
  assert (Forall (λ b, 0 ≤ expected * b / fraction * (10000 - slip) / 10000 ≤ expected * b / fraction) parts) as Hle.
  { eapply Forall_impl; [exact P4|]. cbn. intros b Hb. pose proof (share_bounds expected fraction b He Hb).
    split; [apply Z.div_pos; nia|]. apply Z.div_le_upper_bound; nia. }
  apply zsum_le in Hle. nia.
Qed.

(** What planning returns on admissible inputs. *)
Lemma plan_returns pl mint fraction mode pool slip expected :
  planner_wf pl → 1 ≤ fraction ≤ 10000 → 0 ≤ slip < 10000 → 0 < expected →
  let n := ExitProtectionPlanner._leg_count pl pool in
  ∃ parts keep legs reason,
    _split_bps_evenly fraction n = Ok parts ∧ keep_of slip = Ok keep ∧
    ExitProtectionPlanner.build_legs keep expected fraction 0 parts = Ok legs ∧
    ExitProtectionPlanner.plan pl mint (IInt fraction) mode pool (IInt slip) (IInt expected) =
      Ok (SplitExitPlan.mk mint mode fraction legs (mode_p mode / n) 3000 reason).
Proof.
  intros Hpl Hfr Hs He n. pose proof (leg_count_bounds pl pool Hpl) as Hn. fold n in Hn.
  destruct (split_bps_ok fraction n) as (parts & Hp & P1 & P2 & P3); [lia..|].
  pose proof (parts_are_legs fraction n parts Hfr ltac:(lia) P1 P2 P3) as P4.
  destruct (keep_ok slip Hs) as (keep & Hk & _).
  destruct (build_legs_ok keep expected fraction 0 parts) as (legs & Hl & L1 & L2 & _);
    [eapply Forall_impl; [exact P4|cbn; lia]|lia|].
  do 3 eexists. eexists. split_and!; [exact Hp|exact Hk|exact Hl|].
  unfold ExitProtectionPlanner.plan.
  destruct (validate_ok fraction slip expected) as [[-> _]|[_ ?]]; [|tauto].
  destruct fast_p as (fm & -> & Hfm). destruct (slippage_p mode) as (mm & -> & Hmm).
  cbn [mbind result_bind]. fold n. rewrite Hp. cbn [mbind result_bind]. cbv zeta. rewrite Hfm, Hmm.
  unfold _modeled_split_sandwich_p_bps. rewrite (proj2 (Z.ltb_ge n 1)) by lia. cbn [mbind result_bind].
  assert (0 ≤ mode_p mode / n ≤ 3000) as Hm.
  { assert (0 ≤ mode_p mode ≤ 3000) by (destruct mode; cbn; lia). split; [apply Z.div_pos; lia|].
    apply Z.div_le_upper_bound; nia. }
  rewrite (Z.min_l (mode_p mode / n) 3000) by lia.
  unfold ExitProtectionPlanner._build_legs. fold (keep_of slip). rewrite Hk. cbn [mbind result_bind]. rewrite Hl. cbn [mbind result_bind].
  apply plan_passes; cbn [SplitExitPlan.legs SplitExitPlan.total_fraction_bps SplitExitPlan.modeled_sandwich_p_bps
    SplitExitPlan.fast_baseline_sandwich_p_bps]; [done| |by rewrite L1|done|lia].
  intros ->. cbn in L1. subst parts. cbn in P2. lia.
Qed.

(** C36: Every plan sheds exactly what was decided, privately, and never more
    exposed than a FAST single shot.  For fewer than 10^20 expected tokens (any
    64-bit amount), on admissible inputs planning returns a
    plan, and on no other; its legs are near-equal parts of the fraction, at
    most [max_legs] and one per basis point, all private; the modelled
    sandwich probability is at most the mode's and the FAST baseline; each
    leg's floor is exactly its share of the expected tokens less the slippage,
    rounded down, and the floors together are at most what is expected. *)
Theorem plan_exact_private_bounded pl mint fraction mode pool slip expected :
  planner_wf pl → expected < 10 ^ 20 →
  let n := ExitProtectionPlanner._leg_count pl pool in
  (is_ok (ExitProtectionPlanner.plan pl mint (IInt fraction) mode pool (IInt slip) (IInt expected)) = true ↔
     1 ≤ fraction ≤ 10000 ∧ 0 ≤ slip < 10000 ∧ 0 < expected) ∧
  ∀ p, ExitProtectionPlanner.plan pl mint (IInt fraction) mode pool (IInt slip) (IInt expected) = Ok p →
    zsum (ExitLeg.fraction_bps <$> SplitExitPlan.legs p) = fraction ∧
    SplitExitPlan.n_legs p = Z.min n fraction ∧ 1 ≤ n ≤ ExitProtectionPlanner._max_legs pl ∧
    Forall (λ l, ExitLeg.private l = true) (SplitExitPlan.legs p) ∧
    Forall (λ b, fraction / Z.min n fraction ≤ b ≤ fraction / Z.min n fraction + 1) (ExitLeg.fraction_bps <$> SplitExitPlan.legs p) ∧
    0 ≤ SplitExitPlan.modeled_sandwich_p_bps p ≤ mode_p mode ∧
    ExitLeg.min_out_base <$> SplitExitPlan.legs p =
      (λ b, expected * b / fraction * (10000 - slip) / 10000) <$> (ExitLeg.fraction_bps <$> SplitExitPlan.legs p) ∧
    0 ≤ zsum (ExitLeg.min_out_base <$> SplitExitPlan.legs p) ≤ expected.
Proof.
  intros Hpl He n. pose proof (leg_count_bounds pl pool Hpl) as Hn. fold n in Hn. split.
  { split.
    - destruct (validate_ok fraction slip expected) as [[_ H]|[[e H] _]]; [done|].
      unfold ExitProtectionPlanner.plan. by rewrite H.
    - intros (Hf & Hs & He'). destruct (plan_returns pl mint fraction mode pool slip expected Hpl Hf Hs He') as (? & ? & ? & ? & _ & _ & _ & ->). done. }
  intros p Hplan. destruct (validate_ok fraction slip expected) as [[_ (Hf & Hs & He')]|[[e H] _]].
  2:{ unfold ExitProtectionPlanner.plan in Hplan. by rewrite H in Hplan. }
  destruct (plan_returns pl mint fraction mode pool slip expected Hpl Hf Hs He') as (parts & keep & legs & why & Hp & Hk & Hl & Heq).
  rewrite Heq in Hplan. injection Hplan as <-. fold n in Hp. cbn [SplitExitPlan.legs SplitExitPlan.modeled_sandwich_p_bps].
  destruct (split_bps_ok fraction n) as (parts' & Hp' & P1 & P2 & P3); [lia..|]. rewrite Hp in Hp'. injection Hp' as <-.
  pose proof (parts_are_legs fraction n parts Hf ltac:(lia) P1 P2 P3) as P4.
  destruct (build_legs_ok keep expected fraction 0 parts) as (legs' & Hl' & L1 & L2 & L3);
    [eapply Forall_impl; [exact P4|cbn; lia]|lia|]. rewrite Hl in Hl'. injection Hl' as <-.
  rewrite L1. unfold SplitExitPlan.n_legs; cbn [SplitExitPlan.legs].
  assert (length legs = length parts) as -> by (by rewrite <- L1, length_fmap).
  pose proof (floors_exact slip keep expected fraction parts Hs Hk He' He P4) as Hfl. rewrite <- L3 in Hfl.
  split_and!; [done|done|lia|lia|done|done|apply Z.div_pos; [destruct mode; cbn|]; lia| |done| |].
  - apply Z.div_le_upper_bound; [lia|]. destruct mode; cbn; nia.
  - rewrite Hfl. by apply (floors_within slip expected fraction parts Hs ltac:(lia) He' P1 P4).
  - rewrite Hfl. by apply (floors_within slip expected fraction parts Hs ltac:(lia) He' P1 P4).
Qed.

(** ** The contention stamp *)

Lemma ladder_ok snap : TipFloorSnapshot._ladder_monotonic snap = Ok snap →
  TipFloorSnapshot.p25_lamports snap ≤ TipFloorSnapshot.p50_lamports snap ∧
  TipFloorSnapshot.p50_lamports snap ≤ TipFloorSnapshot.p75_lamports snap ∧
  TipFloorSnapshot.p75_lamports snap ≤ TipFloorSnapshot.p95_lamports snap.
Proof.
  unfold TipFloorSnapshot._ladder_monotonic. destruct (existsb _ _); [done|]. destruct (_ && _ && _) eqn:E; [|done].
  intros _. bools. lia.
Qed.

Section Stamp.
Context {S : Type} `{TipStreamLaws S}.
Context (s : S) (cap_arg : num_in) (r : TipContentionRecorder.t S).
Abbreviation stamp := TipContentionRecorder.stamp.
Abbreviation ceiling := (TipContentionRecorder._edge_ceiling r).

(** The stamp of a snapshot and a floor on it. *)
Definition stamp_of (id mint : string) (edge slot floor : Z) (snap : TipFloorSnapshot.t) : TipContentionStamp.t :=
  TipContentionStamp.mk id mint slot (TipFloorSnapshot.as_of_slot snap) (TipFloorSnapshot.as_of_block_time_ms snap)
    (TipFloorSnapshot.p50_lamports snap) (TipFloorSnapshot.p75_lamports snap) (TipFloorSnapshot.p95_lamports snap) floor
    (ceiling edge) (TipContentionRecorder._bucket floor snap (ceiling edge <? floor)) (ceiling edge <? floor).

(** A stamp taken from a snapshot that is not in the future passes its own
    checks, whatever the floor. *)
Lemma stamp_of_ok id mint edge slot floor snap : TipFloorSnapshot.as_of_slot snap ≤ slot →
  TipContentionStamp.checks (stamp_of id mint edge slot floor snap) = Ok (stamp_of id mint edge slot floor snap).
Proof.
  intros Hslot. unfold TipContentionStamp.checks, stamp_of, TipContentionRecorder._bucket; cbn.
  rewrite (proj2 (Z.ltb_ge _ _)) by done. destruct (ceiling edge <? floor); [done|].
  by destruct (floor <=? TipFloorSnapshot.p50_lamports snap), (floor <=? TipFloorSnapshot.p75_lamports snap).
Qed.

Lemma stamp_eq id mint edge slot pct snap floor :
  stream_ok (TipContentionRecorder._stream r) →
  current (TipContentionRecorder._stream r) slot = Ok snap → TipFloorSnapshot.percentile snap pct = Ok floor →
  ∃ r', stamp id mint (IInt edge) slot pct r = (Ok (Some (stamp_of id mint edge slot floor snap)), r').
Proof.
  intros Hs Hc Hf. destruct (current_ok _ slot snap Hs Hc) as [Hslot _].
  unfold TipContentionRecorder.stamp, mbind, M_bind, lift, get; cbn. rewrite Hc, Hf.
  unfold TipContentionStamp.new; cbn [int_field mbind result_bind].
  change (TipContentionStamp.mk id mint slot _ _ _ _ _ _ _ _ _) with (stamp_of id mint edge slot floor snap).
  rewrite (stamp_of_ok id mint edge slot floor snap Hslot).
  unfold TipContentionRecorder._emit. destruct (TipContentionRecorder._sink r) as [f|]; [|by eexists].
  destruct (f _ _); by eexists.
Qed.

(** The stamp agrees with what the controller decides.  With the same stream,
    cap, edge and decision slot and the percentile of the controller's
    bucket, no stamp is taken exactly when the controller has no live floor;
    otherwise the stamp carries the controller's floor and ceiling and the
    slot of the same snapshot, it is marked priced out exactly when the
    controller refuses, and a bid is at the stamped floor.  A sink that
    raises changes neither. *)
Theorem stamp_agrees_with_controller c id mint edge slot bucket pct :
  stream_ok s → TipContentionRecorder.__init__ s cap_arg (TipContentionRecorder._sink r) = Ok r →
  TipController.__init__ s cap_arg = Ok c → _BUCKET_TO_PERCENTILE bucket = Ok pct → 0 < edge →
  (∀ e, current s slot = Raise e → e = StaleTipStreamError) →
  ∃ d st r', TipController.price_tip c (PyInt edge) slot bucket = Ok d ∧ stamp id mint (IInt edge) slot pct r = (Ok st, r') ∧
    match st with
    | None => TipDecision.reason d = "no_live_tip_floor" ∧ r' = r
    | Some st =>
        TipContentionStamp.live_floor_lamports st = TipDecision.live_floor_lamports d ∧
        TipContentionStamp.edge_ceiling_lamports st = TipDecision.edge_ceiling_lamports d ∧
        TipContentionStamp.as_of_slot st = TipDecision.snapshot_slot d ∧ TipContentionStamp.as_of_slot st ≤ slot ∧
        (TipContentionStamp.priced_out st = true ↔ TipDecision.kind d = DO_NOT_SUBMIT) ∧
        (TipDecision.kind d = SUBMIT → TipDecision.tip_lamports d = TipContentionStamp.live_floor_lamports st)
    end.
Proof.
  intros Hs Hr Hc Hp He Hstale. unfold TipContentionRecorder.__init__ in Hr. unfold TipController.__init__ in Hc.
  destruct (edge_cap cap_arg) as [cap|]; [|done]. cbn in Hr, Hc. injection Hc as <-. injection Hr as Hr.
  unfold TipController.price_tip; cbn [TipController._stream TipController._edge_cap_frac].
  rewrite (proj2 (Z.leb_gt edge 0)) by done.
  destruct (current s slot) as [snap|e] eqn:Ec.
  2:{ rewrite (Hstale e eq_refl). rewrite bool_decide_eq_true_2 by done. eexists _, None, r. split; [reflexivity|]. split; [|done].
      unfold TipContentionRecorder.stamp, mbind, M_bind, lift, get; cbn. rewrite <- Hr; cbn. rewrite Ec, (Hstale e eq_refl). done. }
  destruct (floor_of_ok snap bucket pct Hp) as (f & Hf & _). rewrite Hp. cbn [mbind result_bind]. rewrite Hf. cbn [mbind result_bind].
  destruct (current_ok s slot snap Hs Ec) as [Hslot _].
  assert (TipContentionRecorder._stream r = s) as Hst by (by rewrite <- Hr).
  destruct (stamp_eq id mint edge slot pct snap f) as [r' Hstamp]; [by rewrite Hst..|done|].
  assert (ceiling edge = edge_ceiling cap edge) as Hce.
  { unfold TipContentionRecorder._edge_ceiling. rewrite (proj2 (Z.leb_gt edge 0)) by done. by rewrite <- Hr. }
  destruct (edge_ceiling cap edge <? f) eqn:El; (eexists _, _, r'; split; [reflexivity|]; split; [exact Hstamp|]);
    unfold stamp_of; cbn; rewrite Hce, El; by split_and!.
Qed.

(** The bucket of a stamp is its percentile's.  On a ladder that strictly
    grows, a stamp that is not priced out is [LOW] at percentiles 25 and 50,
    [MEDIUM] at 75 and [HIGH] at 95, whatever the live floors are: the bucket
    says nothing of the contention beyond the priced-out bit. *)
Theorem bucket_is_the_percentile id mint edge slot pct st r' :
  stream_ok (TipContentionRecorder._stream r) →
  (∀ snap, current (TipContentionRecorder._stream r) slot = Ok snap →
     TipFloorSnapshot.p50_lamports snap < TipFloorSnapshot.p75_lamports snap < TipFloorSnapshot.p95_lamports snap) →
  stamp id mint (IInt edge) slot pct r = (Ok (Some st), r') →
  TipContentionStamp.bucket st =
    (if TipContentionStamp.priced_out st then PRICED_OUT else if pct <=? 50 then LOW else if pct =? 75 then MEDIUM else HIGH).
Proof.
  intros Hs Hstrict Hst.
  destruct (current (TipContentionRecorder._stream r) slot) as [snap|e] eqn:Ec.
  2:{ unfold TipContentionRecorder.stamp, mbind, M_bind, lift, get in Hst; cbn in Hst. rewrite Ec in Hst. by case_bool_decide. }
  destruct (current_ok _ slot snap Hs Ec) as [_ Hlad]. apply ladder_ok in Hlad. specialize (Hstrict snap eq_refl).
  destruct (TipFloorSnapshot.percentile snap pct) as [f|e] eqn:Ef.
  2:{ unfold TipContentionRecorder.stamp, mbind, M_bind, lift, get in Hst; cbn in Hst. rewrite Ec, Ef in Hst. done. }
  destruct (stamp_eq id mint edge slot pct snap f Hs Ec Ef) as [r2 E]. rewrite E in Hst. injection Hst as <- _.
  unfold stamp_of, TipContentionRecorder._bucket; cbn. destruct (_ <? f); [done|].
  unfold TipFloorSnapshot.percentile in Ef.
  repeat match type of Ef with (if ?b =? ?n then _ else _) = _ => destruct (Z.eqb_spec b n) as [->|] end; try done;
    injection Ef as <-; cbn; repeat match goal with |- context [?a <=? ?b] => destruct (Z.leb_spec a b) end; try done; lia.
Qed.
End Stamp.

(** A quarter of a fifth-of-the-pool position: four legs of a quarter each. *)
Lemma plan_exact_private_bounded_witness : ∃ p,
  ExitProtectionPlanner.plan ExitProtectionPlanner.default "M" (IInt 2501) SECURE (PoolLiquidity.mk 1000000 200000) (IInt 150) (IInt 1000003) = Ok p ∧
  ExitLeg.fraction_bps <$> SplitExitPlan.legs p = [626; 625; 625; 625] ∧
  ExitLeg.min_out_base <$> SplitExitPlan.legs p = [246545; 246151; 246151; 246151] ∧
  SplitExitPlan.modeled_sandwich_p_bps p = 200 ∧
  0 ≤ zsum (ExitLeg.min_out_base <$> SplitExitPlan.legs p) ≤ 1000003.
Proof.
  assert (planner_wf ExitProtectionPlanner.default) as Hw by (unfold planner_wf; cbn; lia).
  destruct (plan_exact_private_bounded ExitProtectionPlanner.default "M" 2501 SECURE (PoolLiquidity.mk 1000000 200000) 150 1000003 Hw
    ltac:(lia)) as [_ Hp].
  eexists. split; [vm_compute; reflexivity|]. split; [reflexivity|]. split; [reflexivity|]. split; [reflexivity|].
  eapply Hp. vm_compute. reflexivity.
Defined.

(** *** Witnesses on the stream of two snapshots of [Tips]: the second one
    prices an edge of a million out at the p75; the sink always raises. *)

Definition broken_sink : TipContentionRecorder.sink_fn := λ _ _, Raise (RuntimeError "down").
Definition recorder : TipContentionRecorder.t StaticTipStream.t :=
  TipContentionRecorder.mk two_snaps DEFAULT_EDGE_CAP_FRAC (Some broken_sink) [].

Lemma stamp_agrees_witness : ∃ d st r',
  TipController.price_tip tip_controller (PyInt 1000000) 25 "medium" = Ok d ∧
  TipContentionRecorder.stamp "c" "M" (IInt 1000000) 25 75 recorder = (Ok (Some st), r') ∧
  TipContentionStamp.priced_out st = true ∧ TipDecision.kind d = DO_NOT_SUBMIT.
Proof.
  destruct (stamp_agrees_with_controller two_snaps (NDec DEFAULT_EDGE_CAP_FRAC) recorder tip_controller "c" "M" 1000000 25 "medium" 75
    two_snaps_ok eq_refl eq_refl eq_refl ltac:(lia) (two_snaps_stale 25)) as (d & st & r' & H1 & H2 & H3).
  assert (TipDecision.kind d = DO_NOT_SUBMIT) as Hk by (vm_compute in H1; by injection H1 as <-).
  destruct st as [st|]; [|exfalso; vm_compute in H2; discriminate H2].
  exists d, st, r'. split; [exact H1|]. split; [exact H2|]. split; [by apply H3|exact Hk].
Defined.

Lemma bucket_is_the_percentile_witness : ∃ st r',
  TipContentionRecorder.stamp "c" "M" (IInt 1000000) 15 75 recorder = (Ok (Some st), r') ∧ TipContentionStamp.bucket st = MEDIUM.
Proof.
  eexists _, _. split; [vm_compute; reflexivity|].
  etransitivity; [eapply (bucket_is_the_percentile recorder "c" "M" 1000000 15 75)|].
  - exact two_snaps_ok.
  - intros snap Hs. vm_compute in Hs. injection Hs as <-. cbn. lia.
  - vm_compute. reflexivity.
  - reflexivity.
Defined.
