(* ===== verification/InsiderDump.v ===== *)
(** * The insider-dump detector

    [aats/ingestion/insider_dump.py]: decoded sells of a position's creator or
    tracked cluster, the running total per mint and wallet, and the
    [insider_dump] flag raised when the total reaches the threshold share of
    the wallet's baseline.  Which element a Python set yields first is a
    parameter; the stream publisher, log calls and the monitoring-only wall
    stamp of a signal are left out. *)

From Stdlib Require Import String Ascii.
From S2P Require Import Prelude Intents Positions StateStore SnipeLoop Decoders.

Definition _BPS_DENOM : Z := 10000.
Definition MAX_CLUSTER_WALLETS : nat := 50.

Inductive WalletRole : Type := CREATOR | CLUSTER.
Definition role_value (r : WalletRole) : string := match r with CREATOR => "creator" | CLUSTER => "cluster" end.

Module Config.
Record t : Type := mk { threshold_bps : Z; flag_ttl_seconds : Z }.
Definition default : t := mk 2000 120.
Definition new (threshold ttl : int_arg) : result t :=
  thr ← _check_int "InsiderDumpConfig.threshold_bps" threshold (Some 1);
  guard_ok (thr <=? _BPS_DENOM) (ValueError "InsiderDumpConfig.threshold_bps must be <= 10000 (a fraction)");;
  ttl ← _check_int "InsiderDumpConfig.flag_ttl_seconds" ttl (Some 1);
  Ok (mk thr ttl).
End Config.

(** ** Observations *)

Module SellObservation.
Record t : Type := mk {
  mint : string; wallet : string; token_amount_sold_base : Z; event_slot : Z; block_time_ms : Z; signature : string;
  instruction_index : Z; source : string
}.
#[global] Instance eq_dec : EqDecision t.
Proof. solve_decision. Defined.
Definition new (mint wallet : string) (amount slot bt : int_arg) (signature : string) (ix : int_arg) (source : string)
    : result t :=
  _check_str "SellObservation.mint" mint;;
  _check_str "SellObservation.wallet" wallet;;
  amount ← _check_int "SellObservation.token_amount_sold_base" amount (Some 0);
  slot ← _check_int "SellObservation.event_slot" slot (Some 0);
  bt ← _check_int "SellObservation.block_time_ms" bt (Some 0);
  ix ← _check_int "SellObservation.instruction_index" ix (Some 0);
  _check_str "SellObservation.signature" signature;;
  Ok (mk mint wallet amount slot bt signature ix source).
Definition dedupe_key (o : t) : string * Z := (signature o, instruction_index o).
End SellObservation.
Abbreviation sell := SellObservation.t.

(** The decoder reuses the creator field for the seller and the token reserve
    for the amount sold. *)
Definition sell_observation_from_launch_event (signature : string) (event : LaunchEvent.t) (kind : EventKind)
    (instruction_index : Z) : result (option sell) :=
  match kind with
  | KSell =>
      o ← SellObservation.new (LaunchEvent.mint event) (LaunchEvent.creator_wallet event)
            (IInt (LaunchEvent.token_reserve_base event)) (IInt (EventTime.slot (LaunchEvent.event_time event)))
            (IInt (EventTime.block_time_ms (LaunchEvent.event_time event))) signature (IInt instruction_index) "decoder";
      Ok (Some o)
  | _ => Ok None
  end.

(** ** State *)

Module InsiderDumpSignal.
Record t : Type := mk {
  mint : string; wallet : string; role : WalletRole; fraction_sold_bps : Z; event_slot : Z; block_time_ms : Z;
  cumulative_sold_base : Z; held_supply_base : Z
}.
Definition __post_init__ (s : t) : result t :=
  _check_str "InsiderDumpSignal.mint" (mint s);;
  _check_str "InsiderDumpSignal.wallet" (wallet s);;
  _check_int "InsiderDumpSignal.fraction_sold_bps" (IInt (fraction_sold_bps s)) (Some 0);;
  guard_ok (fraction_sold_bps s <=? _BPS_DENOM) (ValueError "InsiderDumpSignal.fraction_sold_bps must be <= 10000");;
  _check_int "InsiderDumpSignal.event_slot" (IInt (event_slot s)) (Some 0);;
  _check_int "InsiderDumpSignal.block_time_ms" (IInt (block_time_ms s)) (Some 0);;
  _check_int "InsiderDumpSignal.cumulative_sold_base" (IInt (cumulative_sold_base s)) (Some 0);;
  _check_int "InsiderDumpSignal.held_supply_base" (IInt (held_supply_base s)) (Some 1);;
  Ok s.
End InsiderDumpSignal.

Module Stats.
Record t : Type := mk {
  sells_observed : Z; duplicates_skipped : Z; not_open_position_skipped : Z; untracked_sells : Z;
  refused_undecodable_supply : Z; signals_emitted : Z; last_event_slot : Z
}.
Definition zero : t := mk 0 0 0 0 0 0 0.
Definition observed slot s := mk (sells_observed s + 1) (duplicates_skipped s) (not_open_position_skipped s) (untracked_sells s) (refused_undecodable_supply s) (signals_emitted s) (Z.max (last_event_slot s) slot).
Definition duplicate s := mk (sells_observed s) (duplicates_skipped s + 1) (not_open_position_skipped s) (untracked_sells s) (refused_undecodable_supply s) (signals_emitted s) (last_event_slot s).
Definition not_open s := mk (sells_observed s) (duplicates_skipped s) (not_open_position_skipped s + 1) (untracked_sells s) (refused_undecodable_supply s) (signals_emitted s) (last_event_slot s).
Definition untracked s := mk (sells_observed s) (duplicates_skipped s) (not_open_position_skipped s) (untracked_sells s + 1) (refused_undecodable_supply s) (signals_emitted s) (last_event_slot s).
Definition refused s := mk (sells_observed s) (duplicates_skipped s) (not_open_position_skipped s) (untracked_sells s) (refused_undecodable_supply s + 1) (signals_emitted s) (last_event_slot s).
Definition emitted s := mk (sells_observed s) (duplicates_skipped s) (not_open_position_skipped s) (untracked_sells s) (refused_undecodable_supply s) (signals_emitted s + 1) (last_event_slot s).
End Stats.

(** The detector, the baselines of its [StaticHeldSupplyProvider], and the
    store its flag sink is. *)
Record Detector : Type := mk_detector {
  stats : Stats.t;
  _creator_wallet : gmap string string;
  _cluster_wallets : gmap string (gset string);
  _cumulative_sold : gmap (string * string) Z;
  _seen : gset (string * Z);
  _baselines : gmap (string * string) Z;
  _flag_sink : StateStore
}.
Definition set_stats f (d : Detector) := mk_detector (f (stats d)) (_creator_wallet d) (_cluster_wallets d) (_cumulative_sold d) (_seen d) (_baselines d) (_flag_sink d).
Definition set_creators x (d : Detector) := mk_detector (stats d) x (_cluster_wallets d) (_cumulative_sold d) (_seen d) (_baselines d) (_flag_sink d).
Definition set_clusters x (d : Detector) := mk_detector (stats d) (_creator_wallet d) x (_cumulative_sold d) (_seen d) (_baselines d) (_flag_sink d).
Definition set_cumulative x (d : Detector) := mk_detector (stats d) (_creator_wallet d) (_cluster_wallets d) x (_seen d) (_baselines d) (_flag_sink d).
Definition set_seen_keys x (d : Detector) := mk_detector (stats d) (_creator_wallet d) (_cluster_wallets d) (_cumulative_sold d) x (_baselines d) (_flag_sink d).
Definition set_baselines x (d : Detector) := mk_detector (stats d) (_creator_wallet d) (_cluster_wallets d) (_cumulative_sold d) (_seen d) x (_flag_sink d).
Definition set_sink x (d : Detector) := mk_detector (stats d) (_creator_wallet d) (_cluster_wallets d) (_cumulative_sold d) (_seen d) (_baselines d) x.
Definition Detector_init (s : StateStore) : Detector := mk_detector Stats.zero ∅ ∅ ∅ ∅ ∅ s.

(** [sorted] on strings. *)
Fixpoint insert_sorted (x : string) (l : list string) : list string :=
  match l with [] => [x] | y :: l' => if String.leb x y then x :: l else y :: insert_sorted x l' end.
Definition sorted (l : list string) : list string := foldr insert_sorted [] l.

(** ** Registration *)

Definition set_held_supply (mint wallet : string) (amount_base : int_arg) : M Detector unit :=
  lift (_check_str "StaticHeldSupplyProvider.mint" mint);;
  lift (_check_str "StaticHeldSupplyProvider.wallet" wallet);;
  amt ← lift (_check_int "StaticHeldSupplyProvider.amount_base" amount_base (Some 1));
  modify (λ d, set_baselines (<[(mint, wallet) := amt]> (_baselines d)) d).
Definition held_supply_base (mint wallet : string) (d : Detector) : option Z := _baselines d !! (mint, wallet).

Definition register_creator (mint wallet : string) : M Detector unit :=
  lift (_check_str "register_creator.mint" mint);;
  lift (_check_str "register_creator.wallet" wallet);;
  modify (λ d, set_creators (<[mint := wallet]> (_creator_wallet d)) d).

Definition register_cluster (mint : string) (wallets : list string) : M Detector unit :=
  lift (_check_str "register_cluster.mint" mint);;
  let normalized : gset string := list_to_set (filter (λ w, w ≠ "") wallets) in
  let normalized := if (MAX_CLUSTER_WALLETS <? size normalized)%nat
                    then list_to_set (take MAX_CLUSTER_WALLETS (sorted (elements normalized))) else normalized in
  modify (λ d, set_clusters (<[mint := normalized]> (_cluster_wallets d)) d).

Definition reset_mint (mint : string) : M Detector unit :=
  modify (λ d, set_cumulative (filter (λ kv, kv.1.1 ≠ mint) (_cumulative_sold d))
                 (set_clusters (delete mint (_cluster_wallets d)) (set_creators (delete mint (_creator_wallet d)) d))).

Definition _role_of (mint wallet : string) (d : Detector) : option WalletRole :=
  if bool_decide (_creator_wallet d !! mint = Some wallet) then Some CREATOR
  else if bool_decide (wallet ∈ default ∅ (_cluster_wallets d !! mint)) then Some CLUSTER
  else None.

(** ** One sell *)

Section OnSell.
Context (_clock : nat → Z) (_config : Config.t) (_seen_capacity : nat) (wired : bool).
(** [next(iter(s))] *)
Context (first_of : gset (string * Z) → string * Z).

Definition note (f : Stats.t → Stats.t) : M Detector unit := modify (set_stats f).

Definition remember (key : string * Z) : M Detector unit :=
  modify (λ d, let s := {[key]} ∪ _seen d in
               set_seen_keys (if (_seen_capacity <? size s)%nat then s ∖ {[first_of s]} else s) d).

Definition flag_sink (o : sell) (fraction_bps : Z) : M Detector unit := λ d,
  if wired then
    let '(r, s) := set_insider_dump_flag _clock (SellObservation.mint o) fraction_bps (SellObservation.event_slot o)
                     (Config.flag_ttl_seconds _config) (_flag_sink d) in (r, set_sink s d)
  else (Ok tt, d).

(** From the role on: baseline, running total, threshold, signal and flag. *)
Definition count_sell (o : sell) (role : WalletRole) : M Detector (option InsiderDumpSignal.t) :=
  let mint := SellObservation.mint o in
  let wallet := SellObservation.wallet o in
  d ← get;
  match held_supply_base mint wallet d with
  | None => note Stats.refused;; mret None
  | Some held =>
      if held <=? 0 then note Stats.refused;; mret None
      else
        let prior_cumulative := default 0 (_cumulative_sold d !! (mint, wallet)) in
        let new_cumulative := prior_cumulative + SellObservation.token_amount_sold_base o in
        modify (λ d, set_cumulative (<[(mint, wallet) := new_cumulative]> (_cumulative_sold d)) d);;
        let fraction_bps := Z.min _BPS_DENOM (new_cumulative * _BPS_DENOM / held) in
        if fraction_bps <? Config.threshold_bps _config then mret None
        else
          signal ← lift (InsiderDumpSignal.__post_init__
            (InsiderDumpSignal.mk mint wallet role fraction_bps (SellObservation.event_slot o)
               (SellObservation.block_time_ms o) new_cumulative held));
          flag_sink o fraction_bps;;
          note Stats.emitted;;
          mret (Some signal)
  end.

Definition on_sell (o : sell) (is_open_position : bool) : M Detector (option InsiderDumpSignal.t) :=
  if negb is_open_position then note Stats.not_open;; mret None
  else
    note (Stats.observed (SellObservation.event_slot o));;
    d ← get;
    if bool_decide (SellObservation.dedupe_key o ∈ _seen d) then note Stats.duplicate;; mret None
    else
      remember (SellObservation.dedupe_key o);;
      d ← get;
      match _role_of (SellObservation.mint o) (SellObservation.wallet o) d with
      | None => note Stats.untracked;; mret None
      | Some role => count_sell o role
      end.
End OnSell.

(** ** Properties *)

Definition sell_wf (o : sell) : Prop :=
  SellObservation.mint o ≠ "" ∧ SellObservation.wallet o ≠ "" ∧ 0 ≤ SellObservation.token_amount_sold_base o ∧
  0 ≤ SellObservation.event_slot o ∧ 0 ≤ SellObservation.block_time_ms o.
Definition config_wf (c : Config.t) : Prop := 1 ≤ Config.threshold_bps c ≤ _BPS_DENOM.

(** What [set_held_supply] and [count_sell] keep. *)
Definition det_wf (d : Detector) : Prop :=
  map_Forall (λ _ v, 1 ≤ v) (_baselines d) ∧ map_Forall (λ _ v, 0 ≤ v) (_cumulative_sold d).

Definition key_of (o : sell) : string * string := (SellObservation.mint o, SellObservation.wallet o).
Definition total (d : Detector) (k : string * string) : Z := default 0 (_cumulative_sold d !! k).
(** The baseline the sells of a mint's wallet are counted against. *)
Definition counted (d : Detector) (k : string * string) : option Z := _role_of k.1 k.2 d ≫= λ _, _baselines d !! k.
(** The registrations and baselines, which sells leave alone. *)
Definition same_book (d d' : Detector) : Prop :=
  _creator_wallet d' = _creator_wallet d ∧ _cluster_wallets d' = _cluster_wallets d ∧ _baselines d' = _baselines d.

Lemma same_book_counted d d' k : same_book d d' → counted d' k = counted d k.
Proof. intros (H1 & H2 & H3). unfold counted, _role_of. by rewrite H1, H2, H3. Qed.

Lemma same_book_trans d1 d2 d3 : same_book d1 d2 → same_book d2 d3 → same_book d1 d3.
Proof. unfold same_book. intuition congruence. Qed.

Lemma share_reached thr total held : 1 ≤ held → thr ≤ _BPS_DENOM →
  (Z.min _BPS_DENOM (total * _BPS_DENOM / held) <? thr) = false ↔ thr * held ≤ total * _BPS_DENOM.
Proof.
  intros Hh Ht. rewrite Z.ltb_ge. assert (thr ≤ total * _BPS_DENOM / held ↔ thr * held ≤ total * _BPS_DENOM) as <-; [|lia].
  split; intros H; [pose proof (Z.mul_div_le (total * _BPS_DENOM) held); nia|]. apply Z.div_le_lower_bound; lia.
Qed.

Section Watch.
Context (_clock : nat → Z) (c : Config.t) (cap : nat) (wired : bool) (first_of : gset (string * Z) → string * Z).
Hypothesis Hc : config_wf c.

Abbreviation sell_in := (on_sell _clock c cap wired first_of).

(** Sells of an open position, in the order they arrive. *)
Fixpoint watch_sells (l : list sell) : M Detector (list (option InsiderDumpSignal.t)) :=
  match l with
  | [] => mret []
  | o :: l => r ← sell_in o true; rs ← watch_sells l; mret (r :: rs)
  end.

(** The flag sink, wired or not, after a sell that gave a signal or none. *)
Definition flagged (o : sell) (r : option InsiderDumpSignal.t) (s s' : StateStore) : Prop :=
  match r with
  | Some _ =>
      if wired then ∀ m, expiry_of Insider s' m =
        if bool_decide (m = SellObservation.mint o) then Some (_clock (_reads s) + Config.flag_ttl_seconds c * 1000)
        else expiry_of Insider s m
      else s' = s
  | None => s' = s
  end.

(** What a sell that has not been seen leaves, with or without a signal. *)
Definition fresh_step (o : sell) (d : Detector) (r : option InsiderDumpSignal.t) (d' : Detector) : Prop :=
  same_book d d' ∧ det_wf d' ∧ _seen d' = {[SellObservation.dedupe_key o]} ∪ _seen d ∧
  (∀ k, total d' k = total d k +
     if bool_decide (k = key_of o ∧ counted d k ≠ None) then SellObservation.token_amount_sold_base o else 0) ∧
  ((∃ g, r = Some g) ↔ ∃ held, counted d (key_of o) = Some held ∧
     Config.threshold_bps c * held ≤ (total d (key_of o) + SellObservation.token_amount_sold_base o) * _BPS_DENOM) ∧
  flagged o r (_flag_sink d) (_flag_sink d').

Lemma post_init_ok g :
  InsiderDumpSignal.mint g ≠ "" → InsiderDumpSignal.wallet g ≠ "" →
  0 ≤ InsiderDumpSignal.fraction_sold_bps g ≤ _BPS_DENOM → 0 ≤ InsiderDumpSignal.event_slot g →
  0 ≤ InsiderDumpSignal.block_time_ms g → 0 ≤ InsiderDumpSignal.cumulative_sold_base g →
  1 ≤ InsiderDumpSignal.held_supply_base g → InsiderDumpSignal.__post_init__ g = Ok g.
Proof.
  intros. unfold InsiderDumpSignal.__post_init__, _check_str, _check_int, guard_ok.
  rewrite !bool_decide_eq_false_2 by done. mstep.
  repeat match goal with |- context [?a <? ?b] => rewrite (proj2 (Z.ltb_ge a b)) by lia; cbn end.
  by rewrite (proj2 (Z.leb_le _ _)) by lia.
Qed.

Lemma flag_sink_ok o f d g : 0 ≤ f ≤ _BPS_DENOM → 0 ≤ SellObservation.event_slot o →
  ∃ s, flag_sink _clock c wired o f d = (Ok tt, set_sink s d) ∧ flagged o (Some g) (_flag_sink d) s.
Proof.
  intros Hf Hs. unfold flag_sink, flagged. destruct wired; [|exists (_flag_sink d); by destruct d].
  unfold set_insider_dump_flag, ttl_set, _now.
  rewrite (proj2 (Z.leb_le 0 f)), (proj2 (Z.leb_le f 10000)), (proj2 (Z.ltb_ge _ 0)) by (unfold _BPS_DENOM in *; lia).
  mstep. eexists. split; [reflexivity|]. intros m. cbn.
  case_bool_decide; simplify_eq; [by rewrite lookup_insert_eq|by rewrite lookup_insert_ne].
Qed.

#[local] Arguments remember : simpl never.
#[local] Arguments count_sell : simpl never.
#[local] Arguments flag_sink : simpl never.
#[local] Arguments _role_of : simpl never.

Lemma remember_small key d : key ∉ _seen d → (size (_seen d) < cap)%nat →
  remember cap first_of key d = (Ok tt, set_seen_keys ({[key]} ∪ _seen d) d).
Proof.
  clear Hc. intros Hk Hcap. unfold remember, modify.
  assert (size ({[key]} ∪ _seen d) ≤ cap)%nat as H by (rewrite size_union, size_singleton by set_solver; lia).
  by rewrite (proj2 (Nat.ltb_ge _ _) H).
Qed.

Lemma uncounted_total o d d' : counted d (key_of o) = None → _cumulative_sold d' = _cumulative_sold d →
  ∀ k, total d' k = total d k + 
    if bool_decide (k = key_of o ∧ counted d k ≠ None) then SellObservation.token_amount_sold_base o else 0.
Proof. intros Hn E k. unfold total. rewrite E, bool_decide_eq_false_2; [lia|]. by intros [-> ?]. Qed.

Lemma counted_total o d d' held : counted d (key_of o) = Some held →
  _cumulative_sold d' = <[key_of o := total d (key_of o) + SellObservation.token_amount_sold_base o]> (_cumulative_sold d) →
  ∀ k, total d' k = total d k + 
    if bool_decide (k = key_of o ∧ counted d k ≠ None) then SellObservation.token_amount_sold_base o else 0.
Proof.
  intros Hs E k. unfold total at 1. rewrite E. destruct (decide (k = key_of o)) as [->|Hk].
  - rewrite lookup_insert_eq, bool_decide_eq_true_2; [done|]. by rewrite Hs.
  - rewrite lookup_insert_ne, bool_decide_eq_false_2 by naive_solver. unfold total. lia.
Qed.

Lemma total_nonneg d k : det_wf d → 0 ≤ total d k.
Proof. intros [_ H]. unfold total. destruct (_cumulative_sold d !! k) eqn:E; cbn; [by apply (H _ _ E)|lia]. Qed.

Lemma count_sell_ok o role d held : sell_wf o → det_wf d → _baselines d !! key_of o = Some held →
  let after := total d (key_of o) + SellObservation.token_amount_sold_base o in
  ∃ r d', count_sell _clock c wired o role d = (Ok r, d') ∧ same_book d d' ∧ det_wf d' ∧ _seen d' = _seen d ∧
    _cumulative_sold d' = <[key_of o := after]> (_cumulative_sold d) ∧
    ((∃ g, r = Some g) ↔ Config.threshold_bps c * held ≤ after * _BPS_DENOM) ∧
    flagged o r (_flag_sink d) (_flag_sink d').
Proof.
  intros (Hm & Hw & Ha & Hs & Hb) Hwf Eh after. pose proof (total_nonneg d (key_of o) Hwf) as Ho.
  destruct Hwf as [Hbase Hcum]. pose proof (Hbase _ _ Eh) as Hh. cbn in Hh.
  unfold count_sell, held_supply_base, note. mstep. fold (key_of o). rewrite Eh. mstep.
  rewrite (proj2 (Z.leb_gt _ _)) by lia. mstep. fold (total d (key_of o)). fold after.
  pose proof (share_reached (Config.threshold_bps c) after held Hh (proj2 Hc)) as Hr.
  assert (map_Forall (λ _ v, 0 ≤ v) (<[key_of o := after]> (_cumulative_sold d))) as Hcum'
    by (apply map_Forall_insert_2; [unfold after; lia|done]).
  assert (0 ≤ after * _BPS_DENOM / held) by (apply Z.div_pos; unfold after, _BPS_DENOM; lia).
  destruct (_ <? Config.threshold_bps c).
  - eexists _, _. split; [reflexivity|]. cbn. split_and!; try done. split; [by intros [? ?]|].
    intros H'. apply Hr in H'. done.
  - rewrite post_init_ok by (cbn; unfold after, _BPS_DENOM in *; lia || done). mstep.
    match goal with |- context [InsiderDumpSignal.mk ?a1 ?a2 ?a3 ?a4 ?a5 ?a6 ?a7 ?a8] =>
      set (g := InsiderDumpSignal.mk a1 a2 a3 a4 a5 a6 a7 a8) end.
    destruct (flag_sink_ok o (Z.min _BPS_DENOM (after * _BPS_DENOM / held)) (set_cumulative (<[key_of o := after]> (_cumulative_sold d)) d) g
      ltac:(unfold _BPS_DENOM in *; lia) Hs) as (s & -> & Hfl).
    eexists _, _. split; [reflexivity|]. cbn. split_and!; try done.
    split; [intros _; by apply Hr|by eexists].
Qed.

Lemma fresh_sell o d : sell_wf o → det_wf d → SellObservation.dedupe_key o ∉ _seen d → (size (_seen d) < cap)%nat →
  ∃ r d', sell_in o true d = (Ok r, d') ∧ fresh_step o d r d'.
Proof.
  intros Ho Hwf Hk Hcap. unfold on_sell, note. mstep. rewrite bool_decide_eq_false_2, remember_small by done. mstep.
  set (d1 := set_seen_keys _ _). assert (det_wf d1) as Hwf1 by done.
  change (_role_of _ _ d1) with (_role_of (SellObservation.mint o) (SellObservation.wallet o) d).
  assert (counted d (key_of o) =
    (_role_of (SellObservation.mint o) (SellObservation.wallet o) d ≫= λ _, _baselines d1 !! key_of o)) as Ec by done.
  destruct (_role_of _ _ d) as [role|]; cbn in Ec; mstep.
  2: { eexists _, _. split; [reflexivity|]. unfold fresh_step. split_and!; try done; [by apply uncounted_total|].
       rewrite Ec. naive_solver. }
  change (_baselines d) with (_baselines d1) in Ec. destruct (_baselines d1 !! key_of o) as [held|] eqn:Eh.
  - destruct (count_sell_ok o role d1 held Ho Hwf1 Eh) as (r & d' & -> & (? & ? & ?) & [? ?] & Hs & Hcu & Hr & Hf).
    eexists _, _. split; [reflexivity|]. split_and!; try done; [exact (counted_total o d d' held Ec Hcu)|].
    rewrite Ec. change (total d1) with (total d) in Hr. naive_solver.
  - unfold count_sell, get, mbind, M_bind. change (held_supply_base _ _ d1) with (_baselines d1 !! key_of o). rewrite Eh. mstep.
    eexists _, _. split; [reflexivity|]. split_and!; try done; [by apply uncounted_total|]. rewrite Ec. naive_solver.
Qed.

Lemma repeated_sell o d : SellObservation.dedupe_key o ∈ _seen d → det_wf d →
  ∃ d', sell_in o true d = (Ok None, d') ∧ same_book d d' ∧ det_wf d' ∧ _seen d' = _seen d ∧
    (∀ k, total d' k = total d k) ∧ _flag_sink d' = _flag_sink d.
Proof.
  intros Hk Hwf. unfold on_sell, note. mstep. rewrite bool_decide_eq_true_2 by done. mstep.
  eexists. split; [reflexivity|]. by split_and!.
Qed.
(** The observations a run counts once each: the first under each key. *)
Fixpoint news (seen : gset (string * Z)) (l : list sell) : list sell :=
  match l with
  | [] => []
  | o :: l => let k := SellObservation.dedupe_key o in
              if bool_decide (k ∈ seen) then news seen l else o :: news ({[k]} ∪ seen) l
  end.
Definition sold (k : string * string) (l : list sell) : Z :=
  zsum (SellObservation.token_amount_sold_base <$> filter (λ o, key_of o = k) l).
(** A run signalled a dump by the mint's wallet [k]. *)
Definition signalled (k : string * string) (rs : list (option InsiderDumpSignal.t)) (l : list sell) : Prop :=
  ∃ i o g, l !! i = Some o ∧ key_of o = k ∧ rs !! i = Some (Some g).

Lemma signalled_cons k r rs o l :
  signalled k (r :: rs) (o :: l) ↔ (key_of o = k ∧ ∃ g, r = Some g) ∨ signalled k rs l.
Proof.
  split.
  - intros ([|i] & o' & g & Hi & Hk & Hr); cbn in *; simplify_eq; [left; eauto|right; by exists i, o', g].
  - intros [(Hk & g & ->)|(i & o' & g & H)]; [by exists 0%nat, o, g|by exists (S i), o', g].
Qed.

Lemma sold_cons k o l :
  sold k (o :: l) = (if bool_decide (key_of o = k) then SellObservation.token_amount_sold_base o else 0) + sold k l.
Proof. unfold sold. rewrite filter_cons. case_decide; [by rewrite bool_decide_eq_true_2|by rewrite bool_decide_eq_false_2]. Qed.

Lemma sold_nonneg k l : Forall sell_wf l → 0 ≤ sold k l.
Proof.
  intros H. induction H as [|o l (_ & _ & H & _) _ IH]; [done|]. rewrite sold_cons. case_bool_decide; lia.
Qed.

Lemma news_wf seen l : Forall sell_wf l → Forall sell_wf (news seen l).
Proof. intros H. revert seen. induction H; intros seen; cbn; [done|]. case_bool_decide; [|constructor]; auto. Qed.

Definition reached (d : Detector) (k : string * string) (t : Z) : Prop :=
  ∃ held, counted d k = Some held ∧ Config.threshold_bps c * held ≤ t * _BPS_DENOM.

(** The whole run: what it counts, which wallets it signals, which mints it flags. *)
Definition run_counts (l : list sell) (d : Detector) (rs : list (option InsiderDumpSignal.t)) (d' : Detector) : Prop :=
  length rs = length l ∧ same_book d d' ∧
  (∀ k, total d' k = total d k + if bool_decide (counted d k = None) then 0 else sold k (news (_seen d) l)) ∧
  (∀ k, signalled k rs l ↔ (∃ o, o ∈ news (_seen d) l ∧ key_of o = k) ∧ reached d k (total d' k)) ∧
  (∀ m, expiry_of Insider (_flag_sink d') m ≠ None ↔
     expiry_of Insider (_flag_sink d) m ≠ None ∨ wired = true ∧ ∃ w, signalled (m, w) rs l).

Lemma flagged_iff o r s s' m : flagged o r s s' →
  expiry_of Insider s' m ≠ None ↔
  expiry_of Insider s m ≠ None ∨ wired = true ∧ m = SellObservation.mint o ∧ ∃ g, r = Some g.
Proof.
  unfold flagged. destruct r as [g|]; [|intros ->; naive_solver]. destruct wired; [|intros ->; naive_solver].
  intros ->. case_bool_decide; naive_solver.
Qed.

Lemma run_counts_fresh o l d d1 r rs d' : sell_wf o → Forall sell_wf l →
  SellObservation.dedupe_key o ∉ _seen d → fresh_step o d r d1 → run_counts l d1 rs d' → run_counts (o :: l) d (r :: rs) d'.
Proof.
  intros Ho Hl Hk (Hb1 & _ & Hs1 & Ht1 & Hr1 & Hf1) (Hn & Hb & Ht & Hsig & Hfl).
  assert (∀ k, counted d1 k = counted d k) as Ec by (intros k; by apply same_book_counted).
  unfold run_counts. cbn [news]. rewrite bool_decide_eq_false_2 by done. rewrite Hs1 in *.
  set (new := news _ l) in *. pose proof (news_wf ({[SellObservation.dedupe_key o]} ∪ _seen d) l Hl) as Hnew. fold new in Hnew.
  split; [by cbn; f_equal|]. split; [by apply (same_book_trans d d1 d')|]. split_and!.
  - intros k. rewrite Ht, Ht1, Ec, sold_cons. repeat case_bool_decide; naive_solver lia.
  - intros k. rewrite signalled_cons, Hsig, Hr1. unfold reached. rewrite Ec.
    pose proof (sold_nonneg k new Hnew) as Hp. specialize (Ht k). specialize (Ht1 k). rewrite Ec in Ht.
    destruct Ho as (_ & _ & Ha & _).
    setoid_rewrite elem_of_cons. split.
    + intros [(<- & held & Hh & Hle)|[(o' & Ho' & Hk') Hre]]; [|split; [exists o'; by auto|done]].
      split; [exists o; by auto|]. exists held. split; [done|].
      rewrite bool_decide_eq_true_2 in Ht1 by naive_solver. rewrite bool_decide_eq_false_2 in Ht by congruence.
      unfold _BPS_DENOM in *. nia.
    + intros [(o' & [->|Ho'] & Hk') Hre]; [|right; split; [by exists o'|done]].
      destruct (decide (Exists (λ o, key_of o = k) new)) as [He|He].
      { right. split; [|done]. by apply Exists_exists in He. }
      left. split; [done|]. destruct Hre as (held & Hh & Hle). exists held. split; [by rewrite Hk'|].
      subst k. rewrite bool_decide_eq_true_2 in Ht1 by naive_solver. rewrite bool_decide_eq_false_2 in Ht by congruence.
      replace (sold (key_of o) new) with 0 in Ht; [by rewrite Ht, Ht1, Z.add_0_r in Hle|].
      symmetry. clear -He. unfold sold. induction new as [|x new' IH]; [done|]. rewrite filter_cons_False by (intros H; by apply He; left).
      apply IH. intros H. by apply He; right.
  - intros m. rewrite Hfl, (flagged_iff o r _ _ m Hf1). setoid_rewrite signalled_cons. unfold key_of. naive_solver.
Qed.
Lemma run_counts_repeated o l d d1 rs d' :
  SellObservation.dedupe_key o ∈ _seen d → same_book d d1 → _seen d1 = _seen d → (∀ k, total d1 k = total d k) →
  _flag_sink d1 = _flag_sink d → run_counts l d1 rs d' → run_counts (o :: l) d (None :: rs) d'.
Proof.
  intros Hk Hb1 Hs1 Ht1 Hf1 (Hn & Hb & Ht & Hsig & Hfl).
  assert (∀ k, counted d1 k = counted d k) as Ec by (intros k; by apply same_book_counted).
  unfold run_counts, reached in *. cbn [news]. rewrite bool_decide_eq_true_2 by done. rewrite Hs1, Hf1 in *.
  split; [by cbn; f_equal|]. split; [by apply (same_book_trans d d1 d')|].
  split; [intros k; by rewrite Ht, Ht1, Ec|]. split.
  - intros k. rewrite signalled_cons, Hsig, Ec. naive_solver.
  - intros m. rewrite Hfl. setoid_rewrite signalled_cons. naive_solver.
Qed.

Lemma watch_sells_ok l d : Forall sell_wf l → det_wf d → (size (_seen d) + length (news (_seen d) l) ≤ cap)%nat →
  ∃ rs d', watch_sells l d = (Ok rs, d') ∧ run_counts l d rs d'.
Proof.
  intros Hl. revert d. induction Hl as [|o l Ho Hl IH]; intros d Hwf Hcap; cbn [watch_sells news] in *.
  { eexists [], d. split; [done|]. split; [done|]. split; [done|]. split_and!.
    - intros k. case_bool_decide; unfold sold; cbn; lia.
    - intros k. split; [by intros (i & ? & ? & Hi & _)|]. intros [(o & Ho & _) _]. by apply elem_of_nil in Ho.
    - intros m. split; [by left|]. intros [H|(_ & w & i & ? & ? & Hi & _)]; done. }
  unfold mbind, M_bind. case_bool_decide as Hk; cbn in Hcap.
  - destruct (repeated_sell o d Hk Hwf) as (d1 & -> & Hb & Hw & Hs & Ht & Hf). rewrite <- Hs in Hcap.
    destruct (IH d1 Hw Hcap) as (rs & d' & Hrun & Hc'). cbn. rewrite Hrun.
    eexists _, d'. split; [reflexivity|]. by eapply run_counts_repeated.
  - destruct (fresh_sell o d Ho Hwf Hk ltac:(lia)) as (r & d1 & -> & Hst). pose proof Hst as (Hb & Hw & Hs & _).
    assert (size (_seen d1) = S (size (_seen d))) as Hsz by (by rewrite Hs, size_union, size_singleton by set_solver).
    rewrite Hs in Hsz. rewrite <- Hs in Hsz, Hcap.
    destruct (IH d1 Hw ltac:(lia)) as (rs & d' & Hrun & Hc'). unfold mbind, M_bind. rewrite Hrun.
    eexists _, d'. split; [reflexivity|]. by eapply run_counts_fresh.
Qed.

End Watch.

(** *** Order and repetition *)

Lemma elem_of_news seen l o : (∀ o', o' ∈ l → SellObservation.dedupe_key o = SellObservation.dedupe_key o' → o = o') →
  o ∈ news seen l ↔ o ∈ l ∧ SellObservation.dedupe_key o ∉ seen.
Proof.
  revert seen. induction l as [|x l IH]; intros seen Hl; cbn; [set_solver|].
  assert (∀ o', o' ∈ l → SellObservation.dedupe_key o = SellObservation.dedupe_key o' → o = o') as Hl'
    by (intros; apply Hl; set_solver).
  specialize (Hl x ltac:(set_solver)). case_bool_decide as Hx; rewrite ?elem_of_cons, IH by done; [naive_solver|].
  rewrite not_elem_of_union, elem_of_singleton. 
  destruct (decide (SellObservation.dedupe_key o = SellObservation.dedupe_key x)) as [E|E]; naive_solver congruence.
Qed.

Lemma news_NoDup seen l : NoDup (news seen l).
Proof.
  assert (∀ l seen o, o ∈ news seen l → SellObservation.dedupe_key o ∉ seen) as Hin.
  { clear. intros l. induction l as [|x l IH]; intros seen o; cbn; [set_solver|].
    case_bool_decide; [apply IH|]. rewrite elem_of_cons. intros [->|H']; [done|]. apply IH in H'. set_solver. }
  revert seen. induction l as [|x l IH]; intros seen; cbn; [constructor|].
  case_bool_decide; [done|]. constructor; [|done]. intros H'. apply Hin in H'. set_solver.
Qed.

Lemma sold_perm k l1 l2 : l1 ≡ₚ l2 → sold k l1 = sold k l2.
Proof. intros H. induction H; rewrite ?sold_cons; try lia; done. Qed.

(** One run for each delivery of the same on-chain sells. *)
Definition same_sells (l1 l2 : list sell) : Prop :=
  (∀ o, o ∈ l1 ↔ o ∈ l2) ∧
  ∀ o o', o ∈ l1 → o' ∈ l1 → SellObservation.dedupe_key o = SellObservation.dedupe_key o' → o = o'.

Lemma news_same seen l1 l2 : same_sells l1 l2 → news seen l1 ≡ₚ news seen l2.
Proof.
  intros [Hs Hk]. apply NoDup_Permutation; [apply news_NoDup..|].
  intros o. destruct (decide (o ∈ l1)) as [Ho|Ho].
  - rewrite (elem_of_news _ l1), (elem_of_news _ l2), Hs; [done|intros o' Ho'; apply Hk; [done|by apply Hs]|intros o' Ho'; by apply Hk].
  - assert (∀ l, o ∉ l → o ∉ news seen l) as Hn.
    { clear. intros l. revert seen. induction l as [|x l IH]; intros seen Hx; cbn; [done|].
      rewrite not_elem_of_cons in Hx. destruct Hx as [Hx1 Hx2].
      case_bool_decide; [by apply IH|]. rewrite not_elem_of_cons. split; [done|by apply IH]. }
    split; intros H; exfalso; (eapply Hn; [|exact H]); [done|]. by rewrite <- Hs.
Qed.

(** C29: Sells may be delivered in any order and any number of times. For an open
    position, while the memory of seen sells is not full, a run of the detector
    never raises; it adds every new sell of a registered wallet with a baseline
    to that wallet's total exactly once, signals a wallet exactly when it has a
    new sell and its total ends at or above the threshold share of its
    baseline, and flags exactly the mints of signalled wallets. A second
    delivery of the same sells, reordered or repeated, ends with the same
    totals, signalled wallets and flagged mints. *)
Theorem dumps_counted_once_in_any_order _clock c cap wired first_of l1 l2 d :
  config_wf c → det_wf d → Forall sell_wf l1 → same_sells l1 l2 →
  (size (_seen d) + length (news (_seen d) l1) ≤ cap)%nat →
  ∃ rs1 d1 rs2 d2,
    watch_sells _clock c cap wired first_of l1 d = (Ok rs1, d1) ∧ run_counts c wired l1 d rs1 d1 ∧
    watch_sells _clock c cap wired first_of l2 d = (Ok rs2, d2) ∧ run_counts c wired l2 d rs2 d2 ∧
    (∀ k, total d2 k = total d1 k) ∧ (∀ k, signalled k rs1 l1 ↔ signalled k rs2 l2) ∧
    ∀ m, expiry_of Insider (_flag_sink d1) m ≠ None ↔ expiry_of Insider (_flag_sink d2) m ≠ None.
Proof.
  intros Hc Hd H1 Hs Hcap. pose proof (news_same (_seen d) l1 l2 Hs) as Hp.
  assert (Forall sell_wf l2) as H2 by (apply Forall_forall; intros o Ho; eapply Forall_forall; [exact H1|by apply Hs]).
  destruct (watch_sells_ok _clock c cap wired first_of Hc l1 d) as (rs1 & d1 & Hr1 & C1); [done..|].
  destruct (watch_sells_ok _clock c cap wired first_of Hc l2 d) as (rs2 & d2 & Hr2 & C2); [done..|by rewrite <- Hp|].
  exists rs1, d1, rs2, d2. do 4 (split; [done|]).
  destruct C1 as (_ & _ & T1 & S1 & F1), C2 as (_ & _ & T2 & S2 & F2).
  assert (∀ k, total d2 k = total d1 k) as Ht by (intros k; by rewrite T1, T2, (sold_perm k _ _ Hp)).
  assert (∀ k, signalled k rs1 l1 ↔ signalled k rs2 l2) as Hsg by (intros k; rewrite S1, S2, Ht; by setoid_rewrite Hp).
  split; [done|]. split; [done|]. intros m. rewrite F1, F2. by setoid_rewrite Hsg.
Qed.

#[local] Arguments remember : simpl never.
#[local] Arguments count_sell : simpl never.

(** A tracked sell that arrives before its baseline is lost: it is remembered
    as seen, so once the baseline is registered a second delivery is taken for
    a duplicate and the sell stays out of the wallet's total. *)
Theorem sell_before_baseline_is_lost _clock c cap wired first_of o amount d role :
  SellObservation.dedupe_key o ∉ _seen d → (size (_seen d) < cap)%nat →
  _role_of (SellObservation.mint o) (SellObservation.wallet o) d = Some role →
  _baselines d !! key_of o = None → SellObservation.mint o ≠ "" → SellObservation.wallet o ≠ "" → 1 ≤ amount →
  let sell_in := on_sell _clock c cap wired first_of o true in
  let register := set_held_supply (SellObservation.mint o) (SellObservation.wallet o) (IInt amount) in
  ∃ d', (sell_in;; register;; sell_in) d = (Ok None, d') ∧
    _baselines d' !! key_of o = Some amount ∧ _cumulative_sold d' = _cumulative_sold d ∧ _flag_sink d' = _flag_sink d ∧
    Stats.duplicates_skipped (stats d') = Stats.duplicates_skipped (stats d) + 1.
Proof.
  intros Hk Hcap Hr Hb Hm Hw Ha sell_in register.
  assert (∃ d1, sell_in d = (Ok None, d1) ∧ SellObservation.dedupe_key o ∈ _seen d1 ∧ _cumulative_sold d1 = _cumulative_sold d ∧
    _flag_sink d1 = _flag_sink d ∧ _baselines d1 = _baselines d ∧
    Stats.duplicates_skipped (stats d1) = Stats.duplicates_skipped (stats d)) as (d1 & E1 & Hs1 & Hc1 & Hf1 & Hb1 & Hd1).
  { unfold sell_in, on_sell, note. mstep. rewrite bool_decide_eq_false_2, remember_small by done. mstep.
    set (d1 := set_seen_keys _ _). change (_role_of _ _ d1) with (_role_of (SellObservation.mint o) (SellObservation.wallet o) d).
    rewrite Hr. unfold count_sell, held_supply_base, note. mstep. fold (key_of o). rewrite Hb. mstep.
    eexists. split; [reflexivity|]. cbn. split_and!; try done. set_solver. }
  set (d2 := set_baselines (<[key_of o := amount]> (_baselines d1)) d1).
  assert (register d1 = (Ok tt, d2)) as E2.
  { unfold register, set_held_supply, _check_str, _check_int. rewrite !bool_decide_eq_false_2 by done. mstep.
    by rewrite (proj2 (Z.ltb_ge _ _)) by lia. }
  unfold mbind at 1, M_bind. rewrite E1. unfold mbind, M_bind. rewrite E2.
  unfold sell_in, on_sell, note. mstep. rewrite bool_decide_eq_true_2 by done. mstep.
  eexists. split; [reflexivity|]. cbn. rewrite lookup_insert_eq. split_and!; try done. by rewrite Hd1.
Qed.

(** *** Witnesses *)

Definition dump_detector : Detector :=
  snd ((register_creator "M" "dev";; register_cluster "M" ["a"; "b"; ""];; set_held_supply "M" "dev" (IInt 1000);;
        set_held_supply "M" "a" (IInt 500)) (Detector_init StateStore_init)).
Definition dump_sell (wallet signature : string) (amount : Z) : sell :=
  SellObservation.mk "M" wallet amount 7 9 signature 0 "decoder".
Definition dump_sells : list sell :=
  [dump_sell "dev" "s1" 150; dump_sell "b" "s2" 900; dump_sell "dev" "s1" 150; dump_sell "a" "s3" 99; dump_sell "dev" "s4" 60].

Lemma dumps_counted_once_witness : ∃ rs d', 
  watch_sells tick_clock Config.default 50 true (λ _, ("", 0)) (reverse dump_sells) dump_detector = (Ok rs, d') ∧
  total d' ("M", "dev") = 210 ∧ signalled ("M", "dev") rs (reverse dump_sells) ∧ ¬ signalled ("M", "a") rs (reverse dump_sells).
Proof.
  destruct (dumps_counted_once_in_any_order tick_clock Config.default 50 true (λ _, ("", 0)) dump_sells (reverse dump_sells) dump_detector)
    as (rs1 & d1 & rs2 & d2 & E1 & C1 & E2 & C2 & Ht & Hs & Hf).
  - split; vm_compute; discriminate.
  - split; by apply map_Forall_to_list; vm_compute; repeat constructor; discriminate.
  - repeat constructor; try discriminate.
  - split; [intros o; by rewrite elem_of_reverse|].
    intros o o'. unfold dump_sells. rewrite !elem_of_cons, !elem_of_nil. intros Ho Ho' Hk.
    destruct_or? Ho; destruct_or? Ho'; subst; try done.
  - apply Nat.leb_le. vm_compute. reflexivity.
  - assert (total d1 ("M", "dev") = 210) as T
      by (pose proof (f_equal snd E1) as E; cbn [snd] in E; rewrite <- E; vm_compute; reflexivity).
    pose proof (f_equal fst E1) as E. vm_compute in E. injection E as <-. clear E1 C1 C2 Hf.
    exists rs2, d2. split; [exact E2|]. split; [by rewrite Ht|].
    split; [apply Hs; exists 4%nat, (dump_sell "dev" "s4" 60); eexists; split; [reflexivity|split; reflexivity]|]. intros H. apply Hs in H.
    destruct H as (i & o & g & Hi & Hk & Hg). do 5 (destruct i as [|i]; [try discriminate Hg; injection Hi as <-; discriminate Hk|]).
    discriminate Hi.
Defined.

Lemma sell_before_baseline_witness :
  let o := dump_sell "b" "s2" 900 in
  ∃ d', (on_sell tick_clock Config.default 50 true (λ _, ("", 0)) o true;; set_held_supply "M" "b" (IInt 1000);;
         on_sell tick_clock Config.default 50 true (λ _, ("", 0)) o true) dump_detector = (Ok None, d') ∧
    _cumulative_sold d' = ∅.
Proof.
  intros o.
  destruct (sell_before_baseline_is_lost tick_clock Config.default 50 true (λ _, ("", 0)) o 1000 dump_detector CLUSTER)
    as (d' & E & _ & Hc & _).
  - apply (not_elem_of_empty (C := gset (string * Z))).
  - vm_compute. lia.
  - vm_compute. reflexivity.
  - vm_compute. reflexivity.
  - discriminate.
  - discriminate.
  - lia.
  - exists d'. split; [exact E|]. rewrite Hc. vm_compute. reflexivity.
Defined.

(** ** From the stream to the detector *)

Lemma observation_times signature e ix o : sell_observation_from_launch_event signature e KSell ix = Ok (Some o) →
  SellObservation.event_slot o = EventTime.slot (LaunchEvent.event_time e) ∧
  SellObservation.block_time_ms o = EventTime.block_time_ms (LaunchEvent.event_time e).
Proof.
  unfold sell_observation_from_launch_event, SellObservation.new, mbind, result_bind, _check_str. cbn [_check_int].
  intros Ho. by repeat (case_match; simplify_eq/=).
Qed.

(** C30: What the detector is given of a routed transaction: only pump.fun curve
    sells.  The transaction carries an instruction of the registered pump.fun
    program with the sell discriminator, and the observation has the slot and
    block time of the transaction.  The sells of a migrated token, decoded from
    PumpSwap and Raydium, are never observed. *)
Theorem only_curve_sells_are_observed `{Platform} r tx tr n e k n' signature ix o :
  InstructionRouter.route r tx tr n = (Ok (Some (e, k)), n') →
  sell_observation_from_launch_event signature e k ix = Ok (Some o) →
  LaunchEvent.source e = PUMPFUN ∧
  (∃ i data, i ∈ RawTransaction.instructions tx ++ RawTransaction.inner_instructions tx ∧
     ProgramRegistry.program_id r PUMPFUN = Ok (RawInstruction.program_id i) ∧
     _b64_decode (RawInstruction.data_b64 i) = Ok data ∧ has_disc PUMP_DISC_SELL data = true) ∧
  SellObservation.event_slot o = RawTransaction.slot tx ∧
  ∃ s, RawTransaction.block_time_unix_s tx = Some s ∧ 0 < s ∧ SellObservation.block_time_ms o = s * 1000.
Proof.
  intros Hr Ho. destruct (routed_events_are_evidenced r tx tr n) as (x & n1 & E & Hx). rewrite Hr in E. injection E as <- <-.
  destruct (Hx e k eq_refl) as (_ & _ & [(s & Hs & H0 & Ht) Hslot _ _ _] & src & i & data & d & Hi & Hpid & Hd & Hdisc & Hin & _ & Hsrc).
  destruct k; try done. destruct (sell_discriminator _ _ Hin) as [-> ->].
  split; [exact Hsrc|]. split; [exact (ex_intro _ i (ex_intro _ data (conj Hi (conj Hpid (conj Hd Hdisc)))))|].
  destruct (observation_times _ _ _ _ Ho) as [-> ->]. rewrite Hslot, Ht. split; [reflexivity|]. exact (ex_intro _ s (conj Hs (conj H0 eq_refl))).
Qed.

Lemma curve_sell_observed_witness : ∃ e n' o,
  InstructionRouter.route demo_registry (demo_tx [demo_sell]) GEYSER 0%nat = (Ok (Some (e, KSell)), n') ∧
  sell_observation_from_launch_event "sig" e KSell 0 = Ok (Some o) ∧ LaunchEvent.source e = PUMPFUN.
Proof.
  destruct (InstructionRouter.route demo_registry (demo_tx [demo_sell]) GEYSER 0%nat) as [[[[e k]|]|x] n'] eqn:E;
    [|vm_compute in E; discriminate E..].
  assert (k = KSell) as -> by (vm_compute in E; congruence).
  destruct (sell_observation_from_launch_event "sig" e KSell 0) as [[o|]|x] eqn:Eo;
    [|vm_compute in E; injection E as <- _; vm_compute in Eo; discriminate Eo..].
  exists e, n', o. split; [reflexivity|]. split; [exact Eo|].
  exact (proj1 (only_curve_sells_are_observed _ _ _ _ _ _ _ _ _ _ E Eo)).
Defined.
