(* ===== verification/SlowLoop.v ===== *)
(** * The slow loop and the regime wiring

    [aats/controller/slow_loop.py] and [regime_wiring.py], with the regime
    contract of [aats/contracts/models.py] and [SurvivorPrediction] of
    [aats/models/survivor.py].  Both turn what a model says about a mint into
    the store's pre-set flags.  The classifier, the reasoner, the survivor
    model and its feature source are parameters; log calls are left out, and so
    are the branches for a directive outside its enum. *)

From Stdlib Require Import FloatOps SpecFloat.
From S2P Require Import Prelude Decimal RiskContracts Float64 FloatRepr Intents Clamp Prompt Positions StateStore Fsm SnipeLoop.

(** ** [SlowLoop] *)

Record SlowLoop : Type := mk_slow {
  _classifier : LaunchEvent.t → result (option StateStore.DecisionSignal);
  _reasoner : option (LaunchEvent.t → StateStore.DecisionSignal → result ReasoningVerdict.t);
  _signal_ttl : Z;
  _veto_ttl : Z;
  _narrative_ttl : Z
}.

Section Slow.
Context (_clock : nat → Z).

Definition _apply_reasoning_verdict (loop : SlowLoop) (mint : string) (verdict : ReasoningVerdict.t) : M StateStore unit :=
  match ReasoningVerdict.action verdict with
  | ReasoningAction.HOLD => mret tt
  | ReasoningAction.VETO_ENTRY => set_veto_flag _clock mint (_veto_ttl loop)
  | ReasoningAction.REDUCE_SIZE => set_veto_flag _clock mint (_veto_ttl loop / 2)
  | ReasoningAction.FORCE_EXIT => set_narrative_failure_flag _clock mint (_narrative_ttl loop)
  end.

Definition process_event (loop : SlowLoop) (event : LaunchEvent.t) : M StateStore (option StateStore.DecisionSignal) :=
  let mint := LaunchEvent.mint event in
  signal ← lift (_classifier loop event);
  match signal with
  | None => mret None
  | Some signal =>
      set_decision_signal _clock signal (_signal_ttl loop);;
      (match _reasoner loop with
       | Some reason => verdict ← lift (reason event signal); _apply_reasoning_verdict loop mint verdict
       | None => mret tt
       end);;
      mret (Some signal)
  end.
End Slow.

(** ** The regime contract *)

Inductive RegimeState : Type := ACCUMULATION | NEUTRAL | DISTRIBUTION | RUG_IN_PROGRESS.
#[global] Instance RegimeState_eq_dec : EqDecision RegimeState.
Proof. solve_decision. Defined.

Module RegimeDeRiskDirective.
Inductive t : Type := NONE | REDUCE | FORCE_EXIT | VETO_ENTRY.
#[global] Instance t_eq_dec : EqDecision t.
Proof. solve_decision. Defined.
End RegimeDeRiskDirective.
Import RegimeDeRiskDirective.

Definition regime_derisk_directive (s : RegimeState) : RegimeDeRiskDirective.t :=
  match s with ACCUMULATION | NEUTRAL => NONE | DISTRIBUTION => REDUCE | RUG_IN_PROGRESS => FORCE_EXIT end.

Module RegimeSignal.
Record t : Type := mk {
  mint : string; event_time : EventTime.t; model_version : string; taxonomy_version : string; regime : RegimeState;
  p_accumulation : float; p_neutral : float; p_distribution : float; p_rug_in_progress : float;
  uncertainty : float; is_bootstrap_not_real : bool
}.

Definition prob (s : t) (r : RegimeState) : float :=
  match r with
  | ACCUMULATION => p_accumulation s | NEUTRAL => p_neutral s | DISTRIBUTION => p_distribution s
  | RUG_IN_PROGRESS => p_rug_in_progress s
  end.

(** [sum(probs.values())] starts at the integer 0. *)
Definition total (s : t) : float :=
  fadd (fadd (fadd (fadd fzero (p_accumulation s)) (p_neutral s)) (p_distribution s)) (p_rug_in_progress s).
Definition top (s : t) : float :=
  fmax (fmax (fmax (p_accumulation s) (p_neutral s)) (p_distribution s)) (p_rug_in_progress s).

Definition _probability_range (v : float) : result unit := unit_range v "Regime probability/uncertainty".
Definition _distribution_and_argmax (s : t) : result t :=
  guard_ok (negb (fltb (float_lit 1 6) (SFabs (fsub (total s) fone))))
    (ValueError "Regime class probabilities must form a distribution summing to 1");;
  guard_ok (negb (fltb (prob s (regime s)) (fsub (top s) (float_lit 1 9)))) (ValueError "regime is not an argmax class");;
  Ok s.

Definition new (mint : string) (et : EventTime.t) (version taxonomy : string) (r : RegimeState)
    (pa pn pd pr u : float) (bootstrap : bool) : result t :=
  _probability_range pa;; _probability_range pn;; _probability_range pd;; _probability_range pr;; _probability_range u;;
  _distribution_and_argmax (mk mint et version taxonomy r pa pn pd pr u bootstrap).

Definition derisk_directive (s : t) : RegimeDeRiskDirective.t := regime_derisk_directive (regime s).
End RegimeSignal.

Module SurvivorPrediction.
Record t : Type := mk {
  mint : string; event_time : EventTime.t; model_version : string; p_calibrated : float; uncertainty : float;
  p10 : float; p50 : float; p90 : float; vol_estimate : float; is_bootstrap_not_real : bool
}.
Definition __post_init__ (s : t) : result t :=
  unit_range (p_calibrated s) "SurvivorPrediction.p_calibrated";;
  unit_range (uncertainty s) "SurvivorPrediction.uncertainty";;
  unit_range (p10 s) "SurvivorPrediction.p10";;
  unit_range (p50 s) "SurvivorPrediction.p50";;
  unit_range (p90 s) "SurvivorPrediction.p90";;
  unit_range (vol_estimate s) "SurvivorPrediction.vol_estimate";;
  guard_ok (fleb (p10 s) (p50 s) && fleb (p50 s) (p90 s)) (ValueError "survivor quantiles must be ordered p10<=p50<=p90");;
  Ok s.
End SurvivorPrediction.

(** [assert_slow_loop_only] *)
Definition SURVIVOR_LOOP : string := "slow".
Definition _assert_slow_loop_only (loop : string) : result unit :=
  guard_ok (bool_decide (loop = SURVIVOR_LOOP)) (CustomError "SurvivorLoopViolation" "survivor model is SLOW-loop only").

(** ** [SlowLoopRegimeWiring] *)

Module RegimeWiringStats.
Record t : Type := mk {
  regime_signals_applied : Z; survivor_predictions_applied : Z; survivor_features_absent_skipped : Z;
  force_exits_raised : Z; reduces_raised : Z; veto_entries_raised : Z; inert_noops : Z
}.
Definition zero : t := mk 0 0 0 0 0 0 0.
Definition regime_signal s := mk (regime_signals_applied s + 1) (survivor_predictions_applied s) (survivor_features_absent_skipped s) (force_exits_raised s) (reduces_raised s) (veto_entries_raised s) (inert_noops s).
Definition survivor s := mk (regime_signals_applied s) (survivor_predictions_applied s + 1) (survivor_features_absent_skipped s) (force_exits_raised s) (reduces_raised s) (veto_entries_raised s) (inert_noops s).
Definition absent s := mk (regime_signals_applied s) (survivor_predictions_applied s) (survivor_features_absent_skipped s + 1) (force_exits_raised s) (reduces_raised s) (veto_entries_raised s) (inert_noops s).
Definition raised (d : RegimeDeRiskDirective.t) s :=
  match d with
  | NONE => mk (regime_signals_applied s) (survivor_predictions_applied s) (survivor_features_absent_skipped s) (force_exits_raised s) (reduces_raised s) (veto_entries_raised s) (inert_noops s + 1)
  | REDUCE => mk (regime_signals_applied s) (survivor_predictions_applied s) (survivor_features_absent_skipped s) (force_exits_raised s) (reduces_raised s + 1) (veto_entries_raised s) (inert_noops s)
  | VETO_ENTRY => mk (regime_signals_applied s) (survivor_predictions_applied s) (survivor_features_absent_skipped s) (force_exits_raised s) (reduces_raised s) (veto_entries_raised s + 1) (inert_noops s)
  | FORCE_EXIT => mk (regime_signals_applied s) (survivor_predictions_applied s) (survivor_features_absent_skipped s) (force_exits_raised s + 1) (reduces_raised s) (veto_entries_raised s) (inert_noops s)
  end.
End RegimeWiringStats.

Record RegimeWiring (I : Type) : Type := mk_regime {
  _survivor_model : option (I → string → result SurvivorPrediction.t);
  _survivor_feature_source : option (string → option I);
  _force_exit_survival_below : float;
  _reduce_survival_below : float;
  _high_uncertainty_reduce_at : float;
  g_veto_ttl : Z;
  g_narrative_ttl : Z
}.
Arguments mk_regime {I}.
Arguments _survivor_model {I}. Arguments _survivor_feature_source {I}. Arguments _force_exit_survival_below {I}.
Arguments _reduce_survival_below {I}. Arguments _high_uncertainty_reduce_at {I}. Arguments g_veto_ttl {I}.
Arguments g_narrative_ttl {I}.

Definition DEFAULT_FORCE_EXIT_SURVIVAL_BELOW : float := float_lit 15 2.
Definition DEFAULT_REDUCE_SURVIVAL_BELOW : float := float_lit 35 2.
Definition DEFAULT_HIGH_UNCERTAINTY_REDUCE_AT : float := float_lit 85 2.

(** [__init__] *)
Definition regime_init {I} (model : option (I → string → result SurvivorPrediction.t)) (source : option (string → option I))
    (force reduce uncertain : float) (veto_ttl narrative_ttl : Z) : result (RegimeWiring I) :=
  guard_ok (fleb fzero force && fleb force reduce && fleb reduce fone)
    (ValueError "survivor thresholds must satisfy 0 <= force_exit_survival_below <= reduce_survival_below <= 1");;
  guard_ok (fleb fzero uncertain && fleb uncertain fone) (ValueError "high_uncertainty_reduce_at must be in [0, 1]");;
  Ok (mk_regime model source force reduce uncertain veto_ttl narrative_ttl).

Record RegimeWorld : Type := mk_regime_world { g_stats : RegimeWiringStats.t; g_store : StateStore }.

Section Regime.
Context {I : Type} (_clock : nat → Z) (wiring : RegimeWiring I).

Definition on_sink {A} (m : M StateStore A) : M RegimeWorld A := λ w,
  let '(r, s) := m (g_store w) in (r, mk_regime_world (g_stats w) s).
Definition tally (f : RegimeWiringStats.t → RegimeWiringStats.t) : M RegimeWorld unit :=
  modify (λ w, mk_regime_world (f (g_stats w)) (g_store w)).

Definition _apply_directive (mint : string) (directive : RegimeDeRiskDirective.t) : M RegimeWorld RegimeDeRiskDirective.t :=
  (match directive with
   | NONE => mret tt
   | REDUCE => on_sink (set_veto_flag _clock mint (g_veto_ttl wiring / 2))
   | VETO_ENTRY => on_sink (set_veto_flag _clock mint (g_veto_ttl wiring))
   | FORCE_EXIT => on_sink (set_narrative_failure_flag _clock mint (g_narrative_ttl wiring))
   end);;
  tally (RegimeWiringStats.raised directive);;
  mret directive.

Definition apply_regime_signal (signal : RegimeSignal.t) (loop : string) : M RegimeWorld RegimeDeRiskDirective.t :=
  lift (_assert_slow_loop_only loop);;
  tally RegimeWiringStats.regime_signal;;
  _apply_directive (RegimeSignal.mint signal) (RegimeSignal.derisk_directive signal).

Definition survivor_directive (pred : SurvivorPrediction.t) : RegimeDeRiskDirective.t :=
  let p := SurvivorPrediction.p_calibrated pred in
  let u := SurvivorPrediction.uncertainty pred in
  if fleb p (_force_exit_survival_below wiring) then FORCE_EXIT
  else if fleb p (_reduce_survival_below wiring) || fleb (_high_uncertainty_reduce_at wiring) u then REDUCE
  else NONE.

Definition apply_survivor_prediction (pred : SurvivorPrediction.t) (loop : string) : M RegimeWorld RegimeDeRiskDirective.t :=
  lift (_assert_slow_loop_only loop);;
  tally RegimeWiringStats.survivor;;
  _apply_directive (SurvivorPrediction.mint pred) (survivor_directive pred).

Fixpoint survivor_each (model : I → string → result SurvivorPrediction.t) (source : string → option I)
    (positions : list Position.t) (loop : string) : M RegimeWorld (list RegimeDeRiskDirective.t) :=
  match positions with
  | [] => mret []
  | pos :: positions =>
      match source (Position.mint pos) with
      | None => tally RegimeWiringStats.absent;; survivor_each model source positions loop
      | Some inputs =>
          pred ← lift (model inputs loop);
          d ← apply_survivor_prediction pred loop;
          ds ← survivor_each model source positions loop;
          mret (d :: ds)
      end
  end.

Definition run_survivor_derisk (loop : string) : M RegimeWorld (list RegimeDeRiskDirective.t) :=
  lift (_assert_slow_loop_only loop);;
  match _survivor_model wiring, _survivor_feature_source wiring with
  | Some model, Some source =>
      positions ← on_sink load_all_positions;
      survivor_each model source positions loop
  | _, _ => mret []
  end.
End Regime.

(** ** What reaches the store *)

(** Both sources speak the same four directives. *)
Definition of_action (a : ReasoningAction.t) : RegimeDeRiskDirective.t :=
  match a with
  | ReasoningAction.HOLD => NONE | ReasoningAction.VETO_ENTRY => VETO_ENTRY
  | ReasoningAction.REDUCE_SIZE => REDUCE | ReasoningAction.FORCE_EXIT => FORCE_EXIT
  end.
Definition flag_of (veto_ttl narrative_ttl : Z) (d : RegimeDeRiskDirective.t) : option (flag * Z) :=
  match d with
  | NONE => None | REDUCE => Some (Veto, veto_ttl / 2) | VETO_ENTRY => Some (Veto, veto_ttl)
  | FORCE_EXIT => Some (Narrative, narrative_ttl)
  end.

Section Staged.
Context (_clock : nat → Z).

(** The positions stay, at most the directive's own flag of the mint moves, and
    it gets a fresh time to live whatever it had. *)
Definition staged (mint : string) (o : option (flag * Z)) (s s' : StateStore) : Prop :=
  _positions s' = _positions s ∧ _signals s' = _signals s ∧
  _reads s' = (if present o then S (_reads s) else _reads s) ∧
  ∀ fl m, expiry_of fl s' m =
    match o with
    | Some (fl0, ttl) => if bool_decide (fl = fl0 ∧ m = mint) then Some (_clock (_reads s) + ttl * 1000) else expiry_of fl s m
    | None => expiry_of fl s m
    end.

Lemma staged_none mint s : staged mint None s s.
Proof. by split_and!. Qed.

Lemma set_veto_staged mint ttl s : ∃ s', set_veto_flag _clock mint ttl s = (Ok tt, s') ∧ staged mint (Some (Veto, ttl)) s s'.
Proof.
  eexists. split; [reflexivity|]. split; [done|]. split; [done|]. split; [done|]. intros fl m.
  case_bool_decide as H; [destruct H as [-> ->]; cbn; by rewrite lookup_insert_eq|].
  destruct fl; try done. cbn. rewrite lookup_insert_ne; [done|]. intros ->. by apply H.
Qed.
Lemma set_narrative_staged mint ttl s :
  ∃ s', set_narrative_failure_flag _clock mint ttl s = (Ok tt, s') ∧ staged mint (Some (Narrative, ttl)) s s'.
Proof.
  eexists. split; [reflexivity|]. split; [done|]. split; [done|]. split; [done|]. intros fl m.
  case_bool_decide as H; [destruct H as [-> ->]; cbn; by rewrite lookup_insert_eq|].
  destruct fl; try done. cbn. rewrite lookup_insert_ne; [done|]. intros ->. by apply H.
Qed.

Lemma verdict_staged loop mint v s :
  ∃ s', _apply_reasoning_verdict _clock loop mint v s = (Ok tt, s') ∧
    staged mint (flag_of (_veto_ttl loop) (_narrative_ttl loop) (of_action (ReasoningVerdict.action v))) s s'.
Proof.
  unfold _apply_reasoning_verdict. destruct (ReasoningVerdict.action v); cbn [of_action flag_of].
  - exists s. split; [done|]. apply staged_none.
  - apply set_veto_staged.
  - apply set_veto_staged.
  - apply set_narrative_staged.
Qed.

Lemma directive_staged {I} (wiring : RegimeWiring I) mint d w :
  ∃ w', _apply_directive _clock wiring mint d w = (Ok d, w') ∧
    staged mint (flag_of (g_veto_ttl wiring) (g_narrative_ttl wiring) d) (g_store w) (g_store w').
Proof.
  destruct w as [st s]. unfold _apply_directive, on_sink, tally. destruct d; cbn [flag_of].
  - eexists. split; [reflexivity|]. apply staged_none.
  - destruct (set_veto_staged mint (g_veto_ttl wiring / 2) s) as (s' & E & H). cbn. eexists. split; [reflexivity|by injection E as <-].
  - destruct (set_narrative_staged mint (g_narrative_ttl wiring) s) as (s' & E & H). cbn. eexists. split; [reflexivity|by injection E as <-].
  - destruct (set_veto_staged mint (g_veto_ttl wiring) s) as (s' & E & H). cbn. eexists. split; [reflexivity|by injection E as <-].
Qed.

(** The slow loop's whole effect. When the classifier has a signal and the
    reasoner a verdict, the signal is staged with its time to live and the
    verdict sets exactly its own flag of the mint: nothing for HOLD, the veto
    for VETO_ENTRY, the veto with half the time to live for REDUCE_SIZE, the
    exit flag for FORCE_EXIT. The new expiry replaces the old one, so a
    REDUCE_SIZE can end a standing veto earlier, and the exit flags, all an
    open position listens to, do not move with it. No position, and no other
    flag, moves; without a signal nothing does. *)
Theorem verdict_sets_only_its_flag loop event s :
  (_classifier loop event = Ok None → process_event _clock loop event s = (Ok None, s)) ∧
  ∀ sg reason v,
    _classifier loop event = Ok (Some sg) → _reasoner loop = Some reason → reason event sg = Ok v →
    let d := of_action (ReasoningVerdict.action v) in
    ∃ s', process_event _clock loop event s = (Ok (Some sg), s') ∧
      _positions s' = _positions s ∧
      _signals s' = <[ds_mint sg := (sg, _clock (_reads s) + _signal_ttl loop * 1000)]> (_signals s) ∧
      (∀ fl m, expiry_of fl s' m =
         match flag_of (_veto_ttl loop) (_narrative_ttl loop) d with
         | Some (fl0, ttl) => if bool_decide (fl = fl0 ∧ m = LaunchEvent.mint event)
                              then Some (_clock (S (_reads s)) + ttl * 1000) else expiry_of fl s m
         | None => expiry_of fl s m
         end).
Proof.
  split; [intros H; unfold process_event; mstep; by rewrite H|].
  intros sg reason v Hc Hr Hv d. unfold process_event, mbind, M_bind, mret, M_ret, lift. rewrite Hc, Hr.
  set (s1 := set_signals (<[ds_mint sg := (sg, _clock (_reads s) + _signal_ttl loop * 1000)]> (_signals s)) (set_reads (S (_reads s)) s)).
  assert (set_decision_signal _clock sg (_signal_ttl loop) s = (Ok tt, s1)) as -> by done. cbn. rewrite Hv.
  destruct (verdict_staged loop (LaunchEvent.mint event) v s1) as (s' & -> & Hp & Hsg & Hrd & Hfl).
  assert (∀ fl m, expiry_of fl s' m =
         match flag_of (_veto_ttl loop) (_narrative_ttl loop) d with
         | Some (fl0, ttl) => if bool_decide (fl = fl0 ∧ m = LaunchEvent.mint event)
                              then Some (_clock (S (_reads s)) + ttl * 1000) else expiry_of fl s m
         | None => expiry_of fl s m
         end) as Hx.
  { intros fl m. rewrite Hfl. destruct (flag_of _ _ _) as [[fl0 ttl]|]; [case_bool_decide; [done|]|]; by destruct fl. }
  exists s'. split; [done|]. split; [done|]. split; [|done]. by rewrite Hsg.
Qed.

(** ** The survivor pass *)

Definition severity (d : RegimeDeRiskDirective.t) : Z :=
  match d with NONE => 0 | REDUCE | VETO_ENTRY => 1 | FORCE_EXIT => 2 end.

Section Survivor.
Context {I : Type} (wiring : RegimeWiring I).
Context (model : I → string → result SurvivorPrediction.t) (source : string → option I).

(** The predictions of the covered positions, in order. *)
Fixpoint predictions (positions : list Position.t) : result (list SurvivorPrediction.t) :=
  match positions with
  | [] => Ok []
  | pos :: positions =>
      match source (Position.mint pos) with
      | None => predictions positions
      | Some inputs => p ← model inputs SURVIVOR_LOOP; ps ← predictions positions; Ok (p :: ps)
      end
  end.

Definition collapsed (p : SurvivorPrediction.t) : Prop :=
  fleb (SurvivorPrediction.p_calibrated p) (_force_exit_survival_below wiring) = true.

Lemma directive_cases p :
  survivor_directive wiring p ≠ VETO_ENTRY ∧ (survivor_directive wiring p = FORCE_EXIT ↔ collapsed p).
Proof. unfold survivor_directive, collapsed. destruct (fleb _ _); [done|]. by destruct (_ || _). Qed.

Definition collapse_of (m : string) (preds : list SurvivorPrediction.t) : Prop :=
  Exists (λ p, SurvivorPrediction.mint p = m ∧ collapsed p) preds.

(** What a pass leaves in the store: a fresh exit flag for each mint with a
    collapsed prediction, every other flag but the vetoes as it was. *)
Definition survivor_flags (preds : list SurvivorPrediction.t) (s s' : StateStore) : Prop :=
  _positions s' = _positions s ∧ (_reads s ≤ _reads s')%nat ∧
  (∀ m, collapse_of m preds → ∃ n, (_reads s ≤ n < _reads s')%nat ∧
     expiry_of Narrative s' m = Some (_clock n + g_narrative_ttl wiring * 1000)) ∧
  ∀ fl m, fl ≠ Veto → fl ≠ Narrative ∨ ¬ collapse_of m preds → expiry_of fl s' m = expiry_of fl s m.

Lemma apply_survivor_ok p w :
  ∃ w', apply_survivor_prediction _clock wiring p SURVIVOR_LOOP w = (Ok (survivor_directive wiring p), w') ∧
    survivor_flags [p] (g_store w) (g_store w').
Proof.
  unfold apply_survivor_prediction, tally. mstep.
  match goal with |- context [_apply_directive _clock wiring ?m ?d ?w0] =>
    destruct (directive_staged wiring m d w0) as (w' & E & Hp & _ & Hr & Hfl) end.
  exists w'. split; [exact E|]. cbn in Hp, Hr, Hfl. pose proof (directive_cases p) as [Hnv Hc].
  assert (∀ m, collapse_of m [p] ↔ SurvivorPrediction.mint p = m ∧ collapsed p) as Hone.
  { intros m. unfold collapse_of. rewrite Exists_cons, Exists_nil. tauto. }
  unfold survivor_flags.
  split; [done|]. split; [rewrite Hr; destruct (flag_of _ _ _); cbn; lia|]. split.
  - intros m [Hm Hcol]%Hone. apply Hc in Hcol. rewrite Hcol in Hfl. cbn in Hfl. exists (_reads (g_store w)).
    rewrite Hfl, bool_decide_eq_true_2 by done. rewrite Hcol in Hr. cbn in Hr. split; [lia|done].
  - intros fl m Hv Hno. rewrite Hfl. destruct (survivor_directive wiring p) eqn:Ed; cbn [flag_of]; [done| | |done];
      rewrite bool_decide_eq_false_2; try done; intros [-> Hm]; [done|].
    destruct Hno as [?|Hno]; [done|]. apply Hno, Hone. split; [done|by apply Hc].
Qed.

Lemma survivor_flags_app ps qs s1 s2 s3 : survivor_flags ps s1 s2 → survivor_flags qs s2 s3 → survivor_flags (ps ++ qs) s1 s3.
Proof.
  intros (P1 & R1 & H1 & N1) (P2 & R2 & H2 & N2). unfold survivor_flags, collapse_of in *.
  split; [congruence|]. split; [lia|]. split.
  - intros m [Hm|Hm]%Exists_app.
    + destruct (base.decide (Exists (λ p, SurvivorPrediction.mint p = m ∧ collapsed p) qs)) as [Hq|Hq].
      * destruct (H2 m Hq) as (n & Hn & E). exists n. split; [lia|done].
      * destruct (H1 m Hm) as (n & Hn & E). exists n. split; [lia|]. rewrite N2; [done|done|by right].
    + destruct (H2 m Hm) as (n & Hn & E). exists n. split; [lia|done].
  - intros fl m Hv Hno. rewrite Exists_app in Hno. rewrite N2, N1; [done|done|tauto|done|tauto].
Qed.

Lemma survivor_each_ok ps preds w : predictions ps = Ok preds →
  ∃ w', survivor_each _clock wiring model source ps SURVIVOR_LOOP w = (Ok (survivor_directive wiring <$> preds), w') ∧
    survivor_flags preds (g_store w) (g_store w').
Proof.
  revert preds w. induction ps as [|pos ps IH]; intros preds w; cbn [predictions survivor_each].
  { intros [= <-]. exists w. split; [done|]. split; [done|]. split; [done|]. split; [|done]. by intros m ?%Exists_nil. }
  destruct (source (Position.mint pos)) as [inputs|]; [|intros H; exact (IH preds (mk_regime_world _ (g_store w)) H)].
  unfold mbind, M_bind, result_bind, lift. destruct (model inputs SURVIVOR_LOOP) as [p|]; [|done].
  destruct (predictions ps) as [ps'|]; [|done]. intros [= <-].
  destruct (apply_survivor_ok p w) as (w1 & -> & F1). destruct (IH ps' w1 eq_refl) as (w2 & -> & F2).
  exists w2. split; [done|]. by apply (survivor_flags_app [p] ps' _ (g_store w1)).
Qed.

(** The survivor pass. On the slow loop, with a model that answers for every
    covered position, the pass returns one directive per covered position,
    never a VETO_ENTRY; it gives a fresh exit flag to exactly the mints whose
    predicted survival is at or below the collapse threshold, and leaves the
    positions and every other exit flag alone. A better prediction never gets a
    harsher directive, a position without features gets none, and from any
    other loop, or without a model, nothing happens at all. *)
Theorem survivor_pass_flags_collapses preds w :
  _survivor_model wiring = Some model → _survivor_feature_source wiring = Some source →
  predictions (_positions (g_store w)).*2 = Ok preds →
  (∃ w', run_survivor_derisk _clock wiring SURVIVOR_LOOP w = (Ok (survivor_directive wiring <$> preds), w') ∧
     survivor_flags preds (g_store w) (g_store w') ∧ Forall (λ d, d ≠ VETO_ENTRY) (survivor_directive wiring <$> preds)) ∧
  (∀ p q, fleb (SurvivorPrediction.p_calibrated p) (SurvivorPrediction.p_calibrated q) = true →
     fleb (SurvivorPrediction.uncertainty q) (SurvivorPrediction.uncertainty p) = true →
     severity (survivor_directive wiring q) ≤ severity (survivor_directive wiring p)) ∧
  ∀ loop, loop ≠ SURVIVOR_LOOP →
    run_survivor_derisk _clock wiring loop w = (Raise (CustomError "SurvivorLoopViolation" "survivor model is SLOW-loop only"), w).
Proof.
  intros Hm Hs Hp. split; [|split].
  - unfold run_survivor_derisk. rewrite Hm, Hs. destruct w as [st s]. unfold on_sink. mstep.
    destruct (survivor_each_ok _ preds (mk_regime_world st s) Hp) as (w' & -> & F). exists w'. split; [done|]. split; [done|].
    apply Forall_fmap, Forall_true. intros p. apply directive_cases.
  - intros p q Hpq Huq. unfold survivor_directive.
    destruct (fleb (SurvivorPrediction.p_calibrated q) (_force_exit_survival_below wiring)) eqn:E1.
    { by rewrite (fleb_trans _ _ _ Hpq E1). }
    destruct (fleb (SurvivorPrediction.p_calibrated p) (_force_exit_survival_below wiring)); [by case_match; cbn; lia|].
    destruct (fleb (SurvivorPrediction.p_calibrated q) (_reduce_survival_below wiring)) eqn:E2.
    { by rewrite (fleb_trans _ _ _ Hpq E2). }
    destruct (fleb (_high_uncertainty_reduce_at wiring) (SurvivorPrediction.uncertainty q)) eqn:E3; cbn.
    { rewrite (fleb_trans _ _ _ E3 Huq), orb_true_r. cbn. lia. }
    by case_match; cbn; lia.
  - intros loop Hl. unfold run_survivor_derisk, _assert_slow_loop_only. by rewrite bool_decide_eq_false_2.
Qed.
End Survivor.
End Staged.

(** *** Witnesses *)

Definition slow_signal : StateStore.DecisionSignal := mk_signal "M" (float_lit 7 1) (float_lit 1 1) "EH-001".
Definition slow_event (mint : string) : LaunchEvent.t :=
  LaunchEvent.mk mint "prog" PUMPFUN (EventTime.mk 7 9 9) 7 7 GEYSER 1000 1000 6 1 0 "dev" None None 0.
Definition slow_verdict (a : ReasoningAction.t) : ReasoningVerdict.t :=
  ReasoningVerdict.mk "M" (EventTime.mk 7 9 9) a "" fone "" false.
Definition slow_loop_of (a : ReasoningAction.t) : SlowLoop :=
  mk_slow (λ _, Ok (Some slow_signal)) (Some (λ _ _, Ok (slow_verdict a))) 30 60 120.

Lemma verdict_witness :
  ∃ s', process_event tick_clock (slow_loop_of ReasoningAction.REDUCE_SIZE) (slow_event "M") StateStore_init = (Ok (Some slow_signal), s') ∧
    expiry_of Veto s' "M" = Some 31001 ∧ expiry_of Narrative s' "M" = None.
Proof.
  destruct (proj2 (verdict_sets_only_its_flag tick_clock (slow_loop_of ReasoningAction.REDUCE_SIZE) (slow_event "M") StateStore_init)
    slow_signal (λ _ _, Ok (slow_verdict ReasoningAction.REDUCE_SIZE)) (slow_verdict ReasoningAction.REDUCE_SIZE) eq_refl eq_refl eq_refl)
    as (s' & E & _ & _ & H).
  exists s'. split; [exact E|]. split; rewrite H; reflexivity.
Defined.

Definition survivor_at (mint : string) (p : float) : SurvivorPrediction.t :=
  SurvivorPrediction.mk mint (EventTime.mk 7 9 9) "v0" p (float_lit 1 1) fzero p p fzero true.
Definition survivor_wiring : RegimeWiring string :=
  mk_regime (Some (λ m _, Ok (survivor_at m (float_lit 1 1)))) (Some (λ m, if bool_decide (m = "M") then Some m else None))
    DEFAULT_FORCE_EXIT_SURVIVAL_BELOW DEFAULT_REDUCE_SURVIVAL_BELOW DEFAULT_HIGH_UNCERTAINTY_REDUCE_AT 60 120.
Definition survivor_world : RegimeWorld :=
  mk_regime_world RegimeWiringStats.zero (set_positions [("M", Fsm.sample_position OPEN)] StateStore_init).

Lemma survivor_witness :
  ∃ w' n, run_survivor_derisk tick_clock survivor_wiring SURVIVOR_LOOP survivor_world = (Ok [RegimeDeRiskDirective.FORCE_EXIT], w') ∧
    expiry_of Narrative (g_store w') "M" = Some (tick_clock n + 120 * 1000).
Proof.
  destruct (survivor_pass_flags_collapses tick_clock survivor_wiring (λ m _, Ok (survivor_at m (float_lit 1 1)))
    (λ m, if bool_decide (m = "M") then Some m else None) [survivor_at "M" (float_lit 1 1)] survivor_world eq_refl eq_refl eq_refl)
    as ((w' & E & (_ & _ & H & _) & _) & _ & _).
  destruct (H "M") as (n & _ & Hn).
  { apply Exists_cons_hd. split; [reflexivity|vm_compute; reflexivity]. }
  exists w', n. split; [rewrite E; vm_compute; reflexivity|exact Hn].
Defined.
