(* ===== verification/CostModel.v ===== *)
(** * The cost-aware entry gate: [aats/risk/cost_model.py]

    REJECT unless the expected edge strictly exceeds a reconciled round-trip
    cost with a full adverse-selection haircut. *)

From S2P Require Import Prelude Decimal RiskContracts SurvivableStop Intents Positions StateStore Fsm SnipeLoop.

Definition _DEFAULT_HAIRCUT_FLOOR_BPS : Z := 150.

(** The reason codes. *)
Inductive cost_reason : Type :=
| REASON_EDGE_BELOW_COST | REASON_HAIRCUT_BELOW_FLOOR | REASON_TOTAL_MISMATCH | REASON_NEGATIVE_LINE | REASON_NEGATIVE_EDGE.
#[export] Instance cost_reason_eq_dec : EqDecision cost_reason.
Proof. solve_decision. Defined.

Module CostGateDecision.
Record t : Type := mk {
  passed : bool;
  reason : option cost_reason;
  expected_edge_bps : Z;
  total_cost_bps : Z;
  margin_bps : Z
}.
End CostGateDecision.

Module CostAwareEntryGate.
Record t : Type := mk { _config : option RiskConfig.t; _haircut_floor_bps : Z }.

Definition __init__ (config : option RiskConfig.t) : t :=
  let cfg_floor := match config with Some c => RiskConfig.pre_calibration_haircut_bps c | None => _DEFAULT_HAIRCUT_FLOOR_BPS end in
  mk config (Z.max _DEFAULT_HAIRCUT_FLOOR_BPS cfg_floor).

Definition lines (cs : CostStack.t) : list Z :=
  [CostStack.jito_tip_bps cs; CostStack.priority_fee_bps cs; CostStack.entry_slippage_bps cs;
   CostStack.amm_fee_bps cs; CostStack.exit_slippage_bps cs; CostStack.adverse_selection_bps cs].

Definition _sum_of_parts (cs : CostStack.t) : Z :=
  CostStack.jito_tip_bps cs + CostStack.priority_fee_bps cs + CostStack.entry_slippage_bps cs
  + CostStack.amm_fee_bps cs + CostStack.exit_slippage_bps cs + CostStack.adverse_selection_bps cs.

Definition evaluate (g : t) (cs : CostStack.t) : CostGateDecision.t :=
  let edge := CostStack.expected_edge_bps cs in
  let total := CostStack.total_cost_bps cs in
  let decide (r : option cost_reason) :=
    CostGateDecision.mk (match r with None => true | Some _ => false end) r edge total (edge - total) in
  if existsb (λ l, l <? 0) (lines cs) || (total <? 0) then decide (Some REASON_NEGATIVE_LINE)
  else if CostStack.adverse_selection_bps cs <? _haircut_floor_bps g then decide (Some REASON_HAIRCUT_BELOW_FLOOR)
  else if negb (total =? _sum_of_parts cs) then decide (Some REASON_TOTAL_MISMATCH)
  else if edge <=? 0 then decide (Some REASON_NEGATIVE_EDGE)
  else if edge <=? total then decide (Some REASON_EDGE_BELOW_COST)
  else decide None.

Definition allows_entry (g : t) (cs : CostStack.t) : bool := CostGateDecision.passed (evaluate g cs).
End CostAwareEntryGate.

Import CostAwareEntryGate.

Lemma no_negative_line cs :
  existsb (λ l, l <? 0) (lines cs) || (CostStack.total_cost_bps cs <? 0) = false ↔
  Forall (λ l, 0 ≤ l) (lines cs) ∧ 0 ≤ CostStack.total_cost_bps cs.
Proof.
  rewrite orb_false_iff, Z.ltb_ge. apply and_iff_compat_r. unfold lines; cbn.
  rewrite !Forall_cons, Forall_nil, !orb_false_iff, !Z.ltb_ge. tauto.
Qed.

(** C34: an entry passes the cost gate iff no line is negative, the haircut
    reaches the configured floor (never below 150 bps), the declared total is
    the sum of its six parts, and the edge strictly exceeds it; the edge net of
    every cost is then positive by exactly the reported margin. *)
Theorem cost_gate_passes_iff config cs :
  let d := evaluate (__init__ config) cs in
  (CostGateDecision.passed d = true ↔
     Forall (λ l, 0 ≤ l) (lines cs) ∧
     150 ≤ CostStack.adverse_selection_bps cs ∧
     (∀ c, config = Some c → RiskConfig.pre_calibration_haircut_bps c ≤ CostStack.adverse_selection_bps cs) ∧
     CostStack.total_cost_bps cs = zsum (lines cs) ∧
     zsum (lines cs) < CostStack.expected_edge_bps cs) ∧
  (CostGateDecision.reason d = None ↔ CostGateDecision.passed d = true) ∧
  (CostGateDecision.passed d = true → 0 < CostGateDecision.margin_bps d ∧
     CostGateDecision.margin_bps d = CostStack.expected_edge_bps cs - zsum (lines cs)).
Proof.
  assert (zsum (lines cs) = _sum_of_parts cs) as Hsum by (unfold lines, _sum_of_parts; cbn; lia).
  assert (Forall (λ l, 0 ≤ l) (lines cs) → 0 ≤ _sum_of_parts cs) as Hnn.
  { rewrite <- Hsum. apply zsum_nonneg. }
  assert ((150 ≤ CostStack.adverse_selection_bps cs ∧
     (∀ c, config = Some c → RiskConfig.pre_calibration_haircut_bps c ≤ CostStack.adverse_selection_bps cs)) ↔
     _haircut_floor_bps (__init__ config) ≤ CostStack.adverse_selection_bps cs) as Hfloor.
  { unfold __init__, _DEFAULT_HAIRCUT_FLOOR_BPS; cbn. destruct config as [c|].
    - split; [intros [H1 H2]; specialize (H2 c eq_refl); lia|]. intros H. split; [lia|]. intros ? [= <-]. lia.
    - split; [lia|]. intros H. split; [lia|done]. }
  rewrite Hsum. unfold evaluate.
  destruct (existsb _ _ || _) eqn:E1.
  { cbn. split_and!; try done. split; [done|]. intros (Hl & _ & _ & Ht & _).
    assert (true = false); [|done]. rewrite <- E1. apply no_negative_line. split; [done|]. rewrite Ht. auto. }
  apply no_negative_line in E1 as [Hl Ht].
  destruct (Z.ltb_spec (CostStack.adverse_selection_bps cs) (_haircut_floor_bps (__init__ config))).
  { cbn. split_and!; try done. split; [done|]. intros (_ & H1 & H2 & _). pose proof (proj1 Hfloor (conj H1 H2)). lia. }
  destruct (Z.eqb_spec (CostStack.total_cost_bps cs) (_sum_of_parts cs)); cbn [negb];
    [|cbn; split_and!; try done; split; [done|]; by intros (_ & _ & _ & ? & _)].
  specialize (Hnn Hl).
  destruct (Z.leb_spec (CostStack.expected_edge_bps cs) 0); [cbn; split_and!; try done; split; [done|lia]|].
  destruct (Z.leb_spec (CostStack.expected_edge_bps cs) (CostStack.total_cost_bps cs));
    [cbn; split_and!; try done; split; [done|lia]|].
  cbn. split_and!; try done; [|lia]. split; [|done]. intros _.
  destruct (proj2 Hfloor ltac:(lia)). split_and!; try done; lia.
Qed.

(** The entry loop's own fallback cost stack never passes the gate: its
    total leaves out the exit slippage it lists, so whatever the sizes and the
    configuration, a gate built on any configuration refuses it. *)
Theorem default_stack_refused loop gate_config sol_in tip cs :
  _make_default_cost_stack loop sol_in tip = Ok cs →
  allows_entry (__init__ gate_config) cs = false ∧
  zsum (lines cs) = CostStack.total_cost_bps cs + CostStack.exit_slippage_bps cs.
Proof.
  unfold _make_default_cost_stack, CostStack.new, CostStack._adverse_selection_floor. cbn.
  destruct (_ <? 150); [done|]. intros [= <-]. split; [|cbn; lia].
  unfold allows_entry, evaluate; cbn -[Z.max Z.div].
  destruct (_ || _); [done|]. destruct (_ <? _); [done|].
  unfold _sum_of_parts; cbn -[Z.max Z.div]. destruct (Z.eqb_spec
    (50 + 50 + RiskConfig.pre_calibration_haircut_bps (SnipeLoop._config loop) + Z.max 1 (tip * 10000 / Z.max 1 sol_in) + 10) 
    (Z.max 1 (tip * 10000 / Z.max 1 sol_in) + 10 + 50 + 50 + 50 + RiskConfig.pre_calibration_haircut_bps (SnipeLoop._config loop))); [lia|done].
Qed.

(** *** Witness *)

Lemma default_stack_refused_witness :
  ∃ cs, _make_default_cost_stack sample_loop 10000000 10000 = Ok cs ∧ allows_entry (__init__ None) cs = false.
Proof.
  eexists. split; [by vm_compute|].
  exact (proj1 (default_stack_refused sample_loop None 10000000 10000 _ eq_refl)).
Defined.
