(* ===== verification/RestingOrders.v ===== *)
(** * Durable resting orders: [aats/risk/resting_orders.py]

    Standing SELL and BUY orders and DCA plans, their durable store, and the
    evaluator that fires them on a tick.  A BUY goes through the whole entry
    stack: the denylist, the safety gate and the intent builder are parameters
    (protocols in the source); the breaker, the sizer and the cost gate are
    those of [CircuitBreaker], [Sizing] and [CostModel]. *)

From S2P Require Import Prelude Decimal RiskContracts Float64 SurvivableStop DecimalOrder FloatRepr Sizing Intents Positions StateStore CostModel.
From S2P Require CircuitBreaker.
From stdpp Require sorting.

Definition _FULL_EXIT_BPS : Z := 10000.

Definition _reject_float_int (v : int_arg) (field : string) : result Z :=
  match v with
  | IBool _ => Raise (TypeError (field +:+ " must be a plain int, got bool"))
  | IFloat _ => Raise (TypeError (field +:+ " must be int (not float)"))
  | IInt z => Ok z
  end.

Definition _to_decimal_price (v : num_in) (field : string) : result dec :=
  match v with
  | NBool _ => Raise (TypeError (field +:+ " must be Decimal/int/str, got bool"))
  | NFloat _ => Raise (TypeError (field +:+ " must be Decimal/int/str (money-derived exact), got float"))
  | NDec d => Ok d
  | NInt z => Ok (dec_of_Z z)
  | NStr v => decimal_of_str v
  end.

Inductive RestingSide : Type := SELL | REDUCE | BUY.
#[export] Instance RestingSide_eq_dec : EqDecision RestingSide.
Proof. solve_decision. Defined.
(** [self.side.value.lower()] *)
Definition side_lower (s : RestingSide) : string := match s with SELL => "sell" | REDUCE => "reduce" | BUY => "buy" end.

Inductive TriggerDirection : Type := AT_OR_BELOW | AT_OR_ABOVE.
Definition _trigger_met (direction : TriggerDirection) (mark trigger : dec) : bool :=
  match direction with AT_OR_BELOW => dleb mark trigger | AT_OR_ABOVE => dleb trigger mark end.

(** ** What a BUY is judged on *)

Module BuyFireContext.
Record t (S P : Type) : Type := mk {
  mint : string;
  block_time_ms : Z;
  safety_inputs : option S;
  p_calibrated : stat_in;
  uncertainty : stat_in;
  current_aggregate_lamports : Z;
  cost_stack : option CostStack.t;
  creator : option string;
  entry_build_params : option P
}.
Arguments mk {S P} _ _ _ _ _ _ _ _ _.
Arguments mint {S P} _.
Arguments block_time_ms {S P} _.
Arguments safety_inputs {S P} _.
Arguments p_calibrated {S P} _.
Arguments uncertainty {S P} _.
Arguments current_aggregate_lamports {S P} _.
Arguments cost_stack {S P} _.
Arguments creator {S P} _.
Arguments entry_build_params {S P} _.

(** The constructor with its [__post_init__]. *)
Definition new {S P} (mint : string) (block_time : int_arg) (safety : option S) (p unc : stat_in) (agg : int_arg)
    (cost : option CostStack.t) (creator : option string) (params : option P) : result (t S P) :=
  bt ← _reject_float_int block_time "BuyFireContext.block_time_ms";
  ag ← _reject_float_int agg "BuyFireContext.current_aggregate_lamports";
  if bt <? 0 then Raise (ValueError "BuyFireContext.block_time_ms must be non-negative (event-time).")
  else if ag <? 0 then Raise (ValueError "BuyFireContext.current_aggregate_lamports must be >= 0.")
  else Ok (mk mint bt safety p unc ag cost creator params).
End BuyFireContext.

Inductive BuyFireRejection : Type :=
| DENYLISTED | SAFETY_GATE | BREAKER_TRIPPED | ZERO_SIZE | COST_GATE | BUILD_REFUSED | NO_GATE_CHAIN.
#[export] Instance BuyFireRejection_eq_dec : EqDecision BuyFireRejection.
Proof. solve_decision. Defined.

Module BuyFireResult.
Record t : Type := mk {
  mint : string;
  fired : bool;
  intent : option EntryIntent.t;
  rejection : option BuyFireRejection;
  size_lamports : Z;
  detail : string
}.
Definition new (mint : string) (fired : bool) (intent : option EntryIntent.t) (rejection : option BuyFireRejection)
    (size : int_arg) (detail : string) : result t :=
  size ← _reject_float_int size "BuyFireResult.size_lamports";
  match fired, intent, rejection with
  | true, Some _, None | false, None, Some _ => Ok (mk mint fired intent rejection size detail)
  | true, _, _ => Raise (ValueError "A fired BuyFireResult must carry an intent and no rejection.")
  | false, _, _ => Raise (ValueError "A non-fired BuyFireResult must carry a rejection and no intent.")
  end.
End BuyFireResult.

Definition _reject (mint : string) (why : BuyFireRejection) (detail : string) : result BuyFireResult.t :=
  BuyFireResult.new mint false None (Some why) (IInt 0) detail.

(** ** The orders *)

Module RestingSellOrder.
Record t : Type := mk {
  order_id : string; mint : string; side : RestingSide; trigger_price : dec; trigger_direction : TriggerDirection;
  fraction_bps : Z; mode : exit_mode; reason : string
}.
(** [__post_init__]; [exit_mode] arrives as a string. *)
Definition new (order_id mint : string) (side : RestingSide) (trigger : num_in) (direction : TriggerDirection)
    (fraction : int_arg) (mode reason : string) : result t :=
  guard_ok (match side with BUY => false | _ => true end) (ValueError "RestingSellOrder.side must be SELL or REDUCE (de-risk)");;
  price ← _to_decimal_price trigger "trigger_price";
  if dleb price d0 then Raise (ValueError "RestingSellOrder.trigger_price must be > 0.")
  else
    f ← _reject_float_int fraction "RestingSellOrder.fraction_bps";
    guard_ok (match side with
              | SELL => (1 <=? f) && (f <=? _FULL_EXIT_BPS)
              | _ => (1 <=? f) && (f <=? _FULL_EXIT_BPS - 1)
              end) (ValueError "fraction_bps out of range");;
    if bool_decide (mode = "secure") then Ok (mk order_id mint side price direction f secure reason)
    else if bool_decide (mode = "fast") then Ok (mk order_id mint side price direction f fast reason)
    else Raise (ValueError "RestingSellOrder.exit_mode must be 'secure' or 'fast'.").

Definition is_triggered (o : t) (mark_price : num_in) : result bool :=
  mark ← _to_decimal_price mark_price "mark_price";
  Ok (_trigger_met (trigger_direction o) mark (trigger_price o)).

Definition fire (o : t) (block_time_ms : int_arg) : result Intent :=
  bt ← _reject_float_int block_time_ms "block_time_ms";
  let cid := "resting:" +:+ side_lower (side o) +:+ ":" +:+ mint o +:+ ":" +:+ order_id o +:+ ":" +:+ pretty bt in
  match side o with
  | SELL => DeRiskIntentFactory.exit cid (mint o) (fraction_bps o) (mode o) ("resting_sell_triggered: " +:+ reason o)
  | _ => DeRiskIntentFactory.reduce cid (mint o) (fraction_bps o) ("resting_reduce_triggered: " +:+ reason o)
  end.
End RestingSellOrder.

Module RestingBuyOrder.
Record t : Type := mk {
  order_id : string; mint : string; trigger_price : dec; trigger_direction : TriggerDirection; reason : string;
  side : RestingSide; scheduled_step : option Z
}.
Definition new (order_id mint : string) (trigger : num_in) (direction : TriggerDirection) (reason : string)
    (side : RestingSide) (step : option int_arg) : result t :=
  guard_ok (match side with BUY => true | _ => false end) (ValueError "RestingBuyOrder.side must be BUY.");;
  price ← _to_decimal_price trigger "trigger_price";
  if dleb price d0 then Raise (ValueError "RestingBuyOrder.trigger_price must be > 0.")
  else
    match step with
    | None => Ok (mk order_id mint price direction reason side None)
    | Some s =>
        s ← _reject_float_int s "RestingBuyOrder.scheduled_step";
        if s <? 0 then Raise (ValueError "RestingBuyOrder.scheduled_step must be >= 0.")
        else Ok (mk order_id mint price direction reason side (Some s))
    end.

Definition is_triggered (o : t) (mark_price : num_in) : result bool :=
  mark ← _to_decimal_price mark_price "mark_price";
  Ok (_trigger_met (trigger_direction o) mark (trigger_price o)).
End RestingBuyOrder.

Inductive RestingOrder : Type := Sell (o : RestingSellOrder.t) | Buy (o : RestingBuyOrder.t).
Definition order_id (o : RestingOrder) : string :=
  match o with Sell o => RestingSellOrder.order_id o | Buy o => RestingBuyOrder.order_id o end.
Definition order_mint (o : RestingOrder) : string :=
  match o with Sell o => RestingSellOrder.mint o | Buy o => RestingBuyOrder.mint o end.
Definition order_side (o : RestingOrder) : RestingSide :=
  match o with Sell o => RestingSellOrder.side o | Buy o => RestingBuyOrder.side o end.

(** The order of evaluation. *)
Definition id_le (x y : RestingOrder) : Prop := String.leb (order_id x) (order_id y) = true.
#[export] Instance id_le_dec x y : Decision (id_le x y).
Proof. unfold id_le. apply _. Defined.

(** ** The entry chain *)

Definition exn_str (e : exn) : string :=
  match e with
  | ValueError m | TypeError m | PermissionError m | AssertionError m | IndexError m | KeyError m | OverflowError m
  | InvalidOperation m | ZeroDivisionError m | RuntimeError m => m
  | CustomError _ m => m
  end.

Section Entry.
(** Decoded safety facts and builder parameters, opaque to this module, with
    the slot the chain reads off the former. *)
Context {S P : Type} (event_slot : S → Z).

(** [GatedEntryFireChain] *)
Record chain : Type := mk_chain {
  _denylist : option (option string → string → Z → Z → result (option string));
  _safety : S → result bool;
  _breaker : CircuitBreaker.Breaker;
  _sizer : FractionalKellySizer.t;
  _cost : CostAwareEntryGate.t;
  _builder : string → Z → Z → CostStack.t → option P → result (option EntryIntent.t)
}.

Definition build (c : chain) (ctx : BuyFireContext.t S P) (size_lamports : Z) (cost : CostStack.t) : result BuyFireResult.t :=
  match _builder c (BuyFireContext.mint ctx) size_lamports (BuyFireContext.block_time_ms ctx) cost
          (BuyFireContext.entry_build_params ctx) with
  | Raise exc => _reject (BuyFireContext.mint ctx) BUILD_REFUSED ("gated EntryIntent builder refused: " +:+ exn_str exc)
  | Ok None => _reject (BuyFireContext.mint ctx) BUILD_REFUSED
                 "gated EntryIntent builder returned None (slot guard / signer re-validation)"
  | Ok (Some intent) =>
      BuyFireResult.new (BuyFireContext.mint ctx) true (Some intent) None (IInt size_lamports)
        "resting BUY fired through the FULL entry stack (safety + breaker + sizing caps + cost gate)"
  end.

(** Steps 2 to 5: breaker, sizing, cost, build. *)
Definition after_safety (c : chain) (ctx : BuyFireContext.t S P) : result BuyFireResult.t :=
  if negb (CircuitBreaker.entries_allowed (_breaker c))
  then _reject (BuyFireContext.mint ctx) BREAKER_TRIPPED "circuit breaker TRIPPED; entries halted"
  else
    sizing ← FractionalKellySizer.size (_sizer c) (BuyFireContext.p_calibrated ctx) (BuyFireContext.uncertainty ctx)
               (PyInt (BuyFireContext.current_aggregate_lamports ctx)) None (NInt 1);
    let size_lamports := SizingDecision.size_lamports sizing in
    if size_lamports <=? 0
    then _reject (BuyFireContext.mint ctx) ZERO_SIZE
           ("sizing returned " +:+ pretty size_lamports +:+ " lamports (no edge / aggregate cap exhausted) — no buy")
    else
      match BuyFireContext.cost_stack ctx with
      | None => Raise (CustomError "AttributeError" "'NoneType' object has no attribute 'expected_edge_bps'")
      | Some cost =>
          if negb (CostAwareEntryGate.allows_entry (_cost c) cost)
          then _reject (BuyFireContext.mint ctx) COST_GATE "cost gate rejected: expected edge <= total round-trip cost"
          else build c ctx size_lamports cost
      end.

Definition evaluate_buy (c : chain) (ctx : BuyFireContext.t S P) : result BuyFireResult.t :=
  hit ← match _denylist c with
        | None => Ok None
        | Some check_keys =>
            check_keys (BuyFireContext.creator ctx) (BuyFireContext.mint ctx)
              (match BuyFireContext.safety_inputs ctx with Some i => event_slot i | None => 0 end)
              (BuyFireContext.block_time_ms ctx)
        end;
  match hit with
  | Some flag =>
      _reject (BuyFireContext.mint ctx) DENYLISTED
        ("denylist pre-filter rejected: " +:+ flag +:+ " (creator/mint on the scam denylist) — refused before the safety gate")
  | None =>
      match BuyFireContext.safety_inputs ctx with
      | None => _reject (BuyFireContext.mint ctx) SAFETY_GATE
                  "refuse_by_default: no fresh safety inputs at fire time"
      | Some inputs =>
          ok ← _safety c inputs;
          if negb ok then _reject (BuyFireContext.mint ctx) SAFETY_GATE "pre-trade safety gate rejected"
          else after_safety c ctx
      end
  end.

(** [RestingBuyOrder.fire] *)
Definition fire_buy (o : RestingBuyOrder.t) (ctx : BuyFireContext.t S P) (c : option chain) : result BuyFireResult.t :=
  if negb (bool_decide (BuyFireContext.mint ctx = RestingBuyOrder.mint o))
  then Raise (ValueError "BuyFireContext.mint must match order mint")
  else
    match c with
    | None => BuyFireResult.new (RestingBuyOrder.mint o) false None (Some NO_GATE_CHAIN) (IInt 0)
                "refuse_by_default: no entry gate chain wired"
    | Some c => evaluate_buy c ctx
    end.

(** ** [DcaPlan] *)

Record DcaPlan : Type := mk_plan {
  plan_id : string; plan_mint : string; tranches : Z; step_interval : Z; first_step : Z;
  plan_trigger : option dec; plan_direction : TriggerDirection; plan_reason : string
}.

Definition DcaPlan_new (plan_id mint : string) (tranches step_interval first_step : int_arg) (trigger : option num_in)
    (direction : TriggerDirection) (reason : string) : result DcaPlan :=
  n ← _reject_float_int tranches "DcaPlan.tranches";
  si ← _reject_float_int step_interval "DcaPlan.step_interval";
  fs ← _reject_float_int first_step "DcaPlan.first_step";
  if n <=? 0 then Raise (ValueError "DcaPlan.tranches must be > 0.")
  else if si <=? 0 then Raise (ValueError "DcaPlan.step_interval must be > 0 (event-time steps).")
  else if fs <? 0 then Raise (ValueError "DcaPlan.first_step must be >= 0.")
  else
    match trigger with
    | None => Ok (mk_plan plan_id mint n si fs None direction reason)
    | Some t =>
        d ← _to_decimal_price t "trigger_price";
        if dleb d d0 then Raise (ValueError "DcaPlan.trigger_price must be > 0 when set.")
        else Ok (mk_plan plan_id mint n si fs (Some d) direction reason)
    end.

Definition tranche_steps (p : DcaPlan) : list Z :=
  (λ i, first_step p + i * step_interval p) <$> seqZ 0 (tranches p).

Definition buy_order_for_tranche (p : DcaPlan) (idx : Z) : result RestingBuyOrder.t :=
  if negb ((0 <=? idx) && (idx <? tranches p)) then Raise (IndexError "tranche idx out of range")
  else
    let trig := default (dec_of_Z 1) (plan_trigger p) in
    let direction := match plan_trigger p with Some _ => plan_direction p | None => AT_OR_ABOVE end in
    RestingBuyOrder.new (plan_id p +:+ ":tranche:" +:+ pretty idx) (plan_mint p) (NDec trig) direction
      (plan_reason p +:+ ":tranche=" +:+ pretty idx +:+ "/" +:+ pretty (tranches p)) BUY
      (Some (IInt (first_step p + idx * step_interval p))).

(** ** [RestingOrderBook] over [InMemoryRestingOrderStore] *)

Inductive keeper_call : Type :=
| PlaceRestingSell (mint order_id : string) (trigger_price : dec) (fraction_bps : Z)
| CancelRestingSell (mint venue_order_id : string).

(** [OffBoxSellKeeper]: its answers, given the calls it has had. *)
Record keeper : Type := mk_keeper {
  place_resting_sell : list keeper_call → string → string → dec → Z → result string;
  cancel_resting_sell : list keeper_call → string → string → result unit
}.

Record TickFire : Type := mk_fire {
  fire_id : string; fire_side : RestingSide; sell_intent : option Intent; buy_result : option BuyFireResult.t
}.

Record Book : Type := mk_book {
  _store : dict RestingOrder;
  _orders : dict RestingOrder;
  _keeper_handles : dict string;
  _keeper_calls : list keeper_call
}.

(** [InMemoryRestingOrderStore] *)
Definition upsert (o : RestingOrder) (st : dict RestingOrder) : dict RestingOrder := dset (order_id o) o st.
Definition remove (id : string) (st : dict RestingOrder) : dict RestingOrder := dpop id st.
Definition load_all (st : dict RestingOrder) : list RestingOrder := st.*2.

(** The constructor re-reads the store: this is also a restart. *)
Definition Book_init (store : dict RestingOrder) (calls : list keeper_call) : Book :=
  mk_book store (foldl (λ d o, dset (order_id o) o d) [] (load_all store)) [] calls.

Definition set_orders (f : dict RestingOrder → dict RestingOrder) (b : Book) : Book :=
  mk_book (_store b) (f (_orders b)) (_keeper_handles b) (_keeper_calls b).
Definition set_book_store (f : dict RestingOrder → dict RestingOrder) (b : Book) : Book :=
  mk_book (f (_store b)) (_orders b) (_keeper_handles b) (_keeper_calls b).
Definition set_handles (f : dict string → dict string) (b : Book) : Book :=
  mk_book (_store b) (_orders b) (f (_keeper_handles b)) (_keeper_calls b).

Context (_chain : option chain) (_keeper : option keeper).

Definition keeper_place (k : keeper) (mint id : string) (trigger : dec) (fraction : Z) : M Book string :=
  λ b, (place_resting_sell k (_keeper_calls b) mint id trigger fraction,
        mk_book (_store b) (_orders b) (_keeper_handles b) (_keeper_calls b ++ [PlaceRestingSell mint id trigger fraction])).
Definition keeper_cancel (k : keeper) (mint handle : string) : M Book unit :=
  λ b, (cancel_resting_sell k (_keeper_calls b) mint handle,
        mk_book (_store b) (_orders b) (_keeper_handles b) (_keeper_calls b ++ [CancelRestingSell mint handle])).

Definition place (order : RestingOrder) : M Book RestingOrder :=
  modify (set_orders (dset (order_id order) order));;
  modify (set_book_store (upsert order));;
  (match order, _keeper with
   | Sell o, Some k =>
       handle ← keeper_place k (RestingSellOrder.mint o) (RestingSellOrder.order_id o) (RestingSellOrder.trigger_price o)
                  (RestingSellOrder.fraction_bps o);
       modify (set_handles (dset (RestingSellOrder.order_id o) handle))
   | _, _ => mret tt
   end : M Book unit);;
  mret order.

Fixpoint place_all (orders : list RestingBuyOrder.t) : M Book unit :=
  match orders with [] => mret tt | o :: orders => place (Buy o);; place_all orders end.

Definition place_dca (plan : DcaPlan) : M Book (list RestingBuyOrder.t) :=
  orders ← lift (foldr (λ i acc, o ← buy_order_for_tranche plan i; os ← acc; Ok (o :: os)) (Ok []) (seqZ 0 (tranches plan)));
  place_all orders;;
  mret orders.

Definition cancel (id : string) : M Book unit :=
  b ← get;
  modify (set_orders (dpop id));;
  modify (set_book_store (remove id));;
  match dget id (_orders b), _keeper with
  | Some (Sell o), Some k =>
      b ← get;
      modify (set_handles (dpop id));;
      match dget id (_keeper_handles b) with
      | Some handle => keeper_cancel k (RestingSellOrder.mint o) handle
      | None => mret tt
      end
  | _, _ => mret tt
  end.

Definition open_order_ids (b : Book) : list string := (_orders b).*1.
Definition order (id : string) (b : Book) : option RestingOrder := dget id (_orders b).

(** *** The evaluator *)

Definition _buy_step_ready (o : RestingBuyOrder.t) (event_step : option Z) : bool :=
  match RestingBuyOrder.scheduled_step o, event_step with
  | Some s, Some e => s <=? e
  | _, _ => true
  end.

Definition _buy_ctx_for (o : RestingBuyOrder.t) (supplied : option (BuyFireContext.t S P)) (block_time_ms committed : Z)
    : result (BuyFireContext.t S P) :=
  c ← _reject_float_int (IInt committed) "committed_this_tick";
  if c <? 0 then Raise (ValueError "committed_this_tick must be >= 0 (lamports reserved this tick).")
  else
    match supplied with
    | Some s =>
        if negb (bool_decide (BuyFireContext.mint s = RestingBuyOrder.mint o))
        then Raise (ValueError "supplied BuyFireContext.mint must match the BUY order's mint.")
        else BuyFireContext.new (BuyFireContext.mint s) (IInt block_time_ms) (BuyFireContext.safety_inputs s)
               (BuyFireContext.p_calibrated s) (BuyFireContext.uncertainty s)
               (IInt (BuyFireContext.current_aggregate_lamports s + c)) (BuyFireContext.cost_stack s)
               (BuyFireContext.creator s) (BuyFireContext.entry_build_params s)
    | None =>
        BuyFireContext.new (RestingBuyOrder.mint o) (IInt block_time_ms) None (StFloat fzero) (StFloat fone) (IInt c) None None None
    end.

(** One standing order; the lamports committed so far go in and out. *)
Definition evaluate_order (mark : dec) (block_time_ms : Z) (event_step : option Z)
    (buy_context : option (BuyFireContext.t S P)) (committed : Z) (o : RestingOrder) : M Book (list TickFire * Z) :=
  match o with
  | Sell so =>
      trig ← lift (RestingSellOrder.is_triggered so (NDec mark));
      if negb trig then mret ([], committed)
      else
        intent ← lift (RestingSellOrder.fire so (IInt block_time_ms));
        cancel (RestingSellOrder.order_id so);;
        mret ([mk_fire (RestingSellOrder.order_id so) (RestingSellOrder.side so) (Some intent) None], committed)
  | Buy bo =>
      if negb (_buy_step_ready bo event_step) then mret ([], committed)
      else
        trig ← lift (RestingBuyOrder.is_triggered bo (NDec mark));
        if negb trig then mret ([], committed)
        else
          ctx ← lift (_buy_ctx_for bo buy_context block_time_ms committed);
          result ← lift (fire_buy bo ctx _chain);
          let fires := [mk_fire (RestingBuyOrder.order_id bo) (RestingBuyOrder.side bo) None (Some result)] in
          if BuyFireResult.fired result
          then cancel (RestingBuyOrder.order_id bo);; mret (fires, committed + BuyFireResult.size_lamports result)
          else mret (fires, committed)
  end.

Fixpoint evaluate_orders (mark : dec) (block_time_ms : Z) (event_step : option Z)
    (buy_context : option (BuyFireContext.t S P)) (committed : Z) (os : list RestingOrder) : M Book (list TickFire) :=
  match os with
  | [] => mret []
  | o :: os =>
      '(fires, committed) ← evaluate_order mark block_time_ms event_step buy_context committed o;
      rest ← evaluate_orders mark block_time_ms event_step buy_context committed os;
      mret (fires ++ rest)
  end.

(** The orders of a mint, sorted by id. *)
Definition candidates (mint : string) (b : Book) : list RestingOrder :=
  sorting.merge_sort id_le
    (filter (λ o, order_mint o = mint) (_orders b).*2).

Definition step_arg (event_step : option int_arg) : result (option Z) :=
  match event_step with None => Ok None | Some e => z ← _reject_float_int e "event_step"; Ok (Some z) end.

Definition evaluate_tick (mint : string) (mark_price : num_in) (block_time_ms : int_arg) (event_step : option int_arg)
    (buy_context : option (BuyFireContext.t S P)) : M Book (list TickFire) :=
  bt ← lift (_reject_float_int block_time_ms "block_time_ms");
  if bt <? 0 then raise (ValueError "block_time_ms must be non-negative (event-time).")
  else
    step ← lift (step_arg event_step);
    mark ← lift (_to_decimal_price mark_price "mark_price");
    b ← get;
    evaluate_orders mark bt step buy_context 0 (candidates mint b).
End Entry.

(** ** The book mirrors its store *)

(** A dictionary of orders keyed by their ids. *)
Definition keyed (d : dict RestingOrder) : Prop :=
  Forall (λ kv, kv.1 = order_id kv.2) d ∧ NoDup d.*1.

Lemma keyed_dset o d : keyed d → keyed (dset (order_id o) o d).
Proof.
  intros [Hk Hn]. induction d as [|[k' v'] d IH]; cbn in *.
  { split; [by repeat constructor|by apply NoDup_singleton]. }
  apply Forall_cons in Hk as [H1 H2]. apply NoDup_cons in Hn as [N1 N2]. cbn in *.
  case_bool_decide as E; cbn; [by split; constructor|]. destruct (IH H2 N2) as [I1 I2].
  split; [by constructor|constructor; [|done]]. intros Hin. apply (dset_keys _ _ _ k') in Hin as [->|?]; done.
Qed.

Lemma keyed_dpop k d : keyed d → keyed (dpop k d).
Proof.
  intros [Hk Hn]. induction d as [|[k' v'] d IH]; cbn in *; [done|].
  apply Forall_cons in Hk as [H1 H2]. apply NoDup_cons in Hn as [N1 N2]. destruct (IH H2 N2) as [I1 I2].
  case_bool_decide; cbn; [done|]. split; [by constructor|constructor; [|done]]. intros Hin. apply (dpop_keys _ _ k') in Hin as [? ?]. done.
Qed.

(** Re-reading a keyed store gives the store back. *)
Lemma reload_keyed st acc : keyed (acc ++ st) →
  foldl (λ d o, dset (order_id o) o d) acc (load_all st) = acc ++ st.
Proof.
  revert acc. induction st as [|[k o] st IH]; intros acc [Hk Hn]; cbn; [by rewrite app_nil_r|].
  pose proof Hk as Hk'. apply Forall_app in Hk' as [_ [H1 _]%Forall_cons]. cbn in H1. subst k.
  assert (order_id o ∉ acc.*1) as Hfresh.
  { rewrite fmap_app in Hn. apply NoDup_app in Hn as (_ & Hd & _). intros Hin. by apply (Hd _ Hin), elem_of_cons; left. }
  rewrite dset_fresh by done. rewrite IH; rewrite <- app_assoc; [done|by split].
Qed.

Section Mirror.
Context {S P : Type} (event_slot : S → Z) (_chain : option (@chain S P)) (_keeper : option keeper).

Definition mirrored (b : Book) : Prop := _orders b = _store b ∧ keyed (_store b).

Lemma keeps_lift_any {A} I (r : result A) : keeps I (lift (S := Book) r) (λ _, True).
Proof. by apply keeps_lift. Qed.

Lemma mirrored_restart b calls : mirrored b → _orders (Book_init (_store b) calls) = _orders b ∧ mirrored (Book_init (_store b) calls).
Proof.
  intros [He Hk]. assert (_orders (Book_init (_store b) calls) = _store b) as Hr by (apply (reload_keyed (_store b) []); done).
  split; [congruence|]. by split.
Qed.

Lemma mirrored_set_handles f : keeps mirrored (modify (set_handles f)) (λ _, True).
Proof. apply keeps_modify. by intros b. Qed.

Lemma mirrored_keeper_place k m i t f : keeps mirrored (keeper_place k m i t f) (λ _, True).
Proof. intros b Hb. by split. Qed.
Lemma mirrored_keeper_cancel k m h : keeps mirrored (keeper_cancel k m h) (λ _, True).
Proof. intros b Hb. by split. Qed.

Lemma mirrored_place o : keeps mirrored (place _keeper o) (λ _, True).
Proof.
  intros b [He Hk]. unfold place. mstep.
  assert (mirrored (set_book_store (upsert o) (set_orders (dset (order_id o) o) b))) as Hb.
  { split; cbn; [by rewrite He|by apply keyed_dset]. }
  destruct o as [so|bo]; [destruct _keeper as [k|]|]; cbn; try by split.
  destruct (place_resting_sell k _ _ _ _ _); cbn; by split.
Qed.

Lemma mirrored_cancel id : keeps mirrored (cancel _keeper id) (λ _, True).
Proof.
  intros b [He Hk]. unfold cancel. mstep.
  assert (mirrored (set_book_store (remove id) (set_orders (dpop id) b))) as Hb.
  { split; cbn; [by rewrite He|by apply keyed_dpop]. }
  destruct (dget id (_orders b)) as [[so|bo]|]; [destruct _keeper as [k|]|..]; cbn; try by split.
  destruct (dget id (_keeper_handles b)); cbn; by split.
Qed.

Lemma mirrored_place_all os : keeps mirrored (place_all _keeper os) (λ _, True).
Proof.
  induction os as [|o os IH]; cbn; [by apply keeps_ret|]. eapply keeps_bind; [apply mirrored_place|done].
Qed.

Lemma mirrored_evaluate_order mark bt step ctx c o :
  keeps mirrored (evaluate_order event_slot _chain _keeper mark bt step ctx c o) (λ _, True).
Proof.
  destruct o as [so|bo]; cbn.
  - eapply keeps_bind; [apply keeps_lift_any|]. intros trig _. destruct trig; cbn; [|by apply keeps_ret].
    eapply keeps_bind; [apply keeps_lift_any|]. intros i _. eapply keeps_bind; [apply mirrored_cancel|]. by intros; apply keeps_ret.
  - destruct (_buy_step_ready bo step); cbn; [|by apply keeps_ret].
    eapply keeps_bind; [apply keeps_lift_any|]. intros trig _. destruct trig; cbn; [|by apply keeps_ret].
    eapply keeps_bind; [apply keeps_lift_any|]. intros x _. eapply keeps_bind; [apply keeps_lift_any|]. intros r _.
    destruct (BuyFireResult.fired r); [|by apply keeps_ret].
    eapply keeps_bind; [apply mirrored_cancel|]. by intros; apply keeps_ret.
Qed.

Lemma mirrored_evaluate_orders mark bt step ctx os : ∀ c,
  keeps mirrored (evaluate_orders event_slot _chain _keeper mark bt step ctx c os) (λ _, True).
Proof.
  induction os as [|o os IH]; intros c; cbn; [by apply keeps_ret|].
  eapply keeps_bind; [apply mirrored_evaluate_order|]. intros [f c'] _.
  eapply keeps_bind; [apply IH|]. by intros; apply keeps_ret.
Qed.

(** What the loop and the operator do with a book. *)
Inductive book_op : Type :=
| Place (o : RestingOrder)
| PlaceDca (plan : DcaPlan)
| Cancel (id : string)
| Tick (mint : string) (mark : num_in) (block_time_ms : int_arg) (event_step : option int_arg) (ctx : option (BuyFireContext.t S P))
| Restart.

Definition book_step (o : book_op) (b : Book) : Book :=
  match o with
  | Place o => snd (place _keeper o b)
  | PlaceDca plan => snd (place_dca _keeper plan b)
  | Cancel id => snd (cancel _keeper id b)
  | Tick m mark bt step ctx => snd (evaluate_tick event_slot _chain _keeper m mark bt step ctx b)
  | Restart => Book_init (_store b) (_keeper_calls b)
  end.
Definition book_run (ops : list book_op) (b : Book) : Book := foldl (λ b o, book_step o b) b ops.

Lemma mirrored_step o b : mirrored b → mirrored (book_step o b).
Proof.
  intros Hb. destruct o as [o|plan|id|m mark bt step ctx|]; cbn.
  - by apply mirrored_place.
  - assert (keeps mirrored (place_dca _keeper plan) (λ _, True)) as H; [|by apply H].
    eapply keeps_bind; [apply keeps_lift_any|]. intros os _. eapply keeps_bind; [apply mirrored_place_all|]. by intros; apply keeps_ret.
  - by apply mirrored_cancel.
  - assert (keeps mirrored (evaluate_tick event_slot _chain _keeper m mark bt step ctx) (λ _, True)) as H; [|by apply H].
    unfold evaluate_tick. eapply keeps_bind; [apply keeps_lift_any|]. intros z _. destruct (z <? 0); [apply keeps_raise|].
    eapply keeps_bind; [apply keeps_lift_any|]. intros st _. eapply keeps_bind; [apply keeps_lift_any|]. intros d _.
    eapply keeps_bind; [apply keeps_get|]. intros b' _. apply mirrored_evaluate_orders.
  - by apply mirrored_restart.
Qed.

(** Standing orders survive a restart.  After any sequence of placements,
    DCA plans, cancellations, ticks (those that raise included) and restarts
    from an empty book, a new book built from the durable store holds exactly
    the orders the running one holds, in the same order: none is lost and none
    fired or cancelled comes back. *)
Theorem restart_rearms_every_order ops calls :
  let b := book_run ops (Book_init [] []) in
  _orders (Book_init (_store b) calls) = _orders b ∧
  (∀ id, order id (Book_init (_store b) calls) = order id b).
Proof.
  intros b. assert (mirrored b) as Hb.
  { assert (mirrored (Book_init [] [])) as H0 by (split; [done|split; [done|apply NoDup_nil_2]]).
    unfold b, book_run. revert H0. generalize (Book_init [] []). induction ops as [|o ops IH]; intros b0 H0; [done|].
    by apply IH, mirrored_step. }
  destruct (mirrored_restart b calls Hb) as [He _]. split; [done|]. intros id. unfold order. by rewrite He.
Qed.

(** But the off-box orders are orphaned.  A cancellation of a resting SELL
    by the process that placed it cancels the venue's order under the handle
    the keeper gave; after a restart the handle is gone, and neither cancelling
    nor firing the order tells the keeper anything: its SELL keeps resting. *)
Theorem restart_orphans_off_box_sell k so b handle calls :
  _keeper = Some k → place_resting_sell k (_keeper_calls b) (RestingSellOrder.mint so) (RestingSellOrder.order_id so)
    (RestingSellOrder.trigger_price so) (RestingSellOrder.fraction_bps so) = Ok handle →
  let placed := snd (place _keeper (Sell so) b) in
  let id := RestingSellOrder.order_id so in
  _keeper_calls (snd (cancel _keeper id placed)) = _keeper_calls placed ++ [CancelRestingSell (RestingSellOrder.mint so) handle] ∧
  _keeper_calls (snd (cancel _keeper id (Book_init (_store placed) calls))) = calls.
Proof.
  intros -> Hp. unfold place. mstep. rewrite Hp. cbn. split.
  - unfold cancel. mstep. rewrite dget_dset. cbn. rewrite dget_dset. done.
  - unfold cancel. mstep. by destruct (dget _ _) as [[]|].
Qed.
End Mirror.

(** ** A BUY fires only through every gate, within the caps *)

Section Fires.
Context {S P : Type} (event_slot : S → Z) (_chain : option (@chain S P)) (_keeper : option keeper).

(** What a fired BUY has passed. *)
Record gated (c : chain) (ctx : BuyFireContext.t S P) (r : BuyFireResult.t) : Prop := {
  gd_denylist : ∀ check, _denylist c = Some check →
    ∃ slot, check (BuyFireContext.creator ctx) (BuyFireContext.mint ctx) slot (BuyFireContext.block_time_ms ctx) = Ok None;
  gd_safety : ∃ i, BuyFireContext.safety_inputs ctx = Some i ∧ _safety c i = Ok true;
  gd_breaker : CircuitBreaker.entries_allowed (_breaker c) = true;
  gd_size : ∃ d, FractionalKellySizer.size (_sizer c) (BuyFireContext.p_calibrated ctx) (BuyFireContext.uncertainty ctx)
      (PyInt (BuyFireContext.current_aggregate_lamports ctx)) None (NInt 1) = Ok d ∧
    BuyFireResult.size_lamports r = SizingDecision.size_lamports d ∧ 0 < SizingDecision.size_lamports d;
  gd_cost : ∃ cost i, BuyFireContext.cost_stack ctx = Some cost ∧ CostAwareEntryGate.allows_entry (_cost c) cost = true ∧
    BuyFireResult.intent r = Some i ∧
    _builder c (BuyFireContext.mint ctx) (BuyFireResult.size_lamports r) (BuyFireContext.block_time_ms ctx) cost
      (BuyFireContext.entry_build_params ctx) = Ok (Some i)
}.

Lemma reject_not_fired m w d r : _reject m w d = Ok r → BuyFireResult.fired r = false.
Proof. by intros [= <-]. Qed.

Lemma evaluate_buy_fired c ctx r :
  evaluate_buy event_slot c ctx = Ok r → BuyFireResult.fired r = true → gated c ctx r.
Proof.
  unfold evaluate_buy, mbind, result_bind. intros H Hf.
  assert (∀ m w d, _reject m w d ≠ Ok r) as Hr by (intros m w d E; apply reject_not_fired in E; congruence).
  destruct (match _denylist c with Some _ => _ | None => _ end) as [[flag|]|] eqn:Ed; [by destruct (Hr _ _ _ H)| |done].
  destruct (BuyFireContext.safety_inputs ctx) as [inputs|] eqn:Ei; [|by destruct (Hr _ _ _ H)].
  destruct (_safety c inputs) as [[]|] eqn:Es; cbn [negb] in H; [|by destruct (Hr _ _ _ H)|done].
  unfold after_safety, mbind, result_bind in H.
  destruct (CircuitBreaker.entries_allowed (_breaker c)) eqn:Eb; cbn [negb] in H; [|by destruct (Hr _ _ _ H)].
  destruct (FractionalKellySizer.size _ _ _ _ _ _) as [d|] eqn:Esz; [|done].
  destruct (Z.leb_spec (SizingDecision.size_lamports d) 0); [by destruct (Hr _ _ _ H)|].
  destruct (BuyFireContext.cost_stack ctx) as [cost|] eqn:Ec; [|done].
  destruct (CostAwareEntryGate.allows_entry (_cost c) cost) eqn:Ea; cbn [negb] in H; [|by destruct (Hr _ _ _ H)].
  unfold build in H. destruct (_builder c _ _ _ _ _) as [[i|]|] eqn:Ebu; [|by destruct (Hr _ _ _ H)..].
  injection H as <-. constructor.
  - intros check Hc. rewrite Hc in Ed. eexists. exact Ed.
  - exists inputs. by split.
  - exact Eb.
  - exists d. split; [exact Esz|]. split; [reflexivity|assumption].
  - exists cost, i. split; [exact Ec|]. split; [exact Ea|]. split; [reflexivity|exact Ebu].
Qed.

Lemma sell_fire_de_risk so bt i : RestingSellOrder.fire so bt = Ok i → de_risk i.
Proof.
  unfold RestingSellOrder.fire, mbind, result_bind. destruct (_reject_float_int bt _); [|done].
  assert (∀ a b f m r i, DeRiskIntentFactory.exit a b f m r = Ok i → de_risk i) as Hx.
  { intros x y f m r i'. unfold DeRiskIntentFactory.exit, ExitIntent.new, ExitIntent._fraction_range.
    destruct ((0 <=? f) && (f <=? 10000)) eqn:E; [|done]. bools. intros [= <-]. cbn. lia. }
  assert (∀ a b f r i, DeRiskIntentFactory.reduce a b f r = Ok i → de_risk i) as Hy.
  { intros x y f r i'. unfold DeRiskIntentFactory.reduce, ReduceIntent.new, ReduceIntent._fraction_range.
    destruct ((1 <=? f) && (f <=? 10000)) eqn:E; [|done]. bools. intros [= <-]. cbn. lia. }
  destruct (RestingSellOrder.side so); [apply Hx|apply Hy..].
Qed.

(** The lamports a list of fires commits. *)
Definition fire_size (f : TickFire) : Z :=
  match buy_result f with Some r => if BuyFireResult.fired r then BuyFireResult.size_lamports r else 0 | None => 0 end.

Section Caps.
Context (config : RiskConfig.t).
Context (Hfits : fits (RiskConfig.kelly_fraction_cap config)) (Hcap0 : 0 ≤ coef (RiskConfig.kelly_fraction_cap config)).
Context (Hpt : 0 ≤ RiskConfig.per_trade_cap_lamports config < 10 ^ 24).
Context (Hsizer : ∀ c, _chain = Some c → _sizer c = FractionalKellySizer.__init__ config).
Context (buy_context : option (BuyFireContext.t S P)).
Context (Hstats : ∀ s, buy_context = Some s → stat_wf (BuyFireContext.p_calibrated s) ∧ stat_wf (BuyFireContext.uncertainty s)).

Definition start_aggregate : Z := match buy_context with Some s => BuyFireContext.current_aggregate_lamports s | None => 0 end.

(** A fire of the tick: a de-risk intent, or a BUY that is not fired or has
    passed every gate on the supplied inputs with the exposure of the tick's
    earlier BUYs added. *)
Definition good_fire (bt : Z) (f : TickFire) : Prop :=
  (∀ i, sell_intent f = Some i → de_risk i) ∧
  ∀ r, buy_result f = Some r → BuyFireResult.fired r = true →
    ∃ c s agg, _chain = Some c ∧ buy_context = Some s ∧ start_aggregate ≤ agg ∧
      gated c (BuyFireContext.mk (BuyFireContext.mint s) bt (BuyFireContext.safety_inputs s) (BuyFireContext.p_calibrated s)
        (BuyFireContext.uncertainty s) agg (BuyFireContext.cost_stack s) (BuyFireContext.creator s)
        (BuyFireContext.entry_build_params s)) r ∧
      4 * BuyFireResult.size_lamports r ≤ RiskConfig.per_trade_cap_lamports config.

(** A BUY on a context with the committed lamports added. *)
Lemma fire_buy_capped o bt committed ctx r :
  0 ≤ committed → _buy_ctx_for o buy_context bt committed = Ok ctx → fire_buy event_slot o ctx _chain = Ok r →
  good_fire bt (mk_fire (RestingBuyOrder.order_id o) (RestingBuyOrder.side o) None (Some r)) ∧
  (BuyFireResult.fired r = true → 0 ≤ BuyFireResult.size_lamports r ∧
     start_aggregate + committed + BuyFireResult.size_lamports r ≤
       Z.max (start_aggregate + committed) (RiskConfig.max_aggregate_lamports config)).
Proof.
  intros Hc Hctx Hr.
  assert (BuyFireResult.fired r = true → ∃ c s, _chain = Some c ∧ buy_context = Some s ∧
    ctx = BuyFireContext.mk (BuyFireContext.mint s) bt (BuyFireContext.safety_inputs s) (BuyFireContext.p_calibrated s)
        (BuyFireContext.uncertainty s) (start_aggregate + committed) (BuyFireContext.cost_stack s) (BuyFireContext.creator s)
        (BuyFireContext.entry_build_params s) ∧ gated c ctx r) as Hg.
  { intros Hf. unfold fire_buy in Hr. destruct (negb _); [done|]. destruct _chain as [c|]; [|by injection Hr as <-].
    apply evaluate_buy_fired in Hr as Hgate; [|done]. unfold _buy_ctx_for, BuyFireContext.new, mbind, result_bind in Hctx.
    cbn [_reject_float_int] in Hctx. destruct (Z.ltb_spec committed 0); [lia|].
    unfold start_aggregate. destruct buy_context as [s|].
    - destruct (negb _); [done|]. destruct (bt <? 0); [done|]. destruct (_ <? 0); [done|]. injection Hctx as <-.
      by exists c, s.
    - destruct (bt <? 0); [done|]. injection Hctx as <-.
      destruct Hgate as [_ (i & Hi & _) _ _ _]. done. }
  assert (BuyFireResult.fired r = true → 0 ≤ BuyFireResult.size_lamports r ∧ 4 * BuyFireResult.size_lamports r ≤ RiskConfig.per_trade_cap_lamports config ∧
     start_aggregate + committed + BuyFireResult.size_lamports r ≤
       Z.max (start_aggregate + committed) (RiskConfig.max_aggregate_lamports config)) as Hb.
  { intros Hf. destruct (Hg Hf) as (c & s & Hch & Hs & -> & G). destruct (gd_size _ _ _ G) as (d & Hd & -> & Hpos).
    cbn in Hd. rewrite (Hsizer c Hch) in Hd. destruct (Hstats s Hs) as [W1 W2].
    destruct (size_bounds config Hfits Hcap0 Hpt None _ _ _ _ _ default_signals_ok W1 W2 Hd) as (B1 & B2 & B3 & _).
    split_and!; lia. }
  split; [|intros Hf; by destruct (Hb Hf) as (? & ? & ?)]. split; [done|]. cbn. intros r' [= <-] Hf.
  destruct (Hg Hf) as (c & s & Hch & Hs & -> & G). exists c, s, (start_aggregate + committed).
  split_and!; try done; [lia|]. by apply Hb.
Qed.

Lemma evaluate_orders_capped mark bt step os : ∀ committed b fires b',
  0 ≤ committed →
  evaluate_orders event_slot _chain _keeper mark bt step buy_context committed os b = (Ok fires, b') →
  Forall (good_fire bt) fires ∧ 0 ≤ zsum (fire_size <$> fires) ∧
  start_aggregate + committed + zsum (fire_size <$> fires) ≤
    Z.max (start_aggregate + committed) (RiskConfig.max_aggregate_lamports config).
Proof.
  induction os as [|o os IH]; intros committed b fires b' Hc.
  { intros [= <- <-]. cbn. split_and!; [constructor|lia|lia]. }
  cbn [evaluate_orders]. unfold mbind at 1, M_bind at 1.
  destruct (evaluate_order event_slot _chain _keeper mark bt step buy_context committed o b) as [[[fs c']|] b1] eqn:E1; [|done].
  unfold mbind, M_bind. destruct (evaluate_orders _ _ _ _ _ _ _ c' os b1) as [[rest|] b2] eqn:E2; [|done].
  intros [= <- <-].
  assert (Forall (good_fire bt) fs ∧ c' = committed + zsum (fire_size <$> fs) ∧ 0 ≤ zsum (fire_size <$> fs) ∧
    start_aggregate + c' ≤ Z.max (start_aggregate + committed) (RiskConfig.max_aggregate_lamports config)) as (F1 & Hc' & Hp & Hm).
  { clear E2 IH. destruct o as [so|bo]; cbn [evaluate_order] in E1; unfold mbind, M_bind, lift, mret, M_ret in E1.
    - destruct (RestingSellOrder.is_triggered so _) as [[]|]; cbn [negb] in E1; [|injection E1 as <- <- <-; cbn; split_and!; (constructor || lia)|done].
      destruct (RestingSellOrder.fire so _) as [i|] eqn:Ef; [|done].
      destruct (cancel _keeper _ b) as [[[]|] b3]; [|done]. injection E1 as <- <- <-. cbn. split_and!; [|lia..].
      constructor; [|done]. split; [|done]. cbn. intros i' [= <-]. by eapply sell_fire_de_risk.
    - destruct (_buy_step_ready bo step); cbn [negb] in E1; [|injection E1 as <- <- <-; cbn; split_and!; (constructor || lia)].
      destruct (RestingBuyOrder.is_triggered bo _) as [[]|]; cbn [negb] in E1; [|injection E1 as <- <- <-; cbn; split_and!; (constructor || lia)|done].
      destruct (_buy_ctx_for bo buy_context bt committed) as [ctx|] eqn:Ectx; [|done].
      destruct (fire_buy event_slot bo ctx _chain) as [r|] eqn:Er; [|done].
      destruct (fire_buy_capped bo bt committed ctx r Hc Ectx Er) as [G B].
      destruct (BuyFireResult.fired r) eqn:Ef.
      + destruct (cancel _keeper _ b) as [[[]|] b3]; [|done]. injection E1 as <- <- <-.
        destruct (B eq_refl) as [B1 B2]. cbn. rewrite Ef. split_and!; [by constructor|lia..].
      + injection E1 as <- <- <-. cbn. rewrite Ef. split_and!; [by constructor|lia..]. }
  destruct (IH c' b1 rest b2 ltac:(lia) E2) as (F2 & Hp2 & Hm2).
  rewrite fmap_app, zsum_app. split_and!; [by apply Forall_app|lia|lia].
Qed.

(** C38: a resting BUY is never a way around the entry stack.  Whatever orders
    stand (a DCA catch-up of many tranches included), every BUY that fires on a
    tick has passed the denylist, the safety gate, the breaker, the sizer and
    the cost gate on the supplied inputs with the lamports of the tick's earlier
    BUYs added, is at most a quarter of the per-trade cap, and all of them
    together keep the exposure within the aggregate cap; every SELL that fires
    is a de-risk intent; without a chain or without fresh inputs nothing is
    bought. *)
Theorem tick_buys_gated_and_capped mint mark bt step b fires b' :
  evaluate_tick event_slot _chain _keeper mint mark bt step buy_context b = (Ok fires, b') →
  (∃ t, bt = IInt t ∧ Forall (good_fire t) fires) ∧
  start_aggregate + zsum (fire_size <$> fires) ≤ Z.max start_aggregate (RiskConfig.max_aggregate_lamports config) ∧
  (_chain = None ∨ buy_context = None → Forall (λ f, ∀ r, buy_result f = Some r → BuyFireResult.fired r = false) fires).
Proof.
  unfold evaluate_tick, mbind, M_bind, lift, get. destruct (_reject_float_int bt _) as [t|] eqn:Ebt; [|done].
  destruct (t <? 0); [done|]. destruct (step_arg step) as [st|]; [|done].
  destruct (RestingOrders._to_decimal_price mark _) as [d|]; [|done]. intros H.
  destruct (evaluate_orders_capped d t st _ 0 b fires b' ltac:(lia) H) as (F & _ & Hm).
  rewrite Z.add_0_r in Hm. split_and!; [|done|].
  - exists t. split; [|done]. destruct bt; cbn in Ebt; congruence.
  - intros Hnone. eapply Forall_impl; [exact F|]. intros f [_ Hg] r Hr. apply not_true_is_false. intros Hf.
    destruct (Hg r Hr Hf) as (c & s & agg & Hc & Hs & _). destruct Hnone; congruence.
Qed.
End Caps.

Lemma merge_sort_pair x y : id_le x y → sorting.merge_sort id_le [x; y] = [x; y].
Proof. intros H. cbn. by rewrite decide_True. Qed.

(** A BUY that raises loses the SELLs of its tick.  When a triggered BUY
    sorted after a triggered SELL of the same mint makes the evaluation raise
    (a sizer or gate that raises, say), the tick raises too: the SELL's exit
    intent is not returned, yet the SELL has been removed from the book and
    from the durable store, so no later tick fires it. *)
Theorem raising_buy_loses_sell so bo mark bt step ctx bctx e store :
  RestingSellOrder.mint so = RestingBuyOrder.mint bo →
  String.leb (RestingSellOrder.order_id so) (RestingBuyOrder.order_id bo) = true →
  RestingSellOrder.order_id so ≠ RestingBuyOrder.order_id bo →
  (∃ i, RestingSellOrder.fire so (IInt bt) = Ok i) →
  _trigger_met (RestingSellOrder.trigger_direction so) mark (RestingSellOrder.trigger_price so) = true →
  _trigger_met (RestingBuyOrder.trigger_direction bo) mark (RestingBuyOrder.trigger_price bo) = true →
  _buy_step_ready bo step = true → _buy_ctx_for bo ctx bt 0 = Ok bctx → fire_buy event_slot bo bctx _chain = Raise e →
  _keeper = None → 0 ≤ bt →
  store = [(RestingSellOrder.order_id so, Sell so); (RestingBuyOrder.order_id bo, Buy bo)] →
  let '(r, b') := evaluate_tick event_slot _chain _keeper (RestingSellOrder.mint so) (NDec mark) (IInt bt) (IInt <$> step) ctx (Book_init store []) in
  r = Raise e ∧ order (RestingSellOrder.order_id so) b' = None ∧ order (RestingSellOrder.order_id so) (Book_init (_store b') []) = None.
Proof.
  intros Hm Hle Hne [intent Hf] Ht1 Ht2 Hready Hctx Hraise Hk Hbt ->.
  set (book := Book_init _ _).
  assert (_orders book = [(RestingSellOrder.order_id so, Sell so); (RestingBuyOrder.order_id bo, Buy bo)]) as Ho.
  { unfold book, Book_init; cbn. by rewrite bool_decide_eq_false_2. }
  assert (candidates (RestingSellOrder.mint so) book = [Sell so; Buy bo]) as Hcand.
  { unfold candidates. rewrite Ho. cbn [fmap list_fmap snd]. rewrite !filter_cons, !decide_True by done. by apply merge_sort_pair. }
  unfold evaluate_tick, mbind, M_bind, lift, get. cbn [_reject_float_int]. rewrite (proj2 (Z.ltb_ge bt 0) Hbt).
  assert (step_arg (IInt <$> step) = Ok step) as -> by (by destruct step). cbn [RestingOrders._to_decimal_price]. rewrite Hcand. cbn [evaluate_orders evaluate_order].
  unfold mbind, M_bind, lift, mret, M_ret. unfold RestingSellOrder.is_triggered, RestingBuyOrder.is_triggered.
  cbn [mbind result_bind RestingOrders._to_decimal_price]. rewrite Ht1, Hf. cbn [negb].
  unfold cancel. mstep. rewrite Ho. cbn. rewrite bool_decide_eq_true_2 by done. rewrite Hk. cbn.
  rewrite Hready. cbn. rewrite Ht2. cbn. rewrite Hctx, Hraise. cbn. rewrite Ho. cbn.
  rewrite !bool_decide_eq_true_2, !bool_decide_eq_false_2 by done. cbn.
  by rewrite !bool_decide_eq_false_2 by done.
Qed.
End Fires.

(** ** DCA tranches *)

(** When a tranche is due.  Tranche [i] of a plan is ready at an event-time
    step iff that step has reached [first_step + i * step_interval], its entry
    in the schedule; with a price trigger it is triggered as the plan says, and
    a plan that only has a schedule is triggered at marks of at least one
    lamport per base unit, and so never below. *)
Theorem dca_tranche_due p i o step mark :
  buy_order_for_tranche p i = Ok o →
  tranche_steps p !! Z.to_nat i = Some (first_step p + i * step_interval p) ∧
  RestingBuyOrder.mint o = plan_mint p ∧
  (_buy_step_ready o (Some step) = true ↔ first_step p + i * step_interval p ≤ step) ∧
  (RestingBuyOrder.is_triggered o (NDec mark) = Ok true ↔
     match plan_trigger p with
     | Some d => _trigger_met (plan_direction p) mark d = true
     | None => dle (dec_of_Z 1) mark
     end).
Proof.
  unfold buy_order_for_tranche, RestingBuyOrder.new, mbind, result_bind. destruct (negb _) eqn:Hi; [done|]. bools.
  cbn [guard_ok RestingOrders._to_decimal_price _reject_float_int]. destruct (dleb _ d0); [done|].
  destruct (_ <? 0); [done|]. intros [= <-]. split_and!; [|done| |].
  - unfold tranche_steps. rewrite list_lookup_fmap, lookup_seqZ_lt by lia. cbn. by rewrite Z2Nat.id by lia.
  - unfold _buy_step_ready; cbn. apply Z.leb_le.
  - unfold RestingBuyOrder.is_triggered; cbn. destruct (plan_trigger p) as [d|]; cbn.
    + split; [by intros [= ->]|by intros ->].
    + rewrite <- dleb_dle. split; [by intros [= ->]|by intros ->].
Qed.

(** *** Witnesses *)

Definition sample_plan : DcaPlan := mk_plan "p" "M" 3 10 5 None AT_OR_BELOW "dca".

Lemma dca_tranche_due_witness :
  ∃ o, buy_order_for_tranche sample_plan 2 = Ok o ∧
    (RestingBuyOrder.is_triggered o (NDec (mkdec 30 (-6))) = Ok true ↔ dle (dec_of_Z 1) (mkdec 30 (-6))).
Proof.
  eexists. split; [by vm_compute|].
  exact (proj2 (proj2 (proj2 (dca_tranche_due sample_plan 2 _ 25 (mkdec 30 (-6)) eq_refl)))).
Defined.

Definition sample_sell : RestingSellOrder.t :=
  RestingSellOrder.mk "a" "M" SELL (dec_of_Z 5) AT_OR_BELOW 10000 secure "stop".
Definition sample_buy : RestingBuyOrder.t := RestingBuyOrder.mk "b" "M" (dec_of_Z 9) AT_OR_BELOW "dip" BUY None.
Definition sample_keeper : keeper := mk_keeper (λ _ _ _ _ _, Ok "h1") (λ _ _ _, Ok tt).

Lemma restart_orphans_off_box_sell_witness :
  _keeper_calls (snd (cancel (Some sample_keeper) "a"
    (Book_init (_store (snd (place (Some sample_keeper) (Sell sample_sell) (Book_init [] [])))) []))) = [].
Proof.
  exact (proj2 (restart_orphans_off_box_sell (Some sample_keeper) sample_keeper sample_sell (Book_init [] []) "h1" []
    eq_refl eq_refl)).
Defined.

(** A chain on a fresh breaker and the default configuration, with a builder
    that builds and no safety opinion. *)
Definition sample_cost_stack : CostStack.t := CostStack.mk 900 10 10 50 30 50 150 300.
Definition sample_build (mint : string) (size bt : Z) (cost : CostStack.t) (_ : option unit) : result (option EntryIntent.t) :=
  i ← EntryIntent.new "id" mint (EventTime.mk 7 bt bt) (PyInt size) 100 (PyInt 1) (PyInt 1) 12 cost "sim" "w"; Ok (Some i).
Definition sample_chain : @chain unit unit :=
  mk_chain None (λ _, Ok true) (CircuitBreaker.boot RiskConfig.defaults) (FractionalKellySizer.__init__ RiskConfig.defaults)
    (CostAwareEntryGate.__init__ (Some RiskConfig.defaults)) sample_build.
Definition sample_ctx (p : stat_in) (agg : Z) : BuyFireContext.t unit unit :=
  BuyFireContext.mk "M" 1 (Some tt) p u10 agg (Some sample_cost_stack) None None.
Definition two_buys : Book :=
  Book_init [("a", Buy (RestingBuyOrder.mk "a" "M" (dec_of_Z 9) AT_OR_BELOW "dip" BUY None)); ("b", Buy sample_buy)] [].

Definition no_slot (_ : unit) : Z := 0.
Definition sample_buy_context : option (BuyFireContext.t unit unit) := Some (sample_ctx p70 495000000).
Definition fires_of (r : result (list TickFire)) : list TickFire := match r with Ok fires => fires | Raise _ => [] end.
Definition sample_fires : list TickFire := Eval vm_compute in
  fires_of (fst (@evaluate_tick unit unit no_slot (Some sample_chain) None "M" (NInt 8) (IInt 1) None sample_buy_context two_buys)).
Definition sample_after : Book := Eval vm_compute in
  snd (@evaluate_tick unit unit no_slot (Some sample_chain) None "M" (NInt 8) (IInt 1) None sample_buy_context two_buys).

Lemma sample_tick_ok :
  @evaluate_tick unit unit no_slot (Some sample_chain) None "M" (NInt 8) (IInt 1) None sample_buy_context two_buys =
  (Ok sample_fires, sample_after).
Proof. by vm_compute. Qed.

(** With 0.495 SOL at risk the first tranche takes the 0.005 SOL left and the
    second is refused. *)
Example sample_fire_sizes : (fire_size <$> sample_fires) = [5000000; 0].
Proof. reflexivity. Qed.

Lemma tick_buys_gated_and_capped_witness :
  start_aggregate sample_buy_context + zsum (fire_size <$> sample_fires) ≤
    Z.max (start_aggregate sample_buy_context) (RiskConfig.max_aggregate_lamports RiskConfig.defaults).
Proof.
  refine (proj1 (proj2 (@tick_buys_gated_and_capped unit unit no_slot (Some sample_chain) None RiskConfig.defaults
    _ _ _ _ sample_buy_context _ "M" (NInt 8) (IInt 1) None two_buys sample_fires sample_after sample_tick_ok))).
  - by vm_compute.
  - by vm_compute.
  - by vm_compute.
  - by intros c [= <-].
  - intros s [= <-]. by vm_compute.
Defined.

Lemma raising_buy_loses_sell_witness :
  let '(r, b') := evaluate_tick (λ _, 0) (Some sample_chain) None "M" (NDec (dec_of_Z 4)) (IInt 1) None
    (Some (sample_ctx (StInt 2) 0)) (Book_init [("a", Sell sample_sell); ("b", Buy sample_buy)] []) in
  r = Raise (ValueError "p_calibrated must be in [0, 1]") ∧ order "a" b' = None ∧ order "a" (Book_init (_store b') []) = None.
Proof.
  apply (raising_buy_loses_sell (λ _, 0) (Some sample_chain) None sample_sell sample_buy (dec_of_Z 4) 1 None
    (Some (sample_ctx (StInt 2) 0)) (BuyFireContext.mk "M" 1 (Some tt) (StInt 2) u10 0 (Some sample_cost_stack) None None));
    try reflexivity; [discriminate|by eexists|lia].
Defined.
