(* ===== verification/Enforcer.v ===== *)
(** * Layer-2 stop enforcement: [aats/risk/secondary_enforcer.py] and
    [aats/controller/enforcer_wiring.py]

    The enforcer holds the armed stops by mint; the wiring drives it once per
    tick and emits the heartbeat of [aats/risk/dms_service.py] first.  The
    venue's answer to an exit may depend on everything it was sent before. *)

From S2P Require Import Prelude Decimal RiskContracts SurvivableStop Intents Positions StateStore.

Module MarkTick.
Record t : Type := mk { mint : string; mark_price : num_in; block_time_ms : Z }.
Definition new (mint : string) (mark : num_in) (bt : pynum) : result t :=
  match mark, bt with
  | NFloat _, _ => Raise (TypeError "MarkTick.mark_price must be Decimal")
  | _, PyFloat _ => Raise (TypeError "MarkTick.block_time_ms must be int")
  | _, PyInt z => if z <? 0 then Raise (ValueError "MarkTick.block_time_ms must be non-negative.") else Ok (mk mint mark z)
  end.
End MarkTick.

Module Heartbeat.
Record t : Type := mk { epoch_ms : Z; seq : Z }.
Definition new (epoch seq : pynum) : result t :=
  match epoch, seq with
  | PyFloat _, _ => Raise (TypeError "Heartbeat.epoch_ms must be int")
  | _, PyFloat _ => Raise (TypeError "Heartbeat.seq must be int")
  | PyInt e, PyInt s =>
      if e <? 0 then Raise (ValueError "Heartbeat.epoch_ms must be non-negative.")
      else if s <? 0 then Raise (ValueError "Heartbeat.seq must be non-negative.")
      else Ok (mk e s)
  end.
End Heartbeat.

Record _Registered : Type := mk_registered { r_stop : StopState.t; r_position : Position.t }.

(** What was sent to [venue.exit], in order. *)
Definition exit_log : Type := list (Intent * Position.t).

Inductive tele_event : Type :=
| StopFired (mint : string)
| HeartbeatEmitted (seq age_ms : Z)
| HeartbeatStoreError (error : string).

(** ** The wiring's state *)

Record Wiring : Type := mk_wiring {
  _stops : dict _Registered;
  _seq : Z;
  _last_hb_wall_ms : option Z;
  _hb_store : list Heartbeat.t;
  _telemetry : option (list tele_event);
  (** the enforcer's own sink *)
  _stop_telemetry : option (list (string * string))
}.
Definition set_stops x (w : Wiring) : Wiring := mk_wiring x (_seq w) (_last_hb_wall_ms w) (_hb_store w) (_telemetry w) (_stop_telemetry w).
Definition emit (e : tele_event) (w : Wiring) : Wiring :=
  mk_wiring (_stops w) (_seq w) (_last_hb_wall_ms w) (_hb_store w) ((λ l, l ++ [e]) <$> _telemetry w) (_stop_telemetry w).
Definition emit_stop (mint reason : string) (w : Wiring) : Wiring :=
  mk_wiring (_stops w) (_seq w) (_last_hb_wall_ms w) (_hb_store w) (_telemetry w) ((λ l, l ++ [(mint, reason)]) <$> _stop_telemetry w).

(** The wiring and the venue it fires into. *)
Record Enf : Type := mk_enf { e_wiring : Wiring; e_exits : exit_log }.
Definition on_wiring (f : Wiring → Wiring) : M Enf unit := modify (λ s, mk_enf (f (e_wiring s)) (e_exits s)).

Section Ops.
(** [venue.exit]: what it answers after the exits it has already seen. *)
Context (venue_exit : exit_log → Intent → Position.t → result FillResult.t).
(** The n-th wall-clock reading, and whether the n-th heartbeat write fails. *)
Context (_wall_epoch_ms : Z → Z) (hb_fails : Heartbeat.t → option string).

Definition exit_call (log : exit_log) (intent : Intent) (p : Position.t) : result FillResult.t * exit_log :=
  (venue_exit log intent p, log ++ [(intent, p)]).

(** *** [SecondaryStopEnforcer] *)

Definition register (stop : StopState.t) (position : Position.t) (w : Wiring) : Wiring :=
  set_stops (dset (StopState.mint stop) (mk_registered stop position) (_stops w)) w.
Definition deregister (mint : string) (w : Wiring) : Wiring := set_stops (dpop mint (_stops w)) w.
Definition tighten (mint : string) (proposed : num_in) : M Wiring StopState.t :=
  w ← get;
  match dget mint (_stops w) with
  | None => raise (KeyError "no armed stop registered for mint")
  | Some reg =>
      tightened ← lift (StopState.tighten (r_stop reg) proposed);
      modify (set_stops (dset mint (mk_registered tightened (r_position reg)) (_stops w)));;
      mret tightened
  end.
Definition armed_mints (w : Wiring) : list string := (_stops w).*1.
Definition stop_for (mint : string) (w : Wiring) : option StopState.t := r_stop <$> dget mint (_stops w).

Definition decide (w : Wiring) (t : MarkTick.t) : result bool :=
  match dget (MarkTick.mint t) (_stops w) with
  | None => Ok false
  | Some reg => StopState.is_breached (r_stop reg) (MarkTick.mark_price t)
  end.

Definition enforce_tick (t : MarkTick.t) : M Enf (option FillResult.t) :=
  s ← get;
  fire ← lift (decide (e_wiring s) t);
  if negb fire then mret None
  else
    match dget (MarkTick.mint t) (_stops (e_wiring s)) with
    | None => raise (KeyError "mint")
    | Some reg =>
        let client_intent_id := "stop_exit:" +:+ MarkTick.mint t +:+ ":" +:+ pretty (MarkTick.block_time_ms t) in
        let reason := "hard_stop_breach: mark<=trigger (" +:+ num_str (MarkTick.mark_price t) +:+ "<="
                      +:+ dec_str (StopState.trigger_price (r_stop reg)) +:+ ")" in
        intent ← lift (DeRiskIntentFactory.exit client_intent_id (MarkTick.mint t) 10000 secure reason);
        fill ← (λ s, let '(r, l) := exit_call (e_exits s) intent (r_position reg) in (r, mk_enf (e_wiring s) l));
        on_wiring (emit_stop (MarkTick.mint t) reason);;
        on_wiring (deregister (MarkTick.mint t));;
        mret (Some fill)
    end.

(** *** [FastLoopEnforcerWiring] *)

Definition arm (mint : string) (entry_fill_price : num_in) (position : Position.t) (th : option StopThresholds.t)
    : M Wiring StopState.t :=
  stop ← lift (StopState.at_entry mint entry_fill_price th);
  modify (register stop position);;
  mret stop.

(** The write's failure is logged, never raised. *)
Definition _emit_heartbeat_safe : M Wiring unit :=
  modify (λ w, mk_wiring (_stops w) (_seq w + 1) (_last_hb_wall_ms w) (_hb_store w) (_telemetry w) (_stop_telemetry w));;
  w ← get;
  let now_ms := _wall_epoch_ms (_seq w) in
  hb ← lift (Heartbeat.new (PyInt now_ms) (PyInt (_seq w)));
  match hb_fails hb with
  | Some err => modify (emit (HeartbeatStoreError ("heartbeat_store_write_error: " +:+ err)))
  | None =>
      let age := match _last_hb_wall_ms w with Some last => now_ms - last | None => 0 end in
      modify (λ w, emit (HeartbeatEmitted (_seq w) age)
        (mk_wiring (_stops w) (_seq w) (_last_hb_wall_ms w) (_hb_store w ++ [hb]) (_telemetry w) (_stop_telemetry w)));;
      modify (λ w, mk_wiring (_stops w) (_seq w) (Some now_ms) (_hb_store w) (_telemetry w) (_stop_telemetry w))
  end.

Fixpoint enforce_all (ticks : list (string * dec * Z)) : M Enf (list FillResult.t) :=
  match ticks with
  | [] => mret []
  | (mint, mark, bt) :: ticks =>
      t ← lift (MarkTick.new mint (NDec mark) (PyInt bt));
      fill ← enforce_tick t;
      (match fill with Some _ => on_wiring (emit (StopFired mint)) | None => mret tt end);;
      fills ← enforce_all ticks;
      mret (match fill with Some f => f :: fills | None => fills end)
  end.

Definition wiring_on_tick (ticks : list (string * dec * Z)) : M Enf (list FillResult.t) :=
  (λ s, let '(r, w) := _emit_heartbeat_safe (e_wiring s) in (r, mk_enf w (e_exits s)));;
  enforce_all ticks.
End Ops.
