(* ===== verification/RuleEngine.v ===== *)
(** * The hierarchical rule engine: [aats/risk/rule_engine.py]

    One pure evaluator per tick and position, highest priority first: the
    pre-set narrative flag, the fixed hard stop, the take-profit ladder. *)

From S2P Require Import Prelude Decimal DecimalOrder RiskContracts Intents SurvivableStop Positions StateStore Enforcer.

Inductive RulePriority : Type := NARRATIVE_FAILURE | HARD_STOP | TAKE_PROFIT.
#[export] Instance RulePriority_eq_dec : EqDecision RulePriority.
Proof. solve_decision. Defined.
(** [priority.name.lower()] *)
Definition priority_name (p : RulePriority) : string :=
  match p with NARRATIVE_FAILURE => "narrative_failure" | HARD_STOP => "hard_stop" | TAKE_PROFIT => "take_profit" end.

Module RuleOutcomeKind.
Inductive t : Type := NO_OP | FULL_EXIT | SCALE_OUT.
#[global] Instance t_eq_dec : EqDecision t.
Proof. solve_decision. Defined.
End RuleOutcomeKind.

(** A price given to a frozen dataclass field, which only refuses a float. *)
Inductive dec_arg : Type := ADec (d : dec) | AInt (z : Z) | AFloat (repr : string).

Module TakeProfitLevel.
Record t : Type := mk { trigger_price : dec; fraction_bps : Z }.

Definition new (trigger : dec_arg) (fraction : pynum) : result t :=
  trigger ← match trigger with
            | ADec d => Ok d
            | AInt z => Ok (dec_of_Z z)
            | AFloat _ => Raise (TypeError "TakeProfitLevel.trigger_price must be Decimal, not float.")
            end;
  if dleb trigger d0 then Raise (ValueError "TakeProfitLevel.trigger_price must be > 0.")
  else match fraction with
       | PyFloat _ => Raise (TypeError "TakeProfitLevel.fraction_bps must be int (bps), not float.")
       | PyInt f => if negb ((1 <=? f) && (f <=? 9999))
                    then Raise (ValueError "TakeProfitLevel.fraction_bps must be in [1, 9999]")
                    else Ok (mk trigger f)
       end.

Definition is_hit (l : t) (mark_price : num_in) : result bool :=
  mark ← _to_decimal_price mark_price "mark_price"; Ok (dleb (trigger_price l) mark).
End TakeProfitLevel.

Module RuleInputs.
Record t : Type := mk {
  mint : string; block_time_ms : Z; mark_price : num_in; stop : StopState.t;
  narrative_failure_flag : bool; take_profit_levels : list TakeProfitLevel.t
}.

Definition new (mint : string) (block_time : pynum) (mark : num_in) (stop : StopState.t) (narrative : bool)
    (levels : list TakeProfitLevel.t) : result t :=
  match mark, block_time with
  | NFloat _, _ => Raise (TypeError "RuleInputs.mark_price must be Decimal, not float (data-models.md §0).")
  | _, PyFloat _ => Raise (TypeError "RuleInputs.block_time_ms must be int (event-time ms), not float.")
  | _, PyInt ms =>
      if ms <? 0 then Raise (ValueError "RuleInputs.block_time_ms must be non-negative.")
      else if negb (bool_decide (StopState.mint stop = mint)) then Raise (ValueError "RuleInputs.stop.mint must match mint")
      else Ok (mk mint ms mark stop narrative levels)
  end.
End RuleInputs.

Module RuleOutcome.
Record t : Type := mk { kind : RuleOutcomeKind.t; intent : option Intent; priority : option RulePriority; reason : string }.
Definition is_exit (o : t) : bool :=
  bool_decide (kind o = RuleOutcomeKind.FULL_EXIT) || bool_decide (kind o = RuleOutcomeKind.SCALE_OUT).
End RuleOutcome.

Module HierarchicalRiskRuleEngine.
Definition _full_exit (i : RuleInputs.t) (priority : RulePriority) (reason : string) : result RuleOutcome.t :=
  let client_intent_id := "rule_exit:" +:+ priority_name priority +:+ ":" +:+ RuleInputs.mint i +:+ ":" +:+ pretty (RuleInputs.block_time_ms i) in
  intent ← DeRiskIntentFactory.exit client_intent_id (RuleInputs.mint i) 10000 secure reason;
  Ok (RuleOutcome.mk RuleOutcomeKind.FULL_EXIT (Some intent) (Some priority) reason).

Definition _scale_out (i : RuleInputs.t) (level : TakeProfitLevel.t) : result RuleOutcome.t :=
  let client_intent_id := "rule_tp:" +:+ RuleInputs.mint i +:+ ":" +:+ pretty (RuleInputs.block_time_ms i) +:+ ":"
                          +:+ dec_str (TakeProfitLevel.trigger_price level) in
  let reason := "take_profit_hit: mark (" +:+ num_str (RuleInputs.mark_price i) +:+ ") >= TP trigger ("
                +:+ dec_str (TakeProfitLevel.trigger_price level) +:+ "); scaling out "
                +:+ pretty (TakeProfitLevel.fraction_bps level) +:+ " bps" in
  intent ← DeRiskIntentFactory.reduce client_intent_id (RuleInputs.mint i) (TakeProfitLevel.fraction_bps level) reason;
  Ok (RuleOutcome.mk RuleOutcomeKind.SCALE_OUT (Some intent) (Some TAKE_PROFIT) reason).

(** [[lvl for lvl in levels if lvl.is_hit(mark)]] *)
Fixpoint hits (levels : list TakeProfitLevel.t) (mark : num_in) : result (list TakeProfitLevel.t) :=
  match levels with
  | [] => Ok []
  | l :: levels =>
      h ← TakeProfitLevel.is_hit l mark;
      hs ← hits levels mark;
      Ok (if (h : bool) then l :: hs else hs)
  end.

(** [max(hit, key=trigger_price)]: the first of the largest. *)
Definition highest (l : TakeProfitLevel.t) (hs : list TakeProfitLevel.t) : TakeProfitLevel.t :=
  fold_left (λ best x, if dltb (TakeProfitLevel.trigger_price best) (TakeProfitLevel.trigger_price x) then x else best) hs l.

Definition narrative_reason : string :=
  "narrative_failure: SLOW-loop reasoner forced a catastrophic exit (manufactured/abandoned sentiment)".

Definition evaluate (i : RuleInputs.t) : result RuleOutcome.t :=
  if RuleInputs.narrative_failure_flag i then _full_exit i NARRATIVE_FAILURE narrative_reason
  else
    breached ← StopState.is_breached (RuleInputs.stop i) (RuleInputs.mark_price i);
    if (breached : bool)
    then _full_exit i HARD_STOP ("hard_stop_breach: mark (" +:+ num_str (RuleInputs.mark_price i) +:+ ") <= fixed trigger ("
                                 +:+ dec_str (StopState.trigger_price (RuleInputs.stop i)) +:+ ")")
    else
      hit ← hits (RuleInputs.take_profit_levels i) (RuleInputs.mark_price i);
      match hit with
      | l :: hs => _scale_out i (highest l hs)
      | [] => Ok (RuleOutcome.mk RuleOutcomeKind.NO_OP None None
                    "no_rule_fired: holding (no narrative failure, no stop breach, no TP hit)")
      end.
End HierarchicalRiskRuleEngine.
Import HierarchicalRiskRuleEngine.

(** ** Rungs *)

Definition level_wf (l : TakeProfitLevel.t) : Prop := 1 ≤ TakeProfitLevel.fraction_bps l ≤ 9999.

Lemma level_new_wf tr f l : TakeProfitLevel.new tr f = Ok l → 0 < coef (TakeProfitLevel.trigger_price l) ∧ level_wf l.
Proof.
  unfold TakeProfitLevel.new. destruct tr as [d|z|]; cbn [mbind result_bind]; [| |done];
    (destruct (dleb _ d0) eqn:Ed; [done|]; destruct f as [f|]; [|done];
     destruct ((1 <=? f) && (f <=? 9999)) eqn:E; cbn [negb]; [|done]; intros [= <-]; apply dleb_zero_coef in Ed; unfold level_wf; bools;
     split; [exact Ed|cbn; lia]).
Qed.

Definition hit_at (mark : dec) (l : TakeProfitLevel.t) : Prop := dle (TakeProfitLevel.trigger_price l) mark.

Lemma hits_spec mark m levels : _to_decimal_price mark "mark_price" = Ok m →
  ∃ hs, hits levels mark = Ok hs ∧ ∀ l, l ∈ hs ↔ l ∈ levels ∧ hit_at m l.
Proof.
  intros Hm. induction levels as [|x levels (hs & Hhs & IH)]; cbn [hits].
  { exists []. split; [done|]. intros l. rewrite elem_of_nil. tauto. }
  unfold TakeProfitLevel.is_hit. rewrite Hm. cbn [mbind result_bind]. rewrite Hhs. cbn [mbind result_bind].
  eexists. split; [done|]. intros l. unfold hit_at in *. destruct (dleb (TakeProfitLevel.trigger_price x) m) eqn:E.
  - rewrite !elem_of_cons, IH. apply dleb_dle in E. naive_solver.
  - rewrite elem_of_cons, IH. split; [tauto|]. intros [[->|Hin] Hd]; [|done]. apply dleb_dle in Hd. congruence.
Qed.

Lemma highest_spec l hs : highest l hs ∈ l :: hs ∧
  ∀ x, x ∈ l :: hs → dle (TakeProfitLevel.trigger_price x) (TakeProfitLevel.trigger_price (highest l hs)).
Proof.
  unfold highest. revert l. induction hs as [|y hs IH]; intros l; cbn [fold_left].
  { split; [by left|]. intros x ->%list_elem_of_singleton. apply dle_refl. }
  destruct (dltb (TakeProfitLevel.trigger_price l) (TakeProfitLevel.trigger_price y)) eqn:E.
  - destruct (IH y) as [H1 H2]. split; [by right|]. intros x [->|Hx]%elem_of_cons; [|by apply H2].
    eapply dle_trans; [by apply dltb_dle|]. apply H2. by left.
  - destruct (IH l) as [H1 H2]. split.
    { apply elem_of_cons in H1 as [->|H1]; [by left|by right; right]. }
    intros x [->|[->|Hx]%elem_of_cons]%elem_of_cons; [apply H2; by left| |apply H2; by right].
    eapply dle_trans; [by apply dltb_false|]. apply H2. by left.
Qed.

(** ** What one evaluation does *)

(** The share of the remaining position an outcome sheds. *)
Definition shed (o : RuleOutcome.t) : Z :=
  match RuleOutcome.intent o with
  | Some (Exit e) => ExitIntent.fraction_bps e
  | Some (Reduce r) => ReduceIntent.fraction_bps r
  | _ => 0
  end.
Definition intent_mint (i : Intent) : string :=
  match i with
  | Entry e => EntryIntent.mint e | Exit e => ExitIntent.mint e | Reduce r => ReduceIntent.mint r | Intents.Veto v => VetoIntent.mint v
  end.

Section Tick.
Context (i : RuleInputs.t) (m : dec).
Context (Hm : _to_decimal_price (RuleInputs.mark_price i) "mark_price" = Ok m).
Context (Hl : Forall level_wf (RuleInputs.take_profit_levels i)).
Abbreviation flagged := (RuleInputs.narrative_failure_flag i = true).
Abbreviation breached := (dle m (StopState.trigger_price (RuleInputs.stop i))).

Lemma full_exit_eq p why : ∃ id, _full_exit i p why =
  Ok (RuleOutcome.mk RuleOutcomeKind.FULL_EXIT (Some (Exit (ExitIntent.mk id (RuleInputs.mint i) 10000 secure why))) (Some p) why).
Proof. unfold _full_exit. rewrite exit_new_ok by lia. by eexists. Qed.

Lemma scale_out_eq l : level_wf l → ∃ id why, _scale_out i l =
  Ok (RuleOutcome.mk RuleOutcomeKind.SCALE_OUT (Some (Reduce (ReduceIntent.mk id (RuleInputs.mint i) (TakeProfitLevel.fraction_bps l) why)))
        (Some TAKE_PROFIT) why).
Proof. intros H. unfold level_wf in H. unfold _scale_out. rewrite reduce_new_ok by lia. by do 2 eexists. Qed.

(** One tick follows the hierarchy and only sheds risk.  On a mark with a
    decimal value an outcome is returned: a set flag flattens whatever the
    mark; otherwise a mark at or below the stop flattens; otherwise the rung
    with the highest trigger among those the mark reached is scaled out by
    its fraction; otherwise nothing is done.  An intent is for the position's
    mint and can only shrink it, and only [NO_OP] carries none. *)
Theorem evaluate_follows_priority : ∃ o, evaluate i = Ok o ∧
  (flagged → RuleOutcome.priority o = Some NARRATIVE_FAILURE ∧ shed o = 10000) ∧
  (¬ flagged → breached → RuleOutcome.priority o = Some HARD_STOP ∧ shed o = 10000) ∧
  (¬ flagged → ¬ breached → ∀ l, l ∈ RuleInputs.take_profit_levels i → hit_at m l →
     ∃ best, best ∈ RuleInputs.take_profit_levels i ∧ hit_at m best ∧ shed o = TakeProfitLevel.fraction_bps best ∧
       RuleOutcome.priority o = Some TAKE_PROFIT ∧
       ∀ x, x ∈ RuleInputs.take_profit_levels i → hit_at m x →
         dle (TakeProfitLevel.trigger_price x) (TakeProfitLevel.trigger_price best)) ∧
  (RuleOutcome.kind o = RuleOutcomeKind.NO_OP ↔
     ¬ flagged ∧ ¬ breached ∧ ∀ l, l ∈ RuleInputs.take_profit_levels i → ¬ hit_at m l) ∧
  (RuleOutcome.is_exit o = true ↔ is_Some (RuleOutcome.intent o)) ∧
  (∀ it, RuleOutcome.intent o = Some it → de_risk it ∧ intent_mint it = RuleInputs.mint i).
Proof.
  unfold evaluate. destruct (RuleInputs.narrative_failure_flag i).
  { destruct (full_exit_eq NARRATIVE_FAILURE narrative_reason) as [id ->]. eexists. split; [done|]. cbn.
    split_and!; try done; try naive_solver. intros it [= <-]. cbn. split; [lia|done]. }
  unfold StopState.is_breached. rewrite Hm. cbn [mbind result_bind]. pose proof (dleb_dle m (StopState.trigger_price (RuleInputs.stop i))) as Hb.
  destruct (dleb m (StopState.trigger_price (RuleInputs.stop i))).
  { match goal with |- context [_full_exit i HARD_STOP ?w] => destruct (full_exit_eq HARD_STOP w) as [id ->] end.
    eexists. split; [done|]. cbn. split_and!; try done; try naive_solver. intros it [= <-]. cbn. split; [lia|done]. }
  assert (¬ breached) as Hnb by (intros H; by apply Hb in H).
  destruct (hits_spec _ _ (RuleInputs.take_profit_levels i) Hm) as (hs & -> & Hhs). cbn [mbind result_bind].
  destruct hs as [|l hs].
  { eexists. split; [done|]. cbn. split_and!; try done.
    - intros _ _ l Hin Hit. exfalso. by eapply not_elem_of_nil, Hhs.
    - split; [|done]. intros _. split_and!; [done|done|]. intros l Hin Hit. by eapply not_elem_of_nil, Hhs. }
  destruct (highest_spec l hs) as [H1 H2]. apply Hhs in H1 as [H1 H3].
  destruct (scale_out_eq (highest l hs)) as (id & why & ->); [rewrite Forall_forall in Hl; by apply Hl|].
  eexists. split; [done|]. cbn. split_and!; try done.
  - intros _ _ _ _ _. exists (highest l hs). split_and!; try done. intros x Hx Hit. apply H2. by apply Hhs.
  - split; [done|]. intros (_ & _ & Hno). by destruct (Hno _ H1 H3).
  - intros it [= <-]. cbn. rewrite Forall_forall in Hl. specialize (Hl _ H1). unfold level_wf in Hl. split; [lia|done].
Qed.
End Tick.

(** ** De-risking one's inputs *)

Definition with_stop (s : StopState.t) (i : RuleInputs.t) : RuleInputs.t :=
  RuleInputs.mk (RuleInputs.mint i) (RuleInputs.block_time_ms i) (RuleInputs.mark_price i) s
    (RuleInputs.narrative_failure_flag i) (RuleInputs.take_profit_levels i).
Definition with_flag (b : bool) (i : RuleInputs.t) : RuleInputs.t :=
  RuleInputs.mk (RuleInputs.mint i) (RuleInputs.block_time_ms i) (RuleInputs.mark_price i) (RuleInputs.stop i)
    b (RuleInputs.take_profit_levels i).

(** What is shed, as a function of the inputs. *)
Lemma evaluate_shed i m : _to_decimal_price (RuleInputs.mark_price i) "mark_price" = Ok m →
  Forall level_wf (RuleInputs.take_profit_levels i) →
  ∃ o, evaluate i = Ok o ∧ 0 ≤ shed o ≤ 10000 ∧
    (RuleInputs.narrative_failure_flag i || dleb m (StopState.trigger_price (RuleInputs.stop i)) = true → shed o = 10000) ∧
    (RuleInputs.narrative_failure_flag i || dleb m (StopState.trigger_price (RuleInputs.stop i)) = false →
      ∃ hs, hits (RuleInputs.take_profit_levels i) (RuleInputs.mark_price i) = Ok hs ∧
        shed o = match hs with [] => 0 | l :: hs => TakeProfitLevel.fraction_bps (highest l hs) end).
Proof.
  intros Hm Hl. unfold evaluate. destruct (RuleInputs.narrative_failure_flag i); cbn [orb].
  { destruct (full_exit_eq i NARRATIVE_FAILURE narrative_reason) as [id ->]. eexists. split; [done|]. cbn. split_and!; try done; lia. }
  unfold StopState.is_breached. rewrite Hm. cbn [mbind result_bind]. destruct (dleb m _).
  { match goal with |- context [_full_exit i HARD_STOP ?w] => destruct (full_exit_eq i HARD_STOP w) as [id ->] end.
    eexists. split; [done|]. cbn. split_and!; try done; lia. }
  destruct (hits_spec _ _ (RuleInputs.take_profit_levels i) Hm) as (hs & -> & Hhs). cbn [mbind result_bind].
  destruct hs as [|l hs]; [eexists; split; [done|]; cbn; split_and!; try done; try lia; intros _; by exists []|].
  destruct (highest_spec l hs) as [H1 _]. apply Hhs in H1 as [H1 _]. rewrite Forall_forall in Hl. specialize (Hl _ H1).
  destruct (scale_out_eq i (highest l hs) Hl) as (id & why & ->). unfold level_wf in Hl.
  eexists. split; [done|]. cbn. split_and!; try done; try lia. intros _. by exists (l :: hs).
Qed.

(** What makes an input safer never makes the engine shed less.  Setting the
    flag flattens, and after [StopState.tighten] the same mark sheds at least
    as much as before. *)
Theorem safer_inputs_shed_no_less i m stop' p o :
  _to_decimal_price (RuleInputs.mark_price i) "mark_price" = Ok m →
  Forall level_wf (RuleInputs.take_profit_levels i) →
  stop_wf (RuleInputs.stop i) → StopState.tighten (RuleInputs.stop i) p = Ok stop' →
  evaluate i = Ok o →
  (∃ o', evaluate (with_flag true i) = Ok o' ∧ shed o' = 10000 ∧ shed o ≤ shed o') ∧
  (∃ o', evaluate (with_stop stop' i) = Ok o' ∧ shed o ≤ shed o').
Proof.
  intros Hm Hl Hw Ht Ho. destruct (tighten_cases _ _ _ Hw Ht) as (_ & Hle & _).
  destruct (evaluate_shed i m Hm Hl) as (o1 & E1 & B1 & F1 & N1). rewrite Ho in E1. injection E1 as <-. split.
  - destruct (evaluate_shed (with_flag true i) m Hm Hl) as (o2 & E2 & _ & F2 & _). exists o2. rewrite (F2 eq_refl). split_and!; [done|done|lia].
  - destruct (evaluate_shed (with_stop stop' i) m Hm Hl) as (o2 & E2 & B2 & F2 & N2). exists o2. split; [done|].
    cbn [with_stop RuleInputs.narrative_failure_flag RuleInputs.stop RuleInputs.mark_price RuleInputs.take_profit_levels] in *.
    destruct (RuleInputs.narrative_failure_flag i || dleb m (StopState.trigger_price stop')) eqn:E; [rewrite (F2 eq_refl); lia|].
    apply orb_false_iff in E as [Ef Es]. rewrite Ef in *. cbn [orb] in *.
    assert (dleb m (StopState.trigger_price (RuleInputs.stop i)) = false) as Es'.
    { apply not_true_iff_false. intros H%dleb_dle. apply not_true_iff_false in Es. apply Es, dleb_dle. by eapply dle_trans. }
    destruct (N1 Es') as (hs & Eh & ->). destruct (N2 eq_refl) as (hs' & Eh' & ->). rewrite Eh in Eh'. by injection Eh' as <-.
Qed.

(** The hard-stop rule and the Layer-2 enforcer agree.  On the stop the
    enforcer holds for the mint and the same mark, with no narrative flag, the
    engine's outcome is a hard stop exactly when the enforcer decides to
    fire, and where the mark has no decimal value both raise alike. *)
Theorem hard_stop_agrees_with_enforcer i w reg :
  dget (RuleInputs.mint i) (_stops w) = Some reg → r_stop reg = RuleInputs.stop i →
  RuleInputs.narrative_failure_flag i = false → Forall level_wf (RuleInputs.take_profit_levels i) →
  match decide w (MarkTick.mk (RuleInputs.mint i) (RuleInputs.mark_price i) (RuleInputs.block_time_ms i)) with
  | Ok fire => ∃ o, evaluate i = Ok o ∧ (RuleOutcome.priority o = Some HARD_STOP ↔ fire = true)
  | Raise e => evaluate i = Raise e
  end.
Proof.
  intros Hreg Hs Hf Hl. unfold decide; cbn. rewrite Hreg, Hs.
  unfold StopState.is_breached. destruct (_to_decimal_price (RuleInputs.mark_price i) "mark_price") as [m|e] eqn:Hm.
  2:{ cbn [mbind result_bind]. unfold evaluate, StopState.is_breached. by rewrite Hf, Hm. }
  cbn [mbind result_bind]. unfold evaluate, StopState.is_breached. rewrite Hf, Hm. cbn [mbind result_bind].
  destruct (dleb m _).
  - match goal with |- context [_full_exit i HARD_STOP ?x] => destruct (full_exit_eq i HARD_STOP x) as [id ->] end. eexists. by split.
  - destruct (hits_spec _ _ (RuleInputs.take_profit_levels i) Hm) as (hs & -> & Hhs). cbn [mbind result_bind].
    destruct hs as [|l hs]; [eexists; by split|]. destruct (highest_spec l hs) as [H1 _]. apply Hhs in H1 as [H1 _].
    rewrite Forall_forall in Hl. destruct (scale_out_eq i (highest l hs) (Hl _ H1)) as (id & why & ->). eexists. by split.
Qed.

(** *** Witnesses: an entry at 100, a stop at 60 and rungs at 150 and 200. *)

Definition stop60 : StopState.t := StopState.mk "M" (dec_of_Z 100) (dec_of_Z 60) StopThresholds.default.
Definition rungs : list TakeProfitLevel.t := [TakeProfitLevel.mk (dec_of_Z 150) 3000; TakeProfitLevel.mk (dec_of_Z 200) 5000].
Definition tick_at (mark : Z) : RuleInputs.t := RuleInputs.mk "M" 7 (NInt mark) stop60 false rungs.

Lemma rungs_wf : Forall level_wf rungs.
Proof. repeat constructor; cbn; lia. Qed.

Example sheds : map (λ mark, match evaluate (tick_at mark) with Ok o => shed o | Raise _ => -1 end) [60; 61; 150; 300]
  = [10000; 0; 3000; 5000].
Proof. vm_compute. reflexivity. Qed.

Lemma evaluate_follows_priority_witness : ∃ o, evaluate (tick_at 300) = Ok o ∧
  ∃ best, best ∈ rungs ∧ shed o = TakeProfitLevel.fraction_bps best.
Proof.
  destruct (evaluate_follows_priority (tick_at 300) (dec_of_Z 300) eq_refl rungs_wf) as (o & E & _ & _ & H & _).
  exists o. split; [exact E|].
  destruct (H ltac:(done) ltac:(by rewrite <- dleb_dle; vm_compute) (TakeProfitLevel.mk (dec_of_Z 150) 3000)) as (best & H1 & _ & H2 & _).
  - by left.
  - apply dleb_dle. vm_compute. reflexivity.
  - by exists best.
Defined.

Lemma safer_inputs_shed_no_less_witness : ∃ o',
  evaluate (with_stop (StopState.mk "M" (dec_of_Z 100) (dec_of_Z 90) StopThresholds.default) (tick_at 80)) = Ok o' ∧ 0 ≤ shed o'.
Proof.
  destruct (evaluate (tick_at 80)) as [o|] eqn:E; [|vm_compute in E; discriminate E].
  destruct (safer_inputs_shed_no_less (tick_at 80) (dec_of_Z 80) (StopState.mk "M" (dec_of_Z 100) (dec_of_Z 90) StopThresholds.default)
    (NInt 90) o eq_refl rungs_wf ltac:(vm_compute; reflexivity) ltac:(vm_compute; reflexivity) E) as [_ (o' & H1 & H2)].
  exists o'. split; [exact H1|]. vm_compute in E. injection E as <-. exact H2.
Defined.

Lemma hard_stop_agrees_witness : ∃ o, evaluate (tick_at 60) = Ok o ∧ RuleOutcome.priority o = Some HARD_STOP.
Proof.
  pose (reg := mk_registered stop60 (Position.mk "M" "M" "EH-001" OPEN 7 100 1000 0 "default" secure 0 2 false 60 None 0
    (CostStack.mk 400 1 1 1 1 1 150 300) st_open complete)).
  destruct (hard_stop_agrees_with_enforcer (tick_at 60) (mk_wiring [("M", reg)] 0 None [] None None) reg eq_refl eq_refl eq_refl rungs_wf)
    as (o & H1 & H2).
  exists o. split; [exact H1|]. by apply H2.
Defined.
