(* ===== verification/FastLoop.v ===== *)
(** * The position loop: [aats/controller/fast_loop.py]

    The registry maps a mint to a [PositionFSM] object; objects live in a heap
    of wrapped positions, so that the reference a tick holds and the one the
    registry holds are the same object even after the registry drops it.  The
    price feed, the venue's answers, the wall clock and the order in which a
    set of strings is iterated are parameters. *)

From Stdlib Require Import Ascii.
From S2P Require Import Prelude Decimal RiskContracts CircuitBreaker Bytes Sha256 SurvivableStop Intents ExitEngine Positions StateStore Fsm Enforcer.

(** ** [Decimal(s)] of a string *)

Definition digit_of (c : ascii) : option Z :=
  let n := Z.of_nat (nat_of_ascii c) in if (48 <=? n) && (n <=? 57) then Some (n - 48) else None.

(** The digits a string starts with: their value, their number, the rest. *)
Fixpoint span_digits (s : string) (acc n : Z) : Z * Z * string :=
  match s with
  | String c s' => match digit_of c with Some d => span_digits s' (acc * 10 + d) (n + 1) | None => (acc, n, s) end
  | EmptyString => (acc, n, s)
  end.

Definition is_sign (c : ascii) : option Z :=
  if bool_decide (c = "-"%char) then Some (-1) else if bool_decide (c = "+"%char) then Some 1 else None.
Definition take_sign (s : string) : Z * string :=
  match s with String c s' => match is_sign c with Some z => (z, s') | None => (1, s) end | EmptyString => (1, s) end.

Definition parse_exponent (s : string) : option Z :=
  match s with
  | EmptyString => Some 0
  | String c s' =>
      if bool_decide (c = "e"%char) || bool_decide (c = "E"%char) then
        let '(sg, s'') := take_sign s' in
        let '(e, n, rest) := span_digits s'' 0 0 in
        if (0 <? n) && bool_decide (rest = "") then Some (sg * e) else None
      else None
  end.

(** Finite numerals, without surrounding blanks or underscores; "NaN" and
    "Infinity", which no venue answers, are rejected with the rest. *)
Definition parse_decimal (s : string) : option dec :=
  let '(sg, s1) := take_sign s in
  let '(i, ni, s2) := span_digits s1 0 0 in
  let '(c, nf, s3) := match s2 with
                      | String ch s' => if bool_decide (ch = "."%char) then span_digits s' i 0 else (i, 0, s2)
                      | EmptyString => (i, 0, s2)
                      end in
  if ni + nf <=? 0 then None
  else e ← parse_exponent s3; Some (mkdec (sg * c) (e - nf)).

Example parse_decimal_1 : parse_decimal "-12.50E-3" = Some (mkdec (-1250) (-5)) ∧ parse_decimal "." = None ∧ parse_decimal "1x" = None.
Proof. done. Qed.

(** ** State *)

Record FastWorld : Type := mk_fast {
  f_store : StateStore;
  f_objs : list Position.t;
  _fsm_registry : dict nat;
  _exit_states : dict ExitState.t;
  _breaker : Breaker;
  _enforcer_wiring : option Wiring;
  f_exits : exit_log
}.
Definition set_store s w := mk_fast s (f_objs w) (_fsm_registry w) (_exit_states w) (_breaker w) (_enforcer_wiring w) (f_exits w).
Definition set_registry r w := mk_fast (f_store w) (f_objs w) r (_exit_states w) (_breaker w) (_enforcer_wiring w) (f_exits w).
Definition set_exit_states x w := mk_fast (f_store w) (f_objs w) (_fsm_registry w) x (_breaker w) (_enforcer_wiring w) (f_exits w).
Definition set_wiring x w := mk_fast (f_store w) (f_objs w) (_fsm_registry w) (_exit_states w) (_breaker w) x (f_exits w).
Definition set_exits x w := mk_fast (f_store w) (f_objs w) (_fsm_registry w) (_exit_states w) (_breaker w) (_enforcer_wiring w) x.

Record FastLoop : Type := mk_fast_loop { _exit_config : ExitConfig.t; _tick_budget_ms : Z; _cooldown_seconds : Z }.

Section Loop.
Context (_clock : nat → Z) (loop : FastLoop).
Context (venue_exit : exit_log → Intent → Position.t → result FillResult.t).
Context (get_mark_price : string → Z → option dec).
Context (_wall_epoch_ms : Z → Z) (hb_fails : Heartbeat.t → option string).
Context (set_order : list string → list string).

Definition in_store {A} (m : M StateStore A) : M FastWorld A := λ w,
  let '(r, s) := m (f_store w) in (r, set_store s w).

(** [PositionFSM(self._store, pos)] *)
Definition new_fsm (p : Position.t) : M FastWorld nat := λ w,
  (Ok (length (f_objs w)),
   mk_fast (f_store w) (f_objs w ++ [p]) (_fsm_registry w) (_exit_states w) (_breaker w) (_enforcer_wiring w) (f_exits w)).

Definition fsm_position (fsm : nat) : M FastWorld Position.t := λ w,
  match f_objs w !! fsm with Some p => (Ok p, w) | None => (Raise (RuntimeError "no such object"), w) end.

(** A method call on the object. *)
Definition on_fsm (fsm : nat) (op : fsm_op) : M FastWorld unit := λ w,
  match f_objs w !! fsm with
  | None => (Raise (RuntimeError "no such object"), w)
  | Some p =>
      let '(r, f) := exec op (mk_fsm (f_store w) p) in
      (r, mk_fast (_store f) (<[fsm := _position f]> (f_objs w)) (_fsm_registry w) (_exit_states w) (_breaker w)
            (_enforcer_wiring w) (f_exits w))
  end.

(** [try: m except ValueError] *)
Definition catch_value_error (m : M FastWorld unit) : M FastWorld unit := λ w,
  match m w with (Raise (ValueError _), w') => (Ok tt, w') | rw => rw end.

Definition exit (intent : Intent) (p : Position.t) : M FastWorld FillResult.t := λ w,
  let '(r, l) := exit_call venue_exit (f_exits w) intent p in (r, set_exits l w).

Definition registry_pop (mint : string) : M FastWorld unit := modify (λ w, set_registry (dpop mint (_fsm_registry w)) w).
Definition registry_set (mint : string) (fsm : nat) : M FastWorld unit :=
  modify (λ w, set_registry (dset mint fsm (_fsm_registry w)) w).
Definition exit_states_pop (mint : string) : M FastWorld unit := modify (λ w, set_exit_states (dpop mint (_exit_states w)) w).
Definition exit_states_set (mint : string) (x : ExitState.t) : M FastWorld unit :=
  modify (λ w, set_exit_states (dset mint x (_exit_states w)) w).
(** [if self._enforcer_wiring is not None: ...deregister(mint)] *)
Definition wiring_deregister (mint : string) : M FastWorld unit :=
  modify (λ w, set_wiring (deregister mint <$> _enforcer_wiring w) w).

(** ** [FastLoopFlattenHandler] *)

Definition _flatten_position (pos : Position.t) (reason : string) : M FastWorld unit :=
  let mint := Position.mint pos in
  w ← get;
  match Position.fsm_state pos with
  | ENTERING =>
      fsm ← match dget mint (_fsm_registry w) with Some fsm => mret fsm | None => new_fsm pos end;
      catch_value_error (on_fsm fsm ToVetoed);;
      registry_pop mint
  | OPEN | CLOSING =>
      let intent_id := make_client_intent_id mint (Position.entry_slot pos) "EMERGENCY_EXIT" in
      exit_intent ← lift (ExitIntent.new intent_id mint 10000 secure ("emergency_flatten:" +:+ reason));
      fill ← exit (Exit exit_intent) pos;
      w ← get;
      match dget mint (_fsm_registry w) with
      | None => mret tt
      | Some fsm =>
          (if bool_decide (Position.fsm_state pos = OPEN) then catch_value_error (on_fsm fsm ToClosing) else mret tt);;
          (if FillResult.landed fill then catch_value_error (on_fsm fsm (ToClosed (PyInt 0))) else mret tt)
      end
  | _ => mret tt
  end.

Fixpoint flatten_each (positions : list Position.t) (reason : string) : M FastWorld unit :=
  match positions with
  | [] => mret tt
  | pos :: positions => _flatten_position pos reason;; flatten_each positions reason
  end.

Definition emergency_flatten_all (reason : string) : M FastWorld unit :=
  positions ← in_store load_all_positions;
  flatten_each positions reason.

Definition flatten_one (mint reason : string) : M FastWorld bool :=
  pos ← in_store (load_position mint);
  match pos with
  | None => mret false
  | Some pos => _flatten_position pos reason;; mret true
  end.

(** ** The breaker with this loop as its flatten handler

    [record_pnl] calls the handler at most once, in the world it was called
    in; the breaker and the loop share no other state. *)
Definition set_brk b w := mk_fast (f_store w) (f_objs w) (_fsm_registry w) (_exit_states w) b (_enforcer_wiring w) (f_exits w).

Definition breaker_record_pnl (event : PnLEvent.t) : M FastWorld BreakerState.t := λ w,
  let '(r, b) := record_pnl (λ reason, fst (emergency_flatten_all reason w)) event (_breaker w) in
  let w' := match drop (length (_flattened (_breaker w))) (_flattened b) with
            | reason :: _ => snd (emergency_flatten_all reason w)
            | [] => w
            end in
  (r, set_brk b w').

(** ** Exits *)

Definition _force_exit (fsm : nat) (reason : string) : M FastWorld unit :=
  pos ← fsm_position fsm;
  let intent_id := make_client_intent_id (Position.mint pos) (Position.entry_slot pos) "FORCE_EXIT" in
  exit_intent ← lift (ExitIntent.new intent_id (Position.mint pos) 10000 secure reason);
  exit (Exit exit_intent) pos;;
  catch_value_error (on_fsm fsm ToClosing;; on_fsm fsm (ToClosed (PyInt 0)));;
  registry_pop (Position.mint pos);;
  exit_states_pop (Position.mint pos);;
  wiring_deregister (Position.mint pos);;
  in_store (set_cooldown _clock (Position.mint pos) (_cooldown_seconds loop)).

Definition _do_full_exit (fsm : nat) (intent : Intent) : M FastWorld unit :=
  pos ← fsm_position fsm;
  exit intent pos;;
  catch_value_error (on_fsm fsm ToClosing;; on_fsm fsm (ToClosed (PyInt 0)));;
  registry_pop (Position.mint pos);;
  exit_states_pop (Position.mint pos);;
  wiring_deregister (Position.mint pos);;
  in_store (set_cooldown _clock (Position.mint pos) (_cooldown_seconds loop)).

Definition _do_scale_out (fsm : nat) (intent : Intent) : M FastWorld unit :=
  pos ← fsm_position fsm;
  exit intent pos;; mret tt.

Definition _estimate_entry_price (pos : Position.t) : result dec :=
  if 0 <? Position.tokens_out_base pos
  then ddiv (dec_of_Z (Position.sol_in_lamports pos)) (dec_of_Z (Position.tokens_out_base pos))
  else Ok (dec_of_Z 1).

(** ** Synchronisation with the store *)

(** [{p.mint: p for p in positions}] *)
Definition by_mint (ps : list Position.t) : dict Position.t := foldl (λ d p, dset (Position.mint p) p d) [] ps.

Fixpoint sync_add (items : list (string * Position.t)) : M FastWorld unit :=
  match items with
  | [] => mret tt
  | (mint, pos) :: items =>
      w ← get;
      match dget mint (_fsm_registry w) with
      | Some _ => sync_add items
      | None =>
          fsm ← new_fsm pos;
          registry_set mint fsm;;
          (if bool_decide (Position.fsm_state pos = OPEN) && negb (present (dget mint (_exit_states w))) then
             entry_price ← lift (_estimate_entry_price pos);
             st ← lift (ExitState.at_entry mint (NDec entry_price) (_exit_config loop));
             exit_states_set mint st
           else mret tt);;
          sync_add items
      end
  end.

Fixpoint sync_remove (stale : list string) : M FastWorld unit :=
  match stale with
  | [] => mret tt
  | mint :: stale => registry_pop mint;; exit_states_pop mint;; sync_remove stale
  end.

Definition _sync_registry : M FastWorld unit :=
  positions ← in_store load_all_positions;
  let store_positions := by_mint positions in
  sync_add store_positions;;
  w ← get;
  sync_remove (filter (λ m, dget m store_positions = None) (_fsm_registry w).*1).

(** ** Fill reconciliation *)

(** [try: fsm.transition_to_open(fill) except ValueError: return False] *)
Definition try_open (fsm : nat) (fill : FillResult.t) : M FastWorld bool := λ w,
  match on_fsm fsm (ToOpen fill) w with
  | (Ok _, w') => (Ok true, w')
  | (Raise (ValueError _), w') => (Ok false, w')
  | (Raise e, w') => (Raise e, w')
  end.

Definition entry_fill_price (fill : FillResult.t) : result dec :=
  if bool_decide (FillResult.effective_price_decimal fill = "0") then Ok (dec_of_Z 1)
  else decimal_of_str (parse_decimal (FillResult.effective_price_decimal fill)).

(** Calls on the wiring object, and on the wiring with the venue. *)
Definition run_wiring {A} (wiring : Wiring) (m : M Wiring A) : M FastWorld A := λ w,
  let '(r, wiring') := m wiring in (r, set_wiring (Some wiring') w).
Definition run_enf {A} (wiring : Wiring) (m : M Enf A) : M FastWorld A := λ w,
  let '(r, e) := m (mk_enf wiring (f_exits w)) in (r, set_exits (e_exits e) (set_wiring (Some (e_wiring e)) w)).

(** [self._enforcer_wiring.arm(...)] when one is wired. *)
Definition arm_stop (mint : string) (entry_price : dec) (fsm : nat) : M FastWorld unit :=
  p ← fsm_position fsm;
  w ← get;
  match _enforcer_wiring w with
  | None => mret tt
  | Some wiring => run_wiring wiring (arm mint (NDec entry_price) p None);; mret tt
  end.

Definition veto_entering (mint : string) (pos : Position.t) : M FastWorld bool :=
  w ← get;
  fsm ← (match dget mint (_fsm_registry w) with
         | Some fsm => mret fsm
         | None => fsm ← new_fsm pos; registry_set mint fsm;; mret fsm
         end : M FastWorld nat);
  catch_value_error (on_fsm fsm ToVetoed);;
  registry_pop mint;;
  exit_states_pop mint;;
  in_store (set_cooldown _clock mint (_cooldown_seconds loop));;
  mret true.

Definition open_entering (mint : string) (pos : Position.t) (fill : FillResult.t) : M FastWorld bool :=
  w ← get;
  fsm ← (match dget mint (_fsm_registry w) with Some fsm => mret fsm | None => new_fsm pos end : M FastWorld nat);
  opened ← try_open fsm fill;
  if negb opened then mret false
  else
    registry_set mint fsm;;
    entry_price ← lift (entry_fill_price fill);
    st ← lift (ExitState.at_entry mint (NDec entry_price) (_exit_config loop));
    exit_states_set mint st;;
    arm_stop mint entry_price fsm;;
    mret true.

Definition reconcile_fill (mint : string) (fill : FillResult.t) : M FastWorld bool :=
  pos ← in_store (load_position mint);
  match pos with
  | None => mret false
  | Some pos =>
      if negb (bool_decide (Position.fsm_state pos = ENTERING)) then mret false
      else if negb (FillResult.landed fill) then veto_entering mint pos
      else open_entering mint pos fill
  end.

(** ** One tick *)

(** What one position contributes: actions and marks for the enforcer. *)
Definition tick_out : Type := list string * list (string * dec * Z).

(** Unrealised PnL into the record and the breaker. *)
Definition update_pnl (mint : string) (fsm : nat) (pos : Position.t) (exit_state : ExitState.t) (mark : dec)
    (block_time_ms : Z) : M FastWorld unit :=
  if dltb d0 (ExitState.entry_fill_price exit_state) && (0 <? Position.tokens_out_base pos) then
    let unrealized := dec_int (dmul (dsub mark (ExitState.entry_fill_price exit_state))
                                    (dec_of_Z (Position.tokens_out_base pos))) in
    let old_unrealized := Position.unrealized_pnl_net_lamports pos in
    on_fsm fsm (Unrealized (PyInt unrealized));;
    pnl_event ← lift (PnLEvent.__post_init__ mint (PyInt block_time_ms) (PyInt (unrealized - old_unrealized))
                        "unrealized" None);
    st ← breaker_record_pnl pnl_event;
    in_store (save_breaker_state st)
  else mret tt.

Definition act_on (mint : string) (fsm : nat) (decision : ExitDecision) : M FastWorld (list string) :=
  match d_intent decision with
  | None => mret []
  | Some intent =>
      if is_full_exit decision then
        _do_full_exit fsm intent;;
        mret ["exit:full:" +:+ mint +:+ ":" +:+ reason_value (d_reason decision)]
      else
        _do_scale_out fsm intent;;
        on_fsm fsm TpHit;;
        mret ["exit:scale_out:" +:+ mint +:+ ":" +:+ reason_value (d_reason decision)]
  end.

(** The body for an open position with a mark. *)
Definition evaluate (mint : string) (fsm : nat) (pos : Position.t) (mark : dec) (block_time_ms : Z) : M FastWorld (list string) :=
  narrative_failure ← in_store (get_narrative_failure_flag _clock mint);
  insider_dump ← in_store (get_insider_dump_flag _clock mint);
  sellability_degraded ← in_store (get_sellability_degraded_flag _clock mint);
  lp_unlock_approaching ← in_store (get_lp_unlock_approaching_flag _clock mint);
  w ← get;
  match dget mint (_exit_states w) with
  | None => mret []
  | Some exit_state =>
      decision ← lift (on_tick (_exit_config loop) exit_state
        (mk_tick (NDec mark) (PyInt block_time_ms) narrative_failure insider_dump sellability_degraded
           lp_unlock_approaching None));
      exit_states_set mint (d_next_state decision);;
      update_pnl mint fsm pos exit_state mark block_time_ms;;
      act_on mint fsm decision
  end.

Definition tick_mint (mint : string) (block_time_ms current_slot : Z) : M FastWorld tick_out :=
  w ← get;
  match dget mint (_fsm_registry w) with
  | None => mret ([], [])
  | Some fsm =>
      pos ← fsm_position fsm;
      if negb (bool_decide (Position.fsm_state pos = OPEN)) then mret ([], [])
      else
        match get_mark_price mint current_slot with
        | None =>
            wiring_deregister mint;;
            _force_exit fsm "mark_price_unavailable";;
            mret (["exit:mark_unavailable:" +:+ mint], [])
        | Some mark =>
            actions ← evaluate mint fsm pos mark block_time_ms;
            w ← get;
            mret (actions, match _enforcer_wiring w with Some _ => [(mint, mark, block_time_ms)] | None => [] end)
        end
  end.

Fixpoint tick_mints (mints : list string) (block_time_ms current_slot : Z) : M FastWorld tick_out :=
  match mints with
  | [] => mret ([], [])
  | mint :: mints =>
      o1 ← tick_mint mint block_time_ms current_slot;
      o2 ← tick_mints mints block_time_ms current_slot;
      mret (o1.1 ++ o2.1, o1.2 ++ o2.2)
  end.

(** The bookkeeping for the stops the enforcer fired. *)
Fixpoint close_fired (fired : list string) : M FastWorld (list string) :=
  match fired with
  | [] => mret []
  | mint :: fired =>
      w ← get;
      actions ← (match dget mint (_fsm_registry w) with
                 | None => mret []
                 | Some fsm =>
                     catch_value_error (on_fsm fsm ToClosing;; on_fsm fsm (ToClosed (PyInt 0)));;
                     registry_pop mint;;
                     exit_states_pop mint;;
                     in_store (set_cooldown _clock mint (_cooldown_seconds loop));;
                     mret ["exit:layer2_stop:" +:+ mint]
                 end : M FastWorld (list string));
      rest ← close_fired fired;
      mret (actions ++ rest)
  end.

Definition enforcer_phase (ticks : list (string * dec * Z)) : M FastWorld (list string) :=
  w ← get;
  match _enforcer_wiring w with
  | None => mret []
  | Some wiring =>
      run_enf wiring (wiring_on_tick venue_exit _wall_epoch_ms hb_fails ticks);;
      w ← get;
      let after := match _enforcer_wiring w with Some wiring' => armed_mints wiring' | None => [] end in
      close_fired (set_order (filter (λ m, m ∉ after) (armed_mints wiring)))
  end.

Definition tick (block_time_ms current_slot start_wall_ms end_wall_ms : Z) : M FastWorld (list string) :=
  in_store (emit_heartbeat _clock block_time_ms);;
  _sync_registry;;
  w ← get;
  o ← tick_mints (_fsm_registry w).*1 block_time_ms current_slot;
  layer2 ← enforcer_phase o.2;
  let elapsed_ms := end_wall_ms - start_wall_ms in
  let breach := if _tick_budget_ms loop <? elapsed_ms then ["budget_breach:" +:+ pretty elapsed_ms +:+ "ms"] else [] in
  mret (o.1 ++ layer2 ++ breach).

Definition get_open_positions (w : FastWorld) : list Position.t :=
  omap (λ fsm, f_objs w !! fsm) (_fsm_registry w).*2.
End Loop.

(** ** Everything the loop does comes from a position it already had *)

(** Same mint and stake, and a state reached along legal edges. *)
Definition descends (p p' : Position.t) : Prop :=
  Position.mint p' = Position.mint p ∧ Position.sol_in_lamports p' = Position.sol_in_lamports p ∧
  Position.tokens_out_base p' = Position.tokens_out_base p ∧ Position.entry_slot p' = Position.entry_slot p ∧
  reaches (Position.fsm_state p) (Position.fsm_state p').

Lemma descends_refl p : descends p p.
Proof. split_and!; try done. apply reaches_refl. Qed.

Lemma descends_trans p q r : descends p q → descends q r → descends p r.
Proof. intros (?&?&?&?&?) (?&?&?&?&?). split_and!; try congruence. by eapply reaches_trans. Qed.

(** A call other than [transition_to_open] keeps the stake, and stores at most
    the object's new record. *)
Lemma exec_descends op f (P : Position.t → Prop) :
  (∀ fill, op ≠ ToOpen fill) →
  (∀ p, descends (_position f) p → P p) → Forall P (_positions (_store f)).*2 →
  descends (_position f) (_position (snd (exec op f))) ∧ Forall P (_positions (_store (snd (exec op f)))).*2.
Proof.
  intros Hop HP HF. pose proof (exec_reaches op f) as Hr. unfold fsm_now in Hr.
  assert (descends (_position f) (_position (snd (exec op f)))) as Hd.
  { split_and!; try exact Hr; destruct op; try (by edestruct Hop); destruct f as [s p]; cbn [exec];
      unfold transition_to_vetoed, transition_to_closing, transition_to_closed, update_unrealized_pnl, record_tp_hit,
        arm_trailing; fsm_step; repeat case_match; simplify_eq; done. }
  split; [done|]. specialize (HP _ Hd). revert HP. clear Hr Hd.
  destruct op; try (by edestruct Hop); destruct f as [s p]; cbn [exec];
    unfold transition_to_vetoed, transition_to_closing, transition_to_closed, update_unrealized_pnl, record_tp_hit,
      arm_trailing; fsm_step; repeat case_match; simplify_eq; cbn; intros HP; auto using Forall_dset, Forall_dpop.
Qed.

(** Whatever the state, an intent the engine emits only sheds risk. *)
Definition sheds (r : result ExitDecision) : Prop := ∀ d i, r = Ok d → d_intent d = Some i → de_risk i.

Lemma sheds_bind {A} (r : result A) (f : A → result ExitDecision) : (∀ a, sheds (f a)) → sheds (r ≫= f).
Proof. intros H. destruct r; [apply H|done]. Qed.
Lemma sheds_raise e : sheds (Raise e).
Proof. done. Qed.
Lemma sheds_hold s : sheds (_hold s).
Proof. by intros d i [= <-]. Qed.
Lemma sheds_emit reason i0 s n m : de_risk i0 → sheds (Ok (mk_decision reason (Some i0) s n m)).
Proof. by intros H d i [= <-] [= <-]. Qed.
Lemma factory_exit_ok id mint f m r i : DeRiskIntentFactory.exit id mint f m r = Ok i → de_risk i.
Proof.
  unfold DeRiskIntentFactory.exit, ExitIntent.new, ExitIntent._fraction_range.
  destruct ((0 <=? f) && (f <=? 10000)) eqn:E; [|done]. bools. cbn. intros [= <-]. cbn. lia.
Qed.
Lemma factory_reduce_ok id mint f r i : DeRiskIntentFactory.reduce id mint f r = Ok i → de_risk i.
Proof.
  unfold DeRiskIntentFactory.reduce, ReduceIntent.new, ReduceIntent._fraction_range.
  destruct ((1 <=? f) && (f <=? 10000)) eqn:E; [|done]. bools. cbn. intros [= <-]. cbn. lia.
Qed.
Lemma sheds_full s bt reason detail : sheds (_full_exit s bt reason detail).
Proof.
  unfold _full_exit. destruct (DeRiskIntentFactory.exit _ _ _ _ _) as [i|] eqn:E; [|done]. apply factory_exit_ok in E.
  cbn -[ExitState._replace]. apply sheds_bind. intros a. by apply sheds_emit.
Qed.
Lemma sheds_scale cfg s bt idx : sheds (_scale_out cfg s bt idx).
Proof.
  unfold _scale_out. destruct (_ !! idx) as [rung|]; [|apply sheds_raise]. cbn zeta. apply sheds_bind. intros s1.
  destruct (_ <=? 0).
  - destruct (DeRiskIntentFactory.exit _ _ _ _ _) as [i|] eqn:E; [|done]. apply factory_exit_ok in E.
    cbn -[ExitState._replace]. apply sheds_bind. intros s2. by apply sheds_emit.
  - destruct (DeRiskIntentFactory.reduce _ _ _ _) as [i|] eqn:E; [|done]. apply factory_reduce_ok in E. by apply sheds_emit.
Qed.
Lemma sheds_rules cfg s r mark bt t score : sheds (rules cfg s r mark bt t score).
Proof.
  unfold rules. do 4 (destruct (_ t); [apply sheds_full|]). apply sheds_bind. intros [|]; [apply sheds_full|].
  destruct (_ && _); [apply sheds_full|]. apply sheds_bind. intros f. destruct (breaches_trail _ _); [apply sheds_full|].
  destruct (_ <=? _); [apply sheds_full|]. apply sheds_bind. intros [det|]; [apply sheds_full|].
  destruct (_highest_hit_rung _ _ _); [apply sheds_scale|apply sheds_hold].
Qed.
Lemma on_tick_de_risk cfg st t d i : on_tick cfg st t = Ok d → d_intent d = Some i → de_risk i.
Proof.
  revert d i. change (sheds (on_tick cfg st t)). unfold on_tick. destruct (block_time_ms t); [|done].
  destruct (_ <? 0); [done|]. apply sheds_bind. intros score. apply sheds_bind. intros mark.
  destruct (_ <=? 0); [apply sheds_hold|]. apply sheds_bind. intros r. apply sheds_bind. intros s. apply sheds_rules.
Qed.

Section Provenance.
Context (_clock : nat → Z) (loop : FastLoop).
Context (venue_exit : exit_log → Intent → Position.t → result FillResult.t).
Context (get_mark_price : string → Z → option dec).
Context (_wall_epoch_ms : Z → Z) (hb_fails : Heartbeat.t → option string).
Context (set_order : list string → list string).

Definition wiring_positions (w : FastWorld) : list Position.t :=
  match _enforcer_wiring w with Some x => r_position <$> (_stops x).*2 | None => [] end.
(** Every position the loop, its store or its enforcer knows. *)
Definition known (w : FastWorld) : list Position.t := (_positions (f_store w)).*2 ++ f_objs w ++ wiring_positions w.

Context (w0 : FastWorld).
Definition derived (p : Position.t) : Prop := ∃ p0, p0 ∈ known w0 ∧ descends p0 p.

Definition derived_exit (x : Intent * Position.t) : Prop := de_risk (fst x) ∧ derived (snd x).

Record de_risked (w : FastWorld) : Prop := {
  dr_store : Forall derived (_positions (f_store w)).*2;
  dr_objs : Forall derived (f_objs w);
  dr_wiring : Forall derived (wiring_positions w);
  dr_exits : ∃ l, f_exits w = f_exits w0 ++ l ∧ Forall derived_exit l
}.

Lemma derived_descends p q : derived p → descends p q → derived q.
Proof. intros (p0 & H0 & Hd) H. exists p0. split; [done|]. by eapply descends_trans. Qed.

Lemma de_risked_refl : de_risked w0.
Proof.
  assert (Forall derived (known w0)) as H.
  { apply Forall_forall. intros p Hp. exists p. split; [done|apply descends_refl]. }
  unfold known in H. apply Forall_app in H as [H1 [H2 H3]%Forall_app]. split; try done.
  exists []. by rewrite app_nil_r.
Qed.

Abbreviation kp m Q := (keeps de_risked m Q).

(** *** The primitive calls *)

Lemma kp_in_store {A} (m : M StateStore A) Q :
  (∀ s, Forall derived (_positions s).*2 →
     Forall derived (_positions (snd (m s))).*2 ∧ ∀ a, fst (m s) = Ok a → Q a) →
  kp (in_store m) Q.
Proof.
  intros H w [H1 H2 H3 H4]. destruct (H _ H1) as [Hp Hq]. unfold in_store.
  destruct (m (f_store w)) as [r s]; cbn in *. split; [|done]. by split.
Qed.

Lemma kp_new_fsm p : derived p → kp (new_fsm p) (λ _, True).
Proof.
  intros Hp w [H1 H2 H3 H4]. split; [|done]. split; try done. cbn. apply Forall_app. by repeat constructor.
Qed.

Lemma kp_fsm_position fsm : kp (fsm_position fsm) derived.
Proof.
  intros w Hw. unfold fsm_position. destruct (f_objs w !! fsm) as [p|] eqn:E; cbn; [|done].
  split; [done|]. intros ? [= <-]. by eapply (Forall_lookup_1 _ _ _ _ (dr_objs _ Hw)).
Qed.

Lemma kp_on_fsm fsm op : (∀ fill, op ≠ ToOpen fill) → kp (on_fsm fsm op) (λ _, True).
Proof.
  intros Hop w Hw. unfold on_fsm. destruct (f_objs w !! fsm) as [p|] eqn:E; cbn; [|by split].
  pose proof (Forall_lookup_1 _ _ _ _ (dr_objs _ Hw) E) as Hp.
  destruct (exec_descends op (mk_fsm (f_store w) p) derived Hop) as [Hd HF];
    [intros q; by apply derived_descends|apply (dr_store _ Hw)|].
  destruct (exec op _) as [r f]; cbn in *. split; [|done]. destruct Hw. split; cbn; try done.
  apply Forall_insert; [done|]. by eapply derived_descends.
Qed.

Lemma kp_catch m Q : kp m Q → kp (catch_value_error m) (λ _, True).
Proof.
  intros H w Hw. destruct (H w Hw) as [H1 _]. unfold catch_value_error.
  destruct (m w) as [[a|[]] w']; cbn in *; by split.
Qed.

Lemma kp_exit i p : de_risk i → derived p → kp (exit venue_exit i p) (λ _, True).
Proof.
  intros Hi Hp w [H1 H2 H3 (l & Hl & HF)]. unfold exit, exit_call. cbn. split; [|done]. split; try done. cbn.
  exists (l ++ [(i, p)]). split; [by rewrite Hl, app_assoc|]. apply Forall_app. by repeat constructor.
Qed.

Lemma kp_registry_pop m : kp (registry_pop m) (λ _, True).
Proof. apply keeps_modify. by intros w []. Qed.
Lemma kp_registry_set m f : kp (registry_set m f) (λ _, True).
Proof. apply keeps_modify. by intros w []. Qed.
Lemma kp_exit_states_pop m : kp (exit_states_pop m) (λ _, True).
Proof. apply keeps_modify. by intros w []. Qed.
Lemma kp_exit_states_set m x : kp (exit_states_set m x) (λ _, True).
Proof. apply keeps_modify. by intros w []. Qed.

Lemma kp_wiring_deregister m : kp (wiring_deregister m) (λ _, True).
Proof.
  apply keeps_modify. intros w [H1 H2 H3 H4]. split; try done. revert H3. unfold wiring_positions. cbn.
  destruct (_enforcer_wiring w) as [x|]; cbn; [|done]. rewrite !(Forall_fmap r_position). apply Forall_dpop.
Qed.

Lemma kp_run_enf {A} wiring (m : M Enf A) :
  (∀ e, Forall derived (r_position <$> (_stops (e_wiring e)).*2) →
     (∃ l, e_exits e = f_exits w0 ++ l ∧ Forall derived_exit l) →
     Forall derived (r_position <$> (_stops (e_wiring (snd (m e)))).*2) ∧
     ∃ l, e_exits (snd (m e)) = f_exits w0 ++ l ∧ Forall derived_exit l) →
  Forall derived (r_position <$> (_stops wiring).*2) →
  kp (run_enf wiring m) (λ _, True).
Proof.
  intros Hm Hw w [H1 H2 H3 H4]. unfold run_enf. destruct (Hm (mk_enf wiring (f_exits w)) Hw H4) as [Hs Hl].
  destruct (m _) as [r e]; cbn in *. split; [|done]. by split.
Qed.

(** *** The store calls the loop makes *)

Lemma kp_ttl_get {V} (proj : StateStore → gmap string V) put expiry key (f : option V → bool) :
  (∀ x s, _positions (put x s) = _positions s) →
  kp (in_store (e ← ttl_get _clock proj put expiry key; mret (f e))) (λ _, True).
Proof.
  intros Hput. apply kp_in_store. intros s Hs. unfold mbind, M_bind, mret, M_ret. rewrite ttl_get_eq.
  destruct (proj s !! key) as [v|]; cbn; [|done]. destruct (_ <=? _); cbn; [|done]. by rewrite Hput.
Qed.

Lemma kp_cooldown mint : kp (in_store (set_cooldown _clock mint (_cooldown_seconds loop))) (λ _, True).
Proof. by apply kp_in_store. Qed.
Lemma kp_heartbeat t : kp (in_store (emit_heartbeat _clock t)) (λ _, True).
Proof. by apply kp_in_store. Qed.
Lemma kp_save_breaker st : kp (in_store (save_breaker_state st)) (λ _, True).
Proof. by apply kp_in_store. Qed.
Lemma kp_load_all : kp (in_store load_all_positions) (Forall derived).
Proof. apply kp_in_store. intros s Hs. split; [done|]. by intros ? [= <-]. Qed.
Lemma kp_load mint : kp (in_store (load_position mint)) (λ o, ∀ p, o = Some p → derived p).
Proof.
  apply kp_in_store. intros s Hs. split; [done|]. intros ? [= <-] p Hp. by eapply dget_Forall.
Qed.

Ltac kp_prim := first
  [ apply keeps_ret; done | apply keeps_raise | apply keeps_get
  | apply kp_fsm_position | by apply kp_on_fsm | apply kp_registry_pop | apply kp_registry_set | apply kp_exit_states_pop
  | apply kp_exit_states_set | apply kp_wiring_deregister | apply kp_cooldown | apply kp_heartbeat | apply kp_save_breaker
  | apply kp_load_all | apply kp_load | by apply kp_new_fsm | apply kp_exit; assumption
  | by apply kp_ttl_get ].
Ltac kp_auto := first
  [ kp_prim
  | eapply keeps_weaken; [kp_prim|done]
  | eapply keeps_bind; [kp_auto|cbn beta; intros ? ?; kp_auto]
  | eapply kp_catch; kp_auto
  | lazymatch goal with |- keeps _ (if ?b then _ else _) _ => destruct b; kp_auto end ].
Ltac kp_bind := eapply keeps_bind; [kp_auto|cbn beta; intros ? ?].

Lemma kp_full_intent {B} id mint reason (f : ExitIntent.t → M FastWorld B) Q :
  (∀ e, de_risk (Exit e) → kp (f e) Q) → kp (e ← lift (ExitIntent.new id mint 10000 secure reason); f e) Q.
Proof. intros H. eapply keeps_bind; [by apply (keeps_lift _ _ (λ e, de_risk (Exit e))); intros ? [= <-]; cbn; lia|auto]. Qed.

Lemma kp_flatten_close fsm (opened landed : bool) :
  kp ((if opened then catch_value_error (on_fsm fsm ToClosing) else mret tt);;
      (if landed then catch_value_error (on_fsm fsm (ToClosed (PyInt 0))) else mret tt)) (λ _, True).
Proof. eapply (keeps_bind _ _ _ (λ _, True)); [|intros _ _]; kp_auto. Qed.

Lemma kp_flatten_position pos reason : derived pos → kp (_flatten_position venue_exit pos reason) (λ _, True).
Proof.
  intros Hp. unfold _flatten_position. kp_bind. destruct (Position.fsm_state pos); try kp_prim.
  - eapply (keeps_bind _ _ _ (λ _, True)); [destruct (dget _ _); kp_prim|intros fsm _]. kp_auto.
  - apply kp_full_intent. intros e He. kp_bind. kp_bind. destruct (dget _ _); [apply kp_flatten_close|kp_prim].
  - apply kp_full_intent. intros e He. kp_bind. kp_bind. destruct (dget _ _); [apply kp_flatten_close|kp_prim].
Qed.

Lemma kp_flatten_all reason : kp (emergency_flatten_all venue_exit reason) (λ _, True).
Proof.
  unfold emergency_flatten_all. kp_bind. rename a into ps, H into Hps. induction Hps as [|p ps Hp _ IH]; cbn; [kp_prim|].
  eapply keeps_bind; [by apply kp_flatten_position|auto].
Qed.

Lemma kp_record_pnl ev : kp (breaker_record_pnl venue_exit ev) (λ _, True).
Proof.
  intros w Hw. unfold breaker_record_pnl. destruct (record_pnl _ ev (_breaker w)) as [r b]; cbn. split; [|done].
  assert (∀ w' b, de_risked w' → de_risked (set_brk b w')) as H by (by intros w' b' []).
  apply H. destruct (drop _ _) as [|reason l]; [done|]. apply (kp_flatten_all reason w Hw).
Qed.

Lemma kp_close_out fsm :
  kp (catch_value_error (on_fsm fsm ToClosing;; on_fsm fsm (ToClosed (PyInt 0)))) (λ _, True).
Proof. kp_auto. Qed.

Lemma kp_force_exit fsm reason : kp (_force_exit _clock loop venue_exit fsm reason) (λ _, True).
Proof.
  unfold _force_exit. kp_bind. apply kp_full_intent. intros e He. kp_bind. kp_auto.
Qed.

Lemma kp_do_full_exit fsm intent : de_risk intent → kp (_do_full_exit _clock loop venue_exit fsm intent) (λ _, True).
Proof. intros Hi. unfold _do_full_exit. kp_bind. kp_bind. kp_auto. Qed.

Lemma kp_do_scale_out fsm intent : de_risk intent → kp (_do_scale_out venue_exit fsm intent) (λ _, True).
Proof. intros Hi. unfold _do_scale_out. kp_bind. kp_auto. Qed.

Lemma by_mint_derived ps : Forall derived ps → Forall derived (by_mint ps).*2.
Proof.
  intros H. unfold by_mint. assert (Forall derived (@nil (string * Position.t)).*2) as H0 by constructor.
  revert H0. generalize (@nil (string * Position.t)) as d.
  induction H as [|p ps Hp _ IH]; intros d Hd; cbn; [done|]. apply IH. by apply Forall_dset.
Qed.

Lemma kp_sync_add items : Forall derived items.*2 → kp (sync_add loop items) (λ _, True).
Proof.
  induction items as [|[mint pos] items IH]; intros H; cbn [sync_add]; [kp_prim|].
  apply Forall_cons in H as [Hp Hi]. specialize (IH Hi). kp_bind. destruct (dget _ _); [done|]. kp_bind. kp_bind.
  eapply (keeps_bind _ _ _ (λ _, True)); [|done].
  destruct (_ && _); [|kp_prim].
  eapply (keeps_bind _ _ _ (λ _, True)); [by apply keeps_lift|intros ? _].
  eapply (keeps_bind _ _ _ (λ _, True)); [by apply keeps_lift|intros ? _]. kp_prim.
Qed.

Lemma kp_sync_remove stale : kp (sync_remove stale) (λ _, True).
Proof. induction stale; cbn [sync_remove]; [kp_prim|]. kp_bind. kp_bind. done. Qed.

Lemma kp_sync : kp (_sync_registry loop) (λ _, True).
Proof.
  unfold _sync_registry. kp_bind.
  eapply keeps_bind; [by apply kp_sync_add, by_mint_derived|intros _ _]. kp_bind. apply kp_sync_remove.
Qed.

Lemma kp_evaluate mint fsm pos mark bt :
  kp (evaluate _clock loop venue_exit mint fsm pos mark bt) (λ _, True).
Proof.
  unfold evaluate, get_narrative_failure_flag, get_insider_dump_flag, get_sellability_degraded_flag,
    get_lp_unlock_approaching_flag.
  do 4 kp_bind. kp_bind. destruct (dget _ _) as [st|]; [|kp_prim].
  eapply keeps_bind; [by eapply (keeps_lift _ _ (λ d, ∀ i, d_intent d = Some i → de_risk i)); intros d Hd i; eapply on_tick_de_risk
    |intros d Hd].
  kp_bind. eapply (keeps_bind _ _ _ (λ _, True)).
  - unfold update_pnl. destruct (_ && _); [|kp_prim]. kp_bind.
    eapply (keeps_bind _ _ _ (λ _, True)); [by apply keeps_lift|intros ? _].
    eapply (keeps_bind _ _ _ (λ _, True)); [apply kp_record_pnl|intros ? _]. kp_prim.
  - intros _ _. unfold act_on. destruct (d_intent d) as [i|] eqn:Ei; [|kp_prim]. specialize (Hd i Ei).
    destruct (is_full_exit d).
    + eapply keeps_bind; [by apply kp_do_full_exit|intros _ _]. kp_prim.
    + eapply keeps_bind; [by apply kp_do_scale_out|intros _ _]. kp_auto.
Qed.

Lemma kp_tick_mint mint bt slot :
  kp (tick_mint _clock loop venue_exit get_mark_price mint bt slot) (λ _, True).
Proof.
  unfold tick_mint. kp_bind. destruct (dget _ _) as [fsm|]; [|kp_prim]. kp_bind.
  destruct (negb _); [kp_prim|]. destruct (get_mark_price mint slot) as [mark|].
  - eapply keeps_bind; [apply kp_evaluate|intros ? _]. kp_auto.
  - kp_bind. eapply keeps_bind; [apply kp_force_exit|intros _ _]. kp_prim.
Qed.

Lemma kp_tick_mints mints bt slot :
  kp (tick_mints _clock loop venue_exit get_mark_price mints bt slot) (λ _, True).
Proof.
  induction mints as [|m mints IH]; cbn [tick_mints]; [kp_prim|].
  eapply keeps_bind; [apply kp_tick_mint|intros ? _]. eapply keeps_bind; [apply IH|intros ? _]. kp_prim.
Qed.

Lemma kp_close_fired fired : kp (close_fired _clock loop fired) (λ _, True).
Proof.
  induction fired as [|m fired IH]; cbn [close_fired]; [kp_prim|]. kp_bind.
  eapply (keeps_bind _ _ _ (λ _, True)).
  - destruct (dget _ _) as [fsm|]; [|kp_prim]. eapply keeps_bind; [apply kp_close_out|intros _ _]. kp_auto.
  - intros ? _. eapply keeps_bind; [apply IH|intros ? _]. kp_prim.
Qed.

(** *** The enforcer *)

Definition enf_ok (e : Enf) : Prop :=
  Forall derived (r_position <$> (_stops (e_wiring e)).*2) ∧ ∃ l, e_exits e = f_exits w0 ++ l ∧ Forall derived_exit l.

Lemma enforce_tick_ok t : keeps enf_ok (enforce_tick venue_exit t) (λ _, True).
Proof.
  intros [w x] [Hs (l & Hl & HF)]. cbn in Hs, Hl. unfold enforce_tick, mbind, M_bind, get, lift, mret, M_ret, raise.
  cbn. destruct (decide w t) as [[]|]; cbn; try (split; [split; [done|by exists l]|done]).
  destruct (dget (MarkTick.mint t) (_stops w)) as [reg|] eqn:Er; cbn; [|split; [split; [done|by exists l]|done]].
  assert (derived (r_position reg)) as Hp.
  { rewrite (Forall_fmap r_position) in Hs. apply (dget_Forall _ _ _ _ Hs Er). }
  unfold exit_call. cbn.
  set (i := Exit _). assert (∃ l', x ++ [(i, r_position reg)] = f_exits w0 ++ l' ∧ Forall derived_exit l') as Hl'.
  { exists (l ++ [(i, r_position reg)]). split; [by rewrite Hl, app_assoc|]. apply Forall_app. split; [done|].
    constructor; [|done]. split; [cbn; lia|done]. }
  destruct (venue_exit x i (r_position reg)); cbn; (split; [|done]); (split; [|done]); cbn; [|done].
  revert Hs. rewrite !(Forall_fmap r_position). apply Forall_dpop.
Qed.

Lemma enforce_all_ok ticks : keeps enf_ok (enforce_all venue_exit ticks) (λ _, True).
Proof.
  induction ticks as [|[[mint mark] bt] ticks IH]; cbn [enforce_all]; [by apply keeps_ret|].
  eapply (keeps_bind _ _ _ (λ _, True)); [by apply keeps_lift|intros t _].
  eapply keeps_bind; [apply enforce_tick_ok|intros fill _].
  eapply (keeps_bind _ _ _ (λ _, True)); [destruct fill; [by apply keeps_modify; intros [? ?] []|by apply keeps_ret]|intros _ _].
  eapply keeps_bind; [apply IH|intros ? _]. by apply keeps_ret.
Qed.

Lemma emit_heartbeat_stops w : _stops (snd (_emit_heartbeat_safe _wall_epoch_ms hb_fails w)) = _stops w.
Proof.
  unfold _emit_heartbeat_safe. mstep. by repeat (break_match; cbn in *; simplify_eq).
Qed.

Lemma wiring_on_tick_ok ticks : keeps enf_ok (wiring_on_tick venue_exit _wall_epoch_ms hb_fails ticks) (λ _, True).
Proof.
  unfold wiring_on_tick. eapply (keeps_bind _ _ _ (λ _, True)); [|intros _ _; apply enforce_all_ok].
  intros [w x] [H1 H2]. pose proof (emit_heartbeat_stops w) as He. cbn in *.
  destruct (_emit_heartbeat_safe _ _ w) as [r w']; cbn in *. split; [|done]. split; cbn; [by rewrite He|done].
Qed.

Lemma kp_enforcer_phase ticks :
  kp (enforcer_phase _clock loop venue_exit _wall_epoch_ms hb_fails set_order ticks) (λ _, True).
Proof.
  unfold enforcer_phase. eapply keeps_bind; [kp_prim|]. intros w Hw. cbn beta.
  destruct (_enforcer_wiring w) as [x|] eqn:Ex; [|kp_prim].
  eapply keeps_bind.
  - apply kp_run_enf; [intros e H1 H2; apply (wiring_on_tick_ok ticks e); by split|].
    pose proof (dr_wiring _ Hw) as H. unfold wiring_positions in H. by rewrite Ex in H.
  - intros _ _. cbn beta. kp_bind. apply kp_close_fired.
Qed.

Lemma kp_tick bt slot t0 t1 :
  kp (tick _clock loop venue_exit get_mark_price _wall_epoch_ms hb_fails set_order bt slot t0 t1) (λ _, True).
Proof.
  unfold tick. kp_bind. eapply keeps_bind; [apply kp_sync|intros _ _]. kp_bind.
  eapply keeps_bind; [apply kp_tick_mints|intros ? _]. eapply keeps_bind; [apply kp_enforcer_phase|intros ? _]. kp_prim.
Qed.

Lemma kp_flatten_one mint reason : kp (flatten_one venue_exit mint reason) (λ _, True).
Proof.
  unfold flatten_one. kp_bind. destruct a as [p|]; [|kp_prim].
  eapply keeps_bind; [apply kp_flatten_position; auto|intros ? _]. kp_prim.
Qed.

Lemma kp_reconcile_unlanded mint fill :
  FillResult.landed fill = false → kp (reconcile_fill _clock loop mint fill) (λ _, True).
Proof.
  intros Hl. unfold reconcile_fill. kp_bind. destruct a as [p|]; [|kp_prim]. destruct (negb _); [kp_prim|].
  rewrite Hl. cbn [negb]. unfold veto_entering. kp_bind. eapply (keeps_bind _ _ _ (λ _, True)).
  - destruct (dget _ _); [kp_prim|]. eapply (keeps_bind _ _ _ (λ _, True)); [apply kp_new_fsm; auto|intros ? _]. kp_auto.
  - intros ? _. kp_auto.
Qed.

(** *** Runs of the loop *)

(** What the orchestrator and the operator ask of the loop, but for the
    landing of a fill. *)
Inductive fast_op : Type :=
| Tick (block_time_ms slot start_wall_ms end_wall_ms : Z)
| FlattenAll (reason : string)
| FlattenOne (mint reason : string)
| FillLost (mint : string) (fill : FillResult.t) (H : FillResult.landed fill = false).

Definition run_fast (op : fast_op) (w : FastWorld) : FastWorld :=
  match op with
  | Tick bt slot t0 t1 =>
      snd (tick _clock loop venue_exit get_mark_price _wall_epoch_ms hb_fails set_order bt slot t0 t1 w)
  | FlattenAll reason => snd (emergency_flatten_all venue_exit reason w)
  | FlattenOne mint reason => snd (flatten_one venue_exit mint reason w)
  | FillLost mint fill _ => snd (reconcile_fill _clock loop mint fill w)
  end.

Lemma run_fast_keeps op w : de_risked w → de_risked (run_fast op w).
Proof.
  intros Hw. destruct op; cbn [run_fast].
  - apply (kp_tick _ _ _ _ w Hw).
  - apply (kp_flatten_all _ w Hw).
  - apply (kp_flatten_one _ _ w Hw).
  - by apply (kp_reconcile_unlanded _ _ H w Hw).
Qed.

Lemma run_all_keeps ops w : de_risked w → de_risked (foldl (λ w op, run_fast op w) w ops).
Proof. revert w. induction ops as [|op ops IH]; intros w Hw; cbn; [done|]. by apply IH, run_fast_keeps. Qed.

(** C3: the position loop can only shed risk. Over any sequence of ticks,
    emergency flattens and lost fills, whatever the feed, the venue, the
    heartbeat store and the clocks answer and whether or not a call raises,
    every intent sent is an exit or reduction of at most the whole position,
    and every position stored, tracked, armed or exited descends from one
    known at the start: same mint, same stake, same tokens, in a state reached
    along legal edges. *)
Theorem fast_loop_only_de_risks ops :
  let w := foldl (λ w op, run_fast op w) w0 ops in
  (∃ l, f_exits w = f_exits w0 ++ l ∧ Forall derived_exit l) ∧ Forall derived (known w).
Proof.
  intros w. destruct (run_all_keeps ops w0 de_risked_refl) as [H1 H2 H3 H4]. fold w in H1, H2, H3, H4.
  split; [done|]. unfold known. rewrite !Forall_app. done.
Qed.
End Provenance.

(** ** A breached position leaves within the tick *)

Lemma forced_full cfg st mark bt f1 f2 f3 f4 :
  config_wf cfg → wf_fields st → 0 < ExitState.remaining_bps st → 0 ≤ bt →
  f1 || f2 || f3 || f4 || dleb mark (StopState.trigger_price (ExitState.stop st)) = true →
  ∃ d i, on_tick cfg st (mk_tick (NDec mark) (PyInt bt) f1 f2 f3 f4 None) = Ok d ∧
    d_intent d = Some (Exit i) ∧ ExitIntent.fraction_bps i = 10000 ∧ ExitIntent.mode i = secure ∧
    ExitIntent.mint i = ExitState.mint st.
Proof.
  intros Hc Hw Hpos Hb Hm.
  destruct (on_tick_spec cfg st (mk_tick (NDec mark) (PyInt bt) f1 f2 f3 f4 None) bt mark None Hc Hw) as (d & Hd & _ & _ & _ & H);
    [done|].
  destruct H as [[? _]|(_ & r & s' & _ & _ & Hs & Hdec)]; [lia|]. exists d.
  unfold decided, forced_exits in Hdec. cbn in Hdec.
  assert (ExitState.stop s' = ExitState.stop st ∧ ExitState.mint s' = ExitState.mint st) as [Hst Hmt].
  { destruct (ss_tighter _ _ _ _ Hs). done. }
  rewrite Hst in Hdec.
  assert (∃ reason, full_exit_decision s' reason d) as [reason (_ & _ & _ & _ & i & Hi & Hf & Hmode & Hmint)].
  { destruct f1, f2, f3, f4; cbn in Hm; rewrite ?Hm in Hdec; cbn in Hdec; by eexists. }
  exists i. split_and!; try done. by rewrite Hmint.
Qed.

(** *** The pieces of the tick, computed *)

Section Executed.
Context (_clock : nat → Z) (loop : FastLoop).
Context (venue_exit : exit_log → Intent → Position.t → result FillResult.t).
Context (get_mark_price : string → Z → option dec).

(** A flag read in the loop. *)
Lemma flag_read fl mint w :
  ∃ b, in_store (run_op _clock (reads_flag fl mint)) w =
    (Ok b, set_store (snd (run_op _clock (reads_flag fl mint) (f_store w))) w) ∧
    (∀ E, expiry_of fl (f_store w) mint = Some E →
       before _clock E (f_store w) (snd (run_op _clock (reads_flag fl mint) (f_store w))) → b = true).
Proof.
  unfold in_store. pose proof (reads_flag_eq _clock fl mint (f_store w)) as H.
  pose proof (flag_reads_true _clock fl mint (f_store w)) as Hl.
  destruct (run_op _clock (reads_flag fl mint) (f_store w)) as [r s]; cbn in *. subst r.
  eexists. split; [reflexivity|]. intros E HE Hb. specialize (Hl E HE Hb). congruence.
Qed.

(** Nothing of the mint is left but its cooldown. *)
Definition closed_out (mint : string) (w : FastWorld) : Prop :=
  dget mint (_positions (f_store w)) = None ∧ dget mint (_fsm_registry w) = None ∧ dget mint (_exit_states w) = None ∧
  (∀ x, _enforcer_wiring w = Some x → dget mint (_stops x) = None) ∧
  ∃ n, _cooldowns (f_store w) !! mint = Some (_clock n + _cooldown_seconds loop * 1000).

(** An open object is closed and its record deleted. *)
Lemma close_out_open fsm p w :
  f_objs w !! fsm = Some p → Position.fsm_state p = OPEN →
  ∃ p' s', catch_value_error (on_fsm fsm ToClosing;; on_fsm fsm (ToClosed (PyInt 0))) w =
    (Ok tt, mk_fast s' (<[fsm := p']> (f_objs w)) (_fsm_registry w) (_exit_states w) (_breaker w) (_enforcer_wiring w) (f_exits w)) ∧
  dget (Position.mint p) (_positions s') = None ∧ _reads s' = _reads (f_store w).
Proof.
  intros Hp Ho. unfold catch_value_error, mbind, M_bind, on_fsm. rewrite Hp.
  pose proof (lookup_lt_Some _ _ _ Hp) as Hlt. destruct w as [s objs reg es b wi ex]; cbn in *.
  unfold transition_to_closing. fsm_step. rewrite Ho.
  assert (validate_fsm_transition OPEN CLOSING = Ok tt) as -> by reflexivity. cbn.
  rewrite list_lookup_insert_eq by done. unfold transition_to_closed. fsm_step.
  assert (validate_fsm_transition CLOSING CLOSED = Ok tt) as -> by reflexivity. cbn.
  rewrite list_insert_insert_eq. do 2 eexists. split; [reflexivity|]. cbn. by rewrite dget_dpop.
Qed.

(** The clean-up both exits end with. *)
Lemma clean_up mint w :
  dget mint (_positions (f_store w)) = None →
  ∃ w', (registry_pop mint;; exit_states_pop mint;; wiring_deregister mint;;
         in_store (set_cooldown _clock mint (_cooldown_seconds loop))) w = (Ok tt, w') ∧
    closed_out mint w' ∧ f_exits w' = f_exits w.
Proof.
  intros Hs. destruct w as [s objs reg es b wi ex]. eexists. split; [reflexivity|]. split; [|done].
  unfold closed_out. cbn in *. rewrite !dget_dpop, lookup_insert_eq. split_and!; try done; [|by eexists].
  destruct wi as [x|]; [|done]. intros ? [= <-]. apply dget_dpop.
Qed.

Lemma do_full_exit_ok fsm p i w :
  (∀ log j q, ∃ f, venue_exit log j q = Ok f) →
  f_objs w !! fsm = Some p → Position.fsm_state p = OPEN →
  ∃ w', _do_full_exit _clock loop venue_exit fsm i w = (Ok tt, w') ∧
    closed_out (Position.mint p) w' ∧ f_exits w' = f_exits w ++ [(i, p)].
Proof.
  intros Hv Hp Ho. unfold _do_full_exit. unfold fsm_position at 1. unfold mbind at 1, M_bind at 1. rewrite Hp.
  unfold exit, exit_call. unfold mbind at 1, M_bind at 1. destruct (Hv (f_exits w) i p) as [f ->].
  destruct (close_out_open fsm p (set_exits (f_exits w ++ [(i, p)]) w) Hp Ho) as (p' & s' & Hc & Hd & _).
  unfold mbind at 1, M_bind at 1. rewrite Hc.
  edestruct (clean_up (Position.mint p)) as (w' & Hw & Hcl & Hex); [|exists w'; split; [exact Hw|split; [done|]]].
  - exact Hd.
  - by rewrite Hex.
Qed.

(** The unrealised-PnL update on an open object, when the breaker does not
    trip on it. *)
Definition quiet_pnl (w : FastWorld) (pos : Position.t) (st : ExitState.t) (mark : dec) (bt : Z) : Prop :=
  ∃ day hard soft, _utc_day_key bt = Ok day ∧
    ordered (CircuitBreaker._config (_breaker w)) (_soft_ratio (_breaker w)) hard soft ∧
    (hard < default 0 (_day_pnl (_breaker w) !! day)
        + (dec_int (dmul (dsub mark (ExitState.entry_fill_price st)) (dec_of_Z (Position.tokens_out_base pos)))
           - Position.unrealized_pnl_net_lamports pos)
     ∨ BreakerState.state (CircuitBreaker._state (_breaker w)) = TRIPPED).

#[local] Arguments record_pnl : simpl never.

Lemma update_pnl_ok mint fsm pos st mark bt w :
  f_objs w !! fsm = Some pos → 0 ≤ bt → quiet_pnl w pos st mark bt →
  ∃ w' p', update_pnl venue_exit mint fsm pos st mark bt w = (Ok tt, w') ∧
    f_objs w' !! fsm = Some p' ∧ Position.fsm_state p' = Position.fsm_state pos ∧ Position.mint p' = Position.mint pos ∧
    f_exits w' = f_exits w.
Proof.
  intros Hp Hb (day & hard & soft & Hday & Hord & Hno). unfold update_pnl.
  destruct (_ && _); [|exists w, pos; by split_and!]. pose proof (lookup_lt_Some _ _ _ Hp) as Hlt.
  unfold mbind at 1, M_bind at 1. unfold on_fsm. rewrite Hp. cbn [exec]. unfold update_unrealized_pnl. fsm_step.
  rewrite (proj2 (Z.ltb_ge bt 0)) by lia. cbn. unfold breaker_record_pnl. cbn.
  match goal with |- context [record_pnl ?fl ?ev (_breaker w)] =>
    destruct (record_pnl_quiet fl (_breaker w) ev day hard soft Hord Hday Hno) as (bs & b' & -> & ->) end.
  rewrite drop_ge by lia. cbn. do 2 eexists. split; [reflexivity|]. cbn.
  rewrite list_lookup_insert_eq by done. done.
Qed.

Lemma bind_ok {A B} (m : M FastWorld A) (f : A → M FastWorld B) w a w' :
  m w = (Ok a, w') → (m ≫= f) w = f a w'.
Proof. intros H. unfold mbind, M_bind. by rewrite H. Qed.

Definition exit_flag (fl : flag) : Prop := fl = Narrative ∨ fl = Insider ∨ fl = Sellability ∨ fl = Lp.

(** The four flags are read, and nothing but that happens to the store; a flag
    that every reading finds in force is among the answers. *)
Definition reads_of (mint : string) : list store_op := [OpNarrative mint; OpInsider mint; OpSellability mint; OpLp mint].

Lemma evaluate_flags mint fsm pos mark bt w :
  let s := snd (run_ops _clock (reads_of mint) (f_store w)) in
  ∃ f1 f2 f3 f4, evaluate _clock loop venue_exit mint fsm pos mark bt w =
    (match dget mint (_exit_states w) with
     | None => mret []
     | Some exit_state =>
         decision ← lift (on_tick (_exit_config loop) exit_state
           (mk_tick (NDec mark) (PyInt bt) f1 f2 f3 f4 None));
         exit_states_set mint (d_next_state decision);;
         update_pnl venue_exit mint fsm pos exit_state mark bt;;
         act_on _clock loop venue_exit mint fsm decision
     end) (set_store s w) ∧
    ∀ fl E, exit_flag fl → expiry_of fl (f_store w) mint = Some E → before _clock E (f_store w) s → f1 || f2 || f3 || f4 = true.
Proof.
  intros s. unfold evaluate.
  destruct (flag_read Narrative mint w) as (f1 & E1 & L1). set (s1 := snd _) in E1, L1.
  destruct (flag_read Insider mint (set_store s1 w)) as (f2 & E2 & L2). set (s2 := snd _) in E2, L2.
  destruct (flag_read Sellability mint (set_store s2 (set_store s1 w))) as (f3 & E3 & L3). set (s3 := snd _) in E3, L3.
  destruct (flag_read Lp mint (set_store s3 (set_store s2 (set_store s1 w)))) as (f4 & E4 & L4). set (s4 := snd _) in E4, L4.
  cbn [reads_flag run_op] in E1, E2, E3, E4.
  rewrite (bind_ok _ _ _ _ _ E1), (bind_ok _ _ _ _ _ E2), (bind_ok _ _ _ _ _ E3), (bind_ok _ _ _ _ _ E4).
  assert (s = s4) as ->.
  { subst s. unfold reads_of. by rewrite !run_ops_cons. }
  exists f1, f2, f3, f4. split; [done|]. intros fl E Hfl HE Hb.
  pose proof (proj1 (run_op_frame _clock (reads_flag Narrative mint) (f_store w) "")) as R1. change (snd (run_op _clock (reads_flag Narrative mint) (f_store w))) with s1 in R1.
  pose proof (proj1 (run_op_frame _clock (reads_flag Insider mint) s1 "")) as R2. change (snd (run_op _clock (reads_flag Insider mint) s1)) with s2 in R2.
  pose proof (proj1 (run_op_frame _clock (reads_flag Sellability mint) s2 "")) as R3. change (snd (run_op _clock (reads_flag Sellability mint) s2)) with s3 in R3.
  pose proof (proj1 (run_op_frame _clock (reads_flag Lp mint) s3 "")) as R4. change (snd (run_op _clock (reads_flag Lp mint) s3)) with s4 in R4.
  cbn [f_store set_store] in *.
  pose proof (flag_kept _clock fl (reads_flag Narrative mint) (f_store w) mint E) as K1. change (snd (run_op _clock (reads_flag Narrative mint) (f_store w))) with s1 in K1.
  pose proof (flag_kept _clock fl (reads_flag Insider mint) s1 mint E) as K2. change (snd (run_op _clock (reads_flag Insider mint) s1)) with s2 in K2.
  pose proof (flag_kept _clock fl (reads_flag Sellability mint) s2 mint E) as K3. change (snd (run_op _clock (reads_flag Sellability mint) s2)) with s3 in K3.
  assert (before _clock E (f_store w) s1) by (apply (before_sub _ E (f_store w) _ _ s4); [done|lia..]).
  assert (before _clock E s1 s2) by (apply (before_sub _ E (f_store w) _ _ s4); [done|lia..]).
  assert (before _clock E s2 s3) by (apply (before_sub _ E (f_store w) _ _ s4); [done|lia..]).
  assert (before _clock E s3 s4) by (apply (before_sub _ E (f_store w) _ _ s4); [done|lia..]).
  specialize (K1 ltac:(by destruct fl) HE ltac:(done)). specialize (K2 ltac:(by destruct fl) K1 ltac:(done)).
  specialize (K3 ltac:(by destruct fl) K2 ltac:(done)).
  destruct Hfl as [-> | [-> | [-> | ->]]]; [rewrite (L1 E)|rewrite (L2 E)|rewrite (L3 E)|rewrite (L4 E)];
    rewrite ?orb_true_r; done.
Qed.

(** The exit the loop sends for a demand it sees, and what it leaves behind. *)
Definition full_exit_sent (mint : string) (w w' : FastWorld) : Prop :=
  ∃ i p, f_exits w' = f_exits w ++ [(Exit i, p)] ∧ ExitIntent.fraction_bps i = 10000 ∧ ExitIntent.mode i = secure ∧
    Position.mint p = mint ∧ closed_out mint w'.

(** A hard stop is executed in the tick that sees it. When the mark of an
    open position is at or below its fixed stop trigger, then whatever the
    pre-set flags say, as long as the venue call returns (landed or not) and
    the position's own PnL does not trip the breaker in this very tick, the
    tick sends exactly one exit, of the full position, SECURE, and afterwards
    the record, the state machine, the exit state and the layer-2 stop are all
    gone and the mint is in cooldown. *)
Theorem hard_stop_executed mint fsm pos st mark bt slot w :
  (∀ log j q, ∃ f, venue_exit log j q = Ok f) → config_wf (_exit_config loop) →
  dget mint (_fsm_registry w) = Some fsm → f_objs w !! fsm = Some pos →
  Position.mint pos = mint → Position.fsm_state pos = OPEN →
  dget mint (_exit_states w) = Some st → wf_fields st → 0 < ExitState.remaining_bps st →
  get_mark_price mint slot = Some mark → 0 ≤ bt →
  dleb mark (StopState.trigger_price (ExitState.stop st)) = true →
  quiet_pnl w pos st mark bt →
  ∃ out w', tick_mint _clock loop venue_exit get_mark_price mint bt slot w = (Ok out, w') ∧ full_exit_sent mint w w'.
Proof.
  intros Hv Hc Hreg Hobj Hm Ho Hst Hw Hrem Hmark Hb Htrig Hq. unfold tick_mint.
  rewrite (bind_ok get _ w w w) by done. rewrite Hreg.
  rewrite (bind_ok _ _ w pos w) by (unfold fsm_position; by rewrite Hobj).
  rewrite bool_decide_eq_true_2 by done. cbn [negb]. rewrite Hmark.
  destruct (evaluate_flags mint fsm pos mark bt w) as (f1 & f2 & f3 & f4 & He & _). set (s := snd _) in He.
  destruct (forced_full (_exit_config loop) st mark bt f1 f2 f3 f4 Hc Hw Hrem Hb) as (d & i & Hd & Hi & Hf & Hmode & _).
  { by rewrite Htrig, orb_true_r. }
  rewrite Hst, Hd in He. unfold lift in He.
  erewrite (bind_ok _ _ (set_store s w)) in He by reflexivity.
  unfold exit_states_set, modify in He. erewrite (bind_ok _ _ (set_store s w)) in He by reflexivity.
  set (w1 := set_exit_states _ (set_store s w)) in He.
  destruct (update_pnl_ok mint fsm pos st mark bt w1) as (w2 & p2 & Hu & Hp2 & Ho2 & Hm2 & Hx2); [done|done|exact Hq|].
  rewrite (bind_ok _ _ _ _ _ Hu) in He. unfold act_on, is_full_exit in He. rewrite Hi in He.
  rewrite Ho in Ho2. destruct (do_full_exit_ok fsm p2 (Exit i) w2 Hv Hp2 Ho2) as (w3 & Hx & Hcl & Hx3).
  rewrite (bind_ok _ _ _ _ _ Hx) in He. unfold mret at 1, M_ret at 1 in He.
  rewrite (bind_ok _ _ _ _ _ He), (bind_ok get _ w3 w3 w3) by done.
  do 2 eexists. split; [reflexivity|]. exists i, p2. rewrite Hx3, Hx2, Hm2, Hm in *. done.
Qed.
End Executed.

(** ** Positions the loop lets go of *)

Lemma tick_mint_not_open clock loop venue feed mint bt slot w fsm pos :
  dget mint (_fsm_registry w) = Some fsm → f_objs w !! fsm = Some pos → Position.fsm_state pos ≠ OPEN →
  tick_mint clock loop venue feed mint bt slot w = (Ok ([], []), w).
Proof.
  intros Hr Ho Hs. unfold tick_mint. rewrite (bind_ok get _ w w w) by done. rewrite Hr.
  rewrite (bind_ok _ _ w pos w) by (unfold fsm_position; by rewrite Ho).
  by rewrite bool_decide_eq_false_2.
Qed.

Definition sample_fast_loop : FastLoop := mk_fast_loop balanced 100 30.
(** An open position of 1000 tokens bought at 100. *)
Definition sample_open : Position.t :=
  Position.mk "M" "M" "EH-001" OPEN 7 100000 1000 0 "default" secure 0 3 false 1 None 0 sample_cost st_open complete.
Definition sample_fast_world : FastWorld :=
  mk_fast (StateStore.set_positions [("M", sample_open)] StateStore_init) [] [] [] (boot RiskConfig.defaults) None [].
Definition answers (landed : bool) (_ : exit_log) (_ : Intent) (_ : Position.t) : result FillResult.t :=
  Ok (FillResult.mk landed "" None None 0 0 "0" 0 0 0).
Definition flat_feed (price : Z) (_ : string) (_ : Z) : option dec := Some (dec_of_Z price).
Definition sample_tick (landed : bool) (price bt slot : Z) (w : FastWorld) : FastWorld :=
  snd (tick tick_clock sample_fast_loop (answers landed) (flat_feed price) (λ n, n) (λ _, None) (λ l, l) bt slot 0 5 w).
Definition fast_summary (w : FastWorld) : list (string * FSMState) * nat :=
  ((λ p, (Position.mint p, Position.fsm_state p)) <$> (_positions (f_store w)).*2, length (f_exits w)).

(** The loop closes a position on the exit call, not on its landing: with a
    venue that lands nothing, a tick at a breaching mark leaves no record of
    the position although none of it was sold. The flatten handler does look
    at the landing, but leaves the position CLOSING, a state no tick acts on:
    at the same breaching mark the following ticks send nothing. *)
Theorem unlanded_exit_abandons_position :
  fast_summary (sample_tick false 100 jan2 8 sample_fast_world) = ([("M", OPEN)], 0%nat) ∧
  fast_summary (sample_tick false 50 jan2 8 sample_fast_world) = ([], 1%nat) ∧
  let flattened := snd (emergency_flatten_all (answers false) "kill" (sample_tick false 100 jan2 8 sample_fast_world)) in
  fast_summary flattened = ([("M", CLOSING)], 1%nat) ∧
  fast_summary (sample_tick true 50 (jan2 + 1) 9 flattened) = ([("M", CLOSING)], 1%nat) ∧
  fast_summary (sample_tick true 1 (jan2 + 2) 10 (sample_tick true 50 (jan2 + 1) 9 flattened)) = ([("M", CLOSING)], 1%nat).
Proof. vm_compute. repeat split. Qed.

(** *** Witness *)

(** The same position tracked since its entry. *)
Definition tracked_world : FastWorld :=
  mk_fast (StateStore.set_positions [("M", sample_open)] StateStore_init) [sample_open] [("M", 0%nat)] [("M", entry100)]
    (boot RiskConfig.defaults) None [].

Lemma hard_stop_witness :
  length (f_exits (snd (tick_mint tick_clock sample_fast_loop (answers false) (flat_feed 50) "M" jan2 9 tracked_world))) = 1%nat.
Proof.
  assert (config_wf balanced) as Hc by (apply constructed_wf, balanced_constructed).
  assert (wf_fields entry100) as Hw by (apply state_wf_iff; vm_compute; reflexivity).
  assert (quiet_pnl tracked_world sample_open entry100 (dec_of_Z 50) jan2) as Hq.
  { exists "2026-01-02", (-15000000), (-10000000). split; [vm_compute; reflexivity|]. split; [exact default_ordered|].
    left. vm_compute. reflexivity. }
  assert (∀ log j q, ∃ f, answers false log j q = Ok f) as Hv by (intros; eexists; reflexivity).
  destruct (hard_stop_executed tick_clock sample_fast_loop (answers false) (flat_feed 50) "M" 0%nat sample_open entry100
    (dec_of_Z 50) jan2 9 tracked_world Hv Hc eq_refl eq_refl eq_refl eq_refl eq_refl Hw ltac:(vm_compute; reflexivity)
    eq_refl ltac:(vm_compute; discriminate) ltac:(vm_compute; reflexivity) Hq)
    as (out & w' & E & i & p & Hx & _). rewrite E. cbn [snd]. rewrite Hx. reflexivity.
Defined.
