(* ===== verification/FastExits.v ===== *)
(** * A tick serves every exit demand

    Totality and framing of the passes of [FastLoop.tick]: on a settled world
    the pass over the positions never raises, touches each mint only in its own
    turn, and sends a full exit for every position that is open, tracked, and
    at its stop, flagged, or without a price, even when a breaker trip on
    another position's PnL flattens everything in the middle of the pass. *)

From S2P Require Import Prelude Decimal RiskContracts CircuitBreaker SurvivableStop Intents ExitEngine Positions StateStore Fsm Enforcer FastLoop.

(** ** Calls that return *)

Section Triples.
Context {S : Type}.

(** [m] returns from [s], and its answer and the state it leaves satisfy [Q]. *)
Definition runs {A} (s : S) (m : M S A) (Q : A → S → Prop) : Prop := ∃ a s', m s = (Ok a, s') ∧ Q a s'.

Lemma runs_bind {A B} s (m : M S A) (f : A → M S B) P Q :
  runs s m P → (∀ a s', P a s' → runs s' (f a) Q) → runs s (m ≫= f) Q.
Proof. intros (a & s' & E & HP) Hf. destruct (Hf a s' HP) as (b & s2 & E2 & HQ). exists b, s2. unfold mbind, M_bind. by rewrite E. Qed.
Lemma runs_ret {A} s (a : A) (Q : A → S → Prop) : Q a s → runs s (mret a) Q.
Proof. intros H. by exists a, s. Qed.
Lemma runs_get s (Q : S → S → Prop) : Q s s → runs s get Q.
Proof. intros H. by exists s, s. Qed.
Lemma runs_modify s f (Q : unit → S → Prop) : Q tt (f s) → runs s (modify f) Q.
Proof. intros H. by exists tt, (f s). Qed.
Lemma runs_lift {A} s (r : result A) a (Q : A → S → Prop) : r = Ok a → Q a s → runs s (lift r) Q.
Proof. intros -> H. by exists a, s. Qed.
Lemma runs_conseq {A} s (m : M S A) (P Q : A → S → Prop) : runs s m P → (∀ a s', P a s' → Q a s') → runs s m Q.
Proof. intros (a & s' & E & HP) H. exists a, s'. auto. Qed.
End Triples.

Section Exits.
Context (_clock : nat → Z) (loop : FastLoop).
Context (venue_exit : exit_log → Intent → Position.t → result FillResult.t).
Context (get_mark_price : string → Z → option dec).
Context (_wall_epoch_ms : Z → Z) (hb_fails : Heartbeat.t → option string).
Context (set_order : list string → list string).

(** ** What a pass changes *)

(** The object [f] wraps a position of [x]. *)
Definition wraps (f : nat) (x : string) (w : FastWorld) : Prop :=
  ∃ p, f_objs w !! f = Some p ∧ Position.mint p = x.

(** The registry wraps positions of its own keys, the tracked exit states are
    well formed, the tiers of the breaker are ordered. *)
Record settled (w : FastWorld) : Prop := {
  st_registry : ∀ x f, dget x (_fsm_registry w) = Some f → wraps f x w;
  st_exits : ∀ x st, dget x (_exit_states w) = Some st → wf_fields st;
  st_breaker : ∃ hard soft, ordered (CircuitBreaker._config (_breaker w)) (_soft_ratio (_breaker w)) hard soft
}.

(** An open position the loop tracks; the store has no other idea of it. *)
Definition tracked (m : string) (w : FastWorld) : Prop :=
  (∃ f p, dget m (_fsm_registry w) = Some f ∧ f_objs w !! f = Some p ∧ Position.fsm_state p = OPEN) ∧
  Forall (λ q, Position.mint q = m → Position.fsm_state q = OPEN) (_positions (f_store w)).*2.

(** A full, SECURE exit of [m] was sent between the two worlds. *)
Definition sent (m : string) (w w' : FastWorld) : Prop :=
  ∃ l i p, f_exits w' = f_exits w ++ l ∧ (Exit i, p) ∈ l ∧ ExitIntent.fraction_bps i = 10000 ∧
    ExitIntent.mode i = secure ∧ Position.mint p = m.

Definition log_grows (w w' : FastWorld) : Prop := ∃ l, f_exits w' = f_exits w ++ l.

(** Nothing about [m] moved, but for flags that expired. *)
Definition same_for (m : string) (w w' : FastWorld) : Prop :=
  tracked m w' ∧ dget m (_exit_states w') = dget m (_exit_states w) ∧
  ∀ fl E, expiry_of fl (f_store w) m = Some E → before _clock E (f_store w) (f_store w') → expiry_of fl (f_store w') m = Some E.

(** From a settled world: only the mints in [X] may change without an exit. *)
Record frame (X : string → Prop) (w w' : FastWorld) : Prop := {
  fr_settled : settled w';
  fr_log : log_grows w w';
  fr_wraps : ∀ f x, wraps f x w → wraps f x w';
  fr_reads : (_reads (f_store w) ≤ _reads (f_store w'))%nat;
  fr_other : ∀ m, ¬ X m → tracked m w → sent m w w' ∨ same_for m w w'
}.

Lemma log_refl w : log_grows w w.
Proof. exists []. by rewrite app_nil_r. Qed.
Lemma log_same w w' : f_exits w' = f_exits w → log_grows w w'.
Proof. intros E. exists []. by rewrite app_nil_r. Qed.
Lemma log_trans w1 w2 w3 : log_grows w1 w2 → log_grows w2 w3 → log_grows w1 w3.
Proof. intros [l E] [l' E']. exists (l ++ l'). by rewrite E', E, app_assoc. Qed.
Lemma sent_log m w1 w2 w3 : sent m w1 w2 → log_grows w2 w3 → sent m w1 w3.
Proof.
  intros (l & i & p & E & Hin & H) [l' E']. exists (l ++ l'), i, p. rewrite E', E, app_assoc. split; [done|].
  split; [by apply elem_of_app; left|done].
Qed.
Lemma log_sent m w1 w2 w3 : log_grows w1 w2 → sent m w2 w3 → sent m w1 w3.
Proof.
  intros [l' E] (l & i & p & E' & Hin & H). exists (l' ++ l), i, p. rewrite E', E, app_assoc. split; [done|].
  split; [by apply elem_of_app; right|done].
Qed.

Lemma frame_refl X w : settled w → frame X w w.
Proof. intros Hs. split; try done; [apply log_refl|]. intros m _ Ht. right. by split_and!. Qed.

Lemma frame_mono (X Y : string → Prop) w w' : (∀ m, X m → Y m) → frame X w w' → frame Y w w'.
Proof. intros H []. split; try done. intros m Hm. apply fr_other0. auto. Qed.

Lemma frame_trans X w1 w2 w3 : frame X w1 w2 → frame X w2 w3 → frame X w1 w3.
Proof.
  intros F1 F2. split.
  - apply F2.
  - eapply log_trans; [apply F1|apply F2].
  - intros f x H. by apply (fr_wraps _ _ _ F2), (fr_wraps _ _ _ F1).
  - pose proof (fr_reads _ _ _ F1). pose proof (fr_reads _ _ _ F2). lia.
  - intros m Hm Ht. destruct (fr_other _ _ _ F1 m Hm Ht) as [Hs|(Ht2 & He2 & Hf2)].
    { left. eapply sent_log; [done|apply F2]. }
    destruct (fr_other _ _ _ F2 m Hm Ht2) as [Hs|(Ht3 & He3 & Hf3)].
    { left. eapply log_sent; [apply F1|done]. }
    right. split; [done|]. split; [congruence|]. intros fl E HE Hb.
    pose proof (fr_reads _ _ _ F1). pose proof (fr_reads _ _ _ F2).
    apply Hf3; [apply Hf2; [done|]|]; (eapply before_sub; [done|lia..]).
Qed.

(** *** The primitive calls *)

Lemma frame_store X op w : settled w →
  (∀ fl m, writes_flag fl op = Some m → X m) →
  _positions (snd (run_op _clock op (f_store w))) = _positions (f_store w) →
  frame X w (set_store (snd (run_op _clock op (f_store w))) w).
Proof.
  intros Hs Hw Hp. destruct Hs as [H1 H2 H3]. split.
  - by split.
  - by apply log_same.
  - done.
  - apply (run_op_frame _clock op (f_store w) "").
  - intros m Hm [Ht HF]. right. split; [|split; [done|]].
    + split; [exact Ht|]. cbn. by rewrite Hp.
    + intros fl E HE Hb. apply flag_kept; [|done..]. intros Hx. by apply Hm, (Hw fl).
Qed.

Lemma frame_exit w i p : settled w → frame (λ _, False) w (set_exits (f_exits w ++ [(i, p)]) w).
Proof.
  intros [H1 H2 H3]. split; [by split|by exists [(i, p)]|done|done|]. intros m _ Ht. right. by split_and!.
Qed.

Lemma frame_registry_pop x w : settled w → frame (eq x) w (set_registry (dpop x (_fsm_registry w)) w).
Proof.
  intros [H1 H2 H3]. split; [|by apply log_same|done|done|].
  - split; try done. cbn. intros y f Hy. destruct (base.decide (x = y)) as [->|Hne]; [by rewrite dget_dpop in Hy|].
    rewrite dget_dpop_ne in Hy by done. by apply (H1 y f).
  - intros m Hm [(f & p & Hf & Ho) HF]. right. split; [|done]. split; [|done]. exists f, p. cbn. by rewrite dget_dpop_ne.
Qed.

Lemma frame_registry_set x f w : settled w → wraps f x w → dget x (_fsm_registry w) = None →
  frame (λ _, False) w (set_registry (dset x f (_fsm_registry w)) w).
Proof.
  intros [H1 H2 H3] Hx Hn. split; [|by apply log_same|done|done|].
  - split; try done. cbn. intros y g Hy. destruct (base.decide (x = y)) as [->|Hne]; [rewrite dget_dset in Hy; by simplify_eq|].
    rewrite dget_dset_ne in Hy by done. by apply (H1 y g).
  - intros m _ [(g & p & Hg & Ho) HF]. right. split; [|done]. split; [|done]. exists g, p. cbn.
    rewrite dget_dset_ne by congruence. done.
Qed.

Lemma frame_exit_states_pop x w : settled w → frame (eq x) w (set_exit_states (dpop x (_exit_states w)) w).
Proof.
  intros [H1 H2 H3]. split; [|by apply log_same|done|done|].
  - split; try done. cbn. intros y st Hy. destruct (base.decide (x = y)) as [->|Hne]; [by rewrite dget_dpop in Hy|].
    rewrite dget_dpop_ne in Hy by done. by apply (H2 y st).
  - intros m Hm Ht. right. split; [done|]. split; [|done]. cbn. by rewrite dget_dpop_ne.
Qed.

Lemma frame_exit_states_set x st w : settled w → wf_fields st →
  frame (eq x) w (set_exit_states (dset x st (_exit_states w)) w).
Proof.
  intros [H1 H2 H3] Hst. split; [|by apply log_same|done|done|].
  - split; try done. cbn. intros y st' Hy. destruct (base.decide (x = y)) as [->|Hne]; [rewrite dget_dset in Hy; by simplify_eq|].
    rewrite dget_dset_ne in Hy by done. by apply (H2 y st').
  - intros m Hm Ht. right. split; [done|]. split; [|done]. cbn. by rewrite dget_dset_ne.
Qed.

Lemma frame_wiring g w : settled w → frame (λ _, False) w (set_wiring g w).
Proof. intros [H1 H2 H3]. split; [by split|by apply log_same|done|done|]. intros m _ Ht. right. by split_and!. Qed.

Lemma frame_new_fsm p w : settled w →
  frame (λ _, False) w (snd (new_fsm p w)) ∧ wraps (length (f_objs w)) (Position.mint p) (snd (new_fsm p w)).
Proof.
  intros [H1 H2 H3]. assert (∀ f x, wraps f x w → wraps f x (snd (new_fsm p w))) as Hw.
  { intros f x (q & Hq & Hm). exists q. split; [|done]. cbn. by apply lookup_app_l_Some. }
  split; [|exists p; split; [cbn; by rewrite lookup_app_r, Nat.sub_diag|done]].
  split; [|by apply log_same|done|done|].
  - split; try done. intros x f Hx. by apply Hw, H1.
  - intros m _ [(f & q & Hf & Ho & Hq) HF]. right. split; [|done]. split; [|done]. exists f, q.
    split; [done|]. split; [|done]. cbn. by apply lookup_app_l_Some.
Qed.

(** *** The state machine of one mint *)

(** The calls the passes make on an object. *)
Definition pass_op (op : fsm_op) : Prop :=
  op = ToVetoed ∨ op = ToClosing ∨ op = ToClosed (PyInt 0) ∨ (∃ u, op = Unrealized (PyInt u)) ∨ op = TpHit.
Definition bookkeeping (op : fsm_op) : Prop := (∃ u, op = Unrealized (PyInt u)) ∨ op = TpHit.

Lemma exec_result op f : pass_op op →
  (fst (exec op f) = Ok tt ∨ ∃ msg, fst (exec op f) = Raise (ValueError msg)) ∧ (bookkeeping op → fst (exec op f) = Ok tt) ∧
  _reads (_store (snd (exec op f))) = _reads (_store f) ∧
  ∀ fl m, expiry_of fl (_store (snd (exec op f))) m = expiry_of fl (_store f) m.
Proof.
  assert (∀ a b, validate_fsm_transition a b = Ok tt ∨ ∃ msg, validate_fsm_transition a b = Raise (ValueError msg)) as Hv.
  { intros a b. unfold validate_fsm_transition. repeat case_match; eauto. }
  destruct f as [s p]. intros Ho. destruct Ho as [-> | [-> | [-> | [(u & ->) | ->]]]]; cbn [exec];
    unfold transition_to_vetoed, transition_to_closing, transition_to_closed, update_unrealized_pnl, record_tp_hit; fsm_step;
    try match goal with |- context [validate_fsm_transition ?a ?b] => destruct (Hv a b) as [-> | [msg ->]]; cbn end;
    (split; [by eauto|]); (split; [try done; by intros [[? [=]]|[=]]|]); (split; [done|]); by intros [].
Qed.

Lemma on_fsm_frame f x op w : pass_op op → settled w → wraps f x w →
  ∃ r w', on_fsm f op w = (r, w') ∧ frame (eq x) w w' ∧
    (r = Ok tt ∨ ∃ msg, r = Raise (ValueError msg)) ∧ (bookkeeping op → r = Ok tt).
Proof.
  intros Ho Hs (p & Hp & Hm). unfold on_fsm. rewrite Hp.
  assert (∀ fill, op ≠ ToOpen fill) as Hno by (intros fill ->; destruct Ho as [|[|[|[[? ?]|]]]]; done).
  destruct (exec_result op (mk_fsm (f_store w) p) Ho) as (Hr & Hb & Hrd & Hfl).
  pose proof (λ P, exec_descends op (mk_fsm (f_store w) p) P Hno) as Hd.
  destruct (exec op _) as [r g]; cbn in *. eexists _, _. split; [reflexivity|]. split; [|done].
  assert (Position.mint (_position g) = x) as Hg.
  { destruct (Hd (λ _, True)) as [[Hmg _] _]; [done|by apply Forall_true|]. congruence. }
  destruct Hs as [H1 H2 H3]. pose proof (lookup_lt_Some _ _ _ Hp) as Hlt.
  assert (∀ f' y, wraps f' y w → ∃ q, <[f:=_position g]> (f_objs w) !! f' = Some q ∧ Position.mint q = y) as Hwr.
  { intros f' y (q & Hq & Hy). destruct (base.decide (f = f')) as [<-|Hne].
    - exists (_position g). rewrite list_lookup_insert_eq by done. split; [done|]. simplify_eq. congruence.
    - exists q. by rewrite list_lookup_insert_ne. }
  split; cbn; [|by apply log_same|done|lia|].
  - split; cbn; [|done..]. intros y f' Hy. by apply Hwr, H1.
  - intros m Hne [(f' & q & Hf' & Hq & Hopen) HF]. right. split; [|split; [done|]].
    + split; cbn.
      * exists f', q. split; [done|]. split; [|done]. rewrite list_lookup_insert_ne; [done|]. intros <-.
        destruct (H1 m f Hf') as (q' & Hq' & Hmq). by simplify_eq.
      * apply (Hd (λ q, Position.mint q = m → Position.fsm_state q = OPEN)); [|done].
        intros q' (Hm' & _) Hmq. congruence.
    + intros fl E HE _. cbn. by rewrite Hfl.
Qed.

Lemma runs_on_fsm f x op w : bookkeeping op → settled w → wraps f x w →
  runs w (on_fsm f op) (λ _ w', frame (eq x) w w').
Proof.
  intros Hb Hs Hw. assert (pass_op op) as Ho by (unfold pass_op; destruct Hb; auto).
  destruct (on_fsm_frame f x op w Ho Hs Hw) as (r & w' & E & HF & _ & Hr). rewrite (Hr Hb) in E. by exists tt, w'.
Qed.

Lemma runs_catch f x op w : pass_op op → settled w → wraps f x w →
  runs w (catch_value_error (on_fsm f op)) (λ _ w', frame (eq x) w w').
Proof.
  intros Ho Hs Hw. destruct (on_fsm_frame f x op w Ho Hs Hw) as (r & w' & E & HF & Hr & _).
  exists tt, w'. unfold catch_value_error. rewrite E. split; [|done]. by destruct Hr as [->|[msg ->]].
Qed.

Lemma runs_close_out f x w : settled w → wraps f x w →
  runs w (catch_value_error (on_fsm f ToClosing;; on_fsm f (ToClosed (PyInt 0)))) (λ _ w', frame (eq x) w w').
Proof.
  intros Hs Hw.
  destruct (on_fsm_frame f x ToClosing w) as (r & w1 & E1 & F1 & Hr1 & _); [by right; left|done..|].
  unfold runs, catch_value_error, mbind, M_bind. rewrite E1. destruct Hr1 as [->|[msg ->]]; [|by exists tt, w1].
  destruct (on_fsm_frame f x (ToClosed (PyInt 0)) w1) as (r2 & w2 & E2 & F2 & Hr2 & _);
    [by right; right; left|apply F1|by apply (fr_wraps _ _ _ F1)|].
  rewrite E2. exists tt, w2. split; [by destruct Hr2 as [->|[msg ->]]|]. by eapply frame_trans.
Qed.

(** *** Flattening, and the breaker that may ask for it *)

Hypothesis venue_returns : ∀ log i p, ∃ fill, venue_exit log i p = Ok fill.

Lemma runs_exit w i p : settled w →
  runs w (exit venue_exit i p) (λ _ w', frame (λ _, False) w w' ∧ f_exits w' = f_exits w ++ [(i, p)]).
Proof.
  intros Hs. destruct (venue_returns (f_exits w) i p) as [fill E].
  exists fill, (set_exits (f_exits w ++ [(i, p)]) w). split; [unfold exit, exit_call; by rewrite E|]. split; [by apply frame_exit|done].
Qed.

Lemma frame_sent x w w1 w2 : frame (λ _, False) w w1 → sent x w w1 → frame (eq x) w1 w2 → frame (λ _, False) w w2.
Proof.
  intros F1 Hs F2. destruct (frame_trans (eq x) w w1 w2) as [H1 H2 H3 H4 H5]; [by apply (frame_mono (λ _, False))|done|].
  split; try done. intros m _ Ht. destruct (base.decide (x = m)) as [<-|Hne]; [|by apply H5].
  left. eapply sent_log; [done|apply F2].
Qed.

Lemma sent_last w w' i p : f_exits w' = f_exits w ++ [(Exit i, p)] → ExitIntent.fraction_bps i = 10000 →
  ExitIntent.mode i = secure → sent (Position.mint p) w w'.
Proof. intros E ??. exists [(Exit i, p)], i, p. split_and!; try done. by left. Qed.

Lemma frame_none X w w' : frame (λ _, False) w w' → frame X w w'.
Proof. by apply frame_mono. Qed.

(** The object a method call is made on: the registry's, or a new one. *)
Lemma runs_object x p w (Q : nat → FastWorld → Prop) : settled w → Position.mint p = x →
  (∀ f w', frame (λ _, False) w w' → wraps f x w' → Q f w') →
  runs w (match dget x (_fsm_registry w) with Some f => mret f | None => new_fsm p end : M FastWorld nat) Q.
Proof.
  intros Hs Hm HQ. destruct (dget x (_fsm_registry w)) as [f|] eqn:E.
  - apply runs_ret, HQ; [by apply frame_refl|by apply Hs].
  - destruct (frame_new_fsm p w Hs) as [HF Hw]. eexists _, _. split; [reflexivity|]. rewrite Hm in Hw. by apply HQ.
Qed.

Lemma runs_registry_pop x w : settled w → runs w (registry_pop x) (λ _ w', frame (eq x) w w').
Proof. intros Hs. by apply runs_modify, frame_registry_pop. Qed.

Definition entering_of (pos : Position.t) (m : string) : Prop := Position.mint pos = m ∧ Position.fsm_state pos = ENTERING.

(** What has happened so far, then one more call. *)
Lemma runs_then {A} X w w1 (m : M FastWorld A) :
  frame X w w1 → runs w1 m (λ _ w', frame X w1 w') → runs w1 m (λ _ w', frame X w w').
Proof. intros F H. eapply runs_conseq; [exact H|]. cbn. intros _ w' F'. by eapply frame_trans. Qed.

Lemma runs_close_flat (opened landed : bool) f x w : settled w → wraps f x w →
  runs w ((if opened then catch_value_error (on_fsm f ToClosing) else mret tt);;
          (if landed then catch_value_error (on_fsm f (ToClosed (PyInt 0))) else mret tt)) (λ _ w', frame (eq x) w w').
Proof.
  intros Hs Hw. eapply (runs_bind _ _ _ (λ _ w', frame (eq x) w w')).
  - destruct opened; [apply runs_catch; by unfold pass_op; auto|]. by apply runs_ret, frame_refl.
  - intros [] w1 F1. apply (runs_then _ _ w1); [done|].
    pose proof (fr_settled _ _ _ F1). pose proof (fr_wraps _ _ _ F1 _ _ Hw).
    destruct landed; [apply runs_catch; by unfold pass_op; auto|]. by apply runs_ret, frame_refl.
Qed.

Lemma runs_flatten_position pos reason w : settled w →
  runs w (_flatten_position venue_exit pos reason) (λ _ w', frame (entering_of pos) w w').
Proof.
  intros Hs. unfold _flatten_position. eapply runs_bind; [by apply (runs_get _ (λ a s, a = w ∧ s = w))|intros ? ? [-> ->]].
  assert (∀ opened : bool, runs w
    (exit_intent ← lift (ExitIntent.new (make_client_intent_id (Position.mint pos) (Position.entry_slot pos) "EMERGENCY_EXIT")
                      (Position.mint pos) 10000 secure ("emergency_flatten:" +:+ reason));
     fill ← exit venue_exit (Exit exit_intent) pos;
     w ← get;
     match dget (Position.mint pos) (_fsm_registry w) with
     | None => mret tt
     | Some fsm =>
         (if opened then catch_value_error (on_fsm fsm ToClosing) else mret tt);;
         (if FillResult.landed fill then catch_value_error (on_fsm fsm (ToClosed (PyInt 0))) else mret tt)
     end) (λ _ w', frame (λ _, False) w w')) as Hflat.
  { intros opened. eapply runs_bind; [eapply (runs_lift _ _ _ (λ e s, s = w ∧ ExitIntent.fraction_bps e = 10000 ∧ ExitIntent.mode e = secure)); done
      |cbn beta; intros e ? (-> & Hf & Hm)].
    eapply runs_bind; [by apply runs_exit|cbn beta; intros fill w1 [F1 E1]].
    pose proof (sent_last w w1 e pos E1 Hf Hm) as Hsent. pose proof (fr_settled _ _ _ F1) as Hs1.
    eapply runs_bind; [by apply (runs_get _ (λ a s, a = w1 ∧ s = w1))|intros ? ? [-> ->]].
    destruct (dget _ _) as [f|] eqn:Ef; [|by apply runs_ret].
    eapply runs_conseq; [apply (runs_close_flat opened (FillResult.landed fill) f (Position.mint pos)); [done|by apply Hs1]|].
    intros [] w2 F2. by eapply frame_sent. }
  destruct (Position.fsm_state pos) eqn:Est; try (by apply runs_ret, frame_refl).
  - eapply runs_bind; [by apply (runs_object (Position.mint pos) pos w (λ f w', frame (λ _, False) w w' ∧ wraps f (Position.mint pos) w'))
      |intros f w1 [F1 Hw]].
    pose proof (fr_settled _ _ _ F1). eapply runs_bind; [apply runs_catch; by unfold pass_op; auto|intros [] w2 F2].
    eapply runs_conseq; [apply runs_registry_pop, F2|intros [] w3 F3].
    apply (frame_mono (eq (Position.mint pos))); [by intros m <-|].
    eapply frame_trans; [by apply frame_none|by eapply frame_trans].
  - eapply runs_conseq; [apply (Hflat (bool_decide (OPEN = OPEN)))|intros [] w' F; by apply frame_none].
  - eapply runs_conseq; [apply (Hflat (bool_decide (CLOSING = OPEN)))|intros [] w' F; by apply frame_none].
Qed.

Lemma runs_flatten_each ps reason w : settled w →
  runs w (flatten_each venue_exit ps reason) (λ _ w', frame (λ m, Exists (λ p, entering_of p m) ps) w w').
Proof.
  revert w. induction ps as [|p ps IH]; intros w Hs; cbn [flatten_each]; [by apply runs_ret, frame_refl|].
  eapply runs_bind; [by apply runs_flatten_position|intros [] w1 F1].
  apply (runs_then _ _ w1); [eapply frame_mono; [|exact F1]; intros m Hm; by left|].
  eapply runs_conseq; [apply IH, F1|]. intros [] w2 F2. eapply frame_mono; [|exact F2]. intros m Hm. by right.
Qed.

(** A position open in the store is not among the entries a flatten vetoes. *)
Lemma runs_flatten_all reason w : settled w →
  runs w (emergency_flatten_all venue_exit reason) (λ _ w', frame (λ _, False) w w').
Proof.
  intros Hs. unfold emergency_flatten_all.
  eapply (runs_bind _ _ _ (λ ps w', ps = (_positions (f_store w)).*2 ∧ w' = w)); [eexists _, _; split; [reflexivity|by destruct w]|].
  intros ? ? [-> ->]. eapply runs_conseq; [by apply runs_flatten_each|]. intros [] w' [H1 H2 H3 H4 H5]. split; try done.
  intros m _ Ht. apply H5; [|done]. intros (p & Hp & Hm & He)%Exists_exists. destruct Ht as [_ HF].
  rewrite Forall_forall in HF. specialize (HF p Hp Hm). congruence.
Qed.

Lemma frame_brk b w : settled w →
  (∃ hard soft, ordered (CircuitBreaker._config b) (_soft_ratio b) hard soft) → frame (λ _, False) w (set_brk b w).
Proof.
  intros [H1 H2 H3] Ho. split; [by split|by apply log_same|done|done|]. intros m _ Ht. right. by split_and!.
Qed.

#[local] Arguments record_pnl : simpl never.

Lemma runs_breaker ev day w : settled w → _utc_day_key (PnLEvent.block_time_ms ev) = Ok day →
  runs w (breaker_record_pnl venue_exit ev) (λ _ w', frame (λ _, False) w w').
Proof.
  intros Hs Hday. destruct (st_breaker w Hs) as (hard & soft & Ho). unfold breaker_record_pnl.
  assert (∀ r, ∃ w', emergency_flatten_all venue_exit r w = (Ok tt, w') ∧ frame (λ _, False) w w') as Hall.
  { intros r. destruct (runs_flatten_all r w Hs) as ([] & w' & E & F). eauto. }
  destruct (record_pnl_returns (λ reason, fst (emergency_flatten_all venue_exit reason w)) (_breaker w) ev day hard soft)
    as (st & b' & E & Hc & Hr); [intros r; by destruct (Hall r) as (w' & -> & _)|done..|].
  eexists st, _. rewrite E. split; [reflexivity|].
  destruct (drop _ _) as [|r l]; [apply frame_brk; [done|]; rewrite Hc, Hr; eauto|].
  destruct (Hall r) as (w' & -> & F). eapply frame_trans; [exact F|]. apply frame_brk; [apply F|]. rewrite Hc, Hr. eauto.
Qed.

Lemma runs_save_breaker st w : settled w →
  runs w (in_store (save_breaker_state st)) (λ _ w', frame (λ _, False) w w').
Proof.
  intros Hs. eexists _, _. split; [reflexivity|]. apply (frame_store _ (OpBreaker st)); [done| |done]. by intros [].
Qed.

(** ** One position's turn *)

Section Turn.
Context (bt slot : Z) (day : string).
Hypothesis Hbt : 0 ≤ bt.
Hypothesis Hday : _utc_day_key bt = Ok day.
Hypothesis Hcfg : config_wf (_exit_config loop).

Lemma runs_update_pnl x f pos st mark w : settled w → wraps f x w →
  runs w (update_pnl venue_exit x f pos st mark bt) (λ _ w', frame (eq x) w w').
Proof.
  intros Hs Hw. unfold update_pnl. destruct (_ && _); [|by apply runs_ret, frame_refl].
  eapply runs_bind; [apply (runs_on_fsm f x); [by left; eexists|done..]|intros [] w1 F1].
  eapply runs_bind; [eapply (runs_lift _ _ _ (λ e s, PnLEvent.block_time_ms e = bt ∧ s = w1));
    [unfold PnLEvent.__post_init__; cbn; by rewrite (proj2 (Z.ltb_ge bt 0))|done]|cbn beta; intros e ? [He ->]].
  pose proof (fr_settled _ _ _ F1) as Hs1.
  eapply runs_bind; [apply (runs_breaker e day); [done|by rewrite He]|intros b w2 F2].
  apply (runs_then _ _ w2); [eapply frame_trans; [done|by apply frame_none]|].
  eapply runs_conseq; [apply runs_save_breaker, F2|intros [] w3 F3; by apply frame_none].
Qed.

Lemma runs_clean_up x w : settled w →
  runs w (registry_pop x;; exit_states_pop x;; wiring_deregister x;;
          in_store (set_cooldown _clock x (_cooldown_seconds loop))) (λ _ w', frame (eq x) w w').
Proof.
  intros Hs. eapply runs_bind; [by apply runs_registry_pop|intros [] w1 F1].
  pose proof (fr_settled _ _ _ F1) as Hs1.
  eapply (runs_bind _ _ _ (λ _ w', frame (eq x) w w')); [apply runs_modify|intros [] w2 F2].
  { eapply frame_trans; [done|by apply frame_exit_states_pop]. }
  pose proof (fr_settled _ _ _ F2) as Hs2.
  eapply (runs_bind _ _ _ (λ _ w', frame (eq x) w w')); [apply runs_modify|intros [] w3 F3].
  { eapply frame_trans; [done|by apply frame_none, frame_wiring]. }
  pose proof (fr_settled _ _ _ F3) as Hs3. apply (runs_then _ _ w3); [done|].
  eexists _, _. split; [reflexivity|]. apply (frame_store _ (OpSetCooldown x (_cooldown_seconds loop))); [done| |done].
  intros fl m. destruct fl; cbn; naive_solver.
Qed.

Lemma runs_position f x w : wraps f x w → runs w (fsm_position f) (λ p w', w' = w ∧ f_objs w !! f = Some p ∧ Position.mint p = x).
Proof. intros (p & Hp & Hm). exists p, w. unfold fsm_position. by rewrite Hp. Qed.

(** The full exit: it goes to the log whatever follows. *)
Definition exits_fully (x : string) (i : Intent) (w w' : FastWorld) : Prop :=
  frame (eq x) w w' ∧ ∃ p, Position.mint p = x ∧ ∃ l, f_exits w' = f_exits w ++ (i, p) :: l.

Lemma runs_full_exit f x i w : settled w → wraps f x w →
  runs w (_do_full_exit _clock loop venue_exit f i) (λ _ w', exits_fully x i w w').
Proof.
  intros Hs Hw. unfold _do_full_exit. eapply runs_bind; [by apply (runs_position f x)|cbn beta; intros p ? (-> & Hp & Hm)].
  eapply runs_bind; [by apply runs_exit|cbn beta; intros fill w1 [F1 E1]]. pose proof (fr_settled _ _ _ F1) as Hs1.
  eapply runs_bind; [apply (runs_close_out f x); [done|by apply (fr_wraps _ _ _ F1)]|intros [] w2 F2].
  rewrite Hm. eapply runs_conseq; [apply runs_clean_up, F2|intros [] w3 F3].
  split; [eapply frame_trans; [by apply frame_none|by eapply frame_trans]|].
  exists p. split; [done|]. destruct (log_trans _ _ _ (fr_log _ _ _ F2) (fr_log _ _ _ F3)) as [l El].
  exists l. by rewrite El, E1, <- app_assoc.
Qed.

Lemma runs_scale_out f x i w : settled w → wraps f x w →
  runs w (_do_scale_out venue_exit f i) (λ _ w', frame (eq x) w w').
Proof.
  intros Hs Hw. unfold _do_scale_out. eapply runs_bind; [by apply (runs_position f x)|cbn beta; intros p ? (-> & _ & _)].
  eapply runs_bind; [by apply runs_exit|cbn beta; intros fill w1 [F1 _]]. by apply runs_ret, frame_none.
Qed.

Lemma runs_act_on x f d w : settled w → wraps f x w →
  runs w (act_on _clock loop venue_exit x f d) (λ _ w', frame (eq x) w w' ∧
    ∀ i, d_intent d = Some (Exit i) → exits_fully x (Exit i) w w').
Proof.
  intros Hs Hw. unfold act_on, is_full_exit. destruct (d_intent d) as [i|]; [|apply runs_ret; split; [by apply frame_refl|done]].
  assert (runs w (_do_full_exit _clock loop venue_exit f i;; mret ["exit:full:" +:+ x +:+ ":" +:+ reason_value (d_reason d)])
    (λ _ w', exits_fully x i w w')) as Hfull.
  { eapply runs_bind; [by apply (runs_full_exit f x)|cbn beta; intros _ w1 H]. by apply runs_ret. }
  assert (runs w (_do_scale_out venue_exit f i;; on_fsm f TpHit;;
    mret ["exit:scale_out:" +:+ x +:+ ":" +:+ reason_value (d_reason d)]) (λ _ w', frame (eq x) w w')) as Hpart.
  { eapply runs_bind; [by apply (runs_scale_out f x)|intros [] w1 F1].
    eapply runs_bind; [apply (runs_on_fsm f x); [by right|apply F1|by apply (fr_wraps _ _ _ F1)]|intros [] w2 F2].
    apply runs_ret. by eapply frame_trans. }
  destruct i; cbn; (eapply runs_conseq; [first [exact Hfull|exact Hpart]|]); cbn beta.
  all: intros _ w' H; split; [first [exact H|apply H]|]; intros j Hj; try discriminate Hj; by injection Hj as <-.
Qed.

(** What a turn has to see for the position to leave: no price, a mark at or
    below the stop, or an exit flag in force at every reading of the clock up
    to the store [s']. *)
Definition demanded (m : string) (w : FastWorld) (s' : StateStore) : Prop :=
  match get_mark_price m slot with
  | None => True
  | Some mark => ∃ st, dget m (_exit_states w) = Some st ∧ 0 < ExitState.remaining_bps st ∧
      (dleb mark (StopState.trigger_price (ExitState.stop st)) = true ∨
       ∃ fl E, exit_flag fl ∧ expiry_of fl (f_store w) m = Some E ∧ before _clock E (f_store w) s')
  end.

Lemma exits_fully_sent x i w w' : exits_fully x (Exit i) w w' → ExitIntent.fraction_bps i = 10000 →
  ExitIntent.mode i = secure → sent x w w'.
Proof.
  intros (_ & p & Hm & l & E) ??. exists ((Exit i, p) :: l), i, p. split_and!; try done. by left.
Qed.

Lemma frame_flag_reads x w : settled w →
  frame (λ _, False) w (set_store (snd (run_ops _clock (reads_of x) (f_store w))) w).
Proof.
  assert (∀ fl w, settled w → frame (λ _, False) w (set_store (snd (run_op _clock (reads_flag fl x) (f_store w))) w)) as H.
  { intros fl w' Hs. apply frame_store; [done| |apply reads_flag_positions]. by intros [] ?; destruct fl. }
  intros Hs. unfold reads_of. rewrite !run_ops_cons. cbn [run_ops snd].
  pose proof (H Narrative w Hs) as F1. pose proof (H Insider _ (fr_settled _ _ _ F1)) as F2.
  pose proof (H Sellability _ (fr_settled _ _ _ F2)) as F3. pose proof (H Lp _ (fr_settled _ _ _ F3)) as F4.
  eapply frame_trans; [exact F1|]. eapply frame_trans; [exact F2|]. eapply frame_trans; [exact F3|exact F4].
Qed.

Lemma runs_evaluate x f pos mark w : settled w → wraps f x w →
  runs w (evaluate _clock loop venue_exit x f pos mark bt) (λ _ w', frame (eq x) w w' ∧
    (get_mark_price x slot = Some mark → demanded x w (f_store w') → sent x w w')).
Proof.
  intros Hs Hw. destruct (evaluate_flags _clock loop venue_exit x f pos mark bt w) as (f1 & f2 & f3 & f4 & E & Hfl).
  pose proof (frame_flag_reads x w Hs) as F0. unfold runs. rewrite E. clear E.
  set (w0 := set_store _ w) in *. pose proof (fr_settled _ _ _ F0) as Hs0. pose proof (fr_wraps _ _ _ F0 _ _ Hw) as Hw0.
  unfold demanded. destruct (dget x (_exit_states w)) as [st|] eqn:Est.
  2:{ eexists [], w0. split; [done|]. split; [by apply frame_none|]. intros ->. by intros (? & ? & _). }
  pose proof (st_exits _ Hs _ _ Est) as Hst.
  destruct (on_tick_spec (_exit_config loop) st (mk_tick (NDec mark) (PyInt bt) f1 f2 f3 f4 None) bt mark None Hcfg Hst)
    as (d & Hd & Hdw & _ & _ & _); [done|].
  eapply runs_bind; [eapply (runs_lift _ _ _ (λ a s, a = d ∧ s = w0)); done|cbn beta; intros ? ? [-> ->]].
  eapply (runs_bind _ _ _ (λ _ w', frame (eq x) w0 w')); [by apply runs_modify, frame_exit_states_set|intros [] w1 F1].
  pose proof (fr_settled _ _ _ F1) as Hs1. pose proof (fr_wraps _ _ _ F1 _ _ Hw0) as Hw1.
  eapply runs_bind; [by apply (runs_update_pnl x f pos st mark w1)|intros [] w2 F2].
  pose proof (fr_settled _ _ _ F2) as Hs2. pose proof (fr_wraps _ _ _ F2 _ _ Hw1) as Hw2.
  eapply runs_conseq; [by apply (runs_act_on x f d w2)|cbn beta; intros _ w3 [F3 Hx]].
  assert (frame (eq x) w0 w3) as F03 by (eapply frame_trans; [done|by eapply frame_trans]).
  split; [eapply frame_trans; [by apply frame_none|done]|]. intros -> (st' & [= <-] & Hrem & Hdem).
  destruct (forced_full (_exit_config loop) st mark bt f1 f2 f3 f4 Hcfg Hst Hrem Hbt) as (d' & i & Hd' & Hi & Hf & Hm & _).
  { destruct Hdem as [-> | (fl & E & Hef & HE & Hb)]; [by rewrite orb_true_r|]. rewrite (Hfl fl E Hef HE); [done|].
    eapply before_sub; [exact Hb|done|]. apply (fr_reads _ _ _ F03). }
  simplify_eq. rewrite Hd in Hd'. injection Hd' as <-.
  eapply log_sent; [apply F0|]. eapply log_sent; [apply F1|]. eapply log_sent; [apply F2|].
  eapply exits_fully_sent; [by apply Hx|done..].
Qed.

Definition force_intent (p : Position.t) (reason : string) : ExitIntent.t :=
  ExitIntent.mk (make_client_intent_id (Position.mint p) (Position.entry_slot p) "FORCE_EXIT") (Position.mint p) 10000 secure reason.

Lemma force_exit_eq f reason p w : f_objs w !! f = Some p →
  _force_exit _clock loop venue_exit f reason w = _do_full_exit _clock loop venue_exit f (Exit (force_intent p reason)) w.
Proof.
  intros Hp. assert (fsm_position f w = (Ok p, w)) as E by (unfold fsm_position; by rewrite Hp).
  unfold _force_exit, _do_full_exit. by rewrite !(bind_ok _ _ _ _ _ E).
Qed.

Lemma runs_tick_mint x w : settled w →
  runs w (tick_mint _clock loop venue_exit get_mark_price x bt slot) (λ _ w', frame (eq x) w w' ∧
    (tracked x w → demanded x w (f_store w') → sent x w w')).
Proof.
  intros Hs. unfold tick_mint. eapply runs_bind; [by apply (runs_get _ (λ a s, a = w ∧ s = w))|intros ? ? [-> ->]].
  destruct (dget x (_fsm_registry w)) as [f|] eqn:Ef.
  2:{ apply runs_ret. split; [by apply frame_refl|]. intros [(f & p & Hf & _) _]. congruence. }
  pose proof (st_registry _ Hs _ _ Ef) as Hw.
  eapply runs_bind; [by apply (runs_position f x)|cbn beta; intros p ? (-> & Hp & Hm)].
  destruct (bool_decide (Position.fsm_state p = OPEN)) eqn:Eo; cbn [negb].
  2:{ apply bool_decide_eq_false in Eo. apply runs_ret. split; [by apply frame_refl|].
      intros [(f' & p' & Hf & Hp' & Ho) _]. simplify_eq. }
  destruct (get_mark_price x slot) as [mark|] eqn:Emark.
  - eapply runs_bind; [by apply (runs_evaluate x f p mark)|cbn beta; intros acts w1 [F1 H1]].
    eapply runs_bind; [by apply (runs_get _ (λ a s, a = w1 ∧ s = w1))|intros ? ? [-> ->]]. apply runs_ret. split; [done|].
    intros _. by apply H1.
  - eapply (runs_bind _ _ _ (λ _ w', frame (λ _, False) w w' ∧ f_objs w' = f_objs w)).
    { apply runs_modify. split; [by apply frame_wiring|done]. }
    intros [] w1 [F1 E1]. pose proof (fr_settled _ _ _ F1) as Hs1. pose proof (fr_wraps _ _ _ F1 _ _ Hw) as Hw1.
    eapply (runs_bind _ _ _ (λ _ w', exits_fully x (Exit (force_intent p "mark_price_unavailable")) w1 w')).
    { unfold runs. rewrite (force_exit_eq f _ p) by (by rewrite E1). by apply runs_full_exit. }
    intros [] w2 H2. apply runs_ret. split; [eapply frame_trans; [by apply frame_none|apply H2]|].
    intros _ _. eapply log_sent; [apply F1|]. by eapply exits_fully_sent.
Qed.

(** ** The pass over all positions *)

Lemma demanded_later m w w1 s1 s' : same_for m w w1 → (_reads (f_store w) ≤ _reads (f_store w1))%nat →
  (_reads (f_store w1) ≤ _reads s1)%nat → (_reads s1 ≤ _reads s')%nat → demanded m w s' → demanded m w1 s1.
Proof.
  intros (_ & He & Hf) R0 R1 R2. unfold demanded. destruct (get_mark_price m slot); [|done]. rewrite He.
  intros (st & Hst & Hrem & [Ht|(fl & E & Hfl & HE & Hb)]); exists st; (split; [done|]); (split; [done|]); [by left|].
  right. exists fl, E. split; [done|]. split; [|eapply before_sub; [exact Hb|lia..]].
  apply Hf; [done|]. eapply before_sub; [exact Hb|lia..].
Qed.

Lemma runs_tick_mints xs w : settled w →
  runs w (tick_mints _clock loop venue_exit get_mark_price xs bt slot) (λ _ w', frame (λ m, m ∈ xs) w w' ∧
    ∀ m, m ∈ xs → tracked m w → demanded m w (f_store w') → sent m w w').
Proof.
  revert w. induction xs as [|x xs IH]; intros w Hs; cbn [tick_mints].
  { apply runs_ret. split; [by apply frame_refl|]. intros m Hm. by apply elem_of_nil in Hm. }
  eapply runs_bind; [by apply (runs_tick_mint x)|cbn beta; intros o1 w1 [F1 H1]].
  eapply runs_bind; [apply IH, F1|cbn beta; intros o2 w2 [F2 H2]]. apply runs_ret.
  pose proof (fr_reads _ _ _ F1) as R1. pose proof (fr_reads _ _ _ F2) as R2. split.
  - eapply (frame_trans _ _ w1); (eapply frame_mono; [|done]); intros m Hm; cbn in *; rewrite elem_of_cons; [left; by symmetry|by right].
  - intros m Hin Ht Hd. destruct (base.decide (x = m)) as [<-|Hne].
    + eapply sent_log; [|apply F2]. apply H1; [done|]. eapply (demanded_later _ w w _ (f_store w2)); [by split_and!|lia..|done].
    + assert (m ∈ xs) as Hin' by (by apply elem_of_cons in Hin as [->|?]).
      destruct (fr_other _ _ _ F1 m Hne Ht) as [Hsent|Hsame]; [by eapply sent_log; [|apply F2]|].
      eapply log_sent; [apply F1|]. apply H2; [done|apply Hsame|]. apply (demanded_later _ w w1 _ (f_store w2)); [done|lia..|done].
Qed.

(** *** Synchronisation *)

Lemma by_mint_spec ps : Forall (λ it : string * Position.t, it.1 = Position.mint it.2 ∧ it.2 ∈ ps) (by_mint ps) ∧
  ∀ q, q ∈ ps → dget (Position.mint q) (by_mint ps) ≠ None.
Proof.
  induction ps as [|p ps IH] using rev_ind; [split; [constructor|by intros q ?%elem_of_nil]|].
  assert (by_mint (ps ++ [p]) = dset (Position.mint p) p (by_mint ps)) as -> by (unfold by_mint; by rewrite foldl_snoc).
  destruct IH as [IH1 IH2]. set (d := by_mint ps) in *. clearbody d. split.
  - clear IH2. induction IH1 as [|[k v] d [H1 H2] H3 IH]; cbn [dset]; [constructor; [split; [done|set_solver]|constructor]|].
    cbn in H1, H2. case_bool_decide as E; constructor; [|eapply Forall_impl; [exact H3|]| |exact IH].
    + split; [by subst|set_solver].
    + intros it [? ?]. split; [done|set_solver].
    + split; [done|set_solver].
  - intros q [Hq|Hq%list_elem_of_singleton]%elem_of_app; [|subst; by rewrite dget_dset].
    destruct (base.decide (Position.mint p = Position.mint q)) as [->|Hne]; [by rewrite dget_dset|].
    rewrite dget_dset_ne by done. by apply IH2.
Qed.

Definition registered (x : string) (w : FastWorld) : Prop := dget x (_fsm_registry w) ≠ None.

Lemma runs_sync_add items w : settled w →
  Forall (λ it : string * Position.t, it.1 = Position.mint it.2 ∧ (Position.fsm_state it.2 = OPEN → registered it.1 w)) items →
  runs w (sync_add loop items) (λ _ w', frame (λ _, False) w w').
Proof.
  revert w. induction items as [|[x pos] items IH]; intros w Hs HF; cbn [sync_add]; [by apply runs_ret, frame_refl|].
  apply Forall_cons in HF as [[Hx Ho] HF]. cbn in Hx, Ho.
  eapply runs_bind; [by apply (runs_get _ (λ a s, a = w ∧ s = w))|intros ? ? [-> ->]].
  destruct (dget x (_fsm_registry w)) as [f|] eqn:Ef; [by apply IH|].
  destruct (frame_new_fsm pos w Hs) as [F1 Hw1]. set (w1 := snd (new_fsm pos w)) in *.
  eapply (runs_bind _ _ _ (λ f w', f = length (f_objs w) ∧ w' = w1)); [by eexists _, _|cbn beta; intros ? ? [-> ->]].
  pose proof (fr_settled _ _ _ F1) as Hs1. rewrite <- Hx in Hw1.
  eapply (runs_bind _ _ _ (λ _ w', frame (λ _, False) w1 w' ∧ _fsm_registry w' = dset x (length (f_objs w)) (_fsm_registry w)));
    [apply runs_modify; split; [by apply frame_registry_set|done]|intros [] w2 [F2 E2]].
  assert (Position.fsm_state pos ≠ OPEN) as Hno by (intros H; by apply Ho in H).
  rewrite bool_decide_eq_false_2 by done. cbn [andb]. eapply (runs_bind _ _ _ (λ _ w', w' = w2)); [by apply runs_ret|intros [] ? ->].
  apply (runs_then _ _ w2); [by eapply frame_trans|]. apply IH; [apply F2|].
  eapply Forall_impl; [exact HF|]. intros it [H1 H2]. split; [done|]. intros Hit. unfold registered. rewrite E2.
  destruct (base.decide (x = it.1)) as [->|Hne]; [by rewrite dget_dset|]. rewrite dget_dset_ne by done. by apply H2.
Qed.

Lemma runs_sync_remove xs w : settled w → runs w (sync_remove xs) (λ _ w', frame (λ m, m ∈ xs) w w').
Proof.
  revert w. induction xs as [|x xs IH]; intros w Hs; cbn [sync_remove]; [by apply runs_ret, frame_refl|].
  eapply runs_bind; [by apply runs_registry_pop|intros [] w1 F1]. pose proof (fr_settled _ _ _ F1) as Hs1.
  eapply (runs_bind _ _ _ (λ _ w', frame (eq x) w w')); [apply runs_modify|intros [] w2 F2].
  { eapply frame_trans; [done|by apply frame_exit_states_pop]. }
  apply (runs_then _ _ w2); [eapply frame_mono; [|exact F2]; intros m ->; by left|].
  eapply runs_conseq; [apply IH, F2|]. intros [] w3 F3. eapply frame_mono; [|exact F3]. intros m Hm. by right.
Qed.

(** Every stored open position is already tracked: a fill registers it. *)
Definition in_step (w : FastWorld) : Prop :=
  ∀ q, q ∈ (_positions (f_store w)).*2 → Position.fsm_state q = OPEN → registered (Position.mint q) w.
Definition stored_mint (m : string) (w : FastWorld) : Prop := ∃ q, q ∈ (_positions (f_store w)).*2 ∧ Position.mint q = m.

Lemma runs_sync w : settled w → in_step w →
  runs w (_sync_registry loop) (λ _ w', frame (λ m, ¬ stored_mint m w) w w').
Proof.
  intros Hs Hin. unfold _sync_registry.
  eapply (runs_bind _ _ _ (λ ps w', ps = (_positions (f_store w)).*2 ∧ w' = w)); [eexists _, _; split; [reflexivity|by destruct w]|].
  intros ? ? [-> ->]. destruct (by_mint_spec (_positions (f_store w)).*2) as [Hby Hget].
  eapply runs_bind; [apply runs_sync_add; [done|]|].
  { eapply Forall_impl; [exact Hby|]. intros it [H1 H2]. split; [done|]. rewrite H1. by apply Hin. }
  intros [] w1 F1. eapply runs_bind; [by apply (runs_get _ (λ a s, a = w1 ∧ s = w1))|intros ? ? [-> ->]].
  apply (runs_then _ _ w1); [by apply frame_none|]. eapply runs_conseq; [apply runs_sync_remove, F1|].
  intros [] w2 F2. eapply frame_mono; [|exact F2]. intros m [Hm _]%list_elem_of_filter (q & Hq & <-). by apply (Hget q Hq).
Qed.

(** ** The whole tick *)

(** The clock has been read at least [n] times. *)
Definition not_before (n : nat) (w : FastWorld) : Prop := (n ≤ _reads (f_store w))%nat.

Lemma reads_on_fsm n f op : keeps (not_before n) (on_fsm f op) (λ _, True).
Proof.
  intros u Hu. unfold on_fsm. destruct (f_objs u !! f) as [p|]; [|done]. split; [|done]. unfold not_before in *.
  assert (_reads (_store (snd (exec op (mk_fsm (f_store u) p)))) = _reads (f_store u)) as Hr.
  { destruct op; cbn [exec]; unfold transition_to_open, transition_to_vetoed, transition_to_closing, transition_to_closed,
      update_unrealized_pnl, record_tp_hit, arm_trailing; fsm_step; repeat case_match; simplify_eq; done. }
  destruct (exec op _) as [r g]; cbn in *. lia.
Qed.
Lemma reads_catch n (m : M FastWorld unit) : keeps (not_before n) m (λ _, True) → keeps (not_before n) (catch_value_error m) (λ _, True).
Proof. intros Hm u Hu. unfold catch_value_error. destruct (Hm u Hu) as [H _]. by destruct (m u) as [[|[]] ?]. Qed.
Lemma reads_cooldown n x s : keeps (not_before n) (in_store (set_cooldown _clock x s)) (λ _, True).
Proof.
  intros v Hv. split; [|done]. eapply Nat.le_trans; [exact Hv|].
  change (_reads (f_store v) ≤ S (_reads (f_store v)))%nat. lia.
Qed.

Lemma reads_close_fired n xs : keeps (not_before n) (close_fired _clock loop xs) (λ _, True).
Proof.
  induction xs as [|x xs IH]; cbn [close_fired]; [by apply keeps_ret|].
  eapply keeps_bind; [apply keeps_get|intros u _]. eapply (keeps_bind _ _ _ (λ _, True)).
  - destruct (dget x (_fsm_registry u)) as [f|]; [|by apply keeps_ret]. eapply (keeps_bind _ _ _ (λ _, True)).
    { apply reads_catch. eapply (keeps_bind _ _ _ (λ _, True)); [apply reads_on_fsm|intros _ _; apply reads_on_fsm]. }
    intros _ _. eapply keeps_bind; [by apply keeps_modify|intros _ _]. eapply keeps_bind; [by apply keeps_modify|intros _ _].
    eapply (keeps_bind _ _ _ (λ _, True)); [apply reads_cooldown|intros _ _; by apply keeps_ret].
  - intros a _. eapply keeps_bind; [apply IH|intros b _]. by apply keeps_ret.
Qed.

Lemma enforcer_phase_keeps ticks w :
  let w' := snd (enforcer_phase _clock loop venue_exit _wall_epoch_ms hb_fails set_order ticks w) in
  log_grows w w' ∧ (_reads (f_store w) ≤ _reads (f_store w'))%nat.
Proof.
  intros w'. split.
  { destruct (kp_enforcer_phase _clock loop venue_exit _wall_epoch_ms hb_fails set_order w ticks w (de_risked_refl w)) as [[_ _ _ (l & Hl & _)] _].
    by exists l. }
  assert (keeps (not_before (_reads (f_store w))) (enforcer_phase _clock loop venue_exit _wall_epoch_ms hb_fails set_order ticks) (λ _, True)) as H.
  { unfold enforcer_phase. eapply keeps_bind; [apply keeps_get|intros u _]. destruct (_enforcer_wiring u) as [x|]; [|by apply keeps_ret].
    eapply (keeps_bind _ _ _ (λ _, True)); [|intros _ _; eapply keeps_bind; [apply keeps_get|intros v _; apply reads_close_fired]].
    intros v Hv. unfold run_enf. destruct (wiring_on_tick _ _ _ _ _) as [r e]. by split. }
  apply (H w). by unfold not_before.
Qed.

(** What the reconciler's timeouts ask of the loop: no exit is dropped. *)
Lemma reads_fill_lost n x fill : FillResult.landed fill = false → keeps (not_before n) (reconcile_fill _clock loop x fill) (λ _, True).
Proof.
  intros Hl. unfold reconcile_fill. eapply (keeps_bind _ _ _ (λ _, True)); [intros u Hu; by split|intros [p|] _; [|by apply keeps_ret]].
  destruct (negb _); [by apply keeps_ret|]. rewrite Hl. cbn [negb]. unfold veto_entering.
  eapply keeps_bind; [apply keeps_get|intros u _]. eapply (keeps_bind _ _ _ (λ _, True)).
  - destruct (dget _ _); [by apply keeps_ret|]. eapply (keeps_bind _ _ _ (λ _, True)); [intros v Hv; by split|intros f _].
    eapply keeps_bind; [by apply keeps_modify|intros _ _; by apply keeps_ret].
  - intros f _. eapply (keeps_bind _ _ _ (λ _, True)); [apply reads_catch, reads_on_fsm|intros _ _].
    eapply keeps_bind; [by apply keeps_modify|intros _ _]. eapply keeps_bind; [by apply keeps_modify|intros _ _].
    eapply (keeps_bind _ _ _ (λ _, True)); [apply reads_cooldown|intros _ _; by apply keeps_ret].
Qed.
Lemma fill_lost_keeps x fill w : FillResult.landed fill = false →
  let w' := snd (reconcile_fill _clock loop x fill w) in log_grows w w' ∧ (_reads (f_store w) ≤ _reads (f_store w'))%nat.
Proof.
  intros Hl w'. split.
  - destruct (kp_reconcile_unlanded _clock loop w x fill Hl w (de_risked_refl w)) as [[_ _ _ (l & E & _)] _]. by exists l.
  - apply (reads_fill_lost (_reads (f_store w)) x fill Hl w). by unfold not_before.
Qed.

Lemma runs_heartbeat w : settled w → runs w (in_store (emit_heartbeat _clock bt)) (λ _ w', frame (λ _, False) w w' ∧
  _fsm_registry w' = _fsm_registry w ∧ _positions (f_store w') = _positions (f_store w)).
Proof.
  intros Hs. eexists _, _. split; [reflexivity|]. split; [|done]. apply (frame_store _ (OpHeartbeat bt)); [done| |done].
  by intros [].
Qed.

Lemma tick_sends w t0 t1 :
  settled w → in_step w →
  let w' := snd (tick _clock loop venue_exit get_mark_price _wall_epoch_ms hb_fails set_order bt slot t0 t1 w) in
  ∀ m, tracked m w → stored_mint m w → demanded m w (f_store w') → sent m w w'.
Proof.
  intros Hs Hin w' m Ht Hst Hd.
  destruct (runs_heartbeat w Hs) as ([] & w1 & E1 & F1 & Hreg & Hpos). pose proof (fr_settled _ _ _ F1) as Hs1.
  assert (in_step w1) as Hin1 by (intros q; unfold registered; rewrite Hpos, Hreg; exact (Hin q)).
  destruct (runs_sync w1 Hs1 Hin1) as ([] & w2 & E2 & F2). pose proof (fr_settled _ _ _ F2) as Hs2.
  destruct (runs_tick_mints (_fsm_registry w2).*1 w2 Hs2) as (o & w3 & E3 & F3 & H3).
  destruct (enforcer_phase_keeps o.2 w3) as [L4 R4]. set (w4 := snd (enforcer_phase _ _ _ _ _ _ _ w3)) in *.
  assert (w' = w4) as E4.
  { unfold w', tick. rewrite (bind_ok _ _ _ _ _ E1), (bind_ok _ _ _ _ _ E2), (bind_ok get _ w2 w2 w2) by done.
    rewrite (bind_ok _ _ _ _ _ E3). unfold w4, mbind, M_bind. by destruct (enforcer_phase _ _ _ _ _ _ _ w3) as [[] ?]. }
  rewrite E4 in *. clearbody w4. eapply sent_log; [|exact L4].
  pose proof (fr_reads _ _ _ F1) as R1. pose proof (fr_reads _ _ _ F2) as R2. pose proof (fr_reads _ _ _ F3) as R3.
  destruct (fr_other _ _ _ F1 m (λ H, H) Ht) as [H|S1].
  { eapply sent_log; [exact H|]. eapply log_trans; [apply F2|apply F3]. }
  assert (stored_mint m w1) as Hst1 by (unfold stored_mint; by rewrite Hpos).
  eapply log_sent; [apply F1|]. pose proof S1 as (Ht1 & _).
  destruct (fr_other _ _ _ F2 m (λ H, H Hst1) Ht1) as [H|S2]; [eapply sent_log; [exact H|apply F3]|].
  eapply log_sent; [apply F2|]. pose proof S2 as (Ht2 & _).
  apply H3; [|done|].
  - destruct Ht2 as [(f & p & Hf & _) _]. clear -Hf. induction (_fsm_registry w2) as [|[k v] d IH]; [done|].
    cbn in *. case_bool_decide; [subst; by left|right; auto].
  - apply (demanded_later m w1 w2 _ (f_store w4)); [done|lia..|]. apply (demanded_later m w w1 _ (f_store w4)); [done|lia..|done].
Qed.

End Turn.
End Exits.

(** *** Witness: one position at rest, one flagged, at the same price. *)

Definition second_open : Position.t :=
  Position.mk "N" "N" "EH-001" OPEN 7 100000 1000 0 "default" secure 0 3 false 1 None 0 sample_cost st_open complete.
Definition second_entry : ExitState.t := match ExitState.at_entry "N" (NDec (dec_of_Z 100)) balanced with Ok st => st | Raise _ => entry100 end.
Definition flagged_world : FastWorld :=
  mk_fast (snd (run_op tick_clock (OpSetLp "N" "lp_unlock_approaching" 8 120)
                  (StateStore.set_positions [("M", sample_open); ("N", second_open)] StateStore_init)))
    [sample_open; second_open] [("M", 0%nat); ("N", 1%nat)] [("M", entry100); ("N", second_entry)]
    (boot RiskConfig.defaults) None [].
Definition flagged_tick : FastWorld :=
  snd (tick tick_clock sample_fast_loop (answers true) (flat_feed 100) (λ n, n) (λ _, None) (λ l, l) jan2 9 0 5 flagged_world).

Lemma dget_two {A} (a b : A) x v : dget x [("M", a); ("N", b)] = Some v → (x = "M" ∧ v = a) ∨ (x = "N" ∧ v = b).
Proof. cbn. repeat case_bool_decide; naive_solver. Qed.

Lemma flagged_settled : settled flagged_world.
Proof.
  split.
  - intros x f [[-> ->]|[-> ->]]%dget_two; [exists sample_open|exists second_open]; done.
  - intros x st [[-> ->]|[-> ->]]%dget_two; apply state_wf_iff; vm_compute; reflexivity.
  - exists (-15000000), (-10000000). exact default_ordered.
Qed.

