(* ===== verification/Reconcile.v ===== *)
(** * The reconciler: [aats/controller/reconcile.py]

    Startup and per-tick reconciliation of the position loop's store with the
    venue.  What the venue knows, pending fills and open balances, is a
    parameter; log calls are left out. *)

From S2P Require Import Prelude Decimal RiskContracts CircuitBreaker SurvivableStop Intents ExitEngine Positions StateStore Fsm Enforcer FastLoop.

Record VenueStateProvider : Type := mk_venue_state {
  get_fill_for_mint : string → string → option FillResult.t;
  get_open_mints : gset string
}.
Definition NullVenueStateProvider : VenueStateProvider := mk_venue_state (λ _ _, None) ∅.

(** [FillResult(landed=False, reason=...)] *)
Definition failed_fill (reason : string) : FillResult.t := FillResult.mk false reason None None 0 0 "0" 0 0 0.

Section Reconciler.
Context (_clock : nat → Z) (loop : FastLoop) (venue_state : VenueStateProvider) (_entering_ttl : Z).

(** [try: m except ValueError], with whether the body got to its end. *)
Definition attempt (m : M FastWorld unit) : M FastWorld bool := λ w,
  match m w with
  | (Ok _, w') => (Ok true, w')
  | (Raise (ValueError _), w') => (Ok false, w')
  | (Raise e, w') => (Raise e, w')
  end.

Definition reconcile_entering (pos : Position.t) : M FastWorld (list string) :=
  let mint := Position.mint pos in
  let fill := get_fill_for_mint venue_state mint (make_client_intent_id mint (Position.entry_slot pos) "ENTRY") in
  match fill with
  | Some fill =>
      if FillResult.landed fill
      then reconcile_fill _clock loop mint fill;; mret ["reconcile:entering_to_open:" +:+ mint]
      else reconcile_fill _clock loop mint (failed_fill "reconcile_no_fill");; mret ["reconcile:entering_vetoed:" +:+ mint]
  | None => reconcile_fill _clock loop mint (failed_fill "reconcile_no_fill");; mret ["reconcile:entering_vetoed:" +:+ mint]
  end.

Definition reconcile_open (pos : Position.t) : M FastWorld (list string) :=
  let mint := Position.mint pos in
  if negb (bool_decide (get_open_mints venue_state = ∅)) && bool_decide (mint ∉ get_open_mints venue_state) then
    fsm ← new_fsm pos;
    closed ← attempt (on_fsm fsm ToClosing;; on_fsm fsm (ToClosed (PyInt 0)));
    mret (if (closed : bool) then ["reconcile:open_disappeared:" +:+ mint] else [])
  else mret [].

Definition reconcile_closing (pos : Position.t) : M FastWorld (list string) :=
  let mint := Position.mint pos in
  match get_fill_for_mint venue_state mint (make_client_intent_id mint (Position.entry_slot pos) "EXIT") with
  | Some fill =>
      if FillResult.landed fill then
        fsm ← new_fsm pos;
        closed ← attempt (on_fsm fsm (ToClosed (PyInt 0)));
        mret (if (closed : bool) then ["reconcile:closing_to_closed:" +:+ mint] else [])
      else mret []
  | None => mret []
  end.

Definition reconcile_one (pos : Position.t) : M FastWorld (list string) :=
  match Position.fsm_state pos with
  | ENTERING => reconcile_entering pos
  | OPEN => reconcile_open pos
  | CLOSING => reconcile_closing pos
  | CLOSED | VETOED =>
      in_store (delete_position (Position.mint pos));;
      mret ["reconcile:purge_terminal:" +:+ Position.mint pos +:+ ":" +:+ state_value (Position.fsm_state pos)]
  | IDLE => mret []
  end.

Fixpoint reconcile_each (positions : list Position.t) : M FastWorld (list string) :=
  match positions with
  | [] => mret []
  | pos :: positions => a ← reconcile_one pos; rest ← reconcile_each positions; mret (a ++ rest)
  end.

Definition startup_reconcile : M FastWorld (list string) :=
  positions ← in_store load_all_positions;
  reconcile_each positions.

Fixpoint time_out_each (positions : list Position.t) (current_slot : Z) : M FastWorld (list string) :=
  match positions with
  | [] => mret []
  | pos :: positions =>
      a ← (if bool_decide (Position.fsm_state pos = ENTERING)
              && (_entering_ttl * 1000 / 400 <? current_slot - Position.entry_slot pos)
           then reconcile_fill _clock loop (Position.mint pos) (failed_fill "entering_timed_out");;
                mret ["reconcile:entering_timeout:" +:+ Position.mint pos]
           else mret [] : M FastWorld (list string));
      rest ← time_out_each positions current_slot;
      mret (a ++ rest)
  end.

Definition continuous_reconcile_tick (current_slot : Z) : M FastWorld (list string) :=
  positions ← in_store load_all_positions;
  time_out_each positions current_slot.

(** ** What the store holds afterwards *)

(** The record a position leaves at startup. *)
Definition settled_record (pos : Position.t) : option Position.t :=
  let mint := Position.mint pos in
  let fill kind := get_fill_for_mint venue_state mint (make_client_intent_id mint (Position.entry_slot pos) kind) in
  match Position.fsm_state pos with
  | ENTERING =>
      match fill "ENTRY" with
      | Some f => if FillResult.landed f then Some (Position.opened (FillResult.tokens_out f) (FillResult.entry_slippage_bps f) pos) else None
      | None => None
      end
  | OPEN => if negb (bool_decide (get_open_mints venue_state = ∅)) && bool_decide (mint ∉ get_open_mints venue_state)
            then None else Some pos
  | CLOSING => match fill "EXIT" with Some f => if FillResult.landed f then None else Some pos | None => Some pos end
  | CLOSED | VETOED => None
  | IDLE => Some pos
  end.

(** The fill of an entry that landed while the process was down. *)
Definition landed_entry (pos : Position.t) : option FillResult.t :=
  match Position.fsm_state pos with
  | ENTERING =>
      match get_fill_for_mint venue_state (Position.mint pos)
              (make_client_intent_id (Position.mint pos) (Position.entry_slot pos) "ENTRY") with
      | Some f => if FillResult.landed f then Some f else None
      | None => None
      end
  | _ => None
  end.

(** The exit state and the layer-2 stop of a position entered at a fill. *)
Definition entry_state (mint : string) (fill : FillResult.t) : result ExitState.t :=
  price ← entry_fill_price fill; ExitState.at_entry mint (NDec price) (_exit_config loop).
Definition entry_stop (mint : string) (fill : FillResult.t) : result StopState.t :=
  price ← entry_fill_price fill; StopState.at_entry mint (NDec price) None.

(** The venue quotes every landed fill at a price a position can be entered at. *)
Definition fills_priced : Prop := ∀ mint id fill,
  get_fill_for_mint venue_state mint id = Some fill → FillResult.landed fill = true →
  is_ok (entry_state mint fill) = true ∧ is_ok (entry_stop mint fill) = true.

(** The stop the second layer holds for a mint, when one is wired. *)
Definition stop_of (m : string) (w : FastWorld) : option StopState.t :=
  match _enforcer_wiring w with Some wiring => stop_for m wiring | None => None end.

(** [m] is managed from the price of [fill]: its exit state, and its stop when
    the second layer is wired. *)
Definition entered (m : string) (fill : FillResult.t) (wired : bool) (w' : FastWorld) : Prop :=
  (∃ st, entry_state m fill = Ok st ∧ dget m (_exit_states w') = Some st) ∧
  (wired = true → ∃ stop, entry_stop m fill = Ok stop ∧ stop_of m w' = Some stop).
Definition wired (w : FastWorld) : bool := if _enforcer_wiring w then true else false.

(** What a turn leaves of a mint it does not serve. *)
Definition untouched (x : string) (w w' : FastWorld) : Prop :=
  dget x (_positions (f_store w')) = dget x (_positions (f_store w)) ∧
  dget x (_fsm_registry w') = dget x (_fsm_registry w) ∧
  dget x (_exit_states w') = dget x (_exit_states w) ∧ stop_of x w' = stop_of x w.

(** One position's turn: its own record becomes [o], the rest stays. *)
Definition turn (pos : Position.t) (o : option Position.t) (w w' : FastWorld) : Prop :=
  dget (Position.mint pos) (_positions (f_store w')) = o ∧
  (∀ x, x ≠ Position.mint pos → untouched x w w') ∧
  f_exits w' = f_exits w ∧ wired w' = wired w ∧
  match landed_entry pos with
  | Some f => entered (Position.mint pos) f (wired w) w'
  | None => stop_of (Position.mint pos) w' = stop_of (Position.mint pos) w
  end.

Definition returns {A} (m : M FastWorld A) (w : FastWorld) (Q : FastWorld → Prop) : Prop := ∃ a w', m w = (Ok a, w') ∧ Q w'.

Lemma new_object (l : list Position.t) p : (l ++ [p]) !! length l = Some p.
Proof. by rewrite lookup_app_r, Nat.sub_diag. Qed.

Lemma legal : validate_fsm_transition ENTERING VETOED = Ok tt ∧ validate_fsm_transition OPEN CLOSING = Ok tt ∧
  validate_fsm_transition CLOSING CLOSED = Ok tt ∧ validate_fsm_transition ENTERING OPEN = Ok tt.
Proof. by split_and!. Qed.

Ltac fresh_object := cbn -[dget dset dpop entry_fill_price ExitState.at_entry]; rewrite new_object.
Ltac world_step := unfold mbind, M_bind, mret, M_ret, get, lift, modify, in_store, load_position, gets, new_fsm, on_fsm in *.

Lemma veto_turn pos reason w :
  dget (Position.mint pos) (_positions (f_store w)) = Some pos → dget (Position.mint pos) (_fsm_registry w) = None →
  Position.fsm_state pos = ENTERING → landed_entry pos = None →
  returns (reconcile_fill _clock loop (Position.mint pos) (failed_fill reason)) w (turn pos None w).
Proof.
  intros Hp Hr Ho Hnl. destruct w as [s objs reg es b wi ex]. cbn in Hp, Hr. destruct legal as (V & _).
  unfold returns, reconcile_fill. world_step. cbn -[dget dset dpop]. rewrite Hp, Ho, bool_decide_eq_true_2 by done. cbn -[dget dset dpop].
  unfold veto_entering. world_step. cbn -[dget dset dpop]. rewrite Hr. unfold registry_set, catch_value_error. world_step. fresh_object.
  cbn [exec]. unfold transition_to_vetoed. fsm_step. rewrite Ho, V. cbn -[dget dset dpop].
  eexists _, _. split; [reflexivity|]. unfold turn. rewrite Hnl. cbn -[dget dset dpop]. rewrite dget_dpop. split_and!; try done.
  intros x Hx. unfold untouched. cbn -[dget dset dpop]. rewrite !dget_dpop_ne, !dget_dset_ne by congruence. done.
Qed.

Lemma entry_priced mint fill :
  is_ok (entry_state mint fill) = true ∧ is_ok (entry_stop mint fill) = true →
  ∃ price st stop, entry_fill_price fill = Ok price ∧
    ExitState.at_entry mint (NDec price) (_exit_config loop) = Ok st ∧
    StopState.at_entry mint (NDec price) None = Ok stop ∧
    entry_state mint fill = Ok st ∧ entry_stop mint fill = Ok stop.
Proof.
  unfold entry_state, entry_stop. destruct (entry_fill_price fill) as [price|]; [|by intros [? _]].
  cbn [mbind result_bind].
  destruct (ExitState.at_entry _ _ _) as [st|] eqn:E1; [|by intros [? _]].
  destruct (StopState.at_entry _ _ _) as [stop|] eqn:E2; [|by intros [_ ?]]. intros _. exists price, st, stop. by split_and!.
Qed.

Lemma stop_for_register stop p w m : stop_for m (register stop p w) =
  if bool_decide (StopState.mint stop = m) then Some stop else stop_for m w.
Proof.
  unfold stop_for, register; cbn. case_bool_decide as E; [subst; by rewrite dget_dset|by rewrite dget_dset_ne].
Qed.

Lemma at_entry_mint m p th st : StopState.at_entry m p th = Ok st → StopState.mint st = m.
Proof.
  unfold StopState.at_entry, mbind, result_bind. repeat (case_match; [|done]).
  intros Hi. by apply post_init_inv in Hi as [-> _].
Qed.

(** Arming the second layer at the end of an entry. *)
Lemma arm_stop_ok mint price fsm p w stop :
  f_objs w !! fsm = Some p → StopState.at_entry mint (NDec price) None = Ok stop →
  ∃ w', arm_stop mint price fsm w = (Ok tt, w') ∧
    f_store w' = f_store w ∧ _fsm_registry w' = _fsm_registry w ∧ _exit_states w' = _exit_states w ∧
    f_exits w' = f_exits w ∧ wired w' = wired w ∧
    (∀ x, x ≠ mint → stop_of x w' = stop_of x w) ∧ (wired w = true → stop_of mint w' = Some stop).
Proof.
  intros Ho Hs. unfold arm_stop, fsm_position, wired, stop_of. world_step. rewrite Ho.
  destruct (_enforcer_wiring w) as [wi|] eqn:Ew.
  - unfold run_wiring, arm. world_step. rewrite Hs. eexists. split; [reflexivity|]. cbn [_enforcer_wiring set_wiring].
    pose proof (at_entry_mint _ _ _ _ Hs) as Hm. split_and!; try done.
    + intros x Hx. rewrite stop_for_register, bool_decide_eq_false_2 by congruence. done.
    + intros _. by rewrite stop_for_register, bool_decide_eq_true_2.
  - exists w. split; [done|]. rewrite Ew. by split_and!.
Qed.

Lemma open_turn pos fill w :
  dget (Position.mint pos) (_positions (f_store w)) = Some pos → dget (Position.mint pos) (_fsm_registry w) = None →
  Position.fsm_state pos = ENTERING → FillResult.landed fill = true → landed_entry pos = Some fill →
  is_ok (entry_state (Position.mint pos) fill) = true ∧ is_ok (entry_stop (Position.mint pos) fill) = true →
  returns (reconcile_fill _clock loop (Position.mint pos) fill) w
    (turn pos (Some (Position.opened (FillResult.tokens_out fill) (FillResult.entry_slippage_bps fill) pos)) w).
Proof.
  intros Hp Hr Ho Hl Hle (price & st & stop & Ep & Est & Estop & Hst & Hstop)%entry_priced.
  destruct w as [s objs reg es b wi ex]. cbn in Hp, Hr.
  destruct legal as (_ & _ & _ & V). unfold returns, reconcile_fill. world_step. cbn -[dget dset dpop]. rewrite Hp, Ho, bool_decide_eq_true_2 by done. cbn -[dget dset dpop]. rewrite Hl. cbn -[dget dset dpop].
  unfold open_entering. world_step. cbn -[dget dset dpop]. rewrite Hr. unfold registry_set, try_open. world_step. fresh_object.
  cbn [exec]. unfold transition_to_open. fsm_step. rewrite Ho, V. cbn -[dget dset dpop entry_fill_price ExitState.at_entry]. rewrite Ep.
  cbn -[dget dset dpop entry_fill_price ExitState.at_entry]. rewrite Est. unfold exit_states_set. world_step.
  match goal with |- context [arm_stop ?m ?pr ?i ?w1] =>
    destruct (arm_stop_ok m pr i (Position.opened (FillResult.tokens_out fill) (FillResult.entry_slippage_bps fill) pos) w1 stop)
      as (w' & -> & Es & Er & Ee & Ex & Ew & Hother & Hown) end;
    [cbn -[dget dset dpop]; by rewrite list_lookup_insert_eq by (rewrite length_app; cbn; lia)|done|].
  cbn -[dget dset dpop wired stop_of] in Es, Er, Ee, Ex.
  eexists _, w'. split; [reflexivity|]. unfold turn. rewrite Hle, Es. cbn -[dget dset dpop wired stop_of entered].
  rewrite dget_dset. split_and!; try done.
  - intros x Hx. unfold untouched. rewrite Es, Er, Ee, Hother by done. cbn -[dget dset dpop].
    rewrite !dget_dset_ne by congruence. done.
  - split; [exists st; by rewrite Ee, dget_dset|]. intros Hw. exists stop. split; [done|]. by apply Hown.
Qed.

(** The two ends of a record the venue no longer backs. *)
Lemma close_turn pos ops w :
  ops = (λ f, on_fsm f ToClosing;; on_fsm f (ToClosed (PyInt 0))) ∧ Position.fsm_state pos = OPEN ∨
  ops = (λ f, on_fsm f (ToClosed (PyInt 0))) ∧ Position.fsm_state pos = CLOSING →
  ∃ w', (fsm ← new_fsm pos; attempt (ops fsm)) w = (Ok true, w') ∧ turn pos None w w'.
Proof.
  intros H. assert (landed_entry pos = None) as Hnl.
  { unfold landed_entry. by destruct H as [[_ ->] | [_ ->]]. }
  destruct w as [s objs reg es b wi ex]. destruct legal as (_ & V2 & V3 & _).
  destruct H as [[-> Ho] | [-> Ho]]; unfold attempt; world_step; fresh_object; cbn [exec].
  - unfold transition_to_closing. fsm_step. rewrite Ho, V2. cbn -[dget dset dpop].
    rewrite list_lookup_insert_eq by (rewrite length_app; cbn; lia). unfold transition_to_closed. fsm_step. rewrite V3.
    cbn -[dget dset dpop]. eexists. split; [reflexivity|]. unfold turn. rewrite Hnl. cbn -[dget dset dpop]. rewrite dget_dpop.
    split_and!; try done. intros x Hx. unfold untouched. cbn -[dget dset dpop]. rewrite dget_dpop_ne, !dget_dset_ne by congruence. done.
  - unfold transition_to_closed. fsm_step. rewrite Ho, V3. cbn -[dget dset dpop].
    eexists. split; [reflexivity|]. unfold turn. rewrite Hnl. cbn -[dget dset dpop]. rewrite dget_dpop.
    split_and!; try done. intros x Hx. unfold untouched. cbn -[dget dset dpop]. rewrite dget_dpop_ne, !dget_dset_ne by congruence. done.
Qed.

(** A turn that changes nothing. *)
Lemma turn_refl pos w : landed_entry pos = None →
  dget (Position.mint pos) (_positions (f_store w)) = Some pos → turn pos (Some pos) w w.
Proof. intros Hnl H. unfold turn. rewrite Hnl. by split_and!. Qed.

(** A turn that only removes the record from the store. *)
Lemma purge_turn pos w : landed_entry pos = None →
  turn pos None w (set_store (set_positions (dpop (Position.mint pos) (_positions (f_store w))) (f_store w)) w).
Proof.
  intros Hnl. unfold turn, untouched. rewrite Hnl. cbn -[dget dpop]. rewrite dget_dpop. split_and!; try done.
  intros x Hx. by rewrite dget_dpop_ne.
Qed.

Lemma returns_then {A B} (m : M FastWorld A) (b : A → B) w Q : returns m w Q → returns (a ← m; mret (b a)) w Q.
Proof. intros (a & w' & E & H). exists (b a), w'. split; [|done]. unfold mbind, M_bind. by rewrite E. Qed.

Lemma closed_then {A} pos (ops : nat → M FastWorld unit) (b : bool → A) w Q :
  (∃ w', (fsm ← new_fsm pos; attempt (ops fsm)) w = (Ok true, w') ∧ Q w') →
  returns (fsm ← new_fsm pos; closed ← attempt (ops fsm); mret (b closed)) w Q.
Proof.
  intros (w' & E & H). exists (b true), w'. split; [|done]. unfold mbind, M_bind in *.
  destruct (new_fsm pos w) as [[f|] w1]; [|done]. by rewrite E.
Qed.

Lemma reconcile_one_turn pos w : fills_priced →
  dget (Position.mint pos) (_positions (f_store w)) = Some pos → dget (Position.mint pos) (_fsm_registry w) = None →
  returns (reconcile_one pos) w (turn pos (settled_record pos) w).
Proof.
  intros Hf Hp Hr. pose proof (eq_refl (landed_entry pos)) as Hle. unfold landed_entry at 2 in Hle.
  unfold reconcile_one, settled_record. destruct (Position.fsm_state pos) eqn:Est.
  - eexists _, _. split; [reflexivity|]. by apply turn_refl.
  - unfold reconcile_entering. destruct (get_fill_for_mint _ _ _) as [f|] eqn:Ef; [|by apply returns_then, veto_turn].
    destruct (FillResult.landed f) eqn:El; [|by apply returns_then, veto_turn].
    apply returns_then, open_turn; [done..|]. by eapply Hf.
  - unfold reconcile_open. destruct (_ && _); [|eexists _, _; split; [reflexivity|by apply turn_refl]].
    apply closed_then, close_turn. by left.
  - unfold reconcile_closing. destruct (get_fill_for_mint _ _ _) as [f|]; [|eexists _, _; split; [reflexivity|by apply turn_refl]].
    destruct (FillResult.landed f); [|eexists _, _; split; [reflexivity|by apply turn_refl]].
    apply (closed_then pos (λ f, on_fsm f (ToClosed (PyInt 0)))), close_turn. by right.
  - eexists _, _. split; [reflexivity|]. by apply purge_turn.
  - eexists _, _. split; [reflexivity|]. by apply purge_turn.
Qed.

(** The second layer and the exit state of one mint after the startup. *)
Definition layered (p : Position.t) (w w' : FastWorld) : Prop :=
  match landed_entry p with
  | Some f => entered (Position.mint p) f (wired w) w'
  | None => stop_of (Position.mint p) w' = stop_of (Position.mint p) w
  end.

Lemma layered_frame p w w1 w' :
  wired w1 = wired w → untouched (Position.mint p) w w1 → layered p w1 w' → layered p w w'.
Proof.
  unfold layered. intros Hw (_ & _ & _ & Hs). rewrite Hw. destruct (landed_entry p); [done|]. by rewrite Hs.
Qed.

Lemma layered_after p w w1 w' : untouched (Position.mint p) w1 w' → layered p w w1 → layered p w w'.
Proof.
  unfold layered, entered. intros (_ & _ & He & Hs). destruct (landed_entry p); rewrite ?He, Hs; done.
Qed.

Lemma untouched_trans x w w1 w2 : untouched x w w1 → untouched x w1 w2 → untouched x w w2.
Proof. intros (H1 & H2 & H3 & H4) (K1 & K2 & K3 & K4). unfold untouched. by rewrite K1, K2, K3, K4. Qed.

Lemma reconcile_each_ok ps w : fills_priced → NoDup (Position.mint <$> ps) →
  Forall (λ p, dget (Position.mint p) (_positions (f_store w)) = Some p ∧ dget (Position.mint p) (_fsm_registry w) = None) ps →
  ∃ acts w', reconcile_each ps w = (Ok acts, w') ∧ f_exits w' = f_exits w ∧ wired w' = wired w ∧
    (∀ p, p ∈ ps → dget (Position.mint p) (_positions (f_store w')) = settled_record p ∧ layered p w w') ∧
    ∀ x, x ∉ Position.mint <$> ps → untouched x w w'.
Proof.
  intros Hf Hnd. revert w. induction ps as [|p ps IH]; intros w HF; cbn [reconcile_each].
  { exists [], w. split_and!; try done. by intros p ?%elem_of_nil. }
  cbn in Hnd. apply NoDup_cons in Hnd as [Hp Hnd]. apply Forall_cons in HF as [[H1 H2] HF].
  destruct (reconcile_one_turn p w Hf H1 H2) as (a & w1 & E1 & (T1 & T2 & T3 & T4 & T5)).
  assert (∀ q, q ∈ ps → Position.mint q ≠ Position.mint p) as Hne.
  { intros q Hq Heq. apply Hp. rewrite <- Heq. by apply list_elem_of_fmap_2. }
  destruct (IH Hnd w1) as (acts & w2 & E2 & X & Hw & Hs & Ho).
  { apply Forall_forall. intros q Hq. rewrite Forall_forall in HF. destruct (HF q Hq) as [Hq1 Hq2].
    destruct (T2 (Position.mint q) (Hne q Hq)) as (-> & -> & _). done. }
  exists (a ++ acts), w2. unfold mbind, M_bind. rewrite E1, E2. split_and!; [done|congruence|congruence|..].
  - intros q [->|Hq]%elem_of_cons.
    + pose proof (Ho _ Hp) as Hu. split; [by rewrite (proj1 Hu)|]. by eapply layered_after.
    + destruct (Hs q Hq) as [K1 K2]. split; [done|]. eapply layered_frame; [exact T4| |exact K2]. by apply T2, Hne.
  - intros x Hx. cbn in Hx. rewrite not_elem_of_cons in Hx. destruct Hx as [Hx1 Hx2].
    eapply untouched_trans; [by apply T2|by apply Ho].
Qed.

(** A store written by the state machines: each record under its own mint. *)
Definition keyed (d : dict Position.t) : Prop := NoDup d.*1 ∧ Forall (λ kp : string * Position.t, kp.1 = Position.mint kp.2) d.

Lemma keyed_dget d p : keyed d → p ∈ d.*2 → dget (Position.mint p) d = Some p.
Proof.
  intros [Hnd HF] Hp. induction d as [|[k q] d IH]; [by apply elem_of_nil in Hp|]. cbn in *.
  apply NoDup_cons in Hnd as [Hk Hnd]. apply Forall_cons in HF as [Hkq HF]. cbn in Hkq.
  apply elem_of_cons in Hp as [->|Hp]; [by rewrite bool_decide_eq_true_2|].
  rewrite bool_decide_eq_false_2; [by apply IH|]. intros ->. apply Hk. apply list_elem_of_fmap in Hp as ([k' p'] & -> & Hin).
  rewrite Forall_forall in HF. rewrite <- (HF _ Hin). by apply (list_elem_of_fmap_2 fst) in Hin.
Qed.
Lemma keyed_mints d : keyed d → Position.mint <$> d.*2 = d.*1.
Proof. intros [_ HF]. induction HF as [|[k p] d H _ IH]; [done|]. cbn in *. by rewrite IH, H. Qed.
Lemma dget_in {A} k (v : A) d : dget k d = Some v → v ∈ d.*2 ∧ k ∈ d.*1.
Proof.
  induction d as [|[k' v'] d IH]; cbn; [done|]. case_bool_decide; [intros [= ->]; subst; split; left|].
  intros [H1 H2]%IH. split; by right.
Qed.

Lemma keyed_mint d m p : keyed d → dget m d = Some p → Position.mint p = m.
Proof.
  intros [_ HF] H. induction HF as [|[k q] d Hk _ IH]; cbn in *; [done|].
  case_bool_decide; [by simplify_eq|auto].
Qed.

(** What a settled record can be. *)
Lemma settled_states p q : settled_record p = Some q →
  Position.fsm_state q = OPEN ∨ Position.fsm_state q = CLOSING ∨ Position.fsm_state q = IDLE ∧ q = p.
Proof.
  unfold settled_record. destruct (Position.fsm_state p) eqn:E; try done; repeat case_match; intros [= <-]; auto.
Qed.

End Reconciler.

(** *** Witness *)

(** A crash left every kind of record; the venue knows the fill of [A]'s entry
    and of [F]'s exit, and holds balances of [A] and [C]. *)
Definition record_of (mint : string) (st : FSMState) : Position.t :=
  Position.mk mint mint "EH-001" st 7 100000 (match st with ENTERING => 0 | _ => 1000 end) 0 "default" secure 0 3 false 1
    None 0 sample_cost st_open complete.
Definition crash_store : dict Position.t :=
  (λ ms, (ms.1, record_of ms.1 ms.2)) <$>
    [("A", ENTERING); ("B", ENTERING); ("C", OPEN); ("D", OPEN); ("E", CLOSING); ("F", CLOSING); ("G", CLOSED); ("H", IDLE)].
Definition landed_at_120 : FillResult.t := FillResult.mk true "" None None 0 1000 "120" 20 0 0.
Definition crash_venue : VenueStateProvider :=
  mk_venue_state (λ mint id,
    if bool_decide (mint = "A" ∧ id = make_client_intent_id "A" 7 "ENTRY" ∨
                    mint = "F" ∧ id = make_client_intent_id "F" 7 "EXIT") then Some landed_at_120 else None)
    {["A"; "C"]}.
Definition restart_world : FastWorld :=
  mk_fast (StateStore.set_positions crash_store StateStore_init) [] [] [] (boot RiskConfig.defaults)
    (Some (mk_wiring [] 0 None [] None None)) [].

Lemma crash_fills_priced : fills_priced sample_fast_loop crash_venue.
Proof.
  intros mint id fill. cbn. case_bool_decide as H; [|done]. intros [= <-] _.
  destruct H as [[-> _]|[-> _]]; split; vm_compute; reflexivity.
Qed.

