(* ===== verification/Orchestrator.v ===== *)
(** * The controller put together

    [aats/controller/loops.py], [enrichment_wiring.py] and the operator's
    endpoints of [control_api.py].  One store is shared by the three loops, the
    flag producers and the operator: the position loop's world holds it, and
    every other component runs on it and hands it back.  The GET endpoints,
    which only format, and the HTTP layer are left out. *)

From S2P Require Import Prelude Decimal RiskContracts CircuitBreaker SurvivableStop Intents ExitEngine Positions StateStore Fsm SellSim LpUnlock SnipeLoop InsiderDump SlowLoop Enforcer FastLoop FastExits Reconcile.

(** ** [SlowLoopEnrichmentWiring] *)

Module EnrichmentStats.
Record t : Type := mk {
  creator_registrations : Z; sells_processed : Z; sellability_reprobes_run : Z; lp_unlock_checks_run : Z;
  lp_unlock_schedule_absent_skipped : Z
}.
Definition zero : t := mk 0 0 0 0 0.
Definition registration s := mk (creator_registrations s + 1) (sells_processed s) (sellability_reprobes_run s) (lp_unlock_checks_run s) (lp_unlock_schedule_absent_skipped s).
Definition sell_seen s := mk (creator_registrations s) (sells_processed s + 1) (sellability_reprobes_run s) (lp_unlock_checks_run s) (lp_unlock_schedule_absent_skipped s).
Definition reprobes (n : nat) s := mk (creator_registrations s) (sells_processed s) (sellability_reprobes_run s + Z.of_nat n) (lp_unlock_checks_run s) (lp_unlock_schedule_absent_skipped s).
Definition checked s := mk (creator_registrations s) (sells_processed s) (sellability_reprobes_run s) (lp_unlock_checks_run s + 1) (lp_unlock_schedule_absent_skipped s).
Definition skipped s := mk (creator_registrations s) (sells_processed s) (sellability_reprobes_run s) (lp_unlock_checks_run s) (lp_unlock_schedule_absent_skipped s + 1).
End EnrichmentStats.

(** The producers as they are wired; the detector's state is in the world. *)
Record Enrichment : Type := mk_enrichment {
  e_insider : option (Config.t * nat * (gset (string * Z) → string * Z));
  e_reprober : option ((string → Z → result SellSimResult.t) * Z);
  e_watcher : option (LpUnlockThresholds.t * Z);
  e_schedules : option (string → option LpUnlockSchedule.t)
}.

Record Controller : Type := mk_controller {
  o_fast : FastWorld;
  o_queue : option CandidateQueue.t;
  o_sent : list EntryIntent.t;
  o_detector : Detector;
  o_reprobe : ReprobeStats.t;
  o_enrich : EnrichmentStats.t;
  o_regime : RegimeWiringStats.t;
  _started : bool;
  _killed : bool
}.
Definition o_store (c : Controller) : StateStore := f_store (o_fast c).
Definition with_fast f (c : Controller) := mk_controller f (o_queue c) (o_sent c) (o_detector c) (o_reprobe c) (o_enrich c) (o_regime c) (_started c) (_killed c).
Definition with_shared s (c : Controller) := with_fast (FastLoop.set_store s (o_fast c)) c.
Definition with_snipe q l (c : Controller) := mk_controller (o_fast c) q l (o_detector c) (o_reprobe c) (o_enrich c) (o_regime c) (_started c) (_killed c).
Definition with_detector d (c : Controller) := mk_controller (o_fast c) (o_queue c) (o_sent c) d (o_reprobe c) (o_enrich c) (o_regime c) (_started c) (_killed c).
Definition with_reprobe x (c : Controller) := mk_controller (o_fast c) (o_queue c) (o_sent c) (o_detector c) x (o_enrich c) (o_regime c) (_started c) (_killed c).
Definition with_enrich x (c : Controller) := mk_controller (o_fast c) (o_queue c) (o_sent c) (o_detector c) (o_reprobe c) x (o_regime c) (_started c) (_killed c).
Definition with_regime x (c : Controller) := mk_controller (o_fast c) (o_queue c) (o_sent c) (o_detector c) (o_reprobe c) (o_enrich c) x (_started c) (_killed c).
Definition with_flags started killed (c : Controller) := mk_controller (o_fast c) (o_queue c) (o_sent c) (o_detector c) (o_reprobe c) (o_enrich c) (o_regime c) started killed.

(** *** Components running on the shared store *)

Definition on_fast {A} (m : M FastWorld A) : M Controller A := λ c, let '(r, f) := m (o_fast c) in (r, with_fast f c).
Definition on_shared {A} (m : M StateStore A) : M Controller A := λ c, let '(r, s) := m (o_store c) in (r, with_shared s c).
Definition on_snipe {A} (m : M World A) : M Controller A := λ c,
  let '(r, w) := m (mk_world (o_store c) (o_queue c) (o_sent c)) in
  (r, with_snipe (w_queue w) (w_sent w) (with_shared (w_store w) c)).
Definition on_detector {A} (m : M Detector A) : M Controller A := λ c,
  let '(r, d) := m (set_sink (o_store c) (o_detector c)) in (r, with_detector d (with_shared (_flag_sink d) c)).
Definition on_reprobe {A} (m : M ReprobeWorld A) : M Controller A := λ c,
  let '(r, w) := m (mk_reprobe (o_reprobe c) (o_store c)) in (r, with_reprobe (r_stats w) (with_shared (r_store w) c)).
Definition on_regime {A} (m : M RegimeWorld A) : M Controller A := λ c,
  let '(r, w) := m (mk_regime_world (o_regime c) (o_store c)) in (r, with_regime (g_stats w) (with_shared (g_store w) c)).
Definition count_enrich f : M Controller unit := modify (λ c, with_enrich (f (o_enrich c)) c).

Section Controller.
Context (_clock : nat → Z).
Context (_enrichment : option Enrichment).

(** *** The three producers *)

Definition enrichment_register_creator (e : Enrichment) (mint creator_wallet : string) : M Controller unit :=
  match e_insider e with
  | None => mret tt
  | Some _ => on_detector (register_creator mint creator_wallet);; count_enrich EnrichmentStats.registration
  end.

Definition enrichment_on_decoded_sell (e : Enrichment) (obs : SellObservation.t) : M Controller (option InsiderDumpSignal.t) :=
  match e_insider e with
  | None => mret None
  | Some (config, capacity, first_of) =>
      pos ← on_shared (load_position (SellObservation.mint obs));
      count_enrich EnrichmentStats.sell_seen;;
      on_detector (on_sell _clock config capacity true first_of obs (bool_decide (is_Some pos)))
  end.

Definition run_sellability_reprobe (e : Enrichment) (event_slot : Z) : M Controller (list ReprobeResult.t) :=
  match e_reprober e with
  | None => mret []
  | Some (probe, ttl) =>
      results ← on_reprobe (reprobe_open_positions _clock probe true ttl (IInt event_slot));
      count_enrich (EnrichmentStats.reprobes (length results));;
      mret results
  end.

Fixpoint watch_each (th : LpUnlockThresholds.t) (ttl : Z) (get_schedule : string → option LpUnlockSchedule.t)
    (positions : list Position.t) (event_slot : Z) : M Controller (list LpUnlockExitDecision) :=
  match positions with
  | [] => mret []
  | pos :: positions =>
      match get_schedule (Position.mint pos) with
      | None => count_enrich EnrichmentStats.skipped;; watch_each th ttl get_schedule positions event_slot
      | Some schedule =>
          decision ← on_shared (watch th _clock true ttl schedule (IInt event_slot));
          count_enrich EnrichmentStats.checked;;
          decisions ← watch_each th ttl get_schedule positions event_slot;
          mret (decision :: decisions)
      end
  end.

Definition run_lp_unlock_watch (e : Enrichment) (event_slot : Z) : M Controller (list LpUnlockExitDecision) :=
  match e_watcher e, e_schedules e with
  | Some (th, ttl), Some get_schedule =>
      positions ← on_shared load_all_positions;
      watch_each th ttl get_schedule positions event_slot
  | _, _ => mret []
  end.

(** ** [ControllerOrchestrator] *)

Context (fast : FastLoop).
Context (venue_exit : exit_log → Intent → Position.t → result FillResult.t).
Context (get_mark_price : string → Z → option dec).
Context (_wall_epoch_ms : Z → Z) (hb_fails : Heartbeat.t → option string).
Context (set_order : list string → list string).
Context (slow : SlowLoop.SlowLoop) (snipe : SnipeLoop).
Context (venue_state : VenueStateProvider) (_entering_ttl : Z).

Definition startup : M Controller (list string) :=
  actions ← on_fast (startup_reconcile _clock fast venue_state);
  modify (λ c, with_flags true (_killed c) c);;
  mret actions.

Definition require_started : M Controller unit :=
  c ← get; lift (guard_ok (_started c) (RuntimeError "ControllerOrchestrator.startup() must be called first")).

(** What the caller finds under ["snipe"]. *)
Inductive snipe_entry : Type := KillSwitchActive | SnipeResult (r : snipe_result).

Definition on_launch_event (event : LaunchEvent.t) (start_wall_ms now_wall_ms : Z)
    : M Controller (option StateStore.DecisionSignal * snipe_entry) :=
  require_started;;
  signal ← on_shared (SlowLoop.process_event _clock slow event);
  c ← get;
  if _killed c then mret (signal, KillSwitchActive)
  else
    snipe_result ← on_snipe (SnipeLoop.process_event _clock snipe event start_wall_ms now_wall_ms);
    (match _enrichment, snipe_result with
     | Some e, Filled _ => enrichment_register_creator e (LaunchEvent.mint event) (LaunchEvent.creator_wallet event)
     | _, _ => mret tt
     end);;
    mret (signal, SnipeResult snipe_result).

Definition orchestrator_tick (block_time_ms current_slot start_wall_ms end_wall_ms : Z) : M Controller (list string * list string) :=
  require_started;;
  fast_actions ← on_fast (FastLoop.tick _clock fast venue_exit get_mark_price _wall_epoch_ms hb_fails set_order
                            block_time_ms current_slot start_wall_ms end_wall_ms);
  recon_actions ← on_fast (continuous_reconcile_tick _clock fast _entering_ttl current_slot);
  mret (fast_actions, recon_actions).

Definition on_fill (mint : string) (fill : FillResult.t) : M Controller bool := on_fast (reconcile_fill _clock fast mint fill).

Definition on_decoded_sell (obs : SellObservation.t) : M Controller (option InsiderDumpSignal.t) :=
  match _enrichment with None => mret None | Some e => enrichment_on_decoded_sell e obs end.

Definition run_slow_enrichment_tick (event_slot : Z) : M Controller (list ReprobeResult.t * list LpUnlockExitDecision) :=
  match _enrichment with
  | None => mret ([], [])
  | Some e =>
      sellability ← run_sellability_reprobe e event_slot;
      lp_unlock ← run_lp_unlock_watch e event_slot;
      mret (sellability, lp_unlock)
  end.
End Controller.

Section Regime.
Context {I : Type} (_clock : nat → Z) (_regime_wiring : option (RegimeWiring I)).

Definition controller_apply_regime_signal (signal : RegimeSignal.t) : M Controller (option RegimeDeRiskDirective.t) :=
  match _regime_wiring with
  | None => mret None
  | Some wiring => d ← on_regime (apply_regime_signal _clock wiring signal SURVIVOR_LOOP); mret (Some d)
  end.

Definition controller_apply_survivor_prediction (pred : SurvivorPrediction.t) : M Controller (option RegimeDeRiskDirective.t) :=
  match _regime_wiring with
  | None => mret None
  | Some wiring => d ← on_regime (apply_survivor_prediction _clock wiring pred SURVIVOR_LOOP); mret (Some d)
  end.

Definition run_slow_regime_tick : M Controller (list RegimeDeRiskDirective.t) :=
  match _regime_wiring with
  | None => mret []
  | Some wiring => on_regime (run_survivor_derisk _clock wiring SURVIVOR_LOOP)
  end.
End Regime.

(** ** The slow pass, then a tick *)

Section Passes.
Context (_clock : nat → Z) (e : Enrichment).

(** Only the store's flags moved. *)
Record flags_only (c c' : Controller) : Prop := {
  fo_fast : o_fast c' = FastLoop.set_store (o_store c') (o_fast c);
  fo_positions : _positions (o_store c') = _positions (o_store c);
  fo_reads : (_reads (o_store c) ≤ _reads (o_store c'))%nat;
  fo_started : _started c' = _started c
}.

(** The flag got a full time to live, counted from a reading of the pass. *)
Definition refreshed (fl : flag) (ttl : Z) (m : string) (s s' : StateStore) : Prop :=
  ∃ n, (_reads s ≤ n < _reads s')%nat ∧ expiry_of fl s' m = Some (_clock n + ttl * 1000).

Lemma set_store_same w : FastLoop.set_store (f_store w) w = w.
Proof. by destruct w. Qed.
Lemma flags_only_refl c : flags_only c c.
Proof. split; [unfold o_store; by rewrite set_store_same|done..]. Qed.
Lemma flags_only_trans c1 c2 c3 : flags_only c1 c2 → flags_only c2 c3 → flags_only c1 c3.
Proof. intros [E1 P1 R1 S1] [E2 P2 R2 S2]. split; [by rewrite E2, E1|congruence|lia|congruence]. Qed.

Lemma refreshed_later fl ttl m s1 s2 s3 : refreshed fl ttl m s1 s2 → (_reads s2 ≤ _reads s3)%nat →
  expiry_of fl s3 m = expiry_of fl s2 m → refreshed fl ttl m s1 s3.
Proof. intros (n & Hn & E) Hr E'. exists n. split; [lia|congruence]. Qed.
Lemma refreshed_sooner fl ttl m s1 s2 s3 : refreshed fl ttl m s2 s3 → (_reads s1 ≤ _reads s2)%nat → refreshed fl ttl m s1 s3.
Proof. intros (n & Hn & E) Hr. exists n. split; [lia|done]. Qed.

Definition stored_mints (c : Controller) : list string := Position.mint <$> (_positions (o_store c)).*2.

Lemma reprobe_pass probe ttl slot c :
  e_reprober e = Some (probe, ttl) → 0 ≤ slot → Forall (λ m, m ≠ "") (stored_mints c) →
  ∃ r c', run_sellability_reprobe _clock e slot c = (Ok r, c') ∧ flags_only c c' ∧
    (∀ fl m, fl ≠ Sellability → expiry_of fl (o_store c') m = expiry_of fl (o_store c) m) ∧
    ∀ m, m ∈ stored_mints c → ¬ probe_confirms probe slot m → refreshed Sellability ttl m (o_store c) (o_store c').
Proof.
  intros He Hs Hm. unfold run_sellability_reprobe. rewrite He. unfold on_reprobe, reprobe_open_positions, _check_int, count_enrich.
  rewrite (proj2 (Z.ltb_ge slot 0)) by done. mstep.
  destruct (reprobe_all _clock probe ttl slot Hs (_positions (o_store c)).*2 (mk_reprobe (o_reprobe c) (o_store c))) as [st E];
    [exact (proj1 (Forall_fmap _ _ _) Hm)|]. rewrite E. cbn [r_store r_stats].
  destruct (marked _clock probe ttl slot (Position.mint <$> (_positions (o_store c)).*2) (o_store c)) as (H1 & H2 & H3 & H4).
  eexists _, _. split; [reflexivity|]. split; [by split|]. split; [exact H3|].
  intros m Hin Hn. destruct (H4 m) as [(_ & _ & H)|[H _]]; [exact H|tauto].
Qed.

Context (th : LpUnlockThresholds.t) (get_schedule : string → option LpUnlockSchedule.t).
Hypothesis schedules_named : ∀ m sc, get_schedule m = Some sc → LpUnlockSchedule.mint sc ≠ "".

(** The lock of [m] is unreadable or opens within the horizon at [slot]. *)
Definition lock_opens (slot : Z) (m : string) : Prop :=
  ∃ sc r n t, get_schedule m = Some sc ∧ LpUnlockSchedule.mint sc = m ∧
    classify_open_position_unlock th sc (IInt slot) = Ok (r, n, t) ∧ should_raise r = true.

Lemma classify_total sc slot : 0 ≤ slot → ∃ r n t, classify_open_position_unlock th sc (IInt slot) = Ok (r, n, t).
Proof.
  intros Hs. unfold classify_open_position_unlock. rewrite (proj2 (Z.ltb_ge slot 0)) by done. mstep.
  destruct (LpUnlockSchedule.status sc), (LpUnlockSchedule.unlock_slot sc); try (by do 3 eexists).
  destruct (_ <=? _); by do 3 eexists.
Qed.

Lemma watch_pass ttl slot ps c : 0 ≤ slot →
  ∃ r c', watch_each _clock th ttl get_schedule ps slot c = (Ok r, c') ∧ flags_only c c' ∧
    (∀ fl m, fl ≠ Lp → expiry_of fl (o_store c') m = expiry_of fl (o_store c) m) ∧
    ∀ m, refreshed Lp ttl m (o_store c) (o_store c') ∨
         (expiry_of Lp (o_store c') m = expiry_of Lp (o_store c) m ∧ (m ∈ Position.mint <$> ps → ¬ lock_opens slot m)).
Proof.
  intros Hs. revert c. induction ps as [|p ps IH]; intros c.
  { eexists _, _. split; [reflexivity|]. split; [apply flags_only_refl|]. split; [done|]. intros m. right. split; [done|]. by intros ?%elem_of_nil. }
  cbn [watch_each fmap list_fmap]. destruct (get_schedule (Position.mint p)) as [sc|] eqn:Esc.
  - destruct (classify_total sc slot Hs) as (r & n & t & Ec).
    destruct (watch_ok _clock th ttl sc slot (o_store c) r n t (schedules_named _ _ Esc) Hs Ec)
      as (d & s1 & E1 & _ & _ & P1 & R1 & L1 & F1).
    set (c1 := with_enrich (EnrichmentStats.checked (o_enrich (with_shared s1 c))) (with_shared s1 c)).
    destruct (IH c1) as (ds & c2 & E2 & O2 & F2 & L2). exists (d :: ds), c2.
    split; [unfold on_shared, count_enrich, modify, mbind, M_bind; rewrite E1; cbv beta iota; fold c1; by rewrite E2|].
    assert (flags_only c c1) as O1 by (split; [done|done| |done]; change (o_store c1) with s1; rewrite R1; destruct (should_raise r); lia). split; [by eapply flags_only_trans|].
    split; [intros fl m Hfl; rewrite F2 by done; by apply F1|].
    intros m. pose proof (fo_reads _ _ O1) as Rc. pose proof (fo_reads _ _ O2) as Rd.
    destruct (L2 m) as [H|[H Hno]]; [left; by eapply refreshed_sooner|].
    change (o_store c1) with s1 in H, Rc, Rd. rewrite L1 in H.
    destruct (should_raise r && bool_decide (m = LpUnlockSchedule.mint sc)) eqn:Eb.
    + left. exists (_reads (o_store c)). split; [|done]. apply andb_true_iff in Eb as [Er _]. rewrite Er in R1. lia.
    + right. split; [done|]. intros [->|Hin]%elem_of_cons; [|by apply Hno].
      intros (sc' & r' & n' & t' & G & Hm' & Ec' & Er'). rewrite Esc in G. injection G as <-. rewrite Ec in Ec'. injection Ec' as <- _ _.
      rewrite Er', bool_decide_eq_true_2 in Eb by done. done.
  - destruct (IH (with_enrich (EnrichmentStats.skipped (o_enrich c)) c)) as (ds & c2 & E2 & O2 & F2 & L2).
    exists ds, c2. split; [done|]. split; [by destruct O2|]. split; [done|]. intros m. destruct (L2 m) as [H|[H Hno]]; [by left|right].
    split; [done|]. intros [->|Hin]%elem_of_cons; [|by apply Hno]. intros (sc' & ? & ? & ? & G & _). congruence.
Qed.
End Passes.

Section Composed.
Context (_clock : nat → Z) (e : Enrichment) (fast : FastLoop).
Context (venue_exit : exit_log → Intent → Position.t → result FillResult.t).
Context (get_mark_price : string → Z → option dec).
Context (_wall_epoch_ms : Z → Z) (hb_fails : Heartbeat.t → option string).
Context (set_order : list string → list string) (_entering_ttl : Z).
Context (probe : string → Z → result SellSimResult.t) (ttl lp_ttl : Z).
Context (th : LpUnlockThresholds.t) (get_schedule : string → option LpUnlockSchedule.t).

Lemma time_out_keeps ps slot w :
  let w' := snd (time_out_each _clock fast _entering_ttl ps slot w) in
  log_grows w w' ∧ (_reads (f_store w) ≤ _reads (f_store w'))%nat.
Proof.
  set (I := λ u, log_grows w u ∧ (_reads (f_store w) ≤ _reads (f_store u))%nat).
  assert (keeps I (time_out_each _clock fast _entering_ttl ps slot) (λ _, True)) as H.
  { induction ps as [|p ps IH]; cbn [time_out_each]; [by apply keeps_ret|].
    eapply (keeps_bind _ _ _ (λ _, True)); [|intros a _; eapply keeps_bind; [apply IH|intros b _; by apply keeps_ret]].
    destruct (_ && _); [|by apply keeps_ret]. eapply (keeps_bind _ _ _ (λ _, True)); [|intros b _; by apply keeps_ret].
    intros u [L R]. destruct (fill_lost_keeps _clock fast (Position.mint p) (failed_fill "entering_timed_out") u eq_refl) as [L' R'].
    split; [|done]. split; [by eapply log_trans|lia]. }
  apply (H w). split; [apply log_refl|done].
Qed.

Lemma with_fast_same c : with_fast (o_fast c) c = c.
Proof. by destruct c. Qed.

(** The orchestrator's tick is the loop's, followed by calls that drop no exit. *)
Lemma orchestrated_tick bt slot t0 t1 c : _started c = true →
  let w := snd (FastLoop.tick _clock fast venue_exit get_mark_price _wall_epoch_ms hb_fails set_order bt slot t0 t1 (o_fast c)) in
  let c' := snd (orchestrator_tick _clock fast venue_exit get_mark_price _wall_epoch_ms hb_fails set_order _entering_ttl bt slot t0 t1 c) in
  log_grows w (o_fast c') ∧ (_reads (f_store w) ≤ _reads (o_store c'))%nat.
Proof.
  intros Hst w c'. unfold c', w, orchestrator_tick, require_started, on_fast, mbind, M_bind, get, lift, guard_ok, mret, M_ret.
  rewrite Hst. destruct (FastLoop.tick _ _ _ _ _ _ _ _ _ _ _ (o_fast c)) as [[a|x] w1]; [|split; [apply log_refl|done]].
  cbn [o_fast with_fast snd]. unfold continuous_reconcile_tick, mbind, M_bind.
  pose proof (time_out_keeps (_positions (f_store w1)).*2 slot w1) as H.
  assert (in_store load_all_positions w1 = (Ok (_positions (f_store w1)).*2, w1)) as -> by (by destruct w1).
  destruct (time_out_each _ _ _ _ _ w1) as [[b|x] w2]; exact H.
Qed.

Hypothesis wired : e_reprober e = Some (probe, ttl) ∧ e_watcher e = Some (th, lp_ttl) ∧ e_schedules e = Some get_schedule.
Hypothesis schedules_named : ∀ m sc, get_schedule m = Some sc → LpUnlockSchedule.mint sc ≠ "".
Hypothesis venue_returns : ∀ log i p, ∃ fill, venue_exit log i p = Ok fill.

(** The sell of [m] was not confirmed, or its lock is unreadable or opening. *)
Definition at_risk (slot : Z) (m : string) : Prop := ¬ probe_confirms probe slot m ∨ lock_opens th get_schedule slot m.

Lemma slow_pass slot c : 0 ≤ slot → Forall (λ m, m ≠ "") (stored_mints c) →
  ∃ r c', run_slow_enrichment_tick _clock (Some e) slot c = (Ok r, c') ∧ flags_only c c' ∧
    ∀ m, m ∈ stored_mints c → at_risk slot m →
      refreshed _clock Sellability ttl m (o_store c) (o_store c') ∨ refreshed _clock Lp lp_ttl m (o_store c) (o_store c').
Proof.
  intros Hs Hm. destruct wired as (W1 & W2 & W3).
  destruct (reprobe_pass _clock e probe ttl slot c W1 Hs Hm) as (r1 & c1 & E1 & O1 & _ & S1).
  destruct (watch_pass _clock th get_schedule schedules_named lp_ttl slot (_positions (o_store c1)).*2 c1 Hs)
    as (r2 & c2 & E2 & O2 & F2 & L2).
  exists (r1, r2), c2. split.
  { unfold run_slow_enrichment_tick, mbind, M_bind. rewrite E1. unfold run_lp_unlock_watch. rewrite W2, W3.
    unfold on_shared, load_all_positions, gets, mbind, M_bind. unfold with_shared. unfold o_store at 2. rewrite set_store_same, with_fast_same.
    by rewrite E2. }
  split; [by eapply flags_only_trans|]. intros m Hin [Hn|Hl].
  - left. eapply refreshed_later; [by apply S1|apply O2|by apply F2].
  - destruct (L2 m) as [H|[_ Hno]]; [right; eapply refreshed_sooner; [exact H|apply O1]|]. exfalso. apply Hno; [|done].
    rewrite (fo_positions _ _ O1). exact Hin.
Qed.

Lemma flags_only_world c c' : flags_only c c' → settled (o_fast c) → in_step (o_fast c) →
  settled (o_fast c') ∧ in_step (o_fast c') ∧ (∀ m, tracked m (o_fast c) → tracked m (o_fast c')) ∧
  (∀ m, stored_mint m (o_fast c) → stored_mint m (o_fast c')) ∧ _exit_states (o_fast c') = _exit_states (o_fast c).
Proof.
  intros [Ew Ep _ _] [H1 H2 H3] Hi. unfold o_store in Ep.
  split; [|split; [|split; [|split]]].
  - rewrite Ew. by split.
  - intros q. unfold registered. rewrite Ep. rewrite Ew. exact (Hi q).
  - intros m [Hf HF]. split; [rewrite Ew; exact Hf|by rewrite Ep].
  - intros m. unfold stored_mint. by rewrite Ep.
  - by rewrite Ew.
Qed.

(** Every later reading of the clock comes within [T] seconds of this one's. *)
Definition within (T : Z) (s s' : StateStore) : Prop :=
  ∀ n n', (_reads s ≤ n)%nat → (n < n' < _reads s')%nat → _clock n' < _clock n + T * 1000.

End Composed.

(** *** Witness: a token whose sell reverts, next to one that is fine *)

Definition watchful : Enrichment :=
  mk_enrichment None (Some (honeypot_probe, 120)) (Some (LpUnlockThresholds.default, 120)) (Some (λ _, None)).
Definition running : Controller :=
  mk_controller flagged_world None [] (Detector_init StateStore_init) ReprobeStats.zero EnrichmentStats.zero RegimeWiringStats.zero
    true false.
Definition after_pass : Controller := snd (run_slow_enrichment_tick tick_clock (Some watchful) 9 running).
Abbreviation after_tick :=
  (snd (orchestrator_tick tick_clock sample_fast_loop (answers true) (flat_feed 100) (λ n, n) (λ _, None) (λ l, l) 30 jan2 9 0 5 after_pass)).

Lemma running_in_step : in_step (o_fast running).
Proof.
  intros q Hq _. assert (q = sample_open ∨ q = second_open) as Hq' by (revert Hq; unfold running, flagged_world; cbn; set_solver).
  destruct Hq' as [-> | ->]; intros E; discriminate E.
Qed.
Lemma running_tracks : tracked "M" (o_fast running).
Proof.
  split; [exists 0%nat, sample_open; split; [reflexivity|split; reflexivity]|].
  apply Forall_cons_2; [reflexivity|]. apply Forall_cons_2; [discriminate|]. by apply Forall_nil_2.
Qed.
Lemma honeypot_unconfirmed : ¬ probe_confirms honeypot_probe 9 "M".
Proof. apply degraded_iff. vm_compute. reflexivity. Qed.
Lemma running_quick : within tick_clock (120 `min` 120) (o_store running) (o_store after_tick).
Proof.
  assert (_reads (o_store after_tick) = 9%nat) as Er by (vm_compute; reflexivity).
  intros n n' Hl Hr. rewrite Er in Hr. unfold tick_clock. lia.
Qed.
Lemma running_mints : stored_mints running = ["M"; "N"].
Proof. reflexivity. Qed.

Lemma watchful_wired : e_reprober watchful = Some (honeypot_probe, 120) ∧
  e_watcher watchful = Some (LpUnlockThresholds.default, 120) ∧ e_schedules watchful = Some (λ _, None).
Proof. by split_and!. Qed.
Lemma jan2_day : 0 ≤ jan2 ∧ _utc_day_key jan2 = Ok "2026-01-02".
Proof. split; vm_compute; [discriminate|reflexivity]. Qed.
Lemma mints_named : Forall (λ m, m ≠ "") (stored_mints running).
Proof. rewrite running_mints. repeat constructor; discriminate. Qed.
Lemma answers_return ok log i p : ∃ fill, answers ok log i p = Ok fill.
Proof. by eexists. Qed.
Lemma something_left : 0 < ExitState.remaining_bps entry100.
Proof. vm_compute. reflexivity. Qed.

