(* ===== verification/ControlPlane.v ===== *)
(** * The operator's surface

    The endpoints that change something: [aats/control_plane/server.py], and
    the older [aats/controller/control_api.py].  A request is its two headers
    and its JSON body; an [HTTPException] is raised with its status code and
    error name.  Messages, the GET endpoints, which only format, and the HTTP
    layer are left out. *)

From Stdlib Require Import Ascii.
From S2P Require Import Prelude Decimal RiskContracts Float64 FloatRepr PyText CircuitBreaker SurvivableStop Intents ExitEngine Positions StateStore Fsm SellSim LpUnlock SnipeLoop InsiderDump Clamp SlowLoop Enforcer FastLoop FastExits Reconcile Orchestrator.

Definition HTTPException (status_code : Z) (error : string) : exn := CustomError "HTTPException" (pretty status_code +:+ ":" +:+ error).

(** ** JSON values and [Decimal] strings *)

(** A [Decimal] as [Decimal(s)] can return it. *)
Inductive pydec : Type := Fin (d : dec) | Inf (negative : bool) | NaN.

(** A value of a JSON object, or of the copy in which some strings have become
    decimals; nested values are all alike here. *)
Inductive value : Type :=
| VInt (z : Z) | VFloat (x : float) | VStr (s : string) | VBool (b : bool) | VNone | VDec (d : pydec) | VOther.

Fixpoint without (x : ascii) (s : string) : string :=
  match s with
  | String a s' => if Ascii.eqb a x then without x s' else String a (without x s')
  | EmptyString => EmptyString
  end.

(** [Decimal(s)] for ASCII text: blanks around it, underscores, the specials. *)
Definition decimal_of_str (raw : string) : option pydec :=
  let s := without "_" (strip raw) in
  match parse_decimal s with
  | Some d => Some (Fin d)
  | None =>
      let '(sg, rest) := take_sign (upper s) in
      let '(_, _, tail) := match starts_with "NAN" rest, starts_with "SNAN" rest with
                           | Some t, _ | _, Some t => span_digits t 0 0
                           | _, _ => (0, 0, "x")
                           end in
      if bool_decide (rest = "INF") || bool_decide (rest = "INFINITY") then Some (Inf (sg <? 0))
      else if bool_decide (tail = "") then Some NaN
      else None
  end.

(** The exact value of a finite float. *)
Definition float_exact (s : bool) (m : positive) (e : Z) : dec :=
  let z := if s then Zneg m else Zpos m in
  if 0 <=? e then mkdec (z * 2 ^ e) 0 else mkdec (z * 5 ^ (- e)) e.

(** A number on one scale: [None] is Python's quiet "unordered". *)
Inductive scale : Type := SNum (d : dec) | SInf (negative : bool) | SFloatNaN | SDecimalNaN.
Definition scale_of (v : value) : option scale :=
  match v with
  | VInt z => Some (SNum (dec_of_Z z))
  | VBool b => Some (SNum (dec_of_Z (if b then 1 else 0)))
  | VFloat (S754_zero _) => Some (SNum (dec_of_Z 0))
  | VFloat (S754_infinity s) => Some (SInf s)
  | VFloat S754_nan => Some SFloatNaN
  | VFloat (S754_finite s m e) => Some (SNum (float_exact s m e))
  | VDec (Fin d) => Some (SNum d)
  | VDec (Inf s) => Some (SInf s)
  | VDec NaN => Some SDecimalNaN
  | VStr _ | VNone | VOther => None
  end.

(** [a < b] *)
Definition scale_lt (a b : scale) : result bool :=
  match a, b with
  | SDecimalNaN, _ | _, SDecimalNaN => Raise (InvalidOperation "comparison involving NaN")
  | SFloatNaN, _ | _, SFloatNaN => Ok false
  | SNum a, SNum b => Ok (dltb a b)
  | SInf a, SInf b => Ok (a && negb b)
  | SInf a, SNum _ => Ok a
  | SNum _, SInf b => Ok (negb b)
  end.
Definition value_lt (a b : value) : result bool :=
  match a, b with
  | VStr s, VStr t => Ok (bool_decide (String.compare s t = Lt))
  | _, _ =>
      match scale_of a, scale_of b with
      | Some x, Some y => scale_lt x y
      | _, _ => Raise (TypeError "'<' not supported between these instances")
      end
  end.

(** ** The risk configuration *)

Definition _DECIMAL_STRING_FIELDS : list string := ["daily_loss_limit_pct"; "jito_tip_cap_frac"; "kelly_fraction_cap"].
Definition _DECREASE_ONLY : list string :=
  ["per_trade_cap_lamports"; "max_aggregate_lamports"; "max_slippage_bps"; "jito_tip_cap_frac"; "kelly_fraction_cap";
   "daily_loss_limit_pct"].
Definition _INCREASE_ONLY : string := "snipe_threshold".

Definition _coerce (field : string) (val : value) : value :=
  match val with
  | VStr s => if bool_decide (field ∈ _DECIMAL_STRING_FIELDS)
              then match decimal_of_str s with Some d => VDec d | None => val end
              else val
  | _ => val
  end.

(** [d.get(field)], coerced; [None] when absent or null. *)
Definition read_field (field : string) (d : dict value) : option value :=
  match dget field d with
  | Some VNone | None => None
  | Some v => Some (_coerce field v)
  end.

(** One field: whether the proposal goes the wrong way. *)
Definition widens (increase_only : bool) (field : string) (current proposed : dict value) : result bool :=
  match read_field field current, read_field field proposed with
  | Some cur, Some new => if increase_only then value_lt new cur else value_lt cur new
  | _, _ => Ok false
  end.

Fixpoint check_fields (increase_only : bool) (fields : list string) (current proposed : dict value) : result (list string) :=
  match fields with
  | [] => Ok []
  | f :: fields =>
      w ← widens increase_only f current proposed;
      rest ← check_fields increase_only fields current proposed;
      Ok ((if (w : bool) then [f] else []) ++ rest)
  end.

Definition _validate_risk_config_tighten_only (current proposed : dict value) : result (list string) :=
  down ← check_fields false _DECREASE_ONLY current proposed;
  up ← check_fields true [_INCREASE_ONLY] current proposed;
  Ok (down ++ up).

(** [safe_body]: the decimal strings parsed. *)
Fixpoint to_decimals (fields : list string) (body : dict value) : result (dict value) :=
  match fields with
  | [] => Ok body
  | f :: fields =>
      body ← (match dget f body with
              | Some (VStr s) => match decimal_of_str s with
                                 | Some d => Ok (dset f (VDec d) body)
                                 | None => Raise (InvalidOperation "ConversionSyntax")
                                 end
              | _ => Ok body
              end);
      to_decimals fields body
  end.

Definition _INT_MONEY_FIELDS : list string :=
  ["per_trade_cap_lamports"; "max_aggregate_lamports"; "daily_risk_tranche_lamports"; "daily_loss_floor_lamports";
   "blast_radius_cap_lamports"].
Definition money_floats (body : dict value) : list (string * pynum) :=
  omap (λ f, match dget f body with Some (VFloat x) => Some (f, PyFloat (float_repr x)) | _ => None end) _INT_MONEY_FIELDS.

(** [_make_risk_config()] without a provider. *)
Definition _make_risk_config : dict value :=
  let rc := RiskConfig.defaults in
  [("per_trade_cap_lamports", VInt (RiskConfig.per_trade_cap_lamports rc));
   ("max_aggregate_lamports", VInt (RiskConfig.max_aggregate_lamports rc));
   ("daily_risk_tranche_lamports", VInt (RiskConfig.daily_risk_tranche_lamports rc));
   ("daily_loss_limit_pct", VStr (dec_str (RiskConfig.daily_loss_limit_pct rc)));
   ("daily_loss_floor_lamports", VInt (RiskConfig.daily_loss_floor_lamports rc));
   ("max_slippage_bps", VInt (RiskConfig.max_slippage_bps rc));
   ("snipe_threshold", VFloat (RiskConfig.snipe_threshold rc));
   ("veto_threshold", VFloat (RiskConfig.veto_threshold rc));
   ("jito_tip_cap_frac", VStr (dec_str (RiskConfig.jito_tip_cap_frac rc)));
   ("kelly_fraction_cap", VStr (dec_str (RiskConfig.kelly_fraction_cap rc)));
   ("n_wallets_max", VInt (RiskConfig.n_wallets_max rc));
   ("blast_radius_cap_lamports", VInt (RiskConfig.blast_radius_cap_lamports rc));
   ("t_dms_seconds", VInt (RiskConfig.t_dms_seconds rc));
   ("pre_calibration_haircut_bps", VInt (RiskConfig.pre_calibration_haircut_bps rc))].

(** ** The application *)

Record ControlPlaneConfig : Type := mk_cp_config { operator_token : string; ceo_token : string; dry_run_enabled : bool }.

(** The environment, [None] for a variable that is not set. *)
Definition config_of_env (operator ceo dry_run : option string) : ControlPlaneConfig :=
  mk_cp_config (default "dev-token" operator) (default "" ceo) (negb (bool_decide (upper (default "true" dry_run) = "FALSE"))).

Record Server : Type := mk_server { s_ctl : Controller; agent_mode : string; _risk_config_box : dict value }.
Definition with_ctl c (s : Server) := mk_server c (agent_mode s) (_risk_config_box s).
Definition with_mode m (s : Server) := mk_server (s_ctl s) m (_risk_config_box s).
Definition with_box b (s : Server) := mk_server (s_ctl s) (agent_mode s) b.
Definition on_ctl {A} (m : M Controller A) : M Server A := λ s, let '(r, c) := m (s_ctl s) in (r, with_ctl c s).
Definition on_breaker {A} (m : M Breaker A) : M Controller A :=
  on_fast (λ f, let '(r, b) := m (_breaker f) in (r, FastLoop.set_brk b f)).

Record Request : Type := mk_request { authorization : option string; x_ceo_auth : option string }.

(** [auth.startswith("Bearer ")] and [auth[7:]] *)
Definition bearer_is (auth token : string) : bool :=
  match starts_with "Bearer " auth with Some rest => bool_decide (rest = token) | None => false end.

Definition _MODE_ORDER : list (string * Z) := [("SHADOW", 0); ("PAPER", 1); ("LIVE_DRY_RUN", 2); ("LIVE", 3)].
Definition _mode_is_downward (current_mode proposed_mode : string) : bool :=
  default (-1) (dget proposed_mode _MODE_ORDER) <? default 0 (dget current_mode _MODE_ORDER).

(** [ModeRequest]: the value of the enum the body names. *)
Definition ModeRequest (body : dict value) : option string :=
  match dget "mode" body with
  | Some (VStr m) => if bool_decide (m ∈ _MODE_ORDER.*1) then Some m else None
  | _ => None
  end.

(** [KillSwitch] *)
Definition kill : M Controller unit := modify (λ c, with_flags (_started c) true c).
Definition clear : M Controller unit := modify (λ c, with_flags (_started c) false c).

Section App.
Context (cfg : ControlPlaneConfig).
(** Pydantic's parsing of the fields of a [RiskConfig]. *)
Context (parse_fields : dict value → option RiskConfig.t).
(** Whether a position loop and a breaker are injected. *)
Context (loop_wired breaker_wired : bool).
Context (venue_exit : exit_log → Intent → Position.t → result FillResult.t).

Definition _check_operator_auth (request : Request) : M Server unit :=
  let auth := default "" (authorization request) in
  lift (guard_ok (negb (bool_decide (operator_token cfg = "")) && bearer_is auth (operator_token cfg))
          (HTTPException 403 "operator_auth_required")).

Definition _check_ceo_auth (request : Request) : M Server unit :=
  let auth := default "" (x_ceo_auth request) in
  lift (guard_ok (negb (bool_decide (ceo_token cfg = "")) && bool_decide (auth = ceo_token cfg))
          (HTTPException 403 "live_requires_dry_run_disabled_and_ceo_auth")).

(** [RiskConfig(...)] *)
Definition RiskConfig_new (body : dict value) : result RiskConfig.t :=
  RiskConfig._reject_float_money (money_floats body);;
  match parse_fields body with
  | Some rc => RiskConfig._floor_invariants rc
  | None => Raise (ValueError "RiskConfig")
  end.

Definition post_risk_config (request : Request) (body : dict value) : M Server (dict value) :=
  _check_operator_auth request;;
  s ← get;
  violations ← lift (_validate_risk_config_tighten_only (_risk_config_box s) body);
  lift (guard_ok (bool_decide (violations = [])) (HTTPException 403 "risk_increase_rejected"));;
  lift (match (safe_body ← to_decimals _DECIMAL_STRING_FIELDS body; RiskConfig_new safe_body) with
        | Ok _ => Ok tt
        | Raise _ => Raise (HTTPException 400 "invalid_risk_config")
        end);;
  modify (with_box body);;
  gets _risk_config_box.

Definition flatten (m : M FastWorld unit) : M Server unit := if loop_wired then on_ctl (on_fast m) else mret tt.

Definition post_kill (request : Request) : M Server string :=
  _check_operator_auth request;;
  on_ctl kill;;
  flatten (emergency_flatten_all venue_exit "operator_kill");;
  mret "halting".

Definition post_flatten_all (request : Request) : M Server string :=
  _check_operator_auth request;;
  flatten (emergency_flatten_all venue_exit "operator_flatten_all");;
  mret "flattening".

Definition post_flatten_mint (request : Request) (mint : string) : M Server string :=
  _check_operator_auth request;;
  pos ← on_ctl (on_shared (load_position mint));
  match pos with
  | None => raise (HTTPException 404 "position_not_found")
  | Some _ => flatten (flatten_one venue_exit mint ("operator_flatten:" +:+ mint);; mret tt);; mret "flattening"
  end.

(** [except BreakerNotTripped] of the race between the test and the reset. *)
Definition not_tripped_409 {A} (m : M Server A) : M Server A := λ s,
  match m s with
  | (Raise (CustomError cls msg), s') =>
      (Raise (if bool_decide (cls = "BreakerNotTripped") then HTTPException 409 "breaker_not_tripped" else CustomError cls msg), s')
  | r => r
  end.

Definition post_breaker_reset (request : Request) : M Server string :=
  _check_operator_auth request;;
  if negb breaker_wired then raise (HTTPException 503 "breaker_not_available")
  else
    s ← get;
    current ← on_ctl (on_shared load_breaker_state);
    let tripped st := bool_decide (BreakerState.state st = TRIPPED) in
    let is_tripped := tripped (_state (_breaker (o_fast (s_ctl s)))) || match current with Some st => tripped st | None => false end in
    if negb is_tripped then raise (HTTPException 409 "breaker_not_tripped")
    else
      token ← lift (mint_operator_reset_token "operator");
      not_tripped_409 (on_ctl (on_breaker (reset (Token token))));;
      mret "ARMED".

Definition post_mode (request : Request) (body : dict value) : M Server string :=
  _check_operator_auth request;;
  match ModeRequest body with
  | None => raise (HTTPException 400 "invalid_mode_request")
  | Some proposed =>
      s ← get;
      (if negb (_mode_is_downward (agent_mode s) proposed) && bool_decide (proposed = "LIVE") then
         lift (guard_ok (negb (dry_run_enabled cfg)) (HTTPException 403 "live_requires_dry_run_disabled_and_ceo_auth"));;
         _check_ceo_auth request
       else mret tt);;
      modify (with_mode proposed);;
      mret proposed
  end.
End App.

(** ** The older application: [control_api.py] *)

Module ControlApi.
Section App.
Context (_token : string) (loop_wired breaker_wired : bool).
Context (venue_exit : exit_log → Intent → Position.t → result FillResult.t).

(** [operator_token or os.environ.get("OPERATOR_TOKEN", "dev-token")] *)
Definition resolve_token (operator_token env : option string) : string :=
  match operator_token with
  | Some t => if bool_decide (t = "") then default "dev-token" env else t
  | None => default "dev-token" env
  end.

Definition _check_auth (request : Request) : M Controller unit :=
  lift (guard_ok (bearer_is (default "" (authorization request)) _token) (HTTPException 403 "operator_auth_required")).

Definition flatten (reason : string) : M Controller unit :=
  if loop_wired then on_fast (emergency_flatten_all venue_exit reason) else mret tt.

Definition post_kill (request : Request) : M Controller string :=
  _check_auth request;; kill;; flatten "operator_kill";; mret "killed".

Definition post_flatten (request : Request) (mint : string) : M Controller string :=
  _check_auth request;;
  pos ← on_shared (load_position mint);
  match pos with
  | None => raise (HTTPException 404 ("position_not_found:" +:+ mint))
  | Some _ => flatten ("operator_flatten:" +:+ mint);; mret "flattening"
  end.

Definition post_breaker_reset (request : Request) : M Controller string :=
  _check_auth request;;
  if negb breaker_wired then raise (HTTPException 503 "breaker_not_available")
  else
    current ← on_shared load_breaker_state;
    match current with
    | Some st =>
        if bool_decide (BreakerState.state st = TRIPPED) then
          token ← lift (mint_operator_reset_token "operator");
          on_breaker (reset (Token token));;
          mret "breaker_reset"
        else raise (HTTPException 409 "breaker_not_tripped")
    | None => raise (HTTPException 409 "breaker_not_tripped")
    end.
End App.
End ControlApi.

(** ** The whole system: loops, events and operator *)

Inductive endpoint : Type :=
| PostRiskConfig (body : dict value) | PostKill | PostFlattenAll | PostFlattenMint (mint : string) | PostBreakerReset
| PostMode (body : dict value).

Inductive sys_op : Type :=
| LaunchSeen (event : LaunchEvent.t) (start_wall_ms now_wall_ms : Z)
| FastTick (block_time_ms slot start_wall_ms end_wall_ms : Z)
| FillSeen (mint : string) (fill : FillResult.t)
| SellSeen (obs : SellObservation.t)
| EnrichmentTick (slot : Z)
| RegimeSeen (signal : RegimeSignal.t)
| SurvivorSeen (pred : SurvivorPrediction.t)
| RegimeTick
| Post (ep : endpoint) (request : Request).

Section System.
Context (cfg : ControlPlaneConfig) (parse_fields : dict value → option RiskConfig.t) (loop_wired breaker_wired : bool).
Context (_clock : nat → Z) (_enrichment : option Enrichment) {I : Type} (_regime_wiring : option (RegimeWiring I)).
Context (fast : FastLoop) (venue_exit : exit_log → Intent → Position.t → result FillResult.t).
Context (get_mark_price : string → Z → option dec) (_wall_epoch_ms : Z → Z) (hb_fails : Heartbeat.t → option string).
Context (set_order : list string → list string) (slow : SlowLoop.SlowLoop) (snipe : SnipeLoop) (_entering_ttl : Z).

Definition serve (ep : endpoint) (request : Request) : M Server unit :=
  match ep with
  | PostRiskConfig body => post_risk_config cfg parse_fields request body;; mret tt
  | PostKill => post_kill cfg loop_wired venue_exit request;; mret tt
  | PostFlattenAll => post_flatten_all cfg loop_wired venue_exit request;; mret tt
  | PostFlattenMint mint => post_flatten_mint cfg loop_wired venue_exit request mint;; mret tt
  | PostBreakerReset => post_breaker_reset cfg breaker_wired request;; mret tt
  | PostMode body => post_mode cfg request body;; mret tt
  end.

Definition run_op (op : sys_op) : M Server unit :=
  match op with
  | LaunchSeen event t0 t1 => on_ctl (on_launch_event _clock _enrichment slow snipe event t0 t1);; mret tt
  | FastTick bt slot t0 t1 =>
      on_ctl (orchestrator_tick _clock fast venue_exit get_mark_price _wall_epoch_ms hb_fails set_order _entering_ttl bt slot t0 t1);;
      mret tt
  | FillSeen mint fill => on_ctl (on_fill _clock fast mint fill);; mret tt
  | SellSeen obs => on_ctl (on_decoded_sell _clock _enrichment obs);; mret tt
  | EnrichmentTick slot => on_ctl (run_slow_enrichment_tick _clock _enrichment slot);; mret tt
  | RegimeSeen signal => on_ctl (controller_apply_regime_signal _clock _regime_wiring signal);; mret tt
  | SurvivorSeen pred => on_ctl (controller_apply_survivor_prediction _clock _regime_wiring pred);; mret tt
  | RegimeTick => on_ctl (run_slow_regime_tick _clock _regime_wiring);; mret tt
  | Post ep request => serve ep request
  end.

(** A call that raises is answered with an error; the process goes on. *)
Definition run_sys (ops : list sys_op) (s : Server) : Server := foldl (λ s op, snd (run_op op s)) s ops.

(** *** Authentication *)

Definition authorised (request : Request) : Prop :=
  operator_token cfg ≠ "" ∧ authorization request = Some ("Bearer " +:+ operator_token cfg).

Lemma starts_with_app p s t : starts_with p s = Some t ↔ s = p +:+ t.
Proof.
  revert s. induction p as [|a p IH]; intros s; [cbn; by split; [intros [= ->]|intros ->]|].
  destruct s as [|b s]; cbn; [done|].
  destruct (Ascii.eqb_spec a b) as [->|Hne]; [rewrite IH; by split; [intros ->|intros [= ?]]|].
  split; [done|]. intros [= ? ?]. congruence.
Qed.

Lemma check_auth_spec request s :
  (authorised request → _check_operator_auth cfg request s = (Ok tt, s)) ∧
  (¬ authorised request → _check_operator_auth cfg request s = (Raise (HTTPException 403 "operator_auth_required"), s)).
Proof.
  unfold _check_operator_auth, lift, guard_ok, authorised, bearer_is.
  destruct (base.decide (operator_token cfg = "")) as [He|He]; [rewrite bool_decide_eq_true_2 by done; by split; [intros []|]|].
  rewrite bool_decide_eq_false_2 by done. cbn [negb andb].
  destruct (starts_with "Bearer " (default "" (authorization request))) as [t|] eqn:E.
  - apply starts_with_app in E. case_bool_decide as Ht; [subst t|].
    + split; [done|]. intros Hn. exfalso. apply Hn. split; [done|]. destruct (authorization request); [by f_equal|done].
    + split; [|done]. intros [_ Ha]. rewrite Ha in E. cbn in E. simplify_eq.
  - split; [|done]. intros [_ Ha]. rewrite Ha in E. cbn [default from_option id] in E.
    assert (starts_with "Bearer " ("Bearer " +:+ operator_token cfg) = Some (operator_token cfg)) by (by apply starts_with_app). congruence.
Qed.

Lemma bind_raise {S A B} (m : M S A) (f : A → M S B) s e s' : m s = (Raise e, s') → (m ≫= f) s = (Raise e, s').
Proof. intros E. unfold mbind, M_bind. by rewrite E. Qed.

Lemma snd_then {S A} (m : M S A) s : snd ((m;; mret tt) s) = snd (m s).
Proof. unfold mbind, M_bind. by destruct (m s) as [[a|x] s']. Qed.

Lemma auth_bind {A} (f : M Server A) request s :
  (authorised request → (_check_operator_auth cfg request;; f) s = f s) ∧
  (¬ authorised request → (_check_operator_auth cfg request;; f) s = (Raise (HTTPException 403 "operator_auth_required"), s)).
Proof. destruct (check_auth_spec request s) as [H1 H2]. unfold mbind, M_bind. split; intros H; [by rewrite H1|by rewrite H2]. Qed.

(** Without the operator's token no endpoint does anything: it answers 403 and
    leaves the whole system as it was; and with an empty token configured no
    request is the operator's. *)
Theorem unauthorised_requests_do_nothing ep request s :
  ¬ authorised request → serve ep request s = (Raise (HTTPException 403 "operator_auth_required"), s).
Proof.
  intros H. destruct ep; cbn [serve]; (apply bind_raise; exact (proj2 (auth_bind _ request s) H)).
Qed.

(** *** The kill switch *)

(** No entry was sent past [l], and none will be. *)
Definition halted (l : list EntryIntent.t) (c : Controller) : Prop := o_sent c = l ∧ _killed c = true.
Definition s_halted (l : list EntryIntent.t) (s : Server) : Prop := halted l (s_ctl s).

Lemma halted_lens {W A} (put : W → Controller → Controller) (view : Controller → W) (m : M W A) l :
  (∀ w c, halted l c → halted l (put w c)) →
  keeps (halted l) (λ c, let '(r, w) := m (view c) in (r, put w c)) (λ _, True).
Proof. intros H c Hc. destruct (m (view c)) as [r w]. split; [by apply H|done]. Qed.

Lemma halted_fast {A} (m : M FastWorld A) l : keeps (halted l) (on_fast m) (λ _, True).
Proof. by apply (halted_lens with_fast o_fast). Qed.
Lemma halted_shared {A} (m : M StateStore A) l : keeps (halted l) (on_shared m) (λ _, True).
Proof. by apply (halted_lens with_shared o_store). Qed.
Lemma halted_detector {A} (m : M Detector A) l : keeps (halted l) (on_detector m) (λ _, True).
Proof. by apply (halted_lens (λ d c, with_detector d (with_shared (_flag_sink d) c)) (λ c, set_sink (o_store c) (o_detector c))). Qed.
Lemma halted_reprobe {A} (m : M ReprobeWorld A) l : keeps (halted l) (on_reprobe m) (λ _, True).
Proof. by apply (halted_lens (λ w c, with_reprobe (r_stats w) (with_shared (r_store w) c)) (λ c, mk_reprobe (o_reprobe c) (o_store c))). Qed.
Lemma halted_regime {A} (m : M RegimeWorld A) l : keeps (halted l) (on_regime m) (λ _, True).
Proof. by apply (halted_lens (λ w c, with_regime (g_stats w) (with_shared (g_store w) c)) (λ c, mk_regime_world (o_regime c) (o_store c))). Qed.
Lemma halted_count f l : keeps (halted l) (count_enrich f) (λ _, True).
Proof. by apply keeps_modify. Qed.

Lemma halted_started l : keeps (halted l) require_started (λ _, True).
Proof. eapply keeps_bind; [apply keeps_get|intros c _]. by apply keeps_lift. Qed.

#[local] Hint Resolve halted_fast halted_shared halted_detector halted_reprobe halted_regime halted_count halted_started : core.

(** One call after another, each of which keeps the invariant. *)
Ltac quietly := eapply (keeps_bind _ _ _ (λ _, True)); [by auto|intros ? _].

Lemma halted_launch event t0 t1 l : keeps (halted l) (on_launch_event _clock _enrichment slow snipe event t0 t1) (λ _, True).
Proof.
  unfold on_launch_event. quietly. quietly. intros c Hc. unfold mbind, M_bind, get. destruct Hc as [Hl Hk]. rewrite Hk.
  by split.
Qed.

Lemma halted_watch th ttl get_schedule ps slot l :
  keeps (halted l) (watch_each _clock th ttl get_schedule ps slot) (λ _, True).
Proof.
  induction ps as [|p ps IH]; cbn [watch_each]; [by apply keeps_ret|]. destruct (get_schedule _).
  - quietly. quietly. quietly. by apply keeps_ret.
  - by quietly.
Qed.

Lemma s_halted_ctl {A} (m : M Controller A) l : keeps (halted l) m (λ _, True) → keeps (s_halted l) (on_ctl m) (λ _, True).
Proof. intros Hm s Hs. unfold on_ctl. destruct (Hm (s_ctl s) Hs) as [Hc _]. by destruct (m (s_ctl s)) as [r c]. Qed.

Lemma halted_op op s l : (∀ ep rq, op ≠ Post ep rq) → s_halted l s → s_halted l (snd (run_op op s)).
Proof.
  intros Hno Hs.
  assert (∀ {A} (m : M Controller A), keeps (halted l) m (λ _, True) → s_halted l (snd ((on_ctl m;; mret tt) s))) as H.
  { intros A m Hm. rewrite snd_then. by apply (s_halted_ctl m l Hm s Hs). }
  destruct op; cbn [run_op]; try (apply H); [apply halted_launch|..|by edestruct Hno].
  - unfold orchestrator_tick. quietly. quietly. quietly. by apply keeps_ret.
  - apply halted_fast.
  - unfold on_decoded_sell. destruct _enrichment as [e|]; [|by apply keeps_ret]. unfold enrichment_on_decoded_sell.
    destruct (e_insider e) as [[[cf cap] fo]|]; [|by apply keeps_ret]. quietly. quietly. apply halted_detector.
  - unfold run_slow_enrichment_tick. destruct _enrichment as [e|]; [|by apply keeps_ret].
    eapply (keeps_bind _ _ _ (λ _, True)); [|intros ? _; eapply (keeps_bind _ _ _ (λ _, True)); [|intros ? _; by apply keeps_ret]].
    + unfold run_sellability_reprobe. destruct (e_reprober e) as [[pr ttl]|]; [|by apply keeps_ret]. quietly. quietly. by apply keeps_ret.
    + unfold run_lp_unlock_watch. destruct (e_watcher e) as [[th ttl]|]; [|by apply keeps_ret].
      destruct (e_schedules e); [|by apply keeps_ret]. quietly. apply halted_watch.
  - unfold controller_apply_regime_signal. destruct _regime_wiring; [|by apply keeps_ret]. quietly. by apply keeps_ret.
  - unfold controller_apply_survivor_prediction. destruct _regime_wiring; [|by apply keeps_ret]. quietly. by apply keeps_ret.
  - unfold run_slow_regime_tick. destruct _regime_wiring; [|by apply keeps_ret]. apply halted_regime.
Qed.

(** What the endpoints keep: an invariant of the controller calls they make,
    of the configuration they install and of the mode they set. *)
Lemma serve_keeps (P : Server → Prop) ep request :
  keeps P (on_ctl kill) (λ _, True) →
  (∀ A (m : M FastWorld A), keeps P (on_ctl (on_fast m)) (λ _, True)) →
  (∀ A (m : M StateStore A), keeps P (on_ctl (on_shared m)) (λ _, True)) →
  (∀ b s, P s → P (with_box b s)) → (∀ body, ep = PostMode body → ∀ m s, P s → P (with_mode m s)) →
  keeps P (serve ep request) (λ _, True).
Proof.
  intros Hkill Hfast Hshared Hbox Hmode.
  assert (keeps P (_check_operator_auth cfg request) (λ _, True)) as Ha by (by apply keeps_lift).
  assert (∀ m, keeps P (flatten loop_wired m) (λ _, True)) as Hf.
  { intros m. unfold flatten. destruct loop_wired; [apply Hfast|by apply keeps_ret]. }
  destruct ep; cbn [serve];
    (eapply (keeps_bind _ _ _ (λ _, True)); [|intros ? _; by apply keeps_ret]);
    (eapply (keeps_bind _ _ _ (λ _, True)); [exact Ha|intros ? _]).
  - eapply keeps_bind; [apply keeps_get|intros ? _]. eapply (keeps_bind _ _ _ (λ _, True)); [by apply keeps_lift|intros ? _].
    eapply (keeps_bind _ _ _ (λ _, True)); [by apply keeps_lift|intros ? _]. eapply (keeps_bind _ _ _ (λ _, True)); [by apply keeps_lift|intros ? _].
    eapply keeps_bind; [apply keeps_modify, Hbox|intros ? _]. by apply keeps_gets.
  - eapply (keeps_bind _ _ _ (λ _, True)); [exact Hkill|intros ? _].
    eapply (keeps_bind _ _ _ (λ _, True)); [apply Hf|intros ? _]. by apply keeps_ret.
  - eapply (keeps_bind _ _ _ (λ _, True)); [apply Hf|intros ? _]. by apply keeps_ret.
  - eapply (keeps_bind _ _ _ (λ _, True)); [apply Hshared|intros [p|] _; [|by apply keeps_raise]].
    eapply (keeps_bind _ _ _ (λ _, True)); [apply Hf|intros ? _]. by apply keeps_ret.
  - destruct (negb breaker_wired); [by apply keeps_raise|]. eapply keeps_bind; [apply keeps_get|intros s0 _].
    eapply (keeps_bind _ _ _ (λ _, True)); [apply Hshared|intros cur _]. cbv zeta. destruct (negb _); [by apply keeps_raise|].
    eapply (keeps_bind _ _ _ (λ _, True)); [by apply keeps_lift|intros tk _]. eapply (keeps_bind _ _ _ (λ _, True)); [|intros ? _; by apply keeps_ret].
    intros s Hs. pose proof (Hfast _ (λ f, let '(r, b) := reset (Token tk) (FastLoop._breaker f) in (r, FastLoop.set_brk b f)) s Hs) as [Hc _].
    unfold not_tripped_409. unfold on_breaker. destruct (on_ctl _ s) as [[b|x] s']; [|destruct x]; by split.
  - destruct (ModeRequest body); [|by apply keeps_raise]. eapply keeps_bind; [apply keeps_get|intros s0 _].
    eapply (keeps_bind _ _ _ (λ _, True)); [|intros ? _; eapply keeps_bind; [by apply keeps_modify; intros; eapply Hmode|intros ? _]; by apply keeps_ret].
    destruct (_ && _); [|by apply keeps_ret]. eapply (keeps_bind _ _ _ (λ _, True)); [by apply keeps_lift|intros ? _]. by apply keeps_lift.
Qed.

Lemma halted_serve ep request l : keeps (s_halted l) (serve ep request) (λ _, True).
Proof.
  apply serve_keeps; [apply s_halted_ctl; apply keeps_modify; by intros c []|intros A m; apply s_halted_ctl, halted_fast
    |intros A m; apply s_halted_ctl, halted_shared|done|done].
Qed.

Lemma halted_run ops s l : s_halted l s → s_halted l (run_sys ops s).
Proof.
  revert s. induction ops as [|op ops IH]; intros s Hs; [done|]. cbn. apply IH. destruct op; try by apply halted_op.
  by apply (halted_serve ep request l s Hs).
Qed.

(** C5: A kill is final. Once an authorised POST /api/kill was served, whatever
    happens afterwards (launches, ticks, fills, sells, slow passes, any
    requests, authorised or not, whether or not a call raises), no entry is
    ever sent again; and the kill itself sends none, even when its flatten
    raises. No endpoint calls [KillSwitch.clear]: only a restart resumes. *)
Theorem kill_is_final request s ops : authorised request →
  let s' := run_sys (Post PostKill request :: ops) s in
  o_sent (s_ctl s') = o_sent (s_ctl s) ∧ _killed (s_ctl s') = true.
Proof.
  intros Ha s'. cut (s_halted (o_sent (s_ctl s)) (snd (run_op (Post PostKill request) s))); [intros H; exact (halted_run ops _ _ H)|].
  set (l := o_sent (s_ctl s)).
  assert (s_halted l (snd (post_kill cfg loop_wired venue_exit request s))) as H.
  { unfold post_kill. rewrite (proj1 (auth_bind _ request s) Ha). set (s1 := with_ctl (with_flags (_started (s_ctl s)) true (s_ctl s)) s).
    assert (keeps (s_halted l) (flatten loop_wired (emergency_flatten_all venue_exit "operator_kill");; mret "halting") (λ _, True)) as Hf.
    { eapply (keeps_bind _ _ _ (λ _, True)); [|intros ? _; by apply keeps_ret].
      unfold flatten. destruct loop_wired; [apply s_halted_ctl, halted_fast|by apply keeps_ret]. }
    by apply (Hf s1). }
  cbn [run_op serve]. by rewrite snd_then.
Qed.

(** *** The mode *)

Lemma mode_ctl {A} (m : M Controller A) v : keeps (λ s, agent_mode s = v) (on_ctl m) (λ _, True).
Proof. intros s Hs. unfold on_ctl. by destruct (m (s_ctl s)) as [r c]. Qed.

Definition gated (request : Request) : Prop :=
  authorised request ∧ dry_run_enabled cfg = false ∧ ceo_token cfg ≠ "" ∧ x_ceo_auth request = Some (ceo_token cfg).

Lemma mode_post request body s :
  agent_mode (snd (serve (PostMode body) request s)) = "LIVE" → agent_mode s = "LIVE" ∨ gated request.
Proof.
  destruct (base.decide (agent_mode s = "LIVE")) as [|Hne]; [by left|]. intros H. right. revert H.
  cbn [serve]. rewrite snd_then. unfold post_mode. destruct (base.decide (authorised request)) as [Ha|Ha];
    [rewrite (proj1 (auth_bind _ request s) Ha)|rewrite (proj2 (auth_bind _ request s) Ha); cbn; congruence].
  destruct (ModeRequest body) as [m|]; [|cbn; congruence].
  assert (m = "LIVE" → _mode_is_downward (agent_mode s) m = false) as Hd.
  { intros ->. unfold _mode_is_downward. apply Z.ltb_ge.
    change (dget "LIVE" _MODE_ORDER) with (Some 3). unfold _MODE_ORDER. cbn [dget]. repeat case_bool_decide; cbn; lia. }
  unfold get, modify, mret, M_ret, mbind, M_bind, lift, guard_ok, _check_ceo_auth.
  destruct (base.decide (m = "LIVE")) as [->|Hm].
  2:{ rewrite (bool_decide_eq_false_2 (m = "LIVE")) by done. rewrite andb_false_r. cbn. congruence. }
  rewrite Hd, bool_decide_eq_true_2 by done. cbn [negb andb].
  destruct (dry_run_enabled cfg) eqn:Ed; cbn [negb]; [cbn; congruence|].
  destruct (base.decide (ceo_token cfg = "")) as [Ec|Ec]; [rewrite bool_decide_eq_true_2 by done; cbn; congruence|].
  rewrite bool_decide_eq_false_2 by done. cbn [negb andb]. unfold lift, guard_ok.
  destruct (base.decide (default "" (x_ceo_auth request) = ceo_token cfg)) as [Ex|Ex];
    [rewrite bool_decide_eq_true_2 by done|rewrite bool_decide_eq_false_2 by done; cbn; congruence].
  intros _. split_and!; try done. destruct (x_ceo_auth request); cbn in Ex; congruence.
Qed.

(** C20: LIVE takes both gates. From any other mode, whatever the loops do and
    whatever is posted, the mode is LIVE afterwards only if the dry run is
    disabled in the configuration and one of the requests was a POST /api/mode
    that carried the operator's token and the CEO's, which is not empty. *)
Theorem live_needs_both_gates ops s :
  agent_mode s ≠ "LIVE" → agent_mode (run_sys ops s) = "LIVE" →
  ∃ body request, Post (PostMode body) request ∈ ops ∧ gated request.
Proof.
  revert s. induction ops as [|op ops IH]; intros s Hs Hl; [done|]. cbn in Hl.
  destruct (base.decide (agent_mode (snd (run_op op s)) = "LIVE")) as [E|E].
  2:{ destruct (IH _ E Hl) as (body & rq & Hin & Hg). exists body, rq. split; [by right|done]. }
  assert (∀ {A} (m : M Controller A), agent_mode (snd ((on_ctl m;; mret tt) s)) = agent_mode s) as Hctl.
  { intros A m. rewrite snd_then. apply (mode_ctl m (agent_mode s) s eq_refl). }
  destruct op as [| | | | | | | |ep rq]; cbn [run_op] in E; try (rewrite Hctl in E; done).
  destruct ep as [body| | |mint| |body].
  6:{ exists body, rq. split; [by left|]. by destruct (mode_post rq body s E). }
  all: exfalso; apply Hs; rewrite <- E; symmetry;
    match goal with |- agent_mode (snd (serve ?ep _ _)) = _ => apply (serve_keeps (λ t, agent_mode t = agent_mode s) ep rq) end;
    try done; intros; apply mode_ctl.
Qed.

(** *** The risk configuration *)

Definition valid_body (body : dict value) : Prop :=
  ∃ rc, (safe_body ← to_decimals _DECIMAL_STRING_FIELDS body; RiskConfig_new parse_fields safe_body) = Ok rc.

Lemma post_risk_cases request body s : authorised request →
  (_validate_risk_config_tighten_only (_risk_config_box s) body = Ok [] ∧ valid_body body ∧
     post_risk_config cfg parse_fields request body s = (Ok body, with_box body s)) ∨
  (¬ (_validate_risk_config_tighten_only (_risk_config_box s) body = Ok [] ∧ valid_body body) ∧
     ∃ x, post_risk_config cfg parse_fields request body s = (Raise x, s)).
Proof.
  intros Ha. unfold post_risk_config, valid_body. rewrite (proj1 (auth_bind _ request s) Ha).
  set (model := to_decimals _DECIMAL_STRING_FIELDS body ≫= _). clearbody model.
  unfold get, modify, gets, mbind, M_bind, lift, guard_ok.
  destruct (_validate_risk_config_tighten_only (_risk_config_box s) body) as [v|x]; [|right; split; [by intros [? _]|by eexists]].
  destruct (base.decide (v = [])) as [->|Hv];
    [|rewrite bool_decide_eq_false_2 by done; right; split; [by intros [[= ?] _]|by eexists]].
  rewrite bool_decide_eq_true_2 by done.
  destruct model as [rc|x]; [left|right].
  - split; [done|]. split; [by exists rc|done].
  - split; [by intros [_ [rc [=]]]|by eexists].
Qed.

Lemma nothing_to_widen up fs body : check_fields up fs [] body = Ok [] ∧ check_fields up fs body [] = Ok [].
Proof.
  induction fs as [|f fs [IH1 IH2]]; [done|]. cbn [check_fields]. unfold widens. rewrite IH1, IH2. cbn [read_field dget].
  by destruct (read_field f body).
Qed.

(** The tighten-only rule does not hold across requests. Whatever the current
    configuration, two authorised requests, an empty object and then the body,
    install exactly the bodies the risk model accepts on its own: the first
    replaces the configuration by nothing, so the second is compared with
    nothing. A limit tightened before is back at its ceiling, and a field
    without a ceiling ([max_slippage_bps], [snipe_threshold]) takes any value. *)
Theorem two_posts_undo_tightening request body s :
  authorised request → valid_body [] →
  (_risk_config_box (run_sys [Post (PostRiskConfig []) request; Post (PostRiskConfig body) request] s) = body ↔ valid_body body).
Proof.
  intros Ha H0. cbn [run_sys foldl run_op serve]. rewrite !snd_then.
  destruct (post_risk_cases request [] s Ha) as [(_ & _ & ->)|[Hn _]].
  2:{ exfalso. apply Hn. split; [|done]. unfold _validate_risk_config_tighten_only.
      rewrite (proj2 (nothing_to_widen false _ _)), (proj2 (nothing_to_widen true _ _)). done. }
  cbn [snd]. destruct (post_risk_cases request body (with_box [] s) Ha) as [(_ & Hv & ->)|[Hn [x ->]]]; cbn [snd with_box _risk_config_box].
  - done.
  - split; [intros <-; done|]. intros Hv. exfalso. apply Hn. split; [|done]. unfold _validate_risk_config_tighten_only.
    cbn [_risk_config_box with_box].
    rewrite (proj1 (nothing_to_widen false _ _)), (proj1 (nothing_to_widen true _ _)). done.
Qed.

(** *** The breaker *)

(** [breaker.reset] on a genuine token. *)
Lemma reset_rearms t b : BreakerState.state (_state b) = TRIPPED →
  ∃ b', reset (Token t) b = (Ok armed_state, b') ∧ _state b' = armed_state.
Proof.
  intros Ht. unfold reset, is_tripped. mstep. rewrite bool_decide_eq_true_2 by done. mstep.
  match goal with |- context [_emit_telemetry ?x] => destruct (emit_telemetry_frame x) as [g ->] end. by eexists.
Qed.

Lemma shared_pure {A} (f : StateStore → A) s : on_ctl (on_shared (gets f)) s = (Ok (f (o_store (s_ctl s))), s).
Proof. destruct s as [c m b]. unfold on_ctl, on_shared, gets, with_shared, o_store. by rewrite set_store_same, with_fast_same. Qed.

(** A reset re-arms the breaker, and the entries stay blocked. On a tripped
    breaker whose projection in the store says so too, an authorised POST
    /api/breaker/reset answers ARMED and re-arms the breaker, but it writes
    nothing to the store: the projection still says TRIPPED, so the entry loop
    sends nothing on any event, and a second reset is answered 409. *)
Theorem reset_leaves_entries_blocked request s :
  authorised request → breaker_wired = true → BreakerState.state (_state (FastLoop._breaker (o_fast (s_ctl s)))) = TRIPPED →
  breaker_tripped (o_store (s_ctl s)) = true →
  ∃ s', post_breaker_reset cfg breaker_wired request s = (Ok "ARMED", s') ∧
    _state (FastLoop._breaker (o_fast (s_ctl s'))) = armed_state ∧ o_store (s_ctl s') = o_store (s_ctl s) ∧
    (∃ s'', post_breaker_reset cfg breaker_wired request s' = (Raise (HTTPException 409 "breaker_not_tripped"), s'')) ∧
    ∀ event t0 t1 q l, w_sent (snd (SnipeLoop.process_event _clock snipe event t0 t1 (mk_world (o_store (s_ctl s')) q l))) = l.
Proof.
  intros Ha Hw Ht Hp.
  assert (∀ s, post_breaker_reset cfg breaker_wired request s =
    (if negb (bool_decide (BreakerState.state (_state (FastLoop._breaker (o_fast (s_ctl s)))) = TRIPPED) || breaker_tripped (o_store (s_ctl s)))
     then (Raise (HTTPException 409 "breaker_not_tripped"), s)
     else (not_tripped_409 (on_ctl (on_breaker (reset (Token (mk_token "operator")))));; mret "ARMED") s)) as Hrun.
  { intros t. unfold post_breaker_reset. rewrite (proj1 (auth_bind _ request t) Ha), Hw. cbn [negb].
    unfold mbind at 1, M_bind, get. unfold mbind at 1, M_bind. unfold load_breaker_state. rewrite shared_pure. cbv beta zeta.
    unfold breaker_tripped. destruct (StateStore._breaker (o_store (s_ctl t))) as [st|]; cbn [orb];
      [|rewrite orb_false_r]; (destruct (negb _); [done|]); by unfold mbind at 1, M_bind, lift; cbn. }
  set (f := o_fast (s_ctl s)) in *.
  destruct (reset_rearms (mk_token "operator") (FastLoop._breaker f)) as (b' & Er & Es); [done|].
  exists (with_ctl (with_fast (FastLoop.set_brk b' f) (s_ctl s)) s).
  split.
  { rewrite Hrun. cbv zeta. fold f. rewrite Hp, orb_true_r. cbn [negb]. unfold mbind, M_bind, not_tripped_409, on_ctl, on_breaker, on_fast.
    fold f. rewrite Er. done. }
  split; [done|]. split; [done|]. split.
  - eexists. rewrite Hrun. cbv zeta. cbn [s_ctl with_ctl o_fast with_fast FastLoop._breaker FastLoop.set_brk].
    change (o_store (with_fast (FastLoop.set_brk b' f) (s_ctl s))) with (o_store (s_ctl s)). rewrite Hp, orb_true_r. cbn [negb].
    unfold mbind, M_bind, not_tripped_409, on_ctl, on_breaker, on_fast. cbn [s_ctl with_ctl o_fast with_fast FastLoop._breaker FastLoop.set_brk].
    unfold reset, is_tripped. mstep. rewrite Es. cbn. reflexivity.
  - intros event t0 t1 q l. change (o_store (s_ctl (with_ctl _ s))) with (o_store (s_ctl s)).
    destruct (SnipeLoop.process_event _ _ _ _ _ _) as [r w'] eqn:E. cbn [snd].
    destruct (process_spec _clock snipe event t0 t1 _ r w' E) as (signal & sol & Hend & Hc). cbn [w_sent] in Hc.
    assert (w_sent w' ≠ l → False) as Hno
      by (intros Hne; destruct (Hc Hne) as [Hcl]; cbn [w_store] in Hcl; congruence).
    destruct Hend as [reason Hr Hs Hpos|x Hs Hpos|p Hm Hb Hs Hpos Hl|stop cost expiry Hb H1 Hco Hs Hpos Hl]; [done..|].
    exfalso. apply Hno. rewrite Hs. intros H. apply (f_equal length) in H. rewrite length_app in H. cbn in H. lia.
Qed.
End System.

(** *** What one request may do to the risk configuration *)

Section Tighten.
Context (cfg : ControlPlaneConfig) (parse_fields : dict value → option RiskConfig.t).

Definition int_limits : list (string * Z * (RiskConfig.t → Z)) :=
  [("per_trade_cap_lamports", 100000000, RiskConfig.per_trade_cap_lamports);
   ("max_aggregate_lamports", 500000000, RiskConfig.max_aggregate_lamports)].
Definition dec_limits : list (string * dec * (RiskConfig.t → dec)) :=
  [("daily_loss_limit_pct", mkdec 30 (-1), RiskConfig.daily_loss_limit_pct);
   ("jito_tip_cap_frac", mkdec 30 (-2), RiskConfig.jito_tip_cap_frac);
   ("kelly_fraction_cap", mkdec 25 (-2), RiskConfig.kelly_fraction_cap)].

(** What the model's field parsing is relied on for: an integer or a decimal
    that is accepted for a field of that type is the field's value. *)
Record fields_literal : Prop := {
  fl_int : ∀ body rc f top get z, parse_fields body = Some rc → (f, top, get) ∈ int_limits →
    dget f body = Some (VInt z) → get rc = z;
  fl_dec : ∀ body rc f top get d, parse_fields body = Some rc → (f, top, get) ∈ dec_limits →
    dget f body = Some (VDec (Fin d)) → get rc = d
}.

Lemma to_decimals_get fs body safe f : to_decimals fs body = Ok safe → NoDup fs →
  dget f safe = if base.decide (f ∈ fs)
                then match dget f body with Some (VStr s) => VDec <$> decimal_of_str s | o => o end
                else dget f body.
Proof.
  revert body. induction fs as [|g fs IH]; intros body H Hnd; cbn [to_decimals] in H; [by injection H as <-|].
  apply NoDup_cons in Hnd as [Hg Hnd]. destruct (match dget g body with Some (VStr s) => _ | _ => _ end) as [body'|] eqn:E; [|done].
  cbn [mbind result_bind] in H. rewrite (IH _ H Hnd). destruct (base.decide (f = g)) as [->|Hne].
  - rewrite decide_False, decide_True by (by try left). destruct (dget g body) as [[]|] eqn:Eg; simplify_eq; try done.
    destruct (decimal_of_str s) as [d|] eqn:Ed; simplify_eq. by rewrite dget_dset.
  - assert (dget f body' = dget f body) as ->.
    { destruct (dget g body) as [[]|]; simplify_eq; try done. destruct (decimal_of_str s); simplify_eq. by rewrite dget_dset_ne. }
    destruct (base.decide (f ∈ fs)); [rewrite decide_True by (by right)|rewrite decide_False by (rewrite elem_of_cons; naive_solver)]; done.
Qed.

Lemma check_fields_none up fs cur new f : check_fields up fs cur new = Ok [] → f ∈ fs → widens up f cur new = Ok false.
Proof.
  induction fs as [|g fs IH]; intros H Hf; [by apply elem_of_nil in Hf|]. cbn [check_fields] in H.
  destruct (widens up g cur new) as [w|] eqn:Ew; [|done]. cbn [mbind result_bind] in H.
  destruct (check_fields up fs cur new) as [rest|]; [|done]. cbn [mbind result_bind] in H. injection H as H.
  apply app_eq_nil in H as [Hw ->]. destruct w; [done|]. apply elem_of_cons in Hf as [->|Hf]; [done|]. by apply IH.
Qed.

(** What one accepted POST /api/risk-config does: it installs the body, whole;
    an integer limit or a decimal limit present on both sides is not raised,
    and the snipe threshold, as a float on both sides, is not lowered; and
    whatever the configuration was, the size caps, the loss limit, the tip cap
    and the Kelly fraction of the body are at most their ceilings. *)
Theorem one_post_only_tightens request body s b s' :
  authorised cfg request → fields_literal → post_risk_config cfg parse_fields request body s = (Ok b, s') →
  let box := _risk_config_box s in
  b = body ∧ s' = with_box body s ∧
  (∀ f x y, f ∈ ["per_trade_cap_lamports"; "max_aggregate_lamports"; "max_slippage_bps"] →
     dget f box = Some (VInt x) → dget f body = Some (VInt y) → y ≤ x) ∧
  (∀ f t u x y, f ∈ _DECIMAL_STRING_FIELDS → dget f box = Some (VStr t) → dget f body = Some (VStr u) →
     decimal_of_str t = Some (Fin x) → decimal_of_str u = Some (Fin y) → dle y x) ∧
  (∀ s1 m1 e1 s2 m2 e2, dget _INCREASE_ONLY box = Some (VFloat (S754_finite s1 m1 e1)) →
     dget _INCREASE_ONLY body = Some (VFloat (S754_finite s2 m2 e2)) → dle (float_exact s1 m1 e1) (float_exact s2 m2 e2)) ∧
  (∀ f top get z, (f, top, get) ∈ int_limits → dget f body = Some (VInt z) → z ≤ top) ∧
  (∀ f top get u y, (f, top, get) ∈ dec_limits → dget f body = Some (VStr u) → decimal_of_str u = Some (Fin y) → dle y top).
Proof.
  intros Ha Hlit Hp box. destruct (post_risk_cases cfg parse_fields request body s Ha) as [(Hv & (rc & Hrc) & E)|[_ [x E]]]; [|congruence].
  rewrite E in Hp. injection Hp as <- <-. unfold _validate_risk_config_tighten_only in Hv. fold box in Hv.
  destruct (check_fields false _DECREASE_ONLY box body) as [down|] eqn:Ed; [|done]. cbn [mbind result_bind] in Hv.
  destruct (check_fields true _ box body) as [up|] eqn:Eu; [|done]. cbn [mbind result_bind] in Hv. injection Hv as Hv.
  apply app_eq_nil in Hv as [-> ->]. pose proof (λ f, check_fields_none false _ _ _ f Ed) as Hd. clear Ed.
  pose proof (check_fields_none true _ _ _ _INCREASE_ONLY Eu ltac:(by left)) as Hu. clear Eu.
  destruct (to_decimals _ body) as [safe|] eqn:Es; [|done]. cbn [mbind result_bind] in Hrc.
  assert (NoDup _DECIMAL_STRING_FIELDS) as Hnd by (apply (bool_decide_unpack _); vm_compute; exact Logic.I).
  unfold RiskConfig_new in Hrc. destruct (RiskConfig._reject_float_money _); [|done]. cbn [mbind result_bind] in Hrc.
  destruct (parse_fields safe) as [rc'|] eqn:Ep; [|done].
  unfold RiskConfig._floor_invariants in Hrc. repeat (case_match; [done|]).
  split; [done|]. split; [done|]. split; [|split; [|split; [|split]]].
  - intros f x y Hf Hx Hy. assert (f ∈ _DECREASE_ONLY) as Hin by (revert Hf; unfold _DECREASE_ONLY; rewrite !elem_of_cons; tauto).
    specialize (Hd f Hin). unfold widens, read_field in Hd. rewrite Hx, Hy in Hd. cbn in Hd. injection Hd as Hd.
    apply dltb_false in Hd. specialize (Hd 0 ltac:(cbn; lia) ltac:(cbn; lia)). unfold rescale in Hd. cbn in Hd. lia.
  - intros f t u x y Hf Hx Hy Htx Huy.
    assert (f ∈ _DECREASE_ONLY) as Hin by (revert Hf; unfold _DECREASE_ONLY, _DECIMAL_STRING_FIELDS; rewrite !elem_of_cons; tauto).
    specialize (Hd f Hin). unfold widens, read_field in Hd. rewrite Hx, Hy in Hd. cbn [_coerce] in Hd.
    rewrite bool_decide_eq_true_2, Htx, Huy in Hd by done. cbn in Hd. injection Hd as Hd. by apply dltb_false in Hd.
  - intros s1 m1 e1 s2 m2 e2 Hx1 Hx2. unfold widens, read_field in Hu. rewrite Hx1, Hx2 in Hu. cbn in Hu. injection Hu as Hu.
    by apply dltb_false in Hu.
  - intros f top get z Hf Hz. pose proof (to_decimals_get _ _ _ f Es Hnd) as Hs.
    assert (get rc' = z ∧ get rc' ≤ top) as [<- ?]; [|done]. split.
    + eapply (fl_int Hlit); [exact Ep|exact Hf|]. rewrite Hs, Hz. by destruct (base.decide _).
    + unfold int_limits in Hf. rewrite !elem_of_cons in Hf. destruct Hf as [[= -> -> ->]|[[= -> -> ->]|Hf%elem_of_nil]]; [lia|lia|done].
  - intros f top get u y Hf Hz Hy. pose proof (to_decimals_get _ _ _ f Es Hnd) as Hs.
    assert (get rc' = y ∧ dle (get rc') top) as [<- ?]; [|done]. split.
    + eapply (fl_dec Hlit); [exact Ep|exact Hf|]. rewrite Hs, Hz, Hy. rewrite decide_True; [done|].
      revert Hf. unfold dec_limits, _DECIMAL_STRING_FIELDS. rewrite !elem_of_cons. intros [[= -> _ _]|[[= -> _ _]|[[= -> _ _]|Hf%elem_of_nil]]]; tauto.
    + unfold dec_limits in Hf. rewrite !elem_of_cons in Hf.
      destruct Hf as [[= -> -> ->]|[[= -> -> ->]|[[= -> -> ->]|Hf%elem_of_nil]]]; try done; by apply dltb_false.
Qed.
End Tighten.

(** *** Witnesses *)

Definition desk : ControlPlaneConfig := mk_cp_config "tok" "ceo" false.
Definition operator : Request := mk_request (Some "Bearer tok") (Some "ceo").
Definition stranger : Request := mk_request (Some "Bearer tik") None.

(** Fields read literally, absent ones by default. *)
Definition field_int (f : string) (d : Z) (b : dict value) : option Z :=
  match dget f b with Some (VInt z) => Some z | None => Some d | _ => None end.
Definition field_dec (f : string) (d : dec) (b : dict value) : option dec :=
  match dget f b with Some (VDec (Fin x)) => Some x | None => Some d | _ => None end.
Definition field_float (f : string) (d : float) (b : dict value) : option float :=
  match dget f b with Some (VFloat x) => Some x | None => Some d | _ => None end.
Definition literal_fields (b : dict value) : option RiskConfig.t :=
  let r := RiskConfig.defaults in
  a1 ← field_int "per_trade_cap_lamports" (RiskConfig.per_trade_cap_lamports r) b;
  a2 ← field_int "max_aggregate_lamports" (RiskConfig.max_aggregate_lamports r) b;
  a3 ← field_int "daily_risk_tranche_lamports" (RiskConfig.daily_risk_tranche_lamports r) b;
  a4 ← field_dec "daily_loss_limit_pct" (RiskConfig.daily_loss_limit_pct r) b;
  a5 ← field_int "daily_loss_floor_lamports" (RiskConfig.daily_loss_floor_lamports r) b;
  a6 ← field_int "max_slippage_bps" (RiskConfig.max_slippage_bps r) b;
  a7 ← field_float "snipe_threshold" (RiskConfig.snipe_threshold r) b;
  a8 ← field_float "veto_threshold" (RiskConfig.veto_threshold r) b;
  a9 ← field_dec "jito_tip_cap_frac" (RiskConfig.jito_tip_cap_frac r) b;
  a10 ← field_dec "kelly_fraction_cap" (RiskConfig.kelly_fraction_cap r) b;
  a11 ← field_int "n_wallets_max" (RiskConfig.n_wallets_max r) b;
  a12 ← field_int "blast_radius_cap_lamports" (RiskConfig.blast_radius_cap_lamports r) b;
  a13 ← field_int "t_dms_seconds" (RiskConfig.t_dms_seconds r) b;
  a14 ← field_int "pre_calibration_haircut_bps" (RiskConfig.pre_calibration_haircut_bps r) b;
  Some (RiskConfig.mk a1 a2 a3 a4 a5 a6 a7 a8 a9 a10 a11 a12 a13 a14).

Lemma literal_ok : fields_literal literal_fields.
Proof.
  split; intros body rc f top get v Hp Hin Hf; unfold literal_fields in Hp; repeat (apply bind_Some in Hp as (? & ? & Hp)); injection Hp as <-;
    revert Hin; unfold int_limits, dec_limits; rewrite !elem_of_cons;
    intros Hin; repeat destruct Hin as [[= -> _ ->]|Hin]; try by apply elem_of_nil in Hin.
  all: unfold field_int, field_dec in *; rewrite Hf in *; by simplify_eq.
Qed.

Definition desk_server : Server := mk_server running "PAPER" _make_risk_config.
Abbreviation desk_run :=
  (run_sys desk literal_fields true true tick_clock (Some watchful) (@None (RegimeWiring string)) sample_fast_loop (answers true)
     (flat_feed 100) (λ n, n) (λ _, None) (λ l, l) (slow_loop_of ReasoningAction.HOLD) sample_loop 30).

Lemma operator_authorised : authorised desk operator.
Proof. split; [discriminate|reflexivity]. Qed.

Lemma unauthorised_witness :
  serve desk literal_fields true true (answers true) PostKill stranger desk_server =
    (Raise (HTTPException 403 "operator_auth_required"), desk_server).
Proof. apply (unauthorised_requests_do_nothing desk literal_fields true true (answers true) PostKill stranger desk_server). by intros [_ [=]]. Defined.

Lemma kill_witness :
  let s' := desk_run [Post PostKill operator; LaunchSeen (slow_event "Q") 0 5; FastTick jan2 9 0 5] desk_server in
  o_sent (s_ctl s') = [] ∧ _killed (s_ctl s') = true.
Proof.
  exact (kill_is_final desk literal_fields true true tick_clock (Some watchful) (@None (RegimeWiring string)) sample_fast_loop (answers true)
    (flat_feed 100) (λ n, n) (λ _, None) (λ l, l) (slow_loop_of ReasoningAction.HOLD) sample_loop 30 operator desk_server
    [LaunchSeen (slow_event "Q") 0 5; FastTick jan2 9 0 5] operator_authorised).
Defined.

Definition go_live : sys_op := Post (PostMode [("mode", VStr "LIVE")]) operator.
Lemma live_witness : agent_mode (desk_run [go_live] desk_server) = "LIVE" ∧
  ∃ body request, Post (PostMode body) request ∈ [go_live] ∧ gated desk request.
Proof.
  assert (agent_mode (desk_run [go_live] desk_server) = "LIVE") as H by (vm_compute; reflexivity).
  split; [exact H|]. exact (live_needs_both_gates desk literal_fields true true tick_clock (Some watchful) (@None (RegimeWiring string))
    sample_fast_loop (answers true) (flat_feed 100) (λ n, n) (λ _, None) (λ l, l) (slow_loop_of ReasoningAction.HOLD) sample_loop 30
    [go_live] desk_server ltac:(discriminate) H).
Defined.

(** Slippage up from 300 to 9000 basis points, threshold and cap back at their limits. *)
Definition loose_body : dict value :=
  [("per_trade_cap_lamports", VInt 100000000); ("max_slippage_bps", VInt 9000); ("snipe_threshold", VFloat fzero);
   ("kelly_fraction_cap", VStr "0.25")].
Lemma valid_by_computation body rc : (safe_body ← to_decimals _DECIMAL_STRING_FIELDS body; RiskConfig_new literal_fields safe_body) = Ok rc →
  valid_body literal_fields body.
Proof. intros H. by exists rc. Qed.

Lemma two_posts_witness :
  _risk_config_box (desk_run [Post (PostRiskConfig []) operator; Post (PostRiskConfig loose_body) operator] desk_server) = loose_body ∧
  _risk_config_box (desk_run [Post (PostRiskConfig loose_body) operator] desk_server) = _make_risk_config.
Proof.
  split; [|vm_compute; reflexivity].
  apply (two_posts_undo_tightening desk literal_fields true true tick_clock (Some watchful) (@None (RegimeWiring string))
    sample_fast_loop (answers true) (flat_feed 100) (λ n, n) (λ _, None) (λ l, l) (slow_loop_of ReasoningAction.HOLD) sample_loop 30
    operator loose_body desk_server operator_authorised).
  - eapply valid_by_computation. vm_compute. reflexivity.
  - eapply valid_by_computation. vm_compute. reflexivity.
Defined.

Definition tight_body : dict value := [("max_slippage_bps", VInt 200); ("kelly_fraction_cap", VStr "0.10")].
Lemma one_post_witness : ∃ b s', post_risk_config desk literal_fields operator tight_body desk_server = (Ok b, s') ∧
  dle (mkdec 10 (-2)) (mkdec 25 (-2)).
Proof.
  destruct (post_risk_config desk literal_fields operator tight_body desk_server) as [[b|x] s'] eqn:E; [|exfalso; vm_compute in E; discriminate E].
  exists b, s'. split; [reflexivity|].
  destruct (one_post_only_tightens desk literal_fields operator tight_body desk_server b s' operator_authorised literal_ok E)
    as (_ & _ & _ & H & _).
  apply (H "kelly_fraction_cap" "0.25" "0.10"); [right; right; left|..]; vm_compute; reflexivity.
Defined.

Definition tripped_controller : Controller :=
  with_shared (StateStore.set_breaker (Some (_state tripped_boot)) StateStore_init)
    (with_fast (FastLoop.set_brk tripped_boot flagged_world) running).
Lemma reset_witness :
  ∃ s', post_breaker_reset desk true operator (mk_server tripped_controller "PAPER" []) = (Ok "ARMED", s') ∧
    _state (FastLoop._breaker (o_fast (s_ctl s'))) = armed_state ∧ breaker_tripped (o_store (s_ctl s')) = true.
Proof.
  destruct (reset_leaves_entries_blocked desk true tick_clock sample_loop operator (mk_server tripped_controller "PAPER" []) operator_authorised
    eq_refl ltac:(vm_compute; reflexivity) ltac:(vm_compute; reflexivity)) as (s' & E & Hs & Ho & _ & _).
  exists s'. split; [exact E|]. split; [exact Hs|]. rewrite Ho. vm_compute. reflexivity.
Defined.

(** The older endpoint for one mint flattens every position; the newer one only its own. *)
Example one_mint_or_all :
  length (f_exits (o_fast (snd (ControlApi.post_flatten "tok" true (answers true) operator "M" running)))) = 2%nat ∧
  length (f_exits (o_fast (s_ctl (snd (post_flatten_mint desk true (answers true) operator "M" desk_server))))) = 1%nat.
Proof. split; vm_compute; reflexivity. Qed.
