(* ===== verification/DeadMan.v ===== *)
(** * The dead-man's switch: [aats/risk/deadman.py] and [aats/risk/dms_service.py]

    [DeadMansSwitch] is the in-process heartbeat watchdog, [DmsWatchdog] the
    one in a separate process that reads heartbeats from a shared store.  Every
    method holds the lock, so each is one atomic step.  A clock is the sequence
    of its readings (floats), the venue's flatten answers from what it was
    asked before. *)

From S2P Require Import Prelude Decimal RiskContracts Float64 SurvivableStop Intents Positions StateStore Enforcer.

(** ** The operator capability *)

(** An [operator_id] argument: a string or any other object. *)
Inductive operator_arg : Type := OpStr (s : string) | OpOther.

Module DmsStandDownToken.
Record t : Type := mk { operator_id : string }.
Definition __init__ (op : string) (is_mint_key : bool) : result t :=
  if negb is_mint_key
  then Raise (PermissionError "DmsStandDownToken may only be minted via mint_dms_standdown_token()")
  else Ok (mk op).
End DmsStandDownToken.

Definition mint_dms_standdown_token (op : operator_arg) : result DmsStandDownToken.t :=
  match op with
  | OpOther => Raise (ValueError "operator_id must be a non-empty string")
  | OpStr s =>
      if bool_decide (s = "") then Raise (ValueError "operator_id must be a non-empty string")
      else DmsStandDownToken.__init__ s true
  end.

(** What a caller hands to [stand_down] and [rearm]. *)
Inductive standdown_arg : Type := StandDown (t : DmsStandDownToken.t) | NotAToken.
Definition genuine (a : standdown_arg) : bool := match a with StandDown _ => true | NotAToken => false end.

Inductive dms_event : Type :=
| AgeGauge (age_seconds : float)
| DmsFired (age_seconds : float) (reason : string).

(** [EmergencyFlattenVenue.emergency_flatten], given the reasons of the calls
    it has already had. *)
Definition flatten_fn : Type := list string → string → result unit.

(** ** [DeadMansSwitch] *)

Module DeadMansSwitch.
Record t : Type := mk {
  _t_dms : float;
  _last_beat : float;
  _fired : bool;
  _armed : bool;
  _telemetry : option (list dms_event);
  (** readings taken from the clock *)
  _reads : nat;
  (** calls made to [venue.emergency_flatten] *)
  _flattens : list string
}.

Definition emit (e : dms_event) (s : t) : t :=
  mk (_t_dms s) (_last_beat s) (_fired s) (_armed s) ((λ l, l ++ [e]) <$> _telemetry s) (_reads s) (_flattens s).
Definition set_last_beat (x : float) (s : t) : t :=
  mk (_t_dms s) x (_fired s) (_armed s) (_telemetry s) (_reads s) (_flattens s).
Definition set_fired (b : bool) (s : t) : t :=
  mk (_t_dms s) (_last_beat s) b (_armed s) (_telemetry s) (_reads s) (_flattens s).
Definition set_armed (b : bool) (s : t) : t :=
  mk (_t_dms s) (_last_beat s) (_fired s) b (_telemetry s) (_reads s) (_flattens s).

Section Ops.
Context (clock : nat → float) (emergency_flatten : flatten_fn).

Definition _clock : M t float :=
  λ s, (Ok (clock (_reads s)),
        mk (_t_dms s) (_last_beat s) (_fired s) (_armed s) (_telemetry s) (S (_reads s)) (_flattens s)).

Definition venue_flatten (reason : string) : M t unit :=
  λ s, (emergency_flatten (_flattens s) reason,
        mk (_t_dms s) (_last_beat s) (_fired s) (_armed s) (_telemetry s) (_reads s) (_flattens s ++ [reason])).

Definition __init__ (t_dms_seconds : float) (telemetry : option (list dms_event)) : result t :=
  if fleb t_dms_seconds fzero then Raise (ValueError "t_dms_seconds must be > 0")
  else Ok (mk t_dms_seconds (clock 0) false true telemetry 1 []).

Definition heartbeat : M t unit :=
  now ← _clock;
  modify (set_last_beat now);;
  modify (emit (AgeGauge fzero)).

Definition _age_locked : M t float :=
  now ← _clock;
  s ← get;
  mret (fsub now (_last_beat s)).

Definition heartbeat_age_seconds : M t float := _age_locked.
Definition is_fired : M t bool := gets _fired.

Definition fire_reason (age t_dms : float) : string :=
  "dead_mans_switch: heartbeat_age=" +:+ fmt_f3 age +:+ "s > T_DMS=" +:+ fmt_f3 t_dms +:+ "s".

Definition check : M t bool :=
  s ← get;
  if negb (_armed s) || _fired s
  then
    (match _telemetry s with
     | Some _ => age ← _age_locked; modify (emit (AgeGauge age))
     | None => mret tt
     end : M t unit);;
    mret false
  else
    age ← _age_locked;
    modify (emit (AgeGauge age));;
    (if fleb age (_t_dms s) then mret false
     else
       modify (set_fired true);;
       let reason := fire_reason age (_t_dms s) in
       modify (emit (DmsFired age reason));;
       venue_flatten reason;;
       mret true).

Definition stand_down (token : standdown_arg) : M t unit :=
  match token with
  | NotAToken => raise (PermissionError "stand_down() requires a genuine DmsStandDownToken")
  | StandDown _ => modify (set_armed false)
  end.

Definition rearm (token : standdown_arg) : M t unit :=
  match token with
  | NotAToken => raise (PermissionError "rearm() requires a genuine DmsStandDownToken")
  | StandDown _ =>
      modify (set_armed true);;
      modify (set_fired false);;
      now ← _clock;
      modify (set_last_beat now)
  end.

(** Everything a caller can do with the switch. *)
Inductive op : Type :=
| Beat | Age | IsFired | Check | StandDownOp (a : standdown_arg) | Rearm (a : standdown_arg).

Definition step (o : op) (s : t) : t :=
  match o with
  | Beat => snd (heartbeat s)
  | Age => snd (heartbeat_age_seconds s)
  | IsFired => snd (is_fired s)
  | Check => snd (check s)
  | StandDownOp a => snd (stand_down a s)
  | Rearm a => snd (rearm a s)
  end.
Definition run (ops : list op) (s : t) : t := foldl (λ s o, step o s) s ops.

Lemma run_app a b s : run (a ++ b) s = run b (run a s).
Proof. apply foldl_app. Qed.
Lemma run_cons o ops s : run (o :: ops) s = run ops (step o s).
Proof. reflexivity. Qed.

(** Calls no automated path can make. *)
Definition operator_only (o : op) : bool :=
  match o with StandDownOp a | Rearm a => genuine a | _ => false end.

(** ** One call of [check] *)

(** The age [check] computes. *)
Definition age_at (s : t) : float := fsub (clock (_reads s)) (_last_beat s).

(** The clock has been read once more. *)
Definition ticked (s : t) : t :=
  mk (_t_dms s) (_last_beat s) (_fired s) (_armed s) (_telemetry s) (S (_reads s)) (_flattens s).

Lemma age_locked_eq s : _age_locked s = (Ok (age_at s), ticked s).
Proof. reflexivity. Qed.

Lemma check_quiet s :
  _armed s = true → _fired s = false → fleb (age_at s) (_t_dms s) = true →
  fst (check s) = Ok false ∧ _armed (snd (check s)) = true ∧ _fired (snd (check s)) = false ∧
  _last_beat (snd (check s)) = _last_beat s ∧ _t_dms (snd (check s)) = _t_dms s ∧
  _flattens (snd (check s)) = _flattens s.
Proof.
  intros Ha Hf Hage. unfold check. mstep. rewrite Ha, Hf. cbn. rewrite age_locked_eq. cbn. rewrite Hage. by split_and!.
Qed.

Lemma check_fires s :
  _armed s = true → _fired s = false → fleb (age_at s) (_t_dms s) = false →
  let reason := fire_reason (age_at s) (_t_dms s) in
  fst (check s) = (match emergency_flatten (_flattens s) reason with Ok _ => Ok true | Raise e => Raise e end) ∧
  _armed (snd (check s)) = true ∧ _fired (snd (check s)) = true ∧
  _last_beat (snd (check s)) = _last_beat s ∧ _t_dms (snd (check s)) = _t_dms s ∧
  _flattens (snd (check s)) = _flattens s ++ [reason].
Proof.
  intros Ha Hf Hage reason. unfold check. mstep. rewrite Ha, Hf. cbn. rewrite age_locked_eq. cbn. rewrite Hage. cbn.
  unfold reason. destruct (emergency_flatten _ _) as [[]|]; by split_and!.
Qed.

Lemma check_latched s :
  _armed s = false ∨ _fired s = true →
  fst (check s) = Ok false ∧ _armed (snd (check s)) = _armed s ∧ _fired (snd (check s)) = _fired s ∧
  _last_beat (snd (check s)) = _last_beat s ∧ _t_dms (snd (check s)) = _t_dms s ∧
  _flattens (snd (check s)) = _flattens s.
Proof.
  intros H. unfold check. mstep.
  assert (negb (_armed s) || _fired s = true) as -> by (destruct H as [-> | ->]; [done|apply orb_true_r]).
  destruct (_telemetry s); rewrite ?age_locked_eq; by split_and!.
Qed.

(** ** Runs without an operator *)

(** The switch is armed and has fired as often as [fired] says since [s0]. *)
Definition unattended (s0 s : t) : Prop :=
  _armed s = true ∧ _t_dms s = _t_dms s0 ∧
  (_fired s = _fired s0 ∧ _flattens s = _flattens s0 ∨
   _fired s0 = false ∧ _fired s = true ∧ ∃ reason, _flattens s = _flattens s0 ++ [reason]).

Lemma step_unattended s0 s o :
  operator_only o = false → unattended s0 s → unattended s0 (step o s).
Proof.
  intros Ho (Ha & Ht & H). destruct o as [| | | |a|a]; cbn in Ho; try (destruct a; [done|]);
    try (unfold unattended; cbn; mstep; by split_and!).
  unfold step. destruct (_fired s) eqn:Hf.
  - destruct (check_latched s (or_intror Hf)) as (_ & H1 & H2 & _ & H4 & H5).
    unfold unattended. rewrite H1, H2, H4, H5, Hf. by split_and!.
  - destruct H as [[H6 H7]|(_ & ? & _)]; [|done]. destruct (fleb (age_at s) (_t_dms s)) eqn:Hage.
    + destruct (check_quiet s Ha Hf Hage) as (_ & H1 & H2 & _ & H4 & H5).
      unfold unattended. rewrite H1, H2, H4, H5. split_and!; try done. left. by split.
    + destruct (check_fires s Ha Hf Hage) as (_ & H1 & H2 & _ & H4 & H5).
      unfold unattended. rewrite H1, H2, H4, H5. split_and!; try done. right. split_and!; try done.
      eexists. by rewrite H7.
Qed.

Lemma run_unattended ops s0 s :
  Forall (λ o, operator_only o = false) ops → unattended s0 s → unattended s0 (run ops s).
Proof.
  intros Hops. revert s. induction Hops as [|o ops Ho _ IH]; intros s Hs; cbn; [done|].
  by apply IH, step_unattended.
Qed.

(** A call that is neither a beat nor an operator's leaves the last beat. *)
Definition silent (o : op) : bool :=
  match o with Beat => false | _ => negb (operator_only o) end.

Lemma step_silent o s : silent o = true → _armed s = true → _last_beat (step o s) = _last_beat s.
Proof.
  destruct o as [| | | |a|a]; try (destruct a); intros Ho Ha; try done. unfold step.
  destruct (_fired s) eqn:Hf; [by apply check_latched; right|].
  destruct (fleb (age_at s) (_t_dms s)) eqn:Hage; [by apply check_quiet|by apply check_fires].
Qed.

Lemma run_silent ops s :
  Forall (λ o, silent o = true) ops → _armed s = true →
  _last_beat (run ops s) = _last_beat s ∧ unattended s (run ops s).
Proof.
  intros Hops Ha. assert (Forall (λ o, operator_only o = false) ops) as Hno.
  { eapply Forall_impl; [done|]. intros o Ho. unfold silent in Ho. by destruct o, (operator_only _). }
  split; [|apply run_unattended; [done|]; unfold unattended; auto].
  clear Hno. revert s Ha. induction Hops as [|o ops Ho Hops IH]; intros s Ha; [done|].
  change (_last_beat (run ops (step o s)) = _last_beat s).
  assert (unattended s (step o s)) as [Ha' _].
  { apply step_unattended; [|unfold unattended; auto]. unfold silent in Ho. by destruct o, (operator_only _). }
  by rewrite IH, step_silent.
Qed.

(** C16: silence flattens exactly once.  From an armed switch that has not
    fired, whatever calls other than a heartbeat or an operator's come first,
    a check that reads a clock more than T_DMS after the last heartbeat
    leaves the switch fired with exactly one call to the venue's flatten, even
    if that call raises and whatever non-operator calls follow: no later
    heartbeat, check or forged token un-fires, disarms or repeats it. *)
Theorem silence_flattens_once s before after :
  _armed s = true → _fired s = false →
  Forall (λ o, silent o = true) before → Forall (λ o, operator_only o = false) after →
  fleb (fsub (clock (_reads (run before s))) (_last_beat s)) (_t_dms s) = false →
  let s' := run (before ++ Check :: after) s in
  _armed s' = true ∧ _fired s' = true ∧ ∃ reason, _flattens s' = _flattens s ++ [reason].
Proof.
  intros Ha Hf Hb Haft Hage s'. subst s'. rewrite run_app, run_cons.
  destruct (run_silent before s Hb Ha) as [Hl Hu]. assert (unattended s (step Check (run before s))) as Hu'.
  { by apply step_unattended. }
  assert (_fired (step Check (run before s)) = true) as Hf'.
  { destruct Hu as (Ha1 & Ht & _). unfold step. destruct (_fired (run before s)) eqn:E.
    - destruct (check_latched (run before s) (or_intror E)) as (_ & _ & -> & _). done.
    - apply check_fires; [done..|]. unfold age_at. by rewrite Hl, Ht. }
  destruct Hu' as (Ha' & Ht' & [[Hc _]|(_ & _ & reason & Hr)]); [congruence|].
  assert (unattended (step Check (run before s)) (step Check (run before s))) as Hs by (unfold unattended; auto).
  destruct (run_unattended after _ _ Haft Hs) as (H1 & _ & [[H2 H3]|[H2 _]]); [|congruence].
  rewrite H1, H2, H3. split_and!; [done..|]. by eexists.
Qed.
End Ops.
End DeadMansSwitch.

(** *** Witness *)

Definition sample_switch : DeadMansSwitch.t :=
  DeadMansSwitch.mk (float_of_Z 60) (float_of_Z 100) false true None 1 [].
(** The clock advances 50 s per reading. *)
Definition sample_clock (n : nat) : float := float_of_Z (50 + 50 * Z.of_nat n).

Lemma silence_flattens_once_witness :
  fleb (fsub (sample_clock 2) (float_of_Z 100)) (float_of_Z 60) = true ∧
  ∃ reason, DeadMansSwitch._flattens
    (DeadMansSwitch.run sample_clock (λ _ _, Raise (RuntimeError "venue down"))
       ([DeadMansSwitch.Age; DeadMansSwitch.Check; DeadMansSwitch.StandDownOp NotAToken] ++
        DeadMansSwitch.Check :: [DeadMansSwitch.Beat; DeadMansSwitch.Check]) sample_switch) = [] ++ [reason].
Proof.
  split; [by vm_compute|].
  apply (DeadMansSwitch.silence_flattens_once sample_clock (λ _ _, Raise (RuntimeError "venue down")) sample_switch
    [DeadMansSwitch.Age; DeadMansSwitch.Check; DeadMansSwitch.StandDownOp NotAToken]
    [DeadMansSwitch.Beat; DeadMansSwitch.Check]); [reflexivity|reflexivity|by repeat constructor..|by vm_compute].
Defined.

(** ** The shared heartbeat store and [build_heartbeat] *)

Module InMemoryHeartbeatStore.
Record t : Type := mk { _hb : option Heartbeat.t; _fail : bool }.
Definition __init__ : t := mk None false.
Definition write (hb : Heartbeat.t) (s : t) : t := mk (Some hb) (_fail s).
Definition set_unreachable (unreachable : bool) (s : t) : t := mk (_hb s) unreachable.
Definition read (s : t) : option Heartbeat.t := if _fail s then None else _hb s.
End InMemoryHeartbeatStore.

Definition build_heartbeat (seq : pynum) (wall_now : Z) : result Heartbeat.t :=
  Heartbeat.new (PyInt wall_now) seq.

(** ** [DmsWatchdog] *)

Module DmsWatchdog.
Record t : Type := mk {
  _store : InMemoryHeartbeatStore.t;
  _t_dms : float;
  _fired : bool;
  _armed : bool;
  _last_fresh_mono : float;
  _last_seq : option Z;
  _telemetry : option (list dms_event);
  (** readings taken from the monotonic and from the wall clock *)
  _mono_reads : nat;
  _wall_reads : nat;
  _flattens : list string
}.

Definition set_store (x : InMemoryHeartbeatStore.t) (s : t) : t :=
  mk x (_t_dms s) (_fired s) (_armed s) (_last_fresh_mono s) (_last_seq s) (_telemetry s) (_mono_reads s) (_wall_reads s) (_flattens s).
Definition emit (e : dms_event) (s : t) : t :=
  mk (_store s) (_t_dms s) (_fired s) (_armed s) (_last_fresh_mono s) (_last_seq s) ((λ l, l ++ [e]) <$> _telemetry s)
    (_mono_reads s) (_wall_reads s) (_flattens s).
Definition set_flags (fired armed : bool) (s : t) : t :=
  mk (_store s) (_t_dms s) fired armed (_last_fresh_mono s) (_last_seq s) (_telemetry s) (_mono_reads s) (_wall_reads s) (_flattens s).
Definition set_anchor (mono : float) (seq : option Z) (s : t) : t :=
  mk (_store s) (_t_dms s) (_fired s) (_armed s) mono seq (_telemetry s) (_mono_reads s) (_wall_reads s) (_flattens s).

Section Ops.
Context (monotonic : nat → float) (wall_epoch_ms : nat → Z) (emergency_flatten : flatten_fn).

Definition _monotonic : M t float :=
  λ s, (Ok (monotonic (_mono_reads s)),
        mk (_store s) (_t_dms s) (_fired s) (_armed s) (_last_fresh_mono s) (_last_seq s) (_telemetry s)
          (S (_mono_reads s)) (_wall_reads s) (_flattens s)).
Definition _wall_epoch_ms : M t Z :=
  λ s, (Ok (wall_epoch_ms (_wall_reads s)),
        mk (_store s) (_t_dms s) (_fired s) (_armed s) (_last_fresh_mono s) (_last_seq s) (_telemetry s)
          (_mono_reads s) (S (_wall_reads s)) (_flattens s)).
Definition venue_flatten (reason : string) : M t unit :=
  λ s, (emergency_flatten (_flattens s) reason,
        mk (_store s) (_t_dms s) (_fired s) (_armed s) (_last_fresh_mono s) (_last_seq s) (_telemetry s)
          (_mono_reads s) (_wall_reads s) (_flattens s ++ [reason])).

Definition __init__ (store : InMemoryHeartbeatStore.t) (t_dms_seconds : float) (telemetry : option (list dms_event)) : result t :=
  if fleb t_dms_seconds fzero then Raise (ValueError "t_dms_seconds must be > 0")
  else Ok (mk store t_dms_seconds false true (monotonic 0) None telemetry 1 0 []).

(** [max(0.0, (now - then) / 1000.0)] *)
Definition wall_age (now_ms epoch_ms : Z) : result float :=
  d ← float_int (now_ms - epoch_ms);
  q ← fdiv d (float_of_Z 1000);
  Ok (fmax fzero q).

Definition _age_locked : M t float :=
  s ← get;
  let hb := InMemoryHeartbeatStore.read (_store s) in
  mono_now ← _monotonic;
  match hb with
  | None => s ← get; mret (fsub mono_now (_last_fresh_mono s))
  | Some hb =>
      now_ms ← _wall_epoch_ms;
      wall_age_s ← lift (wall_age now_ms (Heartbeat.epoch_ms hb));
      s ← get;
      (if match _last_seq s with None => true | Some n => n <? Heartbeat.seq hb end
       then modify (set_anchor mono_now (Some (Heartbeat.seq hb))) else mret tt);;
      s ← get;
      let observed_age_s := fsub mono_now (_last_fresh_mono s) in
      mret (fmax wall_age_s observed_age_s)
  end.

Definition heartbeat_age_seconds : M t float := _age_locked.
Definition is_fired : M t bool := gets _fired.
Definition is_armed : M t bool := gets _armed.
Definition t_dms_seconds : M t float := gets _t_dms.

Definition fire_reason (age t_dms : float) : string :=
  "aats_dms_service: heartbeat_age=" +:+ fmt_f3 age +:+ "s > T_DMS=" +:+ fmt_f3 t_dms
  +:+ "s " +:+ "— flattening all open positions".

Definition check : M t bool :=
  age ← _age_locked;
  modify (emit (AgeGauge age));;
  s ← get;
  if negb (_armed s) || _fired s then mret false
  else if fleb age (_t_dms s) then mret false
  else
    modify (set_flags true (_armed s));;
    let reason := fire_reason age (_t_dms s) in
    modify (emit (DmsFired age reason));;
    venue_flatten reason;;
    mret true.

Definition stand_down (token : standdown_arg) : M t unit :=
  match token with
  | NotAToken => raise (PermissionError "stand_down() requires a genuine DmsStandDownToken")
  | StandDown _ => modify (λ s, set_flags (_fired s) false s)
  end.

Definition rearm (token : standdown_arg) : M t unit :=
  match token with
  | NotAToken => raise (PermissionError "rearm() requires a genuine DmsStandDownToken")
  | StandDown _ =>
      modify (set_flags false true);;
      now ← _monotonic;
      modify (set_anchor now None)
  end.
(** ** The liveness measure *)

(** A heartbeat counts as new when its sequence number exceeds the last one. *)
Definition advances (s : t) (hb : Heartbeat.t) : bool :=
  match _last_seq s with None => true | Some n => n <? Heartbeat.seq hb end.

(** The state after the anchor update of one age reading. *)
Definition anchored (s : t) : t :=
  let s' := mk (_store s) (_t_dms s) (_fired s) (_armed s) (_last_fresh_mono s) (_last_seq s) (_telemetry s)
              (S (_mono_reads s)) (_wall_reads s) (_flattens s) in
  match InMemoryHeartbeatStore.read (_store s) with
  | None => s'
  | Some hb =>
      let s' := mk (_store s) (_t_dms s) (_fired s) (_armed s) (_last_fresh_mono s) (_last_seq s) (_telemetry s)
              (S (_mono_reads s)) (S (_wall_reads s)) (_flattens s) in
      if advances s hb then set_anchor (monotonic (_mono_reads s)) (Some (Heartbeat.seq hb)) s' else s'
  end.

(** The cross-process age, when there is a heartbeat. *)
Definition wall_age_at (s : t) : option (result float) :=
  (λ hb, wall_age (wall_epoch_ms (_wall_reads s)) (Heartbeat.epoch_ms hb)) <$> InMemoryHeartbeatStore.read (_store s).
Definition observed_age_at (s : t) : float :=
  fsub (monotonic (_mono_reads s)) (_last_fresh_mono (anchored s)).

(** Either measure is beyond T_DMS. *)
Definition stale (s : t) : bool :=
  match wall_age_at s with Some (Ok w) => negb (fleb w (_t_dms s)) | _ => false end
  || negb (fleb (observed_age_at s) (_t_dms s)).

(** The wall age of the current heartbeat is a float. *)
Definition wall_age_ok (s : t) : Prop :=
  match wall_age_at s with Some r => is_ok r = true | None => True end.

Definition age_at (s : t) : float :=
  match wall_age_at s with Some (Ok w) => fmax w (observed_age_at s) | _ => observed_age_at s end.

Lemma dog_age_locked_eq s : wall_age_ok s → _age_locked s = (Ok (age_at s), anchored s).
Proof.
  unfold wall_age_ok, age_at, wall_age_at, observed_age_at, _age_locked, anchored, advances.
  destruct (InMemoryHeartbeatStore.read (_store s)) as [hb|] eqn:E; mstep; rewrite E; cbn; [|done].
  destruct (wall_age _ _) as [w|] eqn:Ew; cbn; [intros _|done].
  by destruct (_last_seq s) as [n|]; [destruct (n <? Heartbeat.seq hb)|].
Qed.

Lemma anchored_frame s :
  _t_dms (anchored s) = _t_dms s ∧ _fired (anchored s) = _fired s ∧ _armed (anchored s) = _armed s ∧
  _flattens (anchored s) = _flattens s ∧ _store (anchored s) = _store s.
Proof. unfold anchored. destruct (InMemoryHeartbeatStore.read _); [destruct (advances _ _)|]; by split_and!. Qed.

Lemma anchored_finite s :
  is_finite (monotonic (_mono_reads s)) = true → is_finite (_last_fresh_mono s) = true →
  is_finite (_last_fresh_mono (anchored s)) = true.
Proof. intros. unfold anchored. destruct (InMemoryHeartbeatStore.read _); [destruct (advances _ _)|]; done. Qed.

Lemma age_at_stale s :
  is_finite (monotonic (_mono_reads s)) = true → is_finite (_last_fresh_mono s) = true →
  fleb (age_at s) (_t_dms s) = negb (stale s).
Proof.
  intros Hm Hl. unfold age_at, stale.
  assert (is_nan (observed_age_at s) = false) as Hn by (apply fsub_nan; [done|by apply anchored_finite]).
  destruct (wall_age_at s) as [[w|]|]; cbn; rewrite ?fleb_fmax, ?negb_orb, ?negb_involutive; done.
Qed.

(** One check, on every branch. *)
Lemma dog_check_spec s :
  is_finite (monotonic (_mono_reads s)) = true → is_finite (_last_fresh_mono s) = true → wall_age_ok s →
  let fires := _armed s && negb (_fired s) && stale s in
  let reason := fire_reason (age_at s) (_t_dms s) in
  let s' := snd (check s) in
  fst (check s) = (if fires then match emergency_flatten (_flattens s) reason with Ok _ => Ok true | Raise e => Raise e end
                   else Ok false) ∧
  _fired s' = _fired s || fires ∧
  _flattens s' = _flattens s ++ (if fires then [reason] else []) ∧
  _armed s' = _armed s ∧
  (_last_fresh_mono s', _last_seq s') =
    match InMemoryHeartbeatStore.read (_store s) with
    | Some hb => if advances s hb then (monotonic (_mono_reads s), Some (Heartbeat.seq hb))
                 else (_last_fresh_mono s, _last_seq s)
    | None => (_last_fresh_mono s, _last_seq s)
    end ∧
  _t_dms s' = _t_dms s ∧ _store s' = _store s.
Proof.
  intros Hm Hl Hw. destruct (anchored_frame s) as (Ht & Hf & Ha & Hfl & Hst).
  assert ((_last_fresh_mono (anchored s), _last_seq (anchored s)) =
    match InMemoryHeartbeatStore.read (_store s) with
    | Some hb => if advances s hb then (monotonic (_mono_reads s), Some (Heartbeat.seq hb))
                 else (_last_fresh_mono s, _last_seq s)
    | None => (_last_fresh_mono s, _last_seq s)
    end) as <-.
  { unfold anchored. by destruct (InMemoryHeartbeatStore.read _); [destruct (advances _ _)|]. }
  cbv zeta. unfold check. mstep. rewrite dog_age_locked_eq by done. cbn. rewrite Ht, Hf, Ha, age_at_stale by done.
  destruct (_armed s) eqn:Ea, (_fired s) eqn:Ef, (stale s); cbn; rewrite ?Hfl, ?Ha, ?Hf, ?Ht, ?Hst, ?app_nil_r; try by split_and!.
  destruct (emergency_flatten _ _) as [[]|]; cbn; by split_and!.
Qed.

(** The watchdog fires iff it is armed, has not fired, and either age (the
    heartbeat's wall-clock age, or the monotonic age since a heartbeat with a
    higher sequence number was seen) exceeds T_DMS.  Firing latches before the
    venue is called: if the flatten raises the check raises, fired all the
    same; otherwise nothing but the liveness anchor changes. *)
Theorem watchdog_fires_iff_stale s :
  is_finite (monotonic (_mono_reads s)) = true → is_finite (_last_fresh_mono s) = true → wall_age_ok s →
  let fires := _armed s && negb (_fired s) && stale s in
  let reason := fire_reason (age_at s) (_t_dms s) in
  let s' := snd (check s) in
  fst (check s) = (if fires then match emergency_flatten (_flattens s) reason with Ok _ => Ok true | Raise e => Raise e end
                   else Ok false) ∧
  _fired s' = _fired s || fires ∧
  _flattens s' = _flattens s ++ (if fires then [reason] else []) ∧
  _armed s' = _armed s ∧
  (_last_fresh_mono s', _last_seq s') =
    match InMemoryHeartbeatStore.read (_store s) with
    | Some hb => if advances s hb then (monotonic (_mono_reads s), Some (Heartbeat.seq hb))
                 else (_last_fresh_mono s, _last_seq s)
    | None => (_last_fresh_mono s, _last_seq s)
    end.
Proof.
  intros Hm Hl Hw. by destruct (dog_check_spec s Hm Hl Hw) as (H1 & H2 & H3 & H4 & H5 & _).
Qed.
End Ops.
End DmsWatchdog.

(** *** Witness: the store went dark 61 s after the last fresh beat. *)

Definition dark_watchdog : DmsWatchdog.t :=
  DmsWatchdog.mk (InMemoryHeartbeatStore.mk (Some (Heartbeat.mk 1000 7)) true) (float_of_Z 60) false true
    (float_of_Z 100) (Some 7) None 1 0 [].

Lemma watchdog_fires_iff_stale_witness :
  DmsWatchdog._fired (snd (DmsWatchdog.check (λ _, float_of_Z 161) (λ _, 1000) (λ _ _, Ok tt) dark_watchdog)) = true.
Proof.
  etransitivity; [|exact (eq_refl true)].
  refine (eq_trans (proj1 (proj2 (DmsWatchdog.watchdog_fires_iff_stale (λ _, float_of_Z 161) (λ _, 1000) (λ _ _, Ok tt)
    dark_watchdog eq_refl eq_refl I))) _).
  by vm_compute.
Defined.

(** ** The watchdog and the loop that beats

    The loop's side is the wiring of [Enforcer]: it numbers its beats from its
    own counter, which a restarted process starts again at zero. *)

Module Liveness.
Record t : Type := mk { dog : DmsWatchdog.t; loop : Wiring }.

Section Ops.
Context (monotonic : nat → float) (wall_epoch_ms : nat → Z) (emergency_flatten : flatten_fn).
Context (loop_wall : Z → Z) (hb_fails : Heartbeat.t → option string).

(** What the store holds after the loop's writes. *)
Definition stored (new : list Heartbeat.t) (st : InMemoryHeartbeatStore.t) : InMemoryHeartbeatStore.t :=
  foldl (λ st hb, InMemoryHeartbeatStore.write hb st) st new.

Definition beat (s : t) : t :=
  let w := snd (_emit_heartbeat_safe loop_wall hb_fails (loop s)) in
  let new := drop (length (_hb_store (loop s))) (_hb_store w) in
  mk (DmsWatchdog.set_store (stored new (DmsWatchdog._store (dog s))) (dog s)) w.

Definition watch (s : t) : t :=
  mk (snd (DmsWatchdog.check monotonic wall_epoch_ms emergency_flatten (dog s))) (loop s).

Inductive event : Type := Beat | Watch.
#[global] Instance event_eq_dec : EqDecision event.
Proof. solve_decision. Defined.

Definition step (e : event) (s : t) : t := match e with Beat => beat s | Watch => watch s end.
Definition run (es : list event) (s : t) : t := foldl (λ s e, step e s) s es.
Definition beats (es : list event) : nat := length (filter (λ e, e = Beat) es).

(** A heartbeat the watchdog, having seen [n], takes no notice of. *)
Definition unheeded (n : Z) (hb : Heartbeat.t) : Prop :=
  Heartbeat.seq hb ≤ n ∧ ∀ i, is_ok (DmsWatchdog.wall_age (wall_epoch_ms i) (Heartbeat.epoch_ms hb)) = true.

(** The watchdog has seen [n], last something new at [f0], and reads nothing
    beyond [n]; the loop has counted [k] beats. *)
Definition starved (n : Z) (f0 : float) (k : Z) (s : t) : Prop :=
  DmsWatchdog._armed (dog s) = true ∧ DmsWatchdog._last_seq (dog s) = Some n ∧
  DmsWatchdog._last_fresh_mono (dog s) = f0 ∧ _seq (loop s) = k ∧
  ∀ hb, InMemoryHeartbeatStore._hb (DmsWatchdog._store (dog s)) = Some hb → unheeded n hb.

Lemma emit_heartbeat_writes w :
  let w' := snd (_emit_heartbeat_safe loop_wall hb_fails w) in
  _seq w' = _seq w + 1 ∧
  (_hb_store w' = _hb_store w ∨ _hb_store w' = _hb_store w ++ [Heartbeat.mk (loop_wall (_seq w + 1)) (_seq w + 1)]).
Proof.
  unfold _emit_heartbeat_safe, Heartbeat.new. mstep.
  destruct (loop_wall _ <? 0); cbn; [by auto|]. destruct (_ <? 0); cbn; [by auto|].
  destruct (hb_fails _); cbn; auto.
Qed.

Context (Hfin : ∀ i, is_finite (monotonic i) = true).

Lemma starved_beat n f0 k s :
  k < n → (∀ i j, is_ok (DmsWatchdog.wall_age (wall_epoch_ms i) (loop_wall j)) = true) →
  starved n f0 k s → starved n f0 (k + 1) (beat s) ∧
  DmsWatchdog._fired (dog (beat s)) = DmsWatchdog._fired (dog s) ∧ DmsWatchdog._t_dms (dog (beat s)) = DmsWatchdog._t_dms (dog s).
Proof.
  intros Hk Hok (Ha & Hs & Hf & Hq & Hst). destruct (emit_heartbeat_writes (loop s)) as [H1 H2].
  unfold beat, starved; cbn. rewrite H1, Hq. split_and!; try done. intros hb.
  destruct H2 as [-> | ->].
  - rewrite drop_all. apply Hst.
  - rewrite drop_app_length. cbn. intros [= <-]. split; cbn; [lia|by intros].
Qed.

Lemma starved_watch n f0 k s :
  is_finite f0 = true → starved n f0 k s → starved n f0 k (watch s) ∧
  DmsWatchdog._fired (dog (watch s)) =
    DmsWatchdog._fired (dog s) || DmsWatchdog.stale monotonic wall_epoch_ms (dog s) ∧
  DmsWatchdog._t_dms (dog (watch s)) = DmsWatchdog._t_dms (dog s) ∧
  DmsWatchdog.observed_age_at monotonic (dog s) = fsub (monotonic (DmsWatchdog._mono_reads (dog s))) f0.
Proof.
  intros Hf0 (Ha & Hs & Hf & Hq & Hst).
  assert (∀ hb, InMemoryHeartbeatStore.read (DmsWatchdog._store (dog s)) = Some hb → unheeded n hb) as Hread.
  { intros hb. unfold InMemoryHeartbeatStore.read. destruct (InMemoryHeartbeatStore._fail _); [done|apply Hst]. }
  assert (∀ hb, InMemoryHeartbeatStore.read (DmsWatchdog._store (dog s)) = Some hb →
    DmsWatchdog.advances (dog s) hb = false) as Hadv.
  { intros hb Hr. apply Hread in Hr as [Hle _]. unfold DmsWatchdog.advances. rewrite Hs. lia. }
  assert (DmsWatchdog.wall_age_ok wall_epoch_ms (dog s)) as Hw.
  { unfold DmsWatchdog.wall_age_ok, DmsWatchdog.wall_age_at.
    destruct (InMemoryHeartbeatStore.read _) as [hb|] eqn:E; cbn; [|done]. by apply (Hread hb). }
  destruct (DmsWatchdog.dog_check_spec monotonic wall_epoch_ms emergency_flatten (dog s) (Hfin _) ltac:(by rewrite Hf) Hw)
    as (_ & H2 & _ & H4 & H5 & H6 & H7).
  unfold watch, starved; cbn [dog loop]. rewrite H2, H4, H6, H7, Ha.
  assert (DmsWatchdog.observed_age_at monotonic (dog s) = fsub (monotonic (DmsWatchdog._mono_reads (dog s))) f0) as Hobs.
  { unfold DmsWatchdog.observed_age_at, DmsWatchdog.anchored.
    destruct (InMemoryHeartbeatStore.read _) as [hb|] eqn:E; [rewrite (Hadv hb eq_refl)|]; cbn; by rewrite Hf. }
  destruct (InMemoryHeartbeatStore.read _) as [hb|] eqn:E; [rewrite (Hadv hb eq_refl) in H5|];
    injection H5 as -> ->; (split_and!; [done..| |done|done]); cbn; by destruct (DmsWatchdog._fired (dog s)).
Qed.

Lemma starved_run n f0 es s k :
  is_finite f0 = true → (∀ i j, is_ok (DmsWatchdog.wall_age (wall_epoch_ms i) (loop_wall j)) = true) →
  k + Z.of_nat (beats es) ≤ n → starved n f0 k s →
  ∃ k', starved n f0 k' (run es s) ∧ DmsWatchdog._t_dms (dog (run es s)) = DmsWatchdog._t_dms (dog s).
Proof.
  intros Hf0 Hok. revert s k. induction es as [|e es IH]; intros s k Hk Hs; [by exists k|].
  change (run (e :: es) s) with (run es (step e s)). unfold beats in *. rewrite filter_cons in Hk.
  destruct e; [rewrite decide_True in Hk by done; cbn [length] in Hk|rewrite decide_False in Hk by done].
  - destruct (starved_beat n f0 k s ltac:(lia) Hok Hs) as (H1 & _ & <-). apply (IH _ (k + 1)); [lia|done].
  - destruct (starved_watch n f0 k s Hf0 Hs) as (H1 & _ & <- & _). apply (IH _ k); [lia|done].
Qed.

(** C18: a loop that restarts is flattened although it beats.  The watchdog has
    seen sequence number [n]; the loop, restarted, counts its beats from below
    again and writes them on time.  For as long as its counter stays at or
    below [n], however many beats and checks happen in between, a check more
    than T_DMS after the last beat of the previous process leaves the watchdog
    fired. *)
Theorem restarted_loop_is_flattened n s es :
  DmsWatchdog._armed (dog s) = true → DmsWatchdog._last_seq (dog s) = Some n →
  is_finite (DmsWatchdog._last_fresh_mono (dog s)) = true →
  (∀ hb, InMemoryHeartbeatStore._hb (DmsWatchdog._store (dog s)) = Some hb → unheeded n hb) →
  (∀ i j, is_ok (DmsWatchdog.wall_age (wall_epoch_ms i) (loop_wall j)) = true) →
  _seq (loop s) + Z.of_nat (beats es) ≤ n →
  fleb (fsub (monotonic (DmsWatchdog._mono_reads (dog (run es s)))) (DmsWatchdog._last_fresh_mono (dog s)))
    (DmsWatchdog._t_dms (dog s)) = false →
  DmsWatchdog._fired (dog (run (es ++ [Watch]) s)) = true.
Proof.
  intros Ha Hs Hf0 Hst Hok Hk Hage.
  assert (starved n (DmsWatchdog._last_fresh_mono (dog s)) (_seq (loop s)) s) as H0 by (by split_and!).
  destruct (starved_run n _ es s _ Hf0 Hok Hk H0) as (k' & H1 & Ht).
  unfold run. rewrite foldl_app. fold (run es s). cbn [foldl step].
  destruct (starved_watch n _ k' (run es s) Hf0 H1) as (_ & -> & _ & Hobs).
  unfold DmsWatchdog.stale. rewrite Hobs, Ht, Hage. cbn. by rewrite !orb_true_r.
Qed.
End Ops.
End Liveness.

(** *** Witness: beats 1, 2 and 3 after a restart at 7, both wall clocks equal. *)

Definition restarted : Liveness.t :=
  Liveness.mk (DmsWatchdog.mk (InMemoryHeartbeatStore.mk (Some (Heartbeat.mk 1000 7)) false) (float_of_Z 60) false true
    (float_of_Z 100) (Some 7) None 0 0 []) (mk_wiring [] 0 None [] None None).
Definition restart_clock (i : nat) : float :=
  match i with O => float_of_Z 130 | 1%nat => float_of_Z 160 | _ => float_of_Z 190 end.

Lemma restarted_loop_is_flattened_witness :
  DmsWatchdog._fired (Liveness.dog (Liveness.run restart_clock (λ _, 1000) (λ _ _, Ok tt) (λ _, 1000) (λ _, None)
    ([Liveness.Beat; Liveness.Watch; Liveness.Beat; Liveness.Watch; Liveness.Beat] ++ [Liveness.Watch]) restarted)) = true.
Proof.
  apply (Liveness.restarted_loop_is_flattened restart_clock (λ _, 1000) (λ _ _, Ok tt) (λ _, 1000) (λ _, None)
    ltac:(by intros [|[|]]) 7 restarted
    [Liveness.Beat; Liveness.Watch; Liveness.Beat; Liveness.Watch; Liveness.Beat]); try reflexivity.
  - intros hb [= <-]. split; [by vm_compute|done].
  - by vm_compute.
Defined.
