(* ===== verification/DmsService.v ===== *)
(** * The dead-man's switch process: [aats/risk/presigned_flatten.py] and
    [aats/risk/dms_main.py]

    The holder of pre-signed flattens, the configuration, the heartbeat read
    from Redis and the service that runs [DmsWatchdog] ([DeadMan]) over them.
    The submitter and Redis are parameters; what [main] prints and the HTTP
    endpoint it starts are left out. *)

From S2P Require Import Prelude Decimal RiskContracts Float64 PyText PyParse SurvivableStop Intents Positions StateStore Enforcer DeadMan.
From Stdlib Require Import Ascii.

(** ** Pre-signed flattens *)

Module PreSignedFlatten.
Record t : Type := mk { mint : string; signed_tx_b64 : string; fraction_bps : Z; refreshed_at_slot : Z }.
#[global] Instance t_eq_dec : EqDecision t.
Proof. solve_decision. Defined.

Definition new (mint tx : string) (fraction slot : pynum) : result t :=
  match fraction, slot with
  | PyFloat _, _ => Raise (TypeError "PreSignedFlatten.fraction_bps must be int (bps), not float.")
  | _, PyFloat _ => Raise (TypeError "PreSignedFlatten.refreshed_at_slot must be int (slot), not float.")
  | PyInt f, PyInt s =>
      if negb (f =? 10000) then Raise (ValueError "PreSignedFlatten.fraction_bps must be 10_000 (full flatten only).")
      else if bool_decide (tx = "") then Raise (ValueError "PreSignedFlatten.signed_tx_b64 must be non-empty (a real signed tx).")
      else Ok (mk mint tx f s)
  end.
End PreSignedFlatten.

(** What was handed to [BlockEngineSubmitter.submit_signed]: bytes and reason. *)
Definition submit_log : Type := list (string * string).
(** The submitter's answer, given everything it was handed before. *)
Definition submit_fn : Type := submit_log → string → string → result bool.

Module PreSignedFlattenHolder.
Record t : Type := mk { _held : dict PreSignedFlatten.t; _submitted : submit_log }.

Definition __init__ : t := mk [] [].
Definition upsert (f : PreSignedFlatten.t) (h : t) : t := mk (dset (PreSignedFlatten.mint f) f (_held h)) (_submitted h).
Definition remove (mint : string) (h : t) : t := mk (dpop mint (_held h)) (_submitted h).
Definition held_mints (h : t) : gset string := list_to_set (_held h).*1.

Section Submit.
Context (submit_signed : submit_fn).

Definition submit (tx reason : string) : M t bool :=
  λ h, (submit_signed (_submitted h) tx reason, mk (_held h) (_submitted h ++ [(tx, reason)])).

(** The [try] of the loop: the first error is kept. *)
Definition try_submit (reason : string) (f : PreSignedFlatten.t) (first_error : option exn) : M t (option exn) :=
  λ h, match submit (PreSignedFlatten.signed_tx_b64 f) (reason +:+ "|mint=" +:+ PreSignedFlatten.mint f) h with
       | (Ok _, h') => (Ok first_error, h')
       | (Raise e, h') => (Ok (match first_error with None => Some e | Some e0 => Some e0 end), h')
       end.

Fixpoint submit_all (reason : string) (held : list PreSignedFlatten.t) (first_error : option exn) : M t (option exn) :=
  match held with
  | [] => mret first_error
  | f :: held => e ← try_submit reason f first_error; submit_all reason held e
  end.

Definition emergency_flatten (reason : string) : M t unit :=
  h ← get;
  e ← submit_all reason (_held h).*2 None;
  match e with Some e => raise e | None => mret tt end.
End Submit.
End PreSignedFlattenHolder.

(** ** Configuration *)

Definition _DEFAULT_T_DMS_SECONDS : Z := 60.
Definition _DEFAULT_HEARTBEAT_KEY : string := "aats:dms:heartbeat".
Definition _DEFAULT_CHECK_INTERVAL_S : float := float_of_Z 1.

Module DmsServiceConfig.
Record t : Type := mk {
  t_dms_seconds : float; dry_run : bool; redis_url : string; heartbeat_key : string; check_interval_s : float
}.

Definition from_env (env : gmap string string) : t :=
  let raw := default (pretty _DEFAULT_T_DMS_SECONDS) (env !! "T_DMS_SECONDS") in
  let t_dms := match py_float raw with Some x => x | None => float_of_Z _DEFAULT_T_DMS_SECONDS end in
  let t_dms := if fleb t_dms fzero then float_of_Z _DEFAULT_T_DMS_SECONDS else t_dms in
  mk t_dms (negb (bool_decide (lower (strip (default "true" (env !! "DRY_RUN_ENABLED"))) = "false")))
    (default "redis://redis:6379" (env !! "REDIS_URL"))
    (default _DEFAULT_HEARTBEAT_KEY (env !! "DMS_HEARTBEAT_KEY")) _DEFAULT_CHECK_INTERVAL_S.
End DmsServiceConfig.

(** [DryRunBlockEngineSubmitter.submit_signed]: recorded, never sent. *)
Definition DryRun_submit_signed : submit_fn := λ _ _ _, Ok false.

(** ** The heartbeat in Redis *)

(** What [redis.get] did.  [RBytes None] are bytes that are not UTF-8. *)
Inductive redis_reply : Type := RRaises | RNone | RBytes (text : option string) | RStr (text : string).

Module RedisHeartbeatStore.
Definition parse (text : string) : option Heartbeat.t :=
  '(epoch, seq) ← split1 ":" text;
  e ← parse_int epoch;
  n ← parse_int seq;
  match Heartbeat.new (PyInt e) (PyInt n) with Ok hb => Some hb | Raise _ => None end.

Definition read (r : redis_reply) : option Heartbeat.t :=
  match r with
  | RRaises | RNone | RBytes None => None
  | RBytes (Some text) | RStr text => parse text
  end.

Definition serialize (hb : Heartbeat.t) : string :=
  pretty (Heartbeat.epoch_ms hb) +:+ ":" +:+ pretty (Heartbeat.seq hb).
End RedisHeartbeatStore.

(** ** The service *)

Module Service.
Record t : Type := mk { _watchdog : DmsWatchdog.t; _holder : PreSignedFlattenHolder.t }.
Definition set_holder (f : PreSignedFlattenHolder.t → PreSignedFlattenHolder.t) (s : t) : t := mk (_watchdog s) (f (_holder s)).
Definition set_reply (hb : option Heartbeat.t) (s : t) : t :=
  mk (DmsWatchdog.set_store (InMemoryHeartbeatStore.mk hb false) (_watchdog s)) (_holder s).

Section Ops.
Context (monotonic : nat → float) (wall_epoch_ms : nat → Z) (submit_signed : submit_fn).

Definition __init__ (config : DmsServiceConfig.t) (holder : PreSignedFlattenHolder.t) (telemetry : option (list dms_event)) : result t :=
  w ← DmsWatchdog.__init__ monotonic InMemoryHeartbeatStore.__init__ (DmsServiceConfig.t_dms_seconds config) telemetry;
  Ok (mk w holder).

(** [DmsWatchdog.check] calls the holder at most once, under its lock. *)
Definition flatten_answer (h : PreSignedFlattenHolder.t) : flatten_fn :=
  λ _ reason, fst (PreSignedFlattenHolder.emergency_flatten submit_signed reason h).

Definition tick (reply : redis_reply) : M t bool := λ s,
  let s := set_reply (RedisHeartbeatStore.read reply) s in
  let '(r, w) := DmsWatchdog.check monotonic wall_epoch_ms (flatten_answer (_holder s)) (_watchdog s) in
  let h := match drop (length (DmsWatchdog._flattens (_watchdog s))) (DmsWatchdog._flattens w) with
           | reason :: _ => snd (PreSignedFlattenHolder.emergency_flatten submit_signed reason (_holder s))
           | [] => _holder s
           end in
  (r, mk w h).

(** [run_forever] until a stop is requested: one reply per turn. *)
Fixpoint run_forever (replies : list redis_reply) : M t unit :=
  match replies with
  | [] => mret tt
  | r :: replies => tick r;; run_forever replies
  end.
End Ops.
End Service.

(** [_build_default_service]: its submitter is the dry-run one whatever the
    configuration says; without a Redis client every turn reads nothing, which
    is the reply [RNone]. *)
Definition _build_default_service (monotonic : nat → float) (config : DmsServiceConfig.t) : result Service.t :=
  Service.__init__ monotonic config PreSignedFlattenHolder.__init__ None.

(** ** The holder submits everything it holds *)

(** What flattening [held] hands to the submitter. *)
Definition entries (reason : string) (held : list PreSignedFlatten.t) : submit_log :=
  map (λ f, (PreSignedFlatten.signed_tx_b64 f, reason +:+ "|mint=" +:+ PreSignedFlatten.mint f)) held.

(** The first error of submitting [es] after [log]. *)
Fixpoint first_error (submit_signed : submit_fn) (log es : submit_log) : option exn :=
  match es with
  | [] => None
  | e :: es => match submit_signed log e.1 e.2 with
               | Raise x => Some x
               | Ok _ => first_error submit_signed (log ++ [e]) es
               end
  end.

Section Flatten.
Context (submit_signed : submit_fn).

Lemma submit_all_spec reason held e0 h :
  PreSignedFlattenHolder.submit_all submit_signed reason held e0 h =
  (Ok (match e0 with Some e => Some e | None => first_error submit_signed (PreSignedFlattenHolder._submitted h) (entries reason held) end),
   PreSignedFlattenHolder.mk (PreSignedFlattenHolder._held h) (PreSignedFlattenHolder._submitted h ++ entries reason held)).
Proof.
  revert e0 h. induction held as [|f held IH]; intros e0 [d log].
  { cbn. rewrite app_nil_r. by destruct e0. }
  cbn [PreSignedFlattenHolder.submit_all entries map]. unfold mbind, M_bind, PreSignedFlattenHolder.try_submit, PreSignedFlattenHolder.submit.
  cbn. destruct (submit_signed log _ _) as [b|e]; rewrite IH; cbn; rewrite <- app_assoc; destruct e0; done.
Qed.

Lemma emergency_flatten_spec reason h :
  PreSignedFlattenHolder.emergency_flatten submit_signed reason h =
  (match first_error submit_signed (PreSignedFlattenHolder._submitted h) (entries reason (PreSignedFlattenHolder._held h).*2) with
   | None => Ok tt | Some e => Raise e end,
   PreSignedFlattenHolder.mk (PreSignedFlattenHolder._held h)
     (PreSignedFlattenHolder._submitted h ++ entries reason (PreSignedFlattenHolder._held h).*2)).
Proof.
  unfold PreSignedFlattenHolder.emergency_flatten, mbind, M_bind, get. rewrite submit_all_spec. by destruct (first_error _ _ _).
Qed.
End Flatten.

(** ** The service over any run *)

Section Run.
Context (monotonic : nat → float) (wall_epoch_ms : nat → Z) (submit_signed : submit_fn).
Abbreviation turn := (Service.tick monotonic wall_epoch_ms submit_signed).
Abbreviation held s := (PreSignedFlattenHolder._held (Service._holder s)).*2.
Abbreviation submitted s := (PreSignedFlattenHolder._submitted (Service._holder s)).

(** The book changes while the watchdog turns. *)
Inductive op : Type := Upsert (f : PreSignedFlatten.t) | Remove (mint : string) | Tick (reply : redis_reply).
Definition step (o : op) (s : Service.t) : Service.t :=
  match o with
  | Upsert f => Service.set_holder (PreSignedFlattenHolder.upsert f) s
  | Remove m => Service.set_holder (PreSignedFlattenHolder.remove m) s
  | Tick r => snd (turn r s)
  end.
Definition run (ops : list op) (s : Service.t) : Service.t := foldl (λ s o, step o s) s ops.

Lemma service_run_app a b s : run (a ++ b) s = run b (run a s).
Proof. apply foldl_app. Qed.

Lemma age_locked_frame w :
  let w' := snd (DmsWatchdog._age_locked monotonic wall_epoch_ms w) in
  DmsWatchdog._fired w' = DmsWatchdog._fired w ∧ DmsWatchdog._armed w' = DmsWatchdog._armed w ∧
  DmsWatchdog._flattens w' = DmsWatchdog._flattens w.
Proof.
  unfold DmsWatchdog._age_locked. mstep. destruct (InMemoryHeartbeatStore.read _) as [hb|]; cbn; [|done].
  destruct (DmsWatchdog.wall_age _ _); cbn; [|done]. by destruct (match DmsWatchdog._last_seq w with None => _ | Some _ => _ end).
Qed.

(** A latched or disarmed watchdog asks for nothing. *)
Lemma check_off w ans : negb (DmsWatchdog._armed w) || DmsWatchdog._fired w = true →
  let w' := snd (DmsWatchdog.check monotonic wall_epoch_ms ans w) in
  DmsWatchdog._fired w' = DmsWatchdog._fired w ∧ DmsWatchdog._armed w' = DmsWatchdog._armed w ∧
  DmsWatchdog._flattens w' = DmsWatchdog._flattens w.
Proof.
  intros Hoff. unfold DmsWatchdog.check. unfold mbind, M_bind. pose proof (age_locked_frame w) as (H1 & H2 & H3).
  destruct (DmsWatchdog._age_locked _ _ w) as [[age|] w']; cbn in *; [|done]. by rewrite H1, H2, Hoff.
Qed.

Lemma fired_stays s ops : DmsWatchdog._fired (Service._watchdog s) = true →
  DmsWatchdog._fired (Service._watchdog (run ops s)) = true ∧ submitted (run ops s) = submitted s.
Proof.
  revert s. induction ops as [|o ops IH]; intros s Hf; [done|]. change (run (o :: ops) s) with (run ops (step o s)).
  assert (DmsWatchdog._fired (Service._watchdog (step o s)) = true ∧ submitted (step o s) = submitted s) as [H1 H2].
  { destruct o as [f|m|r]; [done..|]. cbn. unfold Service.tick.
    set (w0 := Service._watchdog (Service.set_reply _ s)).
    destruct (check_off w0 (Service.flatten_answer submit_signed (Service._holder s))) as (C1 & _ & C3); [cbn; by rewrite Hf, orb_true_r|].
    change (Service._holder (Service.set_reply _ s)) with (Service._holder s).
    destruct (DmsWatchdog.check _ _ _ w0) as [r' w']; cbn in *. rewrite C1, C3.
    change (DmsWatchdog._flattens w0) with (DmsWatchdog._flattens (Service._watchdog s)). by rewrite drop_all. }
  destruct (IH _ H1) as [I1 I2]. split; [done|]. by rewrite I2.
Qed.

(** A reply that proves nothing new to a watchdog that has seen [n]. *)
Definition quiet (n : Z) (o : op) : Prop :=
  match o with
  | Tick r => ∀ hb, RedisHeartbeatStore.read r = Some hb →
      Heartbeat.seq hb ≤ n ∧ ∀ i, is_ok (DmsWatchdog.wall_age (wall_epoch_ms i) (Heartbeat.epoch_ms hb)) = true
  | _ => True
  end.

Definition waiting (n : Z) (f0 t : float) (s : Service.t) : Prop :=
  let w := Service._watchdog s in
  DmsWatchdog._armed w = true ∧ DmsWatchdog._fired w = false ∧ DmsWatchdog._last_seq w = Some n ∧
  DmsWatchdog._last_fresh_mono w = f0 ∧ DmsWatchdog._t_dms w = t.

Definition clock_at (s : Service.t) : float := monotonic (DmsWatchdog._mono_reads (Service._watchdog s)).

(** One turn on a quiet reply: it either does nothing or fires, and firing
    hands over the whole book. *)
Lemma quiet_tick n f0 t r s :
  (∀ i, is_finite (monotonic i) = true) → is_finite f0 = true → quiet n (Tick r) → waiting n f0 t s →
  let s1 := step (Tick r) s in
  held s1 = held s ∧
  ((waiting n f0 t s1 ∧ submitted s1 = submitted s ∧ fleb (fsub (clock_at s) f0) t = true) ∨
   (DmsWatchdog._fired (Service._watchdog s1) = true ∧
    ∃ reason, submitted s1 = submitted s ++ entries reason (held s))).
Proof.
  intros Hfin Hf0 Hq (Ha & Hf & Hs & Hl & Ht). cbn [quiet step] in *. unfold Service.tick.
  set (w := Service._watchdog (Service.set_reply (RedisHeartbeatStore.read r) s)).
  change (Service._holder (Service.set_reply _ s)) with (Service._holder s).
  set (ans := Service.flatten_answer submit_signed (Service._holder s)).
  assert (InMemoryHeartbeatStore.read (DmsWatchdog._store w) = RedisHeartbeatStore.read r) as Hread by done.
  assert (DmsWatchdog._armed w = true ∧ DmsWatchdog._fired w = false ∧ DmsWatchdog._last_seq w = Some n ∧
    DmsWatchdog._last_fresh_mono w = f0 ∧ DmsWatchdog._t_dms w = t ∧
    DmsWatchdog._flattens w = DmsWatchdog._flattens (Service._watchdog s) ∧
    DmsWatchdog._mono_reads w = DmsWatchdog._mono_reads (Service._watchdog s)) as (Ha' & Hf' & Hs' & Hl' & Ht' & Hfl & Hm) by done.
  assert (∀ hb, RedisHeartbeatStore.read r = Some hb → DmsWatchdog.advances w hb = false) as Hadv.
  { intros hb Hr. destruct (Hq hb Hr) as [Hle _]. unfold DmsWatchdog.advances. rewrite Hs'. lia. }
  assert (DmsWatchdog.wall_age_ok wall_epoch_ms w) as Hw.
  { unfold DmsWatchdog.wall_age_ok, DmsWatchdog.wall_age_at. rewrite Hread.
    destruct (RedisHeartbeatStore.read r) as [hb|]; cbn; [|done]. by apply (Hq hb). }
  destruct (DmsWatchdog.dog_check_spec monotonic wall_epoch_ms ans w (Hfin _) ltac:(by rewrite Hl') Hw)
    as (_ & H2 & H3 & H4 & H5 & H6 & _).
  assert (DmsWatchdog.observed_age_at monotonic w = fsub (clock_at s) f0) as Hobs.
  { unfold DmsWatchdog.observed_age_at, DmsWatchdog.anchored, clock_at. rewrite Hread.
    destruct (RedisHeartbeatStore.read r) as [hb|]; [rewrite (Hadv hb eq_refl)|]; by rewrite <- Hl. }
  assert (DmsWatchdog._last_fresh_mono (snd (DmsWatchdog.check monotonic wall_epoch_ms ans w)) = f0 ∧
    DmsWatchdog._last_seq (snd (DmsWatchdog.check monotonic wall_epoch_ms ans w)) = Some n) as [H7 H8].
  { rewrite Hread in H5. destruct (RedisHeartbeatStore.read r) as [hb|]; [rewrite (Hadv hb eq_refl) in H5|];
      injection H5 as -> ->; done. }
  rewrite Ha', Hf' in *. cbn [andb negb orb] in *.
  destruct (DmsWatchdog.check monotonic wall_epoch_ms ans w) as [res w'] eqn:Ec. cbn [snd fst] in *.
  rewrite H3. destruct (DmsWatchdog.stale monotonic wall_epoch_ms w) eqn:Est; cbn in H2, H4.
  - rewrite drop_app_length. rewrite emergency_flatten_spec. cbn. split; [done|]. right. split; [done|]. eauto.
  - rewrite app_nil_r, drop_all. cbn. split; [done|]. left. split_and!; [split_and!; [done..|exact (eq_trans H6 Ht')]|done|].
    unfold DmsWatchdog.stale in Est. apply orb_false_iff in Est as [_ Est]. apply negb_false_iff in Est.
    by rewrite Hobs, Ht' in Est.
Qed.

(** A quiet run either keeps waiting or splits at the turn that fired. *)
Lemma quiet_run n f0 t ops s :
  (∀ i, is_finite (monotonic i) = true) → is_finite f0 = true → Forall (quiet n) ops → waiting n f0 t s →
  (waiting n f0 t (run ops s) ∧ submitted (run ops s) = submitted s) ∨
  ∃ pre r post reason, ops = pre ++ Tick r :: post ∧ submitted (run pre s) = submitted s ∧
    let s1 := step (Tick r) (run pre s) in
    DmsWatchdog._fired (Service._watchdog s1) = true ∧
    submitted s1 = submitted s ++ entries reason (held (run pre s)).
Proof.
  intros Hfin Hf0 Hq. revert s. induction Hq as [|o ops Ho Hq IH]; intros s Hw; [by left|].
  assert ((∃ r, o = Tick r) ∨ waiting n f0 t (step o s) ∧ submitted (step o s) = submitted s) as [[r ->]|[Hw1 Hs1]].
  { destruct o; [right..|left]; [done..|by eexists]. }
  - destruct (quiet_tick n f0 t r s Hfin Hf0 Ho Hw) as [_ [(Hw1 & Hs1 & _)|(Hf & reason & Hs1)]].
    + destruct (IH _ Hw1) as [[H1 H2]|(pre & r' & post & reason & -> & H2 & H3 & H4)].
      * left. change (run (Tick r :: ops) s) with (run ops (step (Tick r) s)). by rewrite H2.
      * right. exists (Tick r :: pre), r', post, reason. change (run (Tick r :: pre) s) with (run pre (step (Tick r) s)).
        cbv zeta. split_and!; [done|by rewrite H2|done|by rewrite H4, Hs1].
    + right. exists [], r, ops, reason. cbv zeta. by split_and!.
  - destruct (IH _ Hw1) as [[H1 H2]|(pre & r' & post & reason & -> & H2 & H3 & H4)].
    + left. change (run (o :: ops) s) with (run ops (step o s)). by rewrite H2.
    + right. exists (o :: pre), r', post, reason. change (run (o :: pre) s) with (run pre (step o s)).
      cbv zeta. split_and!; [done|by rewrite H2|done|by rewrite H4, Hs1].
Qed.

(** C17: Silence hands over the whole book, once.  The watchdog has seen beat [n]
    and then reads nothing newer, whatever Redis answers and however the book
    changes.  If the last turn comes more than T_DMS after beat [n], there is
    one turn at which every flatten held at that moment is handed to the
    submitter, in order and whether or not submissions raise; nothing was
    handed over before it, and nothing is after it, even if beats return. *)
Theorem silence_submits_every_held n s ops r :
  (∀ i, is_finite (monotonic i) = true) →
  DmsWatchdog._armed (Service._watchdog s) = true → DmsWatchdog._fired (Service._watchdog s) = false →
  DmsWatchdog._last_seq (Service._watchdog s) = Some n →
  is_finite (DmsWatchdog._last_fresh_mono (Service._watchdog s)) = true →
  Forall (quiet n) (ops ++ [Tick r]) →
  fleb (fsub (clock_at (run ops s)) (DmsWatchdog._last_fresh_mono (Service._watchdog s)))
    (DmsWatchdog._t_dms (Service._watchdog s)) = false →
  ∃ pre r' post reason, ops ++ [Tick r] = pre ++ Tick r' :: post ∧
    submitted (run pre s) = submitted s ∧
    ∀ later, submitted (run (pre ++ Tick r' :: later) s) = submitted s ++ entries reason (held (run pre s)).
Proof.
  intros Hfin Ha Hf Hs Hf0 [Hq [Hr _]%Forall_cons]%Forall_app Hage.
  assert (waiting n (DmsWatchdog._last_fresh_mono (Service._watchdog s)) (DmsWatchdog._t_dms (Service._watchdog s)) s) as Hw
    by (by split_and!).
  assert (∃ pre r' post reason, ops ++ [Tick r] = pre ++ Tick r' :: post ∧ submitted (run pre s) = submitted s ∧
    let s1 := step (Tick r') (run pre s) in
    DmsWatchdog._fired (Service._watchdog s1) = true ∧
    submitted s1 = submitted s ++ entries reason (held (run pre s))) as (pre & r' & post & reason & H1 & H2 & H3 & H4).
  { destruct (quiet_run n _ _ ops s Hfin Hf0 Hq Hw) as [[Hw1 Hs1]|(pre & r' & post & reason & -> & H2 & H3 & H4)].
    - destruct (quiet_tick n _ _ r (run ops s) Hfin Hf0 Hr Hw1) as [_ [(_ & _ & Hno)|(Hf1 & reason & Hs2)]]; [congruence|].
      exists ops, r, [], reason. cbv zeta. rewrite Hs2, Hs1. by split_and!.
    - exists pre, r', (post ++ [Tick r]), reason. rewrite <- app_assoc. cbv zeta. by split_and!. }
  exists pre, r', post, reason. split_and!; [done..|]. intros later. rewrite service_run_app.
  change (run (Tick r' :: later) (run pre s)) with (run later (step (Tick r') (run pre s))).
  rewrite (proj2 (fired_stays _ later H3)). exact H4.
Qed.

(** ** The service as it is shipped *)

Definition ticks : list redis_reply → list op := map Tick.

Lemma run_forever_state replies s :
  PreSignedFlattenHolder._held (Service._holder s) = [] →
  submitted (snd (Service.run_forever monotonic wall_epoch_ms submit_signed replies s)) = submitted s.
Proof.
  revert s. induction replies as [|r replies IH]; intros s Hh; [done|].
  cbn [Service.run_forever]. unfold mbind, M_bind.
  assert (submitted (snd (turn r s)) = submitted s ∧ PreSignedFlattenHolder._held (Service._holder (snd (turn r s))) = []) as [H1 H2].
  { unfold Service.tick. change (Service._holder (Service.set_reply _ s)) with (Service._holder s).
    destruct (DmsWatchdog.check _ _ _ _) as [res w]. cbn [fst snd Service._holder].
    destruct (drop _ _); [done|]. rewrite emergency_flatten_spec, Hh. cbn. by rewrite app_nil_r. }
  destruct (turn r s) as [[b|e] s1]; cbn in *; [|done]. by rewrite IH.
Qed.
End Run.

(** The process [aats-dms] as it is built flattens nothing: whatever the
    environment, Redis and the clocks say, and however often it fires, not one
    transaction is handed to a submitter, since its holder is created empty
    and nothing in the repository fills it. *)
Theorem default_service_flattens_nothing monotonic wall submit env s replies :
  _build_default_service monotonic (DmsServiceConfig.from_env env) = Ok s →
  PreSignedFlattenHolder._submitted (Service._holder (snd (Service.run_forever monotonic wall submit replies s))) = [].
Proof.
  unfold _build_default_service, Service.__init__, mbind, result_bind. destruct (DmsWatchdog.__init__ _ _ _ _); [|done].
  intros [= <-]. by apply run_forever_state.
Qed.

(** ** The configuration *)

(** The configuration fails closed, but for infinity.  The timeout is never
    zero or negative, so the service can always be built from it, it is 60 s
    when the variable is absent or no number, and the dry run is off exactly
    when the variable says so. *)
Theorem config_fails_closed env :
  let c := DmsServiceConfig.from_env env in
  fleb (DmsServiceConfig.t_dms_seconds c) fzero = false ∧
  (∀ monotonic h telemetry, is_ok (Service.__init__ monotonic c h telemetry) = true) ∧
  ((env !! "T_DMS_SECONDS" ≫= py_float) = None → DmsServiceConfig.t_dms_seconds c = float_of_Z 60) ∧
  (DmsServiceConfig.dry_run c = false ↔ ∃ v, env !! "DRY_RUN_ENABLED" = Some v ∧ lower (strip v) = "false").
Proof.
  cbv zeta. assert (fleb (DmsServiceConfig.t_dms_seconds (DmsServiceConfig.from_env env)) fzero = false) as Hpos.
  { unfold DmsServiceConfig.from_env; cbn [DmsServiceConfig.t_dms_seconds]. destruct (py_float _) as [x|]; [|reflexivity].
    destruct (fleb x fzero) eqn:E; [reflexivity|exact E]. }
  split_and!; [done| | |].
  - intros monotonic h telemetry. unfold Service.__init__, DmsWatchdog.__init__, mbind, result_bind. by rewrite Hpos.
  - unfold DmsServiceConfig.from_env; cbn [DmsServiceConfig.t_dms_seconds].
    destruct (env !! "T_DMS_SECONDS") as [v|]; intros H; [|reflexivity].
    change (default _ (Some v)) with v. change (py_float v = None) in H. by rewrite H.
  - unfold DmsServiceConfig.from_env; cbn [DmsServiceConfig.dry_run]. rewrite negb_false_iff, bool_decide_eq_true.
    destruct (env !! "DRY_RUN_ENABLED") as [v|]; cbn [default]; split.
    + intros H. by exists v.
    + by intros (v' & [= ->] & H).
    + by vm_compute.
    + by intros (v' & ? & _).
Qed.

Lemma fleb_infinity x : is_nan x = false → fleb x (S754_infinity false) = true.
Proof. by destruct x as [| [] | |[]]. Qed.

Lemma wall_age_nan a b w : DmsWatchdog.wall_age a b = Ok w → is_nan w = false.
Proof.
  unfold DmsWatchdog.wall_age, mbind, result_bind. destruct (float_int _) as [d|]; [|done]. destruct (fdiv d _) as [q|]; [|done].
  intros [= <-]. unfold fmax. by destruct q as [[]|[]| |[]].
Qed.

Section Infinite.
Context (monotonic : nat → float) (wall_epoch_ms : nat → Z) (submit_signed : submit_fn).
Context (Hfin : ∀ i, is_finite (monotonic i) = true).

Definition readable (r : redis_reply) : Prop := ∀ hb i, RedisHeartbeatStore.read r = Some hb →
  is_ok (DmsWatchdog.wall_age (wall_epoch_ms i) (Heartbeat.epoch_ms hb)) = true.

Definition never (log : submit_log) (s : Service.t) : Prop :=
  is_finite (DmsWatchdog._last_fresh_mono (Service._watchdog s)) = true ∧
  DmsWatchdog._t_dms (Service._watchdog s) = S754_infinity false ∧
  DmsWatchdog._fired (Service._watchdog s) = false ∧
  PreSignedFlattenHolder._submitted (Service._holder s) = log.

Lemma never_tick log r s : readable r → never log s →
  ∃ s', Service.tick monotonic wall_epoch_ms submit_signed r s = (Ok false, s') ∧ never log s'.
Proof.
  intros Hr (H1 & H2 & H3 & H4). unfold Service.tick.
  set (w := Service._watchdog (Service.set_reply (RedisHeartbeatStore.read r) s)).
  assert (DmsWatchdog.wall_age_ok wall_epoch_ms w) as Hw.
  { unfold DmsWatchdog.wall_age_ok, DmsWatchdog.wall_age_at.
    change (InMemoryHeartbeatStore.read (DmsWatchdog._store w)) with (RedisHeartbeatStore.read r).
    destruct (RedisHeartbeatStore.read r) as [hb|] eqn:E; cbn; [|done]. by apply Hr. }
  assert (DmsWatchdog.stale monotonic wall_epoch_ms w = false) as Hst.
  { unfold DmsWatchdog.stale. change (DmsWatchdog._t_dms w) with (DmsWatchdog._t_dms (Service._watchdog s)). rewrite H2.
    rewrite (fleb_infinity (DmsWatchdog.observed_age_at monotonic w)) by (apply fsub_nan; [done|by apply DmsWatchdog.anchored_finite]).
    unfold DmsWatchdog.wall_age_at. destruct (InMemoryHeartbeatStore.read _) as [hb|]; cbn; [|done].
    destruct (DmsWatchdog.wall_age _ _) as [a|] eqn:E; [|done]. by rewrite (fleb_infinity a (wall_age_nan _ _ _ E)). }
  change (Service._holder (Service.set_reply _ s)) with (Service._holder s).
  destruct (DmsWatchdog.dog_check_spec monotonic wall_epoch_ms (Service.flatten_answer submit_signed (Service._holder s)) w
    (Hfin _) H1 Hw) as (C1 & C2 & C3 & _ & C5 & C6 & _).
  rewrite Hst, andb_false_r in C1, C2, C3.
  assert (is_finite (DmsWatchdog._last_fresh_mono (snd (DmsWatchdog.check monotonic wall_epoch_ms
    (Service.flatten_answer submit_signed (Service._holder s)) w))) = true) as C7.
  { destruct (InMemoryHeartbeatStore.read _) as [hb|]; [destruct (DmsWatchdog.advances w hb)|];
      apply (f_equal fst) in C5; cbn [fst] in C5; rewrite C5; [apply Hfin|exact H1..]. }
  destruct (DmsWatchdog.check _ _ _ w) as [res w']. cbn [fst snd] in *. subst res.
  rewrite C3, app_nil_r, drop_all. eexists. split; [reflexivity|]. split_and!; [exact C7|exact (eq_trans C6 H2)|exact (eq_trans C2 (f_equal (λ b, b || false) H3))|exact H4].
Qed.

(** [T_DMS_SECONDS=inf] disables the watchdog: the service is built, runs
    through any number of turns on any readable replies, and never fires. *)
Theorem infinite_timeout_never_fires env h s replies :
  env !! "T_DMS_SECONDS" = Some "inf" →
  Service.__init__ monotonic (DmsServiceConfig.from_env env) h None = Ok s → Forall readable replies →
  ∃ s', Service.run_forever monotonic wall_epoch_ms submit_signed replies s = (Ok tt, s') ∧
    DmsWatchdog._fired (Service._watchdog s') = false ∧
    PreSignedFlattenHolder._submitted (Service._holder s') = PreSignedFlattenHolder._submitted h.
Proof.
  intros He Hs Hr.
  assert (never (PreSignedFlattenHolder._submitted h) s) as Hn.
  { unfold Service.__init__, DmsServiceConfig.from_env in Hs. rewrite He in Hs. cbn [default DmsServiceConfig.t_dms_seconds] in Hs.
    change (py_float (id "inf")) with (Some (S754_infinity false)) in Hs. cbn in Hs. injection Hs as <-.
    split_and!; [apply Hfin|done..]. }
  clear Hs. revert s Hn. induction Hr as [|r replies Hr _ IH]; intros s Hn; [exists s; split_and!; [done|apply Hn..]|].
  destruct (never_tick _ r s Hr Hn) as (s1 & E & Hn1). destruct (IH s1 Hn1) as (s' & E' & H').
  exists s'. split; [|done]. cbn [Service.run_forever]. unfold mbind, M_bind. by rewrite E.
Qed.
End Infinite.

(** ** Heartbeats through Redis *)

(** What the loop writes the watchdog reads: a heartbeat the constructor
    accepts comes back from its text, as bytes or as a string, unless a field
    has more than 4300 digits; and whatever text is read, a heartbeat that
    comes out has no negative field. *)
Theorem heartbeat_text_round_trip :
  (∀ hb, Heartbeat.new (PyInt (Heartbeat.epoch_ms hb)) (PyInt (Heartbeat.seq hb)) = Ok hb →
    Heartbeat.epoch_ms hb < int_text_bound → Heartbeat.seq hb < int_text_bound →
    RedisHeartbeatStore.read (RBytes (Some (RedisHeartbeatStore.serialize hb))) = Some hb ∧
    RedisHeartbeatStore.read (RStr (RedisHeartbeatStore.serialize hb)) = Some hb) ∧
  (∀ r hb, RedisHeartbeatStore.read r = Some hb → 0 ≤ Heartbeat.epoch_ms hb ∧ 0 ≤ Heartbeat.seq hb).
Proof.
  assert (∀ e n hb, Heartbeat.new (PyInt e) (PyInt n) = Ok hb → hb = Heartbeat.mk e n ∧ 0 ≤ e ∧ 0 ≤ n) as Hnew.
  { intros e n hb. cbn. destruct (Z.ltb_spec e 0); [done|]. destruct (Z.ltb_spec n 0); [done|]. by intros [= <-]. }
  split.
  - intros [e n] H He Hn. cbn in *. apply Hnew in H as H'. destruct H' as (_ & H1 & H2).
    assert (RedisHeartbeatStore.parse (RedisHeartbeatStore.serialize (Heartbeat.mk e n)) = Some (Heartbeat.mk e n)) as E; [|by rewrite E].
    unfold RedisHeartbeatStore.parse, RedisHeartbeatStore.serialize; cbn [Heartbeat.epoch_ms Heartbeat.seq].
    rewrite app_cons, app_empty, split1_digits by (try done; by apply pretty_Z_digits).
    cbn [mbind option_bind]. rewrite !parse_int_pretty by done. cbn [mbind option_bind].
    cbn in H |- *. by rewrite H.
  - intros r hb. unfold RedisHeartbeatStore.read.
    assert (∀ text, RedisHeartbeatStore.parse text = Some hb → 0 ≤ Heartbeat.epoch_ms hb ∧ 0 ≤ Heartbeat.seq hb) as Hp.
    { intros text. unfold RedisHeartbeatStore.parse. destruct (split1 _ _) as [[a b]|]; cbn [mbind option_bind]; [|done].
      destruct (parse_int a) as [e|]; cbn [mbind option_bind]; [|done]. destruct (parse_int b) as [n|]; cbn [mbind option_bind]; [|done].
      destruct (Heartbeat.new _ _) as [hb'|] eqn:E; [|done]. apply Hnew in E as (-> & ? & ?). by intros [= <-]. }
    destruct r as [| |[text|]|text]; try done; apply Hp.
Qed.

(** *** Witnesses: a book of two, whose first submission raises; beat 7 is
    read again and again. *)

Definition flatten_of (m tx : string) : PreSignedFlatten.t := PreSignedFlatten.mk m tx 10000 5.
Definition silent_service : Service.t :=
  Service.mk (DmsWatchdog.mk InMemoryHeartbeatStore.__init__ (float_of_Z 60) false true (float_of_Z 100) (Some 7) None 0 0 [])
    (PreSignedFlattenHolder.upsert (flatten_of "A" "dHhB") PreSignedFlattenHolder.__init__).
Definition silent_clock (i : nat) : float := match i with O => float_of_Z 130 | _ => float_of_Z 161 end.
Definition failing_submit : submit_fn := λ log _ _, match log with [] => Raise (RuntimeError "dropped") | _ => Ok true end.
Definition silent_ops : list op := [Tick RNone; Upsert (flatten_of "B" "dHhC"); Remove "C"].
Definition stuck_beat : redis_reply := RBytes (Some "1000:7").

Lemma stuck_beat_reads : RedisHeartbeatStore.read stuck_beat = Some (Heartbeat.mk 1000 7).
Proof. vm_compute. reflexivity. Qed.

Lemma stuck_quiet : quiet (λ _, 1000) 7 (Tick stuck_beat).
Proof. intros hb. rewrite stuck_beat_reads. intros [= <-]. split; [by vm_compute|]. intros i. by vm_compute. Qed.
Lemma silent_quiet : Forall (quiet (λ _, 1000) 7) (silent_ops ++ [Tick stuck_beat]).
Proof. apply Forall_cons; split; [done|]. apply Forall_cons; split; [done|]. apply Forall_cons; split; [done|]. apply Forall_singleton, stuck_quiet. Qed.

Example silent_service_submits :
  PreSignedFlattenHolder._submitted (Service._holder
    (run silent_clock (λ _, 1000) failing_submit (silent_ops ++ [Tick stuck_beat]) silent_service)) =
  entries (DmsWatchdog.fire_reason (float_of_Z 61) (float_of_Z 60)) [flatten_of "A" "dHhB"; flatten_of "B" "dHhC"].
Proof. vm_compute. reflexivity. Qed.

Lemma silence_submits_witness :
  ∃ pre r' post reason, silent_ops ++ [Tick stuck_beat] = pre ++ Tick r' :: post ∧
    PreSignedFlattenHolder._submitted (Service._holder (run silent_clock (λ _, 1000) failing_submit pre silent_service)) = [] ∧
    ∀ later, PreSignedFlattenHolder._submitted (Service._holder
        (run silent_clock (λ _, 1000) failing_submit (pre ++ Tick r' :: later) silent_service)) =
      [] ++ entries reason (PreSignedFlattenHolder._held (Service._holder
        (run silent_clock (λ _, 1000) failing_submit pre silent_service))).*2.
Proof.
  apply (silence_submits_every_held silent_clock (λ _, 1000) failing_submit 7 silent_service silent_ops stuck_beat); try reflexivity.
  - by intros [|].
  - exact silent_quiet.
Defined.

Lemma default_service_witness :
  ∃ s, _build_default_service silent_clock (DmsServiceConfig.from_env ∅) = Ok s ∧
    PreSignedFlattenHolder._submitted (Service._holder
      (snd (Service.run_forever silent_clock (λ _, 1000) failing_submit [RNone; RNone] s))) = [].
Proof.
  eexists. split; [reflexivity|].
  by apply (default_service_flattens_nothing silent_clock (λ _, 1000) failing_submit ∅).
Defined.

Definition inf_env : gmap string string := <["T_DMS_SECONDS" := "inf"]> ∅.
Definition inf_service : Service.t :=
  Service.mk (DmsWatchdog.mk InMemoryHeartbeatStore.__init__ (S754_infinity false) false true (float_of_Z 130) None None 1 0 [])
    PreSignedFlattenHolder.__init__.
Lemma infinite_timeout_witness :
  ∃ s s', Service.__init__ silent_clock (DmsServiceConfig.from_env inf_env) PreSignedFlattenHolder.__init__ None = Ok s ∧
    Service.run_forever silent_clock (λ _, 1000) failing_submit [stuck_beat; RNone] s = (Ok tt, s') ∧
    DmsWatchdog._fired (Service._watchdog s') = false.
Proof.
  destruct (infinite_timeout_never_fires silent_clock (λ _, 1000) failing_submit ltac:(by intros [|]) inf_env
    PreSignedFlattenHolder.__init__ inf_service [stuck_beat; RNone]) as (s' & H1 & H2 & _); [reflexivity|reflexivity| |].
  - apply Forall_cons; split; [intros hb i H; by apply (stuck_quiet hb H)|by apply Forall_singleton].
  - exists inf_service, s'. split; [reflexivity|]. by split.
Defined.

Lemma heartbeat_text_witness :
  RedisHeartbeatStore.read (RStr (RedisHeartbeatStore.serialize (Heartbeat.mk 1700000000000 42))) = Some (Heartbeat.mk 1700000000000 42).
Proof. apply (proj1 heartbeat_text_round_trip); [reflexivity|cbn [Heartbeat.epoch_ms]|cbn [Heartbeat.seq]]; by apply Z.ltb_lt; vm_compute. Defined.
