(* ===== verification/VenueStop.v ===== *)
(** * The off-box resting stop: [aats/risk/venue_native_stop.py] and
    [aats/risk/survivable_stop_coordinator.py]

    The venue seam is a class ([RestingStopVenue]); the placer's theorems are
    proved against its laws and the in-memory simulation venue is an instance.
    The coordinator fans one trigger out to the enforcer ([Enforcer]), the
    placer and the dead-man's switch ([DeadMan]). *)

From S2P Require Import Prelude Decimal RiskContracts Float64 SurvivableStop Intents Positions StateStore Fsm Enforcer DeadMan.

Module RestingStopOrder.
Record t : Type := mk {
  mint : string;
  trigger_price : dec;
  fraction_bps : Z;
  order_id : option string
}.
#[global] Instance t_eq_dec : EqDecision t.
Proof. solve_decision. Defined.

(** What [trigger_price <= 0] compares: a string cannot be ordered with 0. *)
Definition ordered (v : num_in) : result dec :=
  match v with
  | NDec d => Ok d
  | NInt z => Ok (dec_of_Z z)
  | NBool b => Ok (dec_of_Z (if b then 1 else 0))
  | NStr _ | NFloat _ => Raise (TypeError "'<=' not supported")
  end.

(** The constructor with its [__post_init__]. *)
Definition new (mint : string) (trigger : num_in) (fraction : pynum) (order_id : option string) : result t :=
  match trigger, fraction with
  | NFloat _, _ => Raise (TypeError "RestingStopOrder.trigger_price must be Decimal")
  | _, PyFloat _ => Raise (TypeError "RestingStopOrder.fraction_bps must be int (bps), not float.")
  | _, PyInt f =>
      if negb ((1 <=? f) && (f <=? 10000)) then Raise (ValueError "RestingStopOrder.fraction_bps must be in [1, 10000].")
      else
        d ← ordered trigger;
        if dleb d d0 then Raise (ValueError "RestingStopOrder.trigger_price must be > 0.")
        else Ok (mk mint d f order_id)
  end.

Definition valid (o : t) : Prop := 1 ≤ fraction_bps o ≤ 10000 ∧ dleb (trigger_price o) d0 = false.

Lemma new_ok m d f id o : new m (NDec d) (PyInt f) id = Ok o ↔ o = mk m d f id ∧ valid o.
Proof.
  unfold new, valid. cbn. destruct (negb _) eqn:Ef; bools.
  - split; [done|]. intros [-> [Hv _]]. cbn in *. exfalso. apply andb_false_iff in Ef as [Ef|Ef]; bools; lia.
  - destruct (dleb d d0) eqn:Ed; (split; [|intros [-> [_ Hd]]; cbn in *; congruence]); [done|].
    intros [= <-]. cbn. by split_and!.
Qed.
#[global] Arguments new : simpl never.
End RestingStopOrder.

(** An argument annotated [Decimal | int | str]. *)
Inductive exact_in : Type := ExDec (d : dec) | ExInt (z : Z) | ExStr (v : option dec).
Definition to_decimal (v : exact_in) : result dec :=
  match v with ExDec d => Ok d | ExInt z => Ok (dec_of_Z z) | ExStr v => decimal_of_str v end.
Definition exact_num (v : exact_in) : num_in :=
  match v with ExDec d => NDec d | ExInt z => NInt z | ExStr v => NStr v end.

(** ** The seam *)

(** [RestingStopVenue], over the venue's state [V]. *)
Class RestingStopVenue (V : Type) : Type := {
  place_resting_stop : RestingStopOrder.t → M V RestingStopOrder.t;
  cancel_resting_stop : string → string → M V unit;
  replace_tighter : string → string → dec → M V RestingStopOrder.t
}.

(** What the seam's docstrings promise of an order that comes back. *)
Class RestingStopVenueLaws (V : Type) `{RestingStopVenue V} : Prop := {
  place_returns : ∀ o v p v', place_resting_stop o v = (Ok p, v') →
    RestingStopOrder.mint p = RestingStopOrder.mint o ∧
    RestingStopOrder.trigger_price p = RestingStopOrder.trigger_price o ∧
    RestingStopOrder.fraction_bps p = RestingStopOrder.fraction_bps o;
  replace_returns : ∀ m id d v p v', replace_tighter m id d v = (Ok p, v') →
    RestingStopOrder.mint p = m ∧ RestingStopOrder.trigger_price p = d
}.

Definition resting_order_from_stop (stop : StopState.t) (fraction_bps : pynum) : result RestingStopOrder.t :=
  RestingStopOrder.new (StopState.mint stop) (NDec (StopState.trigger_price stop)) fraction_bps None.

(** ** [VenueNativeStopPlacer] *)

Module VenueNativeStopPlacer.
Record t (V : Type) : Type := mk { _venue : V; _placed : dict RestingStopOrder.t }.
Arguments mk {V} _ _.
Arguments _venue {V} _.
Arguments _placed {V} _.

Section Ops.
Context {V : Type} `{RestingStopVenue V}.

Definition on_venue {A} (m : M V A) : M (t V) A :=
  λ s, let '(r, v) := m (_venue s) in (r, mk v (_placed s)).
Definition set_placed (f : dict RestingStopOrder.t → dict RestingStopOrder.t) : M (t V) unit :=
  modify (λ s, mk (_venue s) (f (_placed s))).

Definition place_for (stop : StopState.t) (fraction_bps : pynum) : M (t V) RestingStopOrder.t :=
  req ← lift (resting_order_from_stop stop fraction_bps);
  placed ← on_venue (place_resting_stop req);
  set_placed (dset (StopState.mint stop) placed);;
  mret placed.

Definition tighten (mint : string) (new_trigger : exact_in) : M (t V) RestingStopOrder.t :=
  s ← get;
  match dget mint (_placed s) with
  | Some existing =>
      match RestingStopOrder.order_id existing with
      | Some id =>
          proposed ← lift (to_decimal new_trigger);
          if dltb proposed (RestingStopOrder.trigger_price existing)
          then raise (ValueError "replace refused: a venue-native stop may only be TIGHTENED")
          else
            replaced ← on_venue (replace_tighter mint id proposed);
            set_placed (dset mint replaced);;
            mret replaced
      | None => raise (KeyError "no placed resting stop for mint")
      end
  | None => raise (KeyError "no placed resting stop for mint")
  end.

Definition cancel (mint : string) : M (t V) unit :=
  s ← get;
  set_placed (dpop mint);;
  match dget mint (_placed s) with
  | Some existing =>
      match RestingStopOrder.order_id existing with
      | Some id => on_venue (cancel_resting_stop mint id)
      | None => mret tt
      end
  | None => mret tt
  end.

Definition placed_order (mint : string) (s : t V) : option RestingStopOrder.t := dget mint (_placed s).
End Ops.
End VenueNativeStopPlacer.

(** ** The in-memory venue *)

Module SimulationRestingStopVenue.
(** [_RestingRecord] *)
Record record : Type := mk_record { order : RestingStopOrder.t; fired : bool }.
Record t : Type := mk { _orders : dict record; fired_exits : list FillResult.t; _seq : Z }.
Definition __init__ : t := mk [] [] 0.

Definition next_id (s : t) : string := "sim-resting-" +:+ pretty (_seq s + 1).
Definition tick_seq : M t unit := modify (λ s, mk (_orders s) (fired_exits s) (_seq s + 1)).
Definition set_orders (f : dict record → dict record) : M t unit :=
  modify (λ s, mk (f (_orders s)) (fired_exits s) (_seq s)).

Definition place (o : RestingStopOrder.t) : M t RestingStopOrder.t :=
  s ← get;
  tick_seq;;
  placed ← lift (RestingStopOrder.new (RestingStopOrder.mint o) (NDec (RestingStopOrder.trigger_price o))
                   (PyInt (RestingStopOrder.fraction_bps o)) (Some (next_id s)));
  set_orders (dset (RestingStopOrder.mint o) (mk_record placed false));;
  mret placed.

Definition cancel (mint order_id : string) : M t unit :=
  s ← get;
  match dget mint (_orders s) with
  | Some rec =>
      if bool_decide (RestingStopOrder.order_id (order rec) = Some order_id) then set_orders (dpop mint) else mret tt
  | None => mret tt
  end.

Definition replace (mint order_id : string) (new_trigger : dec) : M t RestingStopOrder.t :=
  s ← get;
  match dget mint (_orders s) with
  | Some rec =>
      if negb (bool_decide (RestingStopOrder.order_id (order rec) = Some order_id))
      then raise (KeyError "no resting order for mint")
      else if dltb new_trigger (RestingStopOrder.trigger_price (order rec))
      then raise (ValueError "venue refused widen (tighten-only)")
      else
        tick_seq;;
        replaced ← lift (RestingStopOrder.new mint (NDec new_trigger)
                           (PyInt (RestingStopOrder.fraction_bps (order rec))) (Some (next_id s)));
        set_orders (dset mint (mk_record replaced false));;
        mret replaced
  | None => raise (KeyError "no resting order for mint")
  end.

Definition resting_fill (trigger : dec) : FillResult.t :=
  FillResult.mk true "venue_native_resting_stop_filled" None (Some 0) 0 0 (dec_str trigger) 0 0 0.

(** [rec.fired = True] sets the flag of a record that is then removed. *)
Definition keeper_tick (mint : string) (mark_price : exact_in) : M t (option FillResult.t) :=
  s ← get;
  match dget mint (_orders s) with
  | None => mret None
  | Some rec =>
      if fired rec then mret None
      else
        mark ← lift (to_decimal mark_price);
        if dleb mark (RestingStopOrder.trigger_price (order rec))
        then
          set_orders (dset mint (mk_record (order rec) true));;
          let fill := resting_fill (RestingStopOrder.trigger_price (order rec)) in
          modify (λ s, mk (_orders s) (fired_exits s ++ [fill]) (_seq s));;
          set_orders (dpop mint);;
          mret (Some fill)
        else mret None
  end.

#[global] Instance venue : RestingStopVenue t := {
  place_resting_stop := place; cancel_resting_stop := cancel; replace_tighter := replace
}.

#[global] Instance laws : RestingStopVenueLaws t.
Proof.
  split.
  - intros o v p v'. cbn. unfold place. mstep. destruct (RestingStopOrder.new _ _ _ _) eqn:E; cbn; [|done].
    intros [= <- <-]. by apply RestingStopOrder.new_ok in E as [-> _].
  - intros m id d v p v'. cbn. unfold replace. mstep. destruct (dget m _); [|done].
    destruct (negb _); [done|]. destruct (dltb _ _); [done|]. cbn.
    destruct (RestingStopOrder.new _ _ _ _) eqn:E; cbn; [|done].
    intros [= <- <-]. by apply RestingStopOrder.new_ok in E as [-> _].
Qed.
End SimulationRestingStopVenue.

(** ** The placer only tightens *)

Section PlacerLaws.
Context {V : Type} `{RestingStopVenueLaws V}.

Inductive placer_op : Type :=
| OpPlace (stop : StopState.t) (fraction_bps : pynum)
| OpTighten (mint : string) (new_trigger : exact_in)
| OpCancel (mint : string).

Definition placer_step (o : placer_op) (s : VenueNativeStopPlacer.t V) : VenueNativeStopPlacer.t V :=
  match o with
  | OpPlace stop f => snd (VenueNativeStopPlacer.place_for stop f s)
  | OpTighten m v => snd (VenueNativeStopPlacer.tighten m v s)
  | OpCancel m => snd (VenueNativeStopPlacer.cancel m s)
  end.
Definition placer_run (ops : list placer_op) (s : VenueNativeStopPlacer.t V) : VenueNativeStopPlacer.t V :=
  foldl (λ s o, placer_step o s) s ops.

(** [o] neither opens nor closes [m]. *)
Definition leaves_open (m : string) (o : placer_op) : Prop :=
  match o with OpPlace stop _ => StopState.mint stop ≠ m | OpTighten _ _ => True | OpCancel m' => m' ≠ m end.

(** The order held for [m] has a trigger at or above [d]. *)
Definition held_above (m : string) (d : dec) (s : VenueNativeStopPlacer.t V) : Prop :=
  ∃ o, VenueNativeStopPlacer.placed_order m s = Some o ∧ dle d (RestingStopOrder.trigger_price o).

Lemma held_above_step m d o s : leaves_open m o → held_above m d s → held_above m d (placer_step o s).
Proof.
  intros Ho (ord & Hp & Hd). unfold VenueNativeStopPlacer.placed_order in Hp.
  unfold held_above, VenueNativeStopPlacer.placed_order. destruct o as [stop f|m' v|m']; cbn in *.
  - unfold VenueNativeStopPlacer.place_for, VenueNativeStopPlacer.on_venue. mstep.
    destruct (resting_order_from_stop stop f) as [req|]; [|by exists ord]. cbn.
    destruct (place_resting_stop req _) as [[p|] v']; [|by exists ord]. cbn.
    rewrite dget_dset_ne by done. by exists ord.
  - unfold VenueNativeStopPlacer.tighten, VenueNativeStopPlacer.on_venue. mstep.
    destruct (dget m' _) as [ex|] eqn:Em'; [|by exists ord].
    destruct (RestingStopOrder.order_id ex) as [id|]; [|by exists ord].
    destruct (to_decimal v) as [p|]; [|by exists ord]. cbn.
    destruct (dltb p _) eqn:Elt; [by exists ord|]. cbn.
    destruct (replace_tighter m' id p _) as [[r|] v'] eqn:Er; [|by exists ord]. cbn.
    destruct (base.decide (m' = m)) as [->|Hne]; [|rewrite dget_dset_ne by done; by exists ord].
    rewrite dget_dset. exists r. split; [done|]. apply replace_returns in Er as [_ ->].
    replace ex with ord in Elt by congruence. apply dltb_false in Elt. by eauto with aats.
  - unfold VenueNativeStopPlacer.cancel, VenueNativeStopPlacer.on_venue. mstep.
    assert (dget m (dpop m' (VenueNativeStopPlacer._placed s)) = Some ord) as Hpop by (by rewrite dget_dpop_ne).
    destruct (dget m' _) as [ex|]; [|by exists ord].
    destruct (RestingStopOrder.order_id ex) as [id|]; [|by exists ord].
    destruct (cancel_resting_stop m' id _) as [[]]; by exists ord.
Qed.

(** Whatever venue honours the seam's contract, and whatever it refuses,
    the off-box order of a position is never lowered: over any sequence of
    placements and cancellations of other mints and tightenings of any, the
    order the placer holds for [m] keeps a trigger at or above the one it had. *)
Theorem placer_only_tightens m o ops s :
  VenueNativeStopPlacer.placed_order m s = Some o → Forall (leaves_open m) ops →
  ∃ o', VenueNativeStopPlacer.placed_order m (placer_run ops s) = Some o' ∧
    dle (RestingStopOrder.trigger_price o) (RestingStopOrder.trigger_price o').
Proof.
  intros Hp Hops. assert (held_above m (RestingStopOrder.trigger_price o) s) as Hs by (exists o; auto with aats).
  clear Hp. revert s Hs. induction Hops as [|op ops Hop _ IH]; intros s Hs; [done|].
  by apply IH, held_above_step.
Qed.
End PlacerLaws.

(** ** [SurvivableStopCoordinator] *)

Record ArmResult : Type := mk_arm { stop : StopState.t; resting_order : RestingStopOrder.t }.

(** [contextlib.suppress(KeyError)] *)
Definition suppress_KeyError {S A} (m : M S A) : M S unit :=
  λ s, match m s with
       | (Ok _, s') => (Ok tt, s')
       | (Raise (KeyError _), s') => (Ok tt, s')
       | (Raise e, s') => (Raise e, s')
       end.

Module SurvivableStopCoordinator.
Record t (V : Type) : Type := mk {
  _enforcer : Enf; _venue_native : VenueNativeStopPlacer.t V; _dms : DeadMansSwitch.t
}.
Arguments mk {V} _ _ _.
Arguments _enforcer {V} _.
Arguments _venue_native {V} _.
Arguments _dms {V} _.

Section Ops.
Context {V : Type} `{RestingStopVenue V}.
Context (venue_exit : exit_log → Intent → Position.t → result FillResult.t) (clock : nat → float).

Definition on_enforcer {A} (m : M Enf A) : M (t V) A :=
  λ s, let '(r, e) := m (_enforcer s) in (r, mk e (_venue_native s) (_dms s)).
Definition on_stops {A} (m : M Wiring A) : M (t V) A :=
  on_enforcer (λ s, let '(r, w) := m (e_wiring s) in (r, mk_enf w (e_exits s))).
Definition on_placer {A} (m : M (VenueNativeStopPlacer.t V) A) : M (t V) A :=
  λ s, let '(r, p) := m (_venue_native s) in (r, mk (_enforcer s) p (_dms s)).
Definition on_dms {A} (m : M DeadMansSwitch.t A) : M (t V) A :=
  λ s, let '(r, d) := m (_dms s) in (r, mk (_enforcer s) (_venue_native s) d).

Definition arm_at_entry (mint : string) (entry_fill_price : num_in) (position : Position.t)
    (thresholds : option StopThresholds.t) (fraction_bps : pynum) : M (t V) ArmResult :=
  stop ← lift (StopState.at_entry mint entry_fill_price thresholds);
  on_stops (modify (register stop position));;
  resting ← on_placer (VenueNativeStopPlacer.place_for stop fraction_bps);
  mret (mk_arm stop resting).

Definition on_tick (tick : MarkTick.t) : M (t V) (option FillResult.t) :=
  on_dms (DeadMansSwitch.heartbeat clock);;
  on_enforcer (enforce_tick venue_exit tick).

Definition tighten (mint : string) (new_trigger : num_in) : M (t V) StopState.t :=
  tightened ← on_stops (Enforcer.tighten mint new_trigger);
  suppress_KeyError (on_placer (VenueNativeStopPlacer.tighten mint (ExDec (StopState.trigger_price tightened))));;
  mret tightened.

Definition on_exit (mint : string) : M (t V) unit :=
  on_stops (modify (deregister mint));;
  suppress_KeyError (on_placer (VenueNativeStopPlacer.cancel mint)).
End Ops.
End SurvivableStopCoordinator.

(** ** One line held by the process and by the keeper *)

Module Layers.
Import SurvivableStopCoordinator.
Abbreviation sim := SimulationRestingStopVenue.t.

Inductive op : Type :=
| Arm (mint : string) (price : num_in) (position : Position.t) (th : option StopThresholds.t) (fraction_bps : Z)
| Tick (tick : MarkTick.t)
| Tighten (mint : string) (new_trigger : num_in)
| Exit (mint : string)
(** the off-box keeper, which needs no process *)
| Keeper (mint : string) (mark : exact_in).

Section Runs.
Context (venue_exit : exit_log → Intent → Position.t → result FillResult.t) (clock : nat → float).

Definition venue_of (s : t sim) : sim := VenueNativeStopPlacer._venue (_venue_native s).
Definition placed_of (s : t sim) : dict RestingStopOrder.t := VenueNativeStopPlacer._placed (_venue_native s).
Definition stops_of (s : t sim) : dict _Registered := _stops (e_wiring (_enforcer s)).

Definition step (o : op) (s : t sim) : t sim :=
  match o with
  | Arm m p pos th f => snd (arm_at_entry m p pos th (PyInt f) s)
  | Tick tick => snd (on_tick venue_exit clock tick s)
  | Tighten m v => snd (tighten m v s)
  | Exit m => snd (on_exit m s)
  | Keeper m mark => snd (on_placer (VenueNativeStopPlacer.on_venue (SimulationRestingStopVenue.keeper_tick m mark)) s)
  end.
Definition run (ops : list op) (s : t sim) : t sim := foldl (λ s o, step o s) s ops.

Definition op_ok (o : op) : Prop := match o with Arm _ _ _ _ f => 1 ≤ f ≤ 10000 | _ => True end.

(** The venue's record for a stop: unfired, known to the placer, same trigger. *)
Definition mirrors (st : StopState.t) (rec : SimulationRestingStopVenue.record) (placed : option RestingStopOrder.t) : Prop :=
  SimulationRestingStopVenue.fired rec = false ∧ placed = Some (SimulationRestingStopVenue.order rec) ∧
  RestingStopOrder.valid (SimulationRestingStopVenue.order rec) ∧
  is_Some (RestingStopOrder.order_id (SimulationRestingStopVenue.order rec)) ∧
  RestingStopOrder.trigger_price (SimulationRestingStopVenue.order rec) = StopState.trigger_price st.

(** The mints the keeper has sold since their last successful arm, updated by
    what [o] answers in [s]. *)
Definition sold_after (o : op) (s : t sim) (sold : gset string) : gset string :=
  match o with
  | Arm m p pos th f => if is_ok (fst (arm_at_entry m p pos th (PyInt f) s)) then sold ∖ {[m]} else sold
  | Keeper m mark =>
      match fst (SimulationRestingStopVenue.keeper_tick m mark (venue_of s)) with
      | Ok (Some _) => {[m]} ∪ sold
      | _ => sold
      end
  | _ => sold
  end.
Fixpoint sold_in (ops : list op) (s : t sim) (sold : gset string) : gset string :=
  match ops with
  | [] => sold
  | o :: ops => sold_in ops (step o s) (sold_after o s sold)
  end.

Definition one_line_at (m : string) (stops : dict _Registered) (placed : dict RestingStopOrder.t) (v : sim)
    (sold : gset string) : Prop :=
  ∀ reg, dget m stops = Some reg → stop_wf (r_stop reg) ∧ StopState.mint (r_stop reg) = m ∧
    match dget m (SimulationRestingStopVenue._orders v) with
    | Some rec => (m ∉ sold) ∧ mirrors (r_stop reg) rec (dget m placed)
    | None => m ∈ sold
    end.
Definition one_line (s : t sim) (sold : gset string) : Prop :=
  ∀ m, one_line_at m (stops_of s) (placed_of s) (venue_of s) sold.

(** A change that touches only [m0]. *)
Lemma one_line_frame m m0 stops stops' placed placed' v v' sold sold' :
  m0 ≠ m → one_line_at m stops placed v sold →
  dget m stops' = dget m stops → dget m placed' = dget m placed →
  dget m (SimulationRestingStopVenue._orders v') = dget m (SimulationRestingStopVenue._orders v) →
  (m ∈ sold' ↔ m ∈ sold) →
  one_line_at m stops' placed' v' sold'.
Proof.
  intros Hne H Hs Hp Ho Hf reg Hreg. rewrite Hs in Hreg. destruct (H reg Hreg) as (H1 & H2 & H3).
  rewrite Ho, Hp. split_and!; [done..|]. destruct (dget m (SimulationRestingStopVenue._orders v)); tauto.
Qed.

Lemma at_entry_ok m p th st : StopState.at_entry m p th = Ok st → stop_wf st ∧ StopState.mint st = m.
Proof.
  unfold StopState.at_entry, mbind, result_bind. destruct (_to_decimal_price p _) as [e|]; [|done].
  destruct (derive_stop_trigger_price _ _) as [tr|]; [|done].
  intros H. apply post_init_inv in H as [-> H]. done.
Qed.

Lemma order_of_stop st f id : stop_wf st → 1 ≤ f ≤ 10000 →
  RestingStopOrder.new (StopState.mint st) (NDec (StopState.trigger_price st)) (PyInt f) id =
  Ok (RestingStopOrder.mk (StopState.mint st) (StopState.trigger_price st) f id).
Proof.
  intros [Hp _]%stop_wf_iff Hf. apply RestingStopOrder.new_ok. split; [done|]. split; [done|]. by apply dleb_zero_coef.
Qed.

Lemma arm_one_line m0 p pos th f s sold :
  1 ≤ f ≤ 10000 → one_line s sold →
  one_line (step (Arm m0 p pos th f) s) (sold_after (Arm m0 p pos th f) s sold).
Proof.
  intros Hf Hs m. cbn. unfold arm_at_entry, on_stops, on_enforcer, on_placer, VenueNativeStopPlacer.place_for,
    resting_order_from_stop, VenueNativeStopPlacer.on_venue. mstep.
  destruct (StopState.at_entry m0 p th) as [st|] eqn:Est; [|apply Hs].
  apply at_entry_ok in Est as [Hw <-]. cbn. rewrite (order_of_stop st f None Hw Hf). cbn.
  unfold SimulationRestingStopVenue.place. mstep. rewrite (order_of_stop st f _ Hw Hf). cbn.
  destruct (base.decide (StopState.mint st = m)) as [<-|Hne].
  - intros reg Hreg. unfold stops_of, placed_of, venue_of in *; cbn in *. rewrite dget_dset in Hreg.
    injection Hreg as <-. cbn. rewrite !dget_dset. split_and!; [done..|set_solver|]. unfold mirrors; cbn. split_and!; try done.
    split; [done|]. apply dleb_zero_coef. by apply stop_wf_iff in Hw as [].
  - apply (one_line_frame m (StopState.mint st) (stops_of s) _ (placed_of s) _ (venue_of s) _ sold _ Hne (Hs m));
      [by unfold stops_of, placed_of, venue_of; cbn; rewrite dget_dset_ne..|set_solver].
Qed.

#[local] Arguments DeRiskIntentFactory.exit : simpl never.

Lemma enforce_tick_stops tick e m reg :
  dget m (_stops (e_wiring (snd (enforce_tick venue_exit tick e)))) = Some reg → dget m (_stops (e_wiring e)) = Some reg.
Proof.
  unfold enforce_tick. mstep. destruct (decide (e_wiring e) tick) as [[]|]; cbn; try done.
  destruct (dget (MarkTick.mint tick) _) as [r|]; cbn; [|done].
  destruct (DeRiskIntentFactory.exit _ _ _ _ _) as [intent|]; cbn; [|done].
  destruct (venue_exit _ _ _) as [fill|]; cbn; [|done].
  destruct (base.decide (MarkTick.mint tick = m)) as [<-|Hne]; [by rewrite dget_dpop|by rewrite dget_dpop_ne].
Qed.

Lemma tick_one_line tick s sold : one_line s sold → one_line (step (Tick tick) s) sold.
Proof.
  intros Hs m reg Hreg. unfold step, on_tick, on_dms, on_enforcer, stops_of, placed_of, venue_of,
    DeadMansSwitch.heartbeat in *. mstep.
  pose proof (enforce_tick_stops tick (_enforcer s) m reg) as H.
  destruct (enforce_tick venue_exit tick (_enforcer s)) as [[fill|] e]; cbn in *; by apply (Hs m), H.
Qed.

(** [placer.tighten] and [placer.cancel] on the simulation venue. *)
Lemma sim_tighten_frame m0 v p :
  let p' := snd (VenueNativeStopPlacer.tighten (V := sim) m0 v p) in
  ∀ m, m0 ≠ m → dget m (VenueNativeStopPlacer._placed p') = dget m (VenueNativeStopPlacer._placed p) ∧
    dget m (SimulationRestingStopVenue._orders (VenueNativeStopPlacer._venue p')) =
    dget m (SimulationRestingStopVenue._orders (VenueNativeStopPlacer._venue p)).
Proof.
  unfold VenueNativeStopPlacer.tighten, VenueNativeStopPlacer.on_venue, SimulationRestingStopVenue.replace; cbn.
  unfold SimulationRestingStopVenue.replace. mstep.
  destruct (dget m0 (VenueNativeStopPlacer._placed p)) as [ex|]; [|done].
  destruct (RestingStopOrder.order_id ex) as [id|]; [|done].
  destruct (to_decimal v) as [d|]; cbn; [|done]. destruct (dltb d _); [done|]. cbn.
  destruct (dget m0 (SimulationRestingStopVenue._orders _)) as [rec|]; [|done].
  destruct (negb _); [done|]. destruct (dltb d _); [done|]. cbn.
  destruct (RestingStopOrder.new _ _ _ _); cbn; [|done].
  intros m Hne. by rewrite !dget_dset_ne.
Qed.

Lemma sim_cancel_frame m0 p :
  let p' := snd (VenueNativeStopPlacer.cancel (V := sim) m0 p) in
  ∀ m, m0 ≠ m → dget m (VenueNativeStopPlacer._placed p') = dget m (VenueNativeStopPlacer._placed p) ∧
    dget m (SimulationRestingStopVenue._orders (VenueNativeStopPlacer._venue p')) =
    dget m (SimulationRestingStopVenue._orders (VenueNativeStopPlacer._venue p)).
Proof.
  unfold VenueNativeStopPlacer.cancel, VenueNativeStopPlacer.on_venue; cbn.
  unfold SimulationRestingStopVenue.cancel. mstep.
  destruct (dget m0 (VenueNativeStopPlacer._placed p)) as [ex|] eqn:Ep.
  - destruct (RestingStopOrder.order_id ex) as [id|].
    + destruct (dget m0 (SimulationRestingStopVenue._orders _)) as [rec|]; [destruct (bool_decide _)|];
        intros m Hne; cbn; by rewrite ?dget_dpop_ne.
    + intros m Hne; cbn. by rewrite dget_dpop_ne.
  - intros m Hne; cbn. by rewrite dget_dpop_ne.
Qed.

Lemma suppress_snd {S A} (m : M S A) s : snd (suppress_KeyError m s) = snd (m s).
Proof. unfold suppress_KeyError. by destruct (m s) as [[a|[]] s']. Qed.

Lemma exit_one_line m0 s sold : one_line s sold → one_line (step (Exit m0) s) sold.
Proof.
  intros Hs m. cbn. unfold on_exit, on_stops, on_enforcer. mstep. rewrite suppress_snd. unfold on_placer; cbn.
  pose proof (sim_cancel_frame m0 (_venue_native s)) as Hm. cbn zeta in Hm.
  destruct (VenueNativeStopPlacer.cancel m0 _) as [r p]; cbn in *.
  destruct (base.decide (m0 = m)) as [<-|Hne].
  - intros reg Hreg. unfold stops_of in Hreg; cbn in Hreg. by rewrite dget_dpop in Hreg.
  - destruct (Hm m Hne) as [Hp Ho].
    apply (one_line_frame m m0 (stops_of s) _ (placed_of s) _ (venue_of s) _ sold _ Hne (Hs m)); try done.
    unfold stops_of; cbn. by rewrite dget_dpop_ne.
Qed.

(** A tighter trigger at the venue, when the venue still rests the order. *)
Lemma sim_tighten_ok m st st' rec p :
  mirrors st rec (dget m (VenueNativeStopPlacer._placed p)) →
  dget m (SimulationRestingStopVenue._orders (VenueNativeStopPlacer._venue p)) = Some rec →
  stop_wf st' → dle (StopState.trigger_price st) (StopState.trigger_price st') →
  let p' := snd (VenueNativeStopPlacer.tighten (V := sim) m (ExDec (StopState.trigger_price st')) p) in
  ∃ rec', dget m (SimulationRestingStopVenue._orders (VenueNativeStopPlacer._venue p')) = Some rec' ∧
    mirrors st' rec' (dget m (VenueNativeStopPlacer._placed p')).
Proof.
  intros (Hfi & Hp & [Hfr _] & [id Hid] & Htr) Ho Hw Hle.
  assert (dltb (StopState.trigger_price st') (RestingStopOrder.trigger_price (SimulationRestingStopVenue.order rec)) = false)
    as Hlt by (rewrite Htr; by apply dltb_irrefl_dle).
  assert (dleb (StopState.trigger_price st') d0 = false) as Hpos
    by (apply dleb_zero_coef; by apply stop_wf_iff in Hw as []).
  unfold VenueNativeStopPlacer.tighten, VenueNativeStopPlacer.on_venue; cbn.
  unfold SimulationRestingStopVenue.replace. mstep. rewrite Hp, Hid. cbn. rewrite Hlt. cbn. rewrite Ho, Hid, bool_decide_eq_true_2 by done. cbn. rewrite Hlt. cbn.
  rewrite (proj2 (RestingStopOrder.new_ok _ _ _ _ _) (conj eq_refl (conj Hfr Hpos))). cbn.
  rewrite !dget_dset. eexists. split; [done|]. unfold mirrors; cbn. split_and!; try done.
Qed.

Lemma sim_tighten_gone m v p :
  dget m (SimulationRestingStopVenue._orders (VenueNativeStopPlacer._venue p)) = None →
  dget m (SimulationRestingStopVenue._orders (VenueNativeStopPlacer._venue
    (snd (VenueNativeStopPlacer.tighten (V := sim) m v p)))) = None.
Proof.
  intros Ho. unfold VenueNativeStopPlacer.tighten, VenueNativeStopPlacer.on_venue; cbn.
  unfold SimulationRestingStopVenue.replace. mstep.
  destruct (dget m (VenueNativeStopPlacer._placed p)) as [ex|]; [|done].
  destruct (RestingStopOrder.order_id ex) as [id|]; [|done].
  destruct (to_decimal v) as [d|]; cbn; [|done]. destruct (dltb d _); [done|]. cbn. by rewrite Ho.
Qed.

Lemma tighten_one_line m0 v s sold : one_line s sold → one_line (step (Tighten m0 v) s) sold.
Proof.
  intros Hs m. cbn. unfold tighten, on_stops, on_enforcer, Enforcer.tighten. mstep.
  destruct (dget m0 (_stops (e_wiring (_enforcer s)))) as [reg|] eqn:Ereg; [|apply Hs]. cbn.
  destruct (StopState.tighten (r_stop reg) v) as [st'|] eqn:Et; [|apply Hs]. cbn.
  destruct (Hs m0 reg Ereg) as (Hw & Hmint & Hline).
  destruct (tighten_cases _ _ _ Hw Et) as (Hw' & Hle & _ & Hmint').
  set (tp := VenueNativeStopPlacer.tighten m0 (ExDec (StopState.trigger_price st')) (_venue_native s)).
  set (w1 := mk_enf _ _). unfold suppress_KeyError, on_placer; cbn. fold tp.
  assert (one_line_at m (_stops (e_wiring w1)) (VenueNativeStopPlacer._placed (snd tp)) (VenueNativeStopPlacer._venue (snd tp)) sold) as H.
  { pose proof (sim_tighten_frame m0 (ExDec (StopState.trigger_price st')) (_venue_native s)) as Hm. cbn zeta in Hm.
    fold tp in Hm. destruct (base.decide (m0 = m)) as [<-|Hne].
    - intros reg' Hreg'. cbn in Hreg'. rewrite dget_dset in Hreg'. injection Hreg' as <-. cbn.
      split_and!; [done|congruence|]. unfold venue_of, placed_of in Hline.
      destruct (dget m0 (SimulationRestingStopVenue._orders (VenueNativeStopPlacer._venue (_venue_native s)))) as [rec|] eqn:Eo.
      + destruct Hline as [Hns Hline].
        destruct (sim_tighten_ok m0 _ st' rec (_venue_native s) Hline Eo Hw' Hle) as (rec' & H1 & H2).
        fold tp in H1, H2. by rewrite H1.
      + pose proof (sim_tighten_gone m0 (ExDec (StopState.trigger_price st')) _ Eo) as Hg. fold tp in Hg. by rewrite Hg.
    - destruct (Hm m Hne) as [Hp Ho].
      apply (one_line_frame m m0 (stops_of s) _ (placed_of s) _ (venue_of s) _ sold _ Hne (Hs m)); try done.
      cbn. by rewrite dget_dset_ne. }
  clearbody tp. destruct tp as [[r|[]] p']; exact H.
Qed.

Lemma keeper_one_line m0 mark s sold :
  one_line s sold → one_line (step (Keeper m0 mark) s) (sold_after (Keeper m0 mark) s sold).
Proof.
  intros Hs m. cbn. unfold venue_of at 2.
  unfold on_placer, VenueNativeStopPlacer.on_venue, SimulationRestingStopVenue.keeper_tick. mstep.
  destruct (dget m0 (SimulationRestingStopVenue._orders _)) as [rec|]; cbn; [|apply Hs].
  destruct (SimulationRestingStopVenue.fired rec); cbn; [apply Hs|].
  destruct (to_decimal mark) as [d|]; cbn; [|apply Hs]. destruct (dleb d _); cbn; [|apply Hs].
  destruct (base.decide (m0 = m)) as [<-|Hne].
  - intros reg Hreg. destruct (Hs m0 reg Hreg) as (H1 & H2 & _). split_and!; [done..|].
    unfold venue_of; cbn. rewrite dget_dpop. set_solver.
  - apply (one_line_frame m m0 (stops_of s) _ (placed_of s) _ (venue_of s) _ sold _ Hne (Hs m)); try done;
      unfold venue_of; cbn; [by rewrite dget_dpop_ne, dget_dset_ne|set_solver].
Qed.

Lemma run_one_line ops s sold :
  Forall op_ok ops → one_line s sold → one_line (run ops s) (sold_in ops s sold).
Proof.
  intros Hops. revert s sold. induction Hops as [|o ops Ho _ IH]; intros s sold Hs; [done|].
  cbn [sold_in]. apply (IH (step o s)). destruct o.
  - by apply arm_one_line.
  - by apply tick_one_line.
  - by apply tighten_one_line.
  - by apply exit_one_line.
  - by apply keeper_one_line.
Qed.

Lemma exact_num_price v f : _to_decimal_price (exact_num v) f = to_decimal v.
Proof. by destruct v. Qed.

(** What the keeper answers when the process would answer [b]. *)
Definition keeper_answer (trigger : dec) (b : result bool) : result (option FillResult.t) :=
  match b with
  | Ok true => Ok (Some (SimulationRestingStopVenue.resting_fill trigger))
  | Ok false => Ok None
  | Raise e => Raise e
  end.

(** C14: the off-box keeper and the in-process enforcer hold one line.  Take
    any sequence of arms (at a fraction of 1 to 10000 bps), ticks, tightenings,
    exits and keeper observations of any mints, from a coordinator with no stop
    armed, and a mint [m] whose stop the enforcer holds at the end.  If the
    keeper has not sold [m] since its last successful arm, the venue rests an
    order at exactly the stop's trigger: at every mark the keeper sells exactly
    when the enforcer would fire (and raises exactly when it would), with the
    process dead or alive.  If the keeper has sold [m], it never sells it again
    at any mark. *)
Theorem layers_hold_one_line ops s m st :
  stops_of s = [] → Forall op_ok ops → stop_for m (e_wiring (_enforcer (run ops s))) = Some st →
  ∀ mark, fst (SimulationRestingStopVenue.keeper_tick m mark (venue_of (run ops s))) =
    if base.decide (m ∈ sold_in ops s ∅) then Ok None
    else keeper_answer (StopState.trigger_price st) (StopState.is_breached st (exact_num mark)).
Proof.
  intros Hinit Hops Hst mark. assert (one_line s ∅) as H0 by (intros m' reg; by rewrite Hinit).
  pose proof (run_one_line ops s ∅ Hops H0 m) as H. unfold stop_for in Hst.
  apply fmap_Some in Hst as (reg & Hreg & ->). destruct (H reg Hreg) as (_ & _ & Hline).
  unfold SimulationRestingStopVenue.keeper_tick, StopState.is_breached. mstep.
  destruct (dget m (SimulationRestingStopVenue._orders _)) as [rec|] eqn:Eo; [|by rewrite decide_True].
  destruct Hline as [Hns (Hfi & _ & _ & _ & Htr)]. rewrite decide_False by done.
  rewrite Hfi, exact_num_price. cbn.
  destruct (to_decimal mark) as [d|]; cbn; [|done]. rewrite Htr. by destruct (dleb d _).
Qed.
End Runs.
End Layers.

(** *** Witnesses *)

Definition sample_order : RestingStopOrder.t := RestingStopOrder.mk "M" (dec_of_Z 60) 10000 (Some "sim-resting-1").
Definition sample_placer : VenueNativeStopPlacer.t SimulationRestingStopVenue.t :=
  VenueNativeStopPlacer.mk (SimulationRestingStopVenue.mk
    [("M", SimulationRestingStopVenue.mk_record sample_order false)] [] 1) [("M", sample_order)].

Lemma placer_only_tightens_witness :
  ∃ o', VenueNativeStopPlacer.placed_order "M" (placer_run
      [OpTighten "M" (ExInt 50); OpTighten "M" (ExInt 75); OpCancel "N"] sample_placer) = Some o' ∧
    dle (RestingStopOrder.trigger_price sample_order) (RestingStopOrder.trigger_price o').
Proof.
  apply (placer_only_tightens "M" sample_order); [reflexivity|].
  repeat constructor. discriminate.
Defined.

Definition sample_coordinator : SurvivableStopCoordinator.t SimulationRestingStopVenue.t :=
  SurvivableStopCoordinator.mk (mk_enf (mk_wiring [] 0 None [] None None) [])
    (VenueNativeStopPlacer.mk SimulationRestingStopVenue.__init__ []) sample_switch.
(** Two mints armed; [M]'s line is tightened (a widening is refused), the
    keeper sells [N]. *)
Definition sample_layer_ops (p : Position.t) : list Layers.op :=
  [Layers.Arm "M" (NInt 100) p None 10000; Layers.Arm "N" (NInt 200) p None 5000;
   Layers.Tighten "M" (NInt 50); Layers.Tighten "M" (NInt 80);
   Layers.Keeper "M" (ExInt 81); Layers.Keeper "N" (ExInt 1)].

Lemma layers_hold_one_line_witness :
  let s := Layers.run (λ _ _ _, Raise (RuntimeError "no venue")) sample_clock
             (sample_layer_ops (sample_position OPEN)) sample_coordinator in
  fst (SimulationRestingStopVenue.keeper_tick "M" (ExInt 80) (Layers.venue_of s)) =
    Ok (Some (SimulationRestingStopVenue.resting_fill (dec_of_Z 80))) ∧
  fst (SimulationRestingStopVenue.keeper_tick "M" (ExInt 81) (Layers.venue_of s)) = Ok None ∧
  fst (SimulationRestingStopVenue.keeper_tick "N" (ExInt 1) (Layers.venue_of s)) = Ok None.
Proof.
  set (ops := sample_layer_ops (sample_position OPEN)).
  assert (Forall Layers.op_ok ops) as Hops by (repeat constructor; done).
  pose proof (Layers.layers_hold_one_line (λ _ _ _, Raise (RuntimeError "no venue")) sample_clock
    ops sample_coordinator "M"
    (StopState.mk "M" (dec_of_Z 100) (dec_of_Z 80) StopThresholds.default) eq_refl Hops) as HM.
  pose proof (Layers.layers_hold_one_line (λ _ _ _, Raise (RuntimeError "no venue")) sample_clock
    ops sample_coordinator "N") as HN.
  split; [rewrite HM by (vm_compute; reflexivity); vm_compute; reflexivity|].
  split; [rewrite HM by (vm_compute; reflexivity); vm_compute; reflexivity|].
  erewrite HN; [vm_compute; reflexivity|reflexivity|exact Hops|vm_compute; reflexivity].
Defined.
